(* ===== verification/_CoqProject ===== *)
-Q . S2P
Prelude.v
Text.v
Json.v
Crates.v
CanonicalJson.v
Common.v
Production.v
ProductionProps.v
ChainData.v
ChainCommand.v
ChainPayload.v
ChainTransition.v
ChainEvaluate.v
ChainRepository.v
ChainProps.v
Authority.v
ChainExecution.v
AuthorityProps.v
ChainRecords.v
ChainRequest.v
ChainClosed.v
ChainPromotion.v
LedgerData.v
Copies.v
Ledger.v
LedgerVerify.v
LedgerProps.v
LedgerAudit.v
LedgerGaps.v
LedgerClosure.v
LedgerAttest.v
Outbox.v
Delivery.v
RuntimeRole.v
LedgerConnect.v
Rotation.v
LedgerModel.v
ChainSample.v
Contract.v
Guards.v
RunState.v
Input.v
Kernel.v
Orchestrator.v
Graph.v
Intent.v
Decision.v
Response.v
Action.v
Turn.v
Outcome.v
Trust.v
TurnGraph.v
Execution.v
HumanModel.v
StoreData.v
StoreReplay.v
StoreValidate.v
StoreDisk.v
StoreOps.v
StoreSteps.v
StoreSafety.v
StoreProps.v
StoreSample.v
StoreExamples.v
LedgerSample.v
RotationSample.v
