(* ===== verification/Prelude.v ===== *)
(** * IDR: a verification library for the Intent & Decision Runtime

    The runtime turns a person's input into intents, decisions, responses and actions,
    lets an action take effect only under signed authority, and keeps what happened in a
    store that can be verified afterwards.  This library models its Rust core,
    [src/crates/], and the SQL of [src/crates/idr-store/migrations/] that the core relies
    on, and proves what makes it correct.

    ** The program and the files that model it

    _The contracts_ ([idr-protocol/src/human_centered/], [idr-protocol/src/lib.rs]): each
    contract is built by a constructor that validates, has a digest, and is named by a
    reference.  [Common] (identifiers, references, metadata, lineage), [Intent],
    [Decision], [Turn] with the graph algorithms in [Graph], [Response], [Action],
    [Execution], [Outcome], [HumanModel], [Input], [Guards], [RunState], and [Trust] for
    the signed proofs.  The interface they share is the class [Contract.Contract] with its
    laws; its theorems are proved once for all instances.

    _The assessment kernel and the step machine_ ([idr-runtime/src/legacy.rs],
    [orchestrator.rs]): [Kernel] and [Orchestrator].

    _The contract store_ ([idr-store/src/file_store.rs]): one JSON snapshot and a log of
    anchors.  [StoreData] (state), [StoreReplay] (history, pointers, invalidation),
    [StoreValidate] (the checks of a snapshot), [StoreDisk] (the two files as bytes,
    recovery, the disks a crash can leave), [StoreOps] (the operations).  [StoreSteps]
    gives the abstract machine; [StoreSafety] and [StoreProps] hold its invariants and
    the outcome of each operation.

    _The wire_ ([idr-protocol/src/production.rs]): [CanonicalJson] (the RFC 8785 encoder)
    and [Production] (candidates, proof claims, trust roots); theorems about the latter
    in [ProductionProps].

    _The trust chain_ ([idr-runtime/src/trust_chain.rs]): a pure function from a run, a
    command and its verified proofs to the next run.  [ChainData] (data),
    [ChainCommand] (envelopes), [ChainPayload] (payload validators), [ChainTransition]
    (guards and records), [ChainEvaluate] (one definition per command, 23 arms),
    [ChainRepository] (the transitions the repository makes itself).  Theorems:
    [ChainProps], [ChainExecution], [ChainRecords], [ChainRequest], [ChainClosed],
    [ChainPromotion], [TurnGraph].

    _The authority store_ ([idr-runtime/src/postgres_authority.rs]): the orchestrator that
    verifies the proofs of a command, evaluates it and writes the result in one
    transaction.  [Authority] holds its decisions, over abstract tables; [LedgerData] the
    rows of the tables and [Ledger] the transaction itself, row by row; [Copies] the rows
    kept by kind of record and the query of the human model; [LedgerVerify] the
    verification at a start; [LedgerConnect] the start and the migration of a production
    schema, with [RuntimeRole] for the check of the database role; [Rotation] the provider
    of the trust root, replaced while transactions run; [Outbox] the delivery of events,
    with [Delivery] for its liveness.  Theorems, beside those of these files:
    [AuthorityProps], [LedgerProps], [LedgerAudit], [LedgerClosure], [LedgerAttest],
    [LedgerGaps], [LedgerModel].

    [ChainSample], [LedgerSample], [RotationSample], [StoreSample] and [StoreExamples]
    evaluate the definitions on concrete runs; most witnesses are taken from them.
    [Text], [Json] and [Crates] hold what all parts use: Rust strings,
    [serde_json::Value], and the third-party code.

    ** Conventions

    Definitions keep the names of the source; a struct is a Module of that name with its
    record [t] and its functions.  [Result], [x ← e; k], and [reject b with e; k]
    are Rust's [Result], [?] and an early return.  A machine integer is an [N] (or [Z]);
    where the source adds, the wrap or the checked operation is written out.  A
    [BTreeMap] or [HashMap] is a [gmap], iterated in the order of its keys where the
    order shows ([Ord]).  A value the source draws at random or reads from a clock (a
    UUID, the time) is an argument.  A SQL statement is the function on rows it computes;
    the keys, checks and triggers that decide whether it succeeds are part of it.  A
    transaction that fails leaves the tables as they were.

    ** What the theorems show

    _Authority._  An accepted command carried every proof it needs, made for it, fresh
    and verified ([accepted_command_is_authorised]); a proof is consumed once
    ([proofs_are_consumed_once]); what is executed is the request that was admitted
    ([executed_request_is_the_admitted_one]); a dispatch needs authority that is live
    ([dispatch_needs_live_authority], [lease_is_the_deadline]), and a dispatched effect is
    never forgotten ([dispatched_effect_is_never_forgotten]).  A trust root that has been
    replaced verifies nothing any more, and a key taken out of it signs nothing
    ([superseded_root_verifies_nothing], [withdrawn_key_signs_nothing]).

    _Refinement._  The rows refine the abstract tables ([ledger_refines_authority]), so
    what is proved of [Authority] holds of the database; the operations of the contract
    store refine the steps of its machine ([operations_refine_steps]).

    _The database._  A command is applied once however often it is sent
    ([command_is_applied_once]); an idempotency key names one execution; each accepted
    command extends the audit chain of its tenant, which binds the whole history
    ([accepted_command_extends_the_chain], [audit_chain_binds_history]); attestations stay
    authentic; a rollback behind the anchor is detected; copies repeat their records; the
    check of the trust domain passes on whatever the authority wrote.

    _Withdrawal and the human model._  The recursive query ends and finds exactly what is
    derived from a record ([invalidation_closure_is_exact]), a withdrawal reaches all of
    it, and none of it is told afterwards ([withdrawn_evidence_is_never_told]); what is
    told was promoted by a decision that supports it ([effective_assertion_was_promoted],
    [promoted_assertion_is_supported]).

    _Delivery._  A lease is exclusive and an event is delivered once ([lease_is_exclusive],
    [event_is_delivered_once]).  Every event that is due is delivered after as many rounds
    in which it is offered as there are undelivered events before it, whatever other
    workers do meanwhile; that the calls of a round succeed is proved, that it is offered
    is the fairness assumed ([worker_drains_the_outbox]).

    _Encodings and graphs._  The canonical encoding is injective, digests bind records and
    proofs bind commands; both cycle searches decide acyclicity
    ([kahn_decides_acyclicity], [turn_search_decides_acyclicity]).

    _The contract store._  A crash leaves the old state or the new one, replay agrees with
    a commit, attempts are permanent.

    _Where the code falls short._  [LedgerGaps], the end of [LedgerModel] and of
    [LedgerConnect], and theorems of [StoreSample], [StoreSafety], [Execution],
    [Orchestrator], [ChainProps] and [AuthorityProps] prove behaviour that contradicts
    the code's own comments or its other half: an authority whose lapse freezes the run,
    an admission that breaks the verification for as long as a run holds it, a correction
    that is never stored, a promotion after which no command withdraws by name, an anchor
    that does not bind who acted and what the events say.

    ** Termination and fuel

    Every loop that is not structural carries fuel and is proved never to run out of it:
    [Graph.drain] one more than the nodes and [Graph.search] two more than the edges;
    [ChainPayload.visit] one more than the nodes of the turn; [Ledger.saturate] one more
    than the dependency rows; [StoreReplay.propagate] two
    more than the current pointers;
    [Json.walk] the size of the value.  No theorem is conditional on fuel.

    ** Parameters

    [Crates] is the third-party code: SHA-256, the JSON printer, UUIDs, Ed25519;
    [CratesLaws] the documented behaviour theorems rely on, and [Toy] a concrete instance
    of both.  That SHA-256 has no collisions is assumed nowhere: a theorem that needs it
    concludes that the values agree or exhibits two inputs with one digest.  [UuidParser] parses a UUID;
    [StoreDisk.Serde] is the printer and parser of the snapshot; [AnchorBackend] with
    [AnchorLaws] is the external anchor, of which the repository has an implementation
    in memory, an instance of both.

    ** Not modelled

    I/O errors, file locks and directory syncs; the migration runner; how PostgreSQL
    answers the questions about privileges ([RuntimeRole.Catalog] holds the answers);
    serialisation failures and the retry
    of a client (a transaction is one step of the tables, taken in some order); rows
    locked by other transactions, which [Outbox] takes as an argument; triggers and
    foreign keys that compare columns one statement wrote from the same value, and the
    triggers on cycles and lineage among the dependencies with a few unique constraints
    (there the model accepts more than the database does).  The generators of schemas and fixtures, the TypeScript client, the research scripts and
    the integration packs hold no logic of the core.  The store's mutex and the copy it
    caches are left out: every operation reloads under the lock. *)

From stdpp Require Import base list gmap sorting countable strings.
From Stdlib Require Import NArith ZArith Lia.

(** ** Results: Rust's [Result<T, E>] with [?] as the monadic bind *)

Inductive Result (E A : Type) : Type :=
| Ok (a : A)
| Err (e : E).
Arguments Ok {E A} a.
Arguments Err {E A} e.

#[export] Instance result_ret E : MRet (Result E) := fun A a => Ok a.
#[export] Instance result_bind E : MBind (Result E) :=
  fun A B f m => match m with Ok a => f a | Err e => Err e end.
#[export] Instance result_fmap E : FMap (Result E) :=
  fun A B f m => match m with Ok a => Ok (f a) | Err e => Err e end.

#[export] Instance result_eq_dec {E A} `{EqDecision E, EqDecision A} :
  EqDecision (Result E A).
Proof. solve_decision. Defined.

Declare Scope idr_scope.
Delimit Scope idr_scope with idr.
#[global] Open Scope idr_scope.
#[global] Open Scope N_scope.

(** [if cond { return Err(e); }] followed by the rest of the body. *)
Notation "'reject' b 'with' e ; k" := (if b then Err e else k)
  (at level 10, b at level 99, e at level 99, k at level 200,
   format "'reject'  b  'with'  e ;  '//' k") : idr_scope.

(** [PartialEq] on a type whose equality is derived. *)
Notation "x == y" := (bool_decide (x = y)) (at level 70, no associativity) : idr_scope.
Notation "x != y" := (negb (bool_decide (x = y))) (at level 70, no associativity) : idr_scope.

Section result_ops.
Context {E A : Type}.

(** [.map_err(f)] *)
Definition map_err {E'} (f : E -> E') (m : Result E A) : Result E' A :=
  match m with Ok a => Ok a | Err e => Err (f e) end.

(** [.ok()] *)
Definition ok (m : Result E A) : option A :=
  match m with Ok a => Some a | Err _ => None end.

(** [.is_err()] *)
Definition is_err (m : Result E A) : bool :=
  match m with Ok _ => false | Err _ => true end.

(** [.ok_or(e)] *)
Definition ok_or (e : E) (o : option A) : Result E A :=
  match o with Some a => Ok a | None => Err e end.

(** [for x in l { f(x)?; }] *)
Fixpoint for_each (f : A -> Result E unit) (l : list A) : Result E unit :=
  match l with
  | [] => Ok tt
  | x :: l => _ ← f x; for_each f l
  end.
End result_ops.

(** [o.map(f).transpose()?] *)
Definition transpose {E A B} (f : A -> Result E B) (o : option A) : Result E (option B) :=
  match o with Some a => b ← f a; Ok (Some b) | None => Ok None end.

(** ** Machine integers: an unsigned [w]-bit integer is an [N] below [2^w] *)

Definition u16_max : N := 65535.
Definition u32_max : N := 4294967295.
Definition u64_max : N := 18446744073709551615.

(** [x.checked_add(1)] at a width given by its largest value *)
Definition checked_succ (max x : N) : option N :=
  if x <? max then Some (x + 1) else None.

(** [v.len()] as an unsigned integer *)
Definition lenN {A} (l : list A) : N := N.of_nat (length l).

(** [v.is_empty()] *)
Definition is_nil {A} (l : list A) : bool := match l with [] => true | _ => false end.

(** [o.is_some()] and [o.is_some_and(f)] *)
Definition is_some {A} (o : option A) : bool := match o with Some _ => true | None => false end.
Definition is_some_and {A} (f : A -> bool) (o : option A) : bool :=
  match o with Some a => f a | None => false end.
(** [o.is_none_or(f)] *)
Definition is_none_or {A} (f : A -> bool) (o : option A) : bool :=
  match o with Some a => f a | None => true end.

(** [v.contains(&x)] *)
Definition contains {A} `{EqDecision A} (x : A) (l : list A) : bool := bool_decide (x ∈ l).

(** [v.iter().any(f)] and [v.iter().all(f)] are [existsb] and [forallb]. *)

(** [v.dedup()]: drop the elements equal to their predecessor *)
Fixpoint dedup {A} `{EqDecision A} (l : list A) : list A :=
  match l with
  | [] => []
  | x :: l' =>
      match l' with
      | [] => [x]
      | y :: _ => if x == y then dedup l' else x :: dedup l'
      end
  end.

(** [v.iter().find(f)] *)
Fixpoint find_first {A} (f : A -> bool) (l : list A) : option A :=
  match l with
  | [] => None
  | x :: l => if f x then Some x else find_first f l
  end.

(** [v.iter().position(f)] *)
Fixpoint position {A} (f : A -> bool) (l : list A) : option nat :=
  match l with
  | [] => None
  | x :: l => if f x then Some O else S <$> position f l
  end.

(** ** Total orders: Rust's [Ord], and the sort it induces *)

Class Ord (A : Type) := cmp : A -> A -> comparison.

Class OrdLaws (A : Type) `{Ord A} := {
  cmp_eq : forall x y : A, cmp x y = Eq <-> x = y;
  cmp_antisym : forall x y : A, cmp y x = CompOpp (cmp x y);
  cmp_trans : forall x y z : A, cmp x y <> Gt -> cmp y z <> Gt -> cmp x z <> Gt;
}.

Definition ord_le {A} `{Ord A} (x y : A) : Prop := cmp x y <> Gt.

#[export] Instance ord_le_dec {A} `{Ord A} (x y : A) : Decision (ord_le x y).
Proof. unfold ord_le. apply _. Defined.

(** [v.sort()] *)
Definition sort {A} `{Ord A} (l : list A) : list A := merge_sort ord_le l.

(** Lexicographic composition, as [#[derive(Ord)]] builds it from the fields. *)
Definition cmp_then (c d : comparison) : comparison :=
  match c with Eq => d | _ => c end.

#[export] Instance ord_N : Ord N := N.compare.
#[export] Instance ord_list {A} `{Ord A} : Ord (list A) :=
  fix go (l k : list A) : comparison :=
    match l, k with
    | [], [] => Eq
    | [], _ :: _ => Lt
    | _ :: _, [] => Gt
    | x :: l, y :: k => cmp_then (cmp x y) (go l k)
    end.

(** ** Automation: results, booleans, orders *)

Section result_lemmas.
Context {E A B : Type}.

Lemma bind_Ok (m : Result E A) (f : A -> Result E B) y :
  (x ← m; f x) = Ok y <-> exists x, m = Ok x /\ f x = Ok y.
Proof. destruct m; cbn; naive_solver. Qed.

Lemma bind_Err (m : Result E A) (f : A -> Result E B) e :
  (x ← m; f x) = Err e <-> m = Err e \/ exists x, m = Ok x /\ f x = Err e.
Proof. destruct m; cbn; naive_solver. Qed.

(** A check whose value is unit. *)
Lemma bind_unit_Ok (m : Result E unit) (k : Result E A) y :
  (_ ← m; k) = Ok y <-> m = Ok tt /\ k = Ok y.
Proof. destruct m as [[]|]; cbn; naive_solver. Qed.

Lemma reject_Ok (b : bool) (e : E) (k : Result E A) y :
  (reject b with e; k) = Ok y <-> b = false /\ k = Ok y.
Proof. destruct b; naive_solver. Qed.

Lemma map_err_Ok {E'} (f : E -> E') (m : Result E A) y :
  map_err f m = Ok y <-> m = Ok y.
Proof. destruct m; naive_solver. Qed.

Lemma ok_or_Ok (e : E) (o : option A) y : ok_or e o = Ok y <-> o = Some y.
Proof. destruct o; naive_solver. Qed.

Lemma ok_Some (m : Result E A) y : ok m = Some y <-> m = Ok y.
Proof. destruct m; naive_solver. Qed.

Lemma is_err_false (m : Result E unit) : is_err m = false <-> m = Ok tt.
Proof. destruct m as [[]|]; naive_solver. Qed.

Lemma for_each_Ok (f : A -> Result E unit) l :
  for_each f l = Ok tt <-> Forall (fun x => f x = Ok tt) l.
Proof.
  induction l as [|x l IH]; cbn; [by split; [constructor|]|].
  rewrite Forall_cons, <- IH. destruct (f x) as [[]|]; cbn; naive_solver.
Qed.

Lemma for_each_any (f : A -> Result E unit) l u :
  for_each f l = Ok u <-> for_each f l = Ok tt.
Proof. by destruct u. Qed.

Lemma transpose_Ok (f : A -> Result E B) o r :
  transpose f o = Ok r <->
    match o with Some a => exists b, f a = Ok b /\ r = Some b | None => r = None end.
Proof. destruct o; cbn; [|naive_solver]. destruct (f a); cbn; naive_solver. Qed.
End result_lemmas.

Lemma bool_decide_false_iff {P} `{Decision P} : bool_decide P = false <-> ~ P.
Proof. destruct (bool_decide_reflect P); naive_solver. Qed.
Lemma bool_decide_true_iff {P} `{Decision P} : bool_decide P = true <-> P.
Proof. destruct (bool_decide_reflect P); naive_solver. Qed.

Lemma contains_true {A} `{EqDecision A} (x : A) l : contains x l = true <-> x ∈ l.
Proof. apply bool_decide_true_iff. Qed.
Lemma contains_false {A} `{EqDecision A} (x : A) l : contains x l = false <-> x ∉ l.
Proof. apply bool_decide_false_iff. Qed.

Lemma existsb_false {A} (f : A -> bool) l :
  existsb f l = false <-> Forall (fun x => f x = false) l.
Proof.
  induction l as [|x l IH]; cbn; [by split; [constructor|]|].
  rewrite Forall_cons, orb_false_iff, IH. done.
Qed.
Lemma existsb_true {A} (f : A -> bool) l :
  existsb f l = true <-> Exists (fun x => f x = true) l.
Proof.
  induction l as [|x l IH]; cbn; [split; [done|by inversion 1]|].
  rewrite Exists_cons, orb_true_iff, IH. done.
Qed.
Lemma forallb_true {A} (f : A -> bool) l :
  forallb f l = true <-> Forall (fun x => f x = true) l.
Proof.
  induction l as [|x l IH]; cbn; [by split; [constructor|]|].
  rewrite Forall_cons, andb_true_iff, IH. done.
Qed.

Lemma is_nil_true {A} (l : list A) : is_nil l = true <-> l = [].
Proof. destruct l; naive_solver. Qed.
Lemma is_nil_false {A} (l : list A) : is_nil l = false <-> l <> [].
Proof. destruct l; naive_solver. Qed.
Lemma is_some_true {A} (o : option A) : is_some o = true <-> exists x, o = Some x.
Proof. destruct o; naive_solver. Qed.
Lemma is_some_false {A} (o : option A) : is_some o = false <-> o = None.
Proof. destruct o; naive_solver. Qed.

(** [idr_bool] rewrites the boolean guards of a body into propositions. *)
Create Rewrite HintDb idr_bool.
#[export] Hint Rewrite orb_false_iff orb_true_iff andb_true_iff andb_false_iff
  negb_true_iff negb_false_iff @bool_decide_false_iff @bool_decide_true_iff
  @contains_true @contains_false @existsb_false @existsb_true @forallb_true
  @is_nil_true @is_nil_false @is_some_true @is_some_false
  N.ltb_lt N.ltb_ge N.leb_le N.leb_gt N.eqb_eq N.eqb_neq @is_err_false : idr_bool.

Ltac bsimp := repeat (autorewrite with idr_bool in *; destruct_and?).

(** [inv_ok] opens a hypothesis [body = Ok y], body being a chain of binds,
    guards and conversions, into the facts of each step. *)
Ltac inv_ok_step :=
  match goal with
  | H : (_ ≫= _) = Ok _ |- _ => apply bind_Ok in H as (? & ? & ?)
  | H : mbind _ _ = Ok _ |- _ => apply bind_Ok in H as (? & ? & ?)
  | H : (if ?b then Err _ else _) = Ok _ |- _ => apply reject_Ok in H as [? ?]
  | H : map_err _ _ = Ok _ |- _ => apply map_err_Ok in H
  | H : ok_or _ _ = Ok _ |- _ => apply ok_or_Ok in H
  | H : Ok _ = Ok _ |- _ => injection H as H; subst
  | H : Err _ = Ok _ |- _ => discriminate H
  | H : for_each _ _ = Ok _ |- _ => apply for_each_any in H; apply for_each_Ok in H
  | u : unit |- _ => destruct u
  end.
Ltac inv_ok := repeat inv_ok_step.

(** [mk_ok] proves [body = Ok y] from the facts of its steps: each guard is
    computed to [false] and each bound call to its result. *)
Ltac mk_ok_step :=
  match goal with
  | |- (_ ≫= _) = Ok _ => apply bind_Ok; eexists; split; [solve [eauto]|]
  | |- mbind _ _ = Ok _ => apply bind_Ok; eexists; split; [solve [eauto]|]
  | |- (if _ then Err _ else _) = Ok _ => apply reject_Ok; split; [solve [eauto]|]
  end.

(** ** Lists *)

Lemma find_first_Some {A} (f : A -> bool) l x :
  find_first f l = Some x -> x ∈ l /\ f x = true.
Proof.
  induction l as [|y l IH]; cbn; [done|]. destruct (f y) eqn:E.
  - intros [= <-]. split; [left|done].
  - intros ?%IH. split; [right|]; naive_solver.
Qed.

Lemma find_first_None {A} (f : A -> bool) l :
  find_first f l = None <-> Forall (fun x => f x = false) l.
Proof.
  induction l as [|y l IH]; cbn; [by split; [constructor|]|].
  rewrite Forall_cons, <- IH. destruct (f y); naive_solver.
Qed.

Lemma find_first_app {A} (f : A -> bool) l l' x : find_first f l = Some x -> find_first f (l ++ l') = Some x.
Proof. induction l as [|y l IH]; cbn; [done|]. by destruct (f y). Qed.

Lemma find_first_unique {A} (f : A -> bool) l x :
  x ∈ l -> f x = true -> (forall y, y ∈ l -> f y = true -> y = x) ->
  find_first f l = Some x.
Proof.
  induction 1 as [x l|x z l Hx IH]; cbn; intros Hf Hu.
  - by rewrite Hf.
  - destruct (f z) eqn:E.
    + f_equal. apply Hu; [left|done].
    + apply IH; [done|]. intros y Hy. apply Hu. by right.
Qed.

Lemma find_first_ext {A} (f g : A -> bool) l :
  (forall x, x ∈ l -> f x = g x) -> find_first f l = find_first g l.
Proof.
  induction l as [|y l IH]; cbn; intros Hfg; [done|].
  rewrite (Hfg y) by left. destruct (g y); [done|]. apply IH.
  intros x Hx. apply Hfg. by right.
Qed.

Lemma filter_ext_in {A} (P Q : A -> Prop) `{forall x, Decision (P x), forall x, Decision (Q x)}
    (l : list A) :
  (forall x, x ∈ l -> P x <-> Q x) -> filter P l = filter Q l.
Proof.
  induction l as [|y l IH]; intros Hpq; [done|].
  assert (P y <-> Q y) as Hy by (apply Hpq; left).
  rewrite !filter_cons, IH by (intros x Hx; apply Hpq; by right).
  repeat case_decide; tauto.
Qed.

Lemma elem_of_dedup {A} `{EqDecision A} (l : list A) x : x ∈ dedup l <-> x ∈ l.
Proof.
  induction l as [|y l IH]; [done|]. destruct l as [|z l]; [done|].
  change (dedup (y :: z :: l)) with (if y == z then dedup (z :: l) else y :: dedup (z :: l)).
  destruct (bool_decide_reflect (y = z)) as [->|].
  - rewrite IH, !elem_of_cons. naive_solver.
  - rewrite elem_of_cons, IH, (elem_of_cons (z :: l)). done.
Qed.

Lemma dedup_NoDup_id {A} `{EqDecision A} (l : list A) : NoDup l -> dedup l = l.
Proof.
  induction 1 as [|x l Hx Hl IH]; [done|]. destruct l as [|y l]; [done|].
  change (dedup (x :: y :: l)) with (if x == y then dedup (y :: l) else x :: dedup (y :: l)).
  rewrite bool_decide_eq_false_2 by (intros ->; apply Hx; left). by rewrite IH.
Qed.

(** ** Laws of the derived orders *)

Section ord_laws.
Context {A : Type} `{OrdLaws A}.

Lemma cmp_refl (x : A) : cmp x x = Eq.
Proof. by apply cmp_eq. Qed.

Lemma cmp_lt_trans (x y z : A) : cmp x y = Lt -> cmp y z = Lt -> cmp x z = Lt.
Proof.
  intros Hxy Hyz. destruct (cmp x z) eqn:E; [| done |].
  - apply cmp_eq in E as ->. rewrite (cmp_antisym z y), Hxy in Hyz. done.
  - exfalso. apply (cmp_trans x y z); congruence.
Qed.

#[global] Instance ord_le_preorder : PreOrder (@ord_le A _).
Proof.
  split; [intros x; unfold ord_le; by rewrite cmp_refl|].
  intros x y z; unfold ord_le; eauto using cmp_trans.
Qed.

#[global] Instance ord_le_antisymm : AntiSymm (=) (@ord_le A _).
Proof.
  intros x y Hxy Hyx. unfold ord_le in *. apply cmp_eq.
  rewrite (cmp_antisym x y) in Hyx. destruct (cmp x y); done.
Qed.

#[global] Instance ord_le_total : Total (@ord_le A _).
Proof.
  intros x y. unfold ord_le. rewrite (cmp_antisym x y). destruct (cmp x y); auto.
Qed.

Lemma sort_perm (l : list A) : sort l ≡ₚ l.
Proof. apply merge_sort_Permutation. Qed.

Lemma sort_sorted (l : list A) : StronglySorted ord_le (sort l).
Proof. apply Sorted_StronglySorted; [apply _|]. apply Sorted_merge_sort, _. Qed.

Lemma elem_of_sort (l : list A) x : x ∈ sort l <-> x ∈ l.
Proof. by rewrite sort_perm. Qed.

(** Sorting forgets the order in which a collection was given. *)
Lemma sort_perm_eq (l k : list A) : l ≡ₚ k -> sort l = sort k.
Proof.
  intros Hp. apply (StronglySorted_unique ord_le); auto using sort_sorted.
  by rewrite !sort_perm.
Qed.

Lemma sort_id (l : list A) : StronglySorted ord_le l -> sort l = l.
Proof.
  intros Hl. apply (StronglySorted_unique ord_le); auto using sort_sorted, sort_perm.
Qed.

Context `{EqDecision A}.

Lemma dedup_StronglySorted (l : list A) :
  StronglySorted ord_le l -> StronglySorted ord_le (dedup l) /\ NoDup (dedup l).
Proof.
  induction 1 as [|x l Hl IH Hx]; [repeat constructor|].
  destruct IH as [IH1 IH2].
  destruct l as [|y l]; [cbn; split; [repeat constructor|apply NoDup_singleton]|].
  change (dedup (x :: y :: l)) with (if x == y then dedup (y :: l) else x :: dedup (y :: l)).
  destruct (bool_decide_reflect (x = y)) as [|Hne]; [done|].
  split.
  - constructor; [done|]. rewrite Forall_forall in Hx |- *.
    intros z. rewrite elem_of_dedup. auto.
  - constructor; [|done]. rewrite elem_of_dedup. intros Hin. apply Hne, (anti_symm ord_le).
    + by apply Forall_inv in Hx.
    + apply elem_of_cons in Hin as [->|Hin]; [reflexivity|].
      apply StronglySorted_inv in Hl as [_ Hl]. revert x Hin Hx Hne. 
      rewrite Forall_forall in Hl. auto.
Qed.

(** Sorted lists without repetition are determined by their elements. *)
Lemma StronglySorted_set_eq (l k : list A) :
  StronglySorted ord_le l -> StronglySorted ord_le k -> NoDup l -> NoDup k ->
  (forall x, x ∈ l <-> x ∈ k) -> l = k.
Proof.
  intros Hl Hk Nl Nk Hlk. apply (StronglySorted_unique ord_le); auto.
  by apply NoDup_Permutation.
Qed.
End ord_laws.

#[export] Instance ord_N_laws : OrdLaws N.
Proof.
  split; unfold cmp, ord_N.
  - apply N.compare_eq_iff.
  - intros x y. apply N.compare_antisym.
  - intros x y z. rewrite <- !N.le_ngt || idtac. unfold not.
    rewrite !N.compare_gt_iff. lia.
Qed.

Lemma cmp_then_Eq c d : cmp_then c d = Eq <-> c = Eq /\ d = Eq.
Proof. destruct c; naive_solver. Qed.
Lemma cmp_then_nGt c d : cmp_then c d <> Gt <-> c = Lt \/ (c = Eq /\ d <> Gt).
Proof. destruct c; naive_solver. Qed.
Lemma cmp_then_opp c d : CompOpp (cmp_then c d) = cmp_then (CompOpp c) (CompOpp d).
Proof. by destruct c. Qed.

#[export] Instance ord_list_laws {A} `{OrdLaws A} : OrdLaws (list A).
Proof.
  split.
  - intros l. induction l as [|x l IH]; intros [|y k]; try done.
    change (cmp (x :: l) (y :: k)) with (cmp_then (cmp x y) (cmp l k)).
    rewrite cmp_then_Eq, IH, cmp_eq. naive_solver.
  - intros l. induction l as [|x l IH]; intros [|y k]; try done.
    change (cmp_then (cmp y x) (cmp k l) = CompOpp (cmp_then (cmp x y) (cmp l k))).
    by rewrite cmp_then_opp, IH, (cmp_antisym x y).
  - intros l. induction l as [|x l IH]; intros [|y k] [|z m]; try done.
    change (cmp_then (cmp x y) (cmp l k) <> Gt -> cmp_then (cmp y z) (cmp k m) <> Gt ->
            cmp_then (cmp x z) (cmp l m) <> Gt).
    rewrite !cmp_then_nGt. intros [Hxy|[Hxy Hlk]] [Hyz|[Hyz Hkm]].
    + left. eauto using cmp_lt_trans.
    + apply cmp_eq in Hyz as ->. auto.
    + apply cmp_eq in Hxy as ->. auto.
    + apply cmp_eq in Hxy as ->, Hyz as ->. right. split; [apply cmp_refl|eauto].
Qed.

#[export] Instance ord_prod {A B} `{Ord A, Ord B} : Ord (A * B) :=
  fun p q => cmp_then (cmp p.1 q.1) (cmp p.2 q.2).

#[export] Instance ord_prod_laws {A B} `{OrdLaws A, OrdLaws B} : OrdLaws (A * B).
Proof.
  split; unfold cmp, ord_prod.
  - intros [x a] [y b]; cbn. rewrite cmp_then_Eq, !cmp_eq. naive_solver.
  - intros [x a] [y b]; cbn. by rewrite cmp_then_opp, (cmp_antisym x y), (cmp_antisym a b).
  - intros [x a] [y b] [z c]; cbn. rewrite !cmp_then_nGt.
    intros [Hxy|[Hxy Hab]] [Hyz|[Hyz Hbc]].
    + left. eauto using cmp_lt_trans.
    + apply cmp_eq in Hyz as ->. auto.
    + apply cmp_eq in Hxy as ->. auto.
    + apply cmp_eq in Hxy as ->, Hyz as ->. right. split; [apply cmp_refl|eauto using cmp_trans].
Qed.

(** An order read off an injective key. *)
Lemma ord_laws_key {A B} `{OrdLaws B} (o : Ord A) (key : A -> B) :
  (forall x y, @cmp A o x y = cmp (key x) (key y)) ->
  (forall x y, key x = key y -> x = y) ->
  @OrdLaws A o.
Proof.
  intros Hc Hi. split.
  - intros x y. rewrite Hc, cmp_eq. naive_solver.
  - intros x y. rewrite !Hc. apply cmp_antisym.
  - intros x y z. rewrite !Hc. apply cmp_trans.
Qed.

(** ** Counting distinct elements *)

Section distinct.
Context {A : Type} `{Countable A}.

Lemma size_list_to_set_le (l : list A) : (size (list_to_set l : gset A) <= length l)%nat.
Proof.
  induction l as [|x l IH]; [done|]. cbn [list_to_set length].
  destruct (decide (x ∈ (list_to_set l : gset A))) as [Hx|Hx].
  - rewrite subseteq_union_1_L; [lia|]. by apply singleton_subseteq_l.
  - rewrite size_union, size_singleton; [lia|]. by apply disjoint_singleton_l.
Qed.

(** Collecting into a set keeps the length exactly when nothing repeats. *)
Lemma NoDup_size (l : list A) : N.of_nat (size (list_to_set l : gset A)) = lenN l <-> NoDup l.
Proof.
  unfold lenN. split.
  - induction l as [|x l IH]; [constructor|]. cbn [list_to_set length]. intros Hs.
    pose proof (size_list_to_set_le l).
    destruct (decide (x ∈ (list_to_set l : gset A))) as [Hx|Hx].
    + rewrite subseteq_union_1_L in Hs by (by apply singleton_subseteq_l). lia.
    + rewrite size_union, size_singleton in Hs by (by apply disjoint_singleton_l).
      constructor; [by rewrite elem_of_list_to_set in Hx|]. apply IH. lia.
  - intros Hn. by rewrite size_list_to_set.
Qed.
End distinct.

Lemma remove_dups_NoDup {A} `{EqDecision A} (l : list A) : lenN (remove_dups l) = lenN l <-> NoDup l.
Proof.
  unfold lenN. split.
  - intros Hl. apply Nat2N.inj in Hl.
    assert (remove_dups l ≡ₚ l) as <-; [|apply NoDup_remove_dups].
    apply submseteq_length_Permutation; [|lia].
    apply NoDup_submseteq; [apply NoDup_remove_dups|]. intros x. by rewrite elem_of_remove_dups.
  - induction 1 as [|x l Hx Hn IH]; [done|]. cbn. case_match; [done|]. cbn [length]. lia.
Qed.
