(* ===== verification/Text.v ===== *)
(** * Text: Rust strings, UTF-8, hexadecimal and big-endian bytes

    A Rust [String]/[&str] is the list of its Unicode scalar values; its
    [len()], [bytes()] and [as_bytes()] are those of its UTF-8 encoding.  The
    file also holds the byte helpers of [trust.rs] and [production.rs]
    ([append_text], [decode_hex], [decode_nibble], [valid_digest]) and the
    lemmas that make length-prefixed encodings injective. *)

From stdpp Require Import base list strings pretty.
From Stdlib Require Import NArith Lia.
From S2P Require Import Prelude.

(** A Unicode scalar value and a string of them. *)
Notation char := N (only parsing).
Notation text := (list N) (only parsing).

(** An ASCII literal of the source. *)
Definition txt (s : string) : text := map Ascii.N_of_ascii (String.list_ascii_of_string s).

Definition is_scalar (c : char) : bool := (c <? 1114112) && negb ((55296 <=? c) && (c <=? 57343)).

(** [char::is_whitespace]: the White_Space property. *)
Definition is_whitespace (c : char) : bool :=
  ((9 <=? c) && (c <=? 13)) || (c =? 32) || (c =? 133) || (c =? 160) || (c =? 5760)
  || ((8192 <=? c) && (c <=? 8202)) || (c =? 8232) || (c =? 8233) || (c =? 8239)
  || (c =? 8287) || (c =? 12288).

(** [char::is_control]: the general category Cc. *)
Definition is_control (c : char) : bool := (c <=? 31) || ((127 <=? c) && (c <=? 159)).

Fixpoint drop_while (f : char -> bool) (t : text) : text :=
  match t with
  | [] => []
  | c :: t' => if f c then drop_while f t' else t
  end.

(** [str::trim] *)
Definition trim (t : text) : text :=
  reverse (drop_while is_whitespace (reverse (drop_while is_whitespace t))).

(** ** UTF-8 *)

Definition encode_char (c : char) : list N :=
  if c <? 128 then [c]
  else if c <? 2048 then [192 + c / 64; 128 + c mod 64]
  else if c <? 65536 then [224 + c / 4096; 128 + (c / 64) mod 64; 128 + c mod 64]
  else [240 + c / 262144; 128 + (c / 4096) mod 64; 128 + (c / 64) mod 64; 128 + c mod 64].

(** [str::as_bytes] and [str::len] *)
Definition as_bytes (t : text) : list N := concat (map encode_char t).
Definition str_len (t : text) : N := lenN (as_bytes t).

Lemma encode_char_app_inj c d l k :
  c < 1114112 -> d < 1114112 ->
  encode_char c ++ l = encode_char d ++ k -> c = d /\ l = k.
Proof.
  intros Hc Hd. unfold encode_char.
  repeat case_match; rewrite ?N.ltb_lt, ?N.ltb_ge in *; cbn; intros [=]; split;
    try done; zify; Z.to_euclidean_division_equations; lia.
Qed.

Lemma encode_char_cons c : exists b l, encode_char c = b :: l.
Proof. unfold encode_char. repeat case_match; eauto. Qed.

Definition scalar_text (t : text) : Prop := Forall (fun c => c < 1114112) t.

Lemma as_bytes_inj t u :
  scalar_text t -> scalar_text u -> as_bytes t = as_bytes u -> t = u.
Proof.
  unfold as_bytes. revert u. induction t as [|c t IH]; intros [|d u]; cbn [map concat]; try done.
  - destruct (encode_char_cons d) as (b & l & ->). done.
  - destruct (encode_char_cons c) as (b & l & ->). done.
  - unfold scalar_text. rewrite !Forall_cons. intros [Hc Ht] [Hd Hu] [-> Heq]%encode_char_app_inj; auto.
    f_equal. auto.
Qed.

Lemma as_bytes_app t u : as_bytes (t ++ u) = as_bytes t ++ as_bytes u.
Proof. unfold as_bytes. by rewrite map_app, concat_app. Qed.

Lemma as_bytes_ascii t : Forall (fun c => c < 128) t -> as_bytes t = t.
Proof.
  unfold as_bytes. induction 1 as [|c t Hc Ht IH]; cbn; [done|].
  rewrite IH. unfold encode_char. by rewrite (proj2 (N.ltb_lt _ _) Hc).
Qed.

(** [str::strip_prefix] *)
Fixpoint strip_prefix (p t : text) : option text :=
  match p, t with
  | [], _ => Some t
  | c :: p, d :: t => if c == d then strip_prefix p t else None
  | _ :: _, [] => None
  end.

Lemma strip_prefix_Some p t u : strip_prefix p t = Some u <-> t = p ++ u.
Proof.
  revert t. induction p as [|c p IH]; intros [|d t]; cbn; [naive_solver..|].
  destruct (bool_decide_reflect (c = d)) as [->|]; [rewrite IH|]; naive_solver.
Qed.

(** [u64::to_string], as [format!("{}", n)] prints it *)
Definition dec_text (n : N) : text := txt (pretty n).

(** ** Hexadecimal *)

(** [byte.is_ascii_digit() || (b'a'..=b'f').contains(&byte)] *)
Definition is_lower_hex (b : N) : bool := ((48 <=? b) && (b <=? 57)) || ((97 <=? b) && (b <=? 102)).

(** [valid_digest], the same function in [common.rs], [production.rs] and the store *)
Definition valid_digest (value : text) : bool :=
  (str_len value =? 64) && forallb is_lower_hex (as_bytes value).

Definition decode_nibble (value : N) : option N :=
  if (48 <=? value) && (value <=? 57) then Some (value - 48)
  else if (97 <=? value) && (value <=? 102) then Some (value - 97 + 10)
  else None.

Fixpoint decode_pairs (bs : list N) : option (list N) :=
  match bs with
  | h :: l :: bs =>
      high ← decode_nibble h; low ← decode_nibble l; rest ← decode_pairs bs;
      Some (N.lor (N.shiftl high 4) low :: rest)
  | _ => Some []
  end.

(** [decode_hex::<N>] *)
Definition decode_hex (n : N) (value : text) : option (list N) :=
  if negb (str_len value =? n * 2) then None else decode_pairs (as_bytes value).

Definition hex_digit (n : N) : N := if n <? 10 then 48 + n else 97 + (n - 10).

(** [format!("{:x}", digest)] and [encode_hex]: two digits per byte *)
Definition encode_hex (bs : list N) : text := concat (map (fun b => [hex_digit (b / 16); hex_digit (b mod 16)]) bs).

Definition is_byte (b : N) : Prop := b < 256.

Lemma hex_digit_lower n : n < 16 -> is_lower_hex (hex_digit n) = true.
Proof.
  intros Hn. unfold hex_digit, is_lower_hex.
  destruct (N.ltb_spec n 10); rewrite orb_true_iff, !andb_true_iff, !N.leb_le; lia.
Qed.

Lemma decode_nibble_digit n : n < 16 -> decode_nibble (hex_digit n) = Some n.
Proof.
  intros Hn. unfold hex_digit, decode_nibble.
  repeat case_match; bsimp; try f_equal; lia.
Qed.

Lemma decode_nibble_Some b n : decode_nibble b = Some n -> n < 16 /\ b = hex_digit n.
Proof.
  unfold decode_nibble, hex_digit. intros H. repeat case_match; simplify_eq; bsimp; lia.
Qed.

Lemma encode_hex_ascii bs : Forall is_byte bs -> Forall (fun c => c < 128) (encode_hex bs).
Proof.
  induction 1 as [|b bs Hb Hbs IH]; [constructor|].
  assert (forall n, n < 16 -> hex_digit n < 128) as Hd
    by (intros n Hn; unfold hex_digit; case_match; lia).
  unfold is_byte in Hb. cbn. rewrite !Forall_cons. repeat split; auto.
  - apply Hd, N.Div0.div_lt_upper_bound. lia.
  - apply Hd, N.mod_lt. lia.
Qed.

Lemma encode_hex_length bs : length (encode_hex bs) = (2 * length bs)%nat.
Proof.
  induction bs as [|b bs IH]; [done|]. unfold encode_hex in *. cbn [map concat app length]. lia.
Qed.

Lemma encode_hex_lower bs : Forall is_byte bs -> forallb is_lower_hex (encode_hex bs) = true.
Proof.
  induction 1 as [|b bs Hb Hbs IH]; [done|]. unfold is_byte in Hb.
  unfold encode_hex in *. cbn [map concat app forallb].
  rewrite !hex_digit_lower, IH; [done|apply N.mod_lt; lia|apply N.Div0.div_lt_upper_bound; lia].
Qed.

Lemma str_len_encode_hex bs : Forall is_byte bs -> str_len (encode_hex bs) = 2 * lenN bs.
Proof.
  intros Hb. unfold str_len, lenN. rewrite as_bytes_ascii by auto using encode_hex_ascii.
  rewrite encode_hex_length. lia.
Qed.

Lemma valid_digest_encode_hex bs :
  Forall is_byte bs -> length bs = 32%nat -> valid_digest (encode_hex bs) = true.
Proof.
  intros Hb Hl. unfold valid_digest. rewrite str_len_encode_hex by done.
  unfold lenN. rewrite Hl, as_bytes_ascii, encode_hex_lower; auto using encode_hex_ascii.
Qed.

Lemma join_nibbles b : N.lor (N.shiftl (b / 16) 4) (b mod 16) = b.
Proof.
  change 16 with (2 ^ 4). rewrite <- (N.land_ones b 4), <- (N.shiftr_div_pow2 b 4).
  apply N.bits_inj. intros i. rewrite N.lor_spec, N.land_spec.
  destruct (N.ltb_spec i 4).
  - rewrite N.shiftl_spec_low, N.ones_spec_low, andb_true_r by lia. done.
  - rewrite N.shiftl_spec_high, N.shiftr_spec, N.ones_spec_high, andb_false_r, orb_false_r by lia.
    f_equal. lia.
Qed.

Lemma join_nibbles_digits h l :
  h < 16 -> l < 16 ->
  let b := N.lor (N.shiftl h 4) l in b < 256 /\ b / 16 = h /\ b mod 16 = l.
Proof.
  intros Hh Hl b. assert (b = h * 16 + l) as ->.
  { unfold b. rewrite <- (join_nibbles (h * 16 + l)).
    rewrite (N.div_add_l h 16 l), N.div_small, N.add_0_r by lia.
    by rewrite N.add_comm, N.Div0.mod_add, N.mod_small. }
  rewrite N.div_add_l, N.div_small, N.add_0_r by lia.
  rewrite (N.add_comm (h * 16)), N.Div0.mod_add, N.mod_small by done. lia.
Qed.

(** [decode_hex] accepts exactly the lower-case digits of [n] bytes and
    returns those bytes. *)
Lemma decode_pairs_encode bs : Forall is_byte bs -> decode_pairs (encode_hex bs) = Some bs.
Proof.
  induction 1 as [|b bs Hb Hbs IH]; [done|]. unfold is_byte in Hb.
  unfold encode_hex in *. cbn [map concat app decode_pairs].
  assert (b mod 16 < 16) by (apply N.mod_lt; lia).
  assert (b / 16 < 16) by (apply N.Div0.div_lt_upper_bound; lia).
  rewrite !decode_nibble_digit, IH by done.
  cbn -[N.lor N.shiftl N.div N.modulo]. by rewrite join_nibbles.
Qed.

Lemma decode_encode_hex n bs :
  Forall is_byte bs -> lenN bs = n -> decode_hex n (encode_hex bs) = Some bs.
Proof.
  intros Hb Hl. unfold decode_hex. rewrite str_len_encode_hex, Hl by done.
  rewrite (N.mul_comm 2), N.eqb_refl, as_bytes_ascii by auto using encode_hex_ascii.
  by apply decode_pairs_encode.
Qed.

Lemma decode_pairs_Some n : forall bs out,
  length bs = (2 * n)%nat -> decode_pairs bs = Some out ->
  bs = encode_hex out /\ Forall is_byte out.
Proof.
  induction n as [|n IH]; intros [|h [|l bs]] out Hl; try (cbn in Hl; lia).
  - by intros [= <-].
  - cbn [decode_pairs].
    destruct (decode_nibble h) as [hi|] eqn:Eh; [|done].
    destruct (decode_nibble l) as [lo|] eqn:El; [|done].
    destruct (decode_pairs bs) as [rest|] eqn:Er; [|done]. cbn -[N.lor N.shiftl].
    intros [= <-]. apply IH in Er as [-> Hr]; [|cbn in Hl; lia].
    apply decode_nibble_Some in Eh as [Hhi ->], El as [Hlo ->].
    destruct (join_nibbles_digits hi lo) as (Hb & Hd & Hm); auto.
    split; [|by constructor].
    unfold encode_hex. cbn [map concat app]. by rewrite Hd, Hm.
Qed.

Lemma decode_hex_Some n v out :
  decode_hex n v = Some out <->
  as_bytes v = encode_hex out /\ Forall is_byte out /\ lenN out = n.
Proof.
  unfold decode_hex, str_len, lenN. split.
  - destruct (N.eqb_spec (N.of_nat (length (as_bytes v))) (n * 2)) as [Hl|]; [|done]. cbn.
    intros Hd. destruct (decode_pairs_Some (N.to_nat n) (as_bytes v) out) as [Hv Hb]; auto; [lia|].
    split; [done|split; [done|]]. rewrite Hv, encode_hex_length in Hl. lia.
  - intros (Hv & Hb & Hl). rewrite Hv, encode_hex_length.
    destruct (N.eqb_spec (N.of_nat (2 * length out)) (n * 2)); [cbn|lia].
    by apply decode_pairs_encode.
Qed.

(** ** Big-endian integers: [x.to_be_bytes()] at [w] bytes *)

Fixpoint be_bytes (w : nat) (x : N) : list N :=
  match w with
  | O => []
  | S w => be_bytes w (x / 256) ++ [x mod 256]
  end.

Lemma be_bytes_length w x : length (be_bytes w x) = w.
Proof. revert x. induction w as [|w IH]; intros x; cbn; [done|]. rewrite length_app, IH. cbn. lia. Qed.

Lemma be_bytes_inj w x y :
  x < 256 ^ N.of_nat w -> y < 256 ^ N.of_nat w -> be_bytes w x = be_bytes w y -> x = y.
Proof.
  revert x y. induction w as [|w IH]; intros x y; [cbn; lia|].
  rewrite Nat2N.inj_succ, N.pow_succ_r by lia. intros Hx Hy. cbn [be_bytes].
  intros Heq. apply app_inj_2 in Heq as [Hd [= Hm]]; [|done].
  apply IH in Hd; [|apply N.Div0.div_lt_upper_bound; lia..].
  rewrite (N.Div0.div_mod x 256), (N.Div0.div_mod y 256). congruence.
Qed.

(** Two byte strings that start with encodings of equal length agree on both parts. *)
Lemma app_inj_length {A} (l1 l2 k1 k2 : list A) :
  length l1 = length k1 -> l1 ++ l2 = k1 ++ k2 -> l1 = k1 /\ l2 = k2.
Proof. intros Hl. by apply app_inj_1. Qed.
