(* ===== verification/Json.v ===== *)
(** * Json: [serde_json::Value], derived serialization and the payload limits

    [Value] is the JSON tree the source pattern-matches on.  A [Number] is what
    the source can observe of one ([as_i64], [as_u64], [to_string]).  [ToJson]
    is the [Serialize] implementation of a type: derived structs become objects
    in field order, tuples arrays, unit enum variants snake-case strings and
    [None] null.  [JsonInj] states that an encoding loses nothing, which is what
    lets a digest over it bind every field.

    [walk] is the explicit-stack traversal of [validate_json_payload]
    ([common.rs]) and [validate_json_limits] ([production.rs]). *)

From stdpp Require Import base list strings pretty.
From Stdlib Require Import NArith ZArith Lia.
From S2P Require Import Prelude Text.

Record Number := mkNumber {
  as_i64 : option Z;
  as_u64 : option N;
  number_to_string : text;
}.

Inductive Value : Type :=
| Null
| Bool (b : bool)
| Num (n : Number)
| Str (t : text)
| Arr (values : list Value)
| Obj (fields : list (text * Value)).

(** The induction principle that reaches through arrays and objects. *)
Lemma Value_ind' (P : Value -> Prop) :
  P Null -> (forall b, P (Bool b)) -> (forall n, P (Num n)) -> (forall t, P (Str t)) ->
  (forall vs, Forall P vs -> P (Arr vs)) ->
  (forall fs, Forall (fun f => P f.2) fs -> P (Obj fs)) ->
  forall v, P v.
Proof.
  intros HN HB HU HS HA HO. fix IH 1.
  intros [|b|n|t|vs|fs]; [exact HN|exact (HB b)|exact (HU n)|exact (HS t)| |].
  - apply HA. induction vs as [|v vs IHvs]; constructor; [apply IH|exact IHvs].
  - apply HO. induction fs as [|[k v] fs IHfs]; constructor; [apply IH|exact IHfs].
Qed.

#[export] Instance number_eq_dec : EqDecision Number.
Proof. solve_decision. Defined.
#[export] Instance value_eq_dec : EqDecision Value.
Proof.
  unfold EqDecision, Decision. fix IH 1. intros x y.
  destruct x as [|b|n|t|vs|fs], y as [|b'|n'|t'|ws|gs]; try (by right).
  - by left.
  - destruct (decide (b = b')); [left|right]; congruence.
  - destruct (decide (n = n')); [left|right]; congruence.
  - destruct (decide (t = t')); [left|right]; congruence.
  - enough ({vs = ws} + {vs <> ws}) as [|] by (left; congruence) || (right; congruence).
    revert ws. induction vs as [|v vs IHvs]; intros [|w ws]; try (by right); [by left|].
    destruct (IH v w); [|right; congruence]. destruct (IHvs ws); [left|right]; congruence.
  - enough ({fs = gs} + {fs <> gs}) as [|] by (left; congruence) || (right; congruence).
    revert gs. induction fs as [|[k v] fs IHfs]; intros [|[l w] gs]; try (by right); [by left|].
    destruct (decide (k = l)); [|right; congruence].
    destruct (IH v w); [|right; congruence]. destruct (IHfs gs); [left|right]; congruence.
Defined.

(** [Value::is_object] *)
Definition is_object (v : Value) : bool := match v with Obj _ => true | _ => false end.

(** ** Serialization *)

Class ToJson (A : Type) := to_json : A -> Value.
Class JsonInj (A : Type) `{ToJson A} := json_inj : forall x y : A, to_json x = to_json y -> x = y.
Class JsonNotNull (A : Type) `{ToJson A} := json_not_null : forall x : A, to_json x <> Null.

Definition number_of_u64 (n : N) : Number :=
  {| as_i64 := if n <? 9223372036854775808 then Some (Z.of_N n) else None;
     as_u64 := Some n;
     number_to_string := dec_text n |}.

Definition number_of_i64 (z : Z) : Number :=
  {| as_i64 := Some z;
     as_u64 := if (0 <=? z)%Z then Some (Z.to_N z) else None;
     number_to_string := txt (pretty z) |}.

#[export] Instance to_json_bool : ToJson bool := Bool.
#[export] Instance to_json_N : ToJson N := fun n => Num (number_of_u64 n).
#[export] Instance to_json_Z : ToJson Z := fun z => Num (number_of_i64 z).
#[export] Instance to_json_value : ToJson Value := fun v => v.
#[export] Instance to_json_option {A} `{ToJson A} : ToJson (option A) :=
  fun o => match o with Some a => to_json a | None => Null end.
#[export] Instance to_json_list {A} `{ToJson A} : ToJson (list A) | 10 :=
  fun l => Arr (map to_json l).
(** A Rust [String] is a JSON string, not an array. *)
#[export] Instance to_json_text : ToJson (list N) | 1 := Str.

#[export] Instance json_inj_bool : JsonInj bool.
Proof. by intros x y [=]. Qed.
#[export] Instance json_inj_N : JsonInj N.
Proof. by intros x y [=]. Qed.
#[export] Instance json_inj_Z : JsonInj Z.
Proof. by intros x y [=]. Qed.
#[export] Instance json_inj_value : JsonInj Value.
Proof. by intros x y. Qed.
#[export] Instance json_inj_text : JsonInj (list N).
Proof. by intros x y [=]. Qed.
#[export] Instance json_inj_list {A} `{JsonInj A} : JsonInj (list A) | 10.
Proof.
  intros x y [= Hxy]. revert y Hxy. induction x as [|a x IH]; intros [|b y] [=]; [done|].
  f_equal; [by apply json_inj|auto].
Qed.
#[export] Instance json_inj_option {A} `{JsonInj A, !JsonNotNull A} : JsonInj (option A).
Proof.
  intros [a|] [b|]; unfold to_json, to_json_option; intros Heq; try done.
  - f_equal. by apply json_inj.
  - by apply json_not_null in Heq.
  - symmetry in Heq. by apply json_not_null in Heq.
Qed.

#[export] Instance json_not_null_bool : JsonNotNull bool. Proof. done. Qed.
#[export] Instance json_not_null_N : JsonNotNull N. Proof. done. Qed.
#[export] Instance json_not_null_Z : JsonNotNull Z. Proof. done. Qed.
#[export] Instance json_not_null_text : JsonNotNull (list N). Proof. done. Qed.
#[export] Instance json_not_null_list {A} `{ToJson A} : JsonNotNull (list A) | 10. Proof. done. Qed.

(** [json_fields H] opens an equation between two encodings, one level deep,
    into one equation per field; [solve_json_inj] closes [JsonInj] of a record
    from the encodings of its fields. *)
Lemma Obj_eq_inv fs gs : Obj fs = Obj gs -> fs = gs. Proof. by intros [=]. Qed.
Lemma Arr_eq_inv vs ws : Arr vs = Arr ws -> vs = ws. Proof. by intros [=]. Qed.
Lemma field_eq_inv (k : text) (v w : Value) fs gs :
  (k, v) :: fs = (k, w) :: gs -> v = w /\ fs = gs.
Proof. by intros [=]. Qed.
Lemma item_eq_inv (v w : Value) vs ws : v :: vs = w :: ws -> v = w /\ vs = ws.
Proof. by intros [=]. Qed.

Ltac json_fields H :=
  lazymatch type of H with
  | ?a = ?b => let a' := eval hnf in a in let b' := eval hnf in b in change (a' = b') in H
  end;
  lazymatch type of H with
  | Obj _ = Obj _ => apply Obj_eq_inv in H; repeat apply field_eq_inv in H as [? H]
  | Arr _ = Arr _ => apply Arr_eq_inv in H; repeat apply item_eq_inv in H as [? H]
  end; clear H.

Ltac solve_json_inj :=
  let H := fresh in
  intros [] [] H; json_fields H;
  repeat match goal with E : to_json _ = to_json _ |- _ => apply json_inj in E end;
  cbn in *; subst; reflexivity.

(** ** Payload limits *)

(** [const MAX_DEPTH] and [const MAX_NODES], the same in both crates' bodies *)
Definition MAX_DEPTH : N := 32.
Definition MAX_NODES : N := 10000.

Definition children (v : Value) : list Value :=
  match v with
  | Arr vs => vs
  | Obj fs => map snd fs
  | _ => []
  end.

Fixpoint json_nodes (v : Value) : nat :=
  match v with
  | Arr vs => S (list_sum (map json_nodes vs))
  | Obj fs => S (list_sum (map (fun f => json_nodes f.2) fs))
  | _ => 1%nat
  end.

Fixpoint json_depth (v : Value) : nat :=
  match v with
  | Arr vs => S (list_max (map json_depth vs))
  | Obj fs => S (list_max (map (fun f => json_depth f.2) fs))
  | _ => 1%nat
  end.

(** The loop: [stack] has its top first, [nodes] counts the popped values.
    [None] is running out of fuel, which [walk_total] excludes. *)
Section walk.
Context {E : Type} (limit_error : E) (on_number : Number -> Result E unit).

Fixpoint walk (fuel : nat) (stack : list (Value * N)) (nodes : N) : option (Result E unit) :=
  match stack with
  | [] => Some (Ok tt)
  | (node, depth) :: stack =>
      match fuel with
      | O => None
      | S fuel =>
          let nodes := nodes + 1 in
          if (MAX_DEPTH <? depth) || (MAX_NODES <? nodes) then Some (Err limit_error)
          else
            match match node with Num n => on_number n | _ => Ok tt end with
            | Err e => Some (Err e)
            | Ok _ => walk fuel (reverse (map (fun c => (c, depth + 1)) (children node)) ++ stack) nodes
            end
      end
  end.
End walk.

Fixpoint json_numbers (v : Value) : list Number :=
  match v with
  | Num n => [n]
  | Arr vs => concat (map json_numbers vs)
  | Obj fs => concat (map (fun f => json_numbers f.2) fs)
  | _ => []
  end.

Lemma json_nodes_children v : json_nodes v = S (list_sum (map json_nodes (children v))).
Proof. destruct v; cbn; try done. by rewrite map_map. Qed.

Lemma json_depth_children v : json_depth v = S (list_max (map json_depth (children v))).
Proof. destruct v; cbn; try done. by rewrite map_map. Qed.

Lemma json_numbers_children v :
  json_numbers v = match v with Num n => [n] | _ => [] end ++ concat (map json_numbers (children v)).
Proof. destruct v; cbn; try done. by rewrite map_map. Qed.

Lemma list_sum_map_reverse {A} (f : A -> nat) l : list_sum (map f (reverse l)) = list_sum (map f l).
Proof.
  induction l as [|a l IH]; [done|].
  rewrite reverse_cons, map_app, list_sum_app, IH. unfold list_sum. cbn [map foldr]. lia.
Qed.

Section walk_lemmas.
Context {E : Type} (limit_error : E) (on_number : Number -> Result E unit).

Definition stack_nodes (stack : list (Value * N)) : nat :=
  list_sum (map (fun p => json_nodes p.1) stack).

Definition fits (p : Value * N) : Prop := p.2 + N.of_nat (json_depth p.1) <= MAX_DEPTH + 1.
Definition numbers_ok (v : Value) : Prop := Forall (fun n => on_number n = Ok tt) (json_numbers v).

Lemma stack_nodes_push v d stack :
  stack_nodes ((v, d) :: stack) =
  S (stack_nodes (reverse (map (fun c => (c, d + 1)) (children v)) ++ stack)).
Proof.
  unfold stack_nodes. cbn [map list_sum fst]. rewrite json_nodes_children, map_app, list_sum_app.
  by rewrite list_sum_map_reverse, map_map.
Qed.

Lemma fits_children v d :
  fits (v, d) <-> d <= MAX_DEPTH /\ Forall fits (map (fun c => (c, d + 1)) (children v)).
Proof.
  unfold fits at 1. cbn [fst snd]. rewrite json_depth_children.
  rewrite Forall_map. unfold fits, compose; cbn [fst snd].
  assert (forall n, (list_max (map json_depth (children v)) <= n)%nat <->
            Forall (fun c => (json_depth c <= n)%nat) (children v)) as Hmax.
  { intros n. rewrite list_max_le, List.Forall_map. done. }
  specialize (Hmax (N.to_nat (MAX_DEPTH - d))). split.
  - intros Hd. split; [lia|]. destruct Hmax as [Hmax _].
    eapply Forall_impl; [apply Hmax; lia|]. cbn. lia.
  - intros [Hd Hf]. destruct Hmax as [_ Hmax].
    enough (list_max (map json_depth (children v)) <= N.to_nat (MAX_DEPTH - d))%nat by lia.
    apply Hmax. eapply Forall_impl; [exact Hf|]. cbn. lia.
Qed.

Lemma numbers_ok_children v :
  numbers_ok v <->
  match v with Num n => on_number n = Ok tt | _ => True end /\ Forall numbers_ok (children v).
Proof.
  unfold numbers_ok at 1. rewrite json_numbers_children, Forall_app.
  unfold numbers_ok. rewrite Forall_concat, Forall_map.
  f_equiv. destruct v; rewrite ?Forall_singleton; try done; split; constructor.
Qed.

Lemma walk_total fuel stack nodes :
  (stack_nodes stack <= fuel)%nat -> walk limit_error on_number fuel stack nodes <> None.
Proof.
  revert stack nodes. induction fuel as [|fuel IH]; intros [|[v d] stack] nodes; try done.
  - rewrite stack_nodes_push. lia.
  - rewrite stack_nodes_push. intros Hf. cbn. repeat case_match; try done.
    all: apply IH; lia.
Qed.

(** The loop accepts exactly when every value on the stack fits in depth, the
    total number of nodes fits, and every number is accepted. *)
Lemma walk_Ok fuel stack nodes :
  (stack_nodes stack <= fuel)%nat -> nodes <= MAX_NODES ->
  walk limit_error on_number fuel stack nodes = Some (Ok tt) <->
  Forall fits stack /\ nodes + N.of_nat (stack_nodes stack) <= MAX_NODES /\
  Forall (fun p => numbers_ok p.1) stack.
Proof.
  revert stack nodes. induction fuel as [|fuel IH]; intros [|[v d] stack] nodes Hf Hn.
  1, 3: cbn; split; [intros _; repeat split; [constructor|lia|constructor]|done].
  { rewrite stack_nodes_push in Hf. lia. }
  rewrite stack_nodes_push in *. rewrite !Forall_cons, fits_children. cbn [fst].
  rewrite numbers_ok_children. cbn [walk].
  destruct ((MAX_DEPTH <? d) || (MAX_NODES <? nodes + 1)) eqn:Hg; bsimp.
  - split; [done|]. intros ([[? ?] ?] & ? & ?). destruct Hg; bsimp; lia.
  - set (push := reverse (map (fun c => (c, d + 1)) (children v))) in *.
    assert (Forall fits push <-> Forall fits (map (fun c => (c, d + 1)) (children v))) as Hpf
      by (unfold push; apply Forall_reverse).
    assert (Forall (fun p : Value * N => numbers_ok p.1) push <-> Forall numbers_ok (children v)) as Hpn
      by (unfold push; rewrite Forall_reverse, Forall_map; done).
    assert (walk limit_error on_number fuel (push ++ stack) (nodes + 1) = Some (Ok tt) <->
            Forall fits (push ++ stack) /\
            nodes + 1 + N.of_nat (stack_nodes (push ++ stack)) <= MAX_NODES /\
            Forall (fun p => numbers_ok p.1) (push ++ stack)) as Hrec by (apply IH; lia).
    rewrite !Forall_app, Hpf, Hpn in Hrec.
    destruct v as [| |n| | |]; try destruct (on_number n) as [[]|e]; try rewrite Hrec;
      intuition (try lia; try done).
Qed.
End walk_lemmas.
