(* ===== verification/Crates.v ===== *)
(** * Crates: the third-party code the source calls

    [sha2], [serde_json], [uuid] and [ed25519-dalek] are not part of the
    repository.  [Crates] is what the source calls of them; [CratesLaws] states
    the documented behaviour theorems rely on.  [Toy] is a concrete instance,
    used only to evaluate the model on concrete inputs.

    A [Uuid] is its 128-bit value ([Uuid::as_u128]); [is_nil] and the derived
    order are those of that number. *)

From stdpp Require Import base list countable strings.
From Stdlib Require Import NArith Lia.
From S2P Require Import Prelude Text Json.

Record Uuid := mkUuid {
  as_u128 : N;
  uuid_range : Is_true (as_u128 <? 2 ^ 128);
}.

Lemma as_u128_inj u v : as_u128 u = as_u128 v -> u = v.
Proof. destruct u as [n Hn], v as [m Hm]; cbn. intros <-. f_equal. apply Is_true_pi. Qed.

Lemma as_u128_lt u : as_u128 u < 2 ^ 128.
Proof. destruct u as [n Hn]; cbn -[N.pow]. apply Is_true_true in Hn. by apply N.ltb_lt. Qed.

#[export] Instance uuid_eq_dec : EqDecision Uuid.
Proof.
  intros u v. destruct (decide (as_u128 u = as_u128 v)) as [H|H].
  - left. by apply as_u128_inj.
  - right. by intros ->.
Defined.
Definition uuid_of_u128 (n : N) : option Uuid :=
  match decide (Is_true (n <? 2 ^ 128)) with left H => Some (mkUuid n H) | right _ => None end.
#[export] Instance uuid_countable : Countable Uuid.
Proof.
  refine (inj_countable as_u128 uuid_of_u128 _). intros [n Hn]. unfold uuid_of_u128; cbn -[N.pow].
  destruct (decide _) as [Hd|]; [|done]. do 2 f_equal. apply Is_true_pi.
Defined.
#[export] Instance uuid_ord : Ord Uuid := fun u v => cmp (as_u128 u) (as_u128 v).
#[export] Instance uuid_ord_laws : OrdLaws Uuid.
Proof. apply (ord_laws_key _ as_u128); [done|apply as_u128_inj]. Qed.

(** [Uuid::is_nil] *)
Definition is_nil_uuid (u : Uuid) : bool := as_u128 u =? 0.

Class Crates := {
  (** [Sha256::digest] *)
  sha256 : list N -> list N;
  (** [serde_json::to_vec] of an already serialized tree; [None] is its error *)
  json_to_vec : Value -> option (list N);
  (** [Uuid::get_version_num], [get_variant() == RFC4122], [hyphenated] *)
  uuid_version : Uuid -> N;
  uuid_is_rfc4122 : Uuid -> bool;
  uuid_hyphenated : Uuid -> text;
  (** [VerifyingKey::from_bytes] (a key is its bytes) and [Verifier::verify] *)
  verifying_key_from_bytes : list N -> option (list N);
  ed25519_verify : list N -> list N -> list N -> bool;
}.

Class CratesLaws `{Crates} := {
  sha256_length : forall bs, length (sha256 bs) = 32%nat;
  sha256_bytes : forall bs, Forall is_byte (sha256 bs);
  (** 36 ASCII characters, different for different identifiers *)
  uuid_hyphenated_length : forall u, length (uuid_hyphenated u) = 36%nat;
  uuid_hyphenated_ascii : forall u, Forall (fun c => c < 128) (uuid_hyphenated u);
  uuid_hyphenated_inj : forall u v, uuid_hyphenated u = uuid_hyphenated v -> u = v;
  (** A JSON string literal opens with a quotation mark and shows where it ends. *)
  json_string_quoted : forall t, exists bs, json_to_vec (Str t) = Some (34 :: bs);
  json_string_delimited : forall s t a b r r', scalar_text s -> scalar_text t ->
    json_to_vec (Str s) = Some a -> json_to_vec (Str t) = Some b -> a ++ r = b ++ r' -> s = t /\ r = r';
}.

(** ** A concrete instance *)

Module Toy.
Definition sha256 (bs : list N) : list N :=
  be_bytes 32 (foldl (fun h b => N.land (257 * h + b + 1) 4294967295) 1 bs).

(** Quotation marks and backslashes are escaped. *)
Definition escape (t : text) : text :=
  concat (map (fun c => if (c =? 34) || (c =? 92) then [92; c] else [c]) t).

Fixpoint json_bytes (v : Value) : list N :=
  match v with
  | Null => txt "null"
  | Bool true => txt "true"
  | Bool false => txt "false"
  | Num n => number_to_string n
  | Str t => [34] ++ as_bytes (escape t) ++ [34]
  | Arr vs => [91] ++ concat (map (fun v => json_bytes v ++ [44]) vs) ++ [93]
  | Obj fs => [123] ++ concat (map (fun f => [34] ++ as_bytes f.1 ++ [34; 58] ++ json_bytes f.2 ++ [44]) fs) ++ [125]
  end.

(** The layout of RFC 4122. *)
Definition uuid_version (u : Uuid) : N := N.land (N.shiftr (as_u128 u) 76) 15.
Definition uuid_is_rfc4122 (u : Uuid) : bool := N.land (N.shiftr (as_u128 u) 62) 3 =? 2.
Definition uuid_hyphenated (u : Uuid) : text :=
  let h := encode_hex (be_bytes 16 (as_u128 u)) in
  firstn 8 h ++ [45] ++ firstn 4 (skipn 8 h) ++ [45] ++ firstn 4 (skipn 12 h) ++ [45]
    ++ firstn 4 (skipn 16 h) ++ [45] ++ skipn 20 h.

Definition ed25519_sign (key message : list N) : list N :=
  let h := sha256 (key ++ message) in h ++ h.

#[global] Instance crates : Crates := {|
  Crates.sha256 := sha256;
  json_to_vec v := Some (json_bytes v);
  Crates.uuid_version := uuid_version;
  Crates.uuid_is_rfc4122 := uuid_is_rfc4122;
  Crates.uuid_hyphenated := uuid_hyphenated;
  verifying_key_from_bytes k := Some k;
  ed25519_verify key message signature := signature == ed25519_sign key message;
|}.

(** A version-4 identifier of the RFC 4122 variant. *)
Definition uuid (n : N) : Uuid :=
  default (mkUuid 0 I) (uuid_of_u128 (N.lor (N.lor (N.shiftl 4 76) (N.shiftl 2 62)) n)).
End Toy.

Lemma be_bytes_is_byte w x : Forall is_byte (be_bytes w x).
Proof.
  revert x. induction w as [|w IH]; intros x; [constructor|]. cbn [be_bytes].
  apply Forall_app; split; [auto|]. repeat constructor. apply N.mod_lt. lia.
Qed.

Section toy_laws.
Import Toy.

Lemma toy_hyphenated_digits u :
  exists a b c d e : list N,
    Toy.uuid_hyphenated u = a ++ [45] ++ b ++ [45] ++ c ++ [45] ++ d ++ [45] ++ e /\
    length a = 8%nat /\ length b = 4%nat /\ length c = 4%nat /\ length d = 4%nat /\
    length e = 12%nat /\ encode_hex (be_bytes 16 (as_u128 u)) = a ++ b ++ c ++ d ++ e.
Proof.
  unfold Toy.uuid_hyphenated. set (h := encode_hex (be_bytes 16 (as_u128 u))).
  assert (length h = 32%nat) as Hl by (unfold h; by rewrite encode_hex_length, be_bytes_length).
  do 5 eexists. split; [reflexivity|]. rewrite !length_firstn, !length_skipn, Hl.
  repeat split; try done.
Qed.

(** An escaped text ends at its first bare quotation mark. *)
Lemma escape_delimited s t r r' :
  scalar_text s -> scalar_text t ->
  as_bytes (escape s) ++ 34 :: r = as_bytes (escape t) ++ 34 :: r' -> s = t /\ r = r'.
Proof.
  assert (forall c l k, c < 1114112 -> encode_char c ++ l = 34 :: k -> c = 34) as Hquote.
  { intros c l k Hc Heq. change (34 :: k) with (encode_char 34 ++ k) in Heq.
    by apply encode_char_app_inj in Heq as [-> _]. }
  assert (forall c t, as_bytes (escape (c :: t)) =
    (if (c =? 34) || (c =? 92) then encode_char 92 ++ encode_char c else encode_char c)
      ++ as_bytes (escape t)) as Hcons.
  { intros c u. unfold escape. cbn [map concat]. rewrite as_bytes_app. f_equal.
    by destruct (_ || _); cbn; rewrite ?app_nil_r. }
  revert t. induction s as [|c s IH]; intros [|d t].
  - by intros _ _ [= ->].
  - intros _ [Hd _]%Forall_cons Heq. exfalso. symmetry in Heq. rewrite Hcons, <- app_assoc in Heq.
    change (as_bytes (escape []) ++ 34 :: r) with (34 :: r) in Heq.
    destruct ((d =? 34) || (d =? 92)) eqn:E.
    + rewrite <- app_assoc in Heq. by apply Hquote in Heq.
    + apply Hquote in Heq; [|done]. by subst.
  - intros [Hc _]%Forall_cons _ Heq. exfalso. rewrite Hcons, <- app_assoc in Heq.
    change (as_bytes (escape []) ++ 34 :: r') with (34 :: r') in Heq.
    destruct ((c =? 34) || (c =? 92)) eqn:E.
    + rewrite <- app_assoc in Heq. by apply Hquote in Heq.
    + apply Hquote in Heq; [|done]. by subst.
  - intros [Hc Hs]%Forall_cons [Hd Ht]%Forall_cons. rewrite !Hcons, <- !app_assoc.
    destruct ((c =? 34) || (c =? 92)) eqn:Ec, ((d =? 34) || (d =? 92)) eqn:Ed; rewrite <- ?app_assoc; intros Heq.
    + apply app_inv_head, encode_char_app_inj in Heq as [-> Heq]; [|done..].
      destruct (IH t Hs Ht Heq) as [-> ->]. done.
    + apply encode_char_app_inj in Heq as [<- _]; done.
    + apply encode_char_app_inj in Heq as [-> _]; done.
    + apply encode_char_app_inj in Heq as [-> Heq]; [|done..].
      destruct (IH t Hs Ht Heq) as [-> ->]. done.
Qed.

#[global] Instance toy_laws : @CratesLaws Toy.crates.
Proof.
  split.
  - intros bs. apply (be_bytes_length 32).
  - intros bs. apply (be_bytes_is_byte 32).
  - intros u. change (length (Toy.uuid_hyphenated u) = 36%nat).
    destruct (toy_hyphenated_digits u) as (a & b & c & d & e & -> & ? & ? & ? & ? & ? & _).
    rewrite !length_app. cbn. lia.
  - intros u. change (Forall (fun c => c < 128) (Toy.uuid_hyphenated u)).
    destruct (toy_hyphenated_digits u) as (a & b & c & d & e & -> & _ & _ & _ & _ & _ & He).
    pose proof (encode_hex_ascii _ (be_bytes_is_byte 16 (as_u128 u))) as Ha. rewrite He in Ha.
    rewrite !Forall_app in *. rewrite !Forall_singleton. naive_solver.
  - intros u v Heq. change (Toy.uuid_hyphenated u = Toy.uuid_hyphenated v) in Heq.
    destruct (toy_hyphenated_digits u) as (a & b & c & d & e & Eu & ? & ? & ? & ? & ? & He).
    destruct (toy_hyphenated_digits v) as (a' & b' & c' & d' & e' & Ev & ? & ? & ? & ? & ? & He').
    rewrite Eu, Ev in Heq.
    repeat (apply app_inj_length in Heq as [? Heq]; [subst|cbn; congruence]). subst.
    rewrite <- He' in He.
    apply as_u128_inj, (be_bytes_inj 16); [apply as_u128_lt..|]. apply (inj Some).
    rewrite <- !decode_pairs_encode by apply be_bytes_is_byte. by rewrite He.
  - intros t. eexists. reflexivity.
  - intros s t a b r r' Hs Ht [= <-] [= <-] Heq. injection Heq as Heq. rewrite <- !app_assoc in Heq.
    by apply escape_delimited.
Qed.
End toy_laws.
