(* ===== verification/CanonicalJson.v ===== *)
(** * CanonicalJson: the canonical JSON encoder ([idr-protocol/src/production.rs])

    [write_canonical_value], its number check and [validate_json_limits], and the
    conversion [serde_json::to_value] applied first.  The encoding is injective on
    well-formed trees, so a digest over it binds the whole value. *)

From stdpp Require Import base list gmap sorting strings pretty.
From Stdlib Require Import NArith ZArith Lia.
From S2P Require Import Prelude Text Json Crates.

Inductive ProductionProtocolErrorV1 : Type :=
| UnsupportedWireVersion
| UnsupportedCriticalFeature
| InvalidCandidate
| InvalidProof
| InvalidKey
| InvalidTrustRoot
| ProductionProofVerificationFailed
| CanonicalEncoding
| NonIntegralNumber
| UnsafeInteger.
#[export] Instance production_error_eq_dec : EqDecision ProductionProtocolErrorV1.
Proof. solve_decision. Defined.

Notation Wire := (Result ProductionProtocolErrorV1) (only parsing).

Definition IDR_MAX_SAFE_WIRE_INTEGER_V1 : N := 9007199254740991.

(** A float is a number that is neither [as_i64] nor [as_u64]. *)
Definition validate_canonical_number (number : Number) : Wire unit :=
  match as_i64 number with
  | Some value =>
      let max := Z.of_N IDR_MAX_SAFE_WIRE_INTEGER_V1 in
      reject negb ((- max <=? value)%Z && (value <=? max)%Z) with UnsafeInteger;
      Ok tt
  | None =>
      match as_u64 number with
      | Some value => reject IDR_MAX_SAFE_WIRE_INTEGER_V1 <? value with UnsafeInteger; Ok tt
      | None => Err NonIntegralNumber
      end
  end.

(** The depth and node limits are those of [validate_json_payload]. *)
Definition validate_json_limits (value : Value) : Wire unit :=
  default (Err InvalidCandidate)
    (walk InvalidCandidate validate_canonical_number (json_nodes value) [(value, 1)] 0).

(** [str::encode_utf16] *)
Definition utf16_units (c : char) : list N :=
  if c <? 65536 then [c] else [55296 + (c - 65536) / 1024; 56320 + (c - 65536) mod 1024].
Definition encode_utf16 (t : text) : list N := concat (map utf16_units t).

(** A map's entries in the order of a key, as [sort_by] and [BTreeMap] put them. *)
Definition key_le {A} (key : text -> list N) (p q : text * A) : Prop := ord_le (key p.1) (key q.1).
#[export] Instance key_le_dec {A} key (p q : text * A) : Decision (key_le key p q).
Proof. unfold key_le. apply _. Defined.
Definition sort_entries {A} (key : text -> list N) (es : list (text * A)) : list (text * A) :=
  merge_sort (key_le key) es.

(** [serde_json::to_value]: the keys of every object in order, as [serde_json::Map] keeps them. *)
Fixpoint to_value (v : Value) : Value :=
  match v with
  | Arr vs => Arr (map to_value vs)
  | Obj fs => Obj (sort_entries id (map (fun f => (f.1, to_value f.2)) fs))
  | v => v
  end.

(** Run in order, stop at the first error. *)
Fixpoint collect {E A} (rs : list (Result E A)) : Result E (list A) :=
  match rs with
  | [] => Ok []
  | r :: rs => x ← r; xs ← collect rs; Ok (x :: xs)
  end.

(** [if index > 0 { output.push(b','); }] before each item *)
Fixpoint comma_separated (items : list (list N)) : list N :=
  match items with
  | [] => []
  | [item] => item
  | item :: items => item ++ [44] ++ comma_separated items
  end.

Section with_crates.
Context {C : Crates}.

Definition write_string (t : text) : Wire (list N) := ok_or CanonicalEncoding (json_to_vec (Str t)).

(** One property: its key, a colon and its value. *)
Definition write_entry (entry : text * Wire (list N)) : Wire (list N) :=
  key ← write_string entry.1; value ← entry.2; Ok (key ++ [58] ++ value).

(** The bytes [write_canonical_value] appends to [output]. *)
Fixpoint write_canonical_value (value : Value) : Wire (list N) :=
  match value with
  | Null => Ok (txt "null")
  | Bool b => Ok (if b then txt "true" else txt "false")
  | Num number => _ ← validate_canonical_number number; Ok (as_bytes (number_to_string number))
  | Str t => write_string t
  | Arr values => items ← collect (map write_canonical_value values);
                  Ok ([91] ++ comma_separated items ++ [93])
  | Obj fields =>
      items ← collect (map write_entry
                (sort_entries encode_utf16 (map (fun f => (f.1, write_canonical_value f.2)) fields)));
      Ok ([123] ++ comma_separated items ++ [125])
  end.

Definition canonical_json_bytes_v1 (value : Value) : Wire (list N) := write_canonical_value (to_value value).

Definition canonical_digest_v1 (domain : string) (value : Value) : Wire text :=
  bytes ← canonical_json_bytes_v1 (Arr [Str (txt domain); value]);
  Ok (encode_hex (sha256 bytes)).
End with_crates.

(** ** What a [serde_json::Value] is *)

(** An integer of 64 bits, as [i64] or [u64], or a float. *)
Definition wire_number (n : Number) : bool :=
  match as_i64 n, as_u64 n with
  | Some z, _ => n == number_of_i64 z
  | None, Some u => n == number_of_u64 u
  | None, None => true
  end.

Definition scalar_textb (t : text) : bool := forallb (fun c => c <? 1114112) t.

(** Keys are distinct and in order. *)
Fixpoint keys_sorted (ks : list text) : bool :=
  match ks with
  | k :: ks' =>
      match ks' with l :: _ => (cmp k l == Lt) && keys_sorted ks' | [] => true end
  | [] => true
  end.

Fixpoint wire_value (v : Value) : bool :=
  match v with
  | Num n => wire_number n
  | Str t => scalar_textb t
  | Arr vs => forallb wire_value vs
  | Obj fs => keys_sorted (map fst fs) && forallb scalar_textb (map fst fs)
              && forallb (fun f => wire_value f.2) fs
  | _ => true
  end.

(** ** Ordered entries *)

Section entries.
Context {A : Type}.
Implicit Types fs gs : list (text * A).

Lemma keys_sorted_cons k ks :
  keys_sorted (k :: ks) = true <-> Forall (fun l => cmp k l = Lt) ks /\ keys_sorted ks = true.
Proof.
  revert k. induction ks as [|l ks IH]; intros k; [cbn; split; [repeat constructor|done]|].
  change (keys_sorted (k :: l :: ks)) with ((cmp k l == Lt) && keys_sorted (l :: ks)).
  rewrite andb_true_iff, bool_decide_eq_true, Forall_cons. split; [|tauto].
  intros [Hk Hs]. split_and!; [done| |done]. apply IH in Hs as [Hl _].
  eapply Forall_impl; [exact Hl|]. intros m Hm. by apply (cmp_lt_trans k l m); [done|rewrite Hm].
Qed.

Lemma keys_sorted_NoDup ks : keys_sorted ks = true -> NoDup ks.
Proof.
  induction ks as [|k ks IH]; [constructor|]. intros [Hk Hs]%keys_sorted_cons.
  constructor; [|auto]. intros Hin. rewrite Forall_forall in Hk. specialize (Hk k Hin).
  by rewrite (proj2 (cmp_eq k k) eq_refl) in Hk.
Qed.

(** Entries with ordered keys are determined by their set. *)
Lemma sorted_entries_unique fs gs :
  keys_sorted (map fst fs) = true -> keys_sorted (map fst gs) = true -> fs ≡ₚ gs -> fs = gs.
Proof.
  revert gs. induction fs as [|f fs IH]; intros gs Hf Hg Hp.
  { by apply Permutation_nil_l in Hp. }
  destruct gs as [|g gs]; [by apply Permutation_nil_r in Hp|].
  cbn [map] in Hf, Hg. apply keys_sorted_cons in Hf as [Hf Hfs], Hg as [Hg Hgs].
  rewrite Forall_map, Forall_forall in Hf, Hg.
  assert (f = g) as ->.
  { assert (f ∈ g :: gs) as [->|Hfg]%elem_of_cons by (rewrite <- Hp; left); [done|].
    assert (g ∈ f :: fs) as [->|Hgf]%elem_of_cons by (rewrite Hp; left); [done|].
    specialize (Hf _ Hgf). specialize (Hg _ Hfg). cbn in *.
    rewrite cmp_antisym, Hf in Hg. done. }
  f_equal. apply IH; [done..|]. by apply Permutation_cons_inv in Hp.
Qed.

Lemma sort_entries_perm key fs : sort_entries key fs ≡ₚ fs.
Proof. apply merge_sort_Permutation. Qed.

#[local] Instance key_le_total key : Total (@key_le A key).
Proof. intros p q. unfold key_le. apply (total ord_le). Qed.
#[local] Instance key_le_trans key : Transitive (@key_le A key).
Proof. intros p q r. unfold key_le. apply (transitivity (R:=ord_le)). Qed.

Lemma sort_entries_sorted fs :
  NoDup (map fst fs) -> keys_sorted (map fst (sort_entries id fs)) = true.
Proof.
  intros Hn. assert (NoDup (map fst (sort_entries id fs))) as Hn'.
  { by rewrite (Permutation_map fst (sort_entries_perm id fs)). }
  assert (StronglySorted (key_le id) (sort_entries id fs)) as Hs.
  { apply Sorted_StronglySorted; [apply _|]. apply Sorted_merge_sort, _. }
  induction Hs as [|f gs Hs IH Hf]; [done|]. cbn [map] in *.
  apply NoDup_cons in Hn' as [Hin Hn']. apply keys_sorted_cons. split; [|auto].
  rewrite Forall_map. rewrite Forall_forall in Hf |- *. intros g Hg. specialize (Hf g Hg).
  unfold key_le, ord_le, compose in *. cbn in *. destruct (cmp f.1 g.1) eqn:E; [|done..].
  apply cmp_eq in E. exfalso. apply Hin. rewrite E. by apply list_elem_of_fmap_2.
Qed.

Lemma sort_entries_id fs : keys_sorted (map fst fs) = true -> sort_entries id fs = fs.
Proof.
  intros Hs. apply sorted_entries_unique; [|done|apply sort_entries_perm].
  apply sort_entries_sorted. by apply keys_sorted_NoDup.
Qed.

(** Two listings of distinct keys in the same order. *)
Lemma same_keys_unique fs gs :
  map fst fs = map fst gs -> NoDup (map fst fs) -> fs ≡ₚ gs -> fs = gs.
Proof.
  revert gs. induction fs as [|[k a] fs IH]; intros [|[l b] gs]; cbn; try done.
  intros [= -> Hk] [Hn Hnd]%NoDup_cons Hp.
  assert (a = b) as ->.
  { assert ((l, a) ∈ (l, b) :: gs) as [[= ->]|Hin]%elem_of_cons by (rewrite <- Hp; left); [done|].
    exfalso. apply Hn. rewrite Hk. by apply (list_elem_of_fmap_2 fst _ (l, a)). }
  f_equal. apply IH; [done..|]. by apply Permutation_cons_inv in Hp.
Qed.
End entries.

(** ** [to_value] *)

Lemma to_value_wire v : wire_value v = true -> to_value v = v.
Proof.
  induction v as [| | | |vs IH|fs IH] using Value_ind'; cbn; try done.
  - rewrite forallb_true. intros Hvs. f_equal. rewrite <- (map_id vs) at 2. apply map_ext_in.
    intros v Hv%list_elem_of_In. rewrite Forall_forall in IH, Hvs. auto.
  - rewrite !andb_true_iff, !forallb_true. intros [[Hk _] Hvs]. f_equal.
    assert (map (fun f => (f.1, to_value f.2)) fs = fs) as ->; [|by apply sort_entries_id].
    rewrite <- (map_id fs) at 2. apply map_ext_in. intros [k v] Hv%list_elem_of_In.
    rewrite Forall_forall in IH, Hvs. cbn. f_equal. by apply (IH (k, v)), (Hvs (k, v)).
Qed.

(** Two objects with the same keys in the same order differ in a field. *)
Lemma to_value_fields fs gs :
  map fst fs = map fst gs -> NoDup (map fst fs) -> to_value (Obj fs) = to_value (Obj gs) ->
  map (fun f => to_value f.2) fs = map (fun f => to_value f.2) gs.
Proof.
  intros Hk Hn. cbn. intros Heq%Obj_eq_inv.
  assert (map (fun f => (f.1, to_value f.2)) fs = map (fun f => (f.1, to_value f.2)) gs) as Hmap.
  { apply same_keys_unique.
    - rewrite !map_map. done.
    - by rewrite map_map.
    - rewrite <- (sort_entries_perm id), Heq. apply sort_entries_perm. }
  apply (f_equal (map snd)) in Hmap. by rewrite !map_map in Hmap.
Qed.

(** ** Numbers *)

Lemma txt_inj s t : txt s = txt t -> s = t.
Proof.
  unfold txt. revert t. induction s as [|a s IH]; intros [|b t]; cbn; try done.
  intros [= Hab Hst]. f_equal; [|auto].
  by rewrite <- (Ascii.ascii_N_embedding a), Hab, Ascii.ascii_N_embedding.
Qed.

(** A digit or a minus sign. *)
Definition numeric (b : N) : Prop := 48 <= b <= 57 \/ b = 45.

Lemma pretty_N_numeric (n : N) : Forall numeric (txt (pretty n)) /\ txt (pretty n) <> [].
Proof.
  assert (forall x s, Forall numeric (txt s) -> Forall numeric (txt (pretty_N_go x s)) /\
    (0 < x \/ txt s <> [] -> txt (pretty_N_go x s) <> [])) as Hgo.
  { intros x. induction (N.lt_wf_0 x) as [x _ IH]. intros s Hs.
    destruct (decide (0 < x)) as [Hx|Hx].
    - rewrite pretty_N_go_step by done.
      destruct (IH (x / 10) ltac:(apply N.div_lt; lia) (String (pretty_N_char (x mod 10)) s)) as [Hf Hne].
      + cbn. constructor; [|done]. left. unfold pretty_N_char.
        assert (x mod 10 < 10) by (apply N.mod_lt; lia). repeat case_match; cbn; lia.
      + split; [done|]. intros _. apply Hne. by right.
    - assert (x = 0) as -> by lia. rewrite pretty_N_go_0. split; [done|]. intros [?|?]; [lia|done]. }
  unfold pretty, pretty_N. case_decide as Hn; [split; [repeat constructor; cbn; lia|done]|].
  destruct (Hgo n EmptyString ltac:(constructor)) as [Hf Hne]. split; [done|]. apply Hne. left. lia.
Qed.

Lemma pretty_Z_numeric (z : Z) : Forall numeric (txt (pretty z)) /\ txt (pretty z) <> [].
Proof.
  destruct z as [|p|p]; [by split; [repeat constructor; cbn; lia|]|apply pretty_N_numeric|].
  destruct (pretty_N_numeric (Npos p)) as [Hf _]. split; [|done]. constructor; [by right|exact Hf].
Qed.

Lemma numeric_ascii l : Forall numeric l -> Forall (fun c => c < 128) l.
Proof. intros H. eapply Forall_impl; [exact H|]. unfold numeric. lia. Qed.

(** The bytes after a value: nothing, or a delimiter. *)
Definition stops (r : list N) : Prop :=
  match r with [] => True | b :: _ => b = 44 \/ b = 93 \/ b = 125 end.

Lemma numeric_delimited a b r r' :
  Forall numeric a -> Forall numeric b -> stops r -> stops r' -> a ++ r = b ++ r' -> a = b /\ r = r'.
Proof.
  intros Ha. revert b. induction Ha as [|x a Hx Ha IH]; intros [|y b] Hb Hr Hr'; cbn.
  - done.
  - intros ->. apply Forall_cons in Hb as [Hy _]. unfold numeric, stops in *. lia.
  - intros <-. unfold numeric, stops in *. lia.
  - intros [= -> Heq]. apply Forall_cons in Hb as [_ Hb]. destruct (IH b Hb Hr Hr' Heq) as [-> ->]. done.
Qed.

Lemma number_of_u64_i64 n : n < 9223372036854775808 -> number_of_u64 n = number_of_i64 (Z.of_N n).
Proof.
  intros Hn. unfold number_of_u64, number_of_i64. rewrite (proj2 (N.ltb_lt _ _) Hn).
  rewrite (proj2 (Z.leb_le 0 (Z.of_N n))) by lia. rewrite N2Z.id. f_equal. unfold dec_text.
  by destruct n.
Qed.

(** The canonical profile accepts exactly the safe integers. *)
Lemma validate_canonical_number_Ok n :
  wire_number n = true ->
  validate_canonical_number n = Ok tt <->
  exists z, n = number_of_i64 z /\ (- 9007199254740991 <= z <= 9007199254740991)%Z.
Proof.
  unfold wire_number, validate_canonical_number, IDR_MAX_SAFE_WIRE_INTEGER_V1.
  destruct n as [[z|] [u|] t]; cbn [as_i64 as_u64]; intros Hw; split.
  1, 3: bsimp; intros [Hz _]%reject_Ok; exists z; split; [done|]; bsimp; rewrite ?Z.leb_le in *; lia.
  1, 2: intros (z' & [= -> _ _] & Hz); apply reject_Ok; split; [bsimp; rewrite !Z.leb_le; lia|done].
  - bsimp. intros [Hu _]%reject_Ok. bsimp. unfold number_of_u64 in Hw.
    destruct (N.ltb_spec u 9223372036854775808); [done|lia].
  - by intros (z' & [=] & Hz).
  - done.
  - by intros (z' & [=] & Hz).
Qed.

(** ** The encoding determines the value *)

Section injective.
Context {C : Crates} {L : CratesLaws}.

Lemma collect_Ok {E A} (rs : list (Result E A)) xs :
  collect rs = Ok xs <-> Forall2 (fun r x => r = Ok x) rs xs.
Proof.
  revert xs. induction rs as [|r rs IH]; intros xs; cbn.
  - split; [by intros [= <-]|by inversion 1].
  - rewrite bind_Ok. split.
    + intros (x & -> & Hxs). apply bind_Ok in Hxs as (ys & Hys & [= <-]). constructor; [done|]. by apply IH.
    + inversion 1 as [|? x ? ys -> Hys]; subst. exists x. split; [done|]. apply bind_Ok.
      exists ys. split; [|done]. by apply IH.
Qed.

(** What follows the first item of a list. *)
Definition tail_of (items : list (list N)) (rest : list N) : list N :=
  match items with [] => rest | _ => 44 :: comma_separated items ++ rest end.

Lemma comma_separated_cons item items rest :
  comma_separated (item :: items) ++ rest = item ++ tail_of items rest.
Proof. destruct items as [|i items]; [done|]. cbn [comma_separated tail_of]. by rewrite <- !app_assoc. Qed.

Lemma tail_of_stops items rest : stops rest -> stops (tail_of items rest).
Proof. destruct items; [done|]. by left. Qed.

(** A value and its bytes can be read off the front of a longer text. *)
Definition readable (v : Value) : Prop :=
  wire_value v = true -> forall w a b r r',
    wire_value w = true -> write_canonical_value v = Ok a -> write_canonical_value w = Ok b ->
    stops r -> stops r' -> a ++ r = b ++ r' -> v = w /\ r = r'.

(** The first byte shows which kind of value follows. *)
Definition opens (v : Value) (b : N) : Prop :=
  match v with
  | Null => b = 110
  | Bool true => b = 116
  | Bool false => b = 102
  | Num _ => numeric b
  | Str _ => b = 34
  | Arr _ => b = 91
  | Obj _ => b = 123
  end.

Lemma number_bytes n a :
  wire_number n = true -> write_canonical_value (Num n) = Ok a ->
  exists z, n = number_of_i64 z /\ a = txt (pretty z).
Proof.
  cbn. intros Hw ([] & Hn & [= <-])%bind_Ok.
  apply validate_canonical_number_Ok in Hn as (z & -> & _); [|done]. exists z. split; [done|].
  cbn. apply as_bytes_ascii, numeric_ascii, pretty_Z_numeric.
Qed.

Lemma write_opens v a :
  wire_value v = true -> write_canonical_value v = Ok a -> exists b a', a = b :: a' /\ opens v b.
Proof.
  destruct v as [|[]|n|t|vs|fs].
  - intros _ [= <-]. do 2 eexists. done.
  - intros _ [= <-]. do 2 eexists. done.
  - intros _ [= <-]. do 2 eexists. done.
  - intros Hw (z & -> & ->)%number_bytes; [|done]. destruct (pretty_Z_numeric z) as [Hf Hne].
    destruct (txt (pretty z)) as [|b l]; [done|]. do 2 eexists. split; [done|]. by apply Forall_cons in Hf as [? _].
  - cbn. unfold write_string. intros _ H%ok_or_Ok. destruct (json_string_quoted t) as [bs Hb].
    rewrite Hb in H. injection H as <-. do 2 eexists. done.
  - cbn. intros _ (items & _ & [= <-])%bind_Ok. do 2 eexists. done.
  - cbn. intros _ (items & _ & [= <-])%bind_Ok. do 2 eexists. done.
Qed.

Lemma opens_not_closing v b : opens v b -> b <> 93 /\ b <> 125.
Proof. destruct v as [|[]| | | |]; cbn; unfold numeric; lia. Qed.

(** Items that can be told apart in front of a delimiter can be told apart in a
    list closed by a bracket. *)
Lemma items_delimited {I} (enc : I -> list N -> Prop) il jl xs ys c r r' :
  c = 93 \/ c = 125 ->
  Forall (fun i => forall j x y r r', j ∈ jl -> enc i x -> enc j y -> stops r -> stops r' ->
    x ++ r = y ++ r' -> i = j /\ r = r') il ->
  (forall i x, i ∈ il ++ jl -> enc i x -> exists b x', x = b :: x' /\ b <> c) ->
  Forall2 enc il xs -> Forall2 enc jl ys ->
  comma_separated xs ++ c :: r = comma_separated ys ++ c :: r' -> il = jl /\ r = r'.
Proof.
  intros Hc Hread Hopen Hxs. revert jl ys Hread Hopen.
  assert (forall l, stops (c :: l)) as Hstop by (intros l; cbn; naive_solver).
  induction Hxs as [|i x il xs Hi Hxs IH]; intros jl ys Hread Hopen Hys;
    destruct Hys as [|j y jl ys Hj Hys]; rewrite ?comma_separated_cons; cbn [comma_separated app].
  - by intros [= ->].
  - destruct (Hopen j y ltac:(set_solver) Hj) as (b & y' & -> & Hb). cbn. congruence.
  - destruct (Hopen i x ltac:(set_solver) Hi) as (b & x' & -> & Hb). cbn. congruence.
  - apply Forall_cons in Hread as [Hr Hread]. intros Heq.
    apply (Hr j) in Heq as [-> Heq]; [|by left|done|done|by apply tail_of_stops..].
    assert (Forall2 enc il xs /\ Forall2 enc jl ys) as [Hxs' Hys'] by done.
    destruct Hxs as [|i' x' il' xs' Hi' Hxs], Hys as [|j' y' jl' ys' Hj' Hys]; cbn [tail_of] in Heq.
    + by injection Heq as ->.
    + injection Heq as ->. naive_solver lia.
    + injection Heq as <-. naive_solver lia.
    + injection Heq as Heq. destruct (IH (j' :: jl') (y' :: ys')) as [-> ->]; [| |done..].
      * eapply Forall_impl; [exact Hread|]. cbn. intros k Hk l u w s s' Hl. apply Hk. by right.
      * intros k u Hk. apply Hopen. apply elem_of_app in Hk as [Hk|Hk]; apply elem_of_app; [left|right]; by right.
Qed.

Lemma collect_map {E A B} (f : A -> Result E B) l xs :
  collect (map f l) = Ok xs <-> Forall2 (fun a x => f a = Ok x) l xs.
Proof. by rewrite collect_Ok, Forall2_fmap_l. Qed.

(** The bytes of one property. *)
Definition field_bytes (f : text * Value) (a : list N) : Prop :=
  write_entry (f.1, write_canonical_value f.2) = Ok a.

(** The properties of an object are written in some order. *)
Lemma object_items fs a :
  write_canonical_value (Obj fs) = Ok a ->
  exists gs items, fs ≡ₚ gs /\ Forall2 field_bytes gs items /\ a = 123 :: comma_separated items ++ [125].
Proof.
  cbn. intros (items & Hi & [= <-])%bind_Ok.
  destruct (Permutation_map_inv (fun f => (f.1, write_canonical_value f.2)) _
    (sort_entries_perm encode_utf16 (map (fun f => (f.1, write_canonical_value f.2)) fs)))
    as (gs & Hgs & Hp).
  exists gs, items. split; [by symmetry|]. split; [|done].
  rewrite Hgs in Hi. apply collect_map in Hi. by apply Forall2_fmap_l in Hi.
Qed.

Lemma field_bytes_Ok f a :
  field_bytes f a -> exists key value, write_string f.1 = Ok key /\
    write_canonical_value f.2 = Ok value /\ a = key ++ 58 :: value.
Proof.
  unfold field_bytes, write_entry. cbn. intros (k & Hk & (v & Hv & [= <-])%bind_Ok)%bind_Ok. eauto.
Qed.

Lemma write_string_opens t a : write_string t = Ok a -> exists a', a = 34 :: a'.
Proof.
  unfold write_string. intros H%ok_or_Ok. destruct (json_string_quoted t) as [bs Hb].
  rewrite Hb in H. injection H as <-. eauto.
Qed.

Lemma write_string_delimited s t a b r r' :
  scalar_textb s = true -> scalar_textb t = true -> write_string s = Ok a -> write_string t = Ok b ->
  a ++ r = b ++ r' -> s = t /\ r = r'.
Proof.
  unfold write_string, scalar_textb. rewrite !forallb_true. intros Hs Ht Ha%ok_or_Ok Hb%ok_or_Ok.
  apply json_string_delimited with (a := a) (b := b); try done.
  - eapply Forall_impl; [exact Hs|]. intros c Hc. by apply N.ltb_lt.
  - eapply Forall_impl; [exact Ht|]. intros c Hc. by apply N.ltb_lt.
Qed.

Lemma readable_number n : readable (Num n).
Proof.
  intros Hv w a b r r' Hw Ha Hb Hr Hr' Heq.
  apply number_bytes in Ha as (z & -> & ->); [|done].
  destruct (write_opens w b Hw Hb) as (o & b' & -> & Ho).
  assert (numeric o) as Hn.
  { destruct (pretty_Z_numeric z) as [Hf Hne]. destruct (txt (pretty z)); [done|].
    injection Heq as <- _. by apply Forall_cons in Hf as [? _]. }
  destruct w as [|[]|m|t|ws|gs]; unfold numeric in Hn; cbn in Ho; try lia.
  apply number_bytes in Hb as (z' & -> & Hb); [|done]. rewrite Hb in Heq.
  apply numeric_delimited in Heq as [Heq ->]; [|apply pretty_Z_numeric..|done|done].
  apply txt_inj in Heq. apply (inj pretty) in Heq as ->. done.
Qed.

Lemma readable_string t : readable (Str t).
Proof.
  intros Hv w a b r r' Hw Ha Hb Hr Hr' Heq.
  destruct (write_opens (Str t) a Hv Ha) as (p & a' & -> & Hp), (write_opens w b Hw Hb) as (o & b' & -> & Ho).
  pose proof Heq as [= <- _]. cbn in Hp. subst p.
  destruct w as [|[]|m|t'|ws|gs]; cbn in Ho; unfold numeric in Ho; try lia.
  destruct (write_string_delimited t t' _ _ r r' Hv Hw Ha Hb Heq) as [-> ->]. done.
Qed.

Lemma readable_array vs : Forall readable vs -> readable (Arr vs).
Proof.
  intros IH Hv w a b r r' Hw Ha Hb Hr Hr' Heq.
  cbn in Ha. apply bind_Ok in Ha as (xs & Hxs%collect_map & [= <-]).
  destruct (write_opens w b Hw Hb) as (o & b' & Eb & Ho).
  rewrite Eb in Heq. pose proof Heq as [= <- _]. rewrite <- Eb in Heq. clear Eb.
  destruct w as [|[]|m|t'|ws|gs]; cbn in Ho; unfold numeric in Ho; try lia.
  cbn in Hb. apply bind_Ok in Hb as (ys & Hys%collect_map & [= <-]).
  injection Heq as Heq. rewrite <- !app_assoc in Heq. cbn in Hv, Hw. rewrite forallb_true in Hv, Hw.
  rewrite Forall_forall in IH, Hv, Hw.
  enough (vs = ws /\ r = r') as [-> ->] by done.
  eapply (items_delimited (fun v a => write_canonical_value v = Ok a)); [by left| | |done|done|exact Heq].
  - apply Forall_forall. intros v Hin u x y s s' Hu Hx Hy Hs Hs' E.
    eapply (IH v Hin (Hv v Hin)); [by apply Hw|done..].
  - intros v x Hin Hx. destruct (write_opens v x) as (o & x' & -> & Hop); [|done|].
    { apply elem_of_app in Hin as [Hin|Hin]; auto. }
    exists o, x'. split; [done|]. by destruct (opens_not_closing v o Hop).
Qed.

Lemma readable_object fs : Forall (fun f => readable f.2) fs -> readable (Obj fs).
Proof.
  intros IH Hv w a b r r' Hw Ha Hb Hr Hr' Heq.
  apply object_items in Ha as (fs' & xs & Hfs & Hxs & ->).
  destruct (write_opens w b Hw Hb) as (o & b' & Eb & Ho).
  rewrite Eb in Heq. pose proof Heq as [= <- _]. rewrite <- Eb in Heq. clear Eb.
  destruct w as [|[]|m|t'|ws|gs]; cbn in Ho; unfold numeric in Ho; try lia.
  apply object_items in Hb as (gs' & ys & Hgs & Hys & ->).
  injection Heq as Heq. rewrite <- !app_assoc in Heq. cbn in Hv, Hw.
  apply andb_true_iff in Hv as [[Hvs Hvk]%andb_true_iff Hv], Hw as [[Hws Hwk]%andb_true_iff Hw].
  rewrite forallb_true, Forall_forall in Hv, Hw. rewrite forallb_true, Forall_forall in Hvk, Hwk.
  rewrite Forall_forall in IH.
  enough (fs' = gs' /\ r = r') as [-> ->].
  { split; [|done]. f_equal. apply sorted_entries_unique; [exact Hvs|exact Hws|]. by rewrite Hfs, Hgs. }
  eapply (items_delimited field_bytes); [by right| | |exact Hxs|exact Hys|exact Heq].
  - apply Forall_forall. intros [k v] Hin [l u] x y s s' Hu Hx Hy Hs Hs' E.
    rewrite <- Hfs in Hin. rewrite <- Hgs in Hu.
    apply field_bytes_Ok in Hx as (kb & vb & Hk & Hvb & ->), Hy as (lb & ub & Hl & Hub & ->).
    cbn in *. rewrite <- !app_assoc in E.
    destruct (write_string_delimited k l kb lb ((58 :: vb) ++ s) ((58 :: ub) ++ s')) as [-> E']; [| |done..|].
    { by apply Hvk, (list_elem_of_fmap_2 fst _ (k, v)). }
    { by apply Hwk, (list_elem_of_fmap_2 fst _ (l, u)). }
    injection E' as E'.
    enough (v = u /\ s = s') as [-> ->] by done.
    exact (IH (l, v) Hin (Hv (l, v) Hin) u vb ub s s' (Hw (l, u) Hu) Hvb Hub Hs Hs' E').
  - intros f x _ (kb & vb & (kb' & ->)%write_string_opens & _ & ->)%field_bytes_Ok. do 2 eexists. split; [done|lia].
Qed.

Lemma value_readable v : readable v.
Proof.
  induction v as [|b|n|t|vs IH|fs IH] using Value_ind'.
  1, 2: intros Hv w a c r r' Hw Ha Hb Hr Hr' Heq;
    destruct (write_opens _ a Hv Ha) as (p & a' & -> & Hp), (write_opens w c Hw Hb) as (o & c' & -> & Ho);
    pose proof Heq as [= <- _];
    destruct w as [|[]|m|t'|ws|gs]; try destruct b; cbn in Hp, Ho; unfold numeric in Ho; try lia;
    cbn in Ha, Hb; by simplify_eq.
  - apply readable_number.
  - apply readable_string.
  - by apply readable_array.
  - by apply readable_object.
Qed.

(** The encoder's output determines the tree. *)
Lemma write_canonical_value_inj v w bytes :
  wire_value v = true -> wire_value w = true ->
  write_canonical_value v = Ok bytes -> write_canonical_value w = Ok bytes -> v = w.
Proof.
  intros Hv Hw Ha Hb. by destruct (value_readable v Hv w bytes bytes [] [] Hw Ha Hb I I eq_refl).
Qed.
End injective.

(** ** What the digests bind *)

(** The tree of a serialized struct: keys are distinct, in any order. *)
Fixpoint wire_tree (v : Value) : bool :=
  match v with
  | Num n => wire_number n
  | Str t => scalar_textb t
  | Arr vs => forallb wire_tree vs
  | Obj fs => bool_decide (NoDup (map fst fs)) && forallb scalar_textb (map fst fs)
              && forallb (fun f => wire_tree f.2) fs
  | _ => true
  end.

Lemma to_value_wire_tree v : wire_tree v = true -> wire_value (to_value v) = true.
Proof.
  induction v as [| | | |vs IH|fs IH] using Value_ind'; cbn; try done.
  - rewrite !forallb_true, Forall_map. intros Hvs. rewrite Forall_forall in IH, Hvs |- *.
    intros v Hv. cbn. auto.
  - rewrite !andb_true_iff, bool_decide_true_iff. intros [[Hn Hk] Hvs].
    set (gs := map (fun f => (f.1, to_value f.2)) fs).
    assert (map fst gs = map fst fs) as Hfst by (unfold gs; by rewrite map_map).
    rewrite sort_entries_sorted by (by rewrite Hfst). rewrite forallb_true in Hk. rewrite forallb_true in Hvs.
    rewrite !forallb_true. split_and!; [done| |].
    + by rewrite (Permutation_map fst (sort_entries_perm id gs)), Hfst.
    + rewrite (sort_entries_perm id gs). unfold gs. rewrite Forall_map.
      rewrite Forall_forall in IH, Hvs |- *. intros f Hf. cbn. auto.
Qed.

Lemma wire_value_tree v : wire_value v = true -> wire_tree v = true.
Proof.
  induction v as [| | | |vs IH|fs IH] using Value_ind'; cbn; try done.
  - rewrite !forallb_true. intros Hvs. rewrite Forall_forall in IH, Hvs |- *. auto.
  - rewrite !andb_true_iff, bool_decide_true_iff. intros [[Hs Hk] Hvs]. rewrite forallb_true in Hvs.
    rewrite (forallb_true (fun f : list N * Value => wire_tree f.2)).
    split_and!; [by apply keys_sorted_NoDup|done|].
    rewrite Forall_forall in IH, Hvs |- *. auto.
Qed.

Lemma wire_number_of_u64 n : wire_number (number_of_u64 n) = true.
Proof.
  unfold wire_number. destruct (N.ltb_spec n 9223372036854775808) as [Hn|Hn].
  - rewrite number_of_u64_i64 by done. cbn. by apply bool_decide_eq_true.
  - unfold number_of_u64. rewrite (proj2 (N.ltb_ge _ _) Hn). cbn. apply bool_decide_eq_true.
    unfold number_of_u64. by rewrite (proj2 (N.ltb_ge _ _) Hn).
Qed.

Lemma scalar_txt s : scalar_textb (txt s) = true.
Proof.
  apply forallb_true. unfold txt. apply Forall_map, Forall_true. intros a. cbn.
  apply N.ltb_lt. pose proof (Ascii.N_ascii_bounded a). lia.
Qed.

Lemma encode_hex_inj a b :
  Forall is_byte a -> Forall is_byte b -> encode_hex a = encode_hex b -> a = b.
Proof. intros Ha Hb Heq. apply (inj Some). by rewrite <- !decode_pairs_encode, Heq. Qed.

Section digests.
Context {C : Crates} {L : CratesLaws}.

(** What breaking the hash function would have to produce. *)
Definition sha256_collision : Prop := exists a b, a <> b /\ sha256 a = sha256 b.

Lemma canonical_bytes_inj v w bs :
  wire_tree v = true -> wire_tree w = true ->
  canonical_json_bytes_v1 v = Ok bs -> canonical_json_bytes_v1 w = Ok bs -> to_value v = to_value w.
Proof. intros Hv Hw. apply write_canonical_value_inj; by apply to_value_wire_tree. Qed.

Lemma canonical_digest_bind d e v w x :
  wire_tree v = true -> wire_tree w = true ->
  canonical_digest_v1 d v = Ok x -> canonical_digest_v1 e w = Ok x ->
  (d = e /\ to_value v = to_value w) \/ sha256_collision.
Proof.
  unfold canonical_digest_v1. intros Hv Hw (a & Ha & [= Hx])%bind_Ok (b & Hb & [= <-])%bind_Ok.
  apply encode_hex_inj in Hx; [|apply sha256_bytes..].
  destruct (decide (a = b)) as [<-|Hab]; [left|right; by exists a, b].
  assert (forall s u, wire_tree u = true -> wire_tree (Arr [Str (txt s); u]) = true) as Hpair.
  { intros s u Hu. cbn. by rewrite scalar_txt, Hu. }
  pose proof (canonical_bytes_inj _ _ a (Hpair d v Hv) (Hpair e w Hw) Ha Hb) as [= Hd Hvw].
  by apply txt_inj in Hd.
Qed.

(** Every canonical digest is 64 lower-case hexadecimal digits. *)
Lemma canonical_digest_valid d v x : canonical_digest_v1 d v = Ok x -> valid_digest x = true.
Proof.
  unfold canonical_digest_v1. intros (bs & _ & [= <-])%bind_Ok.
  apply valid_digest_encode_hex; [apply sha256_bytes|apply sha256_length].
Qed.

(** C26. The canonical encoder loses nothing: two JSON trees with the same
    canonical bytes are the same tree. *)
Theorem canonical_encoding_injective v w bs :
  wire_value v = true -> wire_value w = true ->
  canonical_json_bytes_v1 v = Ok bs -> canonical_json_bytes_v1 w = Ok bs -> v = w.
Proof.
  intros Hv Hw Ha Hb. unfold canonical_json_bytes_v1 in *. rewrite to_value_wire in Ha, Hb by done.
  by apply (write_canonical_value_inj v w bs).
Qed.
End digests.

(** ** Witnesses *)

Definition sample_value : Value :=
  Obj [(txt "a", Arr [Num (number_of_i64 (-7)); Null; Bool true; Str (txt "x")]);
       (txt "b", Obj [(txt "c", Num (number_of_u64 42)); (txt "d", Str [])])].
Definition sample_bytes : list N := Eval vm_compute in
  match canonical_json_bytes_v1 (C:=Toy.crates) sample_value with Ok bs => bs | Err _ => [] end.

Lemma canonical_encoding_injective_witness :
  wire_value sample_value = true /\
  canonical_json_bytes_v1 (C:=Toy.crates) sample_value = Ok sample_bytes /\ sample_value = sample_value.
Proof.
  assert (wire_value sample_value = true) as Hw by (vm_compute; reflexivity).
  assert (canonical_json_bytes_v1 (C:=Toy.crates) sample_value = Ok sample_bytes) as Hb by (vm_compute; reflexivity).
  split; [exact Hw|]. split; [exact Hb|].
  exact (@canonical_encoding_injective Toy.crates toy_laws sample_value sample_value sample_bytes Hw Hw Hb Hb).
Defined.
