(* ===== verification/Common.v ===== *)
(** * Common: references, contract references, metadata and digests

    Models [idr-protocol/src/lib.rs] and [human_centered/common.rs]: the
    validated reference, the authority context, the identifiers minted by the
    [uuid_id!] macro, basis points, impact levels, contract references, contract
    metadata with its revision lineage, the contract digest and the shared
    validators and canonicalizers. *)

From stdpp Require Import base list countable sorting strings.
From Stdlib Require Import NArith Lia.
From S2P Require Import Prelude Text Json Crates.

Definition HUMAN_CENTERED_SCHEMA_VERSION : N := 1.
Definition HUMAN_CENTERED_RULE_VERSION : N := 1.
Definition HUMAN_CENTERED_MAX_SAFE_WIRE_INTEGER : N := 9007199254740991.

Inductive HumanCenteredProtocolError : Type :=
| EmptyIdentifier
| InvalidBasisPoints (value : N)
| InvalidText
| InvalidReference
| InvalidContractReference
| InvalidMetadata
| ContractKindMismatch
| InvalidRevisionLineage
| InvalidDependency
| CollectionLimitExceeded
| PayloadLimitExceeded
| InvalidContract
| InvalidTransition
| DigestMismatch
| ProofVerificationFailed
| RevisionOverflow
| Serialization.

#[export] Instance protocol_error_eq_dec : EqDecision HumanCenteredProtocolError.
Proof. solve_decision. Defined.

Notation Checked := (Result HumanCenteredProtocolError) (only parsing).

(** ** [ReferenceV1] and [AuthorityContextV1] (lib.rs) *)

Inductive ReferenceValidationErrorV1 : Type := reference_invalid.

(** [impl From<ReferenceValidationErrorV1> for HumanCenteredProtocolError] *)
Definition from_reference_error (_ : ReferenceValidationErrorV1) : HumanCenteredProtocolError :=
  InvalidReference.

Module ReferenceV1.
Record t := mk { as_str : text }.

#[global] Instance eq_dec : EqDecision t.
Proof. solve_decision. Defined.
#[global] Instance countable : Countable t.
Proof. by refine (inj_countable' as_str mk _); intros []. Defined.
#[global] Instance ord : Ord t := fun a b => cmp (as_str a) (as_str b).
#[global] Instance ord_laws : OrdLaws t.
Proof. apply (ord_laws_key _ as_str); [done|]. by intros [] [] [= ->]. Qed.
#[global] Instance to_json : ToJson t := fun r => Str (as_str r).
#[global] Instance json_inj : JsonInj t.
Proof. by intros [] [] [= ->]. Qed.
#[global] Instance json_not_null : JsonNotNull t. Proof. done. Qed.

Definition new (value : text) : Result ReferenceValidationErrorV1 t :=
  reject is_nil (trim value) || (trim value != value) || (512 <? str_len value)
         || existsb is_control value
    with reference_invalid;
  Ok (mk value).
End ReferenceV1.
Notation ProductionReferenceV1 := ReferenceV1.t (only parsing).

(** [reference.as_str().trim().is_empty()] *)
Definition blank (r : ReferenceV1.t) : bool := is_nil (trim (ReferenceV1.as_str r)).

Module AuthorityContextV1.
Record t := mk {
  subject_ref : ReferenceV1.t;
  actor_ref : ReferenceV1.t;
  caller_ref : ReferenceV1.t;
  tenant_ref : ReferenceV1.t;
  scope_ref : ReferenceV1.t;
  purpose_ref : ReferenceV1.t;
  operation_ref : ReferenceV1.t;
}.

#[global] Instance eq_dec : EqDecision t.
Proof. solve_decision. Defined.
#[global] Instance to_json : ToJson t := fun c =>
  Obj [(txt "subject_ref", Json.to_json (subject_ref c));
       (txt "actor_ref", Json.to_json (actor_ref c));
       (txt "caller_ref", Json.to_json (caller_ref c));
       (txt "tenant_ref", Json.to_json (tenant_ref c));
       (txt "scope_ref", Json.to_json (scope_ref c));
       (txt "purpose_ref", Json.to_json (purpose_ref c));
       (txt "operation_ref", Json.to_json (operation_ref c))].
#[global] Instance json_inj : JsonInj t.
Proof. solve_json_inj. Qed.

Definition validate (c : t) : Result ReferenceValidationErrorV1 unit :=
  for_each (fun reference => _ ← ReferenceV1.new (ReferenceV1.as_str reference); Ok tt)
    [subject_ref c; actor_ref c; caller_ref c; tenant_ref c; scope_ref c; purpose_ref c;
     operation_ref c].
End AuthorityContextV1.
Notation ProductionAuthorityContextV1 := AuthorityContextV1.t (only parsing).

(** ** Identifiers, kinds, scores (common.rs) *)

(** The [uuid_id!] macro: the six identifier types share this code. *)
Module UuidId.
Section uuid_id.
Context {C : Crates}.
Definition from_uuid (value : Uuid) : Checked Uuid :=
  let version := uuid_version value in
  reject is_nil_uuid value || negb (uuid_is_rfc4122 value)
         || negb ((1 <=? version) && (version <=? 8))
    with EmptyIdentifier;
  Ok value.
End uuid_id.
Definition is_empty (value : Uuid) : bool := is_nil_uuid value.
End UuidId.
Notation HumanCenteredRunIdV1 := Uuid (only parsing).
Notation HumanCenteredTurnIdV1 := Uuid (only parsing).
Notation HumanCenteredContractIdV1 := Uuid (only parsing).
Notation HumanModelAssertionIdV1 := Uuid (only parsing).
Notation HumanCenteredInputEventIdV1 := Uuid (only parsing).
Notation HumanCenteredProofIdV1 := Uuid (only parsing).

Section uuid_json.
Context {C : Crates}.
(** [#[serde(transparent)]] over [Uuid]: its hyphenated text *)
#[export] Instance uuid_json : ToJson Uuid := fun u => Str (uuid_hyphenated u).
#[export] Instance uuid_json_inj {L : CratesLaws} : JsonInj Uuid.
Proof. intros u v [= H]. by apply uuid_hyphenated_inj. Qed.
#[export] Instance uuid_json_not_null : JsonNotNull Uuid. Proof. done. Qed.
End uuid_json.

Inductive HumanCenteredContractKindV1 : Type :=
| KIntent
| KDecision
| KTurnCoordination
| KResponse
| KAction
| KExecutionReceipt
| KOutcome
| KHumanModelAssertion
| KHumanModelUpdateCandidate.

Definition kind_rank (k : HumanCenteredContractKindV1) : N :=
  match k with
  | KIntent => 0 | KDecision => 1 | KTurnCoordination => 2 | KResponse => 3 | KAction => 4
  | KExecutionReceipt => 5 | KOutcome => 6 | KHumanModelAssertion => 7
  | KHumanModelUpdateCandidate => 8
  end.

Lemma kind_rank_inj k l : kind_rank k = kind_rank l -> k = l.
Proof. by destruct k, l. Qed.

#[export] Instance kind_eq_dec : EqDecision HumanCenteredContractKindV1.
Proof. solve_decision. Defined.
#[export] Instance kind_countable : Countable HumanCenteredContractKindV1.
Proof.
  refine (inj_countable kind_rank (fun n => nth_error [KIntent; KDecision; KTurnCoordination;
    KResponse; KAction; KExecutionReceipt; KOutcome; KHumanModelAssertion;
    KHumanModelUpdateCandidate] (N.to_nat n)) _). by intros [].
Defined.
#[export] Instance kind_ord : Ord HumanCenteredContractKindV1 :=
  fun k l => cmp (kind_rank k) (kind_rank l).
#[export] Instance kind_ord_laws : OrdLaws HumanCenteredContractKindV1.
Proof. apply (ord_laws_key _ kind_rank); auto using kind_rank_inj. Qed.
#[export] Instance kind_json : ToJson HumanCenteredContractKindV1 := fun k =>
  Str (txt match k with
  | KIntent => "intent" | KDecision => "decision" | KTurnCoordination => "turn_coordination"
  | KResponse => "response" | KAction => "action" | KExecutionReceipt => "execution_receipt"
  | KOutcome => "outcome" | KHumanModelAssertion => "human_model_assertion"
  | KHumanModelUpdateCandidate => "human_model_update_candidate" end).
#[export] Instance kind_json_inj : JsonInj HumanCenteredContractKindV1.
Proof. by intros [] [] [=]. Qed.

Module UnitIntervalBasisPointsV1.
Record t := mk { value : N }.
Definition ZERO : t := mk 0.
Definition FULL : t := mk 10000.

Definition new (v : N) : Checked t :=
  reject 10000 <? v with InvalidBasisPoints v;
  Ok (mk v).

#[global] Instance eq_dec : EqDecision t.
Proof. solve_decision. Defined.
#[global] Instance to_json : ToJson t := fun b => Json.to_json (value b).
#[global] Instance json_inj : JsonInj t.
Proof. intros [a] [b] H. f_equal. by apply (Json.json_inj a b). Qed.
#[global] Instance json_not_null : JsonNotNull t. Proof. done. Qed.
End UnitIntervalBasisPointsV1.

Module ImpactLevelV1.
Inductive t : Type := Low | Medium | High | Critical.

Definition rank (i : t) : N :=
  match i with Low => 0 | Medium => 1 | High => 2 | Critical => 3 end.

#[global] Instance eq_dec : EqDecision t.
Proof. solve_decision. Defined.
#[global] Instance to_json : ToJson t := fun i =>
  Str (txt match i with Low => "low" | Medium => "medium" | High => "high" | Critical => "critical" end).
#[global] Instance json_inj : JsonInj t.
Proof. by intros [] [] [=]. Qed.
End ImpactLevelV1.

(** ** Contract references *)

Module HumanCenteredContractRefV1.
Record t := mk {
  kind : HumanCenteredContractKindV1;
  contract_id : HumanCenteredContractIdV1;
  revision : N;
  record_digest : text;
}.

Definition key (r : t) : HumanCenteredContractKindV1 * (Uuid * (N * text)) :=
  (kind r, (contract_id r, (revision r, record_digest r))).
Definition of_key (k : HumanCenteredContractKindV1 * (Uuid * (N * text))) : t :=
  mk k.1 k.2.1 k.2.2.1 k.2.2.2.
Lemma of_key_key r : of_key (key r) = r. Proof. by destruct r. Qed.
Lemma ref_key_inj r s : key r = key s -> r = s.
Proof. intros H. by rewrite <- (of_key_key r), H, of_key_key. Qed.

#[global] Instance eq_dec : EqDecision t.
Proof. solve_decision. Defined.
#[global] Instance countable : Countable t.
Proof. refine (inj_countable' key of_key _). apply of_key_key. Defined.
(** [#[derive(PartialOrd, Ord)]]: lexicographic in field order *)
#[global] Instance ord : Ord t := fun r s => cmp (key r) (key s).
#[global] Instance ord_laws : OrdLaws t.
Proof. by apply (ord_laws_key _ key); [|apply ref_key_inj]. Qed.

Section with_crates.
Context {C : Crates}.

#[global] Instance to_json : ToJson t := fun r =>
  Obj [(txt "kind", Json.to_json (kind r));
       (txt "contract_id", Json.to_json (contract_id r));
       (txt "revision", Json.to_json (revision r));
       (txt "record_digest", Json.to_json (record_digest r))].
#[global] Instance json_not_null : JsonNotNull t. Proof. done. Qed.
#[global] Instance json_inj {L : CratesLaws} : JsonInj t.
Proof. solve_json_inj. Qed.
End with_crates.

Definition validate (r : t) : Checked unit :=
  reject UuidId.is_empty (contract_id r) || (revision r =? 0)
         || (HUMAN_CENTERED_MAX_SAFE_WIRE_INTEGER <? revision r)
         || negb (valid_digest (record_digest r))
    with InvalidContractReference;
  Ok tt.

Definition new (kind : HumanCenteredContractKindV1) (contract_id : HumanCenteredContractIdV1)
    (revision : N) (record_digest : text) : Checked t :=
  let value := mk kind contract_id revision record_digest in
  _ ← validate value;
  Ok value.
End HumanCenteredContractRefV1.
Notation ContractRef := HumanCenteredContractRefV1.t (only parsing).

(** ** Shared validators and canonicalizers *)

Definition validate_required_text (value : text) : Checked unit :=
  reject is_nil (trim value) || (4096 <? str_len value) || existsb is_control value
    with InvalidText;
  Ok tt.

Definition validate_text_collection (values : list text) : Checked unit :=
  reject 256 <? lenN values with CollectionLimitExceeded;
  for_each validate_required_text values.

Definition canonical_references (values : list ReferenceV1.t) : Checked (list ReferenceV1.t) :=
  reject 256 <? lenN values with CollectionLimitExceeded;
  let values := dedup (sort values) in
  reject existsb blank values with InvalidReference;
  Ok values.

Definition canonical_contract_references (values : list ContractRef) : Checked (list ContractRef) :=
  reject 256 <? lenN values with CollectionLimitExceeded;
  _ ← for_each HumanCenteredContractRefV1.validate values;
  (* the sort key (kind, contract_id, revision, digest) is the derived order *)
  Ok (dedup (sort values)).

(** [values.iter().collect::<BTreeSet<_>>().len() == values.len()] *)
Definition unique_strings (values : list text) : bool := lenN (remove_dups values) =? lenN values.

Section with_crates.
Context {C : Crates}.

Definition contract_digest (domain : string) (value : Value) : Checked text :=
  bytes ← ok_or Serialization (json_to_vec (Arr [Str (txt domain); value]));
  Ok (encode_hex (sha256 bytes)).

(** [const MAX_BYTES] *)
Definition MAX_BYTES : N := 1048576.

Definition validate_json_payload (value : Value) : Checked unit :=
  bytes ← ok_or Serialization (json_to_vec value);
  reject MAX_BYTES <? lenN bytes with PayloadLimitExceeded;
  default (Err PayloadLimitExceeded)
    (walk PayloadLimitExceeded (fun _ => Ok tt) (json_nodes value) [(value, 1)] 0).
End with_crates.

(** ** Contract metadata *)

Module HumanCenteredContractMetadataV1.
Import HumanCenteredContractRefV1.
Record t := mk {
  contract_kind : HumanCenteredContractKindV1;
  contract_id : HumanCenteredContractIdV1;
  run_id : HumanCenteredRunIdV1;
  turn_id : HumanCenteredTurnIdV1;
  revision : N;
  predecessor_ref : option ContractRef;
  authority_context : AuthorityContextV1.t;
  evidence_refs : list ReferenceV1.t;
  dependency_refs : list ContractRef;
  policy_revision_ref : ReferenceV1.t;
  valid_until : N;
  schema_version : N;
}.

Section with_crates.
Context {C : Crates}.
#[global] Instance to_json : ToJson t := fun m =>
  Obj [(txt "contract_kind", Json.to_json (contract_kind m));
       (txt "contract_id", Json.to_json (contract_id m));
       (txt "run_id", Json.to_json (run_id m));
       (txt "turn_id", Json.to_json (turn_id m));
       (txt "revision", Json.to_json (revision m));
       (txt "predecessor_ref", Json.to_json (predecessor_ref m));
       (txt "authority_context", Json.to_json (authority_context m));
       (txt "evidence_refs", Json.to_json (evidence_refs m));
       (txt "dependency_refs", Json.to_json (dependency_refs m));
       (txt "policy_revision_ref", Json.to_json (policy_revision_ref m));
       (txt "valid_until", Json.to_json (valid_until m));
       (txt "schema_version", Json.to_json (schema_version m))].
#[global] Instance json_inj {L : CratesLaws} : JsonInj t.
Proof. solve_json_inj. Qed.
End with_crates.

Definition validate (m : t) : Checked unit :=
  reject UuidId.is_empty (contract_id m) || UuidId.is_empty (run_id m)
         || UuidId.is_empty (turn_id m) || (revision m =? 0)
         || (HUMAN_CENTERED_MAX_SAFE_WIRE_INTEGER <? revision m) || (valid_until m =? 0)
         || (HUMAN_CENTERED_MAX_SAFE_WIRE_INTEGER <? valid_until m)
         || blank (policy_revision_ref m)
         || (schema_version m != HUMAN_CENTERED_SCHEMA_VERSION)
    with InvalidMetadata;
  _ ← map_err from_reference_error (AuthorityContextV1.validate (authority_context m));
  _ ← match predecessor_ref m with
      | None => if revision m =? 1 then Ok tt else Err InvalidRevisionLineage
      | Some previous =>
          if (kind previous == contract_kind m)
             && (HumanCenteredContractRefV1.contract_id previous == contract_id m)
             && (checked_succ u64_max (HumanCenteredContractRefV1.revision previous)
                   == Some (revision m))
          then HumanCenteredContractRefV1.validate previous
          else Err InvalidRevisionLineage
      end;
  for_each (fun reference =>
      _ ← HumanCenteredContractRefV1.validate reference;
      reject (HumanCenteredContractRefV1.contract_id reference == contract_id m)
             && (revision m <=? HumanCenteredContractRefV1.revision reference)
        with InvalidDependency;
      Ok tt) (dependency_refs m).

Definition build (contract_kind : HumanCenteredContractKindV1)
    (contract_id : HumanCenteredContractIdV1) (run_id : HumanCenteredRunIdV1)
    (turn_id : HumanCenteredTurnIdV1) (revision : N) (predecessor_ref : option ContractRef)
    (authority_context : AuthorityContextV1.t) (evidence_refs : list ReferenceV1.t)
    (dependency_refs : list ContractRef) (policy_revision_ref : ReferenceV1.t)
    (valid_until : N) : Checked t :=
  evidence_refs ← canonical_references evidence_refs;
  dependency_refs ← canonical_contract_references dependency_refs;
  let value := mk contract_kind contract_id run_id turn_id revision predecessor_ref
    authority_context evidence_refs dependency_refs policy_revision_ref valid_until
    HUMAN_CENTERED_SCHEMA_VERSION in
  _ ← validate value;
  Ok value.

(** [minted] is the identifier [HumanCenteredContractIdV1::mint()] draws. *)
Definition initial (minted : HumanCenteredContractIdV1)
    (contract_kind : HumanCenteredContractKindV1) (run_id : HumanCenteredRunIdV1)
    (turn_id : HumanCenteredTurnIdV1) (authority_context : AuthorityContextV1.t)
    (evidence_refs : list ReferenceV1.t) (dependency_refs : list ContractRef)
    (policy_revision_ref : ReferenceV1.t) (valid_until : N) : Checked t :=
  build contract_kind minted run_id turn_id 1 None authority_context evidence_refs
    dependency_refs policy_revision_ref valid_until.

Definition successor (contract_kind : HumanCenteredContractKindV1) (previous_ref : ContractRef)
    (run_id : HumanCenteredRunIdV1) (turn_id : HumanCenteredTurnIdV1)
    (authority_context : AuthorityContextV1.t) (evidence_refs : list ReferenceV1.t)
    (dependency_refs : list ContractRef) (policy_revision_ref : ReferenceV1.t)
    (valid_until : N) : Checked t :=
  _ ← HumanCenteredContractRefV1.validate previous_ref;
  reject kind previous_ref != contract_kind with ContractKindMismatch;
  revision ← ok_or RevisionOverflow
               (checked_succ u64_max (HumanCenteredContractRefV1.revision previous_ref));
  build contract_kind (HumanCenteredContractRefV1.contract_id previous_ref) run_id turn_id
    revision (Some previous_ref) authority_context evidence_refs dependency_refs
    policy_revision_ref valid_until.
End HumanCenteredContractMetadataV1.
Notation Metadata := HumanCenteredContractMetadataV1.t (only parsing).

(** ** Facts about the shared validators *)

Lemma ref_validate_Ok r :
  HumanCenteredContractRefV1.validate r = Ok tt <->
  is_nil_uuid (HumanCenteredContractRefV1.contract_id r) = false /\
  1 <= HumanCenteredContractRefV1.revision r <= HUMAN_CENTERED_MAX_SAFE_WIRE_INTEGER /\
  valid_digest (HumanCenteredContractRefV1.record_digest r) = true.
Proof.
  unfold HumanCenteredContractRefV1.validate, UuidId.is_empty. rewrite reject_Ok.
  rewrite !orb_false_iff, negb_false_iff, N.eqb_neq, N.ltb_ge. intuition (try lia; try done).
Qed.

Lemma ref_new_Ok k i n d r :
  HumanCenteredContractRefV1.new k i n d = Ok r <->
  r = HumanCenteredContractRefV1.mk k i n d /\ HumanCenteredContractRefV1.validate r = Ok tt.
Proof.
  unfold HumanCenteredContractRefV1.new. rewrite bind_Ok. split.
  - intros ([] & Hv & [= <-]). done.
  - intros [-> Hv]. by exists tt.
Qed.

(** Sorting and deduplicating yields the one strictly increasing list of the
    elements. *)
Lemma canonical_list {A} `{EqDecision A, OrdLaws A} (l : list A) :
  StronglySorted ord_le (dedup (sort l)) /\ NoDup (dedup (sort l)) /\
  (forall x, x ∈ dedup (sort l) <-> x ∈ l).
Proof.
  destruct (dedup_StronglySorted (sort l) (sort_sorted l)) as [Hs Hn].
  split; [done|split; [done|]]. intros x. by rewrite elem_of_dedup, elem_of_sort.
Qed.

Lemma dedup_length {A} `{EqDecision A} (l : list A) : (length (dedup l) <= length l)%nat.
Proof.
  induction l as [|x l IH]; [done|]. destruct l as [|y l]; [done|].
  change (dedup (x :: y :: l)) with (if x == y then dedup (y :: l) else x :: dedup (y :: l)).
  case_match; cbn [length] in *; lia.
Qed.

Lemma canonical_list_id {A} `{EqDecision A, OrdLaws A} (l : list A) :
  StronglySorted ord_le l -> NoDup l -> dedup (sort l) = l.
Proof. intros Hs Hn. rewrite sort_id by done. by apply dedup_NoDup_id. Qed.

Lemma canonical_length {A} `{EqDecision A, OrdLaws A} (l : list A) :
  lenN (dedup (sort l)) <= lenN l.
Proof.
  unfold lenN. pose proof (dedup_length (sort l)).
  pose proof (Permutation_length (sort_perm l)). lia.
Qed.

Lemma canonical_references_Ok vs ws :
  canonical_references vs = Ok ws <->
  lenN vs <= 256 /\ ws = dedup (sort vs) /\ Forall (fun r => blank r = false) vs.
Proof.
  unfold canonical_references. rewrite !reject_Ok, existsb_false, N.ltb_ge.
  assert (Forall (fun r => blank r = false) (dedup (sort vs)) <->
          Forall (fun r => blank r = false) vs) as ->.
  { rewrite !Forall_forall. by setoid_rewrite (proj2 (proj2 (canonical_list vs))). }
  naive_solver.
Qed.

Lemma canonical_contract_references_Ok vs ws :
  canonical_contract_references vs = Ok ws <->
  lenN vs <= 256 /\ ws = dedup (sort vs) /\
  Forall (fun r => HumanCenteredContractRefV1.validate r = Ok tt) vs.
Proof.
  unfold canonical_contract_references. rewrite reject_Ok, bind_Ok, N.ltb_ge. split.
  - intros (Hl & [] & Hf%for_each_Ok & [= <-]). done.
  - intros (Hl & -> & Hf). split; [done|]. exists tt. by rewrite for_each_Ok.
Qed.

Lemma validate_required_text_Ok v :
  validate_required_text v = Ok tt <->
  trim v <> [] /\ str_len v <= 4096 /\ Forall (fun c => is_control c = false) v.
Proof.
  unfold validate_required_text. rewrite reject_Ok, !orb_false_iff, is_nil_false, N.ltb_ge,
    existsb_false. intuition.
Qed.

Lemma validate_text_collection_Ok vs :
  validate_text_collection vs = Ok tt <->
  lenN vs <= 256 /\ Forall (fun v => validate_required_text v = Ok tt) vs.
Proof. unfold validate_text_collection. by rewrite reject_Ok, N.ltb_ge, for_each_Ok. Qed.

(** What a valid metadata record satisfies. *)
Record metadata_ok (m : Metadata) : Prop := {
  mo_ids : is_nil_uuid (HumanCenteredContractMetadataV1.contract_id m) = false /\
           is_nil_uuid (HumanCenteredContractMetadataV1.run_id m) = false /\
           is_nil_uuid (HumanCenteredContractMetadataV1.turn_id m) = false;
  mo_revision : 1 <= HumanCenteredContractMetadataV1.revision m <= HUMAN_CENTERED_MAX_SAFE_WIRE_INTEGER;
  mo_valid_until : 1 <= HumanCenteredContractMetadataV1.valid_until m
                   <= HUMAN_CENTERED_MAX_SAFE_WIRE_INTEGER;
  mo_policy : blank (HumanCenteredContractMetadataV1.policy_revision_ref m) = false;
  mo_schema : HumanCenteredContractMetadataV1.schema_version m = HUMAN_CENTERED_SCHEMA_VERSION;
  mo_context : AuthorityContextV1.validate (HumanCenteredContractMetadataV1.authority_context m) = Ok tt;
  mo_lineage :
    match HumanCenteredContractMetadataV1.predecessor_ref m with
    | None => HumanCenteredContractMetadataV1.revision m = 1
    | Some p =>
        HumanCenteredContractRefV1.kind p = HumanCenteredContractMetadataV1.contract_kind m /\
        HumanCenteredContractRefV1.contract_id p = HumanCenteredContractMetadataV1.contract_id m /\
        HumanCenteredContractMetadataV1.revision m = HumanCenteredContractRefV1.revision p + 1 /\
        HumanCenteredContractRefV1.validate p = Ok tt
    end;
  mo_dependencies : Forall (fun r =>
    HumanCenteredContractRefV1.validate r = Ok tt /\
    ~ (HumanCenteredContractRefV1.contract_id r = HumanCenteredContractMetadataV1.contract_id m /\
       HumanCenteredContractMetadataV1.revision m <= HumanCenteredContractRefV1.revision r))
    (HumanCenteredContractMetadataV1.dependency_refs m);
}.

Lemma checked_succ_Some max x y : checked_succ max x = Some y <-> x < max /\ y = x + 1.
Proof. unfold checked_succ. destruct (N.ltb_spec x max); naive_solver lia. Qed.

Lemma lineage_check_Ok (m : Metadata) :
  match HumanCenteredContractMetadataV1.predecessor_ref m with
  | None => if HumanCenteredContractMetadataV1.revision m =? 1 then Ok tt else Err InvalidRevisionLineage
  | Some previous =>
      if (HumanCenteredContractRefV1.kind previous == HumanCenteredContractMetadataV1.contract_kind m)
         && (HumanCenteredContractRefV1.contract_id previous
               == HumanCenteredContractMetadataV1.contract_id m)
         && (checked_succ u64_max (HumanCenteredContractRefV1.revision previous)
               == Some (HumanCenteredContractMetadataV1.revision m))
      then HumanCenteredContractRefV1.validate previous
      else Err InvalidRevisionLineage
  end = Ok tt <->
  match HumanCenteredContractMetadataV1.predecessor_ref m with
  | None => HumanCenteredContractMetadataV1.revision m = 1
  | Some p =>
      HumanCenteredContractRefV1.kind p = HumanCenteredContractMetadataV1.contract_kind m /\
      HumanCenteredContractRefV1.contract_id p = HumanCenteredContractMetadataV1.contract_id m /\
      HumanCenteredContractMetadataV1.revision m = HumanCenteredContractRefV1.revision p + 1 /\
      HumanCenteredContractRefV1.validate p = Ok tt
  end.
Proof.
  destruct (HumanCenteredContractMetadataV1.predecessor_ref m) as [p|].
  - case_match eqn:E; rewrite ?andb_true_iff, ?andb_false_iff, ?bool_decide_true_iff,
      ?bool_decide_false_iff, checked_succ_Some in E.
    + destruct E as [[? ?] [? ?]]. naive_solver.
    + split; [done|]. intros (Hk & Hi & Hr & [_ [Hb _]]%ref_validate_Ok).
      unfold HUMAN_CENTERED_MAX_SAFE_WIRE_INTEGER, u64_max in *.
      destruct E as [[E|E]|E]; exfalso; apply E; auto. split; [lia|done].
  - destruct (N.eqb_spec (HumanCenteredContractMetadataV1.revision m) 1); naive_solver.
Qed.

Lemma metadata_validate_Ok (m : Metadata) :
  HumanCenteredContractMetadataV1.validate m = Ok tt <-> metadata_ok m.
Proof.
  unfold HumanCenteredContractMetadataV1.validate, UuidId.is_empty.
  rewrite reject_Ok, !orb_false_iff, !N.eqb_neq, !N.ltb_ge, negb_false_iff, bool_decide_true_iff.
  assert (forall r, (_ ← HumanCenteredContractRefV1.validate r;
      reject (HumanCenteredContractRefV1.contract_id r == HumanCenteredContractMetadataV1.contract_id m)
        && (HumanCenteredContractMetadataV1.revision m <=? HumanCenteredContractRefV1.revision r)
        with InvalidDependency; Ok tt) = Ok tt <->
      HumanCenteredContractRefV1.validate r = Ok tt /\
    ~ (HumanCenteredContractRefV1.contract_id r = HumanCenteredContractMetadataV1.contract_id m /\
       HumanCenteredContractMetadataV1.revision m <= HumanCenteredContractRefV1.revision r)) as Hdep.
  { intros r. rewrite bind_Ok. setoid_rewrite reject_Ok.
    setoid_rewrite andb_false_iff. setoid_rewrite bool_decide_false_iff. setoid_rewrite N.leb_gt.
    split; [intros ([] & Hv & Hc & _); split; [done|intros [? ?]; naive_solver lia]|].
    intros [Hv Hc]. exists tt. split; [done|split; [|done]].
    destruct (decide (HumanCenteredContractRefV1.contract_id r =
      HumanCenteredContractMetadataV1.contract_id m)); [right|by left].
    apply N.nle_gt. naive_solver. }
  split.
  - intros (H & Hr). inv_ok. rewrite lineage_check_Ok in *.
    match goal with Hf : Forall _ _ |- _ => rename Hf into Hdeps end.
    split; try tauto; try lia. eapply Forall_impl; [exact Hdeps|]. intros r. apply Hdep.
  - intros [(Hi1 & Hi2 & Hi3) Hrev Hval Hpol Hsch Hctx Hlin Hdeps].
    split; [repeat split; try done; lia|].
    rewrite bind_Ok. exists tt. rewrite map_err_Ok. split; [done|].
    rewrite bind_Ok. exists tt. rewrite lineage_check_Ok. split; [done|].
    rewrite for_each_Ok. eapply Forall_impl; [exact Hdeps|]. intros r. apply Hdep.
Qed.

(** ** Revision lineage *)

Section lineage.
Import HumanCenteredContractMetadataV1.

Lemma build_Ok k i run turn rev pred ctx ev deps pol vu m :
  build k i run turn rev pred ctx ev deps pol vu = Ok m <->
  lenN ev <= 256 /\ Forall (fun r => blank r = false) ev /\
  lenN deps <= 256 /\ Forall (fun r => HumanCenteredContractRefV1.validate r = Ok tt) deps /\
  m = mk k i run turn rev pred ctx (dedup (sort ev)) (dedup (sort deps)) pol vu
        HUMAN_CENTERED_SCHEMA_VERSION /\
  validate m = Ok tt.
Proof.
  unfold build. rewrite bind_Ok. setoid_rewrite canonical_references_Ok.
  setoid_rewrite bind_Ok. setoid_rewrite canonical_contract_references_Ok.
  setoid_rewrite bind_Ok. split.
  - intros (? & (? & -> & ?) & ? & (? & -> & ?) & [] & Hv & [= <-]). done.
  - intros (? & ? & ? & ? & -> & ?). do 2 (eexists; split; [done|]). by exists tt.
Qed.

(** A successor is accepted exactly when its predecessor reference is valid,
    of the same kind and not at the last representable revision, and the
    resulting record validates; the record then continues the lineage: same
    identity, the next revision, the predecessor recorded, and canonical
    (sorted, duplicate-free) evidence and dependencies. *)
Theorem successor_continues_lineage k prev run turn ctx ev deps pol vu m :
  successor k prev run turn ctx ev deps pol vu = Ok m <->
  HumanCenteredContractRefV1.validate prev = Ok tt /\
  HumanCenteredContractRefV1.kind prev = k /\
  lenN ev <= 256 /\ Forall (fun r => blank r = false) ev /\
  lenN deps <= 256 /\ Forall (fun r => HumanCenteredContractRefV1.validate r = Ok tt) deps /\
  m = mk k (HumanCenteredContractRefV1.contract_id prev) run turn
        (HumanCenteredContractRefV1.revision prev + 1) (Some prev) ctx
        (dedup (sort ev)) (dedup (sort deps)) pol vu HUMAN_CENTERED_SCHEMA_VERSION /\
  metadata_ok m.
Proof.
  unfold successor. split.
  - intros H. inv_ok. rewrite build_Ok, metadata_validate_Ok in *. bsimp.
    match goal with Hs : checked_succ _ _ = _ |- _ => apply checked_succ_Some in Hs as [_ ->] end.
    done.
  - intros (Hv & Hk & H). rewrite Hv. cbn. rewrite bool_decide_eq_true_2 by done. cbn.
    apply bind_Ok. exists (HumanCenteredContractRefV1.revision prev + 1).
    rewrite ok_or_Ok, checked_succ_Some, build_Ok, metadata_validate_Ok. split; [|done].
    split; [|done]. apply ref_validate_Ok in Hv as (_ & Hb & _).
    unfold HUMAN_CENTERED_MAX_SAFE_WIRE_INTEGER, u64_max in *. lia.
Qed.

(** The records reachable from one [initial] by [successor], newest first:
    each names its predecessor by kind, identity, revision and some digest. *)
Inductive revision_chain : list Metadata -> Prop :=
| chain_initial minted k run turn ctx ev deps pol vu m :
    initial minted k run turn ctx ev deps pol vu = Ok m ->
    revision_chain [m]
| chain_successor p ms digest k run turn ctx ev deps pol vu m :
    revision_chain (p :: ms) ->
    successor k (HumanCenteredContractRefV1.mk (contract_kind p) (contract_id p) (revision p) digest)
      run turn ctx ev deps pol vu = Ok m ->
    revision_chain (m :: p :: ms).

(** Along any chain of accepted revisions the numbers are consecutive from 1,
    the kind and identity never change, every record is valid, and the chain
    cannot outgrow the largest wire-safe integer. *)
Theorem revision_chain_numbering ms :
  revision_chain ms ->
  lenN ms <= HUMAN_CENTERED_MAX_SAFE_WIRE_INTEGER /\ Forall metadata_ok ms /\
  forall i m, ms !! i = Some m ->
    revision m = lenN ms - N.of_nat i /\
    forall m', m' ∈ ms -> contract_kind m' = contract_kind m /\ contract_id m' = contract_id m.
Proof.
  assert (forall ms, revision_chain ms -> exists m ms', ms = m :: ms' /\ revision m = lenN ms /\
    Forall metadata_ok ms /\ Forall (fun m' => contract_kind m' = contract_kind m /\ contract_id m' = contract_id m) ms /\
    forall i m, ms !! i = Some m -> revision m = lenN ms - N.of_nat i) as Hchain.
  { clear ms. induction 1 as [minted k run turn ctx ev deps pol vu m Hm
                             |p ms digest k run turn ctx ev deps pol vu m Hc IH Hm].
    - unfold initial in Hm. rewrite build_Ok, metadata_validate_Ok in Hm.
      destruct Hm as (_ & _ & _ & _ & -> & Hok). eexists _, []. repeat split; try done.
      + by constructor.
      + by constructor.
      + intros [|[|i]] m' [= <-]. done.
    - destruct IH as (p' & ms' & [= <- <-] & Hr & Hok & Hsame & Hnum).
      apply successor_continues_lineage in Hm as (_ & Hk & _ & _ & _ & _ & Hm & Hmo).
      assert (revision m = revision p + 1) as Hrm by (by rewrite Hm).
      assert (contract_kind m = contract_kind p) as Hkm by (rewrite Hm; by cbn in *).
      assert (contract_id m = contract_id p) as Him by (by rewrite Hm).
      eexists _, _. split; [done|]. unfold lenN in *. cbn [length] in *.
      repeat split; [lia|by constructor| |].
      + constructor; [done|]. eapply Forall_impl; [exact Hsame|]. cbn. intros ? [? ?]. by split; congruence.
      + intros [|i] m' Hi; cbn in Hi; [injection Hi as <-; lia|]. apply Hnum in Hi. lia. }
  intros Hms. destruct (Hchain ms Hms) as (m & ms' & Heq & Hr & Hok & Hsame & Hnum).
  split; [|split; [done|]].
  - rewrite Heq in Hok. apply Forall_inv in Hok. destruct Hok as [_ Hb _ _ _ _ _ _]. lia.
  - intros i m1 Hi. split; [by apply Hnum|]. intros m2 Hm2.
    rewrite Forall_forall in Hsame. apply list_elem_of_lookup_2 in Hi.
    destruct (Hsame m1 Hi), (Hsame m2 Hm2). split; congruence.
Qed.
End lineage.
