(* ===== verification/Production.v ===== *)
(** * Production: the wire boundary ([idr-protocol/src/production.rs])

    Untrusted candidate submissions, the signed proofs of the trust chain, issuer
    keys and the trust-root snapshot that verifies a proof at a trusted time.
    [CanonicalJson] models the encoder all its digests and signatures use. *)

From stdpp Require Import base list gmap fin_sets countable sorting strings.
From Stdlib Require Import NArith ZArith Lia.
From S2P Require Import Prelude Text Json Crates CanonicalJson Common.

Definition IDR_WIRE_SCHEMA_VERSION_V1 : N := 1.
Definition IDR_MINIMUM_READER_VERSION_V1 : N := 1.
Definition IDR_PROOF_ALGORITHM_ED25519_V1 : text := txt "ed25519".
Definition IDR_MAX_AUTHORITY_EPOCH_SECONDS_V1 : N := 253402300799.

Module TrustDomainV1.
Inductive t : Type :=
| Shadow | Production.

Definition rank (k : t) : N :=
  match k with
  | Shadow => 0 | Production => 1
  end.
Lemma domain_rank_inj k l : rank k = rank l -> k = l.
Proof. by destruct k, l. Qed.
#[global] Instance eq_dec : EqDecision t.
Proof. solve_decision. Defined.
#[global] Instance countable : Countable t.
Proof.
  refine (inj_countable rank (fun n => nth_error
    [Shadow; Production] (N.to_nat n)) _). by intros [].
Defined.
#[global] Instance ord : Ord t := fun k l => cmp (rank k) (rank l).
#[global] Instance ord_laws : OrdLaws t.
Proof. apply (ord_laws_key _ rank); auto using domain_rank_inj. Qed.
#[global] Instance to_json : ToJson t := fun k =>
  Str (txt match k with
  | Shadow => "shadow" | Production => "production" end).
End TrustDomainV1.

Module ProductionReleaseGatesV1.
Record t := mk {
  trust_chain_closure_complete : bool;
  production_trust_root_blocked : bool;
  production_authorization_enabled : bool;
  production_execution_enabled : bool;
  human_model_long_term_write_enabled : bool;
  aegis_production_adapter_enabled : bool;
}.
Definition BLOCKED : t := mk false true false false false false.
End ProductionReleaseGatesV1.

Module ProductionProofKindV1.
Inductive t : Type :=
| CallerAuthentication | InputAdmission | ContextSnapshot | IntentFastPathAdmission
| DecisionNecessityAdmission | TurnCoordinationAdmission | ResponsePolicy | ResponseAdmission
| Authority | Capability | Policy | ExactAuthorization | ActionAdmission | ExecutionPermit
| ProviderReceipt | OutcomeObservation | HumanModelPromotion | HumanModelUserConfirmation
| HumanModelCorrection.

Definition rank (k : t) : N :=
  match k with
  | CallerAuthentication => 0 | InputAdmission => 1 | ContextSnapshot => 2
  | IntentFastPathAdmission => 3 | DecisionNecessityAdmission => 4
  | TurnCoordinationAdmission => 5 | ResponsePolicy => 6 | ResponseAdmission => 7
  | Authority => 8 | Capability => 9 | Policy => 10 | ExactAuthorization => 11
  | ActionAdmission => 12 | ExecutionPermit => 13 | ProviderReceipt => 14
  | OutcomeObservation => 15 | HumanModelPromotion => 16 | HumanModelUserConfirmation => 17
  | HumanModelCorrection => 18
  end.
Lemma proof_kind_rank_inj k l : rank k = rank l -> k = l.
Proof. by destruct k, l. Qed.
#[global] Instance eq_dec : EqDecision t.
Proof. solve_decision. Defined.
#[global] Instance countable : Countable t.
Proof.
  refine (inj_countable rank (fun n => nth_error
    [CallerAuthentication; InputAdmission; ContextSnapshot; IntentFastPathAdmission;
    DecisionNecessityAdmission; TurnCoordinationAdmission; ResponsePolicy; ResponseAdmission;
    Authority; Capability; Policy; ExactAuthorization; ActionAdmission; ExecutionPermit;
    ProviderReceipt; OutcomeObservation; HumanModelPromotion; HumanModelUserConfirmation;
    HumanModelCorrection] (N.to_nat n)) _). by intros [].
Defined.
#[global] Instance ord : Ord t := fun k l => cmp (rank k) (rank l).
#[global] Instance ord_laws : OrdLaws t.
Proof. apply (ord_laws_key _ rank); auto using proof_kind_rank_inj. Qed.
#[global] Instance to_json : ToJson t := fun k =>
  Str (txt match k with
  | CallerAuthentication => "caller_authentication" | InputAdmission => "input_admission"
  | ContextSnapshot => "context_snapshot"
  | IntentFastPathAdmission => "intent_fast_path_admission"
  | DecisionNecessityAdmission => "decision_necessity_admission"
  | TurnCoordinationAdmission => "turn_coordination_admission"
  | ResponsePolicy => "response_policy" | ResponseAdmission => "response_admission"
  | Authority => "authority" | Capability => "capability" | Policy => "policy"
  | ExactAuthorization => "exact_authorization" | ActionAdmission => "action_admission"
  | ExecutionPermit => "execution_permit" | ProviderReceipt => "provider_receipt"
  | OutcomeObservation => "outcome_observation"
  | HumanModelPromotion => "human_model_promotion"
  | HumanModelUserConfirmation => "human_model_user_confirmation"
  | HumanModelCorrection => "human_model_correction" end).
End ProductionProofKindV1.

Module CandidateKindV1.
Inductive t : Type :=
| CanonicalInput | ContextSnapshot | Intent | Decision | TurnCoordination | Response | Action
| ActionAdmissionDecision | ExecutionReceipt | Outcome | HumanModelCandidate
| HumanModelPromotionDecision | HumanModelAssertion.

Definition rank (k : t) : N :=
  match k with
  | CanonicalInput => 0 | ContextSnapshot => 1 | Intent => 2 | Decision => 3
  | TurnCoordination => 4 | Response => 5 | Action => 6 | ActionAdmissionDecision => 7
  | ExecutionReceipt => 8 | Outcome => 9 | HumanModelCandidate => 10
  | HumanModelPromotionDecision => 11 | HumanModelAssertion => 12
  end.
Lemma candidate_kind_rank_inj k l : rank k = rank l -> k = l.
Proof. by destruct k, l. Qed.
#[global] Instance eq_dec : EqDecision t.
Proof. solve_decision. Defined.
#[global] Instance countable : Countable t.
Proof.
  refine (inj_countable rank (fun n => nth_error
    [CanonicalInput; ContextSnapshot; Intent; Decision; TurnCoordination; Response; Action;
    ActionAdmissionDecision; ExecutionReceipt; Outcome; HumanModelCandidate;
    HumanModelPromotionDecision; HumanModelAssertion] (N.to_nat n)) _). by intros [].
Defined.
#[global] Instance ord : Ord t := fun k l => cmp (rank k) (rank l).
#[global] Instance ord_laws : OrdLaws t.
Proof. apply (ord_laws_key _ rank); auto using candidate_kind_rank_inj. Qed.
#[global] Instance to_json : ToJson t := fun k =>
  Str (txt match k with
  | CanonicalInput => "canonical_input" | ContextSnapshot => "context_snapshot"
  | Intent => "intent" | Decision => "decision" | TurnCoordination => "turn_coordination"
  | Response => "response" | Action => "action"
  | ActionAdmissionDecision => "action_admission_decision"
  | ExecutionReceipt => "execution_receipt" | Outcome => "outcome"
  | HumanModelCandidate => "human_model_candidate"
  | HumanModelPromotionDecision => "human_model_promotion_decision"
  | HumanModelAssertion => "human_model_assertion" end).
End CandidateKindV1.

(** A [BTreeSet] serializes as the array of its elements in order. *)
Definition btree_elements {A} `{Countable A, Ord A} (s : gset A) : list A := sort (elements s).
#[export] Instance btree_set_json {A} `{Countable A, Ord A, ToJson A} : ToJson (gset A) :=
  fun s => Arr (map to_json (btree_elements s)).

Module WireCompatibilityV1.
Record t := mk {
  schema_version : N;
  minimum_reader_version : N;
  critical_feature_flags : gset text;
}.
#[global] Instance eq_dec : EqDecision t.
Proof. solve_decision. Defined.

Definition v1 : t := mk IDR_WIRE_SCHEMA_VERSION_V1 IDR_MINIMUM_READER_VERSION_V1 ∅.

Definition validate (c : t) : Wire unit :=
  reject (schema_version c != IDR_WIRE_SCHEMA_VERSION_V1)
         || (IDR_WIRE_SCHEMA_VERSION_V1 <? minimum_reader_version c)
         || existsb (fun flag => is_nil flag || (128 <? str_len flag) || existsb is_control flag)
              (btree_elements (critical_feature_flags c))
    with UnsupportedWireVersion;
  reject critical_feature_flags c != ∅ with UnsupportedCriticalFeature;
  Ok tt.

#[global] Instance to_json : ToJson t := fun c =>
  Obj [(txt "schema_version", Json.to_json (schema_version c));
       (txt "minimum_reader_version", Json.to_json (minimum_reader_version c));
       (txt "critical_feature_flags", Json.to_json (critical_feature_flags c))].
End WireCompatibilityV1.

Section uuid.
Context {C : Crates}.
Definition valid_wire_uuid (value : Uuid) : bool :=
  negb (is_nil_uuid value) && uuid_is_rfc4122 value
  && ((1 <=? uuid_version value) && (uuid_version value <=? 8)).
End uuid.

(** ** Candidates *)

Module CandidateSubmissionV1.
Record t := mk {
  compatibility : WireCompatibilityV1.t;
  candidate_id : Uuid;
  candidate_kind : CandidateKindV1.t;
  run_id : Uuid;
  turn_id : Uuid;
  subject_ref : ReferenceV1.t;
  tenant_ref : ReferenceV1.t;
  scope_ref : ReferenceV1.t;
  purpose_ref : ReferenceV1.t;
  policy_revision_ref : ReferenceV1.t;
  valid_from : N;
  valid_until : N;
  payload : Value;
}.
#[global] Instance eq_dec : EqDecision t.
Proof. solve_decision. Defined.

Section with_crates.
Context {C : Crates}.

(** The payload is encoded only when the fields before it pass. *)
Definition validate (c : t) : Wire unit :=
  _ ← WireCompatibilityV1.validate (compatibility c);
  reject is_nil_uuid (candidate_id c) || negb (valid_wire_uuid (run_id c))
         || negb (valid_wire_uuid (turn_id c)) || (valid_from c =? 0)
         || (valid_until c <=? valid_from c)
         || (IDR_MAX_AUTHORITY_EPOCH_SECONDS_V1 <? valid_until c)
    with InvalidCandidate;
  bytes ← canonical_json_bytes_v1 (payload c);
  reject 1048576 <? lenN bytes with InvalidCandidate;
  _ ← validate_json_limits (payload c);
  Ok tt.

(** [minted] is the identifier [Uuid::new_v4()] draws. *)
Definition new (minted : Uuid) (candidate_kind : CandidateKindV1.t) (run_id turn_id : Uuid)
    (subject_ref tenant_ref scope_ref purpose_ref policy_revision_ref : ReferenceV1.t)
    (valid_from valid_until : N) (payload : Value) : Wire t :=
  let candidate := mk WireCompatibilityV1.v1 minted candidate_kind run_id turn_id subject_ref
    tenant_ref scope_ref purpose_ref policy_revision_ref valid_from valid_until payload in
  _ ← validate candidate;
  Ok candidate.

#[global] Instance to_json : ToJson t := fun c =>
  Obj [(txt "compatibility", Json.to_json (compatibility c));
       (txt "candidate_id", Json.to_json (candidate_id c));
       (txt "candidate_kind", Json.to_json (candidate_kind c));
       (txt "run_id", Json.to_json (run_id c)); (txt "turn_id", Json.to_json (turn_id c));
       (txt "subject_ref", Json.to_json (subject_ref c));
       (txt "tenant_ref", Json.to_json (tenant_ref c)); (txt "scope_ref", Json.to_json (scope_ref c));
       (txt "purpose_ref", Json.to_json (purpose_ref c));
       (txt "policy_revision_ref", Json.to_json (policy_revision_ref c));
       (txt "valid_from", Json.to_json (valid_from c));
       (txt "valid_until", Json.to_json (valid_until c)); (txt "payload", payload c)].

Definition canonical_digest (c : t) : Wire text :=
  canonical_digest_v1 "idr-candidate-v1" (Json.to_json c).
End with_crates.
End CandidateSubmissionV1.

(** ** Proofs *)

(** [json!({key: value})] *)
Definition outcome (key value : string) : Value := Obj [(txt key, Str (txt value))].

Definition default_proof_assertion (proof_kind : ProductionProofKindV1.t) : Value :=
  match proof_kind with
  | ProductionProofKindV1.CallerAuthentication => outcome "outcome" "authenticate"
  | ProductionProofKindV1.ExactAuthorization => outcome "decision" "approve"
  | ProductionProofKindV1.InputAdmission => outcome "outcome" "admit"
  | ProductionProofKindV1.ContextSnapshot => outcome "outcome" "attest"
  | ProductionProofKindV1.IntentFastPathAdmission | ProductionProofKindV1.DecisionNecessityAdmission
  | ProductionProofKindV1.TurnCoordinationAdmission => outcome "outcome" "admit"
  | ProductionProofKindV1.ResponsePolicy | ProductionProofKindV1.ResponseAdmission
  | ProductionProofKindV1.Authority | ProductionProofKindV1.Capability
  | ProductionProofKindV1.Policy | ProductionProofKindV1.ActionAdmission => outcome "outcome" "allow"
  | ProductionProofKindV1.ExecutionPermit => outcome "outcome" "issue"
  | ProductionProofKindV1.ProviderReceipt => outcome "outcome" "attest"
  | ProductionProofKindV1.OutcomeObservation => outcome "outcome" "observe"
  | ProductionProofKindV1.HumanModelPromotion => outcome "outcome" "promote"
  | ProductionProofKindV1.HumanModelUserConfirmation => outcome "outcome" "confirm"
  | ProductionProofKindV1.HumanModelCorrection => outcome "outcome" "correct"
  end.

Module ProductionProofClaimsV1.
Record t := mk {
  compatibility : WireCompatibilityV1.t;
  proof_id : Uuid;
  trust_domain : TrustDomainV1.t;
  environment_ref : ReferenceV1.t;
  proof_kind : ProductionProofKindV1.t;
  issuer_ref : ReferenceV1.t;
  subject_ref : ReferenceV1.t;
  subject_digest : text;
  audience_ref : ReferenceV1.t;
  tenant_ref : ReferenceV1.t;
  scope_ref : ReferenceV1.t;
  purpose_ref : ReferenceV1.t;
  policy_revision_ref : ReferenceV1.t;
  issued_at : N;
  not_before : N;
  expires_at : N;
  nonce : text;
  principal_digest : text;
  assertion : Value;
}.
#[global] Instance eq_dec : EqDecision t.
Proof. solve_decision. Defined.

Definition validate (c : t) : Wire unit :=
  _ ← WireCompatibilityV1.validate (compatibility c);
  reject is_nil_uuid (proof_id c) || negb (valid_digest (subject_digest c)) || (issued_at c =? 0)
         || (not_before c <? issued_at c) || (expires_at c <=? not_before c)
         || (IDR_MAX_AUTHORITY_EPOCH_SECONDS_V1 <? expires_at c) || negb (valid_digest (nonce c))
         || negb (valid_digest (principal_digest c))
    with InvalidProof;
  _ ← validate_json_limits (assertion c);
  Ok tt.

Definition new (minted : Uuid) (trust_domain : TrustDomainV1.t) (environment_ref : ReferenceV1.t)
    (proof_kind : ProductionProofKindV1.t) (issuer_ref subject_ref : ReferenceV1.t)
    (subject_digest : text)
    (audience_ref tenant_ref scope_ref purpose_ref policy_revision_ref : ReferenceV1.t)
    (issued_at not_before expires_at : N) (nonce : text) : Wire t :=
  let claims := mk WireCompatibilityV1.v1 minted trust_domain environment_ref proof_kind issuer_ref
    subject_ref subject_digest audience_ref tenant_ref scope_ref purpose_ref policy_revision_ref
    issued_at not_before expires_at nonce (repeat 48 64) (default_proof_assertion proof_kind) in
  _ ← validate claims;
  Ok claims.

Definition set_assertion (c : t) (assertion : Value) : t :=
  mk (compatibility c) (proof_id c) (trust_domain c) (environment_ref c) (proof_kind c)
    (issuer_ref c) (subject_ref c) (subject_digest c) (audience_ref c) (tenant_ref c) (scope_ref c)
    (purpose_ref c) (policy_revision_ref c) (issued_at c) (not_before c) (expires_at c) (nonce c)
    (principal_digest c) assertion.
Definition set_principal_digest (c : t) (principal_digest : text) : t :=
  mk (compatibility c) (proof_id c) (trust_domain c) (environment_ref c) (proof_kind c)
    (issuer_ref c) (subject_ref c) (subject_digest c) (audience_ref c) (tenant_ref c) (scope_ref c)
    (purpose_ref c) (policy_revision_ref c) (issued_at c) (not_before c) (expires_at c) (nonce c)
    principal_digest (assertion c).

Definition with_assertion (c : t) (assertion : Value) : Wire t :=
  _ ← validate_json_limits assertion;
  let c := set_assertion c assertion in
  _ ← validate c;
  Ok c.

Section with_crates.
Context {C : Crates}.

#[global] Instance to_json : ToJson t := fun c =>
  Obj [(txt "compatibility", Json.to_json (compatibility c));
       (txt "proof_id", Json.to_json (proof_id c));
       (txt "trust_domain", Json.to_json (trust_domain c));
       (txt "environment_ref", Json.to_json (environment_ref c));
       (txt "proof_kind", Json.to_json (proof_kind c));
       (txt "issuer_ref", Json.to_json (issuer_ref c));
       (txt "subject_ref", Json.to_json (subject_ref c));
       (txt "subject_digest", Json.to_json (subject_digest c));
       (txt "audience_ref", Json.to_json (audience_ref c));
       (txt "tenant_ref", Json.to_json (tenant_ref c)); (txt "scope_ref", Json.to_json (scope_ref c));
       (txt "purpose_ref", Json.to_json (purpose_ref c));
       (txt "policy_revision_ref", Json.to_json (policy_revision_ref c));
       (txt "issued_at", Json.to_json (issued_at c)); (txt "not_before", Json.to_json (not_before c));
       (txt "expires_at", Json.to_json (expires_at c)); (txt "nonce", Json.to_json (nonce c));
       (txt "principal_digest", Json.to_json (principal_digest c)); (txt "assertion", assertion c)].

Definition with_principal_binding (c : t) (actor_ref caller_ref : ReferenceV1.t) : Wire t :=
  principal_digest ← canonical_digest_v1 "idr-command-principal-v1"
                       (Arr [Json.to_json actor_ref; Json.to_json caller_ref]);
  let c := set_principal_digest c principal_digest in
  _ ← validate c;
  Ok c.

Definition canonical_signing_bytes (c : t) : Wire (list N) :=
  canonical_json_bytes_v1 (Arr [Str (txt "idr-production-proof-v1"); Json.to_json c]).
End with_crates.
End ProductionProofClaimsV1.

Module ProductionProofEnvelopeV1.
Record t := mk {
  claims : ProductionProofClaimsV1.t;
  key_id : ReferenceV1.t;
  algorithm : text;
  signature : text;
}.
#[global] Instance eq_dec : EqDecision t.
Proof. solve_decision. Defined.

Definition validate_shape (e : t) : Wire unit :=
  _ ← ProductionProofClaimsV1.validate (claims e);
  reject (algorithm e != IDR_PROOF_ALGORITHM_ED25519_V1)
         || negb (is_some (decode_hex 64 (signature e)))
    with InvalidProof;
  Ok tt.

Definition new (claims : ProductionProofClaimsV1.t) (key_id : ReferenceV1.t) (signature : text) :
    Wire t :=
  let envelope := mk claims key_id IDR_PROOF_ALGORITHM_ED25519_V1 signature in
  _ ← validate_shape envelope;
  Ok envelope.

Section with_crates.
Context {C : Crates}.
#[global] Instance to_json : ToJson t := fun e =>
  Obj [(txt "claims", Json.to_json (claims e)); (txt "key_id", Json.to_json (key_id e));
       (txt "algorithm", Json.to_json (algorithm e)); (txt "signature", Json.to_json (signature e))].
End with_crates.
End ProductionProofEnvelopeV1.

Module ExpectedProductionProofV1.
Record t := mk {
  trust_domain : TrustDomainV1.t;
  environment_ref : ReferenceV1.t;
  proof_kind : ProductionProofKindV1.t;
  issuer_ref : ReferenceV1.t;
  subject_ref : ReferenceV1.t;
  subject_digest : text;
  audience_ref : ReferenceV1.t;
  tenant_ref : ReferenceV1.t;
  scope_ref : ReferenceV1.t;
  purpose_ref : ReferenceV1.t;
  policy_revision_ref : ReferenceV1.t;
}.
End ExpectedProductionProofV1.

(** ** Issuer keys and the trust root *)

Definition domain_name (trust_domain : TrustDomainV1.t) : text :=
  match trust_domain with
  | TrustDomainV1.Shadow => txt "shadow"
  | TrustDomainV1.Production => txt "production"
  end.

Definition audience_matches_environment (trust_domain : TrustDomainV1.t)
    (environment_ref audience_ref : ReferenceV1.t) : bool :=
  let domain := domain_name trust_domain in
  is_some_and (fun environment =>
      negb (is_nil environment)
      && (ReferenceV1.as_str audience_ref == txt "audience:idr:" ++ domain ++ [58] ++ environment))
    (strip_prefix (txt "environment:idr:" ++ domain ++ [58]) (ReferenceV1.as_str environment_ref)).

Module ProductionIssuerKeyV1.
Record t := mk {
  trust_domain : TrustDomainV1.t;
  environment_ref : ReferenceV1.t;
  issuer_ref : ReferenceV1.t;
  key_id : ReferenceV1.t;
  public_key : list N;
  audience_ref : ReferenceV1.t;
  tenant_ref : ReferenceV1.t;
  allowed_proof_kinds : gset ProductionProofKindV1.t;
  valid_from : N;
  valid_until : N;
  revoked_at : option N;
}.
#[global] Instance eq_dec : EqDecision t.
Proof. solve_decision. Defined.

Section with_crates.
Context {C : Crates}.
Definition new (trust_domain : TrustDomainV1.t) (environment_ref issuer_ref key_id : ReferenceV1.t)
    (public_key_hex : text) (audience_ref tenant_ref : ReferenceV1.t)
    (allowed_proof_kinds : gset ProductionProofKindV1.t) (valid_from valid_until : N)
    (revoked_at : option N) : Wire t :=
  key ← ok_or InvalidKey (decode_hex 32 public_key_hex);
  public_key ← ok_or InvalidKey (verifying_key_from_bytes key);
  reject bool_decide (allowed_proof_kinds = ∅) || (valid_from =? 0) || (valid_until <=? valid_from)
         || (IDR_MAX_AUTHORITY_EPOCH_SECONDS_V1 <? valid_until)
         || is_some_and (fun revoked => (revoked <? valid_from) || (valid_until <? revoked)) revoked_at
         || negb (audience_matches_environment trust_domain environment_ref audience_ref)
    with InvalidKey;
  Ok (mk trust_domain environment_ref issuer_ref key_id public_key audience_ref tenant_ref
    allowed_proof_kinds valid_from valid_until revoked_at).
End with_crates.

(** One entry of [digest_input]. *)
Definition digest_entry (key_id : text) (policy : t) : Value :=
  Arr [Json.to_json key_id; Json.to_json (trust_domain policy);
       Json.to_json (ReferenceV1.as_str (environment_ref policy));
       Json.to_json (ReferenceV1.as_str (issuer_ref policy));
       Json.to_json (ReferenceV1.as_str (audience_ref policy));
       Json.to_json (ReferenceV1.as_str (tenant_ref policy));
       Json.to_json (valid_from policy); Json.to_json (valid_until policy);
       Json.to_json (revoked_at policy); Json.to_json (allowed_proof_kinds policy);
       Json.to_json (encode_hex (public_key policy))].
End ProductionIssuerKeyV1.

Module VerifiedProductionProofV1.
Record t := mk {
  proof_id : Uuid;
  nonce : text;
  trust_domain : TrustDomainV1.t;
  environment_ref : ReferenceV1.t;
  proof_kind : ProductionProofKindV1.t;
  expires_at : N;
  trust_root_version : N;
  trust_root_digest : text;
  verified_at : N;
}.
#[global] Instance eq_dec : EqDecision t.
Proof. solve_decision. Defined.
End VerifiedProductionProofV1.

Module TrustRootSnapshotV1.
Record t := mk {
  trust_domain : TrustDomainV1.t;
  environment_ref : ReferenceV1.t;
  root_version : N;
  root_digest : text;
  loaded_at : N;
  keys : gmap text ProductionIssuerKeyV1.t;
}.
#[global] Instance eq_dec : EqDecision t.
Proof. solve_decision. Defined.

Fixpoint insert_policies (trust_domain : TrustDomainV1.t) (environment_ref : ReferenceV1.t)
    (policies : list ProductionIssuerKeyV1.t) (keys : gmap text ProductionIssuerKeyV1.t) :
    Wire (gmap text ProductionIssuerKeyV1.t) :=
  match policies with
  | [] => Ok keys
  | policy :: policies =>
      reject (ProductionIssuerKeyV1.trust_domain policy != trust_domain)
             || (ProductionIssuerKeyV1.environment_ref policy != environment_ref)
        with InvalidTrustRoot;
      let key_id := ReferenceV1.as_str (ProductionIssuerKeyV1.key_id policy) in
      reject is_some (keys !! key_id) with InvalidKey;
      insert_policies trust_domain environment_ref policies (<[key_id := policy]> keys)
  end.

(** The entries of a [BTreeMap] in key order. *)
Definition key_entries (keys : gmap text ProductionIssuerKeyV1.t) : list (text * ProductionIssuerKeyV1.t) :=
  sort_entries id (map_to_list keys).

Definition digest_input (trust_domain : TrustDomainV1.t) (environment_ref : ReferenceV1.t)
    (root_version loaded_at : N) (keys : gmap text ProductionIssuerKeyV1.t) : Value :=
  Arr [Json.to_json trust_domain; Json.to_json environment_ref; Json.to_json root_version;
       Json.to_json loaded_at;
       Arr (map (fun entry => ProductionIssuerKeyV1.digest_entry entry.1 entry.2) (key_entries keys))].

Section with_crates.
Context {C : Crates}.

Definition new (trust_domain : TrustDomainV1.t) (environment_ref : ReferenceV1.t)
    (root_version loaded_at : N) (policies : list ProductionIssuerKeyV1.t) : Wire t :=
  keys ← insert_policies trust_domain environment_ref policies ∅;
  reject (root_version =? 0) || (loaded_at =? 0) || bool_decide (keys = ∅) with InvalidTrustRoot;
  root_digest ← canonical_digest_v1 "idr-trust-root-v1"
                  (digest_input trust_domain environment_ref root_version loaded_at keys);
  Ok (mk trust_domain environment_ref root_version root_digest loaded_at keys).

(** The disjunction [verify_at] refuses. *)
Definition mismatch (root : t) (envelope : ProductionProofEnvelopeV1.t)
    (expected : ExpectedProductionProofV1.t) (key : ProductionIssuerKeyV1.t) (trusted_now : N) : bool :=
  let claims := ProductionProofEnvelopeV1.claims envelope in
  (trust_domain root != ExpectedProductionProofV1.trust_domain expected)
  || (environment_ref root != ExpectedProductionProofV1.environment_ref expected)
  || (ProductionProofClaimsV1.trust_domain claims != ExpectedProductionProofV1.trust_domain expected)
  || (ProductionProofClaimsV1.environment_ref claims != ExpectedProductionProofV1.environment_ref expected)
  || (ProductionIssuerKeyV1.trust_domain key != ExpectedProductionProofV1.trust_domain expected)
  || (ProductionIssuerKeyV1.environment_ref key != ExpectedProductionProofV1.environment_ref expected)
  || (ProductionProofClaimsV1.proof_kind claims != ExpectedProductionProofV1.proof_kind expected)
  || (ProductionProofClaimsV1.issuer_ref claims != ExpectedProductionProofV1.issuer_ref expected)
  || (ProductionProofClaimsV1.subject_ref claims != ExpectedProductionProofV1.subject_ref expected)
  || (ProductionProofClaimsV1.subject_digest claims != ExpectedProductionProofV1.subject_digest expected)
  || (ProductionProofClaimsV1.audience_ref claims != ExpectedProductionProofV1.audience_ref expected)
  || (ProductionProofClaimsV1.audience_ref claims != ProductionIssuerKeyV1.audience_ref key)
  || (ProductionProofClaimsV1.tenant_ref claims != ExpectedProductionProofV1.tenant_ref expected)
  || (ProductionProofClaimsV1.scope_ref claims != ExpectedProductionProofV1.scope_ref expected)
  || (ProductionProofClaimsV1.purpose_ref claims != ExpectedProductionProofV1.purpose_ref expected)
  || (ProductionProofClaimsV1.policy_revision_ref claims
        != ExpectedProductionProofV1.policy_revision_ref expected)
  || (ProductionProofClaimsV1.issuer_ref claims != ProductionIssuerKeyV1.issuer_ref key)
  || (ProductionProofClaimsV1.tenant_ref claims != ProductionIssuerKeyV1.tenant_ref key)
  || (ProductionProofEnvelopeV1.key_id envelope != ProductionIssuerKeyV1.key_id key)
  || negb (bool_decide (ProductionProofClaimsV1.proof_kind claims
                          ∈ ProductionIssuerKeyV1.allowed_proof_kinds key))
  || (trusted_now <? ProductionProofClaimsV1.not_before claims)
  || (ProductionProofClaimsV1.expires_at claims <=? trusted_now)
  || (ProductionProofClaimsV1.issued_at claims <? ProductionIssuerKeyV1.valid_from key)
  || (ProductionIssuerKeyV1.valid_until key <=? trusted_now)
  || is_some_and (fun revoked => revoked <=? trusted_now) (ProductionIssuerKeyV1.revoked_at key).

Definition verify_at (root : t) (envelope : ProductionProofEnvelopeV1.t)
    (expected : ExpectedProductionProofV1.t) (trusted_now : N) : Wire VerifiedProductionProofV1.t :=
  _ ← ProductionProofEnvelopeV1.validate_shape envelope;
  let claims := ProductionProofEnvelopeV1.claims envelope in
  key ← ok_or ProductionProofVerificationFailed
          (keys root !! ReferenceV1.as_str (ProductionProofEnvelopeV1.key_id envelope));
  reject mismatch root envelope expected key trusted_now with ProductionProofVerificationFailed;
  signature ← ok_or ProductionProofVerificationFailed
                (decode_hex 64 (ProductionProofEnvelopeV1.signature envelope));
  message ← ProductionProofClaimsV1.canonical_signing_bytes claims;
  reject negb (ed25519_verify (ProductionIssuerKeyV1.public_key key) message signature)
    with ProductionProofVerificationFailed;
  Ok (VerifiedProductionProofV1.mk (ProductionProofClaimsV1.proof_id claims)
        (ProductionProofClaimsV1.nonce claims) (ProductionProofClaimsV1.trust_domain claims)
        (ProductionProofClaimsV1.environment_ref claims) (ProductionProofClaimsV1.proof_kind claims)
        (ProductionProofClaimsV1.expires_at claims) (root_version root) (root_digest root) trusted_now).
End with_crates.
End TrustRootSnapshotV1.
