(* ===== verification/ProductionProps.v ===== *)
(** * ProductionProps: what production proofs and trust roots guarantee *)

From stdpp Require Import base list gmap fin_sets countable sorting strings.
From Stdlib Require Import NArith ZArith Lia.
From S2P Require Import Prelude Text Json Crates CanonicalJson Common Production.

(** ** Well-formed trees of structs *)

Definition keys_ok (fs : list (text * Value)) : bool :=
  bool_decide (NoDup (map fst fs)) && forallb scalar_textb (map fst fs).

Lemma wire_tree_Obj fs :
  keys_ok fs = true -> Forall (fun f => wire_tree f.2 = true) fs -> wire_tree (Obj fs) = true.
Proof. unfold keys_ok. intros Hk Hf. cbn [wire_tree]. rewrite Hk. by apply forallb_true. Qed.

Lemma wire_tree_Arr vs : Forall (fun v => wire_tree v = true) vs -> wire_tree (Arr vs) = true.
Proof. apply forallb_true. Qed.

Lemma wire_tree_N n : wire_tree (to_json (n : N)) = true.
Proof. apply wire_number_of_u64. Qed.

Lemma wire_tree_option_N (o : option N) : wire_tree (to_json o) = true.
Proof. destruct o as [n|]; [apply wire_tree_N|done]. Qed.

Lemma wire_tree_text t : scalar_text t -> wire_tree (to_json (t : list N)) = true.
Proof. intros Ht. apply forallb_true. eapply Forall_impl; [exact Ht|]. intros c Hc. by apply N.ltb_lt. Qed.

Lemma wire_tree_ref r : scalar_text (ReferenceV1.as_str r) -> wire_tree (to_json (r : ReferenceV1.t)) = true.
Proof. apply wire_tree_text. Qed.

Lemma ascii_scalar t : Forall (fun c => c < 128) t -> scalar_text t.
Proof. intros H. eapply Forall_impl; [exact H|]. cbn. lia. Qed.

Section uuid.
Context {C : Crates} {L : CratesLaws}.
Lemma wire_tree_uuid u : wire_tree (to_json (u : Uuid)) = true.
Proof. apply wire_tree_text, ascii_scalar, uuid_hyphenated_ascii. Qed.
End uuid.

Lemma wire_tree_enum s : wire_tree (Str (txt s)) = true.
Proof. apply scalar_txt. Qed.

Lemma elem_of_btree {A} `{Countable A, !Ord A} (s : gset A) x : x ∈ btree_elements s <-> x ∈ s.
Proof. unfold btree_elements, sort. rewrite (merge_sort_Permutation _ (elements s)). apply elem_of_elements. Qed.

Lemma btree_elements_inj {A} `{Countable A, !Ord A} (s s' : gset A) :
  btree_elements s = btree_elements s' -> s = s'.
Proof. intros Heq. apply set_eq. intros x. by rewrite <- !elem_of_btree, Heq. Qed.

Lemma wire_tree_texts (s : gset (list N)) : set_Forall scalar_text s -> wire_tree (to_json s) = true.
Proof.
  intros Hs. apply wire_tree_Arr, Forall_map, Forall_forall. intros t Ht.
  apply wire_tree_text, Hs. by apply elem_of_btree.
Qed.

(** A digest is ASCII. *)
Lemma as_bytes_lower t : forallb is_lower_hex (as_bytes t) = true -> scalar_text t.
Proof.
  unfold as_bytes, scalar_text. induction t as [|c t IH]; [constructor|]. cbn [map concat].
  rewrite forallb_app, andb_true_iff. intros [Hc Ht]. constructor; [|auto].
  revert Hc. unfold encode_char. destruct (N.ltb_spec c 128); [lia|].
  assert (forall b l, 192 <= b -> forallb is_lower_hex (b :: l) = true -> c < 1114112) as Hlead.
  { intros b l Hb [Hh _]%andb_true_iff. unfold is_lower_hex in Hh. bsimp. lia. }
  repeat case_match; intros Hb; (eapply Hlead; [|exact Hb]); apply N.le_add_r || (etrans; [|apply N.le_add_r]; lia).
Qed.

Lemma digest_scalar t : valid_digest t = true -> scalar_text t.
Proof. unfold valid_digest. intros [_ H]%andb_true_iff. by apply as_bytes_lower. Qed.

(** [struct_fields H] opens an equation between two serialized structs into one
    equation per field. *)
Lemma to_value_Arr_inv vs ws : to_value (Arr vs) = to_value (Arr ws) -> map to_value vs = map to_value ws.
Proof. apply Arr_eq_inv. Qed.
Lemma N_inv (a b : N) : to_value (to_json a) = to_value (to_json b) -> a = b.
Proof. intros H. by apply json_inj. Qed.
Lemma texts_inv (s s' : gset (list N)) : to_value (to_json s) = to_value (to_json s') -> s = s'.
Proof.
  intros [= H]. rewrite !map_map in H. apply btree_elements_inj.
  revert H. generalize (btree_elements s'). generalize (btree_elements s).
  induction l as [|t l IH]; intros [|t' l']; cbn; try done. intros [= -> H]. f_equal. by apply IH.
Qed.

Ltac wire_field :=
  first [apply wire_tree_N | apply wire_tree_option_N | apply wire_tree_uuid | apply wire_tree_enum
        | by apply wire_tree_ref | by apply wire_tree_text | by apply wire_tree_texts | done ].
Ltac wire_struct :=
  apply wire_tree_Obj; [vm_compute; reflexivity|]; repeat (constructor; [cbn [snd]; try wire_field|]); try constructor.

Ltac struct_fields H :=
  apply to_value_fields in H;
  [|reflexivity|apply (bool_decide_eq_true_1 _); vm_compute; reflexivity];
  cbn [map snd] in H;
  repeat match type of H with
  | _ :: _ = _ :: _ => apply item_eq_inv in H as [?H H]
  end; clear H.

Section leaves.
Context {C : Crates} {L : CratesLaws}.
Lemma compatibility_tree (c : WireCompatibilityV1.t) :
  set_Forall scalar_text (WireCompatibilityV1.critical_feature_flags c) -> wire_tree (to_json c) = true.
Proof. intros Hf. unfold to_json, WireCompatibilityV1.to_json. wire_struct. Qed.

Lemma compatibility_inv (c d : WireCompatibilityV1.t) :
  to_value (to_json c) = to_value (to_json d) -> c = d.
Proof.
  intros H. unfold to_json, WireCompatibilityV1.to_json in H. struct_fields H.
  apply N_inv in H0, H1. apply texts_inv in H2. destruct c, d. cbn in *. by subst.
Qed.

Lemma ref_inv (r s : ReferenceV1.t) : to_value (to_json r) = to_value (to_json s) -> r = s.
Proof. destruct r, s. by intros [= ->]. Qed.
Lemma uuid_inv (u v : Uuid) : to_value (to_json u) = to_value (to_json v) -> u = v.
Proof. by intros [= H%uuid_hyphenated_inj]. Qed.
Lemma text_inv (t u : list N) : to_value (to_json t) = to_value (to_json u) -> t = u.
Proof. by intros [= ->]. Qed.
Lemma domain_inv (a b : TrustDomainV1.t) : to_value (to_json a) = to_value (to_json b) -> a = b.
Proof. by destruct a, b. Qed.
Lemma proof_kind_inv (a b : ProductionProofKindV1.t) :
  to_value (to_json a) = to_value (to_json b) -> a = b.
Proof. by destruct a, b. Qed.

End leaves.

(** ** The signed bytes of a proof *)

Section claims.
Context {C : Crates} {L : CratesLaws}.
Import ProductionProofClaimsV1.

(** The strings of a proof are Rust strings and its assertion is a parsed tree. *)
Definition claims_wire (c : t) : Prop :=
  set_Forall scalar_text (WireCompatibilityV1.critical_feature_flags (compatibility c)) /\
  Forall scalar_text [ReferenceV1.as_str (environment_ref c); ReferenceV1.as_str (issuer_ref c);
    ReferenceV1.as_str (subject_ref c); subject_digest c; ReferenceV1.as_str (audience_ref c);
    ReferenceV1.as_str (tenant_ref c); ReferenceV1.as_str (scope_ref c);
    ReferenceV1.as_str (purpose_ref c); ReferenceV1.as_str (policy_revision_ref c); nonce c;
    principal_digest c] /\
  wire_value (assertion c) = true.

Lemma claims_tree c : claims_wire c -> wire_tree (Json.to_json c) = true.
Proof.
  unfold claims_wire. rewrite !Forall_cons. intros (Hf & Ht & Ha). destruct_and!.
  unfold Json.to_json at 1, to_json. wire_struct.
  - by apply compatibility_tree.
  - by apply wire_value_tree.
Qed.

Lemma claims_inv c d :
  claims_wire c -> claims_wire d -> to_value (Json.to_json c) = to_value (Json.to_json d) -> c = d.
Proof.
  intros (_ & _ & Hc) (_ & _ & Hd) H. unfold Json.to_json at 1 2, to_json in H. struct_fields H.
  repeat match goal with
  | E : _ = _ |- _ => first [apply compatibility_inv in E | apply uuid_inv in E | apply domain_inv in E
      | apply proof_kind_inv in E | apply ref_inv in E | apply text_inv in E | apply N_inv in E]
  end.
  match goal with E : to_value _ = to_value _ |- _ => rewrite (to_value_wire _ Hc), (to_value_wire _ Hd) in E end.
  destruct c, d. cbn in *. by subst.
Qed.

(** What an issuer of the trust chain signs determines every claim of the
    proof: two proofs are signed as the same bytes only if they are equal, down
    to the assertion tree, so a signature cannot be moved to another proof. *)
Theorem production_signature_covers_claims c d bs :
  claims_wire c -> claims_wire d ->
  canonical_signing_bytes c = Ok bs -> canonical_signing_bytes d = Ok bs -> c = d.
Proof.
  unfold canonical_signing_bytes. intros Hc Hd Ha Hb. apply claims_inv; [done..|].
  assert (forall x, claims_wire x ->
    wire_tree (Arr [Str (txt "idr-production-proof-v1"); Json.to_json x]) = true) as Htree.
  { intros x Hx. apply wire_tree_Arr. constructor; [apply wire_tree_enum|]. constructor; [by apply claims_tree|constructor]. }
  pose proof (canonical_bytes_inj _ _ bs (Htree c Hc) (Htree d Hd) Ha Hb) as Heq.
  apply Arr_eq_inv, item_eq_inv in Heq as [_ Heq]. by apply item_eq_inv in Heq as [Heq _].
Qed.
End claims.

(** ** Verification *)

Section verify.
Context {C : Crates}.
Import TrustRootSnapshotV1.

(** What [verify_at] expects, read off the claims. *)
Definition expectation_of (c : ProductionProofClaimsV1.t) : ExpectedProductionProofV1.t :=
  ExpectedProductionProofV1.mk (ProductionProofClaimsV1.trust_domain c)
    (ProductionProofClaimsV1.environment_ref c) (ProductionProofClaimsV1.proof_kind c)
    (ProductionProofClaimsV1.issuer_ref c) (ProductionProofClaimsV1.subject_ref c)
    (ProductionProofClaimsV1.subject_digest c) (ProductionProofClaimsV1.audience_ref c)
    (ProductionProofClaimsV1.tenant_ref c) (ProductionProofClaimsV1.scope_ref c)
    (ProductionProofClaimsV1.purpose_ref c) (ProductionProofClaimsV1.policy_revision_ref c).

(** The key is one of the issuer's, for this boundary, and may make the claims now. *)
Record key_covers (key : ProductionIssuerKeyV1.t) (c : ProductionProofClaimsV1.t) (now : N) : Prop := {
  kc_domain : ProductionIssuerKeyV1.trust_domain key = ProductionProofClaimsV1.trust_domain c;
  kc_environment : ProductionIssuerKeyV1.environment_ref key = ProductionProofClaimsV1.environment_ref c;
  kc_audience : ProductionIssuerKeyV1.audience_ref key = ProductionProofClaimsV1.audience_ref c;
  kc_issuer : ProductionIssuerKeyV1.issuer_ref key = ProductionProofClaimsV1.issuer_ref c;
  kc_tenant : ProductionIssuerKeyV1.tenant_ref key = ProductionProofClaimsV1.tenant_ref c;
  kc_kind : ProductionProofClaimsV1.proof_kind c ∈ ProductionIssuerKeyV1.allowed_proof_kinds key;
  kc_proof_time : ProductionProofClaimsV1.not_before c <= now < ProductionProofClaimsV1.expires_at c;
  kc_key_time : ProductionIssuerKeyV1.valid_from key <= ProductionProofClaimsV1.issued_at c /\
    now < ProductionIssuerKeyV1.valid_until key;
  kc_revocation : forall r, ProductionIssuerKeyV1.revoked_at key = Some r -> now < r;
}.

Lemma mismatch_false root e x key now :
  let c := ProductionProofEnvelopeV1.claims e in
  mismatch root e x key now = false <->
  x = expectation_of c /\ trust_domain root = ProductionProofClaimsV1.trust_domain c /\
  environment_ref root = ProductionProofClaimsV1.environment_ref c /\
  ProductionProofEnvelopeV1.key_id e = ProductionIssuerKeyV1.key_id key /\ key_covers key c now.
Proof.
  cbn zeta. unfold mismatch, expectation_of. cbn zeta.
  rewrite !orb_false_iff, !negb_false_iff, !bool_decide_true_iff, !N.ltb_ge, !N.leb_gt.
  assert (is_some_and (fun r => r <=? now) (ProductionIssuerKeyV1.revoked_at key) = false <->
    (forall r, ProductionIssuerKeyV1.revoked_at key = Some r -> now < r)) as ->.
  { destruct (ProductionIssuerKeyV1.revoked_at key) as [r|]; cbn; [rewrite N.leb_gt|]; naive_solver. }
  destruct x; cbn. split.
  - intros H. destruct_and!. subst. split_and!; first [congruence | split; first [congruence | done]].
  - intros ([= -> -> -> -> -> -> -> -> -> -> ->] & Hd & He & Hk & Hc). destruct Hc. destruct_and!.
    split_and!; congruence || done.
Qed.

Lemma verify_at_Ok root e x now p :
  let c := ProductionProofEnvelopeV1.claims e in
  verify_at root e x now = Ok p <->
  ProductionProofEnvelopeV1.validate_shape e = Ok tt /\ x = expectation_of c /\
  trust_domain root = ProductionProofClaimsV1.trust_domain c /\
  environment_ref root = ProductionProofClaimsV1.environment_ref c /\
  p = VerifiedProductionProofV1.mk (ProductionProofClaimsV1.proof_id c)
        (ProductionProofClaimsV1.nonce c) (ProductionProofClaimsV1.trust_domain c)
        (ProductionProofClaimsV1.environment_ref c) (ProductionProofClaimsV1.proof_kind c)
        (ProductionProofClaimsV1.expires_at c) (root_version root) (root_digest root) now /\
  exists key signature message,
    keys root !! ReferenceV1.as_str (ProductionProofEnvelopeV1.key_id e) = Some key /\
    ProductionProofEnvelopeV1.key_id e = ProductionIssuerKeyV1.key_id key /\ key_covers key c now /\
    decode_hex 64 (ProductionProofEnvelopeV1.signature e) = Some signature /\
    ProductionProofClaimsV1.canonical_signing_bytes c = Ok message /\
    ed25519_verify (ProductionIssuerKeyV1.public_key key) message signature = true.
Proof.
  cbn zeta. unfold verify_at. rewrite bind_unit_Ok. cbn zeta. split.
  - intros (Hs & (key & Hk%ok_or_Ok & H)%bind_Ok). apply reject_Ok in H as [Hm H].
    apply bind_Ok in H as (sg & Hsig%ok_or_Ok & H). apply bind_Ok in H as (msg & Hmsg & H).
    apply reject_Ok in H as [Hv%negb_false_iff [= <-]]. apply mismatch_false in Hm.
    destruct_and!. split_and!; try done. exists key, sg, msg. split_and!; done.
  - intros (Hs & Hx & Hd & He & -> & key & sg & msg & H). destruct_and!. split; [done|].
    apply bind_Ok. exists key. rewrite ok_or_Ok. split; [done|].
    apply reject_Ok. split; [by apply mismatch_false; split_and!|].
    apply bind_Ok. exists sg. rewrite ok_or_Ok. split; [done|].
    apply bind_Ok. exists msg. split; [done|]. apply reject_Ok. by rewrite negb_false_iff.
Qed.

(** C16. A trust-chain proof verifies at a time exactly when the envelope is well
    formed, the claims are precisely the expected ones and those of the root's
    domain and environment, the named key of the root is one of the issuer's for
    that tenant and audience, may make this kind of proof, is in force and
    unrevoked, and verifies the signature over the canonical bytes. *)
Theorem production_verify_at_iff root e x now p :
  let c := ProductionProofEnvelopeV1.claims e in
  verify_at root e x now = Ok p <->
  ProductionProofEnvelopeV1.validate_shape e = Ok tt /\ x = expectation_of c /\
  trust_domain root = ProductionProofClaimsV1.trust_domain c /\
  environment_ref root = ProductionProofClaimsV1.environment_ref c /\
  p = VerifiedProductionProofV1.mk (ProductionProofClaimsV1.proof_id c)
        (ProductionProofClaimsV1.nonce c) (ProductionProofClaimsV1.trust_domain c)
        (ProductionProofClaimsV1.environment_ref c) (ProductionProofClaimsV1.proof_kind c)
        (ProductionProofClaimsV1.expires_at c) (root_version root) (root_digest root) now /\
  exists key signature message,
    keys root !! ReferenceV1.as_str (ProductionProofEnvelopeV1.key_id e) = Some key /\
    ProductionProofEnvelopeV1.key_id e = ProductionIssuerKeyV1.key_id key /\ key_covers key c now /\
    decode_hex 64 (ProductionProofEnvelopeV1.signature e) = Some signature /\
    ProductionProofClaimsV1.canonical_signing_bytes c = Ok message /\
    ed25519_verify (ProductionIssuerKeyV1.public_key key) message signature = true.
Proof. apply verify_at_Ok. Qed.

(** ** Trust roots *)

Definition issuer_key_id (p : ProductionIssuerKeyV1.t) : text :=
  ReferenceV1.as_str (ProductionIssuerKeyV1.key_id p).

Lemma root_policies_Ok d env ps ks ks' :
  insert_policies d env ps ks = Ok ks' ->
  Forall (fun p => ProductionIssuerKeyV1.trust_domain p = d /\
                   ProductionIssuerKeyV1.environment_ref p = env) ps /\
  NoDup (map issuer_key_id ps) /\ Forall (fun p => ks !! issuer_key_id p = None) ps /\
  forall i p, ks' !! i = Some p <-> ks !! i = Some p \/ (p ∈ ps /\ issuer_key_id p = i).
Proof.
  revert ks. induction ps as [|p ps IH]; intros ks; cbn [insert_policies map].
  { intros [= ->]. split_and!; [done|constructor|done|]. intros i q. rewrite elem_of_nil. tauto. }
  intros H. apply reject_Ok in H as [Hb H]. apply reject_Ok in H as [Hn%is_some_false H].
  bsimp. fold (issuer_key_id p) in *. apply IH in H as (Hf & Hd & Hfresh & Hk).
  rewrite Forall_forall in Hfresh. setoid_rewrite lookup_insert_None in Hfresh.
  split_and!; [by constructor| |constructor; [done|]; apply Forall_forall; naive_solver|].
  - constructor; [|done]. intros (q & Hpq & Hin)%list_elem_of_fmap. by apply Hfresh in Hin as [_ ?].
  - intros i q. rewrite Hk, lookup_insert_Some, elem_of_cons. split.
    + intros [[[<- ->]|[Hi Hq]]|[Hin Hi]]; auto.
    + intros [Hq|[[->|Hin] Hi]]; auto. left. right. split; [|done]. intros <-. congruence.
Qed.

Lemma new_Ok d env v l ps root :
  new d env v l ps = Ok root ->
  Forall (fun p => ProductionIssuerKeyV1.trust_domain p = d /\
                   ProductionIssuerKeyV1.environment_ref p = env) ps /\
  NoDup (map issuer_key_id ps) /\
  (forall i p, keys root !! i = Some p <-> p ∈ ps /\ issuer_key_id p = i) /\
  trust_domain root = d /\ environment_ref root = env /\ root_version root = v /\ loaded_at root = l /\
  v <> 0 /\ l <> 0 /\ ps <> [] /\
  canonical_digest_v1 "idr-trust-root-v1" (digest_input d env v l (keys root)) = Ok (root_digest root).
Proof.
  unfold new. intros (ks & Hks & H)%bind_Ok. apply reject_Ok in H as [Hb H].
  apply bind_Ok in H as (dg & Hdg & [= <-]). apply root_policies_Ok in Hks as (Hf & Hn & _ & Hk).
  cbn. bsimp. split_and!; try done.
  - intros i p. rewrite Hk, lookup_empty. naive_solver.
  - intros ->. match goal with H : ks <> ∅ |- _ => apply H end. apply map_eq. intros i. rewrite lookup_empty.
    destruct (ks !! i) as [p|] eqn:E; [|done]. apply Hk in E as [E|[E _]]; [by rewrite lookup_empty in E|].
    by apply elem_of_nil in E.
Qed.

(** The environment name [environment] under [d] and the audience of the same name. *)
Definition same_boundary (d : TrustDomainV1.t) (env audience : ReferenceV1.t) : Prop :=
  exists environment, environment <> [] /\
    ReferenceV1.as_str env = txt "environment:idr:" ++ domain_name d ++ [58] ++ environment /\
    ReferenceV1.as_str audience = txt "audience:idr:" ++ domain_name d ++ [58] ++ environment.

Lemma audience_matches_environment_true d env audience :
  audience_matches_environment d env audience = true <-> same_boundary d env audience.
Proof.
  unfold audience_matches_environment, same_boundary. cbn zeta. split.
  - destruct (strip_prefix _ _) as [environment|] eqn:Es; [|done]. cbn [is_some_and].
    rewrite andb_true_iff, negb_true_iff, is_nil_false, bool_decide_true_iff. intros [Hn Ha].
    apply strip_prefix_Some in Es. rewrite <- !app_assoc in Es. eauto.
  - intros (environment & Hn & He & Ha).
    assert (strip_prefix (txt "environment:idr:" ++ domain_name d ++ [58]) (ReferenceV1.as_str env)
      = Some environment) as ->. { apply strip_prefix_Some. by rewrite <- !app_assoc. }
    cbn [is_some_and]. by rewrite andb_true_iff, negb_true_iff, is_nil_false, bool_decide_true_iff.
Qed.

Definition issued_key (key : ProductionIssuerKeyV1.t) : Prop :=
  exists d env i k h a t kinds vf vu rev,
    ProductionIssuerKeyV1.new d env i k h a t kinds vf vu rev = Ok key.

Lemma issued_key_boundary key :
  issued_key key -> same_boundary (ProductionIssuerKeyV1.trust_domain key)
    (ProductionIssuerKeyV1.environment_ref key) (ProductionIssuerKeyV1.audience_ref key).
Proof.
  intros (d & env & i & k & h & a & t & kinds & vf & vu & rev & H).
  unfold ProductionIssuerKeyV1.new in H. apply bind_Ok in H as (kb & _ & H).
  apply bind_Ok in H as (pk & _ & H). apply reject_Ok in H as [Hb [= <-]].
  apply orb_false_iff in Hb as [_ Hb%negb_false_iff]. by apply audience_matches_environment_true.
Qed.

(** A verified proof stays inside its trust boundary: it was made by a key
    listed for exactly the root's domain and environment, and its audience is
    the audience of that domain and environment, so a shadow proof is never
    taken for a production one. *)
Theorem verified_proof_stays_in_its_boundary d env v l ps root e x now p :
  Forall issued_key ps -> new d env v l ps = Ok root -> verify_at root e x now = Ok p ->
  VerifiedProductionProofV1.trust_domain p = d /\ VerifiedProductionProofV1.environment_ref p = env /\
  (exists key, key ∈ ps /\ ProductionIssuerKeyV1.key_id key = ProductionProofEnvelopeV1.key_id e) /\
  same_boundary d env (ProductionProofClaimsV1.audience_ref (ProductionProofEnvelopeV1.claims e)).
Proof.
  intros Hkeys Hroot Hp. apply new_Ok in Hroot as (Hf & _ & Hk & Hd & He & _).
  apply verify_at_Ok in Hp as (_ & _ & Hcd & Hce & -> & key & sg & msg & Hkey & Hid & Hcov & _).
  apply Hk in Hkey as [Hin _]. destruct Hcov as [? ? Ha _ _ _ _ _ _].
  rewrite Forall_forall in Hkeys, Hf. destruct (Hf key Hin) as [Hkd Hke].
  cbn [VerifiedProductionProofV1.trust_domain VerifiedProductionProofV1.environment_ref].
  split_and!; [congruence|congruence|by exists key|].
  rewrite <- Ha, <- Hkd, <- Hke. by apply issued_key_boundary, Hkeys.
Qed.
End verify.

(** ** The digest of a trust root *)

Section root_digest.
Context {C : Crates} {L : CratesLaws}.
Import TrustRootSnapshotV1.

Lemma option_N_inv (a b : option N) : to_value (Json.to_json a) = to_value (Json.to_json b) -> a = b.
Proof. destruct a, b; intros H; try done. f_equal. by apply N_inv. Qed.
Lemma kinds_inv (s s' : gset ProductionProofKindV1.t) :
  to_value (Json.to_json s) = to_value (Json.to_json s') -> s = s'.
Proof.
  intros H. apply Arr_eq_inv in H. rewrite !map_map in H. apply btree_elements_inj.
  revert H. generalize (btree_elements s'). generalize (btree_elements s).
  induction l as [|t l IH]; intros [|t' l'] H; try done. cbn [map] in H.
  apply item_eq_inv in H as [Ht%proof_kind_inv H]. f_equal; auto.
Qed.
Lemma wire_tree_kinds (s : gset ProductionProofKindV1.t) : wire_tree (Json.to_json s) = true.
Proof. apply wire_tree_Arr, Forall_map, Forall_true. intros k. apply wire_tree_enum. Qed.

(** The strings of a key policy are Rust strings and its public key is bytes. *)
Definition key_wire (key : ProductionIssuerKeyV1.t) : Prop :=
  Forall scalar_text [ReferenceV1.as_str (ProductionIssuerKeyV1.environment_ref key);
    ReferenceV1.as_str (ProductionIssuerKeyV1.issuer_ref key); issuer_key_id key;
    ReferenceV1.as_str (ProductionIssuerKeyV1.audience_ref key);
    ReferenceV1.as_str (ProductionIssuerKeyV1.tenant_ref key)] /\
  Forall is_byte (ProductionIssuerKeyV1.public_key key).

Lemma digest_entry_tree key :
  key_wire key -> wire_tree (ProductionIssuerKeyV1.digest_entry (issuer_key_id key) key) = true.
Proof.
  unfold key_wire. rewrite !Forall_cons. intros [Ht Hb]. destruct_and!.
  apply wire_tree_Arr. repeat (constructor; [try wire_field|]); [apply wire_tree_kinds| |constructor].
  by apply wire_tree_text, ascii_scalar, encode_hex_ascii.
Qed.

Lemma digest_entry_inv a b :
  key_wire a -> key_wire b ->
  to_value (ProductionIssuerKeyV1.digest_entry (issuer_key_id a) a)
    = to_value (ProductionIssuerKeyV1.digest_entry (issuer_key_id b) b) -> a = b.
Proof.
  intros [_ Ha] [_ Hb] H. apply to_value_Arr_inv in H. cbn [map] in H.
  repeat match type of H with _ :: _ = _ :: _ => apply item_eq_inv in H as [?H H] end.
  repeat match goal with
  | E : to_value _ = to_value _ |- _ => first [apply domain_inv in E | apply kinds_inv in E
      | apply option_N_inv in E | apply N_inv in E | apply text_inv in E]
  end.
  match goal with E : encode_hex _ = encode_hex _ |- _ => apply encode_hex_inj in E; [|done..] end.
  assert (forall r s : ReferenceV1.t, ReferenceV1.as_str r = ReferenceV1.as_str s -> r = s) as Href
    by (by intros [] [] [= ->]).
  unfold issuer_key_id in *.
  repeat match goal with E : ReferenceV1.as_str _ = ReferenceV1.as_str _ |- _ => apply Href in E end.
  destruct a, b. cbn in *. by subst.
Qed.

Definition entry_value (entry : text * ProductionIssuerKeyV1.t) : Value :=
  ProductionIssuerKeyV1.digest_entry entry.1 entry.2.

Lemma entries_inv es es' :
  Forall (fun f => f.1 = issuer_key_id f.2 /\ key_wire f.2) es ->
  Forall (fun f => f.1 = issuer_key_id f.2 /\ key_wire f.2) es' ->
  map to_value (map entry_value es) = map to_value (map entry_value es') -> es = es'.
Proof.
  intros Hes. revert es'. induction Hes as [|[k a] es [Hk Ha] Hes IH]; intros [|[k' b] es'] Hes' H; try done.
  cbn [fst snd] in *. apply Forall_cons in Hes' as [[Hk' Hb] Hes']. cbn [fst snd] in *. subst.
  apply item_eq_inv in H as [Heq H]. unfold entry_value in Heq. cbn [fst snd] in Heq.
  apply digest_entry_inv in Heq as ->; [|done..]. f_equal. by apply IH.
Qed.

Lemma key_entries_inj (ks ks' : gmap (list N) ProductionIssuerKeyV1.t) :
  key_entries ks = key_entries ks' -> ks = ks'.
Proof.
  unfold key_entries. intros H. apply map_to_list_inj.
  by rewrite <- (sort_entries_perm id (map_to_list ks)), H, sort_entries_perm.
Qed.

Lemma root_entries d env v l ps root :
  new d env v l ps = Ok root -> Forall key_wire ps ->
  Forall (fun f => f.1 = issuer_key_id f.2 /\ key_wire f.2) (key_entries (keys root)).
Proof.
  intros Hroot Hps. apply new_Ok in Hroot as (_ & _ & Hk & _). rewrite Forall_forall in Hps.
  unfold key_entries. rewrite (sort_entries_perm id (map_to_list (keys root))).
  apply Forall_forall. intros [k key] Hin%elem_of_map_to_list. apply Hk in Hin as [Hin <-].
  split; [done|]. by apply Hps.
Qed.

Lemma digest_input_tree d env v l ks :
  scalar_text (ReferenceV1.as_str env) ->
  Forall (fun f => f.1 = issuer_key_id f.2 /\ key_wire f.2) (key_entries ks) ->
  wire_tree (digest_input d env v l ks) = true.
Proof.
  intros He Hks. apply wire_tree_Arr. repeat (constructor; [try wire_field|]); [|constructor].
  apply wire_tree_Arr, Forall_map. eapply Forall_impl; [exact Hks|].
  intros [k key] [Hk Hkey]. cbn [fst snd] in *. subst. by apply digest_entry_tree.
Qed.

(** The digest recorded with every verified proof binds the whole trust
    root: two snapshots with one digest agree on domain, environment, version,
    load time and every key policy, unless SHA-256 collides. *)
Theorem trust_root_digest_binds_keys d env v l ps root d' env' v' l' ps' root' :
  scalar_text (ReferenceV1.as_str env) -> scalar_text (ReferenceV1.as_str env') ->
  Forall key_wire ps -> Forall key_wire ps' ->
  new d env v l ps = Ok root -> new d' env' v' l' ps' = Ok root' ->
  root_digest root = root_digest root' -> root = root' \/ sha256_collision.
Proof.
  intros He He' Hps Hps' Hr Hr' Hdg.
  pose proof (root_entries _ _ _ _ _ _ Hr Hps) as Hes. pose proof (root_entries _ _ _ _ _ _ Hr' Hps') as Hes'.
  apply new_Ok in Hr as (_ & _ & _ & Hd & Henv & Hv & Hl & _ & _ & _ & Hx).
  apply new_Ok in Hr' as (_ & _ & _ & Hd' & Henv' & Hv' & Hl' & _ & _ & _ & Hx'). rewrite Hdg in Hx.
  eapply canonical_digest_bind in Hx; [|by apply digest_input_tree..|exact Hx'].
  destruct Hx as [[_ H]|Hcol]; [left|by right]. apply to_value_Arr_inv in H. cbn [map] in H.
  repeat match type of H with _ :: _ = _ :: _ => apply item_eq_inv in H as [?H H] end.
  match goal with E : to_value (Arr _) = to_value (Arr _) |- _ =>
    apply to_value_Arr_inv, entries_inv in E; [apply key_entries_inj in E|done..] end.
  repeat match goal with
  | E : to_value _ = to_value _ |- _ => first [apply domain_inv in E | apply ref_inv in E | apply N_inv in E]
  end.
  destruct root, root'. cbn in *. subst. done.
Qed.
End root_digest.

(** ** Witnesses *)

Module ProductionSample.
Import Toy.
Definition environment : ReferenceV1.t := ReferenceV1.mk (txt "environment:idr:shadow:lab").
Definition audience : ReferenceV1.t := ReferenceV1.mk (txt "audience:idr:shadow:lab").
Definition ref (s : string) : ReferenceV1.t := ReferenceV1.mk (txt s).
Definition key_hex : text := encode_hex (be_bytes 32 77).
Definition key : ProductionIssuerKeyV1.t :=
  ProductionIssuerKeyV1.mk TrustDomainV1.Shadow environment (ref "issuer:1") (ref "key:1")
    (be_bytes 32 77) audience (ref "tenant:1") {[ProductionProofKindV1.Authority]} 50 300 (Some 250).
Definition claims : ProductionProofClaimsV1.t :=
  ProductionProofClaimsV1.mk WireCompatibilityV1.v1 (Toy.uuid 60) TrustDomainV1.Shadow environment
    ProductionProofKindV1.Authority (ref "issuer:1") (ref "subject:1") (repeat 48 64) audience
    (ref "tenant:1") (ref "scope:1") (ref "purpose:1") (ref "policy:1") 100 110 200 (repeat 49 64)
    (repeat 48 64) (default_proof_assertion ProductionProofKindV1.Authority).
Definition message : list N := Eval vm_compute in
  match ProductionProofClaimsV1.canonical_signing_bytes claims with Ok bs => bs | Err _ => [] end.
Definition envelope : ProductionProofEnvelopeV1.t := Eval vm_compute in
  ProductionProofEnvelopeV1.mk claims (ref "key:1") IDR_PROOF_ALGORITHM_ED25519_V1
    (encode_hex (Toy.ed25519_sign (be_bytes 32 77) message)).
Definition root : option TrustRootSnapshotV1.t := Eval vm_compute in
  match TrustRootSnapshotV1.new TrustDomainV1.Shadow environment 3 40 [key] with
  | Ok root => Some root | Err _ => None end.
Definition the_root : TrustRootSnapshotV1.t := Eval vm_compute in
  match root with Some root => root | None => TrustRootSnapshotV1.mk TrustDomainV1.Shadow environment 0 [] 0 ∅ end.
Definition verified : VerifiedProductionProofV1.t := Eval vm_compute in
  match TrustRootSnapshotV1.verify_at the_root envelope (expectation_of claims) 150 with
  | Ok p => p | Err _ => VerifiedProductionProofV1.mk (Toy.uuid 0) [] TrustDomainV1.Shadow environment
      ProductionProofKindV1.Authority 0 0 [] 0 end.

Lemma key_issued :
  @ProductionIssuerKeyV1.new Toy.crates TrustDomainV1.Shadow environment (ref "issuer:1") (ref "key:1")
    key_hex audience (ref "tenant:1") {[ProductionProofKindV1.Authority]} 50 300 (Some 250) = Ok key.
Proof. vm_compute. reflexivity. Qed.
Lemma root_new :
  @TrustRootSnapshotV1.new Toy.crates TrustDomainV1.Shadow environment 3 40 [key] = Ok the_root.
Proof. vm_compute. reflexivity. Qed.
Lemma envelope_verified :
  @TrustRootSnapshotV1.verify_at Toy.crates the_root envelope (expectation_of claims) 150 = Ok verified.
Proof. vm_compute. reflexivity. Qed.
Lemma claims_wire_sample : claims_wire claims.
Proof.
  unfold claims_wire, scalar_text. split; [apply set_Forall_empty|].
  split; [apply (bool_decide_eq_true_1 _)|]; vm_compute; reflexivity.
Qed.
Lemma key_wire_sample : key_wire key.
Proof. split; apply (bool_decide_eq_true_1 _); vm_compute; reflexivity. Qed.
End ProductionSample.

(** Revoked, expired or for another boundary, the same proof fails. *)
Example production_verify_sample :
  TrustRootSnapshotV1.verify_at (C:=Toy.crates) ProductionSample.the_root ProductionSample.envelope
    (expectation_of ProductionSample.claims) 200 = Err ProductionProofVerificationFailed /\
  TrustRootSnapshotV1.verify_at (C:=Toy.crates) ProductionSample.the_root ProductionSample.envelope
    (expectation_of ProductionSample.claims) 109 = Err ProductionProofVerificationFailed.
Proof. split; vm_compute; reflexivity. Qed.

Lemma production_signature_covers_claims_witness :
  claims_wire ProductionSample.claims /\ ProductionSample.claims = ProductionSample.claims.
Proof.
  split; [exact ProductionSample.claims_wire_sample|].
  assert (ProductionProofClaimsV1.canonical_signing_bytes (C:=Toy.crates) ProductionSample.claims
    = Ok ProductionSample.message) as Hm by (vm_compute; reflexivity).
  exact (@production_signature_covers_claims Toy.crates toy_laws _ _ _ ProductionSample.claims_wire_sample
    ProductionSample.claims_wire_sample Hm Hm).
Defined.

Lemma verified_proof_stays_in_its_boundary_witness :
  VerifiedProductionProofV1.trust_domain ProductionSample.verified = TrustDomainV1.Shadow.
Proof.
  assert (Forall (@issued_key Toy.crates) [ProductionSample.key]) as Hk.
  { constructor; [|constructor]. repeat eexists. exact ProductionSample.key_issued. }
  exact (proj1 (@verified_proof_stays_in_its_boundary Toy.crates _ _ _ _ _ _ _ _ _ _ Hk
    ProductionSample.root_new ProductionSample.envelope_verified)).
Defined.

Lemma trust_root_digest_binds_keys_witness :
  ProductionSample.the_root = ProductionSample.the_root \/ @sha256_collision Toy.crates.
Proof.
  assert (scalar_text (ReferenceV1.as_str ProductionSample.environment)) as He
    by (apply (bool_decide_eq_true_1 _); vm_compute; reflexivity).
  assert (Forall key_wire [ProductionSample.key]) as Hk
    by (constructor; [exact ProductionSample.key_wire_sample|constructor]).
  exact (@trust_root_digest_binds_keys Toy.crates toy_laws _ _ _ _ _ _ _ _ _ _ _ _ He He Hk Hk
    ProductionSample.root_new ProductionSample.root_new eq_refl).
Defined.
