(* ===== verification/ChainData.v ===== *)
(** * ChainData: the data of the trust chain ([idr-runtime/src/trust_chain.rs])

    Run and execution states, references to authoritative records and the records
    themselves, commands and their envelopes, and the projection of a run. *)

From stdpp Require Import base list gmap fin_sets countable sorting strings.
From Stdlib Require Import NArith ZArith Lia.
From S2P Require Import Prelude Text Json Crates CanonicalJson Common Production.

Definition IDR_MAX_RENDERED_BYTES_V1 : N := 1048576.
Definition IDR_MAX_IDEMPOTENCY_KEY_BYTES_V1 : N := 256.
Definition IDR_RECEIPT_OUTCOME_OBSERVATION_WINDOW_SECONDS_V1 : N := 86400.
Definition IDR_OUTCOME_HUMAN_MODEL_WINDOW_SECONDS_V1 : N := 604800.

(** [setter eta field] is the assignment [record.field = value]. *)
Ltac setter eta field :=
  let e := eval unfold eta in eta in
  lazymatch eval pattern field in e with
  | ?rebuild _ => exact (fun value record => rebuild (fun _ => value) record)
  end.

#[export] Instance reference_error_eq_dec : EqDecision ReferenceValidationErrorV1.
Proof. solve_decision. Defined.

Module IdrRuntimeErrorV1.
Inductive t : Type :=
| InvalidCommand | AggregateVersionConflict | IdempotencyConflict | IntegrityViolation
| MissingRequiredProof | ProofReplay | MissingDependency | BindingMismatch | ActionNotAdmitted
| ActionDerivationMismatch | ExecutionAlreadyReserved | InvalidExecutionTransition
| ExecutionLeaseExpired | ExpiredAuthority | ExecutionRequiresReconciliation | ActionInvalidated
| InvalidRunTransition | LineageMismatch | PrincipalMismatch | SerializationFailed
| Repository (message : text)
| Protocol (error : ProductionProtocolErrorV1)
| BadReference (error : ReferenceValidationErrorV1).
#[global] Instance eq_dec : EqDecision t.
Proof. solve_decision. Defined.
End IdrRuntimeErrorV1.
Notation Chain := (Result IdrRuntimeErrorV1.t) (only parsing).

Module IdrRunStateV1.
Inductive t : Type :=
| Pending | Running | WaitingInput | WaitingAuthorization | WaitingDependency
| ReconciliationRequired | Succeeded | Rejected | Failed | Cancelled | TimedOut | Invalidated.
#[global] Instance eq_dec : EqDecision t.
Proof. solve_decision. Defined.
#[global] Instance to_json : ToJson t := fun k =>
  Str (txt match k with
  | Pending => "pending" | Running => "running" | WaitingInput => "waiting_input"
  | WaitingAuthorization => "waiting_authorization" | WaitingDependency => "waiting_dependency"
  | ReconciliationRequired => "reconciliation_required" | Succeeded => "succeeded"
  | Rejected => "rejected" | Failed => "failed" | Cancelled => "cancelled"
  | TimedOut => "timed_out" | Invalidated => "invalidated" end).
End IdrRunStateV1.

Module ExecutionAggregateStateV1.
Inductive t : Type :=
| NoExecution | ReservationCreated | PermitIssued | PermitDelivered | DispatchStarted
| AwaitingProvider | ReconciliationRequired | Succeeded | Failed | Rejected | Cancelled
| Compensated | Expired.
#[global] Instance eq_dec : EqDecision t.
Proof. solve_decision. Defined.
#[global] Instance to_json : ToJson t := fun k =>
  Str (txt match k with
  | NoExecution => "none" | ReservationCreated => "reservation_created"
  | PermitIssued => "permit_issued" | PermitDelivered => "permit_delivered"
  | DispatchStarted => "dispatch_started" | AwaitingProvider => "awaiting_provider"
  | ReconciliationRequired => "reconciliation_required" | Succeeded => "succeeded"
  | Failed => "failed" | Rejected => "rejected" | Cancelled => "cancelled"
  | Compensated => "compensated" | Expired => "expired" end).

Definition is_terminal (state : t) : bool :=
  match state with
  | Succeeded | Failed | Rejected | Cancelled | Compensated | Expired => true
  | _ => false
  end.
End ExecutionAggregateStateV1.

Module AuthoritativeRecordRefV1.
Record t := mk {
  record_id : Uuid;
  revision : N;
  candidate_kind : CandidateKindV1.t;
  trust_domain : TrustDomainV1.t;
  environment_ref : ReferenceV1.t;
  valid_from : N;
  valid_until : N;
  record_digest : text;
}.
#[global] Instance eq_dec : EqDecision t.
Proof. solve_decision. Defined.

Section with_crates.
Context {C : Crates}.
#[global] Instance to_json : ToJson t := fun r =>
  Obj [(txt "record_id", Json.to_json (record_id r)); (txt "revision", Json.to_json (revision r));
    (txt "candidate_kind", Json.to_json (candidate_kind r));
    (txt "trust_domain", Json.to_json (trust_domain r));
    (txt "environment_ref", Json.to_json (environment_ref r));
    (txt "valid_from", Json.to_json (valid_from r));
    (txt "valid_until", Json.to_json (valid_until r));
    (txt "record_digest", Json.to_json (record_digest r))].
End with_crates.

(** The [BTreeSet] of references needs only their equality. *)
#[global] Instance countable : Countable t.
Proof.
  refine (inj_countable' (fun r => (record_id r, revision r, candidate_kind r, trust_domain r,
      environment_ref r, valid_from r, valid_until r, record_digest r))
    (fun '(a, b, c, d, e, f, g, h) => mk a b c d e f g h) _). by intros [].
Defined.
End AuthoritativeRecordRefV1.

Module AuthoritativeRecordDigestMaterialV1.
Record t := mk {
  record_id : Uuid;
  revision : N;
  candidate_kind : CandidateKindV1.t;
  trust_domain : TrustDomainV1.t;
  environment_ref : ReferenceV1.t;
  valid_from : N;
  valid_until : N;
  run_id : Uuid;
  turn_id : Uuid;
  tenant_ref : ReferenceV1.t;
  subject_ref : ReferenceV1.t;
  policy_revision_ref : ReferenceV1.t;
  candidate_id : Uuid;
  candidate_digest : text;
  payload : Value;
  issued_by_command_id : Uuid;
  issued_at : N;
  proof_ids : list Uuid;
}.

Section with_crates.
Context {C : Crates}.
#[global] Instance to_json : ToJson t := fun r =>
  Obj [(txt "record_id", Json.to_json (record_id r)); (txt "revision", Json.to_json (revision r));
    (txt "candidate_kind", Json.to_json (candidate_kind r));
    (txt "trust_domain", Json.to_json (trust_domain r));
    (txt "environment_ref", Json.to_json (environment_ref r));
    (txt "valid_from", Json.to_json (valid_from r));
    (txt "valid_until", Json.to_json (valid_until r)); (txt "run_id", Json.to_json (run_id r));
    (txt "turn_id", Json.to_json (turn_id r)); (txt "tenant_ref", Json.to_json (tenant_ref r));
    (txt "subject_ref", Json.to_json (subject_ref r));
    (txt "policy_revision_ref", Json.to_json (policy_revision_ref r));
    (txt "candidate_id", Json.to_json (candidate_id r));
    (txt "candidate_digest", Json.to_json (candidate_digest r));
    (txt "payload", Json.to_json (payload r));
    (txt "issued_by_command_id", Json.to_json (issued_by_command_id r));
    (txt "issued_at", Json.to_json (issued_at r)); (txt "proof_ids", Json.to_json (proof_ids r))].
End with_crates.
End AuthoritativeRecordDigestMaterialV1.

Module AuthoritativeRecordV1.
Record t := mk {
  record_ref : AuthoritativeRecordRefV1.t;
  trust_domain : TrustDomainV1.t;
  environment_ref : ReferenceV1.t;
  run_id : Uuid;
  turn_id : Uuid;
  tenant_ref : ReferenceV1.t;
  subject_ref : ReferenceV1.t;
  policy_revision_ref : ReferenceV1.t;
  candidate_id : Uuid;
  candidate_digest : text;
  payload : Value;
  issued_by_command_id : Uuid;
  issued_at : N;
  valid_from : N;
  valid_until : N;
  proof_ids : list Uuid;
}.
#[global] Instance eq_dec : EqDecision t.
Proof. solve_decision. Defined.

Section with_crates.
Context {C : Crates}.
#[global] Instance to_json : ToJson t := fun r =>
  Obj [(txt "record_ref", Json.to_json (record_ref r));
    (txt "trust_domain", Json.to_json (trust_domain r));
    (txt "environment_ref", Json.to_json (environment_ref r));
    (txt "run_id", Json.to_json (run_id r)); (txt "turn_id", Json.to_json (turn_id r));
    (txt "tenant_ref", Json.to_json (tenant_ref r));
    (txt "subject_ref", Json.to_json (subject_ref r));
    (txt "policy_revision_ref", Json.to_json (policy_revision_ref r));
    (txt "candidate_id", Json.to_json (candidate_id r));
    (txt "candidate_digest", Json.to_json (candidate_digest r));
    (txt "payload", Json.to_json (payload r));
    (txt "issued_by_command_id", Json.to_json (issued_by_command_id r));
    (txt "issued_at", Json.to_json (issued_at r));
    (txt "valid_from", Json.to_json (valid_from r));
    (txt "valid_until", Json.to_json (valid_until r));
    (txt "proof_ids", Json.to_json (proof_ids r))].
End with_crates.
End AuthoritativeRecordV1.

(** ** Commands *)

Module ReconciliationResolutionV1.
Inductive t : Type :=
| Succeeded | Failed | Rejected | Compensated | Unknown.
#[global] Instance eq_dec : EqDecision t.
Proof. solve_decision. Defined.
#[global] Instance to_json : ToJson t := fun k =>
  Str (txt match k with
  | Succeeded => "succeeded" | Failed => "failed" | Rejected => "rejected"
  | Compensated => "compensated" | Unknown => "unknown" end).
End ReconciliationResolutionV1.

Module IdrCommandV1.
Inductive t : Type :=
| StartRun (input : CandidateSubmissionV1.t)
| RecordContext (context : CandidateSubmissionV1.t)
| RecordIntent (intent : CandidateSubmissionV1.t)
| RecordDecision (decision : CandidateSubmissionV1.t)
| RecordTurn (turn : CandidateSubmissionV1.t)
| RecordResponse (response : CandidateSubmissionV1.t)
| ConsumeResponseSend (response_ref : AuthoritativeRecordRefV1.t) (rendered_bytes : list N)
    (channel_ref : ReferenceV1.t) (audience_ref : ReferenceV1.t) (send_nonce : text)
| RecordAction (action : CandidateSubmissionV1.t)
| AdmitAction (action_ref : AuthoritativeRecordRefV1.t) (action_digest : text)
    (provider_ref : ReferenceV1.t) (owner_ref : ReferenceV1.t) (idempotency_key : text)
| ReserveExecution (action_admission_ref : AuthoritativeRecordRefV1.t) (action_ref : AuthoritativeRecordRefV1.t)
    (action_digest : text) (provider_ref : ReferenceV1.t) (owner_ref : ReferenceV1.t)
    (idempotency_key : text) (attempt : N) (lease_until : N) (dispatch_nonce : text)
| RecoverPermit (reservation_id : Uuid)
| DeliverPermit (reservation_id : Uuid) (permit_id : Uuid)
| StartDispatch (reservation_id : Uuid) (permit_id : Uuid)
| CommitExecutionReceipt (receipt : CandidateSubmissionV1.t) (reservation_id : Uuid) (permit_id : Uuid)
    (provider_ref : ReferenceV1.t) (dispatch_nonce : text) (attempt : N)
| ReconcileExecution (reservation_id : Uuid) (resolution : ReconciliationResolutionV1.t)
| ExpireExecutionLease (reservation_id : Uuid)
| InvalidateRecord (record_ref : AuthoritativeRecordRefV1.t) (reason_ref : ReferenceV1.t)
| RecordOutcome (outcome : CandidateSubmissionV1.t)
| ProposeHumanModelCandidate (candidate : CandidateSubmissionV1.t)
| RecordHumanModelPromotion (decision : CandidateSubmissionV1.t) (source_candidate_ref : AuthoritativeRecordRefV1.t)
| PromoteHumanModelAssertion (assertion : CandidateSubmissionV1.t) (promotion_decision_ref : AuthoritativeRecordRefV1.t)
| CorrectHumanModelAssertion (assertion_ref : AuthoritativeRecordRefV1.t) (correction : CandidateSubmissionV1.t)
| CancelRun (reason_ref : ReferenceV1.t).
#[global] Instance eq_dec : EqDecision t.
Proof. solve_decision. Defined.

(** [#[serde(tag = "command", content = "payload")]] *)
Definition tagged (command : string) (fields : list (text * Value)) : Value :=
  Obj [(txt "command", Str (txt command)); (txt "payload", Obj fields)].

(** A [Vec<u8>] is an array of numbers. *)
Definition byte_array (bytes : list N) : Value := Arr (map (fun b => Num (number_of_u64 b)) bytes).

(** The [snake_case] name of the variant. *)
Definition command_name (command : t) : string :=
  match command with
  | StartRun _ => "start_run"
  | RecordContext _ => "record_context"
  | RecordIntent _ => "record_intent"
  | RecordDecision _ => "record_decision"
  | RecordTurn _ => "record_turn"
  | RecordResponse _ => "record_response"
  | ConsumeResponseSend _ _ _ _ _ => "consume_response_send"
  | RecordAction _ => "record_action"
  | AdmitAction _ _ _ _ _ => "admit_action"
  | ReserveExecution _ _ _ _ _ _ _ _ _ => "reserve_execution"
  | RecoverPermit _ => "recover_permit"
  | DeliverPermit _ _ => "deliver_permit"
  | StartDispatch _ _ => "start_dispatch"
  | CommitExecutionReceipt _ _ _ _ _ _ => "commit_execution_receipt"
  | ReconcileExecution _ _ => "reconcile_execution"
  | ExpireExecutionLease _ => "expire_execution_lease"
  | InvalidateRecord _ _ => "invalidate_record"
  | RecordOutcome _ => "record_outcome"
  | ProposeHumanModelCandidate _ => "propose_human_model_candidate"
  | RecordHumanModelPromotion _ _ => "record_human_model_promotion"
  | PromoteHumanModelAssertion _ _ => "promote_human_model_assertion"
  | CorrectHumanModelAssertion _ _ => "correct_human_model_assertion"
  | CancelRun _ => "cancel_run"
  end%string.

Section with_crates.
Context {C : Crates}.

Definition command_fields (command : t) : list (text * Value) :=
  match command with
  | StartRun input =>
      [(txt "input", Json.to_json input)]
  | RecordContext context =>
      [(txt "context", Json.to_json context)]
  | RecordIntent intent =>
      [(txt "intent", Json.to_json intent)]
  | RecordDecision decision =>
      [(txt "decision", Json.to_json decision)]
  | RecordTurn turn =>
      [(txt "turn", Json.to_json turn)]
  | RecordResponse response =>
      [(txt "response", Json.to_json response)]
  | ConsumeResponseSend response_ref rendered_bytes channel_ref audience_ref send_nonce =>
      [(txt "response_ref", Json.to_json response_ref);
       (txt "rendered_bytes", byte_array rendered_bytes);
       (txt "channel_ref", Json.to_json channel_ref);
       (txt "audience_ref", Json.to_json audience_ref);
       (txt "send_nonce", Json.to_json send_nonce)]
  | RecordAction action =>
      [(txt "action", Json.to_json action)]
  | AdmitAction action_ref action_digest provider_ref owner_ref idempotency_key =>
      [(txt "action_ref", Json.to_json action_ref);
       (txt "action_digest", Json.to_json action_digest);
       (txt "provider_ref", Json.to_json provider_ref);
       (txt "owner_ref", Json.to_json owner_ref);
       (txt "idempotency_key", Json.to_json idempotency_key)]
  | ReserveExecution action_admission_ref action_ref action_digest provider_ref owner_ref idempotency_key attempt lease_until dispatch_nonce =>
      [(txt "action_admission_ref", Json.to_json action_admission_ref);
       (txt "action_ref", Json.to_json action_ref);
       (txt "action_digest", Json.to_json action_digest);
       (txt "provider_ref", Json.to_json provider_ref);
       (txt "owner_ref", Json.to_json owner_ref);
       (txt "idempotency_key", Json.to_json idempotency_key);
       (txt "attempt", Json.to_json attempt); (txt "lease_until", Json.to_json lease_until);
       (txt "dispatch_nonce", Json.to_json dispatch_nonce)]
  | RecoverPermit reservation_id =>
      [(txt "reservation_id", Json.to_json reservation_id)]
  | DeliverPermit reservation_id permit_id =>
      [(txt "reservation_id", Json.to_json reservation_id);
       (txt "permit_id", Json.to_json permit_id)]
  | StartDispatch reservation_id permit_id =>
      [(txt "reservation_id", Json.to_json reservation_id);
       (txt "permit_id", Json.to_json permit_id)]
  | CommitExecutionReceipt receipt reservation_id permit_id provider_ref dispatch_nonce attempt =>
      [(txt "receipt", Json.to_json receipt);
       (txt "reservation_id", Json.to_json reservation_id);
       (txt "permit_id", Json.to_json permit_id);
       (txt "provider_ref", Json.to_json provider_ref);
       (txt "dispatch_nonce", Json.to_json dispatch_nonce);
       (txt "attempt", Json.to_json attempt)]
  | ReconcileExecution reservation_id resolution =>
      [(txt "reservation_id", Json.to_json reservation_id);
       (txt "resolution", Json.to_json resolution)]
  | ExpireExecutionLease reservation_id =>
      [(txt "reservation_id", Json.to_json reservation_id)]
  | InvalidateRecord record_ref reason_ref =>
      [(txt "record_ref", Json.to_json record_ref); (txt "reason_ref", Json.to_json reason_ref)]
  | RecordOutcome outcome =>
      [(txt "outcome", Json.to_json outcome)]
  | ProposeHumanModelCandidate candidate =>
      [(txt "candidate", Json.to_json candidate)]
  | RecordHumanModelPromotion decision source_candidate_ref =>
      [(txt "decision", Json.to_json decision);
       (txt "source_candidate_ref", Json.to_json source_candidate_ref)]
  | PromoteHumanModelAssertion assertion promotion_decision_ref =>
      [(txt "assertion", Json.to_json assertion);
       (txt "promotion_decision_ref", Json.to_json promotion_decision_ref)]
  | CorrectHumanModelAssertion assertion_ref correction =>
      [(txt "assertion_ref", Json.to_json assertion_ref);
       (txt "correction", Json.to_json correction)]
  | CancelRun reason_ref =>
      [(txt "reason_ref", Json.to_json reason_ref)]
  end.

#[global] Instance to_json : ToJson t := fun command => tagged (command_name command) (command_fields command).
End with_crates.
End IdrCommandV1.

Module UnsignedCommandEnvelopeV1.
Record t := mk {
  command_id : Uuid;
  trust_domain : TrustDomainV1.t;
  environment_ref : ReferenceV1.t;
  run_id : Uuid;
  expected_aggregate_version : N;
  actor_ref : ReferenceV1.t;
  caller_ref : ReferenceV1.t;
  tenant_ref : ReferenceV1.t;
  scope_ref : ReferenceV1.t;
  purpose_ref : ReferenceV1.t;
  policy_revision_ref : ReferenceV1.t;
  correlation_ref : ReferenceV1.t;
  causation_ref : ReferenceV1.t;
  command : IdrCommandV1.t;
}.

Section with_crates.
Context {C : Crates}.
#[global] Instance to_json : ToJson t := fun r =>
  Obj [(txt "command_id", Json.to_json (command_id r));
    (txt "trust_domain", Json.to_json (trust_domain r));
    (txt "environment_ref", Json.to_json (environment_ref r));
    (txt "run_id", Json.to_json (run_id r));
    (txt "expected_aggregate_version", Json.to_json (expected_aggregate_version r));
    (txt "actor_ref", Json.to_json (actor_ref r));
    (txt "caller_ref", Json.to_json (caller_ref r));
    (txt "tenant_ref", Json.to_json (tenant_ref r));
    (txt "scope_ref", Json.to_json (scope_ref r));
    (txt "purpose_ref", Json.to_json (purpose_ref r));
    (txt "policy_revision_ref", Json.to_json (policy_revision_ref r));
    (txt "correlation_ref", Json.to_json (correlation_ref r));
    (txt "causation_ref", Json.to_json (causation_ref r));
    (txt "command", Json.to_json (command r))].
End with_crates.
End UnsignedCommandEnvelopeV1.

Module IdrCommandEnvelopeV1.
Record t := mk {
  command_id : Uuid;
  trust_domain : TrustDomainV1.t;
  environment_ref : ReferenceV1.t;
  run_id : Uuid;
  expected_aggregate_version : N;
  actor_ref : ReferenceV1.t;
  caller_ref : ReferenceV1.t;
  tenant_ref : ReferenceV1.t;
  scope_ref : ReferenceV1.t;
  purpose_ref : ReferenceV1.t;
  policy_revision_ref : ReferenceV1.t;
  correlation_ref : ReferenceV1.t;
  causation_ref : ReferenceV1.t;
  command : IdrCommandV1.t;
  proofs : list ProductionProofEnvelopeV1.t;
}.
#[global] Instance eq_dec : EqDecision t.
Proof. solve_decision. Defined.

Section with_crates.
Context {C : Crates}.
#[global] Instance to_json : ToJson t := fun r =>
  Obj [(txt "command_id", Json.to_json (command_id r));
    (txt "trust_domain", Json.to_json (trust_domain r));
    (txt "environment_ref", Json.to_json (environment_ref r));
    (txt "run_id", Json.to_json (run_id r));
    (txt "expected_aggregate_version", Json.to_json (expected_aggregate_version r));
    (txt "actor_ref", Json.to_json (actor_ref r));
    (txt "caller_ref", Json.to_json (caller_ref r));
    (txt "tenant_ref", Json.to_json (tenant_ref r));
    (txt "scope_ref", Json.to_json (scope_ref r));
    (txt "purpose_ref", Json.to_json (purpose_ref r));
    (txt "policy_revision_ref", Json.to_json (policy_revision_ref r));
    (txt "correlation_ref", Json.to_json (correlation_ref r));
    (txt "causation_ref", Json.to_json (causation_ref r));
    (txt "command", Json.to_json (command r)); (txt "proofs", Json.to_json (proofs r))].
End with_crates.
End IdrCommandEnvelopeV1.

(** ** The projection of a run *)

Module ExecutionProjectionV1.
Record t := mk {
  reservation_id : Uuid;
  action_admission_ref : AuthoritativeRecordRefV1.t;
  action_ref : AuthoritativeRecordRefV1.t;
  provider_ref : ReferenceV1.t;
  owner_ref : ReferenceV1.t;
  operation_ref : ReferenceV1.t;
  parameter_digest : text;
  request_digest : text;
  idempotency_key : text;
  attempt : N;
  permit_id : Uuid;
  exact_authorization_proof_id : Uuid;
  action_valid_until : N;
  admission_valid_until : N;
  authorization_valid_until : N;
  permit_valid_until : N;
  lease_until : N;
  dispatch_nonce : text;
  state : ExecutionAggregateStateV1.t;
}.
#[global] Instance eq_dec : EqDecision t.
Proof. solve_decision. Defined.

Definition eta (r : t) : t :=
  mk (reservation_id r) (action_admission_ref r) (action_ref r) (provider_ref r) (owner_ref r)
    (operation_ref r) (parameter_digest r) (request_digest r) (idempotency_key r) (attempt r)
    (permit_id r) (exact_authorization_proof_id r) (action_valid_until r)
    (admission_valid_until r) (authorization_valid_until r) (permit_valid_until r)
    (lease_until r) (dispatch_nonce r) (state r).
Definition with_state : ExecutionAggregateStateV1.t -> t -> t := ltac:(setter eta state).
End ExecutionProjectionV1.

Module ResponseBindingProjectionV1.
Record t := mk {
  response_ref : AuthoritativeRecordRefV1.t;
  rendered_content_digest : text;
  channel_ref : ReferenceV1.t;
  audience_ref : ReferenceV1.t;
}.
#[global] Instance eq_dec : EqDecision t.
Proof. solve_decision. Defined.
End ResponseBindingProjectionV1.

Module HumanModelPromotionProjectionV1.
Record t := mk {
  decision_ref : AuthoritativeRecordRefV1.t;
  source_candidate_ref : AuthoritativeRecordRefV1.t;
  outcome_ref : AuthoritativeRecordRefV1.t;
  outcome : text;
}.
#[global] Instance eq_dec : EqDecision t.
Proof. solve_decision. Defined.
End HumanModelPromotionProjectionV1.

Module HumanModelCandidateProjectionV1.
Record t := mk {
  candidate_ref : AuthoritativeRecordRefV1.t;
  outcome_ref : AuthoritativeRecordRefV1.t;
  materialized_payload : Value;
}.
#[global] Instance eq_dec : EqDecision t.
Proof. solve_decision. Defined.
End HumanModelCandidateProjectionV1.

Module ActionAdmissionProofBindingV1.
Record t := mk {
  proof_id : Uuid;
  valid_until : N;
}.
#[global] Instance eq_dec : EqDecision t.
Proof. solve_decision. Defined.

Section with_crates.
Context {C : Crates}.
#[global] Instance to_json : ToJson t := fun r =>
  Obj [(txt "proof_id", Json.to_json (proof_id r));
    (txt "valid_until", Json.to_json (valid_until r))].
End with_crates.
End ActionAdmissionProofBindingV1.

Module ActionAdmissionProjectionV1.
Record t := mk {
  admission_ref : AuthoritativeRecordRefV1.t;
  action_ref : AuthoritativeRecordRefV1.t;
  provider_ref : ReferenceV1.t;
  owner_ref : ReferenceV1.t;
  operation_ref : ReferenceV1.t;
  parameter_digest : text;
  request_digest : text;
  idempotency_key : text;
  proof_bindings : gmap ProductionProofKindV1.t ActionAdmissionProofBindingV1.t;
  exact_authorization_proof_id : Uuid;
  authorization_valid_until : N;
  valid_until : N;
}.
#[global] Instance eq_dec : EqDecision t.
Proof. solve_decision. Defined.
End ActionAdmissionProjectionV1.

Module DecisionBindingProjectionV1.
Record t := mk {
  decision_ref : AuthoritativeRecordRefV1.t;
  selected_option_ref : ReferenceV1.t;
  operation_ref : ReferenceV1.t;
  parameter_digest : text;
}.
#[global] Instance eq_dec : EqDecision t.
Proof. solve_decision. Defined.
End DecisionBindingProjectionV1.

Module ActionBindingProjectionV1.
Record t := mk {
  action_ref : AuthoritativeRecordRefV1.t;
  selected_option_ref : ReferenceV1.t;
  operation_ref : ReferenceV1.t;
  parameter_digest : text;
  request_digest : text;
}.
#[global] Instance eq_dec : EqDecision t.
Proof. solve_decision. Defined.
End ActionBindingProjectionV1.

Module IdrRunProjectionV1.
Record t := mk {
  trust_domain : TrustDomainV1.t;
  environment_ref : ReferenceV1.t;
  run_id : Uuid;
  tenant_ref : ReferenceV1.t;
  subject_ref : option ReferenceV1.t;
  turn_id : option Uuid;
  aggregate_version : N;
  state : IdrRunStateV1.t;
  records : gmap CandidateKindV1.t AuthoritativeRecordRefV1.t;
  invalidated_records : gset AuthoritativeRecordRefV1.t;
  response_send_nonces : gset text;
  response_binding : option ResponseBindingProjectionV1.t;
  outcome_binding : option AuthoritativeRecordRefV1.t;
  human_model_candidate : option HumanModelCandidateProjectionV1.t;
  human_model_promotion : option HumanModelPromotionProjectionV1.t;
  decision_binding : option DecisionBindingProjectionV1.t;
  action_binding : option ActionBindingProjectionV1.t;
  action_admission : option ActionAdmissionProjectionV1.t;
  execution : option ExecutionProjectionV1.t;
  last_event_sequence : N;
}.
#[global] Instance eq_dec : EqDecision t.
Proof. solve_decision. Defined.

Definition eta (r : t) : t :=
  mk (trust_domain r) (environment_ref r) (run_id r) (tenant_ref r) (subject_ref r) (turn_id r)
    (aggregate_version r) (state r) (records r) (invalidated_records r) (response_send_nonces r)
    (response_binding r) (outcome_binding r) (human_model_candidate r) (human_model_promotion r)
    (decision_binding r) (action_binding r) (action_admission r) (execution r)
    (last_event_sequence r).
Definition with_subject_ref : (option ReferenceV1.t) -> t -> t := ltac:(setter eta subject_ref).
Definition with_turn_id : (option Uuid) -> t -> t := ltac:(setter eta turn_id).
Definition with_aggregate_version : N -> t -> t := ltac:(setter eta aggregate_version).
Definition with_state : IdrRunStateV1.t -> t -> t := ltac:(setter eta state).
Definition with_records : (gmap CandidateKindV1.t AuthoritativeRecordRefV1.t) -> t -> t := ltac:(setter eta records).
Definition with_invalidated_records : (gset AuthoritativeRecordRefV1.t) -> t -> t := ltac:(setter eta invalidated_records).
Definition with_response_send_nonces : (gset text) -> t -> t := ltac:(setter eta response_send_nonces).
Definition with_response_binding : (option ResponseBindingProjectionV1.t) -> t -> t := ltac:(setter eta response_binding).
Definition with_outcome_binding : (option AuthoritativeRecordRefV1.t) -> t -> t := ltac:(setter eta outcome_binding).
Definition with_human_model_candidate : (option HumanModelCandidateProjectionV1.t) -> t -> t := ltac:(setter eta human_model_candidate).
Definition with_human_model_promotion : (option HumanModelPromotionProjectionV1.t) -> t -> t := ltac:(setter eta human_model_promotion).
Definition with_decision_binding : (option DecisionBindingProjectionV1.t) -> t -> t := ltac:(setter eta decision_binding).
Definition with_action_binding : (option ActionBindingProjectionV1.t) -> t -> t := ltac:(setter eta action_binding).
Definition with_action_admission : (option ActionAdmissionProjectionV1.t) -> t -> t := ltac:(setter eta action_admission).
Definition with_execution : (option ExecutionProjectionV1.t) -> t -> t := ltac:(setter eta execution).
Definition with_last_event_sequence : N -> t -> t := ltac:(setter eta last_event_sequence).

Definition pending (trust_domain : TrustDomainV1.t) (environment_ref : ReferenceV1.t) (run_id : Uuid)
    (tenant_ref : ReferenceV1.t) : t :=
  mk trust_domain environment_ref run_id tenant_ref None None 0 IdrRunStateV1.Pending ∅ ∅ ∅
    None None None None None None None None 0.
End IdrRunProjectionV1.

Module IdrTransitionV1.
Record t := mk {
  projection : IdrRunProjectionV1.t;
  authoritative_record : option AuthoritativeRecordV1.t;
  event_type : text;
  event_payload : Value;
  consumed_proof_ids : list Uuid;
  consumed_nonces : list text;
}.
#[global] Instance eq_dec : EqDecision t.
Proof. solve_decision. Defined.

Definition eta (r : t) : t :=
  mk (projection r) (authoritative_record r) (event_type r) (event_payload r)
    (consumed_proof_ids r) (consumed_nonces r).
Definition with_projection : IdrRunProjectionV1.t -> t -> t := ltac:(setter eta projection).
End IdrTransitionV1.

(** The identifiers a transition draws with [Uuid::new_v4()]: one per place that may draw one. *)
Module Minted.
Record t := mk { record_id : Uuid; candidate_id : Uuid; reservation_id : Uuid; permit_id : Uuid }.
End Minted.
