(* ===== verification/ChainCommand.v ===== *)
(** * ChainCommand: command envelopes ([idr-runtime/src/trust_chain.rs])

    What an envelope must satisfy before it is evaluated, the proofs its command
    requires, and the exact target those proofs are made for. *)

From stdpp Require Import base list gmap fin_sets countable sorting strings.
From Stdlib Require Import NArith ZArith Lia.
From S2P Require Import Prelude Text Json Crates CanonicalJson Common Production ChainData.

(** ** Reading a JSON payload *)

(** [Value::get] with a string *)
Definition get (field : text) (payload : Value) : option Value :=
  match payload with
  | Obj fields => snd <$> find_first (fun f => f.1 == field) fields
  | _ => None
  end.
Definition as_str (v : Value) : option text := match v with Str t => Some t | _ => None end.
Definition as_bool (v : Value) : option bool := match v with Bool b => Some b | _ => None end.
Definition as_array (v : Value) : option (list Value) := match v with Arr vs => Some vs | _ => None end.
Definition as_object (v : Value) : option (list (text * Value)) := match v with Obj fs => Some fs | _ => None end.
Definition value_as_u64 (v : Value) : option N := match v with Num n => as_u64 n | _ => None end.

Definition get_str (field : string) (payload : Value) : option text := get (txt field) payload ≫= as_str.

(** [rendered_bytes.len()] and the idempotency key of the two commands that have one *)
Definition bad_idempotency_key (idempotency_key : text) : bool :=
  is_nil idempotency_key || (IDR_MAX_IDEMPOTENCY_KEY_BYTES_V1 <? str_len idempotency_key)
  || existsb is_control idempotency_key.

Module Command.
Import IdrCommandV1.

Definition validate_budgets (command : t) : Chain unit :=
  match command with
  | ConsumeResponseSend _ rendered_bytes _ _ _ =>
      reject IDR_MAX_RENDERED_BYTES_V1 <? lenN rendered_bytes with IdrRuntimeErrorV1.InvalidCommand;
      Ok tt
  | AdmitAction _ _ _ _ idempotency_key | ReserveExecution _ _ _ _ _ idempotency_key _ _ _ =>
      reject bad_idempotency_key idempotency_key with IdrRuntimeErrorV1.InvalidCommand;
      Ok tt
  | _ => Ok tt
  end.

Definition candidate (command : t) : option CandidateSubmissionV1.t :=
  match command with
  | StartRun candidate | RecordContext candidate | RecordIntent candidate | RecordDecision candidate
  | RecordTurn candidate | RecordResponse candidate | RecordAction candidate
  | CommitExecutionReceipt candidate _ _ _ _ _ | RecordOutcome candidate
  | ProposeHumanModelCandidate candidate | RecordHumanModelPromotion candidate _
  | PromoteHumanModelAssertion candidate _ | CorrectHumanModelAssertion _ candidate => Some candidate
  | _ => None
  end.

Definition expected_candidate_kind (command : t) : option CandidateKindV1.t :=
  match command with
  | StartRun _ => Some CandidateKindV1.CanonicalInput
  | RecordContext _ => Some CandidateKindV1.ContextSnapshot
  | RecordIntent _ => Some CandidateKindV1.Intent
  | RecordDecision _ => Some CandidateKindV1.Decision
  | RecordTurn _ => Some CandidateKindV1.TurnCoordination
  | RecordResponse _ => Some CandidateKindV1.Response
  | RecordAction _ => Some CandidateKindV1.Action
  | CommitExecutionReceipt _ _ _ _ _ _ => Some CandidateKindV1.ExecutionReceipt
  | RecordOutcome _ => Some CandidateKindV1.Outcome
  | ProposeHumanModelCandidate _ => Some CandidateKindV1.HumanModelCandidate
  | RecordHumanModelPromotion _ _ => Some CandidateKindV1.HumanModelPromotionDecision
  | PromoteHumanModelAssertion _ _ => Some CandidateKindV1.HumanModelAssertion
  | CorrectHumanModelAssertion _ _ => Some CandidateKindV1.HumanModelAssertion
  | _ => None
  end.

(** The command's own kinds; the envelope adds the caller's authentication. *)
Definition required_proof_kinds (command : t) : gset ProductionProofKindV1.t :=
  match command with
  | StartRun _ => {[ProductionProofKindV1.InputAdmission]}
  | RecordContext _ => {[ProductionProofKindV1.ContextSnapshot]}
  | RecordIntent _ => {[ProductionProofKindV1.IntentFastPathAdmission]}
  | RecordDecision _ => {[ProductionProofKindV1.DecisionNecessityAdmission]}
  | RecordTurn _ => {[ProductionProofKindV1.TurnCoordinationAdmission]}
  | RecordResponse _ => ∅
  | ConsumeResponseSend _ _ _ _ _ =>
      {[ProductionProofKindV1.ResponsePolicy; ProductionProofKindV1.ResponseAdmission]}
  | RecordAction _ => ∅
  | AdmitAction _ _ _ _ _ =>
      {[ProductionProofKindV1.Capability; ProductionProofKindV1.Authority;
        ProductionProofKindV1.Policy; ProductionProofKindV1.ExactAuthorization;
        ProductionProofKindV1.ActionAdmission]}
  | ReserveExecution _ _ _ _ _ _ _ _ _ | RecoverPermit _ | DeliverPermit _ _ | StartDispatch _ _
  | ExpireExecutionLease _ => {[ProductionProofKindV1.ExecutionPermit]}
  | CancelRun _ => {[ProductionProofKindV1.Authority]}
  | CommitExecutionReceipt _ _ _ _ _ _ => {[ProductionProofKindV1.ProviderReceipt]}
  | ReconcileExecution _ _ => {[ProductionProofKindV1.ProviderReceipt]}
  | InvalidateRecord _ _ => {[ProductionProofKindV1.Policy]}
  | RecordOutcome _ => {[ProductionProofKindV1.OutcomeObservation]}
  | ProposeHumanModelCandidate _ => {[ProductionProofKindV1.OutcomeObservation]}
  | RecordHumanModelPromotion decision _ =>
      let outcome := get_str "outcome" (CandidateSubmissionV1.payload decision) in
      {[ProductionProofKindV1.HumanModelPromotion]}
      ∪ (if outcome == Some (txt "promote_user_confirmed")
         then {[ProductionProofKindV1.HumanModelUserConfirmation]} else ∅)
      ∪ (if outcome == Some (txt "promote_outcome_supported")
         then {[ProductionProofKindV1.OutcomeObservation]} else ∅)
  | PromoteHumanModelAssertion _ _ => {[ProductionProofKindV1.HumanModelPromotion]}
  | CorrectHumanModelAssertion _ _ => {[ProductionProofKindV1.HumanModelCorrection]}
  end.

Definition explicit_digests (command : t) : list text :=
  match command with
  | ConsumeResponseSend _ _ _ _ send_nonce => [send_nonce]
  | AdmitAction _ action_digest _ _ _ => [action_digest]
  | ReserveExecution _ _ action_digest _ _ _ _ _ dispatch_nonce => [action_digest; dispatch_nonce]
  | CommitExecutionReceipt _ _ _ _ dispatch_nonce _ => [dispatch_nonce]
  | _ => []
  end.
End Command.

(** ** Envelopes *)

Module Envelope.
Import IdrCommandEnvelopeV1.

(** [for proof in &self.proofs]: the two sets collect what was seen. *)
Fixpoint validate_proofs (domain : TrustDomainV1.t) (proofs : list ProductionProofEnvelopeV1.t)
    (proof_ids : gset Uuid) (nonces : gset text) : Chain unit :=
  match proofs with
  | [] => Ok tt
  | proof :: proofs =>
      let claims := ProductionProofEnvelopeV1.claims proof in
      let id := ProductionProofClaimsV1.proof_id claims in
      let nonce := ProductionProofClaimsV1.nonce claims in
      _ ← map_err IdrRuntimeErrorV1.Protocol (ProductionProofEnvelopeV1.validate_shape proof);
      reject (ProductionProofClaimsV1.trust_domain claims != domain)
             || bool_decide (id ∈ proof_ids) || bool_decide (nonce ∈ nonces)
        with IdrRuntimeErrorV1.ProofReplay;
      validate_proofs domain proofs ({[id]} ∪ proof_ids) ({[nonce]} ∪ nonces)
  end.

Section with_crates.
Context {C : Crates}.

Definition validate_candidate (e : t) (candidate : CandidateSubmissionV1.t) : Chain unit :=
  _ ← map_err IdrRuntimeErrorV1.Protocol (CandidateSubmissionV1.validate candidate);
  reject (CandidateSubmissionV1.run_id candidate != run_id e)
         || (CandidateSubmissionV1.tenant_ref candidate != tenant_ref e)
         || (CandidateSubmissionV1.scope_ref candidate != scope_ref e)
         || (CandidateSubmissionV1.purpose_ref candidate != purpose_ref e)
         || (CandidateSubmissionV1.policy_revision_ref candidate != policy_revision_ref e)
         || (Some (CandidateSubmissionV1.candidate_kind candidate)
               != Command.expected_candidate_kind (command e))
    with IdrRuntimeErrorV1.InvalidCommand;
  Ok tt.

Definition validate (e : t) : Chain unit :=
  reject is_nil_uuid (command_id e) || is_nil_uuid (run_id e)
         || (9007199254740991 <? expected_aggregate_version e) || (32 <? lenN (proofs e))
    with IdrRuntimeErrorV1.InvalidCommand;
  _ ← validate_proofs (trust_domain e) (proofs e) ∅ ∅;
  _ ← match Command.candidate (command e) with
      | Some candidate => validate_candidate e candidate
      | None => Ok tt
      end;
  _ ← for_each (fun digest =>
        reject negb (valid_digest digest) with IdrRuntimeErrorV1.InvalidCommand; Ok tt)
        (Command.explicit_digests (command e));
  _ ← Command.validate_budgets (command e);
  Ok tt.

Definition new (minted : Uuid) (trust_domain : TrustDomainV1.t) (environment_ref : ReferenceV1.t)
    (run_id : Uuid) (expected_aggregate_version : N)
    (actor_ref caller_ref tenant_ref scope_ref purpose_ref policy_revision_ref correlation_ref
     causation_ref : ReferenceV1.t)
    (command : IdrCommandV1.t) (proofs : list ProductionProofEnvelopeV1.t) : Chain t :=
  let envelope := mk minted trust_domain environment_ref run_id expected_aggregate_version actor_ref
    caller_ref tenant_ref scope_ref purpose_ref policy_revision_ref correlation_ref causation_ref
    command proofs in
  _ ← validate envelope;
  Ok envelope.

Definition with_proofs (e : t) (proofs : list ProductionProofEnvelopeV1.t) : Chain t :=
  let e := mk (command_id e) (trust_domain e) (environment_ref e) (run_id e)
    (expected_aggregate_version e) (actor_ref e) (caller_ref e) (tenant_ref e) (scope_ref e)
    (purpose_ref e) (policy_revision_ref e) (correlation_ref e) (causation_ref e) (command e) proofs in
  _ ← validate e;
  Ok e.

Definition canonical_digest (e : t) : Chain text :=
  map_err IdrRuntimeErrorV1.Protocol (canonical_digest_v1 "idr-command-envelope-v1" (Json.to_json e)).

Definition unsigned (e : t) : UnsignedCommandEnvelopeV1.t :=
  UnsignedCommandEnvelopeV1.mk (command_id e) (trust_domain e) (environment_ref e) (run_id e)
    (expected_aggregate_version e) (actor_ref e) (caller_ref e) (tenant_ref e) (scope_ref e)
    (purpose_ref e) (policy_revision_ref e) (correlation_ref e) (causation_ref e) (command e).

Definition proof_subject (e : t) : Chain (ReferenceV1.t * text) :=
  digest ← map_err IdrRuntimeErrorV1.Protocol
             (canonical_digest_v1 "idr-unsigned-command-envelope-v1" (Json.to_json (unsigned e)));
  reference ← map_err IdrRuntimeErrorV1.BadReference
                (ReferenceV1.new (txt "command:" ++ uuid_hyphenated (command_id e)));
  Ok (reference, digest).
End with_crates.

Definition required_proof_kinds (e : t) : gset ProductionProofKindV1.t :=
  {[ProductionProofKindV1.CallerAuthentication]} ∪ Command.required_proof_kinds (command e).
End Envelope.
