(* ===== verification/ChainPayload.v ===== *)
(** * ChainPayload: what the payloads of candidates must say ([idr-runtime/src/trust_chain.rs])

    The validators from [receipt_terminal_state] to [validate_human_model_correction].
    [validate_turn_candidate] searches its graph depth first for a cycle; its
    recursion carries fuel, one more than the number of nodes, which
    [TurnGraph] shows is never exhausted. *)

From stdpp Require Import base list gmap fin_sets countable sorting strings.
From Stdlib Require Import NArith ZArith Lia.
From S2P Require Import Prelude Text Json Crates CanonicalJson Common Production ChainData ChainCommand.

(** [str::parse::<Uuid>] *)
Class UuidParser `{Crates} := parse_uuid : text -> option Uuid.

Notation binding_mismatch := IdrRuntimeErrorV1.BindingMismatch (only parsing).

(** [.filter(...)] on an option *)
Definition option_filter {A} (f : A -> bool) (o : option A) : option A :=
  a ← o; if f a then Some a else None.

Definition required_payload_string (payload : Value) (field : text) : Chain text :=
  ok_or binding_mismatch
    (option_filter (fun value => negb (is_nil value)) (get field payload ≫= as_str)).

Definition required_payload_digest (payload : Value) (field : text) : Chain text :=
  value ← required_payload_string payload field;
  if valid_digest value then Ok value else Err binding_mismatch.

Definition reference (value : text) : Chain ReferenceV1.t :=
  map_err IdrRuntimeErrorV1.BadReference (ReferenceV1.new value).

Definition is_reference (value : text) : bool := negb (is_err (ReferenceV1.new value)).

Definition receipt_terminal_state (payload : Value) : Chain ExecutionAggregateStateV1.t :=
  match get_str "state" payload with
  | Some state =>
      if state == txt "succeeded" then Ok ExecutionAggregateStateV1.Succeeded
      else if state == txt "failed" then Ok ExecutionAggregateStateV1.Failed
      else if state == txt "rejected" then Ok ExecutionAggregateStateV1.Rejected
      else if state == txt "compensated" then Ok ExecutionAggregateStateV1.Compensated
      else Err binding_mismatch
  | None => Err binding_mismatch
  end.

Definition validate_intent_candidate (payload : Value) : Chain unit :=
  outcome ← required_payload_string payload (txt "fast_path_outcome");
  resolution ← required_payload_string payload (txt "resolution_method");
  if ((outcome == txt "allow_fast_path") && (resolution == txt "deterministic_fast_path"))
     || ((outcome == txt "unknown") && (resolution == txt "full_path"))
  then Ok tt else Err binding_mismatch.

Definition decision_binding_values (payload : Value) : Chain (ReferenceV1.t * ReferenceV1.t * text) :=
  necessity ← required_payload_string payload (txt "necessity_outcome");
  reject negb ((necessity == txt "required") || (necessity == txt "unknown")) with binding_mismatch;
  selected_option ← (value ← required_payload_string payload (txt "selected_option_ref"); reference value);
  operation ← (value ← required_payload_string payload (txt "selected_action_operation_ref"); reference value);
  parameter_digest ← required_payload_digest payload (txt "selected_action_parameter_digest");
  Ok (selected_option, operation, parameter_digest).

Definition action_binding_values (payload : Value) : Chain (ReferenceV1.t * ReferenceV1.t * text) :=
  selected_option ← (value ← required_payload_string payload (txt "selected_option_ref"); reference value);
  operation ← (value ← required_payload_string payload (txt "operation_ref"); reference value);
  parameter_digest ← required_payload_digest payload (txt "parameter_digest");
  Ok (selected_option, operation, parameter_digest).

(** ** The graph of a turn *)

(** [.map(...).collect::<Result<_, _>>()] *)
Fixpoint collect_map {A B} (f : A -> Chain B) (l : list A) : Chain (list B) :=
  match l with
  | [] => Ok []
  | a :: l => b ← f a; bs ← collect_map f l; Ok (b :: bs)
  end.

(** One edge, read and pushed on the adjacency list of its source. *)
Definition turn_edge (node_names : gset text) (edge : Value) : Chain (text * text) :=
  ends ← ok_or binding_mismatch (option_filter (fun ends => lenN ends =? 2) (as_array edge));
  from ← ok_or binding_mismatch (ends !! 0%nat ≫= as_str);
  to ← ok_or binding_mismatch (ends !! 1%nat ≫= as_str);
  reject (from == to) || negb (bool_decide (from ∈ node_names)) || negb (bool_decide (to ∈ node_names))
    with binding_mismatch;
  Ok (from, to).

Definition push_edge (edge : text * text) (adjacency : gmap text (list text)) : gmap text (list text) :=
  alter (fun children => children ++ [edge.2]) edge.1 adjacency.

Fixpoint turn_adjacency (node_names : gset text) (edges : list Value)
    (adjacency : gmap text (list text)) : Chain (gmap text (list text)) :=
  match edges with
  | [] => Ok adjacency
  | edge :: edges =>
      edge ← turn_edge node_names edge;
      turn_adjacency node_names edges (push_edge edge adjacency)
  end.

Section visit.
Context (adjacency : gmap text (list text)).

(** [any(|node| !visit(...))] over a list: [Some None] is the first refusal, which
    ends the search, [None] is running out of fuel. *)
Fixpoint visit_all (visit : text -> gset text -> gset text -> option (option (gset text * gset text)))
    (nodes : list text) (visiting visited : gset text) : option (option (gset text * gset text)) :=
  match nodes with
  | [] => Some (Some (visiting, visited))
  | node :: nodes =>
      match visit node visiting visited with
      | Some (Some (visiting, visited)) => visit_all visit nodes visiting visited
      | stopped => stopped
      end
  end.

Fixpoint visit (fuel : nat) (node : text) (visiting visited : gset text) :
    option (option (gset text * gset text)) :=
  match fuel with
  | O => None
  | S fuel =>
      if bool_decide (node ∈ visited) then Some (Some (visiting, visited))
      else if bool_decide (node ∈ visiting) then Some None
      else
        match visit_all (visit fuel) (default [] (adjacency !! node)) ({[node]} ∪ visiting) visited with
        | Some (Some (visiting, visited)) => Some (Some (visiting ∖ {[node]}, {[node]} ∪ visited))
        | stopped => stopped
        end
  end.
End visit.

Definition visit_fuel (node_names : gset text) : nat := S (size node_names).

(** No call of [visit] refuses. *)
Definition turn_is_acyclic (node_names : gset text) (adjacency : gmap text (list text)) : bool :=
  match visit_all (visit adjacency (visit_fuel node_names)) (btree_elements node_names) ∅ ∅ with
  | Some (Some _) => true
  | _ => false
  end.

Definition expected_mode (node_names : gset text) (edges : list Value) : Chain text :=
  let response := bool_decide (txt "response" ∈ node_names) in
  let action := bool_decide (txt "action" ∈ node_names) in
  let action_first := Arr [Str (txt "action"); Str (txt "response")] in
  let response_first := Arr [Str (txt "response"); Str (txt "action")] in
  if response && negb action then Ok (txt "respond_only")
  else if response && action && (edges == [action_first]) then Ok (txt "act_then_respond")
  else if response && action && (edges == [response_first]) then Ok (txt "respond_then_act")
  else Err binding_mismatch.

Definition turn_node (node : Value) : Chain text :=
  ok_or binding_mismatch (option_filter (fun node => negb (is_nil node)) (as_str node)).

Definition validate_turn_candidate (payload : Value) : Chain unit :=
  mode ← required_payload_string payload (txt "mode");
  nodes ← ok_or binding_mismatch (get (txt "nodes") payload ≫= as_array);
  names ← collect_map turn_node nodes;
  let node_names : gset text := list_to_set names in
  reject negb (N.of_nat (size node_names) =? lenN nodes) || bool_decide (node_names = ∅)
    with binding_mismatch;
  edges ← ok_or binding_mismatch (get (txt "edges") payload ≫= as_array);
  adjacency ← turn_adjacency node_names edges (gset_to_gmap [] node_names);
  reject negb (turn_is_acyclic node_names adjacency) with binding_mismatch;
  expected ← expected_mode node_names edges;
  if mode == expected then Ok tt else Err binding_mismatch.

(** ** The human model *)

Definition evidence_root (value : Value) : Chain text :=
  ok_or binding_mismatch (option_filter is_reference (as_str value)).

Definition validate_human_model_candidate (payload : Value) : Chain unit :=
  predicate ← required_payload_string payload (txt "predicate");
  scope ← required_payload_string payload (txt "scope_ref");
  _ ← required_payload_digest payload (txt "value_digest");
  evidence ← ok_or binding_mismatch (get (txt "evidence_refs") payload ≫= as_array);
  roots ← collect_map evidence_root evidence;
  usages ← ok_or binding_mismatch
             (option_filter (fun values => negb (is_nil values))
               (get (txt "allowed_purposes") payload ≫= as_array));
  _ ← ok_or binding_mismatch
        (option_filter (fun value => value <=? 10000)
          (get (txt "maximum_impact_basis_points") payload ≫= value_as_u64));
  reject is_nil predicate || negb (is_reference scope)
         || bool_decide ((list_to_set roots : gset text) = ∅)
         || existsb (fun usage => match as_str usage with
                                  | Some usage => negb (is_reference usage)
                                  | None => true end) usages
    with binding_mismatch;
  Ok tt.

Definition validate_human_model_promotion (payload : Value) (candidate_digest : text)
    (source_candidate : Value) : Chain text :=
  claimed ← required_payload_string payload (txt "candidate_digest");
  reject claimed != candidate_digest with binding_mismatch;
  outcome ← required_payload_string payload (txt "outcome");
  let claimed_evidence_count :=
    default 0 (get (txt "independent_evidence_count") payload ≫= value_as_u64) in
  evidence ← ok_or binding_mismatch (get (txt "evidence_refs") source_candidate ≫= as_array);
  roots ← collect_map evidence_root evidence;
  let independent_evidence_count := N.of_nat (size (list_to_set roots : gset text)) in
  reject claimed_evidence_count != independent_evidence_count with binding_mismatch;
  let valid :=
    if (outcome == txt "keep_session") || (outcome == txt "store_candidate")
       || (outcome == txt "reject") then true
    else if outcome == txt "promote_provisional" then 2 <=? independent_evidence_count
    else (outcome == txt "promote_user_confirmed") || (outcome == txt "promote_outcome_supported") in
  if valid then Ok outcome else Err binding_mismatch.

Definition validate_human_model_assertion_request (payload : Value) (source_candidate_digest : text) :
    Chain unit :=
  object ← ok_or binding_mismatch (as_object payload);
  reject negb (lenN object =? 1)
         || negb (existsb (fun f => f.1 == txt "source_candidate_digest") object)
    with binding_mismatch;
  claimed ← required_payload_string payload (txt "source_candidate_digest");
  reject claimed != source_candidate_digest with binding_mismatch;
  Ok tt.

Definition validate_human_model_correction (payload : Value) : Chain unit :=
  lifecycle_state ← required_payload_string payload (txt "lifecycle_state");
  if (lifecycle_state == txt "corrected") || (lifecycle_state == txt "rejected")
     || (lifecycle_state == txt "deleted")
  then validate_human_model_candidate payload
  else Err binding_mismatch.

(** ** Receipts, outcomes and references to records *)

Section with_crates.
Context {C : Crates}.

Definition validate_execution_receipt_candidate (payload : Value) (permit_id : Uuid)
    (provider_ref : ReferenceV1.t) (dispatch_nonce : text) (attempt : N)
    (action_was_invalidated : bool) (expected_request_digest : text) : Chain unit :=
  payload_permit ← required_payload_string payload (txt "permit_id");
  payload_provider ← required_payload_string payload (txt "provider_ref");
  payload_dispatch_nonce ← required_payload_string payload (txt "dispatch_nonce");
  payload_attempt ← ok_or binding_mismatch
    (option_filter (fun attempt => attempt <=? u32_max) (get (txt "attempt") payload ≫= value_as_u64));
  payload_invalidated ← ok_or binding_mismatch (get (txt "action_was_invalidated") payload ≫= as_bool);
  request_digest ← required_payload_digest payload (txt "request_digest");
  _ ← required_payload_digest payload (txt "result_digest");
  _ ← receipt_terminal_state payload;
  if (payload_permit == uuid_hyphenated permit_id)
     && (payload_provider == ReferenceV1.as_str provider_ref)
     && (payload_dispatch_nonce == dispatch_nonce) && (payload_attempt =? attempt)
     && (payload_invalidated == action_was_invalidated)
     && (request_digest == expected_request_digest)
  then Ok tt else Err binding_mismatch.

Definition validate_outcome_candidate (payload : Value) (receipt_record_digest : text) : Chain unit :=
  claimed ← required_payload_string payload (txt "receipt_record_digest");
  reject claimed != receipt_record_digest with binding_mismatch;
  _ ← required_payload_digest payload (txt "observed_value_digest");
  _ ← required_payload_string payload (txt "observation");
  Ok tt.

Context {P : UuidParser}.

Definition require_exact_record_payload (payload : Value) (prefix : text)
    (expected : AuthoritativeRecordRefV1.t) : Chain unit :=
  record_id ← (value ← required_payload_string payload (prefix ++ txt "_record_id");
               ok_or binding_mismatch (parse_uuid value));
  revision ← ok_or binding_mismatch (get (prefix ++ txt "_revision") payload ≫= value_as_u64);
  digest ← required_payload_digest payload (prefix ++ txt "_record_digest");
  if (record_id == AuthoritativeRecordRefV1.record_id expected)
     && (revision =? AuthoritativeRecordRefV1.revision expected)
     && (digest == AuthoritativeRecordRefV1.record_digest expected)
  then Ok tt else Err binding_mismatch.
End with_crates.
