(* ===== verification/ChainTransition.v ===== *)
(** * ChainTransition: the transition of a run ([idr-runtime/src/trust_chain.rs])

    Issuing authoritative records, the guards a command must pass, and
    [evaluate_authoritative_transition_v1] with one definition per command.
    Branches under [#[cfg(test)]] are not part of the program.  The identifiers
    [Uuid::new_v4()] draws are the argument [minted]; an error discards the
    projection, so the assignments made before it need no undoing. *)

From stdpp Require Import base list gmap fin_sets countable sorting strings.
From Stdlib Require Import NArith ZArith Lia.
From S2P Require Import Prelude Text Json Crates CanonicalJson Common Production ChainData ChainCommand ChainPayload.

(** ** Authoritative records *)

Section records.
Context {C : Crates}.

Definition proof_ids_of (proofs : list VerifiedProductionProofV1.t) : list Uuid := map VerifiedProductionProofV1.proof_id proofs.

Definition digest_record (material : AuthoritativeRecordDigestMaterialV1.t) : Chain text :=
  map_err IdrRuntimeErrorV1.Protocol (canonical_digest_v1 "idr-authoritative-record-v1" (Json.to_json material)).

Definition issue_record (candidate : CandidateSubmissionV1.t) (command : IdrCommandEnvelopeV1.t)
    (trusted_now : N) (proofs : list VerifiedProductionProofV1.t) (trust_domain : TrustDomainV1.t) (record_id : Uuid)
    (revision : N) : Chain AuthoritativeRecordV1.t :=
  _ ← map_err IdrRuntimeErrorV1.Protocol (CandidateSubmissionV1.validate candidate);
  reject (trusted_now <? CandidateSubmissionV1.valid_from candidate) || (CandidateSubmissionV1.valid_until candidate <=? trusted_now)
    with IdrRuntimeErrorV1.ExpiredAuthority;
  candidate_digest ← map_err IdrRuntimeErrorV1.Protocol (CandidateSubmissionV1.canonical_digest candidate);
  let proof_ids := proof_ids_of proofs in
  record_digest ← digest_record
    (AuthoritativeRecordDigestMaterialV1.mk record_id revision (CandidateSubmissionV1.candidate_kind candidate)
      trust_domain (IdrCommandEnvelopeV1.environment_ref command) (CandidateSubmissionV1.valid_from candidate)
      (CandidateSubmissionV1.valid_until candidate) (CandidateSubmissionV1.run_id candidate) (CandidateSubmissionV1.turn_id candidate)
      (CandidateSubmissionV1.tenant_ref candidate) (CandidateSubmissionV1.subject_ref candidate) (CandidateSubmissionV1.policy_revision_ref candidate)
      (CandidateSubmissionV1.candidate_id candidate) candidate_digest (CandidateSubmissionV1.payload candidate)
      (IdrCommandEnvelopeV1.command_id command) trusted_now proof_ids);
  Ok (AuthoritativeRecordV1.mk
    (AuthoritativeRecordRefV1.mk record_id revision (CandidateSubmissionV1.candidate_kind candidate) trust_domain
      (IdrCommandEnvelopeV1.environment_ref command) (CandidateSubmissionV1.valid_from candidate) (CandidateSubmissionV1.valid_until candidate)
      record_digest)
    trust_domain (IdrCommandEnvelopeV1.environment_ref command) (CandidateSubmissionV1.run_id candidate) (CandidateSubmissionV1.turn_id candidate)
    (CandidateSubmissionV1.tenant_ref candidate) (CandidateSubmissionV1.subject_ref candidate) (CandidateSubmissionV1.policy_revision_ref candidate)
    (CandidateSubmissionV1.candidate_id candidate) candidate_digest (CandidateSubmissionV1.payload candidate)
    (IdrCommandEnvelopeV1.command_id command) trusted_now (CandidateSubmissionV1.valid_from candidate) (CandidateSubmissionV1.valid_until candidate)
    proof_ids).

Definition issue_internal_record (minted : Minted.t) (candidate_kind : CandidateKindV1.t)
    (payload : Value) (command : IdrCommandEnvelopeV1.t) (projection : IdrRunProjectionV1.t) (trusted_now valid_until : N)
    (proofs : list VerifiedProductionProofV1.t) (record_id : Uuid) (revision : N) : Chain AuthoritativeRecordV1.t :=
  reject valid_until <=? trusted_now with IdrRuntimeErrorV1.ExpiredAuthority;
  subject_ref ← ok_or IdrRuntimeErrorV1.MissingDependency (IdrRunProjectionV1.subject_ref projection);
  turn_id ← ok_or IdrRuntimeErrorV1.MissingDependency (IdrRunProjectionV1.turn_id projection);
  let candidate_id := Minted.candidate_id minted in
  candidate_digest ← map_err IdrRuntimeErrorV1.Protocol (canonical_digest_v1 "idr-internal-candidate-v1"
    (Arr [Json.to_json candidate_id; Json.to_json candidate_kind;
          Json.to_json (IdrRunProjectionV1.run_id projection); Json.to_json turn_id; Json.to_json subject_ref;
          Json.to_json (IdrCommandEnvelopeV1.tenant_ref command); Json.to_json (IdrCommandEnvelopeV1.scope_ref command);
          Json.to_json (IdrCommandEnvelopeV1.purpose_ref command); Json.to_json (IdrCommandEnvelopeV1.policy_revision_ref command);
          payload]));
  let proof_ids := proof_ids_of proofs in
  record_digest ← digest_record
    (AuthoritativeRecordDigestMaterialV1.mk record_id revision candidate_kind
      (IdrRunProjectionV1.trust_domain projection) (IdrRunProjectionV1.environment_ref projection) trusted_now valid_until
      (IdrRunProjectionV1.run_id projection) turn_id (IdrCommandEnvelopeV1.tenant_ref command) subject_ref
      (IdrCommandEnvelopeV1.policy_revision_ref command) candidate_id candidate_digest payload
      (IdrCommandEnvelopeV1.command_id command) trusted_now proof_ids);
  Ok (AuthoritativeRecordV1.mk
    (AuthoritativeRecordRefV1.mk record_id revision candidate_kind (IdrRunProjectionV1.trust_domain projection)
      (IdrRunProjectionV1.environment_ref projection) trusted_now valid_until record_digest)
    (IdrRunProjectionV1.trust_domain projection) (IdrRunProjectionV1.environment_ref projection) (IdrRunProjectionV1.run_id projection) turn_id
    (IdrCommandEnvelopeV1.tenant_ref command) subject_ref (IdrCommandEnvelopeV1.policy_revision_ref command) candidate_id
    candidate_digest payload (IdrCommandEnvelopeV1.command_id command) trusted_now trusted_now valid_until proof_ids).

(** The material a stored record was digested from. *)
Definition material_of (stored : AuthoritativeRecordV1.t) : AuthoritativeRecordDigestMaterialV1.t :=
  let record_ref := AuthoritativeRecordV1.record_ref stored in
  AuthoritativeRecordDigestMaterialV1.mk (AuthoritativeRecordRefV1.record_id record_ref) (AuthoritativeRecordRefV1.revision record_ref)
    (AuthoritativeRecordRefV1.candidate_kind record_ref) (AuthoritativeRecordV1.trust_domain stored)
    (AuthoritativeRecordV1.environment_ref stored) (AuthoritativeRecordV1.valid_from stored)
    (AuthoritativeRecordV1.valid_until stored) (AuthoritativeRecordV1.run_id stored)
    (AuthoritativeRecordV1.turn_id stored) (AuthoritativeRecordV1.tenant_ref stored)
    (AuthoritativeRecordV1.subject_ref stored) (AuthoritativeRecordV1.policy_revision_ref stored)
    (AuthoritativeRecordV1.candidate_id stored) (AuthoritativeRecordV1.candidate_digest stored)
    (AuthoritativeRecordV1.payload stored) (AuthoritativeRecordV1.issued_by_command_id stored)
    (AuthoritativeRecordV1.issued_at stored) (AuthoritativeRecordV1.proof_ids stored).

(** [from_value] is [serde_json::from_value::<StoredAuthoritativeRecordV1>]; the
    stored record has the fields of the issued one. *)
Definition verify_authoritative_record_value_v1 (from_value : Value -> option AuthoritativeRecordV1.t)
    (value : Value) : Chain AuthoritativeRecordRefV1.t :=
  stored ← ok_or IdrRuntimeErrorV1.IntegrityViolation (from_value value);
  let record_ref := AuthoritativeRecordV1.record_ref stored in
  reject (AuthoritativeRecordRefV1.trust_domain record_ref != AuthoritativeRecordV1.trust_domain stored)
         || (AuthoritativeRecordRefV1.environment_ref record_ref != AuthoritativeRecordV1.environment_ref stored)
         || (AuthoritativeRecordRefV1.valid_from record_ref != AuthoritativeRecordV1.valid_from stored)
         || (AuthoritativeRecordRefV1.valid_until record_ref != AuthoritativeRecordV1.valid_until stored)
         || (AuthoritativeRecordV1.valid_from stored =? 0)
         || (AuthoritativeRecordV1.valid_until stored <=? AuthoritativeRecordV1.valid_from stored)
         || (AuthoritativeRecordV1.issued_at stored <? AuthoritativeRecordV1.valid_from stored)
         || (AuthoritativeRecordV1.valid_until stored <=? AuthoritativeRecordV1.issued_at stored)
         || negb (valid_digest (AuthoritativeRecordV1.candidate_digest stored))
    with IdrRuntimeErrorV1.IntegrityViolation;
  expected_digest ← digest_record (material_of stored);
  reject expected_digest != AuthoritativeRecordRefV1.record_digest record_ref with IdrRuntimeErrorV1.IntegrityViolation;
  Ok record_ref.
End records.

(** ** Guards *)

Definition require_state (current : IdrRunStateV1.t) (allowed : list IdrRunStateV1.t) : Chain unit :=
  if contains current allowed then Ok tt else Err IdrRuntimeErrorV1.InvalidRunTransition.

Definition require_caller (command : IdrCommandEnvelopeV1.t) (expected_identity : ReferenceV1.t) : Chain unit :=
  if IdrCommandEnvelopeV1.caller_ref command == expected_identity then Ok tt else Err IdrRuntimeErrorV1.PrincipalMismatch.

Definition verified_proof_binding (proofs : list VerifiedProductionProofV1.t) (proof_kind : ProductionProofKindV1.t)
    (trust_domain : TrustDomainV1.t) : Chain (Uuid * N) :=
  match find_first (fun proof => (VerifiedProductionProofV1.proof_kind proof == proof_kind)
                                 && (VerifiedProductionProofV1.trust_domain proof == trust_domain)) proofs with
  | Some proof => Ok (VerifiedProductionProofV1.proof_id proof, VerifiedProductionProofV1.expires_at proof)
  | None => Err IdrRuntimeErrorV1.MissingRequiredProof
  end.

Definition ACTION_ADMISSION_PROOF_KINDS_V1 : list ProductionProofKindV1.t :=
  [ProductionProofKindV1.Capability; ProductionProofKindV1.Authority; ProductionProofKindV1.Policy;
   ProductionProofKindV1.ExactAuthorization; ProductionProofKindV1.ActionAdmission].

Definition verified_action_admission_proof_bindings (proofs : list VerifiedProductionProofV1.t)
    (trust_domain : TrustDomainV1.t) :
    Chain (gmap ProductionProofKindV1.t ActionAdmissionProofBindingV1.t) :=
  bindings ← collect_map (fun proof_kind =>
      binding ← verified_proof_binding proofs proof_kind trust_domain;
      Ok (proof_kind, ActionAdmissionProofBindingV1.mk binding.1 binding.2))
    ACTION_ADMISSION_PROOF_KINDS_V1;
  Ok (list_to_map bindings).

Section command_state.
Import IdrCommandV1.
Definition command_allowed (current : IdrRunStateV1.t) (command : IdrCommandV1.t) : bool :=
  match command with
  | StartRun _ => contains current [IdrRunStateV1.Pending]
  | CommitExecutionReceipt _ _ _ _ _ _ | ReconcileExecution _ _ | ExpireExecutionLease _ =>
      contains current [IdrRunStateV1.Running; IdrRunStateV1.ReconciliationRequired;
                        IdrRunStateV1.Invalidated]
  | RecordOutcome _ | ProposeHumanModelCandidate _ | RecordHumanModelPromotion _ _
  | PromoteHumanModelAssertion _ _ | CorrectHumanModelAssertion _ _ =>
      contains current [IdrRunStateV1.Running; IdrRunStateV1.ReconciliationRequired;
                        IdrRunStateV1.Invalidated; IdrRunStateV1.Succeeded; IdrRunStateV1.Rejected;
                        IdrRunStateV1.Failed]
  | CancelRun _ =>
      contains current [IdrRunStateV1.Running; IdrRunStateV1.WaitingInput;
                        IdrRunStateV1.WaitingAuthorization; IdrRunStateV1.WaitingDependency;
                        IdrRunStateV1.ReconciliationRequired; IdrRunStateV1.Invalidated]
  | _ =>
      contains current [IdrRunStateV1.Running; IdrRunStateV1.WaitingInput;
                        IdrRunStateV1.WaitingAuthorization; IdrRunStateV1.WaitingDependency]
  end.
End command_state.

Definition require_command_state (current : IdrRunStateV1.t) (command : IdrCommandV1.t) : Chain unit :=
  if command_allowed current command then Ok tt else Err IdrRuntimeErrorV1.InvalidRunTransition.

Definition require_record_at (projection : IdrRunProjectionV1.t) (kind : CandidateKindV1.t) (trusted_now : N) :
    Chain unit :=
  match IdrRunProjectionV1.records projection !! kind with
  | Some record =>
      if (AuthoritativeRecordRefV1.valid_from record <=? trusted_now) && (trusted_now <? AuthoritativeRecordRefV1.valid_until record)
         && negb (bool_decide (record ∈ IdrRunProjectionV1.invalidated_records projection))
      then Ok tt else Err IdrRuntimeErrorV1.MissingDependency
  | None => Err IdrRuntimeErrorV1.MissingDependency
  end.

Definition require_no_record (projection : IdrRunProjectionV1.t) (kind : CandidateKindV1.t) : Chain unit :=
  if is_some (IdrRunProjectionV1.records projection !! kind) then Err IdrRuntimeErrorV1.InvalidRunTransition else Ok tt.

Definition require_exact_current_record_at (projection : IdrRunProjectionV1.t) (expected : AuthoritativeRecordRefV1.t)
    (trusted_now : N) : Chain unit :=
  if (IdrRunProjectionV1.records projection !! AuthoritativeRecordRefV1.candidate_kind expected == Some expected)
     && (AuthoritativeRecordRefV1.trust_domain expected == IdrRunProjectionV1.trust_domain projection)
     && (AuthoritativeRecordRefV1.valid_from expected <=? trusted_now) && (trusted_now <? AuthoritativeRecordRefV1.valid_until expected)
     && negb (bool_decide (expected ∈ IdrRunProjectionV1.invalidated_records projection))
  then Ok tt else Err IdrRuntimeErrorV1.MissingDependency.

Definition checked_add (a b : N) : option N := if a + b <=? u64_max then Some (a + b) else None.

Definition require_historical_evidence_record (projection : IdrRunProjectionV1.t) (expected : AuthoritativeRecordRefV1.t)
    (trusted_now maximum_delay_seconds : N) : Chain unit :=
  observation_deadline ← ok_or IdrRuntimeErrorV1.ExpiredAuthority
                           (checked_add (AuthoritativeRecordRefV1.valid_until expected) maximum_delay_seconds);
  if (IdrRunProjectionV1.records projection !! AuthoritativeRecordRefV1.candidate_kind expected == Some expected)
     && (AuthoritativeRecordRefV1.trust_domain expected == IdrRunProjectionV1.trust_domain projection)
     && (AuthoritativeRecordRefV1.valid_from expected <=? trusted_now) && (trusted_now <? observation_deadline)
     && negb (bool_decide (expected ∈ IdrRunProjectionV1.invalidated_records projection))
  then Ok tt else Err IdrRuntimeErrorV1.MissingDependency.

Definition require_exact_governance_target (projection : IdrRunProjectionV1.t) (expected : AuthoritativeRecordRefV1.t) : Chain unit :=
  if (IdrRunProjectionV1.records projection !! AuthoritativeRecordRefV1.candidate_kind expected == Some expected)
     && (AuthoritativeRecordRefV1.trust_domain expected == IdrRunProjectionV1.trust_domain projection)
     && negb (bool_decide (expected ∈ IdrRunProjectionV1.invalidated_records projection))
  then Ok tt else Err IdrRuntimeErrorV1.MissingDependency.

Definition next_revision (projection : IdrRunProjectionV1.t) (kind : CandidateKindV1.t) : Chain N :=
  match IdrRunProjectionV1.records projection !! kind with
  | Some record => ok_or IdrRuntimeErrorV1.AggregateVersionConflict (checked_succ u64_max (AuthoritativeRecordRefV1.revision record))
  | None => Ok 1
  end.

Definition record_id_for (minted : Minted.t) (projection : IdrRunProjectionV1.t) (kind : CandidateKindV1.t) : Uuid :=
  match IdrRunProjectionV1.records projection !! kind with
  | Some record => AuthoritativeRecordRefV1.record_id record
  | None => Minted.record_id minted
  end.

Definition is_current_execution (reservation_id permit_id : Uuid) (execution : ExecutionProjectionV1.t) : bool :=
  (ExecutionProjectionV1.reservation_id execution == reservation_id) && (ExecutionProjectionV1.permit_id execution == permit_id).

Definition current_execution (projection : IdrRunProjectionV1.t) (reservation_id permit_id : Uuid) : Chain ExecutionProjectionV1.t :=
  ok_or IdrRuntimeErrorV1.InvalidExecutionTransition
    (option_filter (is_current_execution reservation_id permit_id) (IdrRunProjectionV1.execution projection)).

(** [projection.execution.as_mut().filter(...)] of the commands that name a reservation only *)
Definition reserved_execution (projection : IdrRunProjectionV1.t) (reservation_id : Uuid) : Chain ExecutionProjectionV1.t :=
  ok_or IdrRuntimeErrorV1.InvalidExecutionTransition
    (option_filter (fun execution => ExecutionProjectionV1.reservation_id execution == reservation_id)
      (IdrRunProjectionV1.execution projection)).

Definition set_execution_state (state : ExecutionAggregateStateV1.t) (projection : IdrRunProjectionV1.t) : IdrRunProjectionV1.t :=
  IdrRunProjectionV1.with_execution (ExecutionProjectionV1.with_state state <$> IdrRunProjectionV1.execution projection) projection.

Definition execution_authority_expired (execution : ExecutionProjectionV1.t) (trusted_now : N) : bool :=
  (ExecutionProjectionV1.lease_until execution <=? trusted_now) || (ExecutionProjectionV1.action_valid_until execution <=? trusted_now)
  || (ExecutionProjectionV1.admission_valid_until execution <=? trusted_now)
  || (ExecutionProjectionV1.authorization_valid_until execution <=? trusted_now)
  || (ExecutionProjectionV1.permit_valid_until execution <=? trusted_now).

Definition in_flight (state : ExecutionAggregateStateV1.t) : bool :=
  contains state [ExecutionAggregateStateV1.DispatchStarted; ExecutionAggregateStateV1.AwaitingProvider].

(** The state of an execution whose authority is gone. *)
Definition revoked_state (state : ExecutionAggregateStateV1.t) : ExecutionAggregateStateV1.t :=
  if in_flight state then ExecutionAggregateStateV1.ReconciliationRequired
  else ExecutionAggregateStateV1.Cancelled.

(** The updated projection, and whether the authority is current. *)
Definition ensure_current_execution_action (projection : IdrRunProjectionV1.t) (reservation_id permit_id : Uuid)
    (trusted_now : N) : Chain (IdrRunProjectionV1.t * bool) :=
  execution ← current_execution projection reservation_id permit_id;
  let action_ref := ExecutionProjectionV1.action_ref execution in
  let authority_is_current :=
    (IdrRunProjectionV1.records projection !! CandidateKindV1.Action == Some action_ref)
    && negb (bool_decide (action_ref ∈ IdrRunProjectionV1.invalidated_records projection))
    && negb (execution_authority_expired execution trusted_now) in
  if authority_is_current then Ok (projection, true)
  else Ok (set_execution_state (revoked_state (ExecutionProjectionV1.state execution)) projection, false).

Definition require_execution_state (execution : ExecutionProjectionV1.t) (expected : ExecutionAggregateStateV1.t) :
    Chain unit :=
  if ExecutionProjectionV1.state execution == expected then Ok tt else Err IdrRuntimeErrorV1.InvalidExecutionTransition.

(** [Iterator::min] *)
Definition minimum (ns : list N) : option N :=
  match ns with [] => None | n :: ns => Some (foldl N.min n ns) end.

(** The key of a map entry. *)
Definition json_key (v : Value) : text := match v with Str t => t | _ => [] end.

Definition proof_bindings_json {C : Crates}
    (bindings : gmap ProductionProofKindV1.t ActionAdmissionProofBindingV1.t) : Value :=
  Obj (map (fun entry : ProductionProofKindV1.t * ActionAdmissionProofBindingV1.t =>
    (json_key (Json.to_json entry.1), Json.to_json entry.2)) (map_to_list bindings)).

(** [Map::insert] *)
Definition map_insert (key : text) (value : Value) (fields : list (text * Value)) : list (text * Value) :=
  sort_entries id ((key, value) :: filter (fun f => f.1 <> key) fields).
