(* ===== verification/ChainEvaluate.v ===== *)
(** * ChainEvaluate: one definition per command ([idr-runtime/src/trust_chain.rs])

    The arms of [evaluate_authoritative_transition_v1] and the function itself.
    An arm returns the projection, the record it issued and the event's type. *)

From stdpp Require Import base list gmap fin_sets countable sorting strings.
From Stdlib Require Import NArith ZArith Lia.
From S2P Require Import Prelude Text Json Crates CanonicalJson Common Production ChainData ChainCommand ChainPayload ChainTransition.

Notation Arm := (Chain (IdrRunProjectionV1.t * option AuthoritativeRecordV1.t * string)) (only parsing).

(** [if let Some(execution) = &mut projection.execution { if !execution.state.is_terminal() ... }] *)
Definition revoke_unless_terminal (projection : IdrRunProjectionV1.t) : IdrRunProjectionV1.t :=
  match IdrRunProjectionV1.execution projection with
  | Some execution =>
      if ExecutionAggregateStateV1.is_terminal (ExecutionProjectionV1.state execution) then projection
      else set_execution_state (revoked_state (ExecutionProjectionV1.state execution)) projection
  | None => projection
  end.

(** The retry rule of [ReserveExecution]: the identifier of the reservation. *)
Definition reservation_for (minted : Minted.t) (projection : IdrRunProjectionV1.t) (action_ref : AuthoritativeRecordRefV1.t)
    (idempotency_key : text) (attempt : N) : Chain Uuid :=
  match IdrRunProjectionV1.execution projection with
  | Some execution =>
      if ExecutionProjectionV1.action_ref execution == action_ref then
        reject negb (contains (ExecutionProjectionV1.state execution) [ExecutionAggregateStateV1.Failed; ExecutionAggregateStateV1.Rejected; ExecutionAggregateStateV1.Expired])
               || (Some attempt != checked_succ u32_max (ExecutionProjectionV1.attempt execution))
               || (ExecutionProjectionV1.idempotency_key execution != idempotency_key)
          with IdrRuntimeErrorV1.ExecutionAlreadyReserved;
        Ok (ExecutionProjectionV1.reservation_id execution)
      else
        reject (ExecutionProjectionV1.state execution != ExecutionAggregateStateV1.Cancelled) || negb (attempt =? 1)
          with IdrRuntimeErrorV1.ExecutionAlreadyReserved;
        Ok (Minted.reservation_id minted)
  | None =>
      reject negb (attempt =? 1) with IdrRuntimeErrorV1.InvalidExecutionTransition;
      Ok (Minted.reservation_id minted)
  end.

Definition lifecycle_state_of (outcome : text) : Chain text :=
  if outcome == txt "promote_provisional" then Ok (txt "provisional")
  else if outcome == txt "promote_user_confirmed" then Ok (txt "user_confirmed")
  else if outcome == txt "promote_outcome_supported" then Ok (txt "outcome_supported")
  else Err IdrRuntimeErrorV1.BindingMismatch.

Definition is_promotion (outcome : text) : bool :=
  contains outcome [txt "promote_provisional"; txt "promote_user_confirmed";
                    txt "promote_outcome_supported"].

Section arms.
Context {C : Crates} {P : UuidParser}.
Context (minted : Minted.t) (command : IdrCommandEnvelopeV1.t) (trusted_now : N) (proofs : list VerifiedProductionProofV1.t).

(** [issue_record] of a candidate of this kind, under the run's next revision. *)
Definition issue_next (projection : IdrRunProjectionV1.t) (kind : CandidateKindV1.t) (candidate : CandidateSubmissionV1.t) : Chain AuthoritativeRecordV1.t :=
  revision ← next_revision projection kind;
  issue_record candidate command trusted_now proofs (IdrRunProjectionV1.trust_domain projection)
    (record_id_for minted projection kind) revision.

Definition start_run (projection : IdrRunProjectionV1.t) (input : CandidateSubmissionV1.t) : Arm :=
  _ ← require_state (IdrRunProjectionV1.state projection) [IdrRunStateV1.Pending];
  _ ← require_no_record projection CandidateKindV1.CanonicalInput;
  let projection := IdrRunProjectionV1.with_state IdrRunStateV1.Running projection in
  let projection := IdrRunProjectionV1.with_subject_ref (Some (CandidateSubmissionV1.subject_ref input)) projection in
  let projection := IdrRunProjectionV1.with_turn_id (Some (CandidateSubmissionV1.turn_id input)) projection in
  record ← issue_record input command trusted_now proofs (IdrRunProjectionV1.trust_domain projection)
             (record_id_for minted projection CandidateKindV1.CanonicalInput) 1;
  Ok (projection, Some record, "input_admitted"%string).

Definition record_context (projection : IdrRunProjectionV1.t) (context : CandidateSubmissionV1.t) : Arm :=
  _ ← require_record_at projection CandidateKindV1.CanonicalInput trusted_now;
  record ← issue_next projection CandidateKindV1.ContextSnapshot context;
  Ok (projection, Some record, "context_snapshotted"%string).

Definition record_intent (projection : IdrRunProjectionV1.t) (intent : CandidateSubmissionV1.t) : Arm :=
  _ ← require_record_at projection CandidateKindV1.ContextSnapshot trusted_now;
  if get_str "fast_path_outcome" (CandidateSubmissionV1.payload intent) == Some (txt "block") then
    Ok (IdrRunProjectionV1.with_state IdrRunStateV1.Rejected projection, None, "intent_blocked"%string)
  else
    _ ← validate_intent_candidate (CandidateSubmissionV1.payload intent);
    record ← issue_next projection CandidateKindV1.Intent intent;
    Ok (projection, Some record, "intent_admitted"%string).

Definition record_decision (projection : IdrRunProjectionV1.t) (decision : CandidateSubmissionV1.t) : Arm :=
  _ ← require_record_at projection CandidateKindV1.Intent trusted_now;
  values ← decision_binding_values (CandidateSubmissionV1.payload decision);
  let '(selected_option_ref, operation_ref, parameter_digest) := values in
  record ← issue_next projection CandidateKindV1.Decision decision;
  let projection := IdrRunProjectionV1.with_decision_binding
    (Some (DecisionBindingProjectionV1.mk (AuthoritativeRecordV1.record_ref record) selected_option_ref operation_ref
      parameter_digest)) projection in
  Ok (projection, Some record, "decision_admitted"%string).

Definition record_turn (projection : IdrRunProjectionV1.t) (turn : CandidateSubmissionV1.t) : Arm :=
  _ ← require_record_at projection CandidateKindV1.Intent trusted_now;
  _ ← require_record_at projection CandidateKindV1.Decision trusted_now;
  _ ← validate_turn_candidate (CandidateSubmissionV1.payload turn);
  record ← issue_next projection CandidateKindV1.TurnCoordination turn;
  Ok (projection, Some record, "turn_admitted"%string).

Definition record_response (projection : IdrRunProjectionV1.t) (response : CandidateSubmissionV1.t) : Arm :=
  _ ← require_record_at projection CandidateKindV1.TurnCoordination trusted_now;
  rendered_content_digest ← required_payload_digest (CandidateSubmissionV1.payload response) (txt "rendered_content_digest");
  channel_ref ← (value ← required_payload_string (CandidateSubmissionV1.payload response) (txt "channel_ref"); reference value);
  audience_ref ← (value ← required_payload_string (CandidateSubmissionV1.payload response) (txt "audience_ref"); reference value);
  record ← issue_next projection CandidateKindV1.Response response;
  let projection := IdrRunProjectionV1.with_response_binding
    (Some (ResponseBindingProjectionV1.mk (AuthoritativeRecordV1.record_ref record) rendered_content_digest channel_ref
      audience_ref)) projection in
  Ok (projection, Some record, "response_recorded"%string).

Definition consume_response_send (projection : IdrRunProjectionV1.t) (response_ref : AuthoritativeRecordRefV1.t)
    (rendered_bytes : list N) (channel_ref audience_ref : ReferenceV1.t) (send_nonce : text) : Arm :=
  _ ← require_exact_current_record_at projection response_ref trusted_now;
  let rendered_digest := encode_hex (sha256 rendered_bytes) in
  binding ← ok_or IdrRuntimeErrorV1.MissingDependency (IdrRunProjectionV1.response_binding projection);
  reject (ResponseBindingProjectionV1.response_ref binding != response_ref)
         || (ResponseBindingProjectionV1.rendered_content_digest binding != rendered_digest)
         || (ResponseBindingProjectionV1.channel_ref binding != channel_ref)
         || (ResponseBindingProjectionV1.audience_ref binding != audience_ref)
    with IdrRuntimeErrorV1.BindingMismatch;
  reject bool_decide (send_nonce ∈ IdrRunProjectionV1.response_send_nonces projection) with IdrRuntimeErrorV1.ProofReplay;
  Ok (IdrRunProjectionV1.with_response_send_nonces ({[send_nonce]} ∪ IdrRunProjectionV1.response_send_nonces projection) projection,
      None, "response_send_permit_consumed"%string).

Definition record_action (projection : IdrRunProjectionV1.t) (action : CandidateSubmissionV1.t) : Arm :=
  _ ← require_record_at projection CandidateKindV1.TurnCoordination trusted_now;
  _ ← require_record_at projection CandidateKindV1.Decision trusted_now;
  values ← action_binding_values (CandidateSubmissionV1.payload action);
  let '(selected_option_ref, operation_ref, parameter_digest) := values in
  decision ← ok_or IdrRuntimeErrorV1.MissingDependency
    (option_filter (fun decision => IdrRunProjectionV1.records projection !! CandidateKindV1.Decision
                                    == Some (DecisionBindingProjectionV1.decision_ref decision))
      (IdrRunProjectionV1.decision_binding projection));
  reject (DecisionBindingProjectionV1.selected_option_ref decision != selected_option_ref)
         || (DecisionBindingProjectionV1.operation_ref decision != operation_ref)
         || (DecisionBindingProjectionV1.parameter_digest decision != parameter_digest)
    with IdrRuntimeErrorV1.ActionDerivationMismatch;
  record ← issue_next projection CandidateKindV1.Action action;
  request_digest ← map_err IdrRuntimeErrorV1.Protocol (canonical_digest_v1 "idr-execution-request-v1"
    (Arr [Json.to_json (AuthoritativeRecordV1.record_ref record); Json.to_json operation_ref; Json.to_json parameter_digest]));
  let projection := IdrRunProjectionV1.with_action_binding
    (Some (ActionBindingProjectionV1.mk (AuthoritativeRecordV1.record_ref record) selected_option_ref operation_ref
      parameter_digest request_digest)) projection in
  let projection := revoke_unless_terminal projection in
  Ok (IdrRunProjectionV1.with_action_admission None projection, Some record, "action_recorded"%string).

Definition admission_payload (action_ref : AuthoritativeRecordRefV1.t) (action_digest : text)
    (provider_ref owner_ref : ReferenceV1.t) (idempotency_key : text)
    (action_binding : ActionBindingProjectionV1.t)
    (proof_bindings : gmap ProductionProofKindV1.t ActionAdmissionProofBindingV1.t)
    (authorization : ActionAdmissionProofBindingV1.t) (admission_valid_until : N) : Value :=
  to_value (Obj
    [(txt "action_ref", Json.to_json action_ref); (txt "action_digest", Json.to_json action_digest);
     (txt "provider_ref", Json.to_json provider_ref); (txt "owner_ref", Json.to_json owner_ref);
     (txt "operation_ref", Json.to_json (ActionBindingProjectionV1.operation_ref action_binding));
     (txt "parameter_digest", Json.to_json (ActionBindingProjectionV1.parameter_digest action_binding));
     (txt "request_digest", Json.to_json (ActionBindingProjectionV1.request_digest action_binding));
     (txt "idempotency_key", Json.to_json idempotency_key); (txt "outcome", Str (txt "admit"));
     (txt "action_valid_from", Json.to_json (AuthoritativeRecordRefV1.valid_from action_ref));
     (txt "action_valid_until", Json.to_json (AuthoritativeRecordRefV1.valid_until action_ref));
     (txt "proof_bindings", proof_bindings_json proof_bindings);
     (txt "exact_authorization_proof_id", Json.to_json (ActionAdmissionProofBindingV1.proof_id authorization));
     (txt "authorization_valid_until", Json.to_json (ActionAdmissionProofBindingV1.valid_until authorization));
     (txt "admission_valid_from", Json.to_json trusted_now);
     (txt "admission_valid_until", Json.to_json admission_valid_until);
     (txt "trust_root_versions",
       Json.to_json (list_to_set (map VerifiedProductionProofV1.trust_root_version proofs) : gset N))]).

Definition admit_action (projection : IdrRunProjectionV1.t) (action_ref : AuthoritativeRecordRefV1.t) (action_digest : text)
    (provider_ref owner_ref : ReferenceV1.t) (idempotency_key : text) : Arm :=
  _ ← require_exact_current_record_at projection action_ref trusted_now;
  proof_bindings ← verified_action_admission_proof_bindings proofs (IdrRunProjectionV1.trust_domain projection);
  authorization ← ok_or IdrRuntimeErrorV1.MissingRequiredProof (proof_bindings !! ProductionProofKindV1.ExactAuthorization);
  let authorization_valid_until := ActionAdmissionProofBindingV1.valid_until authorization in
  admission_valid_until ← ok_or IdrRuntimeErrorV1.ExpiredAuthority
    (minimum (map VerifiedProductionProofV1.expires_at proofs ++ [AuthoritativeRecordRefV1.valid_until action_ref; authorization_valid_until]));
  reject (AuthoritativeRecordRefV1.record_digest action_ref != action_digest)
         || (trusted_now <? AuthoritativeRecordRefV1.valid_from action_ref) || (AuthoritativeRecordRefV1.valid_until action_ref <=? trusted_now)
         || (admission_valid_until <=? trusted_now) || is_nil idempotency_key
    with IdrRuntimeErrorV1.BindingMismatch;
  action_binding ← ok_or IdrRuntimeErrorV1.ActionDerivationMismatch
    (option_filter (fun binding => ActionBindingProjectionV1.action_ref binding == action_ref)
      (IdrRunProjectionV1.action_binding projection));
  revision ← next_revision projection CandidateKindV1.ActionAdmissionDecision;
  admission ← issue_internal_record minted CandidateKindV1.ActionAdmissionDecision
    (admission_payload action_ref action_digest provider_ref owner_ref idempotency_key action_binding
      proof_bindings authorization admission_valid_until)
    command projection trusted_now admission_valid_until proofs
    (record_id_for minted projection CandidateKindV1.ActionAdmissionDecision) revision;
  let projection := IdrRunProjectionV1.with_action_admission
    (Some (ActionAdmissionProjectionV1.mk (AuthoritativeRecordV1.record_ref admission) action_ref provider_ref owner_ref
      (ActionBindingProjectionV1.operation_ref action_binding)
      (ActionBindingProjectionV1.parameter_digest action_binding)
      (ActionBindingProjectionV1.request_digest action_binding) idempotency_key proof_bindings
      (ActionAdmissionProofBindingV1.proof_id authorization) authorization_valid_until
      admission_valid_until)) projection in
  Ok (projection, Some admission, "action_admitted"%string).

(** The guard of [ReserveExecution]. *)
Definition reservation_mismatch (admission : ActionAdmissionProjectionV1.t) (action_admission_ref action_ref : AuthoritativeRecordRefV1.t)
    (action_digest : text) (provider_ref owner_ref : ReferenceV1.t) (idempotency_key : text)
    (attempt lease_until permit_valid_until : N) : bool :=
  (AuthoritativeRecordRefV1.candidate_kind action_admission_ref != CandidateKindV1.ActionAdmissionDecision)
  || (ActionAdmissionProjectionV1.admission_ref admission != action_admission_ref) || (ActionAdmissionProjectionV1.action_ref admission != action_ref)
  || (ActionAdmissionProjectionV1.provider_ref admission != provider_ref) || (ActionAdmissionProjectionV1.owner_ref admission != owner_ref)
  || (ActionAdmissionProjectionV1.idempotency_key admission != idempotency_key)
  || (ActionAdmissionProjectionV1.valid_until admission != AuthoritativeRecordRefV1.valid_until action_admission_ref)
  || (AuthoritativeRecordRefV1.record_digest action_ref != action_digest)
  || (trusted_now <? AuthoritativeRecordRefV1.valid_from action_ref) || (trusted_now <? AuthoritativeRecordRefV1.valid_from action_admission_ref)
  || (AuthoritativeRecordRefV1.valid_until action_ref <=? trusted_now)
  || (AuthoritativeRecordRefV1.valid_until action_admission_ref <=? trusted_now)
  || (ActionAdmissionProjectionV1.authorization_valid_until admission <=? trusted_now) || (attempt =? 0)
  || (lease_until <=? trusted_now) || (permit_valid_until <? lease_until) || is_nil idempotency_key.

Definition reserve_execution (projection : IdrRunProjectionV1.t) (action_admission_ref action_ref : AuthoritativeRecordRefV1.t)
    (action_digest : text) (provider_ref owner_ref : ReferenceV1.t) (idempotency_key : text)
    (attempt lease_until : N) (dispatch_nonce : text) : Arm :=
  _ ← require_exact_current_record_at projection action_ref trusted_now;
  _ ← require_exact_current_record_at projection action_admission_ref trusted_now;
  _ ← require_caller command owner_ref;
  binding ← verified_proof_binding proofs ProductionProofKindV1.ExecutionPermit (IdrRunProjectionV1.trust_domain projection);
  admission ← ok_or IdrRuntimeErrorV1.ActionNotAdmitted (IdrRunProjectionV1.action_admission projection);
  permit_valid_until ← ok_or IdrRuntimeErrorV1.ExpiredAuthority
    (minimum [lease_until; AuthoritativeRecordRefV1.valid_until action_ref; AuthoritativeRecordRefV1.valid_until action_admission_ref;
              ActionAdmissionProjectionV1.authorization_valid_until admission; binding.2]);
  reject reservation_mismatch admission action_admission_ref action_ref action_digest provider_ref
           owner_ref idempotency_key attempt lease_until permit_valid_until
    with IdrRuntimeErrorV1.ActionNotAdmitted;
  reservation_id ← reservation_for minted projection action_ref idempotency_key attempt;
  let projection := IdrRunProjectionV1.with_execution
    (Some (ExecutionProjectionV1.mk reservation_id action_admission_ref action_ref provider_ref owner_ref
      (ActionAdmissionProjectionV1.operation_ref admission) (ActionAdmissionProjectionV1.parameter_digest admission) (ActionAdmissionProjectionV1.request_digest admission)
      idempotency_key attempt (Minted.permit_id minted) (ActionAdmissionProjectionV1.exact_authorization_proof_id admission)
      (AuthoritativeRecordRefV1.valid_until action_ref) (AuthoritativeRecordRefV1.valid_until action_admission_ref)
      (ActionAdmissionProjectionV1.authorization_valid_until admission) permit_valid_until lease_until dispatch_nonce
      ExecutionAggregateStateV1.PermitIssued)) projection in
  Ok (projection, None, "execution_permit_issued"%string).

Definition recover_permit (projection : IdrRunProjectionV1.t) (reservation_id : Uuid) : Arm :=
  execution ← reserved_execution projection reservation_id;
  _ ← require_caller command (ExecutionProjectionV1.owner_ref execution);
  reject contains (ExecutionProjectionV1.state execution)
           [ExecutionAggregateStateV1.DispatchStarted; ExecutionAggregateStateV1.AwaitingProvider; ExecutionAggregateStateV1.ReconciliationRequired]
    with IdrRuntimeErrorV1.ExecutionRequiresReconciliation;
  reject negb (contains (ExecutionProjectionV1.state execution) [ExecutionAggregateStateV1.PermitIssued; ExecutionAggregateStateV1.PermitDelivered])
    with IdrRuntimeErrorV1.InvalidExecutionTransition;
  if execution_authority_expired execution trusted_now then
    Ok (set_execution_state ExecutionAggregateStateV1.Expired projection, None, "execution_lease_expired"%string)
  else Ok (projection, None, "execution_permit_recovered"%string).

(** The event of a permit whose authority is gone. *)
Definition revoked_event (state : ExecutionAggregateStateV1.t) : Chain string :=
  match state with
  | ExecutionAggregateStateV1.Cancelled => Ok "execution_cancelled_invalid_authority"%string
  | ExecutionAggregateStateV1.ReconciliationRequired => Ok "execution_reconciliation_required_invalid_authority"%string
  | _ => Err IdrRuntimeErrorV1.InvalidExecutionTransition
  end.

(** [DeliverPermit] and [StartDispatch] differ in the state they require, the
    state they set and the event. *)
Definition advance_permit (required next : ExecutionAggregateStateV1.t) (event : string) (projection : IdrRunProjectionV1.t)
    (reservation_id permit_id : Uuid) : Arm :=
  execution ← current_execution projection reservation_id permit_id;
  _ ← require_caller command (ExecutionProjectionV1.provider_ref execution);
  ensured ← ensure_current_execution_action projection reservation_id permit_id trusted_now;
  let '(projection, authority_is_current) := ensured in
  execution ← current_execution projection reservation_id permit_id;
  if negb authority_is_current then
    event ← revoked_event (ExecutionProjectionV1.state execution);
    Ok (projection, None, event)
  else
    _ ← require_execution_state execution required;
    Ok (set_execution_state next projection, None, event).

Definition deliver_permit : IdrRunProjectionV1.t -> Uuid -> Uuid -> Arm :=
  advance_permit ExecutionAggregateStateV1.PermitIssued ExecutionAggregateStateV1.PermitDelivered "execution_permit_delivered".

Definition start_dispatch : IdrRunProjectionV1.t -> Uuid -> Uuid -> Arm :=
  advance_permit ExecutionAggregateStateV1.PermitDelivered ExecutionAggregateStateV1.DispatchStarted "execution_dispatch_started".

(** The run's state after a receipt. *)
Definition run_state_after (state : ExecutionAggregateStateV1.t) : Chain IdrRunStateV1.t :=
  match state with
  | ExecutionAggregateStateV1.Succeeded | ExecutionAggregateStateV1.Compensated => Ok IdrRunStateV1.Succeeded
  | ExecutionAggregateStateV1.Failed => Ok IdrRunStateV1.Failed
  | ExecutionAggregateStateV1.Rejected => Ok IdrRunStateV1.Rejected
  | _ => Err IdrRuntimeErrorV1.InvalidExecutionTransition
  end.

Definition commit_execution_receipt (projection : IdrRunProjectionV1.t) (receipt : CandidateSubmissionV1.t)
    (reservation_id permit_id : Uuid) (provider_ref : ReferenceV1.t) (dispatch_nonce : text)
    (attempt : N) : Arm :=
  receipt_revision ← next_revision projection CandidateKindV1.ExecutionReceipt;
  let receipt_record_id := record_id_for minted projection CandidateKindV1.ExecutionReceipt in
  execution ← current_execution projection reservation_id permit_id;
  let action_was_invalidated :=
    bool_decide (ExecutionProjectionV1.action_ref execution ∈ IdrRunProjectionV1.invalidated_records projection) in
  _ ← require_caller command (ExecutionProjectionV1.provider_ref execution);
  reject negb (contains (ExecutionProjectionV1.state execution)
             [ExecutionAggregateStateV1.DispatchStarted; ExecutionAggregateStateV1.AwaitingProvider; ExecutionAggregateStateV1.ReconciliationRequired])
         || (ExecutionProjectionV1.provider_ref execution != provider_ref)
         || (ExecutionProjectionV1.dispatch_nonce execution != dispatch_nonce)
         || negb (ExecutionProjectionV1.attempt execution =? attempt)
    with IdrRuntimeErrorV1.BindingMismatch;
  _ ← validate_execution_receipt_candidate (CandidateSubmissionV1.payload receipt) permit_id provider_ref
        dispatch_nonce attempt action_was_invalidated (ExecutionProjectionV1.request_digest execution);
  record ← issue_record receipt command trusted_now proofs (IdrRunProjectionV1.trust_domain projection)
             receipt_record_id receipt_revision;
  state ← receipt_terminal_state (CandidateSubmissionV1.payload receipt);
  let projection := set_execution_state state projection in
  run_state ← run_state_after state;
  Ok (IdrRunProjectionV1.with_state run_state projection, Some record, "execution_receipt_committed"%string).

Definition reconcile_execution (projection : IdrRunProjectionV1.t) (reservation_id : Uuid)
    (resolution : ReconciliationResolutionV1.t) : Arm :=
  execution ← reserved_execution projection reservation_id;
  _ ← require_caller command (ExecutionProjectionV1.provider_ref execution);
  _ ← require_execution_state execution ExecutionAggregateStateV1.ReconciliationRequired;
  reject resolution != ReconciliationResolutionV1.Unknown with IdrRuntimeErrorV1.BindingMismatch;
  Ok (set_execution_state ExecutionAggregateStateV1.ReconciliationRequired projection, None,
      "execution_reconciliation_still_unknown"%string).

Definition expire_execution_lease (projection : IdrRunProjectionV1.t) (reservation_id : Uuid) : Arm :=
  execution ← reserved_execution projection reservation_id;
  _ ← require_caller command (ExecutionProjectionV1.owner_ref execution);
  reject negb (execution_authority_expired execution trusted_now) with IdrRuntimeErrorV1.InvalidExecutionTransition;
  if contains (ExecutionProjectionV1.state execution) [ExecutionAggregateStateV1.PermitIssued; ExecutionAggregateStateV1.PermitDelivered] then
    Ok (set_execution_state ExecutionAggregateStateV1.Expired projection, None, "execution_lease_expired_before_dispatch"%string)
  else if in_flight (ExecutionProjectionV1.state execution) then
    Ok (set_execution_state ExecutionAggregateStateV1.ReconciliationRequired projection, None,
        "execution_lease_expired_after_dispatch"%string)
  else Err IdrRuntimeErrorV1.InvalidExecutionTransition.

Definition invalidate_record (projection : IdrRunProjectionV1.t) (record_ref : AuthoritativeRecordRefV1.t) : Arm :=
  _ ← require_exact_governance_target projection record_ref;
  let projection := IdrRunProjectionV1.with_invalidated_records
    ({[record_ref]} ∪ IdrRunProjectionV1.invalidated_records projection) projection in
  let projection :=
    match IdrRunProjectionV1.execution projection with
    | Some execution =>
        if (AuthoritativeRecordRefV1.record_id (ExecutionProjectionV1.action_ref execution) == AuthoritativeRecordRefV1.record_id record_ref)
           && negb (ExecutionAggregateStateV1.is_terminal (ExecutionProjectionV1.state execution))
        then set_execution_state (revoked_state (ExecutionProjectionV1.state execution)) projection
        else projection
    | None => projection
    end in
  Ok (IdrRunProjectionV1.with_state IdrRunStateV1.Invalidated projection, None, "record_invalidated"%string).

Definition record_outcome (projection : IdrRunProjectionV1.t) (outcome : CandidateSubmissionV1.t) : Arm :=
  receipt_ref ← ok_or IdrRuntimeErrorV1.MissingDependency (IdrRunProjectionV1.records projection !! CandidateKindV1.ExecutionReceipt);
  _ ← require_historical_evidence_record projection receipt_ref trusted_now
        IDR_RECEIPT_OUTCOME_OBSERVATION_WINDOW_SECONDS_V1;
  _ ← validate_outcome_candidate (CandidateSubmissionV1.payload outcome) (AuthoritativeRecordRefV1.record_digest receipt_ref);
  record ← issue_next projection CandidateKindV1.Outcome outcome;
  Ok (IdrRunProjectionV1.with_outcome_binding (Some (AuthoritativeRecordV1.record_ref record)) projection, Some record,
      "outcome_observed"%string).

Definition propose_human_model_candidate (projection : IdrRunProjectionV1.t) (candidate : CandidateSubmissionV1.t) : Arm :=
  outcome_ref ← ok_or IdrRuntimeErrorV1.MissingDependency (IdrRunProjectionV1.outcome_binding projection);
  _ ← require_historical_evidence_record projection outcome_ref trusted_now
        IDR_OUTCOME_HUMAN_MODEL_WINDOW_SECONDS_V1;
  _ ← require_exact_record_payload (CandidateSubmissionV1.payload candidate) (txt "outcome") outcome_ref;
  _ ← validate_human_model_candidate (CandidateSubmissionV1.payload candidate);
  record ← issue_next projection CandidateKindV1.HumanModelCandidate candidate;
  let projection := IdrRunProjectionV1.with_human_model_candidate
    (Some (HumanModelCandidateProjectionV1.mk (AuthoritativeRecordV1.record_ref record) outcome_ref
      (CandidateSubmissionV1.payload candidate))) projection in
  Ok (projection, Some record, "human_model_candidate_recorded"%string).

Definition source_candidate_of (projection : IdrRunProjectionV1.t) (candidate_ref : AuthoritativeRecordRefV1.t) :
    Chain HumanModelCandidateProjectionV1.t :=
  ok_or IdrRuntimeErrorV1.MissingDependency
    (option_filter (fun candidate => HumanModelCandidateProjectionV1.candidate_ref candidate == candidate_ref)
      (IdrRunProjectionV1.human_model_candidate projection)).

Definition record_human_model_promotion (projection : IdrRunProjectionV1.t) (decision : CandidateSubmissionV1.t)
    (source_candidate_ref : AuthoritativeRecordRefV1.t) : Arm :=
  _ ← require_exact_current_record_at projection source_candidate_ref trusted_now;
  reject AuthoritativeRecordRefV1.candidate_kind source_candidate_ref != CandidateKindV1.HumanModelCandidate with IdrRuntimeErrorV1.BindingMismatch;
  source_candidate ← source_candidate_of projection source_candidate_ref;
  outcome ← validate_human_model_promotion (CandidateSubmissionV1.payload decision)
              (AuthoritativeRecordRefV1.record_digest source_candidate_ref)
              (HumanModelCandidateProjectionV1.materialized_payload source_candidate);
  _ ← require_exact_record_payload (CandidateSubmissionV1.payload decision) (txt "outcome")
        (HumanModelCandidateProjectionV1.outcome_ref source_candidate);
  record ← issue_next projection CandidateKindV1.HumanModelPromotionDecision decision;
  let projection := IdrRunProjectionV1.with_human_model_promotion
    (Some (HumanModelPromotionProjectionV1.mk (AuthoritativeRecordV1.record_ref record) source_candidate_ref
      (HumanModelCandidateProjectionV1.outcome_ref source_candidate) outcome)) projection in
  Ok (projection, Some record, "human_model_promotion_decided"%string).

(** The six [materialized.insert] calls. *)
Definition materialize (promotion : HumanModelPromotionProjectionV1.t) (lifecycle_state : text)
    (maximum_impact_basis_points : N) (fields : list (text * Value)) : Value :=
  let decision_ref := HumanModelPromotionProjectionV1.decision_ref promotion in
  let source_ref := HumanModelPromotionProjectionV1.source_candidate_ref promotion in
  let fields := map_insert (txt "source_candidate_digest") (Str (AuthoritativeRecordRefV1.record_digest source_ref)) fields in
  let fields := map_insert (txt "lifecycle_state") (Str lifecycle_state) fields in
  let fields := map_insert (txt "maximum_impact_basis_points")
                  (Json.to_json maximum_impact_basis_points) fields in
  let fields := map_insert (txt "promotion_decision_record_id")
                  (Str (uuid_hyphenated (AuthoritativeRecordRefV1.record_id decision_ref))) fields in
  let fields := map_insert (txt "promotion_decision_revision")
                  (Json.to_json (AuthoritativeRecordRefV1.revision decision_ref)) fields in
  Obj (map_insert (txt "promotion_decision_record_digest") (Str (AuthoritativeRecordRefV1.record_digest decision_ref)) fields).

Definition promote_human_model_assertion (projection : IdrRunProjectionV1.t) (assertion : CandidateSubmissionV1.t)
    (promotion_decision_ref : AuthoritativeRecordRefV1.t) : Arm :=
  _ ← require_exact_current_record_at projection promotion_decision_ref trusted_now;
  reject AuthoritativeRecordRefV1.candidate_kind promotion_decision_ref != CandidateKindV1.HumanModelPromotionDecision
    with IdrRuntimeErrorV1.BindingMismatch;
  promotion ← ok_or IdrRuntimeErrorV1.BindingMismatch
    (option_filter (fun promotion =>
        (HumanModelPromotionProjectionV1.decision_ref promotion == promotion_decision_ref)
        && is_promotion (HumanModelPromotionProjectionV1.outcome promotion))
      (IdrRunProjectionV1.human_model_promotion projection));
  let source_ref := HumanModelPromotionProjectionV1.source_candidate_ref promotion in
  source_candidate ← source_candidate_of projection source_ref;
  _ ← validate_human_model_assertion_request (CandidateSubmissionV1.payload assertion) (AuthoritativeRecordRefV1.record_digest source_ref);
  lifecycle_state ← lifecycle_state_of (HumanModelPromotionProjectionV1.outcome promotion);
  let payload := HumanModelCandidateProjectionV1.materialized_payload source_candidate in
  maximum_impact_basis_points ← ok_or IdrRuntimeErrorV1.BindingMismatch
    (option_filter (fun value => value <=? 10000)
      (get (txt "maximum_impact_basis_points") payload ≫= value_as_u64));
  fields ← ok_or IdrRuntimeErrorV1.BindingMismatch (as_object payload);
  let materialized_payload := materialize promotion lifecycle_state maximum_impact_basis_points fields in
  assertion_valid_until ← ok_or IdrRuntimeErrorV1.ExpiredAuthority
    (minimum (map VerifiedProductionProofV1.expires_at proofs
       ++ [CandidateSubmissionV1.valid_until assertion;
           AuthoritativeRecordRefV1.valid_until (HumanModelPromotionProjectionV1.decision_ref promotion);
           AuthoritativeRecordRefV1.valid_until source_ref]));
  revision ← next_revision projection CandidateKindV1.HumanModelAssertion;
  record ← issue_internal_record minted CandidateKindV1.HumanModelAssertion materialized_payload command projection
    trusted_now assertion_valid_until proofs (record_id_for minted projection CandidateKindV1.HumanModelAssertion)
    revision;
  Ok (projection, Some record, "human_model_assertion_promoted"%string).

Definition correct_human_model_assertion (projection : IdrRunProjectionV1.t) (assertion_ref : AuthoritativeRecordRefV1.t)
    (correction : CandidateSubmissionV1.t) : Arm :=
  _ ← require_exact_governance_target projection assertion_ref;
  _ ← validate_human_model_correction (CandidateSubmissionV1.payload correction);
  revision ← ok_or IdrRuntimeErrorV1.AggregateVersionConflict (checked_succ u64_max (AuthoritativeRecordRefV1.revision assertion_ref));
  record ← issue_record correction command trusted_now proofs (IdrRunProjectionV1.trust_domain projection)
             (AuthoritativeRecordRefV1.record_id assertion_ref) revision;
  let projection := IdrRunProjectionV1.with_invalidated_records
    ({[assertion_ref]} ∪ IdrRunProjectionV1.invalidated_records projection) projection in
  Ok (projection, Some record, "human_model_assertion_corrected"%string).

Definition cancel_run (projection : IdrRunProjectionV1.t) : Arm :=
  reject contains (IdrRunProjectionV1.state projection) [IdrRunStateV1.Succeeded; IdrRunStateV1.Rejected; IdrRunStateV1.Cancelled]
    with IdrRuntimeErrorV1.InvalidRunTransition;
  Ok (IdrRunProjectionV1.with_state IdrRunStateV1.Cancelled projection, None, "run_cancelled"%string).

(** [match command.command()] *)
Definition apply_command (projection : IdrRunProjectionV1.t) : Arm :=
  match IdrCommandEnvelopeV1.command command with
  | IdrCommandV1.StartRun input => start_run projection input
  | IdrCommandV1.RecordContext context => record_context projection context
  | IdrCommandV1.RecordIntent intent => record_intent projection intent
  | IdrCommandV1.RecordDecision decision => record_decision projection decision
  | IdrCommandV1.RecordTurn turn => record_turn projection turn
  | IdrCommandV1.RecordResponse response => record_response projection response
  | IdrCommandV1.ConsumeResponseSend response_ref bytes channel_ref audience_ref send_nonce =>
      consume_response_send projection response_ref bytes channel_ref audience_ref send_nonce
  | IdrCommandV1.RecordAction action => record_action projection action
  | IdrCommandV1.AdmitAction action_ref digest provider_ref owner_ref key =>
      admit_action projection action_ref digest provider_ref owner_ref key
  | IdrCommandV1.ReserveExecution admission_ref action_ref digest provider_ref owner_ref key attempt
      lease_until nonce =>
      reserve_execution projection admission_ref action_ref digest provider_ref owner_ref key attempt
        lease_until nonce
  | IdrCommandV1.RecoverPermit reservation_id => recover_permit projection reservation_id
  | IdrCommandV1.DeliverPermit reservation_id permit_id => deliver_permit projection reservation_id permit_id
  | IdrCommandV1.StartDispatch reservation_id permit_id => start_dispatch projection reservation_id permit_id
  | IdrCommandV1.CommitExecutionReceipt receipt reservation_id permit_id provider_ref nonce attempt =>
      commit_execution_receipt projection receipt reservation_id permit_id provider_ref nonce attempt
  | IdrCommandV1.ReconcileExecution reservation_id resolution =>
      reconcile_execution projection reservation_id resolution
  | IdrCommandV1.ExpireExecutionLease reservation_id => expire_execution_lease projection reservation_id
  | IdrCommandV1.InvalidateRecord record_ref _ => invalidate_record projection record_ref
  | IdrCommandV1.RecordOutcome outcome => record_outcome projection outcome
  | IdrCommandV1.ProposeHumanModelCandidate candidate => propose_human_model_candidate projection candidate
  | IdrCommandV1.RecordHumanModelPromotion decision source_ref =>
      record_human_model_promotion projection decision source_ref
  | IdrCommandV1.PromoteHumanModelAssertion assertion decision_ref =>
      promote_human_model_assertion projection assertion decision_ref
  | IdrCommandV1.CorrectHumanModelAssertion assertion_ref correction =>
      correct_human_model_assertion projection assertion_ref correction
  | IdrCommandV1.CancelRun _ => cancel_run projection
  end.

(** The subject, turn and validity of a candidate after [StartRun]. *)
Definition lineage_mismatch (projection : IdrRunProjectionV1.t) : bool :=
  match IdrCommandEnvelopeV1.command command, Command.candidate (IdrCommandEnvelopeV1.command command) with
  | IdrCommandV1.StartRun _, _ => false
  | _, Some candidate =>
      (IdrRunProjectionV1.subject_ref projection != Some (CandidateSubmissionV1.subject_ref candidate))
      || (IdrRunProjectionV1.turn_id projection != Some (CandidateSubmissionV1.turn_id candidate))
      || (trusted_now <? CandidateSubmissionV1.valid_from candidate) || (CandidateSubmissionV1.valid_until candidate <=? trusted_now)
  | _, None => false
  end.

(** The kinds proved, the caller's authentication aside. *)
Definition proved_kinds : gset ProductionProofKindV1.t :=
  list_to_set (map VerifiedProductionProofV1.proof_kind
    (filter (fun proof => VerifiedProductionProofV1.proof_kind proof <> ProductionProofKindV1.CallerAuthentication) proofs)).

Definition store_record (record : option AuthoritativeRecordV1.t) (projection : IdrRunProjectionV1.t) : IdrRunProjectionV1.t :=
  match record with
  | Some record =>
      let record_ref := AuthoritativeRecordV1.record_ref record in
      IdrRunProjectionV1.with_records (<[AuthoritativeRecordRefV1.candidate_kind record_ref := record_ref]> (IdrRunProjectionV1.records projection)) projection
  | None => projection
  end.

Definition evaluate_authoritative_transition_v1 (projection : IdrRunProjectionV1.t) : Chain IdrTransitionV1.t :=
  _ ← Envelope.validate command;
  reject (IdrRunProjectionV1.run_id projection != IdrCommandEnvelopeV1.run_id command)
         || (IdrRunProjectionV1.trust_domain projection != IdrCommandEnvelopeV1.trust_domain command)
         || (IdrRunProjectionV1.environment_ref projection != IdrCommandEnvelopeV1.environment_ref command)
         || (IdrRunProjectionV1.tenant_ref projection != IdrCommandEnvelopeV1.tenant_ref command)
         || negb (IdrRunProjectionV1.aggregate_version projection =? IdrCommandEnvelopeV1.expected_aggregate_version command)
    with IdrRuntimeErrorV1.AggregateVersionConflict;
  _ ← require_command_state (IdrRunProjectionV1.state projection) (IdrCommandEnvelopeV1.command command);
  reject lineage_mismatch projection with IdrRuntimeErrorV1.LineageMismatch;
  reject proved_kinds != Command.required_proof_kinds (IdrCommandEnvelopeV1.command command)
    with IdrRuntimeErrorV1.MissingRequiredProof;
  let previous_version := IdrRunProjectionV1.aggregate_version projection in
  version ← ok_or IdrRuntimeErrorV1.AggregateVersionConflict (checked_succ u64_max (IdrRunProjectionV1.aggregate_version projection));
  let projection := IdrRunProjectionV1.with_aggregate_version version projection in
  sequence ← ok_or IdrRuntimeErrorV1.AggregateVersionConflict (checked_succ u64_max (IdrRunProjectionV1.last_event_sequence projection));
  let projection := IdrRunProjectionV1.with_last_event_sequence sequence projection in
  applied ← apply_command projection;
  let '(projection, authoritative_record, event_type) := applied in
  let projection := store_record authoritative_record projection in
  reject negb (IdrRunProjectionV1.aggregate_version projection =? previous_version + 1)
    with IdrRuntimeErrorV1.AggregateVersionConflict;
  Ok (IdrTransitionV1.mk projection authoritative_record (txt event_type)
        (to_value (Json.to_json (IdrCommandEnvelopeV1.command command))) (proof_ids_of proofs) (map VerifiedProductionProofV1.nonce proofs)).
End arms.
