(* ===== verification/ChainRepository.v ===== *)
(** * ChainRepository: the transitions the repository makes itself ([idr-runtime/src/trust_chain.rs])

    [action_admission_proof_failure], taken when a proof an admission rests on no
    longer verifies, [apply_repository_invalidation_closure], which withdraws the
    records an invalidation reaches, the receipt of a command and the hash of an
    audit event. *)

From stdpp Require Import base list gmap fin_sets countable sorting strings.
From Stdlib Require Import NArith ZArith Lia.
From S2P Require Import Prelude Text Json Crates CanonicalJson Common Production ChainData ChainCommand ChainPayload ChainTransition ChainEvaluate.

(** [crossed_dispatch_boundary] *)
Definition crossed_dispatch_boundary (projection : IdrRunProjectionV1.t) : bool :=
  is_some_and (fun execution =>
      contains (ExecutionProjectionV1.state execution)
        [ExecutionAggregateStateV1.DispatchStarted; ExecutionAggregateStateV1.AwaitingProvider; ExecutionAggregateStateV1.ReconciliationRequired; ExecutionAggregateStateV1.Succeeded; ExecutionAggregateStateV1.Failed;
         ExecutionAggregateStateV1.Rejected; ExecutionAggregateStateV1.Compensated])
    (IdrRunProjectionV1.execution projection).

Section with_crates.
Context {C : Crates}.

Definition action_admission_proof_failure (projection : IdrRunProjectionV1.t) (command : IdrCommandEnvelopeV1.t)
    (verified_proofs : list VerifiedProductionProofV1.t) : Chain IdrTransitionV1.t :=
  admission ← ok_or IdrRuntimeErrorV1.ActionNotAdmitted (IdrRunProjectionV1.action_admission projection);
  let admission_ref := ActionAdmissionProjectionV1.admission_ref admission in
  version ← ok_or IdrRuntimeErrorV1.SerializationFailed (checked_succ u64_max (IdrRunProjectionV1.aggregate_version projection));
  let projection := IdrRunProjectionV1.with_aggregate_version version projection in
  sequence ← ok_or IdrRuntimeErrorV1.SerializationFailed (checked_succ u64_max (IdrRunProjectionV1.last_event_sequence projection));
  let projection := IdrRunProjectionV1.with_last_event_sequence sequence projection in
  let crossed := crossed_dispatch_boundary projection in
  let projection := set_execution_state
    (if crossed then ExecutionAggregateStateV1.ReconciliationRequired else ExecutionAggregateStateV1.Cancelled) projection in
  let projection := IdrRunProjectionV1.with_state
    (if crossed then IdrRunStateV1.ReconciliationRequired else IdrRunStateV1.WaitingAuthorization) projection in
  Ok (IdrTransitionV1.mk projection None
        (if crossed then txt "action_admission_proof_revoked_reconciliation_required"
         else txt "action_admission_proof_revoked_cancelled")
        (to_value (Obj
          [(txt "requested_command", Json.to_json (IdrCommandEnvelopeV1.command command));
           (txt "failed_admission_ref", Json.to_json admission_ref);
           (txt "governance_disposition",
             Str (if crossed then txt "reconciliation_required" else txt "cancelled"))]))
        (proof_ids_of verified_proofs) (map VerifiedProductionProofV1.nonce verified_proofs)).

(** [previous_hash] and [event] as one JSON array *)
Definition hash_event_v1 (previous_hash : text) (event : Value) : Chain text :=
  bytes ← map_err IdrRuntimeErrorV1.Protocol
    (canonical_json_bytes_v1 (Arr [Str (txt "idr-audit-event-v1"); Str previous_hash; event]));
  Ok (encode_hex (sha256 bytes)).
End with_crates.

(** [Option::take] when the binding holds the record. *)
Definition clear_if {A} (holds : A -> bool) (binding : option A) : option A :=
  option_filter (fun a => negb (holds a)) binding.

Definition withdraw_bindings (record : AuthoritativeRecordRefV1.t) (projection : IdrRunProjectionV1.t) : IdrRunProjectionV1.t :=
  match AuthoritativeRecordRefV1.candidate_kind record with
  | CandidateKindV1.Decision =>
      IdrRunProjectionV1.with_decision_binding
        (clear_if (fun b => DecisionBindingProjectionV1.decision_ref b == record)
          (IdrRunProjectionV1.decision_binding projection)) projection
  | CandidateKindV1.Response =>
      IdrRunProjectionV1.with_response_binding
        (clear_if (fun b => ResponseBindingProjectionV1.response_ref b == record)
          (IdrRunProjectionV1.response_binding projection)) projection
  | CandidateKindV1.Action =>
      let projection := IdrRunProjectionV1.with_action_binding
        (clear_if (fun b => ActionBindingProjectionV1.action_ref b == record)
          (IdrRunProjectionV1.action_binding projection)) projection in
      IdrRunProjectionV1.with_action_admission
        (clear_if (fun a => ActionAdmissionProjectionV1.action_ref a == record) (IdrRunProjectionV1.action_admission projection)) projection
  | CandidateKindV1.ActionAdmissionDecision =>
      IdrRunProjectionV1.with_action_admission
        (clear_if (fun a => ActionAdmissionProjectionV1.admission_ref a == record) (IdrRunProjectionV1.action_admission projection)) projection
  | CandidateKindV1.Outcome =>
      if IdrRunProjectionV1.outcome_binding projection == Some record then
        let projection := IdrRunProjectionV1.with_outcome_binding None projection in
        let projection := IdrRunProjectionV1.with_human_model_candidate
          (clear_if (fun c => HumanModelCandidateProjectionV1.outcome_ref c == record)
            (IdrRunProjectionV1.human_model_candidate projection)) projection in
        IdrRunProjectionV1.with_human_model_promotion
          (clear_if (fun p => HumanModelPromotionProjectionV1.outcome_ref p == record)
            (IdrRunProjectionV1.human_model_promotion projection)) projection
      else projection
  | CandidateKindV1.HumanModelCandidate =>
      if is_some_and (fun c => HumanModelCandidateProjectionV1.candidate_ref c == record)
           (IdrRunProjectionV1.human_model_candidate projection) then
        let projection := IdrRunProjectionV1.with_human_model_candidate None projection in
        IdrRunProjectionV1.with_human_model_promotion
          (clear_if (fun p => HumanModelPromotionProjectionV1.source_candidate_ref p == record)
            (IdrRunProjectionV1.human_model_promotion projection)) projection
      else projection
  | CandidateKindV1.HumanModelPromotionDecision =>
      IdrRunProjectionV1.with_human_model_promotion
        (clear_if (fun p => HumanModelPromotionProjectionV1.decision_ref p == record)
          (IdrRunProjectionV1.human_model_promotion projection)) projection
  | _ => projection
  end.

(** Unlike [revoked_state], this keeps an execution that already needs reconciliation. *)
Definition withdraw_execution (record : AuthoritativeRecordRefV1.t) (projection : IdrRunProjectionV1.t) : IdrRunProjectionV1.t :=
  match IdrRunProjectionV1.execution projection with
  | Some execution =>
      if (ExecutionProjectionV1.action_ref execution == record) && negb (ExecutionAggregateStateV1.is_terminal (ExecutionProjectionV1.state execution))
      then set_execution_state
             (if contains (ExecutionProjectionV1.state execution)
                   [ExecutionAggregateStateV1.DispatchStarted; ExecutionAggregateStateV1.AwaitingProvider; ExecutionAggregateStateV1.ReconciliationRequired]
              then ExecutionAggregateStateV1.ReconciliationRequired else ExecutionAggregateStateV1.Cancelled) projection
      else projection
  | None => projection
  end.

Definition withdraw (projection : IdrRunProjectionV1.t) (record : AuthoritativeRecordRefV1.t) : IdrRunProjectionV1.t :=
  let projection := IdrRunProjectionV1.with_invalidated_records
    ({[record]} ∪ IdrRunProjectionV1.invalidated_records projection) projection in
  withdraw_execution record (withdraw_bindings record projection).

Definition apply_repository_invalidation_closure (transition : IdrTransitionV1.t)
    (records : list AuthoritativeRecordRefV1.t) (invalidate_run : bool) : IdrTransitionV1.t :=
  let projection := foldl withdraw (IdrTransitionV1.projection transition) records in
  let projection :=
    if invalidate_run then IdrRunProjectionV1.with_state IdrRunStateV1.Invalidated projection
    else if is_some_and (fun execution => ExecutionProjectionV1.state execution == ExecutionAggregateStateV1.ReconciliationRequired)
              (IdrRunProjectionV1.execution projection)
    then IdrRunProjectionV1.with_state IdrRunStateV1.ReconciliationRequired projection
    else projection in
  IdrTransitionV1.with_projection projection transition.
