(* ===== verification/ChainProps.v ===== *)
(** * ChainProps: what a transition of the trust chain guarantees *)

From stdpp Require Import base list gmap fin_sets countable sorting strings.
From Stdlib Require Import NArith ZArith Lia.
From S2P Require Import Prelude Text Json Crates CanonicalJson Common Production ChainData ChainCommand ChainPayload ChainTransition ChainEvaluate ChainRepository.

Lemma ok_if_Ok {E} (b : bool) (e : E) : (if b then Ok tt else Err e) = Ok tt <-> b = true.
Proof. by destruct b. Qed.

Lemma option_filter_Some {A} (f : A -> bool) o a : option_filter f o = Some a <-> o = Some a /\ f a = true.
Proof.
  destruct o as [b|]; cbn; [|split; [done|by intros [? _]]].
  destruct (f b) eqn:E; split; [by intros [= <-]|by intros [[= <-] _]|done|intros [[= <-] H]; congruence].
Qed.

(** Open [body = Ok y] for a body with conditionals and destructuring as well. *)
Ltac arm_step :=
  match goal with
  | H : None = Some _ |- _ => discriminate H
  | H : Some _ = Some _ |- _ => injection H as H; subst
  | H : (if ?b then Ok tt else Err _) = Ok _ |- _ => apply ok_if_Ok in H
  | H : (let '(_, _) := ?p in _) = Ok _ |- _ => destruct p eqn:?
  | H : match ?p with pair _ _ => _ end = Ok _ |- _ => destruct p eqn:?
  | H : (if ?b then _ else _) = Ok _ |- _ => destruct b eqn:?
  end.
Ltac inv_arm := repeat (inv_ok_step || arm_step).

(** ** What an arm leaves alone *)

(** Identity, counters and current records are the same; nothing invalidated or
    consumed comes back. *)
Record frame (p q : IdrRunProjectionV1.t) : Prop := {
  fr_domain : IdrRunProjectionV1.trust_domain q = IdrRunProjectionV1.trust_domain p;
  fr_environment : IdrRunProjectionV1.environment_ref q = IdrRunProjectionV1.environment_ref p;
  fr_run : IdrRunProjectionV1.run_id q = IdrRunProjectionV1.run_id p;
  fr_tenant : IdrRunProjectionV1.tenant_ref q = IdrRunProjectionV1.tenant_ref p;
  fr_version : IdrRunProjectionV1.aggregate_version q = IdrRunProjectionV1.aggregate_version p;
  fr_sequence : IdrRunProjectionV1.last_event_sequence q = IdrRunProjectionV1.last_event_sequence p;
  fr_records : IdrRunProjectionV1.records q = IdrRunProjectionV1.records p;
  fr_invalidated : IdrRunProjectionV1.invalidated_records p ⊆ IdrRunProjectionV1.invalidated_records q;
  fr_nonces : IdrRunProjectionV1.response_send_nonces p ⊆ IdrRunProjectionV1.response_send_nonces q;
}.

#[export] Instance frame_preorder : PreOrder frame.
Proof.
  split.
  - intros p. by split.
  - intros p q r [] []. split; first [congruence | by etrans].
Qed.

Ltac solve_frame := split; cbn; first [reflexivity | set_solver].

Lemma set_execution_state_frame s p : frame p (set_execution_state s p).
Proof. solve_frame. Qed.

Lemma revoke_unless_terminal_frame p : frame p (revoke_unless_terminal p).
Proof. unfold revoke_unless_terminal. repeat case_match; try reflexivity. apply set_execution_state_frame. Qed.

Lemma ensure_frame p r pe now q b :
  ensure_current_execution_action p r pe now = Ok (q, b) -> frame p q.
Proof.
  unfold ensure_current_execution_action. intros H. inv_arm; [reflexivity|apply set_execution_state_frame].
Qed.

Section arms.
Context {C : Crates} {P : UuidParser} (minted : Minted.t) (command : IdrCommandEnvelopeV1.t) (now : N) (proofs : list VerifiedProductionProofV1.t).

Lemma apply_command_frame p q record event :
  apply_command minted command now proofs p = Ok (q, record, event) -> frame p q.
Proof.
  unfold apply_command. destruct (IdrCommandEnvelopeV1.command command); intros H.
  - unfold start_run in H. inv_arm. solve_frame.
  - unfold record_context in H. inv_arm. reflexivity.
  - unfold record_intent in H. inv_arm; [solve_frame|reflexivity].
  - unfold record_decision in H. inv_arm. solve_frame.
  - unfold record_turn in H. inv_arm. reflexivity.
  - unfold record_response in H. inv_arm. solve_frame.
  - unfold consume_response_send in H. inv_arm. solve_frame.
  - unfold record_action in H. inv_arm. unfold revoke_unless_terminal. repeat case_match; solve_frame.
  - unfold admit_action in H. inv_arm. solve_frame.
  - unfold reserve_execution in H. inv_arm. solve_frame.
  - unfold recover_permit in H. inv_arm; solve_frame.
  - unfold deliver_permit, advance_permit in H. inv_arm; repeat match goal with
      | H : ensure_current_execution_action _ _ _ _ = Ok _ |- _ => apply ensure_frame in H end;
      [done|]. etrans; [done|]. apply set_execution_state_frame.
  - unfold start_dispatch, advance_permit in H. inv_arm; repeat match goal with
      | H : ensure_current_execution_action _ _ _ _ = Ok _ |- _ => apply ensure_frame in H end;
      [done|]. etrans; [done|]. apply set_execution_state_frame.
  - unfold commit_execution_receipt in H. inv_arm. solve_frame.
  - unfold reconcile_execution in H. inv_arm. solve_frame.
  - unfold expire_execution_lease in H. inv_arm; solve_frame.
  - unfold invalidate_record in H. inv_arm. repeat case_match; solve_frame.
  - unfold record_outcome in H. inv_arm. solve_frame.
  - unfold propose_human_model_candidate in H. inv_arm. solve_frame.
  - unfold record_human_model_promotion in H. inv_arm. solve_frame.
  - unfold promote_human_model_assertion in H. inv_arm. reflexivity.
  - unfold correct_human_model_assertion in H. inv_arm. solve_frame.
  - unfold cancel_run in H. inv_arm. solve_frame.
Qed.
End arms.

(** ** The record a command issues *)

Section issued.
Context {C : Crates} {P : UuidParser} (minted : Minted.t) (command : IdrCommandEnvelopeV1.t) (now : N) (proofs : list VerifiedProductionProofV1.t).

Lemma issue_record_Ok candidate domain id revision r :
  issue_record candidate command now proofs domain id revision = Ok r ->
  CandidateSubmissionV1.validate candidate = Ok tt /\ CandidateSubmissionV1.valid_from candidate <= now < CandidateSubmissionV1.valid_until candidate /\
  digest_record (material_of r) = Ok (AuthoritativeRecordRefV1.record_digest (AuthoritativeRecordV1.record_ref r)) /\
  exists candidate_digest record_digest,
    CandidateSubmissionV1.canonical_digest candidate = Ok candidate_digest /\
    r = AuthoritativeRecordV1.mk (AuthoritativeRecordRefV1.mk id revision (CandidateSubmissionV1.candidate_kind candidate) domain (IdrCommandEnvelopeV1.environment_ref command)
          (CandidateSubmissionV1.valid_from candidate) (CandidateSubmissionV1.valid_until candidate) record_digest)
        domain (IdrCommandEnvelopeV1.environment_ref command) (CandidateSubmissionV1.run_id candidate) (CandidateSubmissionV1.turn_id candidate)
        (CandidateSubmissionV1.tenant_ref candidate) (CandidateSubmissionV1.subject_ref candidate) (CandidateSubmissionV1.policy_revision_ref candidate)
        (CandidateSubmissionV1.candidate_id candidate) candidate_digest (CandidateSubmissionV1.payload candidate) (IdrCommandEnvelopeV1.command_id command)
        now (CandidateSubmissionV1.valid_from candidate) (CandidateSubmissionV1.valid_until candidate) (proof_ids_of proofs).
Proof.
  unfold issue_record. intros H. inv_ok. bsimp. split_and!; try done. eexists _, _. done.
Qed.

Lemma issue_internal_Ok kind payload p valid_until id revision r :
  issue_internal_record minted kind payload command p now valid_until proofs id revision = Ok r ->
  now < valid_until /\ digest_record (material_of r) = Ok (AuthoritativeRecordRefV1.record_digest (AuthoritativeRecordV1.record_ref r)) /\
  exists subject turn candidate_digest record_digest,
    IdrRunProjectionV1.subject_ref p = Some subject /\ IdrRunProjectionV1.turn_id p = Some turn /\
    r = AuthoritativeRecordV1.mk (AuthoritativeRecordRefV1.mk id revision kind (IdrRunProjectionV1.trust_domain p) (IdrRunProjectionV1.environment_ref p) now valid_until
          record_digest)
        (IdrRunProjectionV1.trust_domain p) (IdrRunProjectionV1.environment_ref p) (IdrRunProjectionV1.run_id p) turn (IdrCommandEnvelopeV1.tenant_ref command)
        subject (IdrCommandEnvelopeV1.policy_revision_ref command) (Minted.candidate_id minted) candidate_digest payload
        (IdrCommandEnvelopeV1.command_id command) now now valid_until (proof_ids_of proofs).
Proof.
  unfold issue_internal_record. intros H. inv_ok. bsimp. split_and!; try done. by do 4 eexists.
Qed.

(** The record belongs to the run and to the kind, and is the next of its kind. *)
Record issued (p : IdrRunProjectionV1.t) (kind : CandidateKindV1.t) (r : AuthoritativeRecordV1.t) : Prop := {
  is_kind : AuthoritativeRecordRefV1.candidate_kind (AuthoritativeRecordV1.record_ref r) = kind;
  is_domain : AuthoritativeRecordRefV1.trust_domain (AuthoritativeRecordV1.record_ref r) = IdrRunProjectionV1.trust_domain p;
  is_next : next_revision p kind = Ok (AuthoritativeRecordRefV1.revision (AuthoritativeRecordV1.record_ref r));
  is_id : AuthoritativeRecordRefV1.record_id (AuthoritativeRecordV1.record_ref r) = record_id_for minted p kind;
  is_environment : AuthoritativeRecordRefV1.environment_ref (AuthoritativeRecordV1.record_ref r) = IdrCommandEnvelopeV1.environment_ref command;
  is_digest : digest_record (material_of r) = Ok (AuthoritativeRecordRefV1.record_digest (AuthoritativeRecordV1.record_ref r));
  is_valid : AuthoritativeRecordRefV1.valid_from (AuthoritativeRecordV1.record_ref r) <= now < AuthoritativeRecordRefV1.valid_until (AuthoritativeRecordV1.record_ref r);
}.

Lemma issue_next_issued p kind candidate r :
  CandidateSubmissionV1.candidate_kind candidate = kind ->
  issue_next minted command now proofs p kind candidate = Ok r -> issued p kind r.
Proof.
  unfold issue_next. intros Hk (revision & Hn & H)%bind_Ok.
  apply issue_record_Ok in H as (_ & Hv & Hd & cd & rd & _ & ->). by split.
Qed.

Lemma issue_internal_issued p kind payload valid_until revision r :
  IdrRunProjectionV1.environment_ref p = IdrCommandEnvelopeV1.environment_ref command -> next_revision p kind = Ok revision ->
  issue_internal_record minted kind payload command p now valid_until proofs
    (record_id_for minted p kind) revision = Ok r -> issued p kind r.
Proof.
  intros He Hn H. apply issue_internal_Ok in H as (Hv & Hd & s & t & cd & rd & _ & _ & ->). by split.
Qed.

(** The kind of record a command issues when it issues one. *)
Definition issued_kind (c : IdrCommandV1.t) : option CandidateKindV1.t :=
  match c with
  | IdrCommandV1.AdmitAction _ _ _ _ _ => Some CandidateKindV1.ActionAdmissionDecision
  | c => Command.expected_candidate_kind c
  end.

Definition is_correction (c : IdrCommandV1.t) : bool :=
  match c with IdrCommandV1.CorrectHumanModelAssertion _ _ => true | _ => false end.

Lemma validated_kind candidate :
  Envelope.validate command = Ok tt -> Command.candidate (IdrCommandEnvelopeV1.command command) = Some candidate ->
  Some (CandidateSubmissionV1.candidate_kind candidate) = Command.expected_candidate_kind (IdrCommandEnvelopeV1.command command).
Proof.
  unfold Envelope.validate. intros H Hc. rewrite Hc in H. inv_ok. unfold Envelope.validate_candidate in *.
  inv_ok. bsimp. done.
Qed.

(** Every command but a correction issues the next record of its kind. *)
Lemma apply_command_issues p q r event :
  Envelope.validate command = Ok tt -> IdrRunProjectionV1.environment_ref p = IdrCommandEnvelopeV1.environment_ref command ->
  is_correction (IdrCommandEnvelopeV1.command command) = false ->
  apply_command minted command now proofs p = Ok (q, Some r, event) ->
  exists kind, issued_kind (IdrCommandEnvelopeV1.command command) = Some kind /\ issued p kind r.
Proof.
  intros Hv He Hcorr H. pose proof (validated_kind) as Hkind. specialize (fun c => Hkind c Hv).
  unfold apply_command in H. destruct (IdrCommandEnvelopeV1.command command) eqn:Hcmd; try done; cbn in Hkind |- *;
    try (eexists; split; [reflexivity|]);
    try (specialize (Hkind _ eq_refl); injection Hkind as Hkind).
  - unfold start_run, require_no_record in H. inv_arm.
    match goal with E : issue_record _ _ _ _ _ _ _ = Ok _ |- _ =>
      apply issue_record_Ok in E as (_ & Hval & Hd & cd & rd & _ & ->) end.
    destruct (IdrRunProjectionV1.records p !! CandidateKindV1.CanonicalInput) eqn:Hr; [done|].
    split; cbn; try done. unfold next_revision. by rewrite Hr.
  - unfold record_context in H. inv_arm. eauto using issue_next_issued.
  - unfold record_intent in H. inv_arm. eauto using issue_next_issued.
  - unfold record_decision in H. inv_arm. eauto using issue_next_issued.
  - unfold record_turn in H. inv_arm. eauto using issue_next_issued.
  - unfold record_response in H. inv_arm. eauto using issue_next_issued.
  - unfold consume_response_send in H. inv_arm.
  - unfold record_action in H. inv_arm. eauto using issue_next_issued.
  - unfold admit_action in H. inv_arm. eauto using issue_internal_issued.
  - unfold reserve_execution in H. inv_arm.
  - unfold recover_permit in H. inv_arm.
  - unfold deliver_permit, advance_permit in H. inv_arm.
  - unfold start_dispatch, advance_permit in H. inv_arm.
  - unfold commit_execution_receipt in H. inv_arm.
    match goal with E : issue_record _ _ _ _ _ _ _ = Ok _ |- _ =>
      apply issue_record_Ok in E as (_ & Hval & Hd & cd & rd & _ & ->) end. by split.
  - unfold reconcile_execution in H. inv_arm.
  - unfold expire_execution_lease in H. inv_arm.
  - unfold invalidate_record in H. inv_arm.
  - unfold record_outcome in H. inv_arm. eauto using issue_next_issued.
  - unfold propose_human_model_candidate in H. inv_arm. eauto using issue_next_issued.
  - unfold record_human_model_promotion in H. inv_arm. eauto using issue_next_issued.
  - unfold promote_human_model_assertion in H. inv_arm. eauto using issue_internal_issued.
  - unfold cancel_run in H. inv_arm.
Qed.
End issued.

(** ** The whole transition *)

(** The projection an arm starts from: the counters are already advanced. *)
Definition advanced (p : IdrRunProjectionV1.t) : IdrRunProjectionV1.t :=
  IdrRunProjectionV1.with_last_event_sequence (IdrRunProjectionV1.last_event_sequence p + 1)
    (IdrRunProjectionV1.with_aggregate_version (IdrRunProjectionV1.aggregate_version p + 1) p).

Section transition.
Context {C : Crates} {P : UuidParser} (minted : Minted.t) (command : IdrCommandEnvelopeV1.t) (now : N) (proofs : list VerifiedProductionProofV1.t).

Record accepted_by (p : IdrRunProjectionV1.t) (t : IdrTransitionV1.t) (q : IdrRunProjectionV1.t) (event : string) : Prop := {
  ac_valid : Envelope.validate command = Ok tt;
  ac_run : IdrRunProjectionV1.run_id p = IdrCommandEnvelopeV1.run_id command;
  ac_domain : IdrRunProjectionV1.trust_domain p = IdrCommandEnvelopeV1.trust_domain command;
  ac_environment : IdrRunProjectionV1.environment_ref p = IdrCommandEnvelopeV1.environment_ref command;
  ac_tenant : IdrRunProjectionV1.tenant_ref p = IdrCommandEnvelopeV1.tenant_ref command;
  ac_version : IdrRunProjectionV1.aggregate_version p = IdrCommandEnvelopeV1.expected_aggregate_version command;
  ac_allowed : command_allowed (IdrRunProjectionV1.state p) (IdrCommandEnvelopeV1.command command) = true;
  ac_lineage : lineage_mismatch command now p = false;
  ac_proofs : proved_kinds proofs = Command.required_proof_kinds (IdrCommandEnvelopeV1.command command);
  ac_arm : apply_command minted command now proofs (advanced p)
             = Ok (q, IdrTransitionV1.authoritative_record t, event);
  ac_transition : t = IdrTransitionV1.mk (store_record (IdrTransitionV1.authoritative_record t) q)
    (IdrTransitionV1.authoritative_record t) (txt event) (to_value (Json.to_json (IdrCommandEnvelopeV1.command command)))
    (proof_ids_of proofs) (map VerifiedProductionProofV1.nonce proofs);
}.

Lemma evaluate_Ok p t :
  evaluate_authoritative_transition_v1 minted command now proofs p = Ok t -> exists q event, accepted_by p t q event.
Proof.
  unfold evaluate_authoritative_transition_v1. intros H. apply bind_unit_Ok in H as [Hv H].
  apply reject_Ok in H as [Hid H]. apply bind_unit_Ok in H as [Hs H].
  apply reject_Ok in H as [Hl H]. apply reject_Ok in H as [Hp H].
  apply bind_Ok in H as (version & Hver%ok_or_Ok & H). apply bind_Ok in H as (sequence & Hseq%ok_or_Ok & H).
  apply bind_Ok in H as ([[q r] event] & Harm & H). apply reject_Ok in H as [_ [= <-]].
  apply checked_succ_Some in Hver as [_ ->]; apply checked_succ_Some in Hseq as [_ ->].
  unfold require_command_state in Hs. apply ok_if_Ok in Hs. bsimp.
  exists q, event. split; done.
Qed.

Lemma accepted_frame p t q event : accepted_by p t q event -> frame (advanced p) q.
Proof. intros []. eapply apply_command_frame; eassumption. Qed.

(** ** Dispatch *)

(** Nothing the permit rests on has lapsed. *)
Definition authority_holds (p : IdrRunProjectionV1.t) (e : ExecutionProjectionV1.t) : Prop :=
  IdrRunProjectionV1.records p !! CandidateKindV1.Action = Some (ExecutionProjectionV1.action_ref e) /\
  ExecutionProjectionV1.action_ref e ∉ IdrRunProjectionV1.invalidated_records p /\
  now < ExecutionProjectionV1.lease_until e /\ now < ExecutionProjectionV1.action_valid_until e /\ now < ExecutionProjectionV1.admission_valid_until e /\
  now < ExecutionProjectionV1.authorization_valid_until e /\ now < ExecutionProjectionV1.permit_valid_until e.

Lemma not_expired e :
  execution_authority_expired e now = false <->
  now < ExecutionProjectionV1.lease_until e /\ now < ExecutionProjectionV1.action_valid_until e /\ now < ExecutionProjectionV1.admission_valid_until e /\
  now < ExecutionProjectionV1.authorization_valid_until e /\ now < ExecutionProjectionV1.permit_valid_until e.
Proof. unfold execution_authority_expired. rewrite !orb_false_iff, !N.leb_gt. tauto. Qed.

Lemma current_execution_Ok p r pe e :
  current_execution p r pe = Ok e <->
  IdrRunProjectionV1.execution p = Some e /\ ExecutionProjectionV1.reservation_id e = r /\ ExecutionProjectionV1.permit_id e = pe.
Proof.
  unfold current_execution, is_current_execution.
  rewrite ok_or_Ok, option_filter_Some, andb_true_iff, !bool_decide_true_iff. done.
Qed.

Lemma reserved_execution_Ok p r e :
  reserved_execution p r = Ok e <-> IdrRunProjectionV1.execution p = Some e /\ ExecutionProjectionV1.reservation_id e = r.
Proof. unfold reserved_execution. by rewrite ok_or_Ok, option_filter_Some, bool_decide_true_iff. Qed.

Lemma ensure_Ok p r pe e q b :
  current_execution p r pe = Ok e ->
  ensure_current_execution_action p r pe now = Ok (q, b) ->
  (b = true /\ q = p /\ authority_holds p e) \/
  (b = false /\ q = set_execution_state (revoked_state (ExecutionProjectionV1.state e)) p /\ ~ authority_holds p e).
Proof.
  unfold ensure_current_execution_action. intros He. rewrite He. cbn. unfold authority_holds.
  rewrite <- not_expired. intros H. inv_arm.
  - left. apply andb_true_iff in Heqb0 as [[Hr Hi]%andb_true_iff Hx%negb_true_iff].
    apply bool_decide_eq_true_1 in Hr. apply negb_true_iff, bool_decide_eq_false_1 in Hi. done.
  - right. split_and!; [done..|]. intros (Hr & Hi & Hx). rewrite Hx in Heqb0.
    by rewrite bool_decide_true, bool_decide_false in Heqb0.
Qed.

Lemma advance_permit_Ok required next event p r pe q record ev :
  advance_permit command now required next event p r pe = Ok (q, record, ev) ->
  exists e, current_execution p r pe = Ok e /\ IdrCommandEnvelopeV1.caller_ref command = ExecutionProjectionV1.provider_ref e /\ record = None /\
    ((authority_holds p e /\ ExecutionProjectionV1.state e = required /\ q = set_execution_state next p) \/
     (~ authority_holds p e /\ q = set_execution_state (revoked_state (ExecutionProjectionV1.state e)) p)).
Proof.
  unfold advance_permit. intros H. apply bind_Ok in H as (e & He & H). apply bind_unit_Ok in H as [Hc H].
  unfold require_caller in Hc. apply ok_if_Ok, bool_decide_eq_true_1 in Hc.
  apply bind_Ok in H as ([p' b] & Hb & H). exists e. split; [done|].
  eapply ensure_Ok in Hb; [|done]. destruct Hb as [(-> & -> & Ha)|(-> & -> & Ha)].
  - rewrite He in H. cbn in H. unfold require_execution_state in H. inv_arm. bsimp. split_and!; auto.
  - cbn in H. inv_arm. split_and!; auto.
Qed.

(** C19. An effect is dispatched only by the provider the permit names, once, from a
    delivered permit, while the Action is current and not withdrawn and every
    authority it rests on is in force; when any of them has lapsed the same
    command withdraws the permit instead, and nothing else of the run changes
    but its counters. *)
Theorem dispatch_needs_live_authority p t reservation_id permit_id :
  IdrCommandEnvelopeV1.command command = IdrCommandV1.StartDispatch reservation_id permit_id ->
  evaluate_authoritative_transition_v1 minted command now proofs p = Ok t ->
  exists e, IdrRunProjectionV1.execution p = Some e /\ ExecutionProjectionV1.reservation_id e = reservation_id /\
    ExecutionProjectionV1.permit_id e = permit_id /\ IdrCommandEnvelopeV1.caller_ref command = ExecutionProjectionV1.provider_ref e /\
    ((authority_holds p e /\ ExecutionProjectionV1.state e = ExecutionAggregateStateV1.PermitDelivered /\
      IdrTransitionV1.projection t = set_execution_state ExecutionAggregateStateV1.DispatchStarted (advanced p)) \/
     (~ authority_holds p e /\
      IdrTransitionV1.projection t = set_execution_state (revoked_state (ExecutionProjectionV1.state e)) (advanced p))).
Proof.
  intros Hc (q & event & Ha)%evaluate_Ok. destruct Ha. unfold apply_command in ac_arm0.
  rewrite Hc in ac_arm0. apply advance_permit_Ok in ac_arm0 as (e & He & Hcall & Hr & Hq).
  apply current_execution_Ok in He as (He & Hrid & Hpid). exists e. split_and!; try done.
  rewrite ac_transition0, Hr. cbn. exact Hq.
Qed.
End transition.

(** ** Corrections *)

Section correction.
Context {C : Crates} {P : UuidParser} (minted : Minted.t) (command : IdrCommandEnvelopeV1.t) (now : N) (proofs : list VerifiedProductionProofV1.t).

(** What a correction issues. *)
Lemma correction_issues p t target correction :
  IdrCommandEnvelopeV1.command command = IdrCommandV1.CorrectHumanModelAssertion target correction ->
  evaluate_authoritative_transition_v1 minted command now proofs p = Ok t ->
  IdrRunProjectionV1.records p !! AuthoritativeRecordRefV1.candidate_kind target = Some target /\
  target ∈ IdrRunProjectionV1.invalidated_records (IdrTransitionV1.projection t) /\
  exists r, IdrTransitionV1.authoritative_record t = Some r /\
    IdrRunProjectionV1.records (IdrTransitionV1.projection t) !! CandidateKindV1.HumanModelAssertion = Some (AuthoritativeRecordV1.record_ref r) /\
    AuthoritativeRecordRefV1.candidate_kind (AuthoritativeRecordV1.record_ref r) = CandidateKindV1.HumanModelAssertion /\
    AuthoritativeRecordRefV1.record_id (AuthoritativeRecordV1.record_ref r) = AuthoritativeRecordRefV1.record_id target /\
    AuthoritativeRecordRefV1.revision (AuthoritativeRecordV1.record_ref r) = AuthoritativeRecordRefV1.revision target + 1 /\
    AuthoritativeRecordV1.payload r = CandidateSubmissionV1.payload correction /\
    validate_human_model_correction (AuthoritativeRecordV1.payload r) = Ok tt.
Proof.
  intros Hc (q & event & [])%evaluate_Ok.
  pose proof (validated_kind _ correction ac_valid0) as Hk. rewrite Hc in Hk. injection (Hk eq_refl) as Hk'.
  unfold apply_command in ac_arm0. rewrite Hc in ac_arm0. unfold correct_human_model_assertion in ac_arm0.
  apply bind_unit_Ok in ac_arm0 as [Ht H]. apply bind_unit_Ok in H as [Hv H].
  apply bind_Ok in H as (revision & Hrev%ok_or_Ok & H). apply bind_Ok in H as (r & Hr & [= <- Hrec _]).
  apply checked_succ_Some in Hrev as [_ ->].
  unfold require_exact_governance_target in Ht. apply ok_if_Ok in Ht. rewrite !andb_true_iff in Ht.
  destruct Ht as [[Ht%bool_decide_eq_true_1 _] _].
  apply issue_record_Ok in Hr as (_ & _ & _ & cd & rd & _ & ->). rewrite ac_transition0, <- Hrec. cbn.
  split; [exact Ht|]. split; [set_solver|]. eexists. split; [done|]. cbn. rewrite Hk', lookup_insert_eq. done.
Qed.

(** A correction of the human model withdraws its target and issues the next
    revision under the target's identifier, as a human-model assertion with the
    corrected payload; the target itself may be a current record of any kind. *)
Theorem correction_takes_over_its_target p t target correction :
  IdrCommandEnvelopeV1.command command = IdrCommandV1.CorrectHumanModelAssertion target correction ->
  evaluate_authoritative_transition_v1 minted command now proofs p = Ok t ->
  IdrRunProjectionV1.records p !! AuthoritativeRecordRefV1.candidate_kind target = Some target /\
  target ∈ IdrRunProjectionV1.invalidated_records (IdrTransitionV1.projection t) /\
  exists r, IdrTransitionV1.authoritative_record t = Some r /\
    IdrRunProjectionV1.records (IdrTransitionV1.projection t) !! CandidateKindV1.HumanModelAssertion = Some (AuthoritativeRecordV1.record_ref r) /\
    AuthoritativeRecordRefV1.candidate_kind (AuthoritativeRecordV1.record_ref r) = CandidateKindV1.HumanModelAssertion /\
    AuthoritativeRecordRefV1.record_id (AuthoritativeRecordV1.record_ref r) = AuthoritativeRecordRefV1.record_id target /\
    AuthoritativeRecordRefV1.revision (AuthoritativeRecordV1.record_ref r) = AuthoritativeRecordRefV1.revision target + 1 /\
    AuthoritativeRecordV1.payload r = CandidateSubmissionV1.payload correction /\
    validate_human_model_correction (AuthoritativeRecordV1.payload r) = Ok tt.
Proof. apply correction_issues. Qed.
End correction.

(** ** A step of a run *)

(** C31. Every accepted command advances its run by exactly one version and one event, for
    the version it was written against, and keeps the run's identity; what was invalidated
    or consumed stays so.  It makes at most one record current and leaves the other kinds
    alone: the first or next revision of the record of its kind or, for a correction, the
    next revision under the identifier of its target, a current record of whatever kind
    that the correction withdraws. *)
Theorem transition_advances_run {C : Crates} {P : UuidParser} minted command now proofs p t :
  evaluate_authoritative_transition_v1 minted command now proofs p = Ok t ->
  let q := IdrTransitionV1.projection t in
  IdrCommandEnvelopeV1.expected_aggregate_version command = IdrRunProjectionV1.aggregate_version p /\
  IdrRunProjectionV1.aggregate_version q = IdrRunProjectionV1.aggregate_version p + 1 /\
  IdrRunProjectionV1.last_event_sequence q = IdrRunProjectionV1.last_event_sequence p + 1 /\
  (IdrRunProjectionV1.trust_domain q, IdrRunProjectionV1.environment_ref q, IdrRunProjectionV1.run_id q, IdrRunProjectionV1.tenant_ref q)
    = (IdrRunProjectionV1.trust_domain p, IdrRunProjectionV1.environment_ref p, IdrRunProjectionV1.run_id p, IdrRunProjectionV1.tenant_ref p) /\
  IdrRunProjectionV1.invalidated_records p ⊆ IdrRunProjectionV1.invalidated_records q /\
  IdrRunProjectionV1.response_send_nonces p ⊆ IdrRunProjectionV1.response_send_nonces q /\
  match IdrTransitionV1.authoritative_record t with
  | None => IdrRunProjectionV1.records q = IdrRunProjectionV1.records p
  | Some r =>
      let reference := AuthoritativeRecordV1.record_ref r in
      IdrRunProjectionV1.records q = <[AuthoritativeRecordRefV1.candidate_kind reference := reference]> (IdrRunProjectionV1.records p) /\
      (is_correction (IdrCommandEnvelopeV1.command command) = false ->
       exists kind, issued_kind (IdrCommandEnvelopeV1.command command) = Some kind /\ issued minted command now p kind r) /\
      (forall target correction, IdrCommandEnvelopeV1.command command = IdrCommandV1.CorrectHumanModelAssertion target correction ->
       AuthoritativeRecordRefV1.candidate_kind reference = CandidateKindV1.HumanModelAssertion /\
       AuthoritativeRecordRefV1.record_id reference = AuthoritativeRecordRefV1.record_id target /\
       AuthoritativeRecordRefV1.revision reference = AuthoritativeRecordRefV1.revision target + 1 /\
       IdrRunProjectionV1.records p !! AuthoritativeRecordRefV1.candidate_kind target = Some target /\
       target ∈ IdrRunProjectionV1.invalidated_records q)
  end.
Proof.
  intros He. pose proof (correction_issues minted command now proofs p t) as Hcorrection.
  destruct (evaluate_Ok _ _ _ _ _ _ He) as (q & event & Ha). cbn zeta. pose proof (accepted_frame _ _ _ _ _ _ _ _ Ha) as Hf.
  destruct Ha. destruct (IdrTransitionV1.authoritative_record t) as [r|] eqn:Hr.
  - assert (is_correction (IdrCommandEnvelopeV1.command command) = false ->
      exists kind, issued_kind (IdrCommandEnvelopeV1.command command) = Some kind /\ issued minted command now p kind r) as Hi.
    { intros Hc. apply apply_command_issues in ac_arm0 as (k & Hk & Hi); [|done..]. exists k. split; [done|]. destruct Hi. by split. }
    assert (forall target correction, IdrCommandEnvelopeV1.command command = IdrCommandV1.CorrectHumanModelAssertion target correction -> _)
      as Hc by (intros target correction Hcmd; exact (Hcorrection target correction Hcmd He)).
    clear Hcorrection. rewrite ac_transition0 in *. destruct Hf. cbn in *.
    split_and!; try first [congruence | done | auto].
    intros target correction Hcmd. destruct (Hc _ _ Hcmd) as (Ht & Hw & r' & [= <-] & _ & Hk & Hid & Hrev & _). done.
  - rewrite ac_transition0. destruct Hf. cbn in *. split_and!; first [congruence | done].
Qed.
