(* ===== verification/Authority.v ===== *)
(** * Authority: the PostgreSQL orchestrator ([idr-runtime/src/postgres_authority.rs])

    The orchestrator's own decisions: which proofs a command must carry and how
    they are verified against the current trust root, the second verification of
    the proofs an admission rests on, replay of consumed proofs, the choice of the
    transition, the release gates, the rotation of the trust root, the anchor of
    audit checkpoints and the message authentication of attestations.

    The tables read inside the transaction are arguments: [runs] and
    [consumptions] are the rows of [idr_runs] and [idr_proof_consumptions],
    [load_envelope] reads [idr_proof_envelopes] and [closure] is the recursive
    query over [idr_contract_dependencies]. *)

From stdpp Require Import base list gmap fin_sets countable sorting strings pretty.
From Stdlib Require Import NArith ZArith Lia.
From S2P Require Import Prelude Text Json Crates CanonicalJson Common Production ChainData ChainCommand ChainPayload ChainTransition ChainEvaluate ChainRepository.

Definition repository_failure (message : string) : IdrRuntimeErrorV1.t := IdrRuntimeErrorV1.Repository (txt message).

(** ** Trust roots and checkpoints *)

(** [RotatingTrustRootProviderV1]: the snapshot behind the lock. *)
Definition rotate (current snapshot : TrustRootSnapshotV1.t) : Chain TrustRootSnapshotV1.t :=
  reject TrustRootSnapshotV1.root_version snapshot <=? TrustRootSnapshotV1.root_version current
    with repository_failure "Trust Root version must advance monotonically";
  Ok snapshot.

Module AuditCheckpointV1.
Record t := mk {
  trust_domain : TrustDomainV1.t;
  environment_ref : text;
  tenant_ref : text;
  audit_sequence : Z;
  chain_root : text;
  record_set_root : text;
  execution_state_root : text;
  checkpoint_id : Uuid;
}.
#[global] Instance eq_dec : EqDecision t.
Proof. solve_decision. Defined.
Definition key (c : t) : TrustDomainV1.t * text * text := (trust_domain c, environment_ref c, tenant_ref c).
End AuditCheckpointV1.

(** [AuditCheckpointAnchorBackendV1]: an anchor is a state [S] with two operations. *)
Class AnchorBackend (S : Type) := {
  load_latest : S -> TrustDomainV1.t * text * text -> Chain (option AuditCheckpointV1.t);
  publish : AuditCheckpointV1.t -> S -> Chain S;
}.

(** What the orchestrator needs of an anchor: what was published is read back, other
    tenants are untouched, and a checkpoint is never followed by an older or a
    different one of the same sequence. *)
Class AnchorLaws (S : Type) `{AnchorBackend S} := {
  publish_reads_back : forall c s s', publish c s = Ok s' ->
    load_latest s' (AuditCheckpointV1.key c) = Ok (Some c);
  publish_keeps_others : forall c s s' k, publish c s = Ok s' -> k <> AuditCheckpointV1.key c ->
    load_latest s' k = load_latest s k;
  publish_is_monotonic : forall c s s' c', publish c s = Ok s' ->
    load_latest s (AuditCheckpointV1.key c) = Ok (Some c') ->
    (AuditCheckpointV1.audit_sequence c' < AuditCheckpointV1.audit_sequence c)%Z \/
    AuditCheckpointV1.audit_sequence c' = AuditCheckpointV1.audit_sequence c /\
    AuditCheckpointV1.chain_root c' = AuditCheckpointV1.chain_root c /\
    AuditCheckpointV1.record_set_root c' = AuditCheckpointV1.record_set_root c /\
    AuditCheckpointV1.execution_state_root c' = AuditCheckpointV1.execution_state_root c;
}.

(** [InMemoryAuditCheckpointAnchorV1] *)
Module InMemoryAuditCheckpointAnchorV1.
Definition t : Type := gmap (TrustDomainV1.t * text * text) AuditCheckpointV1.t.

Definition forks (checkpoint current : AuditCheckpointV1.t) : bool :=
  (AuditCheckpointV1.audit_sequence checkpoint <? AuditCheckpointV1.audit_sequence current)%Z
  || ((AuditCheckpointV1.audit_sequence checkpoint =? AuditCheckpointV1.audit_sequence current)%Z
      && ((AuditCheckpointV1.chain_root checkpoint != AuditCheckpointV1.chain_root current)
          || (AuditCheckpointV1.record_set_root checkpoint != AuditCheckpointV1.record_set_root current)
          || (AuditCheckpointV1.execution_state_root checkpoint
                != AuditCheckpointV1.execution_state_root current))).

#[global] Instance backend : AnchorBackend t := {|
  load_latest s k := Ok (s !! k);
  publish checkpoint s :=
    reject is_some_and (forks checkpoint) (s !! AuditCheckpointV1.key checkpoint)
      with repository_failure "external audit checkpoint rollback/fork";
    Ok (<[AuditCheckpointV1.key checkpoint := checkpoint]> s);
|}.
End InMemoryAuditCheckpointAnchorV1.

(** One row of [verify_external_anchor]: the database's latest checkpoint of a tenant
    against the anchor's, which is brought forward when it lags. *)
Definition verify_tenant_anchor {S} `{AnchorBackend S} (trust_domain : TrustDomainV1.t)
    (environment_ref tenant_ref : text) (db_checkpoint : option AuditCheckpointV1.t) (s : S) : Chain S :=
  let key := (trust_domain, environment_ref, tenant_ref) in
  anchor ← load_latest s key;
  match db_checkpoint with
  | Some checkpoint =>
      published ←
        (if match anchor with
            | None => true
            | Some current => (AuditCheckpointV1.audit_sequence current
                               <? AuditCheckpointV1.audit_sequence checkpoint)%Z
            end
         then s ← publish checkpoint s; anchor ← load_latest s key; Ok (s, anchor)
         else Ok (s, anchor));
      reject snd published != Some checkpoint
        with repository_failure "database is behind or forked from the external audit anchor";
      Ok (fst published)
  | None =>
      reject is_some anchor || (trust_domain == TrustDomainV1.Production)
        with repository_failure "database and external checkpoint state are inconsistent";
      Ok s
  end.

(** ** Security context and release gates *)

Module PostgresSecurityContextV1.
Record t := mk {
  trust_domain : TrustDomainV1.t;
  environment_ref : ReferenceV1.t;
  audience_ref : ReferenceV1.t;
  expected_issuers : gmap ProductionProofKindV1.t ReferenceV1.t;
}.

Definition new (trust_domain : TrustDomainV1.t) (environment_ref audience_ref : ReferenceV1.t)
    (expected_issuers : gmap ProductionProofKindV1.t ReferenceV1.t) : Chain t :=
  reject bool_decide (expected_issuers = ∅)
         || negb (audience_matches_environment trust_domain environment_ref audience_ref)
    with repository_failure "expected issuer registry is empty or audience is not domain-namespaced";
  Ok (mk trust_domain environment_ref audience_ref expected_issuers).
End PostgresSecurityContextV1.

Section gates.
Import IdrCommandV1.

Definition is_human_model_write (command : IdrCommandV1.t) : bool :=
  match command with
  | ProposeHumanModelCandidate _ | RecordHumanModelPromotion _ _ | PromoteHumanModelAssertion _ _
  | CorrectHumanModelAssertion _ _ => true
  | _ => false
  end.

Definition is_execution_command (command : IdrCommandV1.t) : bool :=
  match command with
  | ReserveExecution _ _ _ _ _ _ _ _ _ | RecoverPermit _ | DeliverPermit _ _ | StartDispatch _ _
  | CommitExecutionReceipt _ _ _ _ _ _ | ReconcileExecution _ _ | ExpireExecutionLease _ => true
  | _ => false
  end.

Definition enforce_production_command_release_gate (command : IdrCommandV1.t) : Chain unit :=
  let gates := ProductionReleaseGatesV1.BLOCKED in
  reject match command with AdmitAction _ _ _ _ _ => true | _ => false end
         && negb (ProductionReleaseGatesV1.production_authorization_enabled gates)
    with repository_failure "PRODUCTION AUTHORIZATION = NOT AUTHORIZED";
  reject is_execution_command command && negb (ProductionReleaseGatesV1.production_execution_enabled gates)
    with repository_failure "PRODUCTION EXECUTION = NOT AUTHORIZED";
  reject is_human_model_write command
         && negb (ProductionReleaseGatesV1.human_model_long_term_write_enabled gates)
    with repository_failure "HUMAN MODEL LONG-TERM WRITE = NOT AUTHORIZED";
  Ok tt.

(** The commands whose admission proofs are verified a second time. *)
Definition reverifies_admission (command : IdrCommandV1.t) : bool :=
  match command with
  | ReserveExecution _ _ _ _ _ _ _ _ _ | RecoverPermit _ | DeliverPermit _ _ | StartDispatch _ _ => true
  | _ => false
  end.
End gates.

Definition enforce_production_startup_release_gates : Chain unit :=
  let gates := ProductionReleaseGatesV1.BLOCKED in
  let blocked :=
    (if ProductionReleaseGatesV1.trust_chain_closure_complete gates then []
     else ["TRUST CHAIN CLOSURE = INCOMPLETE"%string])
    ++ (if ProductionReleaseGatesV1.production_trust_root_blocked gates
        then ["PRODUCTION TRUST ROOT = BLOCKED"%string] else [])
    ++ (if ProductionReleaseGatesV1.production_authorization_enabled gates then []
        else ["PRODUCTION AUTHORIZATION = NOT AUTHORIZED"%string])
    ++ (if ProductionReleaseGatesV1.production_execution_enabled gates then []
        else ["PRODUCTION EXECUTION = NOT AUTHORIZED"%string])
    ++ (if ProductionReleaseGatesV1.human_model_long_term_write_enabled gates then []
        else ["HUMAN MODEL LONG-TERM WRITE = NOT AUTHORIZED"%string]) in
  match blocked with
  | [] => Ok tt
  | _ => Err (repository_failure (String.concat "; " blocked))
  end.

(** ** Proofs of a command *)

Definition expected_assertion (kind : ProductionProofKindV1.t) : string * string :=
  match kind with
  | ProductionProofKindV1.CallerAuthentication => ("outcome", "authenticate")
  | ProductionProofKindV1.ExactAuthorization => ("decision", "approve")
  | ProductionProofKindV1.InputAdmission => ("outcome", "admit")
  | ProductionProofKindV1.ContextSnapshot => ("outcome", "attest")
  | ProductionProofKindV1.IntentFastPathAdmission | ProductionProofKindV1.DecisionNecessityAdmission | ProductionProofKindV1.TurnCoordinationAdmission =>
      ("outcome", "admit")
  | ProductionProofKindV1.ResponsePolicy | ProductionProofKindV1.ResponseAdmission | ProductionProofKindV1.Authority | ProductionProofKindV1.Capability | ProductionProofKindV1.Policy
  | ProductionProofKindV1.ActionAdmission => ("outcome", "allow")
  | ProductionProofKindV1.ExecutionPermit => ("outcome", "issue")
  | ProductionProofKindV1.ProviderReceipt => ("outcome", "attest")
  | ProductionProofKindV1.OutcomeObservation => ("outcome", "observe")
  | ProductionProofKindV1.HumanModelPromotion => ("outcome", "promote")
  | ProductionProofKindV1.HumanModelUserConfirmation => ("outcome", "confirm")
  | ProductionProofKindV1.HumanModelCorrection => ("outcome", "correct")
  end%string.

Definition proof_assertion_allows (claims : ProductionProofClaimsV1.t) : bool :=
  let expected := expected_assertion (ProductionProofClaimsV1.proof_kind claims) in
  get_str expected.1 (ProductionProofClaimsV1.assertion claims) == Some (txt expected.2).

Section proofs.
Context {C : Crates}.
Context (security : PostgresSecurityContextV1.t) (trust_root : TrustRootSnapshotV1.t).

Definition expected_principal_digest (command : IdrCommandEnvelopeV1.t) : Chain text :=
  map_err IdrRuntimeErrorV1.Protocol (canonical_digest_v1 "idr-command-principal-v1"
    (Arr [Json.to_json (IdrCommandEnvelopeV1.actor_ref command); Json.to_json (IdrCommandEnvelopeV1.caller_ref command)])).

(** What a proof of [kind] about a subject must claim under this command. *)
Definition expected_proof (command : IdrCommandEnvelopeV1.t) (kind : ProductionProofKindV1.t) (issuer_ref subject_ref : ReferenceV1.t)
    (subject_digest : text) : ExpectedProductionProofV1.t :=
  ExpectedProductionProofV1.mk (PostgresSecurityContextV1.trust_domain security)
    (PostgresSecurityContextV1.environment_ref security) kind issuer_ref subject_ref subject_digest
    (PostgresSecurityContextV1.audience_ref security) (IdrCommandEnvelopeV1.tenant_ref command) (IdrCommandEnvelopeV1.scope_ref command)
    (IdrCommandEnvelopeV1.purpose_ref command) (IdrCommandEnvelopeV1.policy_revision_ref command).

Definition issuer_of (kind : ProductionProofKindV1.t) : Chain ReferenceV1.t :=
  ok_or IdrRuntimeErrorV1.MissingRequiredProof (PostgresSecurityContextV1.expected_issuers security !! kind).

Definition envelope_kind (proof : ProductionProofEnvelopeV1.t) : ProductionProofKindV1.t :=
  ProductionProofClaimsV1.proof_kind (ProductionProofEnvelopeV1.claims proof).

Definition verify_command_proof (command : IdrCommandEnvelopeV1.t) (subject : ReferenceV1.t * text) (trusted_now : N)
    (proof : ProductionProofEnvelopeV1.t) : Chain VerifiedProductionProofV1.t :=
  issuer_ref ← issuer_of (envelope_kind proof);
  map_err IdrRuntimeErrorV1.Protocol (TrustRootSnapshotV1.verify_at trust_root proof
    (expected_proof command (envelope_kind proof) issuer_ref subject.1 subject.2) trusted_now).

Definition verify_proofs_inside_transaction (command : IdrCommandEnvelopeV1.t) (trusted_now : N) : Chain (list VerifiedProductionProofV1.t) :=
  let required := Envelope.required_proof_kinds command in
  let found : gset ProductionProofKindV1.t := list_to_set (map envelope_kind (IdrCommandEnvelopeV1.proofs command)) in
  reject (found != required) || negb (lenN (IdrCommandEnvelopeV1.proofs command) =? N.of_nat (size required))
    with IdrRuntimeErrorV1.MissingRequiredProof;
  principal_digest ← expected_principal_digest command;
  reject existsb (fun proof =>
           let claims := ProductionProofEnvelopeV1.claims proof in
           negb (proof_assertion_allows claims)
           || (ProductionProofClaimsV1.principal_digest claims != principal_digest))
           (IdrCommandEnvelopeV1.proofs command)
    with IdrRuntimeErrorV1.BindingMismatch;
  subject ← Envelope.proof_subject command;
  collect_map (verify_command_proof command subject trusted_now) (IdrCommandEnvelopeV1.proofs command).

(** ** The proofs an admission rests on *)

Context (load_envelope : Uuid -> Chain ProductionProofEnvelopeV1.t).

(** The loop body of [reverify_bound_action_admission_proofs]. *)
Definition reverify_binding (command : IdrCommandEnvelopeV1.t) (trusted_now : N) (admission : ActionAdmissionProjectionV1.t) (kind : ProductionProofKindV1.t) :
    Chain unit :=
  binding ← ok_or IdrRuntimeErrorV1.ActionNotAdmitted (ActionAdmissionProjectionV1.proof_bindings admission !! kind);
  envelope ← load_envelope (ActionAdmissionProofBindingV1.proof_id binding);
  let claims := ProductionProofEnvelopeV1.claims envelope in
  issuer_ref ← issuer_of kind;
  reject (ProductionProofClaimsV1.proof_id claims != ActionAdmissionProofBindingV1.proof_id binding)
         || (ProductionProofClaimsV1.proof_kind claims != kind)
         || negb (ProductionProofClaimsV1.expires_at claims
                    =? ActionAdmissionProofBindingV1.valid_until binding)
         || (ProductionProofClaimsV1.tenant_ref claims != IdrCommandEnvelopeV1.tenant_ref command)
         || (ProductionProofClaimsV1.scope_ref claims != IdrCommandEnvelopeV1.scope_ref command)
         || (ProductionProofClaimsV1.purpose_ref claims != IdrCommandEnvelopeV1.purpose_ref command)
         || (ProductionProofClaimsV1.policy_revision_ref claims != IdrCommandEnvelopeV1.policy_revision_ref command)
         || negb (proof_assertion_allows claims)
    with IdrRuntimeErrorV1.ActionNotAdmitted;
  _ ← map_err (fun _ => IdrRuntimeErrorV1.ActionNotAdmitted)
        (TrustRootSnapshotV1.verify_at trust_root envelope
          (expected_proof command kind issuer_ref (ProductionProofClaimsV1.subject_ref claims)
            (ProductionProofClaimsV1.subject_digest claims)) trusted_now);
  Ok tt.

Definition reverify_bound_action_admission_proofs (projection : IdrRunProjectionV1.t) (command : IdrCommandEnvelopeV1.t)
    (trusted_now : N) : Chain unit :=
  if negb (reverifies_admission (IdrCommandEnvelopeV1.command command)) then Ok tt
  else
    admission ← ok_or IdrRuntimeErrorV1.ActionNotAdmitted (IdrRunProjectionV1.action_admission projection);
    reject negb (N.of_nat (size (ActionAdmissionProjectionV1.proof_bindings admission)) =? lenN ACTION_ADMISSION_PROOF_KINDS_V1)
           || match ActionAdmissionProjectionV1.proof_bindings admission !! ProductionProofKindV1.ExactAuthorization with
              | None => true
              | Some binding =>
                  (ActionAdmissionProofBindingV1.proof_id binding != ActionAdmissionProjectionV1.exact_authorization_proof_id admission)
                  || negb (ActionAdmissionProofBindingV1.valid_until binding
                             =? ActionAdmissionProjectionV1.authorization_valid_until admission)
              end
      with IdrRuntimeErrorV1.ActionNotAdmitted;
    for_each (reverify_binding command trusted_now admission) ACTION_ADMISSION_PROOF_KINDS_V1.

(** ** The transaction *)

Record consumption := mkConsumption {
  consumed_domain : TrustDomainV1.t;
  consumed_environment : ReferenceV1.t;
  consumed_tenant : ReferenceV1.t;
  consumed_proof : Uuid;
  consumed_nonce : text;
}.

(** The [EXISTS] of [check_proof_replay] *)
Definition replays (trust_domain : TrustDomainV1.t) (command : IdrCommandEnvelopeV1.t) (proof : VerifiedProductionProofV1.t) (c : consumption) : bool :=
  (consumed_domain c == trust_domain) && (consumed_environment c == IdrCommandEnvelopeV1.environment_ref command)
  && ((consumed_proof c == VerifiedProductionProofV1.proof_id proof)
      || ((consumed_tenant c == IdrCommandEnvelopeV1.tenant_ref command) && (consumed_nonce c == VerifiedProductionProofV1.nonce proof))).

Definition check_proof_replay (consumptions : list consumption) (command : IdrCommandEnvelopeV1.t) (proofs : list VerifiedProductionProofV1.t) :
    Chain unit :=
  for_each (fun proof =>
      reject existsb (replays (PostgresSecurityContextV1.trust_domain security) command proof) consumptions
        with IdrRuntimeErrorV1.ProofReplay;
      Ok tt) proofs.

(** [persist_proof_consumptions]: one row for every proof *)
Definition persist_proof_consumptions (command : IdrCommandEnvelopeV1.t) (proofs : list VerifiedProductionProofV1.t)
    (consumptions : list consumption) : list consumption :=
  consumptions ++ map (fun proof =>
    mkConsumption (PostgresSecurityContextV1.trust_domain security) (IdrCommandEnvelopeV1.environment_ref command)
      (IdrCommandEnvelopeV1.tenant_ref command) (VerifiedProductionProofV1.proof_id proof) (VerifiedProductionProofV1.nonce proof)) proofs.

Context {P : UuidParser} (closure : AuthoritativeRecordRefV1.t -> Chain (list AuthoritativeRecordRefV1.t)).

(** The records a command's new record supersedes, with those that depend on it. *)
Definition superseded_closure (superseded : option AuthoritativeRecordRefV1.t) (transition : IdrTransitionV1.t) :
    Chain IdrTransitionV1.t :=
  match superseded with
  | Some previous =>
      if is_some_and (fun record =>
             (AuthoritativeRecordRefV1.candidate_kind (AuthoritativeRecordV1.record_ref record) == AuthoritativeRecordRefV1.candidate_kind previous)
             && (AuthoritativeRecordV1.record_ref record != previous))
           (IdrTransitionV1.authoritative_record transition)
      then records ← closure previous;
           Ok (apply_repository_invalidation_closure transition records false)
      else Ok transition
  | None => Ok transition
  end.

(** [let transition = match bound_admission_result { ... }] *)
Definition choose_transition (minted : Minted.t) (bound_admission_result : Chain unit) (command : IdrCommandEnvelopeV1.t)
    (trusted_now : N) (verified_proofs : list VerifiedProductionProofV1.t) (projection : IdrRunProjectionV1.t) : Chain IdrTransitionV1.t :=
  match bound_admission_result with
  | Ok _ =>
      let superseded := Command.expected_candidate_kind (IdrCommandEnvelopeV1.command command)
                          ≫= fun kind => IdrRunProjectionV1.records projection !! kind in
      transition ← evaluate_authoritative_transition_v1 minted command trusted_now verified_proofs projection;
      match IdrCommandEnvelopeV1.command command with
      | IdrCommandV1.InvalidateRecord record_ref _ =>
          records ← closure record_ref;
          Ok (apply_repository_invalidation_closure transition records true)
      | _ => superseded_closure superseded transition
      end
  | Err IdrRuntimeErrorV1.ActionNotAdmitted =>
      admission ← ok_or IdrRuntimeErrorV1.ActionNotAdmitted (IdrRunProjectionV1.action_admission projection);
      records ← closure (ActionAdmissionProjectionV1.admission_ref admission);
      transition ← action_admission_proof_failure projection command verified_proofs;
      Ok (apply_repository_invalidation_closure transition records false)
  | Err error => Err error
  end.

(** The run's stored projection, or the pending one of a run that starts. *)
Definition load_projection (runs : gmap Uuid IdrRunProjectionV1.t) (command : IdrCommandEnvelopeV1.t) : Chain IdrRunProjectionV1.t :=
  match runs !! IdrCommandEnvelopeV1.run_id command with
  | Some projection => Ok projection
  | None =>
      match IdrCommandEnvelopeV1.command command with
      | IdrCommandV1.StartRun _ =>
          if IdrCommandEnvelopeV1.expected_aggregate_version command =? 0
          then Ok (IdrRunProjectionV1.pending (PostgresSecurityContextV1.trust_domain security)
                     (PostgresSecurityContextV1.environment_ref security) (IdrCommandEnvelopeV1.run_id command)
                     (IdrCommandEnvelopeV1.tenant_ref command))
          else Err IdrRuntimeErrorV1.MissingDependency
      | _ => Err IdrRuntimeErrorV1.MissingDependency
      end
  end.

(** [idr_execution_state_transition_allowed_v5] of migration 0007, the guard on every
    update of [idr_execution_reservations] and [idr_execution_attempts];
    [governance] is the purpose [governance_proof_revocation]. *)
Definition execution_state_transition_allowed (governance : bool) (old_state new_state : ExecutionAggregateStateV1.t) : bool :=
  (old_state == new_state)
  || ((old_state == ExecutionAggregateStateV1.ReservationCreated) && (new_state == ExecutionAggregateStateV1.PermitIssued))
  || ((old_state == ExecutionAggregateStateV1.PermitIssued) && contains new_state [ExecutionAggregateStateV1.PermitDelivered; ExecutionAggregateStateV1.Expired; ExecutionAggregateStateV1.Cancelled])
  || ((old_state == ExecutionAggregateStateV1.PermitDelivered) && contains new_state [ExecutionAggregateStateV1.DispatchStarted; ExecutionAggregateStateV1.Expired; ExecutionAggregateStateV1.Cancelled])
  || (in_flight old_state
      && contains new_state [ExecutionAggregateStateV1.ReconciliationRequired; ExecutionAggregateStateV1.Succeeded; ExecutionAggregateStateV1.Failed; ExecutionAggregateStateV1.Rejected; ExecutionAggregateStateV1.Compensated])
  || ((old_state == ExecutionAggregateStateV1.ReconciliationRequired)
      && contains new_state [ExecutionAggregateStateV1.Succeeded; ExecutionAggregateStateV1.Failed; ExecutionAggregateStateV1.Rejected; ExecutionAggregateStateV1.Compensated])
  || (contains old_state [ExecutionAggregateStateV1.Failed; ExecutionAggregateStateV1.Rejected; ExecutionAggregateStateV1.Expired] && (new_state == ExecutionAggregateStateV1.PermitIssued))
  || ((new_state == ExecutionAggregateStateV1.ReconciliationRequired) && governance).

(** The execution's row in [persist_specialized_projection]: a new reservation is
    inserted, an old one is updated under the guard. *)
Definition persist_execution_row (governance : bool) (before after : option ExecutionProjectionV1.t) : Chain unit :=
  match before, after with
  | Some old, Some new =>
      reject (ExecutionProjectionV1.reservation_id old == ExecutionProjectionV1.reservation_id new)
             && negb (execution_state_transition_allowed governance (ExecutionProjectionV1.state old) (ExecutionProjectionV1.state new))
        with repository_failure "Execution reservation update is not a contiguous legal transition";
      Ok tt
  | _, _ => Ok tt
  end.

(** [event_type().starts_with("action_admission_proof_revoked_")] *)
Definition is_governance (transition : IdrTransitionV1.t) : bool :=
  is_some (strip_prefix (txt "action_admission_proof_revoked_") (IdrTransitionV1.event_type transition)).

(** [transact_inner] for a command identifier not seen before: the runs and the
    consumptions it leaves, and the transition it persists. *)
Definition transact (minted : Minted.t) (command : IdrCommandEnvelopeV1.t) (trusted_now : N)
    (tables : gmap Uuid IdrRunProjectionV1.t * list consumption) :
    Chain (gmap Uuid IdrRunProjectionV1.t * list consumption * IdrTransitionV1.t) :=
  let '(runs, consumptions) := tables in
  reject (TrustRootSnapshotV1.trust_domain trust_root != PostgresSecurityContextV1.trust_domain security)
         || (TrustRootSnapshotV1.environment_ref trust_root != PostgresSecurityContextV1.environment_ref security)
    with IdrRuntimeErrorV1.BindingMismatch;
  verified_proofs ← verify_proofs_inside_transaction command trusted_now;
  projection ← load_projection runs command;
  let bound_admission_result := reverify_bound_action_admission_proofs projection command trusted_now in
  _ ← check_proof_replay consumptions command verified_proofs;
  transition ← choose_transition minted bound_admission_result command trusted_now verified_proofs projection;
  _ ← persist_execution_row (is_governance transition) (IdrRunProjectionV1.execution projection)
        (IdrRunProjectionV1.execution (IdrTransitionV1.projection transition));
  Ok (<[IdrRunProjectionV1.run_id (IdrTransitionV1.projection transition) := IdrTransitionV1.projection transition]> runs,
      persist_proof_consumptions command verified_proofs consumptions, transition).

(** The guards of [handle] before the transaction; [production] and [human_model_write]
    are the build's features. *)
Definition handle (production human_model_write : bool) (minted : Minted.t) (command : IdrCommandEnvelopeV1.t)
    (trusted_now : N) (tables : gmap Uuid IdrRunProjectionV1.t * list consumption) :
    Chain (gmap Uuid IdrRunProjectionV1.t * list consumption * IdrTransitionV1.t) :=
  _ ← (if production && (PostgresSecurityContextV1.trust_domain security == TrustDomainV1.Production)
       then enforce_production_command_release_gate (IdrCommandEnvelopeV1.command command) else Ok tt);
  reject is_human_model_write (IdrCommandEnvelopeV1.command command) && negb human_model_write
    with repository_failure "HUMAN MODEL LONG-TERM WRITE = NOT AUTHORIZED";
  _ ← Envelope.validate command;
  reject IdrCommandEnvelopeV1.trust_domain command != PostgresSecurityContextV1.trust_domain security
    with IdrRuntimeErrorV1.BindingMismatch;
  reject IdrCommandEnvelopeV1.environment_ref command != PostgresSecurityContextV1.environment_ref security
    with IdrRuntimeErrorV1.BindingMismatch;
  transact minted command trusted_now tables.
End proofs.

(** ** Runs under the orchestrator *)

(** One accepted command: the tables before and after. *)
Definition tables : Type := gmap Uuid IdrRunProjectionV1.t * list consumption.

Section runs.
Context {C : Crates} {P : UuidParser} (security : PostgresSecurityContextV1.t).

(** The trust root, the stored proofs and the dependency rows may be different at
    every step. *)
Inductive authority_step : tables -> tables -> Prop :=
| accepted trust_root load_envelope closure production human_model_write minted command now
    before after transition :
    handle security trust_root load_envelope closure production human_model_write minted command now before
      = Ok (after, transition) ->
    authority_step before after.

Definition authority_reachable : tables -> tables -> Prop := rtc authority_step.
End runs.

(** ** Attestations *)

(** [OrchestratorAttestationKeyV1::mac]: the key padded to a block, HMAC-SHA256. *)
Definition mac {C : Crates} (key payload : list N) : text :=
  let key_block := key ++ repeat 0 (64 - length key) in
  let inner_pad := map (N.lxor 54) key_block in
  let outer_pad := map (N.lxor 92) key_block in
  encode_hex (sha256 (outer_pad ++ sha256 (inner_pad ++ payload))).

Definition hex_utf8 (value : text) : text := encode_hex (as_bytes value).

Definition join_lines (lines : list text) : text :=
  match lines with
  | [] => []
  | line :: lines => line ++ concat (map (fun l => 10 :: l) lines)
  end.

Module Attestation.
Record t := mk {
  trust_domain : text;
  environment_ref : text;
  purpose : text;
  attestation_id : Uuid;
  command_id : Uuid;
  run_id : Uuid;
  tenant_ref : text;
  pre_aggregate_version : N;
  post_aggregate_version : N;
  command_digest : text;
  transition_digest : text;
  database_txid : Z;
  backend_pid : Z;
  nonce : Uuid;
  key_version : Z;
}.

Section with_crates.
Context {C : Crates}.

Definition material_lines (a : t) : list text :=
  [txt "IDR-ORCHESTRATOR-ATTESTATION-V1"; trust_domain a; hex_utf8 (environment_ref a); purpose a;
   uuid_hyphenated (attestation_id a); uuid_hyphenated (command_id a); uuid_hyphenated (run_id a);
   hex_utf8 (tenant_ref a); dec_text (pre_aggregate_version a); dec_text (post_aggregate_version a);
   command_digest a; transition_digest a; txt (pretty (database_txid a)); txt (pretty (backend_pid a));
   uuid_hyphenated (nonce a); txt (pretty (key_version a))].

(** [orchestrator_attestation_material_v1] *)
Definition material (a : t) : Chain (list N) :=
  reject negb (str_len (command_digest a) =? 64) || negb (str_len (transition_digest a) =? 64)
         || (post_aggregate_version a <? pre_aggregate_version a)
    with IdrRuntimeErrorV1.SerializationFailed;
  Ok (as_bytes (join_lines (material_lines a))).

(** [verify_attestation_row] of a row whose columns have been read *)
Definition verify_row (security : PostgresSecurityContextV1.t) (key : list N) (version : Z) (a : t)
    (stored_mac : text) : Chain Uuid :=
  reject (trust_domain a != domain_name (PostgresSecurityContextV1.trust_domain security))
         || (environment_ref a != ReferenceV1.as_str (PostgresSecurityContextV1.environment_ref security))
         || negb (key_version a =? version)%Z || (post_aggregate_version a <? pre_aggregate_version a)
    with IdrRuntimeErrorV1.IntegrityViolation;
  bytes ← material a;
  reject mac key bytes != stored_mac with IdrRuntimeErrorV1.IntegrityViolation;
  Ok (attestation_id a).
End with_crates.
End Attestation.
