(* ===== verification/ChainExecution.v ===== *)
(** * ChainExecution: the life of an execution

    What the commands do to the execution of a run: the moves of its state, the
    deadlines a reservation is bound by, and that an effect that may have reached
    the provider is never forgotten. *)

From stdpp Require Import base list gmap fin_sets countable sorting strings.
From Stdlib Require Import NArith ZArith Lia.
From S2P Require Import Prelude Text Json Crates CanonicalJson Common Production ChainData ChainCommand ChainPayload ChainTransition ChainEvaluate ChainRepository ChainProps Authority.

(** ** States *)

(** The effect may have reached the provider. *)
Definition dispatched (state : ExecutionAggregateStateV1.t) : bool :=
  contains state [ExecutionAggregateStateV1.DispatchStarted; ExecutionAggregateStateV1.AwaitingProvider; ExecutionAggregateStateV1.ReconciliationRequired; ExecutionAggregateStateV1.Succeeded;
                  ExecutionAggregateStateV1.Failed; ExecutionAggregateStateV1.Rejected; ExecutionAggregateStateV1.Compensated].

(** A receipt says how it ended. *)
Definition settled (state : ExecutionAggregateStateV1.t) : bool :=
  contains state [ExecutionAggregateStateV1.Succeeded; ExecutionAggregateStateV1.Failed; ExecutionAggregateStateV1.Rejected; ExecutionAggregateStateV1.Compensated].

(** The run accepts new work. *)
Definition run_open (state : IdrRunStateV1.t) : bool :=
  contains state [IdrRunStateV1.Pending; IdrRunStateV1.Running; IdrRunStateV1.WaitingInput; IdrRunStateV1.WaitingAuthorization; IdrRunStateV1.WaitingDependency].

(** The moves a command makes on the state of an execution. *)
Inductive moves (command : IdrCommandV1.t) : ExecutionAggregateStateV1.t -> ExecutionAggregateStateV1.t -> Prop :=
| move_none s : moves command s s
| move_cancel s : moves command s ExecutionAggregateStateV1.Cancelled
| move_reconcile s : in_flight s = true -> moves command s ExecutionAggregateStateV1.ReconciliationRequired
| move_expire s : contains s [ExecutionAggregateStateV1.PermitIssued; ExecutionAggregateStateV1.PermitDelivered] = true -> moves command s ExecutionAggregateStateV1.Expired
| move_deliver : moves command ExecutionAggregateStateV1.PermitIssued ExecutionAggregateStateV1.PermitDelivered
| move_dispatch : moves command ExecutionAggregateStateV1.PermitDelivered ExecutionAggregateStateV1.DispatchStarted
| move_settle s s' reservation permit provider nonce attempt receipt :
    command = IdrCommandV1.CommitExecutionReceipt receipt reservation permit provider nonce attempt ->
    in_flight s = true \/ s = ExecutionAggregateStateV1.ReconciliationRequired -> settled s' = true -> moves command s s'.
#[export] Hint Constructors moves : chain.

(** The deadlines of an execution, each within the ones it rests on. *)
Definition lease_bounded (e : ExecutionProjectionV1.t) : Prop :=
  ExecutionProjectionV1.lease_until e <= ExecutionProjectionV1.permit_valid_until e /\
  ExecutionProjectionV1.permit_valid_until e <= ExecutionProjectionV1.action_valid_until e /\
  ExecutionProjectionV1.permit_valid_until e <= ExecutionProjectionV1.admission_valid_until e /\
  ExecutionProjectionV1.permit_valid_until e <= ExecutionProjectionV1.authorization_valid_until e.

Lemma lease_bounded_state s e : lease_bounded (ExecutionProjectionV1.with_state s e) <-> lease_bounded e.
Proof. done. Qed.

Lemma minimum_le ns m : minimum ns = Some m -> forall n, n ∈ ns -> m <= n.
Proof.
  destruct ns as [|a ns]; [done|]. intros [= <-]. revert a.
  assert (forall a n, n = a \/ n ∈ ns -> foldl N.min a ns <= n) as H.
  { induction ns as [|b ns IH]; intros a n Hn; cbn.
    - destruct Hn as [->|Hn]; [lia|by apply elem_of_nil in Hn].
    - destruct Hn as [->|[->|Hn]%elem_of_cons].
      + etrans; [by apply IH; left|]. lia.
      + etrans; [by apply IH; left|]. lia.
      + by apply IH; right. }
  intros a n [->|Hn]%elem_of_cons; auto.
Qed.

(** ** What a command does to the execution *)

Inductive execution_step (minted : Minted.t) (command : IdrCommandV1.t) (now : N) (p q : IdrRunProjectionV1.t) : Prop :=
| step_kept :
    IdrRunProjectionV1.execution q = IdrRunProjectionV1.execution p ->
    (run_open (IdrRunProjectionV1.state q) = true -> run_open (IdrRunProjectionV1.state p) = true) ->
    execution_step minted command now p q
| step_moved e s :
    IdrRunProjectionV1.execution p = Some e -> IdrRunProjectionV1.execution q = Some (ExecutionProjectionV1.with_state s e) ->
    moves command (ExecutionProjectionV1.state e) s ->
    (run_open (IdrRunProjectionV1.state q) = true -> settled s = true -> s = ExecutionProjectionV1.state e /\ run_open (IdrRunProjectionV1.state p) = true) ->
    execution_step minted command now p q
| step_reserved e reference key attempt :
    IdrRunProjectionV1.execution q = Some e -> ExecutionProjectionV1.state e = ExecutionAggregateStateV1.PermitIssued -> run_open (IdrRunProjectionV1.state p) = true ->
    reservation_for minted p reference key attempt = Ok (ExecutionProjectionV1.reservation_id e) ->
    lease_bounded e -> now < ExecutionProjectionV1.lease_until e -> execution_step minted command now p q.

Lemma set_execution_state_Some s p e :
  IdrRunProjectionV1.execution p = Some e -> IdrRunProjectionV1.execution (set_execution_state s p) = Some (ExecutionProjectionV1.with_state s e).
Proof. unfold set_execution_state. cbn. by intros ->. Qed.

Lemma revoked_moves command s : moves command s (revoked_state s).
Proof. unfold revoked_state. destruct (in_flight s) eqn:?; auto with chain. Qed.

Lemma revoked_unsettled s : settled (revoked_state s) = false.
Proof. unfold revoked_state. by destruct (in_flight s). Qed.

Lemma revoke_step minted command now p q e :
  IdrRunProjectionV1.execution p = Some e -> IdrRunProjectionV1.execution q = Some (ExecutionProjectionV1.with_state (revoked_state (ExecutionProjectionV1.state e)) e) ->
  execution_step minted command now p q.
Proof.
  intros. eapply step_moved; [done..|apply revoked_moves|]. rewrite revoked_unsettled. discriminate.
Qed.

Section arms.
Context {C : Crates} {P : UuidParser} (minted : Minted.t) (command : IdrCommandEnvelopeV1.t) (now : N) (proofs : list VerifiedProductionProofV1.t).

Lemma reserve_step p aref ref d pr ow key att lease nonce q r ev :
  run_open (IdrRunProjectionV1.state p) = true ->
  reserve_execution minted command now proofs p aref ref d pr ow key att lease nonce = Ok (q, r, ev) ->
  execution_step minted (IdrCommandEnvelopeV1.command command) now p q.
Proof.
  intros Ho. unfold reserve_execution. intros H. inv_arm.
  match goal with E : minimum _ = Some ?m |- _ => pose proof (minimum_le _ _ E) as Hmin end.
  match goal with E : reservation_mismatch _ _ _ _ _ _ _ _ _ _ _ = false |- _ =>
    unfold reservation_mismatch in E end. bsimp.
  eapply step_reserved; cbn; try done.
  unfold lease_bounded. cbn. split_and!; first [lia | apply Hmin; set_solver].
Qed.

Lemma advance_step required next event p rid pid q r ev :
  moves (IdrCommandEnvelopeV1.command command) required next -> settled next = false ->
  advance_permit command now required next event p rid pid = Ok (q, r, ev) ->
  execution_step minted (IdrCommandEnvelopeV1.command command) now p q.
Proof.
  intros Hm Hn (e & (He & _)%current_execution_Ok & _ & _ & Hq)%advance_permit_Ok.
  destruct Hq as [(_ & Hs & ->)|(_ & ->)].
  - eapply step_moved; [done|by apply set_execution_state_Some|congruence|]. rewrite Hn. discriminate.
  - eapply revoke_step; [done|by apply set_execution_state_Some].
Qed.
End arms.

Ltac kept := apply step_kept; [reflexivity|cbn; first [done | discriminate | auto]].

Lemma run_state_after_closed s rs : run_state_after s = Ok rs -> settled s = true /\ run_open rs = false.
Proof. by destruct s; intros [= <-]. Qed.

Lemma settled_cases s : settled s = true -> dispatched s = true.
Proof. by destruct s. Qed.

Lemma elem_of_three {A} (x a b c : A) : x ∈ [a; b; c] -> x = a \/ x = b \/ x = c.
Proof. rewrite !elem_of_cons, elem_of_nil. tauto. Qed.

Section apply.
Context {C : Crates} {P : UuidParser} (minted : Minted.t) (command : IdrCommandEnvelopeV1.t) (now : N) (proofs : list VerifiedProductionProofV1.t).

Lemma commit_step p receipt rid pid pr nonce att q r ev :
  IdrCommandEnvelopeV1.command command = IdrCommandV1.CommitExecutionReceipt receipt rid pid pr nonce att ->
  commit_execution_receipt minted command now proofs p receipt rid pid pr nonce att = Ok (q, r, ev) ->
  execution_step minted (IdrCommandEnvelopeV1.command command) now p q.
Proof.
  intros Hc H. unfold commit_execution_receipt in H. inv_arm.
  match goal with E : current_execution _ _ _ = Ok ?e |- _ => apply current_execution_Ok in E as (He & _) end.
  match goal with E : run_state_after ?s = Ok _ |- _ => apply run_state_after_closed in E as [Hs Hr] end.
  eapply step_moved; [done|cbn; by rewrite He|..].
  - eapply move_settle; [done| |done].
    match goal with E : _ || _ = false |- _ => apply orb_false_iff in E as [E _] end. bsimp.
    match goal with E : ExecutionProjectionV1.state _ ∈ _ |- _ => apply elem_of_three in E as [->|[->| ->]] end; auto.
  - cbn. congruence.
Qed.

Lemma apply_command_execution p q r ev :
  command_allowed (IdrRunProjectionV1.state p) (IdrCommandEnvelopeV1.command command) = true ->
  apply_command minted command now proofs p = Ok (q, r, ev) ->
  execution_step minted (IdrCommandEnvelopeV1.command command) now p q.
Proof.
  unfold apply_command. intros Ha H. destruct (IdrCommandEnvelopeV1.command command) eqn:Hc.
  - unfold start_run in H. inv_arm. apply step_kept; [done|].
    match goal with E : require_state ?s _ = Ok _ |- _ => by destruct s end.
  - unfold record_context in H. inv_arm. kept.
  - unfold record_intent in H. inv_arm; kept.
  - unfold record_decision in H. inv_arm. kept.
  - unfold record_turn in H. inv_arm. kept.
  - unfold record_response in H. inv_arm. kept.
  - unfold consume_response_send in H. inv_arm. kept.
  - unfold record_action, revoke_unless_terminal in H. inv_arm. cbn.
    destruct (IdrRunProjectionV1.execution p) as [e|] eqn:He; [destruct (ExecutionAggregateStateV1.is_terminal _)|];
      try (apply step_kept; [cbn; by rewrite ?He|done]).
    eapply revoke_step; [done|]. cbn. by rewrite He.
  - unfold admit_action in H. inv_arm. kept.
  - rewrite <- Hc. eapply reserve_step; [|done]. by destruct (IdrRunProjectionV1.state p).
  - unfold recover_permit in H. apply bind_Ok in H as (e & [He _]%reserved_execution_Ok & H).
    inv_arm; [|kept]. eapply step_moved; [done|by apply set_execution_state_Some| |discriminate].
    apply move_expire. by apply negb_false_iff.
  - rewrite <- Hc. eapply advance_step; [..|exact H]; [auto with chain|done].
  - rewrite <- Hc. eapply advance_step; [..|exact H]; [auto with chain|done].
  - rewrite <- Hc. by eapply commit_step.
  - unfold reconcile_execution in H. apply bind_Ok in H as (e & [He _]%reserved_execution_Ok & H).
    inv_arm. eapply step_moved; [done|by apply set_execution_state_Some| |discriminate].
    unfold require_execution_state in *. inv_arm. bsimp.
    match goal with E : ExecutionProjectionV1.state e = _ |- _ => rewrite E end. constructor.
  - unfold expire_execution_lease in H. apply bind_Ok in H as (e & [He _]%reserved_execution_Ok & H).
    inv_arm; (eapply step_moved; [done|by apply set_execution_state_Some| |discriminate]); auto with chain.
  - unfold invalidate_record in H. inv_arm. cbn.
    destruct (IdrRunProjectionV1.execution p) as [e|] eqn:He; [destruct (_ && _)|];
      try (apply step_kept; [cbn; by rewrite ?He|done]).
    eapply revoke_step; [done|]. cbn. by rewrite He.
  - unfold record_outcome in H. inv_arm. kept.
  - unfold propose_human_model_candidate in H. inv_arm. kept.
  - unfold record_human_model_promotion in H. inv_arm. kept.
  - unfold promote_human_model_assertion in H. inv_arm. kept.
  - unfold correct_human_model_assertion in H. inv_arm. kept.
  - unfold cancel_run in H. inv_arm. kept.
Qed.
End apply.

(** ** What the repository adds *)

(** Withdrawing records changes an execution's state only, keeps on which side of
    the dispatch it is and invents no settlement. *)
Definition softened (e e' : ExecutionProjectionV1.t) : Prop :=
  exists s, e' = ExecutionProjectionV1.with_state s e /\ dispatched s = dispatched (ExecutionProjectionV1.state e) /\
    (settled s = true -> s = ExecutionProjectionV1.state e) /\
    (dispatched (ExecutionProjectionV1.state e) = false -> s = ExecutionProjectionV1.state e \/ s = ExecutionAggregateStateV1.Cancelled).

#[export] Instance softened_refl : Reflexive softened.
Proof. intros e. exists (ExecutionProjectionV1.state e). split; [by destruct e|auto]. Qed.

#[export] Instance softened_trans : Transitive softened.
Proof.
  intros e1 ? ? (s & -> & Hd & Hs & Hc) (s' & -> & Hd' & Hs' & Hc'). cbn in *.
  exists s'. split_and!; [done|congruence| |].
  - intros H. specialize (Hs' H). subst. auto.
  - intros H. destruct Hc' as [->| ->]; [congruence| |]; auto.
Qed.

Lemma withdraw_bindings_execution r p :
  IdrRunProjectionV1.execution (withdraw_bindings r p) = IdrRunProjectionV1.execution p /\ IdrRunProjectionV1.state (withdraw_bindings r p) = IdrRunProjectionV1.state p.
Proof. unfold withdraw_bindings. by repeat case_match. Qed.

Lemma withdraw_softens p r :
  option_Forall2 softened (IdrRunProjectionV1.execution p) (IdrRunProjectionV1.execution (withdraw p r)) /\
  IdrRunProjectionV1.state (withdraw p r) = IdrRunProjectionV1.state p.
Proof.
  unfold withdraw, withdraw_execution.
  destruct (withdraw_bindings_execution r (IdrRunProjectionV1.with_invalidated_records ({[r]} ∪ IdrRunProjectionV1.invalidated_records p) p))
    as [He Hs].
  cbn in He, Hs. revert He Hs. generalize (withdraw_bindings r
    (IdrRunProjectionV1.with_invalidated_records ({[r]} ∪ IdrRunProjectionV1.invalidated_records p) p)) as q. intros q He Hs.
  rewrite He. destruct (IdrRunProjectionV1.execution p) as [e|] eqn:Hp; [|rewrite He; by split; [constructor|]].
  destruct (_ && _) eqn:Hc; [|rewrite He; split; [by constructor|done]].
  apply andb_true_iff in Hc as [_ Ht]. rewrite negb_true_iff in Ht.
  split; [|done]. rewrite (set_execution_state_Some _ _ _ He). constructor.
  eexists; split; [done|]. destruct (ExecutionProjectionV1.state e); try discriminate Ht;
    split_and!; first [done | by auto | discriminate].
Qed.

Lemma withdraw_all_softens rs p :
  option_Forall2 softened (IdrRunProjectionV1.execution p) (IdrRunProjectionV1.execution (foldl withdraw p rs)) /\
  IdrRunProjectionV1.state (foldl withdraw p rs) = IdrRunProjectionV1.state p.
Proof.
  revert p. induction rs as [|r rs IH]; intros p; cbn; [split; [reflexivity|done]|].
  destruct (IH (withdraw p r)) as [He Hs], (withdraw_softens p r) as [He' Hs'].
  split; [by etrans|congruence].
Qed.

(** The closure leaves the run's state, or closes the run. *)
Lemma closure_softens t rs b :
  let p := IdrTransitionV1.projection t in
  let q := IdrTransitionV1.projection (apply_repository_invalidation_closure t rs b) in
  option_Forall2 softened (IdrRunProjectionV1.execution p) (IdrRunProjectionV1.execution q) /\
  (IdrRunProjectionV1.state q = IdrRunProjectionV1.state p \/ run_open (IdrRunProjectionV1.state q) = false).
Proof.
  cbn zeta. unfold apply_repository_invalidation_closure.
  destruct (withdraw_all_softens rs (IdrTransitionV1.projection t)) as [He Hs].
  destruct b; [|destruct (is_some_and _ _)]; cbn; auto.
Qed.

(** ** The invariant *)

Record execution_ok (p : IdrRunProjectionV1.t) : Prop := {
  ok_closed : forall e, IdrRunProjectionV1.execution p = Some e -> settled (ExecutionProjectionV1.state e) = true -> run_open (IdrRunProjectionV1.state p) = false;
  ok_lease : forall e, IdrRunProjectionV1.execution p = Some e -> lease_bounded e;
}.

Lemma pending_execution_ok d env r t : execution_ok (IdrRunProjectionV1.pending d env r t).
Proof. split; discriminate. Qed.

Lemma execution_step_ok minted c now p q :
  execution_ok p -> execution_step minted c now p q -> execution_ok q.
Proof.
  intros [Hc Hl] H. split; intros e' He'; destruct H as [He Hs|e s He He2 _ Hs|e ? ? ? He Hs _ _ Hb _].
  - intros Hset. rewrite He in He'. specialize (Hc _ He' Hset).
    destruct (run_open (IdrRunProjectionV1.state q)); [by rewrite Hs in Hc|done].
  - intros Hset. destruct (run_open (IdrRunProjectionV1.state q)) eqn:Ho; [|done]. simplify_eq. cbn in Hset.
    destruct (Hs eq_refl Hset) as [-> Hp]. by rewrite (Hc _ He Hset) in Hp.
  - simplify_eq. by rewrite Hs.
  - rewrite He in He'. auto.
  - simplify_eq. by apply lease_bounded_state, Hl.
  - by simplify_eq.
Qed.

Lemma softened_ok p q :
  option_Forall2 softened (IdrRunProjectionV1.execution p) (IdrRunProjectionV1.execution q) ->
  IdrRunProjectionV1.state q = IdrRunProjectionV1.state p \/ run_open (IdrRunProjectionV1.state q) = false -> execution_ok p -> execution_ok q.
Proof.
  intros He Hs [Hc Hl]. split; intros e' He'; rewrite He' in He;
    inversion He as [e ? (s & -> & _ & Hset & _) Hp Heq|]; subst; symmetry in Hp.
  - cbn. intros Hsettled. destruct Hs as [->|]; [|done]. rewrite (Hset Hsettled) in Hsettled. eauto.
  - apply lease_bounded_state. auto.
Qed.

(** ** A transaction *)

Lemma failure_Ok {C : Crates} p command proofs t :
  action_admission_proof_failure p command proofs = Ok t ->
  exists admission, IdrRunProjectionV1.action_admission p = Some admission /\
  let crossed := crossed_dispatch_boundary p in
  IdrTransitionV1.projection t
    = IdrRunProjectionV1.with_state (if crossed then IdrRunStateV1.ReconciliationRequired else IdrRunStateV1.WaitingAuthorization)
        (set_execution_state (if crossed then ExecutionAggregateStateV1.ReconciliationRequired else ExecutionAggregateStateV1.Cancelled) (advanced p)).
Proof.
  unfold action_admission_proof_failure. intros H.
  apply bind_Ok in H as (admission & Ha%ok_or_Ok & H).
  apply bind_Ok in H as (version & Hv%ok_or_Ok & H). apply bind_Ok in H as (sequence & Hq%ok_or_Ok & H).
  apply checked_succ_Some in Hv as [_ ->]. apply checked_succ_Some in Hq as [_ ->].
  injection H as <-. by exists admission.
Qed.

Section transaction.
Context {C : Crates} {P : UuidParser} (closure : AuthoritativeRecordRefV1.t -> Chain (list AuthoritativeRecordRefV1.t)).
Context (minted : Minted.t) (command : IdrCommandEnvelopeV1.t) (now : N) (proofs : list VerifiedProductionProofV1.t).

(** A chosen transition is an evaluated one or a failed admission, followed by the
    withdrawal of records. *)
Lemma choose_transition_Ok bound p t :
  choose_transition closure minted bound command now proofs p = Ok t ->
  exists t0,
    (evaluate_authoritative_transition_v1 minted command now proofs p = Ok t0 \/
     bound = Err IdrRuntimeErrorV1.ActionNotAdmitted /\ action_admission_proof_failure p command proofs = Ok t0) /\
    (t = t0 \/ exists rs b, t = apply_repository_invalidation_closure t0 rs b).
Proof.
  unfold choose_transition, superseded_closure. intros H. destruct bound as [[]|e].
  - cbv zeta in H. apply bind_Ok in H as (t0 & Ht & H). exists t0. split; [by left|].
    destruct (IdrCommandEnvelopeV1.command command); repeat (inv_arm || case_match); eauto.
  - destruct e; try discriminate H. inv_arm. eexists. split; [right; split; [done|eassumption]|]. eauto.
Qed.

(** After a dispatch there is no way back but a cancellation. *)
Definition keeps_dispatch (p q : IdrRunProjectionV1.t) : Prop :=
  forall e, IdrRunProjectionV1.execution p = Some e -> dispatched (ExecutionProjectionV1.state e) = true ->
  exists s, IdrRunProjectionV1.execution q = Some (ExecutionProjectionV1.with_state s e) /\ (dispatched s = true \/ s = ExecutionAggregateStateV1.Cancelled).

Lemma moves_dispatched c s s' : moves c s s' -> dispatched s = true -> dispatched s' = true \/ s' = ExecutionAggregateStateV1.Cancelled.
Proof.
  intros Hm Hd; destruct Hm as [| | |s| | |]; auto; try discriminate.
  - destruct s; discriminate.
  - left. by apply settled_cases.
Qed.

Lemma execution_step_keeps p q :
  execution_ok p -> execution_step minted (IdrCommandEnvelopeV1.command command) now p q -> keeps_dispatch p q.
Proof.
  intros [Hc _] H e He Hd. destruct H as [Hq _|e' s He' Hq Hm _|e' ref key att Hq Hs Ho Hr _ _].
  - exists (ExecutionProjectionV1.state e). rewrite Hq, He. split; [by destruct e|auto].
  - simplify_eq. exists s. split; [done|]. by eapply moves_dispatched.
  - exfalso. specialize (Hc _ He). unfold reservation_for in Hr. rewrite He in Hr. rewrite Ho in Hc.
    destruct (bool_decide _); apply reject_Ok in Hr as [Hr _];
      destruct (ExecutionProjectionV1.state e); try discriminate Hd; try (exfalso; by destruct (checked_succ _ _)); try discriminate Hr; specialize (Hc eq_refl); discriminate Hc.
Qed.

Lemma evaluated_execution p t :
  execution_ok p -> evaluate_authoritative_transition_v1 minted command now proofs p = Ok t ->
  execution_ok (IdrTransitionV1.projection t) /\ keeps_dispatch p (IdrTransitionV1.projection t).
Proof.
  intros Hp (q & event & Ha)%evaluate_Ok. destruct Ha.
  assert (execution_step minted (IdrCommandEnvelopeV1.command command) now (advanced p) q) as Hstep
    by (eapply apply_command_execution; eassumption).
  assert (execution_ok (advanced p)) as Hadv by (by destruct Hp).
  assert (IdrRunProjectionV1.execution (IdrTransitionV1.projection t) = IdrRunProjectionV1.execution q /\
          IdrRunProjectionV1.state (IdrTransitionV1.projection t) = IdrRunProjectionV1.state q) as [He Hs]
    by (rewrite ac_transition; by destruct (IdrTransitionV1.authoritative_record t)).
  pose proof (execution_step_ok _ _ _ _ _ Hadv Hstep) as [Hc Hl].
  split; [split; rewrite He; [rewrite Hs|]; auto|].
  intros e Hpe. rewrite He. by apply (execution_step_keeps _ _ Hadv Hstep).
Qed.

Lemma failed_execution p t :
  execution_ok p -> action_admission_proof_failure p command proofs = Ok t ->
  execution_ok (IdrTransitionV1.projection t) /\ keeps_dispatch p (IdrTransitionV1.projection t).
Proof.
  intros [_ Hl] (admission & _ & Ht)%failure_Ok. cbn zeta in Ht. rewrite Ht.
  unfold keeps_dispatch, crossed_dispatch_boundary, set_execution_state. cbn.
  destruct (IdrRunProjectionV1.execution p) as [e|]; [|by repeat split]. cbn. split; [split|].
  - intros e' [= <-]. by destruct (contains (ExecutionProjectionV1.state e) _).
  - intros e' [= <-]. by apply lease_bounded_state, Hl.
  - intros e' [= <-] Hd. eexists; split; [done|]. unfold dispatched in Hd. rewrite Hd. by left.
Qed.

Lemma softened_keeps p q r :
  keeps_dispatch p q -> option_Forall2 softened (IdrRunProjectionV1.execution q) (IdrRunProjectionV1.execution r) -> keeps_dispatch p r.
Proof.
  intros Hk Hs e He Hd. destruct (Hk e He Hd) as (s & Hq & Hsd). rewrite Hq in Hs.
  inversion Hs as [e1 ? (s' & -> & Hd' & _ & Hc) Heq Hr|]; subst. cbn in *. exists s'.
  split; [done|]. destruct Hsd as [Hsd| ->]; [left; congruence|]. destruct (Hc eq_refl) as [->| ->]; auto.
Qed.

Lemma chosen_execution bound p t :
  execution_ok p -> choose_transition closure minted bound command now proofs p = Ok t ->
  execution_ok (IdrTransitionV1.projection t) /\ keeps_dispatch p (IdrTransitionV1.projection t).
Proof.
  intros Hp (t0 & Ht & Hc)%choose_transition_Ok.
  assert (execution_ok (IdrTransitionV1.projection t0) /\ keeps_dispatch p (IdrTransitionV1.projection t0))
    as [Hok Hk] by (destruct Ht as [Ht|[_ Ht]]; [by apply evaluated_execution|by apply failed_execution]).
  destruct Hc as [->|(rs & b & ->)]; [done|].
  destruct (closure_softens t0 rs b) as [He Hs]. split; [by eapply softened_ok|by eapply softened_keeps].
Qed.

(** The guard of the table refuses the cancellation. *)
Lemma guarded_dispatch governance p q :
  keeps_dispatch p q -> persist_execution_row governance (IdrRunProjectionV1.execution p) (IdrRunProjectionV1.execution q) = Ok tt ->
  forall e, IdrRunProjectionV1.execution p = Some e -> dispatched (ExecutionProjectionV1.state e) = true ->
  exists s, IdrRunProjectionV1.execution q = Some (ExecutionProjectionV1.with_state s e) /\ dispatched s = true.
Proof.
  intros Hk Hg e He Hd. destruct (Hk e He Hd) as (s & Hq & [Hs| ->]); [by exists s|exfalso].
  rewrite He, Hq in Hg. cbn in Hg. rewrite bool_decide_true in Hg by done. apply reject_Ok in Hg as [Hg _].
  destruct (ExecutionProjectionV1.state e); try discriminate Hd; by destruct governance.
Qed.
End transaction.
