(* ===== verification/AuthorityProps.v ===== *)
(** * AuthorityProps: what the PostgreSQL orchestrator guarantees

    Every step of [handle]: the command is authorised by fresh proofs, a proof is
    consumed at most once, runs keep their identity and never forget an effect
    that may have reached the provider; the release gates are closed; the anchor
    of audit checkpoints detects a rollback. *)

From stdpp Require Import base list gmap fin_sets countable sorting strings.
From Stdlib Require Import NArith ZArith Lia.
From S2P Require Import Prelude Text Json Crates CanonicalJson Common Production ProductionProps ChainData ChainCommand ChainPayload ChainTransition ChainEvaluate ChainRepository Authority ChainProps ChainExecution.

Lemma write_enabled (write enabled : bool) : write && negb enabled = false -> write = true -> enabled = true.
Proof. by destruct write, enabled. Qed.

(** ** One accepted command *)

Section accepted.
Context {C : Crates} {P : UuidParser} (security : PostgresSecurityContextV1.t).
Context (trust_root : TrustRootSnapshotV1.t) (load_envelope : Uuid -> Chain ProductionProofEnvelopeV1.t).
Context (closure : AuthoritativeRecordRefV1.t -> Chain (list AuthoritativeRecordRefV1.t)) (production human_model_write : bool).
Context (minted : Minted.t) (command : IdrCommandEnvelopeV1.t) (now : N).

Record transacted (before after : tables) (t : IdrTransitionV1.t) (verified : list VerifiedProductionProofV1.t) (p : IdrRunProjectionV1.t) : Prop := {
  tr_gate : production = true -> PostgresSecurityContextV1.trust_domain security = TrustDomainV1.Production ->
    enforce_production_command_release_gate (IdrCommandEnvelopeV1.command command) = Ok tt;
  tr_write : is_human_model_write (IdrCommandEnvelopeV1.command command) = true -> human_model_write = true;
  tr_valid : Envelope.validate command = Ok tt;
  tr_domain : IdrCommandEnvelopeV1.trust_domain command = PostgresSecurityContextV1.trust_domain security;
  tr_environment : IdrCommandEnvelopeV1.environment_ref command = PostgresSecurityContextV1.environment_ref security;
  tr_proofs : verify_proofs_inside_transaction security trust_root command now = Ok verified;
  tr_projection : load_projection security before.1 command = Ok p;
  tr_replay : check_proof_replay security before.2 command verified = Ok tt;
  tr_chosen : choose_transition closure minted
    (reverify_bound_action_admission_proofs security trust_root load_envelope p command now)
    command now verified p = Ok t;
  tr_guard : persist_execution_row (is_governance t) (IdrRunProjectionV1.execution p)
    (IdrRunProjectionV1.execution (IdrTransitionV1.projection t)) = Ok tt;
  tr_after : after = (<[IdrRunProjectionV1.run_id (IdrTransitionV1.projection t) := IdrTransitionV1.projection t]> before.1,
    persist_proof_consumptions security command verified before.2);
}.

Lemma handle_Ok before after t :
  handle security trust_root load_envelope closure production human_model_write minted command now before
    = Ok (after, t) ->
  exists verified p, transacted before after t verified p.
Proof.
  unfold handle, transact. destruct before as [runs rows]. intros H.
  apply bind_unit_Ok in H as [Hg H]. apply reject_Ok in H as [Hw H]. apply bind_unit_Ok in H as [Hv H].
  pose proof (write_enabled _ _ Hw) as Hw2.
  apply reject_Ok in H as [Hd H]. apply reject_Ok in H as [He H]. apply reject_Ok in H as [_ H].
  apply bind_Ok in H as (verified & Hp & H). apply bind_Ok in H as (p & Hl & H).
  apply bind_unit_Ok in H as [Hr H]. apply bind_Ok in H as (t' & Ht & H).
  apply bind_unit_Ok in H as [Hx [= <- <-]].
  exists verified, p. apply negb_false_iff, bool_decide_eq_true_1 in Hd. apply negb_false_iff, bool_decide_eq_true_1 in He.
  split; try done.
  - intros -> Hs. by rewrite Hs in Hg.
Qed.
End accepted.

(** Built for production, the orchestrator of the production domain accepts no
    admission of an action, no command about an execution and no write of the human
    model, whatever their proofs: the gates answer before anything is read. *)
Theorem production_is_closed {C : Crates} {P : UuidParser} security trust_root load_envelope closure
    human_model_write minted command now before :
  PostgresSecurityContextV1.trust_domain security = TrustDomainV1.Production ->
  (exists r d pr ow key, IdrCommandEnvelopeV1.command command = IdrCommandV1.AdmitAction r d pr ow key) \/
  is_execution_command (IdrCommandEnvelopeV1.command command) = true \/ is_human_model_write (IdrCommandEnvelopeV1.command command) = true ->
  exists message,
    handle security trust_root load_envelope closure true human_model_write minted command now before
    = Err (repository_failure message).
Proof.
  intros Hd Hc. unfold handle. rewrite Hd.
  destruct Hc as [(r & d & pr & ow & key & Hc)|[Hc|Hc]]; destruct (IdrCommandEnvelopeV1.command command); try discriminate Hc;
    by eexists.
Qed.

(** ** Authorisation *)

Lemma collect_map_Ok {A B} (f : A -> Chain B) l bs :
  collect_map f l = Ok bs <-> Forall2 (fun a b => f a = Ok b) l bs.
Proof.
  revert bs. induction l as [|a l IH]; intros bs; cbn.
  { split; [by intros [= <-]|by intros ->%Forall2_nil_inv_l]. }
  rewrite bind_Ok. split.
  - intros (b & Hb & (cs & Hcs%IH & [= <-])%bind_Ok). by constructor.
  - intros (b & cs & Hb & Hcs & ->)%Forall2_cons_inv_l. exists b. split; [done|].
    apply bind_Ok. exists cs. by rewrite IH.
Qed.

Lemma Forall2_impl_l {A B} (P : A -> Prop) (R S : A -> B -> Prop) l k :
  Forall P l -> Forall2 R l k -> (forall a b, P a -> R a b -> S a b) -> Forall2 S l k.
Proof. intros Hp H Hs. induction H; inversion Hp; subst; constructor; auto. Qed.

Section authorised.
Context {C : Crates} (security : PostgresSecurityContextV1.t) (trust_root : TrustRootSnapshotV1.t).

Definition registered_issuer (kind : ProductionProofKindV1.t) : option ReferenceV1.t :=
  PostgresSecurityContextV1.expected_issuers security !! kind.

(** The envelope's claims are the ones expected of the registered issuer, and the
    trust root's key in force for them verifies its signature. *)
Record covers (command : IdrCommandEnvelopeV1.t) (now : N) (subject : ReferenceV1.t * text) (principal : text)
    (e : ProductionProofEnvelopeV1.t) (v : VerifiedProductionProofV1.t) : Prop := {
  cv_assertion : proof_assertion_allows (ProductionProofEnvelopeV1.claims e) = true;
  cv_principal : ProductionProofClaimsV1.principal_digest (ProductionProofEnvelopeV1.claims e) = principal;
  cv_claims : exists issuer, registered_issuer (envelope_kind e) = Some issuer /\
    expectation_of (ProductionProofEnvelopeV1.claims e)
      = expected_proof security command (envelope_kind e) issuer subject.1 subject.2;
  cv_key : exists key signature message,
    TrustRootSnapshotV1.keys trust_root !! ReferenceV1.as_str (ProductionProofEnvelopeV1.key_id e) = Some key /\
    key_covers key (ProductionProofEnvelopeV1.claims e) now /\
    decode_hex 64 (ProductionProofEnvelopeV1.signature e) = Some signature /\
    ProductionProofClaimsV1.canonical_signing_bytes (ProductionProofEnvelopeV1.claims e) = Ok message /\
    ed25519_verify (ProductionIssuerKeyV1.public_key key) message signature = true;
  cv_id : VerifiedProductionProofV1.proof_id v = ProductionProofClaimsV1.proof_id (ProductionProofEnvelopeV1.claims e);
  cv_nonce : VerifiedProductionProofV1.nonce v = ProductionProofClaimsV1.nonce (ProductionProofEnvelopeV1.claims e);
}.

Lemma verify_command_proof_Ok command subject now e v :
  verify_command_proof security trust_root command subject now e = Ok v ->
  exists issuer, registered_issuer (envelope_kind e) = Some issuer /\
    TrustRootSnapshotV1.verify_at trust_root e
      (expected_proof security command (envelope_kind e) issuer subject.1 subject.2) now = Ok v.
Proof.
  unfold verify_command_proof, issuer_of. intros (issuer & Hi%ok_or_Ok & H%map_err_Ok)%bind_Ok. by exists issuer.
Qed.

Lemma verify_proofs_Ok command now vs :
  verify_proofs_inside_transaction security trust_root command now = Ok vs ->
  exists subject principal, Envelope.proof_subject command = Ok subject /\
    expected_principal_digest command = Ok principal /\
    list_to_set (map envelope_kind (IdrCommandEnvelopeV1.proofs command)) = Envelope.required_proof_kinds command /\
    NoDup (map envelope_kind (IdrCommandEnvelopeV1.proofs command)) /\
    Forall2 (covers command now subject principal) (IdrCommandEnvelopeV1.proofs command) vs.
Proof.
  unfold verify_proofs_inside_transaction. intros H. apply reject_Ok in H as [[Hk Hn]%orb_false_iff H].
  apply negb_false_iff, bool_decide_eq_true_1 in Hk. apply negb_false_iff, N.eqb_eq in Hn.
  apply bind_Ok in H as (principal & Hp & H). apply reject_Ok in H as [Hx H].
  apply bind_Ok in H as (subject & Hs & Hv%collect_map_Ok).
  exists subject, principal. split_and!; try done.
  - apply NoDup_size. unfold lenN. rewrite length_map. fold (lenN (IdrCommandEnvelopeV1.proofs command)). by rewrite Hk.
  - apply existsb_false in Hx. eapply Forall2_impl_l; [exact Hx|exact Hv|]. cbn zeta beta.
    intros e v [Ha Hpr]%orb_false_iff (issuer & Hi & Hver)%verify_command_proof_Ok.
    apply negb_false_iff in Ha. apply negb_false_iff, bool_decide_eq_true_1 in Hpr.
    apply verify_at_Ok in Hver as (_ & Hx' & _ & _ & -> & key & sg & msg & Hkey & _ & H').
    split; try done; [by exists issuer|]. exists key, sg, msg. split; [done|]. exact H'.
Qed.

(** C1. An accepted command carries exactly one proof of each kind it requires, the
    caller's authentication among them; every proof is about this command and its
    principal, names the issuer registered for its kind, allows what it is about,
    and is signed by a key of the current trust root that is in force for it. *)
Theorem accepted_command_is_authorised {P : UuidParser} load_envelope closure production human_model_write
    minted command now before after t :
  handle security trust_root load_envelope closure production human_model_write minted command now before
    = Ok (after, t) ->
  exists subject principal verified,
    Envelope.proof_subject command = Ok subject /\ expected_principal_digest command = Ok principal /\
    list_to_set (map envelope_kind (IdrCommandEnvelopeV1.proofs command)) = Envelope.required_proof_kinds command /\
    NoDup (map envelope_kind (IdrCommandEnvelopeV1.proofs command)) /\
    Forall2 (covers command now subject principal) (IdrCommandEnvelopeV1.proofs command) verified.
Proof.
  intros (verified & p & [])%handle_Ok. destruct (verify_proofs_Ok _ _ _ tr_proofs0) as (subject & principal & H).
  by exists subject, principal, verified.
Qed.
End authorised.

(** ** Consumed proofs *)

Definition proof_row (c : consumption) : TrustDomainV1.t * ReferenceV1.t * Uuid :=
  (consumed_domain c, consumed_environment c, consumed_proof c).
Definition nonce_row (c : consumption) : TrustDomainV1.t * ReferenceV1.t * ReferenceV1.t * text :=
  (consumed_domain c, consumed_environment c, consumed_tenant c, consumed_nonce c).

Lemma NoDup_map_via {A B D} (f : A -> B) (g : B -> D) l :
  Inj eq eq g -> NoDup (map f l) -> NoDup (map (fun a => g (f a)) l).
Proof. intros Hg H. rewrite <- map_map. by apply (NoDup_fmap_2 g). Qed.

(** No proof is in the table twice, nor a nonce of the same tenant. *)
Definition consumed_once (rows : list consumption) : Prop :=
  NoDup (map proof_row rows) /\ NoDup (map nonce_row rows).

Lemma validate_proofs_distinct d proofs ids nonces :
  Envelope.validate_proofs d proofs ids nonces = Ok tt ->
  let claims e := ProductionProofEnvelopeV1.claims e in
  NoDup (map (fun e => ProductionProofClaimsV1.proof_id (claims e)) proofs) /\
  NoDup (map (fun e => ProductionProofClaimsV1.nonce (claims e)) proofs) /\
  Forall (fun e => ProductionProofClaimsV1.proof_id (claims e) ∉ ids) proofs /\
  Forall (fun e => ProductionProofClaimsV1.nonce (claims e) ∉ nonces) proofs.
Proof.
  cbn zeta. revert ids nonces. induction proofs as [|e proofs IH]; intros ids nonces H; cbn [map].
  { split_and!; constructor. }
  cbn [Envelope.validate_proofs] in H. apply bind_unit_Ok in H as [_ H].
  apply reject_Ok in H as [[[_ Hi]%orb_false_iff Hn]%orb_false_iff H].
  apply bool_decide_eq_false_1 in Hi. apply bool_decide_eq_false_1 in Hn.
  apply IH in H as (Hd1 & Hd2 & Hf1 & Hf2). rewrite Forall_forall in Hf1. rewrite Forall_forall in Hf2.
  split_and!.
  - constructor; [|done]. intros (e' & He & Hin)%list_elem_of_fmap. specialize (Hf1 _ Hin). set_solver.
  - constructor; [|done]. intros (e' & He & Hin)%list_elem_of_fmap. specialize (Hf2 _ Hin). set_solver.
  - constructor; [done|]. apply Forall_forall. intros e' Hin. specialize (Hf1 _ Hin). set_solver.
  - constructor; [done|]. apply Forall_forall. intros e' Hin. specialize (Hf2 _ Hin). set_solver.
Qed.

Section consumed.
Context {C : Crates} {P : UuidParser} (security : PostgresSecurityContextV1.t).

Lemma validate_distinct command :
  Envelope.validate command = Ok tt ->
  NoDup (map (fun e => ProductionProofClaimsV1.proof_id (ProductionProofEnvelopeV1.claims e)) (IdrCommandEnvelopeV1.proofs command)) /\
  NoDup (map (fun e => ProductionProofClaimsV1.nonce (ProductionProofEnvelopeV1.claims e)) (IdrCommandEnvelopeV1.proofs command)).
Proof.
  unfold Envelope.validate. intros H. apply reject_Ok in H as [_ H].
  apply bind_unit_Ok in H as [(H1 & H2 & _)%validate_proofs_distinct _]. done.
Qed.

Lemma covers_fields root command now subject principal es vs :
  Forall2 (covers security root command now subject principal) es vs ->
  map VerifiedProductionProofV1.proof_id vs = map (fun e => ProductionProofClaimsV1.proof_id (ProductionProofEnvelopeV1.claims e)) es /\
  map VerifiedProductionProofV1.nonce vs = map (fun e => ProductionProofClaimsV1.nonce (ProductionProofEnvelopeV1.claims e)) es.
Proof. induction 1 as [|e v es vs []]; cbn; [done|]. destruct_and!. split; congruence. Qed.

Lemma check_proof_replay_Ok rows command vs :
  check_proof_replay security rows command vs = Ok tt <->
  Forall (fun v => Forall (fun c =>
    replays (PostgresSecurityContextV1.trust_domain security) command v c = false) rows) vs.
Proof.
  unfold check_proof_replay. rewrite for_each_Ok. apply Forall_iff. intros v.
  rewrite reject_Ok, existsb_false. tauto.
Qed.

Lemma replays_false d command v c :
  replays d command v c = false ->
  consumed_domain c = d -> consumed_environment c = IdrCommandEnvelopeV1.environment_ref command ->
  consumed_proof c <> VerifiedProductionProofV1.proof_id v /\
  (consumed_tenant c = IdrCommandEnvelopeV1.tenant_ref command -> consumed_nonce c <> VerifiedProductionProofV1.nonce v).
Proof.
  unfold replays. intros H Hd He. rewrite !bool_decide_true in H by done. cbn [andb] in H.
  apply orb_false_iff in H as [H1%bool_decide_eq_false_1 H2]. split; [done|]. intros Ht.
  rewrite bool_decide_true in H2 by done. by apply bool_decide_eq_false_1 in H2.
Qed.

Lemma persist_consumed_once command vs rows :
  consumed_once rows -> check_proof_replay security rows command vs = Ok tt ->
  NoDup (map VerifiedProductionProofV1.proof_id vs) -> NoDup (map VerifiedProductionProofV1.nonce vs) ->
  consumed_once (persist_proof_consumptions security command vs rows).
Proof.
  intros [Hp Hn] Hr%check_proof_replay_Ok Hip Hin. rewrite Forall_forall in Hr.
  unfold consumed_once, persist_proof_consumptions. rewrite !map_app, !map_map. cbn.
  assert (forall v c, v ∈ vs -> c ∈ rows ->
    replays (PostgresSecurityContextV1.trust_domain security) command v c = false) as Hf.
  { intros v c Hv Hc. specialize (Hr v Hv). rewrite Forall_forall in Hr. auto. }
  split; apply NoDup_app; (split_and!; [done|..]).
  - intros k (c & -> & Hc)%list_elem_of_fmap (v & Hk & Hv)%list_elem_of_fmap.
    injection Hk as Hd He Hi. by destruct (replays_false _ _ _ _ (Hf v c Hv Hc) Hd He).
  - by apply (NoDup_map_via VerifiedProductionProofV1.proof_id (fun i =>
      (PostgresSecurityContextV1.trust_domain security, IdrCommandEnvelopeV1.environment_ref command, i)));  [intros ?? [= ->]|].
  - intros k (c & -> & Hc)%list_elem_of_fmap (v & Hk & Hv)%list_elem_of_fmap.
    injection Hk as Hd He Ht Hi. destruct (replays_false _ _ _ _ (Hf v c Hv Hc) Hd He) as [_ H]. by apply H.
  - by apply (NoDup_map_via VerifiedProductionProofV1.nonce (fun i =>
      (PostgresSecurityContextV1.trust_domain security, IdrCommandEnvelopeV1.environment_ref command, IdrCommandEnvelopeV1.tenant_ref command, i))); [intros ?? [= ->]|].
Qed.

Lemma step_consumed_once before after :
  authority_step security before after -> consumed_once before.2 -> consumed_once after.2.
Proof.
  intros [? ? ? ? ? ? command ? ? ? t H] Ho. apply handle_Ok in H as (vs & p & []). subst after0. cbn.
  destruct (verify_proofs_Ok _ _ _ _ _ tr_proofs0) as (subject & principal & _ & _ & _ & _ & Hc).
  destruct (covers_fields _ _ _ _ _ _ _ Hc) as [Hi Hn], (validate_distinct _ tr_valid0) as [Hi' Hn'].
  apply persist_consumed_once; congruence.
Qed.
End consumed.

(** ** Runs *)

Lemma withdraw_run r p : IdrRunProjectionV1.run_id (withdraw p r) = IdrRunProjectionV1.run_id p.
Proof. unfold withdraw, withdraw_execution, withdraw_bindings. cbn. by repeat (case_match; cbn). Qed.

Lemma closure_run t rs b :
  IdrRunProjectionV1.run_id (IdrTransitionV1.projection (apply_repository_invalidation_closure t rs b))
  = IdrRunProjectionV1.run_id (IdrTransitionV1.projection t).
Proof.
  unfold apply_repository_invalidation_closure. cbn. generalize (IdrTransitionV1.projection t) as p.
  induction rs as [|r rs IH]; intros p; cbn; [by repeat case_match|].
  rewrite IH. apply withdraw_run.
Qed.

Section runs.
Context {C : Crates} {P : UuidParser} (security : PostgresSecurityContextV1.t).

Lemma chosen_run closure minted bound command now proofs p t :
  choose_transition closure minted bound command now proofs p = Ok t ->
  IdrRunProjectionV1.run_id (IdrTransitionV1.projection t) = IdrRunProjectionV1.run_id p.
Proof.
  intros (t0 & Ht & Hc)%choose_transition_Ok.
  assert (IdrRunProjectionV1.run_id (IdrTransitionV1.projection t0) = IdrRunProjectionV1.run_id p) as Hr.
  { destruct Ht as [(q & event & Ha)%evaluate_Ok|[_ (? & _ & Ht)%failure_Ok]]; [|by rewrite Ht].
    pose proof (accepted_frame _ _ _ _ _ _ _ _ Ha) as [_ _ Hrun _ _ _ _ _ _].
    destruct Ha. rewrite ac_transition. cbn in Hrun |- *. by destruct (IdrTransitionV1.authoritative_record t0). }
  destruct Hc as [->|(rs & b & ->)]; [done|]. by rewrite closure_run.
Qed.

(** Every stored run is stored under its identifier and is in order. *)
Record tables_ok (tb : tables) : Prop := {
  tb_runs : forall r p, tb.1 !! r = Some p -> IdrRunProjectionV1.run_id p = r /\ execution_ok p;
  tb_rows : consumed_once tb.2;
}.

Lemma empty_tables_ok : tables_ok (∅, []).
Proof. split; [intros r p; cbn; by rewrite lookup_empty|split; constructor]. Qed.

Lemma load_projection_Ok runs command p :
  load_projection security runs command = Ok p ->
  runs !! IdrCommandEnvelopeV1.run_id command = Some p \/
  runs !! IdrCommandEnvelopeV1.run_id command = None /\
    p = IdrRunProjectionV1.pending (PostgresSecurityContextV1.trust_domain security)
          (PostgresSecurityContextV1.environment_ref security) (IdrCommandEnvelopeV1.run_id command) (IdrCommandEnvelopeV1.tenant_ref command).
Proof.
  unfold load_projection. destruct (runs !! _) as [q|]; [intros [= ->]; by left|].
  intros H. right. split; [done|]. destruct (IdrCommandEnvelopeV1.command command); try discriminate H.
  by destruct (_ =? 0); [injection H as <-|].
Qed.

(** A step writes one run, loaded in order and left in order. *)
Lemma authority_step_run before after :
  tables_ok before -> authority_step security before after ->
  exists p q, (before.1 !! IdrRunProjectionV1.run_id p = Some p \/ before.1 !! IdrRunProjectionV1.run_id p = None) /\
    after.1 = <[IdrRunProjectionV1.run_id p := q]> before.1 /\ IdrRunProjectionV1.run_id q = IdrRunProjectionV1.run_id p /\ execution_ok q /\
    forall e, IdrRunProjectionV1.execution p = Some e -> dispatched (ExecutionProjectionV1.state e) = true ->
    exists s, IdrRunProjectionV1.execution q = Some (ExecutionProjectionV1.with_state s e) /\ dispatched s = true.
Proof.
  intros Hok H. revert Hok. destruct H as [? ? ? ? ? ? command ? before after t H]. intros [Hruns _].
  apply handle_Ok in H as (vs & p & []).
  assert (execution_ok p /\ (before.1 !! IdrRunProjectionV1.run_id p = Some p \/ before.1 !! IdrRunProjectionV1.run_id p = None))
    as [Hok Hin].
  { destruct (load_projection_Ok _ _ _ tr_projection0) as [Hl|[Hl ->]].
    - destruct (Hruns _ _ Hl) as [Hid Hok]. split; [done|]. left. by rewrite Hid.
    - split; [apply pending_execution_ok|by right]. }
  destruct (chosen_execution _ _ _ _ _ _ _ _ Hok tr_chosen0) as [Hq Hk].
  pose proof (chosen_run _ _ _ _ _ _ _ _ tr_chosen0) as Hrun. subst after.
  exists p, (IdrTransitionV1.projection t). cbn. rewrite Hrun. split_and!; try done.
  by apply (guarded_dispatch _ _ _ Hk tr_guard0).
Qed.

Lemma authority_step_ok before after : tables_ok before -> authority_step security before after -> tables_ok after.
Proof.
  intros Hok H. split; [|by eapply step_consumed_once; [|apply Hok]].
  destruct (authority_step_run _ _ Hok H) as (p & q & _ & -> & Hid & Hq & _).
  intros r p' [[<- <-]|[_ Hl]]%lookup_insert_Some; [done|by apply Hok].
Qed.

Lemma authority_reachable_ok before after :
  tables_ok before -> authority_reachable security before after -> tables_ok after.
Proof. intros Hok. induction 1; eauto using authority_step_ok. Qed.

Lemma authority_step_dispatch before after run p e :
  tables_ok before -> authority_step security before after ->
  before.1 !! run = Some p -> IdrRunProjectionV1.execution p = Some e -> dispatched (ExecutionProjectionV1.state e) = true ->
  exists q s, after.1 !! run = Some q /\ IdrRunProjectionV1.execution q = Some (ExecutionProjectionV1.with_state s e) /\ dispatched s = true.
Proof.
  intros Hok H Hl He Hd. destruct (authority_step_run _ _ Hok H) as (p' & q & Hin & -> & Hid & _ & Hk).
  destruct (decide (IdrRunProjectionV1.run_id p' = run)) as [<-|Hne].
  - destruct Hin as [Hin|Hin]; [|congruence]. simplify_eq. destruct (Hk _ He Hd) as (s & Hs).
    exists q, s. by rewrite lookup_insert_eq.
  - exists p, (ExecutionProjectionV1.state e). rewrite lookup_insert_ne by done. split_and!; [done| |done]. by destruct e.
Qed.

(** C3. Once an effect may have reached its provider, its run carries the execution
    for good, under every sequence of accepted commands: the same reservation,
    permit, attempt and request, in flight, waiting for reconciliation or settled;
    it is never cancelled, expired, retried or replaced. *)
Theorem dispatched_effect_is_never_forgotten before after run p e :
  authority_reachable security (∅, []) before -> authority_reachable security before after ->
  before.1 !! run = Some p -> IdrRunProjectionV1.execution p = Some e -> dispatched (ExecutionProjectionV1.state e) = true ->
  exists q s, after.1 !! run = Some q /\ IdrRunProjectionV1.execution q = Some (ExecutionProjectionV1.with_state s e) /\ dispatched s = true.
Proof.
  intros Hb Hr. pose proof (authority_reachable_ok _ _ empty_tables_ok Hb) as Hok. clear Hb.
  revert p e. induction Hr as [tb|tb1 tb2 tb3 Hstep Hr IH]; intros p e Hl He Hd.
  - exists p, (ExecutionProjectionV1.state e). split_and!; [done| |done]. by destruct e.
  - destruct (authority_step_dispatch _ _ _ _ _ Hok Hstep Hl He Hd) as (q & s & Hq & Hqe & Hs).
    destruct (IH (authority_step_ok _ _ Hok Hstep) q _ Hq Hqe Hs) as (r & s' & Hr' & Hre & Hs').
    by exists r, s'.
Qed.

Lemma step_rows_grow before after :
  authority_step security before after -> before.2 `prefix_of` after.2.
Proof. intros [? ? ? ? ? ? command ? ? ? t H]. apply handle_Ok in H as (vs & p & []). subst. by eexists. Qed.

(** C6. Under every sequence of accepted commands the table of consumed proofs only
    grows and holds no proof twice, and no nonce of a tenant twice. *)
Theorem proofs_are_consumed_once before after :
  authority_reachable security (∅, []) before -> authority_reachable security before after ->
  before.2 `prefix_of` after.2 /\ consumed_once after.2.
Proof.
  intros Hb Hr. pose proof (authority_reachable_ok _ _ empty_tables_ok Hb) as Hok.
  split; [|by apply (authority_reachable_ok _ _ Hok Hr)].
  clear Hb Hok. induction Hr; [done|]. etrans; [by apply step_rows_grow|done].
Qed.

(** C35. Of the five deadlines of an execution's authority only the lease matters:
    under every sequence of accepted commands the lease ends with the permit at the
    latest, and the permit with the Action, its admission and its authorisation. *)
Theorem lease_is_the_deadline tb run p e now :
  authority_reachable security (∅, []) tb -> tb.1 !! run = Some p -> IdrRunProjectionV1.execution p = Some e ->
  execution_authority_expired e now = (ExecutionProjectionV1.lease_until e <=? now).
Proof.
  intros Hr Hl He. destruct (authority_reachable_ok _ _ empty_tables_ok Hr) as [Hruns _].
  destruct (Hruns _ _ Hl) as [_ [_ Hb]]. destruct (Hb _ He) as (H1 & H2 & H3 & H4).
  apply eq_bool_prop_intro. rewrite !Is_true_true. unfold execution_authority_expired.
  rewrite !orb_true_iff, !N.leb_le. lia.
Qed.
End runs.

(** ** A cancelled run *)

Lemma cancelled_stays o o' :
  option_Forall2 softened o o' -> (forall e, o = Some e -> ExecutionProjectionV1.state e = ExecutionAggregateStateV1.Cancelled) ->
  is_some_and (fun execution => ExecutionProjectionV1.state execution == ExecutionAggregateStateV1.ReconciliationRequired) o' = false.
Proof.
  intros [e e' (s & -> & _ & _ & Hc)|] Ho; [|done]. rewrite (Ho e eq_refl) in Hc. cbn.
  by destruct (Hc eq_refl) as [->| ->].
Qed.

Section cancelled.
Context {C : Crates} {P : UuidParser}.

(** No command is accepted on a cancelled run, but when the admission it holds
    no longer verifies the same command reopens it: the run waits for an
    authorisation again. *)
Theorem failed_admission_reopens_cancelled_run closure minted command now proofs p t :
  IdrRunProjectionV1.state p = IdrRunStateV1.Cancelled -> crossed_dispatch_boundary p = false ->
  choose_transition closure minted (Err IdrRuntimeErrorV1.ActionNotAdmitted) command now proofs p = Ok t ->
  is_err (evaluate_authoritative_transition_v1 minted command now proofs p) = true /\
  IdrRunProjectionV1.state (IdrTransitionV1.projection t) = IdrRunStateV1.WaitingAuthorization.
Proof.
  intros Hs Hc H. split.
  - destruct (evaluate_authoritative_transition_v1 _ _ _ _ _) as [t'|] eqn:He; [|done].
    apply evaluate_Ok in He as (q & event & []). rewrite Hs in ac_allowed.
    by destruct (IdrCommandEnvelopeV1.command command).
  - unfold choose_transition in H. apply bind_Ok in H as (a & _ & H). apply bind_Ok in H as (rs & _ & H).
    apply bind_Ok in H as (t0 & (? & _ & Ht)%failure_Ok & [= <-]). cbn zeta in Ht. rewrite Hc in Ht.
    unfold apply_repository_invalidation_closure.
    destruct (withdraw_all_softens rs (IdrTransitionV1.projection t0)) as [He Hst].
    rewrite (cancelled_stays _ _ He); [cbn; by rewrite Hst, Ht|]. rewrite Ht. cbn.
    intros e. destruct (IdrRunProjectionV1.execution p) as [e0|]; [|done]. by intros [= <-].
Qed.
End cancelled.

(** ** The anchor of audit checkpoints *)

(** A later checkpoint, or the same state of the database. *)
Definition newer (c c' : AuditCheckpointV1.t) : Prop :=
  (AuditCheckpointV1.audit_sequence c < AuditCheckpointV1.audit_sequence c')%Z \/
  AuditCheckpointV1.audit_sequence c = AuditCheckpointV1.audit_sequence c' /\
  AuditCheckpointV1.chain_root c = AuditCheckpointV1.chain_root c' /\
  AuditCheckpointV1.record_set_root c = AuditCheckpointV1.record_set_root c' /\
  AuditCheckpointV1.execution_state_root c = AuditCheckpointV1.execution_state_root c'.

#[export] Instance newer_preorder : PreOrder newer.
Proof.
  split; [intros c; by right|]. intros c1 c2 c3 [H|H] [H'|H']; unfold newer; destruct_and?;
    first [left; lia | right; split_and!; congruence].
Qed.

Section anchor.
Context {S : Type} `{AnchorLaws S}.

Definition published (s s' : S) : Prop := exists c, publish c s = Ok s'.

Lemma anchor_advances s s' k c :
  rtc published s s' -> load_latest s k = Ok (Some c) ->
  exists c', load_latest s' k = Ok (Some c') /\ newer c c'.
Proof.
  intros Hr. revert c. induction Hr as [s|s1 s2 s3 [d Hd] Hr IH]; intros c Hc; [by exists c|].
  destruct (decide (k = AuditCheckpointV1.key d)) as [->|Hk].
  - destruct (IH d) as (c' & Hl & Hn); [by apply (publish_reads_back _ _ _ Hd)|].
    exists c'. split; [done|]. etrans; [|done]. apply (publish_is_monotonic _ _ _ _ Hd Hc).
  - apply IH. by rewrite (publish_keeps_others _ _ _ _ Hd Hk).
Qed.

Lemma verify_tenant_anchor_Some d env tenant c s s' :
  AuditCheckpointV1.key c = (d, env, tenant) -> verify_tenant_anchor d env tenant (Some c) s = Ok s' ->
  load_latest s' (d, env, tenant) = Ok (Some c) /\
  match load_latest s (d, env, tenant) with
  | Ok (Some c') => (AuditCheckpointV1.audit_sequence c' < AuditCheckpointV1.audit_sequence c)%Z \/ c' = c
  | _ => True
  end.
Proof.
  intros Hk. unfold verify_tenant_anchor. intros (anchor & Ha & H1)%bind_Ok. rewrite Ha.
  apply bind_Ok in H1 as ([s1 a1] & Hp & H1). cbn in H1. apply reject_Ok in H1 as [Heq [= <-]].
  apply negb_false_iff, bool_decide_eq_true_1 in Heq. subst a1.
  destruct anchor as [c'|].
  - destruct (Z.ltb_spec (AuditCheckpointV1.audit_sequence c') (AuditCheckpointV1.audit_sequence c)) as [Hlt|Hge].
    + apply bind_Ok in Hp as (s2 & _ & (a2 & Hl & [= -> ->])%bind_Ok). auto.
    + injection Hp as -> ->. auto.
  - apply bind_Ok in Hp as (s2 & _ & (a2 & Hl & [= -> ->])%bind_Ok). auto.
Qed.
End anchor.

(** C40. A database restored to an earlier state is refused: once an anchor with the
    laws of the interface holds a checkpoint of a tenant, then whatever has been
    published since, the check of that tenant's latest checkpoint passes only if it
    is a later one or has the same roots, and leaves the anchor holding it. *)
Theorem anchor_detects_rollback {S} `{AnchorLaws S} d env tenant anchored c (s s' s'' : S) :
  load_latest s (d, env, tenant) = Ok (Some anchored) -> rtc published s s' ->
  AuditCheckpointV1.key c = (d, env, tenant) -> verify_tenant_anchor d env tenant (Some c) s' = Ok s'' ->
  newer anchored c /\ load_latest s'' (d, env, tenant) = Ok (Some c).
Proof.
  intros Ha Hr Hk [Hl Hv]%verify_tenant_anchor_Some; [|done]. split; [|done].
  destruct (anchor_advances _ _ _ _ Hr Ha) as (c' & Hc' & Hn). rewrite Hc' in Hv. etrans; [exact Hn|].
  destruct Hv as [Hlt| ->]; [by left|reflexivity].
Qed.

#[export] Instance in_memory_anchor_laws : AnchorLaws InMemoryAuditCheckpointAnchorV1.t.
Proof.
  unfold InMemoryAuditCheckpointAnchorV1.t. split; intros c s s'; cbv [publish load_latest InMemoryAuditCheckpointAnchorV1.backend InMemoryAuditCheckpointAnchorV1.t] in *; intros *.
  - intros [_ [= <-]]%reject_Ok. by rewrite lookup_insert_eq.
  - intros [_ [= <-]]%reject_Ok Hk. by rewrite lookup_insert_ne.
  - intros [Hf _]%reject_Ok [= Hl]. rewrite Hl in Hf. cbn in Hf.
    unfold InMemoryAuditCheckpointAnchorV1.forks in Hf.
    apply orb_false_iff in Hf as [Hlt%Z.ltb_ge Hf].
    destruct (Z.eqb_spec (AuditCheckpointV1.audit_sequence c) (AuditCheckpointV1.audit_sequence c')) as [He|He];
      [right|left; lia].
    cbn [andb] in Hf. rewrite !orb_false_iff, !negb_false_iff, !bool_decide_true_iff in Hf. intuition congruence.
Qed.

(** ** An execution that awaits reconciliation *)

Section reconciling.
Context {C : Crates} {P : UuidParser}.

Lemma cancels minted command now proofs p q r ev e :
  IdrRunProjectionV1.execution p = Some e -> ExecutionProjectionV1.state e = ExecutionAggregateStateV1.ReconciliationRequired ->
  (exists a, IdrCommandEnvelopeV1.command command = IdrCommandV1.RecordAction a) \/
  (exists ref reason, IdrCommandEnvelopeV1.command command = IdrCommandV1.InvalidateRecord ref reason /\
     AuthoritativeRecordRefV1.record_id ref = AuthoritativeRecordRefV1.record_id (ExecutionProjectionV1.action_ref e)) ->
  apply_command minted command now proofs p = Ok (q, r, ev) ->
  IdrRunProjectionV1.execution q = Some (ExecutionProjectionV1.with_state ExecutionAggregateStateV1.Cancelled e).
Proof.
  intros He Hs [[a Hc]|(ref & reason & Hc & Href)]; unfold apply_command; rewrite Hc; intros H.
  - unfold record_action, revoke_unless_terminal in H. inv_arm. cbn. rewrite He. cbn. rewrite Hs. cbn. by rewrite He.
  - unfold invalidate_record in H. inv_arm. cbn. rewrite He. cbn.
    rewrite bool_decide_true by done. rewrite Hs. cbn. by rewrite He.
Qed.

(** While an execution awaits reconciliation its run can neither record another
    Action nor have the Action's record invalidated: the transition engine answers
    such a command by cancelling the execution, and the guard of the execution's
    table refuses the cancellation, whatever the proofs. *)
Theorem reconciliation_blocks_the_action security trust_root load_envelope closure production human_model_write
    minted command now before p e :
  before.1 !! IdrCommandEnvelopeV1.run_id command = Some p -> IdrRunProjectionV1.execution p = Some e ->
  ExecutionProjectionV1.state e = ExecutionAggregateStateV1.ReconciliationRequired ->
  (exists a, IdrCommandEnvelopeV1.command command = IdrCommandV1.RecordAction a) \/
  (exists ref reason, IdrCommandEnvelopeV1.command command = IdrCommandV1.InvalidateRecord ref reason /\
     AuthoritativeRecordRefV1.record_id ref = AuthoritativeRecordRefV1.record_id (ExecutionProjectionV1.action_ref e)) ->
  is_err (handle security trust_root load_envelope closure production human_model_write minted command now before)
  = true.
Proof.
  intros Hp He Hs Hc. destruct (handle _ _ _ _ _ _ _ _ _ _) as [[after t]|] eqn:Hh; [exfalso|done].
  apply handle_Ok in Hh as (verified & p' & []).
  assert (p' = p) as -> by (unfold load_projection in *; rewrite Hp in *; congruence).
  destruct (choose_transition_Ok _ _ _ _ _ _ _ _ tr_chosen0) as (t0 & Ht0 & Ht).
  assert (evaluate_authoritative_transition_v1 minted command now verified p = Ok t0) as Hev.
  { destruct Ht0 as [Hev|[Hb _]]; [done|exfalso]. unfold reverify_bound_action_admission_proofs in Hb.
    by destruct Hc as [[a Hc]|(ref & reason & Hc & _)]; rewrite Hc in Hb. }
  apply evaluate_Ok in Hev as (q & event & []).
  assert (IdrRunProjectionV1.execution (IdrTransitionV1.projection t0) = Some (ExecutionProjectionV1.with_state ExecutionAggregateStateV1.Cancelled e)) as He0.
  { rewrite ac_transition. cbn. enough (IdrRunProjectionV1.execution q = Some (ExecutionProjectionV1.with_state ExecutionAggregateStateV1.Cancelled e)) by
      (by destruct (IdrTransitionV1.authoritative_record t0)). by eapply (cancels _ _ _ _ (advanced p)). }
  assert (IdrRunProjectionV1.execution (IdrTransitionV1.projection t) = Some (ExecutionProjectionV1.with_state ExecutionAggregateStateV1.Cancelled e)) as Hq.
  { destruct Ht as [->|(rs & b & ->)]; [done|]. destruct (closure_softens t0 rs b) as [Hsoft _].
    rewrite He0 in Hsoft. inversion Hsoft as [? e' (s & -> & _ & _ & Hcan) Heq Hr|]. subst. cbn in *.
    by destruct (Hcan eq_refl) as [->| ->]. }
  rewrite He, Hq in tr_guard0. cbn in tr_guard0. rewrite bool_decide_true, Hs in tr_guard0 by done.
  by destruct (is_governance t).
Qed.
End reconciling.
