(* ===== verification/ChainRecords.v ===== *)
(** * ChainRecords: what the digests of records and commands bind

    Issued records verify, two verified records with one digest are one record,
    and a proof's subject names one command. *)

From stdpp Require Import base list gmap fin_sets countable sorting strings.
From Stdlib Require Import NArith ZArith Lia.
From S2P Require Import Prelude Text Json Crates CanonicalJson Common Production ProductionProps ChainData ChainCommand ChainPayload ChainTransition ChainEvaluate ChainRepository ChainProps.

(** ** Serialized structs *)

Section leaves.
Context {C : Crates} {L : CratesLaws}.

Lemma kind_inv (a b : CandidateKindV1.t) : to_value (to_json a) = to_value (to_json b) -> a = b.
Proof. by destruct a, b. Qed.
Lemma resolution_inv (a b : ReconciliationResolutionV1.t) : to_value (to_json a) = to_value (to_json b) -> a = b.
Proof. by destruct a, b. Qed.
Lemma wire_tree_kind (k : CandidateKindV1.t) : wire_tree (to_json k) = true.
Proof. by destruct k. Qed.
Lemma wire_tree_domain (d : TrustDomainV1.t) : wire_tree (to_json d) = true.
Proof. by destruct d. Qed.

Lemma list_inv {A} `{ToJson A} (l k : list A) :
  (forall a b : A, to_value (to_json a) = to_value (to_json b) -> a = b) ->
  to_value (Arr (map to_json l)) = to_value (Arr (map to_json k)) -> l = k.
Proof.
  intros Hinj Heq. apply to_value_Arr_inv in Heq. rewrite !map_map in Heq.
  revert k Heq. induction l as [|a l IH]; intros [|b k]; cbn; try done.
  intros Heq. apply item_eq_inv in Heq as [Ha%Hinj Hl%IH]. by subst.
Qed.

Lemma uuids_inv (l k : list Uuid) : to_value (to_json l) = to_value (to_json k) -> l = k.
Proof. apply list_inv. apply uuid_inv. Qed.

Lemma bytes_inv (l k : list N) : to_value (IdrCommandV1.byte_array l) = to_value (IdrCommandV1.byte_array k) -> l = k.
Proof. apply (list_inv (H:=to_json_N) l k). apply N_inv. Qed.

Lemma value_inv (v w : Value) :
  wire_value v = true -> wire_value w = true -> to_value (to_json v) = to_value (to_json w) -> v = w.
Proof. intros Hv Hw. unfold to_json, to_json_value. by rewrite !to_value_wire. Qed.
End leaves.

(** One inversion per field, chosen by the field's type. *)
Ltac field_inv :=
  repeat match goal with
  | E : to_value (IdrCommandV1.byte_array _) = to_value _ |- _ => apply bytes_inv in E
  | E : to_value (@Json.to_json ?A _ _) = to_value _ |- _ =>
      lazymatch A with
      | TrustDomainV1.t => apply domain_inv in E
      | CandidateKindV1.t => apply kind_inv in E
      | ReconciliationResolutionV1.t => apply resolution_inv in E
      | ReferenceV1.t => apply ref_inv in E
      | Uuid => apply uuid_inv in E
      | list N => apply text_inv in E
      | text => apply text_inv in E
      | N => apply N_inv in E
      | WireCompatibilityV1.t => apply compatibility_inv in E
      | list Uuid => apply uuids_inv in E
      end
  end.

Section records.
Context {C : Crates} {L : CratesLaws}.

Lemma record_ref_inv (r s : AuthoritativeRecordRefV1.t) : to_value (Json.to_json r) = to_value (Json.to_json s) -> r = s.
Proof.
  intros H. unfold Json.to_json at 1 2, AuthoritativeRecordRefV1.to_json in H. struct_fields H. field_inv.
  destruct r, s. cbn in *. by subst.
Qed.

Lemma candidate_inv (c d : CandidateSubmissionV1.t) :
  wire_value (CandidateSubmissionV1.payload c) = true -> wire_value (CandidateSubmissionV1.payload d) = true ->
  to_value (Json.to_json c) = to_value (Json.to_json d) -> c = d.
Proof.
  intros Hc Hd H. unfold Json.to_json at 1 2, CandidateSubmissionV1.to_json in H. struct_fields H. field_inv.
  match goal with E : to_value _ = to_value _ |- _ => apply (value_inv _ _ Hc Hd) in E end.
  destruct c, d. cbn in *. by subst.
Qed.

(** ** Records *)

(** The strings of a record are Rust strings and its payload is a parsed tree. *)
Definition record_wire (r : AuthoritativeRecordV1.t) : bool :=
  wire_tree (Json.to_json (material_of r)) && wire_value (AuthoritativeRecordV1.payload r).

Lemma material_inv (a b : AuthoritativeRecordDigestMaterialV1.t) :
  wire_value (AuthoritativeRecordDigestMaterialV1.payload a) = true ->
  wire_value (AuthoritativeRecordDigestMaterialV1.payload b) = true ->
  to_value (Json.to_json a) = to_value (Json.to_json b) -> a = b.
Proof.
  intros Ha Hb H. unfold Json.to_json at 1 2, AuthoritativeRecordDigestMaterialV1.to_json in H.
  struct_fields H. field_inv.
  match goal with E : to_value _ = to_value _ |- _ => apply (value_inv _ _ Ha Hb) in E end.
  destruct a, b. cbn in *. by subst.
Qed.

Lemma material_of_inj (r s : AuthoritativeRecordV1.t) :
  material_of r = material_of s ->
  AuthoritativeRecordRefV1.trust_domain (AuthoritativeRecordV1.record_ref r) = AuthoritativeRecordV1.trust_domain r -> AuthoritativeRecordRefV1.environment_ref (AuthoritativeRecordV1.record_ref r) = AuthoritativeRecordV1.environment_ref r ->
  AuthoritativeRecordRefV1.valid_from (AuthoritativeRecordV1.record_ref r) = AuthoritativeRecordV1.valid_from r -> AuthoritativeRecordRefV1.valid_until (AuthoritativeRecordV1.record_ref r) = AuthoritativeRecordV1.valid_until r ->
  AuthoritativeRecordRefV1.trust_domain (AuthoritativeRecordV1.record_ref s) = AuthoritativeRecordV1.trust_domain s -> AuthoritativeRecordRefV1.environment_ref (AuthoritativeRecordV1.record_ref s) = AuthoritativeRecordV1.environment_ref s ->
  AuthoritativeRecordRefV1.valid_from (AuthoritativeRecordV1.record_ref s) = AuthoritativeRecordV1.valid_from s -> AuthoritativeRecordRefV1.valid_until (AuthoritativeRecordV1.record_ref s) = AuthoritativeRecordV1.valid_until s ->
  AuthoritativeRecordRefV1.record_digest (AuthoritativeRecordV1.record_ref r) = AuthoritativeRecordRefV1.record_digest (AuthoritativeRecordV1.record_ref s) -> r = s.
Proof.
  destruct r as [[] ], s as [[] ]. unfold material_of. cbn. intros [= -> -> -> -> -> -> -> -> -> -> -> -> -> -> -> -> -> ->].
  by intros -> -> -> -> -> -> -> -> ->.
Qed.

Lemma verify_record_Ok from_value v ref :
  verify_authoritative_record_value_v1 from_value v = Ok ref ->
  exists r, from_value v = Some r /\ AuthoritativeRecordV1.record_ref r = ref /\
    AuthoritativeRecordRefV1.trust_domain ref = AuthoritativeRecordV1.trust_domain r /\ AuthoritativeRecordRefV1.environment_ref ref = AuthoritativeRecordV1.environment_ref r /\
    AuthoritativeRecordRefV1.valid_from ref = AuthoritativeRecordV1.valid_from r /\ AuthoritativeRecordRefV1.valid_until ref = AuthoritativeRecordV1.valid_until r /\
    digest_record (material_of r) = Ok (AuthoritativeRecordRefV1.record_digest ref).
Proof.
  unfold verify_authoritative_record_value_v1. intros (r & Hr%ok_or_Ok & H)%bind_Ok. cbn zeta in H.
  apply reject_Ok in H as [Hx H]. apply bind_Ok in H as (dg & Hd & H). apply reject_Ok in H as [He [= <-]].
  exists r. bsimp. split_and!; try done. congruence.
Qed.

(** C27. A verified record is the one its digest was made for: two stored records
    that verify with the same digest are the same record in every field, payload,
    proofs and provenance included, unless SHA-256 has a collision. *)
Theorem record_digest_binds_record from_value v w ref ref' :
  verify_authoritative_record_value_v1 from_value v = Ok ref ->
  verify_authoritative_record_value_v1 from_value w = Ok ref' ->
  (forall u r, from_value u = Some r -> record_wire r = true) ->
  AuthoritativeRecordRefV1.record_digest ref = AuthoritativeRecordRefV1.record_digest ref' ->
  from_value v = from_value w \/ sha256_collision.
Proof.
  intros (r & Hr & <- & Hd & He & Hf & Hu & Hg)%verify_record_Ok
    (s & Hs & <- & Hd' & He' & Hf' & Hu' & Hg')%verify_record_Ok Hwire Heq.
  pose proof (Hwire _ _ Hr) as [Htr Hpr]%andb_true_iff. pose proof (Hwire _ _ Hs) as [Hts Hps]%andb_true_iff.
  unfold digest_record in *. apply map_err_Ok in Hg. apply map_err_Ok in Hg'. rewrite Heq in Hg.
  destruct (canonical_digest_bind _ _ _ _ _ Htr Hts Hg Hg') as [[_ Hm]|]; [left|by right].
  apply material_inv in Hm; [|done..]. rewrite Hr, Hs. f_equal.
  by apply material_of_inj.
Qed.
End records.

(** ** Issuing *)

Section issuing.
Context {C : Crates} {L : CratesLaws} {P : UuidParser}.

Lemma issue_verifies from_value r :
  from_value (to_value (Json.to_json r)) = Some r ->
  AuthoritativeRecordRefV1.trust_domain (AuthoritativeRecordV1.record_ref r) = AuthoritativeRecordV1.trust_domain r -> AuthoritativeRecordRefV1.environment_ref (AuthoritativeRecordV1.record_ref r) = AuthoritativeRecordV1.environment_ref r ->
  AuthoritativeRecordRefV1.valid_from (AuthoritativeRecordV1.record_ref r) = AuthoritativeRecordV1.valid_from r -> AuthoritativeRecordRefV1.valid_until (AuthoritativeRecordV1.record_ref r) = AuthoritativeRecordV1.valid_until r ->
  AuthoritativeRecordV1.valid_from r <> 0 -> AuthoritativeRecordV1.valid_from r <= AuthoritativeRecordV1.issued_at r < AuthoritativeRecordV1.valid_until r ->
  valid_digest (AuthoritativeRecordV1.candidate_digest r) = true ->
  digest_record (material_of r) = Ok (AuthoritativeRecordRefV1.record_digest (AuthoritativeRecordV1.record_ref r)) ->
  verify_authoritative_record_value_v1 from_value (to_value (Json.to_json r)) = Ok (AuthoritativeRecordV1.record_ref r).
Proof.
  intros Hf Hd He Hvf Hvu H0 Hi Hc Hg. unfold verify_authoritative_record_value_v1. rewrite Hf. cbn [ok_or mbind result_bind].
  apply reject_Ok. split.
  { rewrite !orb_false_iff, !negb_false_iff, !bool_decide_true_iff, !N.ltb_ge, !N.leb_gt, N.eqb_neq. split_and!; try done; first [apply Hi | eapply N.le_lt_trans; apply Hi]. }
  apply bind_Ok. eexists. split; [exact Hg|]. apply reject_Ok. split; [|done]. by rewrite negb_false_iff, bool_decide_true_iff.
Qed.

Lemma candidate_validate_Ok c :
  CandidateSubmissionV1.validate c = Ok tt -> CandidateSubmissionV1.valid_from c <> 0.
Proof.
  unfold CandidateSubmissionV1.validate. intros [_ H]%bind_unit_Ok. apply reject_Ok in H as [H _]. bsimp. done.
Qed.

(** What the run issues can be read back: a record made from a candidate,
    serialized and parsed again, passes the verification of stored records and
    yields the reference it was issued under. *)
Theorem issued_record_verifies from_value candidate command now proofs domain id revision r :
  from_value (to_value (Json.to_json r)) = Some r ->
  issue_record candidate command now proofs domain id revision = Ok r ->
  verify_authoritative_record_value_v1 from_value (to_value (Json.to_json r)) = Ok (AuthoritativeRecordV1.record_ref r) /\
  AuthoritativeRecordV1.payload r = CandidateSubmissionV1.payload candidate /\ AuthoritativeRecordV1.proof_ids r = map VerifiedProductionProofV1.proof_id proofs /\
  AuthoritativeRecordV1.issued_by_command_id r = IdrCommandEnvelopeV1.command_id command.
Proof.
  intros Hf H. pose proof (issue_record_Ok _ _ _ _ _ _ _ _ H) as (Hv & Hval & Hd & cd & rd & Hcd & ->).
  split; [|done]. apply candidate_validate_Ok in Hv. apply issue_verifies; try done.
  cbn. apply map_err_Ok in Hcd || idtac. by eapply canonical_digest_valid.
Qed.
End issuing.

(** ** Commands *)

Section commands.
Context {C : Crates} {L : CratesLaws}.

Lemma tagged_inv (a b : string) fs gs :
  to_value (IdrCommandV1.tagged a fs) = to_value (IdrCommandV1.tagged b gs) ->
  a = b /\ to_value (Obj fs) = to_value (Obj gs).
Proof.
  intros H. unfold IdrCommandV1.tagged in H. struct_fields H. split; [|done].
  match goal with E : to_value (Str _) = _ |- _ => by injection E as E%txt_inj end.
Qed.

(** A payload is a parsed JSON tree. *)
Definition payload_wire (c : IdrCommandV1.t) : bool :=
  match Command.candidate c with Some candidate => wire_value (CandidateSubmissionV1.payload candidate) | None => true end.

Lemma command_inv (c d : IdrCommandV1.t) :
  payload_wire c = true -> payload_wire d = true ->
  to_value (Json.to_json c) = to_value (Json.to_json d) -> c = d.
Proof.
  unfold payload_wire. intros Hc Hd H. apply tagged_inv in H as [Ht H].
  destruct c, d; try (exfalso; discriminate Ht); clear Ht;
    cbn [Command.candidate IdrCommandV1.command_fields] in Hc, Hd, H; struct_fields H; field_inv;
    repeat match goal with
    | E : to_value (@Json.to_json AuthoritativeRecordRefV1.t _ _) = _ |- _ => apply record_ref_inv in E
    | E : to_value (@Json.to_json CandidateSubmissionV1.t _ _) = _ |- _ => apply (candidate_inv _ _ Hc Hd) in E
    end; by subst.
Qed.

Lemma unsigned_inv (a b : UnsignedCommandEnvelopeV1.t) :
  payload_wire (UnsignedCommandEnvelopeV1.command a) = true ->
  payload_wire (UnsignedCommandEnvelopeV1.command b) = true ->
  to_value (Json.to_json a) = to_value (Json.to_json b) -> a = b.
Proof.
  intros Ha Hb H. unfold Json.to_json at 1 2, UnsignedCommandEnvelopeV1.to_json in H.
  struct_fields H. field_inv.
  match goal with E : to_value _ = to_value _ |- _ => apply (command_inv _ _ Ha Hb) in E end.
  destruct a, b. cbn in *. by subst.
Qed.

(** The strings of a command are Rust strings and its payload is a parsed tree. *)
Definition command_wire (e : IdrCommandEnvelopeV1.t) : bool :=
  wire_tree (Json.to_json (Envelope.unsigned e)) && payload_wire (IdrCommandEnvelopeV1.command e).

(** C39. The subject a proof must name determines the whole command but its proofs:
    identifier, run, version, principal, tenant, purpose and every argument; a
    proof signed for one command is never one for another, unless SHA-256 has a
    collision. *)
Theorem proof_subject_binds_command a b subject :
  command_wire a = true -> command_wire b = true ->
  Envelope.proof_subject a = Ok subject -> Envelope.proof_subject b = Ok subject ->
  Envelope.unsigned a = Envelope.unsigned b \/ sha256_collision.
Proof.
  intros [Ha Hpa]%andb_true_iff [Hb Hpb]%andb_true_iff. unfold Envelope.proof_subject.
  intros (x & Hx%map_err_Ok & (r & _ & [= <-])%bind_Ok)%bind_Ok
    (y & Hy%map_err_Ok & (r' & _ & [= <- <-])%bind_Ok)%bind_Ok.
  destruct (canonical_digest_bind _ _ _ _ _ Ha Hb Hx Hy) as [[_ H]|]; [left|by right].
  by apply unsigned_inv.
Qed.
End commands.
