(* ===== verification/ChainRequest.v ===== *)
(** * ChainRequest: what is executed is what was admitted

    An invariant of every stored run: its current records are filed under their own
    kind and belong to the run's boundary, and the request an execution carries is
    the digest of an Action record with the operation and the parameters it was
    recorded, admitted and reserved for. *)

From stdpp Require Import base list gmap fin_sets countable sorting strings.
From Stdlib Require Import NArith ZArith Lia.
From S2P Require Import Prelude Text Json Crates CanonicalJson Common Production ProductionProps ChainData ChainCommand ChainPayload ChainTransition ChainEvaluate ChainRepository Authority ChainProps ChainExecution AuthorityProps.

Section request.
Context {C : Crates}.

(** [digest] is the request of the Action [action_ref]. *)
Definition request_of (action_ref : AuthoritativeRecordRefV1.t) (operation_ref : ReferenceV1.t) (parameter_digest digest : text) : Prop :=
  AuthoritativeRecordRefV1.candidate_kind action_ref = CandidateKindV1.Action /\
  canonical_digest_v1 "idr-execution-request-v1"
    (Arr [Json.to_json action_ref; Json.to_json operation_ref; Json.to_json parameter_digest]) = Ok digest.

Definition binding_ok (b : ActionBindingProjectionV1.t) : Prop :=
  request_of (ActionBindingProjectionV1.action_ref b) (ActionBindingProjectionV1.operation_ref b)
    (ActionBindingProjectionV1.parameter_digest b) (ActionBindingProjectionV1.request_digest b).
Definition admission_ok (a : ActionAdmissionProjectionV1.t) : Prop :=
  request_of (ActionAdmissionProjectionV1.action_ref a) (ActionAdmissionProjectionV1.operation_ref a) (ActionAdmissionProjectionV1.parameter_digest a) (ActionAdmissionProjectionV1.request_digest a).
Definition request_ok (e : ExecutionProjectionV1.t) : Prop :=
  request_of (ExecutionProjectionV1.action_ref e) (ExecutionProjectionV1.operation_ref e) (ExecutionProjectionV1.parameter_digest e) (ExecutionProjectionV1.request_digest e).

Definition holds {A} (P : A -> Prop) (o : option A) : Prop := forall a, o = Some a -> P a.

Lemma holds_None {A} (P : A -> Prop) : holds P None.
Proof. by intros a [=]. Qed.
Lemma holds_Some {A} (P : A -> Prop) a : P a -> holds P (Some a).
Proof. by intros Ha ? [= <-]. Qed.
Lemma holds_filter {A} (P : A -> Prop) f o : holds P o -> holds P (option_filter f o).
Proof. intros H a [Ha _]%option_filter_Some. auto. Qed.

Record requests_ok (p : IdrRunProjectionV1.t) : Prop := {
  rq_binding : holds binding_ok (IdrRunProjectionV1.action_binding p);
  rq_admission : holds admission_ok (IdrRunProjectionV1.action_admission p);
  rq_execution : holds request_ok (IdrRunProjectionV1.execution p);
}.

Lemma requests_ok_same p q :
  IdrRunProjectionV1.action_binding q = IdrRunProjectionV1.action_binding p -> IdrRunProjectionV1.action_admission q = IdrRunProjectionV1.action_admission p ->
  IdrRunProjectionV1.execution q = IdrRunProjectionV1.execution p -> requests_ok p -> requests_ok q.
Proof. intros H1 H2 H3 []. by split; rewrite ?H1, ?H2, ?H3. Qed.

Lemma set_execution_state_requests s p : requests_ok p -> requests_ok (set_execution_state s p).
Proof.
  intros [Hb Ha He]. split; [done|done|]. unfold set_execution_state. cbn.
  intros e (e0 & H0 & ->)%fmap_Some. by apply He in H0.
Qed.

Lemma revoke_requests p : requests_ok p -> requests_ok (revoke_unless_terminal p).
Proof. unfold revoke_unless_terminal. repeat case_match; auto using set_execution_state_requests. Qed.

Lemma ensure_requests p r pe now q b :
  ensure_current_execution_action p r pe now = Ok (q, b) -> requests_ok p -> requests_ok q.
Proof. unfold ensure_current_execution_action. intros H. inv_arm; auto using set_execution_state_requests. Qed.
End request.
#[export] Hint Resolve set_execution_state_requests revoke_requests : chain.
Ltac same_requests := match goal with Hp : requests_ok ?p |- _ => by apply (requests_ok_same p) end.

Section arms.
Context {C : Crates} {P : UuidParser} (minted : Minted.t) (command : IdrCommandEnvelopeV1.t) (now : N) (proofs : list VerifiedProductionProofV1.t).

Lemma validated_action candidate :
  Envelope.validate command = Ok tt -> IdrCommandEnvelopeV1.command command = IdrCommandV1.RecordAction candidate ->
  CandidateSubmissionV1.candidate_kind candidate = CandidateKindV1.Action.
Proof.
  intros Hv Hc. pose proof (validated_kind command candidate Hv) as Hk. rewrite Hc in Hk.
  by injection (Hk eq_refl).
Qed.

Lemma record_action_requests candidate p q r ev :
  CandidateSubmissionV1.candidate_kind candidate = CandidateKindV1.Action -> requests_ok p ->
  record_action minted command now proofs p candidate = Ok (q, r, ev) -> requests_ok q.
Proof.
  intros Hk [Hb Ha He] H. unfold record_action in H. inv_arm.
  match goal with E : issue_next _ _ _ _ _ _ _ = Ok _ |- _ => apply (issue_next_issued _ _ _ _ _ _ _ _ Hk) in E as [Hkind] end.
  match goal with |- requests_ok (IdrRunProjectionV1.with_action_admission None (revoke_unless_terminal ?p')) =>
    assert (requests_ok p') as Hp' end.
  { split; [apply holds_Some; split; done|done|done]. }
  apply revoke_requests in Hp' as [Hb' _ He']. by split; [done|apply holds_None|done].
Qed.

Lemma admit_action_requests ref d pr ow key p q r ev :
  requests_ok p -> admit_action minted command now proofs p ref d pr ow key = Ok (q, r, ev) -> requests_ok q.
Proof.
  intros [Hb Ha He] H. unfold admit_action in H. inv_arm.
  match goal with E : option_filter _ _ = Some _ |- _ =>
    apply option_filter_Some in E as [Hbind Href%bool_decide_eq_true_1] end.
  split; [done|apply holds_Some|done]. apply Hb in Hbind. unfold admission_ok, binding_ok in *. by rewrite <- Href.
Qed.

Lemma reserve_requests aref ref d pr ow key att lease nonce p q r ev :
  requests_ok p -> reserve_execution minted command now proofs p aref ref d pr ow key att lease nonce = Ok (q, r, ev) ->
  requests_ok q.
Proof.
  intros [Hb Ha He] H. unfold reserve_execution in H. inv_arm.
  match goal with E : reservation_mismatch _ _ _ _ _ _ _ _ _ _ _ = false |- _ =>
    unfold reservation_mismatch in E; rewrite !orb_false_iff in E; destruct_and! end.
  match goal with E : (ActionAdmissionProjectionV1.action_ref _ != _) = false |- _ => apply negb_false_iff, bool_decide_eq_true_1 in E; subst end.
  match goal with E : IdrRunProjectionV1.action_admission p = Some _ |- _ => apply Ha in E end.
  split; [done|done|]. by apply holds_Some.
Qed.

Lemma apply_command_requests p q r ev :
  Envelope.validate command = Ok tt -> requests_ok p ->
  apply_command minted command now proofs p = Ok (q, r, ev) -> requests_ok q.
Proof.
  unfold apply_command. intros Hv Hp H. destruct (IdrCommandEnvelopeV1.command command) eqn:Hc.
  - unfold start_run in H. inv_arm. same_requests.
  - unfold record_context in H. inv_arm. done.
  - unfold record_intent in H. inv_arm; [same_requests|done].
  - unfold record_decision in H. inv_arm. same_requests.
  - unfold record_turn in H. inv_arm. done.
  - unfold record_response in H. inv_arm. same_requests.
  - unfold consume_response_send in H. inv_arm. same_requests.
  - eapply record_action_requests; [|done..]. by eapply validated_action.
  - by eapply admit_action_requests.
  - by eapply reserve_requests.
  - unfold recover_permit in H. inv_arm; auto with chain.
  - unfold deliver_permit, advance_permit in H. inv_arm; eauto using ensure_requests with chain.
  - unfold start_dispatch, advance_permit in H. inv_arm; eauto using ensure_requests with chain.
  - unfold commit_execution_receipt in H. inv_arm. eapply requests_ok_same; [..|by apply set_execution_state_requests]; done.
  - unfold reconcile_execution in H. inv_arm. auto with chain.
  - unfold expire_execution_lease in H. inv_arm; auto with chain.
  - unfold invalidate_record in H. inv_arm.
    match goal with |- requests_ok (IdrRunProjectionV1.with_state _ ?q') => assert (requests_ok q') as Hq'; [|same_requests] end.
    repeat case_match; [apply set_execution_state_requests|..]; same_requests.
  - unfold record_outcome in H. inv_arm. same_requests.
  - unfold propose_human_model_candidate in H. inv_arm. same_requests.
  - unfold record_human_model_promotion in H. inv_arm. same_requests.
  - unfold promote_human_model_assertion in H. inv_arm. done.
  - unfold correct_human_model_assertion in H. inv_arm. same_requests.
  - unfold cancel_run in H. inv_arm. same_requests.
Qed.
End arms.

(** ** Current records *)

(** Every current record is filed under its kind and is of the run's boundary. *)
Definition records_ok (p : IdrRunProjectionV1.t) : Prop :=
  forall k r, IdrRunProjectionV1.records p !! k = Some r ->
    AuthoritativeRecordRefV1.candidate_kind r = k /\ AuthoritativeRecordRefV1.trust_domain r = IdrRunProjectionV1.trust_domain p /\ AuthoritativeRecordRefV1.environment_ref r = IdrRunProjectionV1.environment_ref p.

Lemma records_ok_same p q :
  IdrRunProjectionV1.records q = IdrRunProjectionV1.records p -> IdrRunProjectionV1.trust_domain q = IdrRunProjectionV1.trust_domain p ->
  IdrRunProjectionV1.environment_ref q = IdrRunProjectionV1.environment_ref p -> records_ok p -> records_ok q.
Proof. unfold records_ok. intros -> -> ->. done. Qed.

Lemma store_record_ok p record :
  records_ok p ->
  (forall r, record = Some r -> AuthoritativeRecordRefV1.trust_domain (AuthoritativeRecordV1.record_ref r) = IdrRunProjectionV1.trust_domain p /\
     AuthoritativeRecordRefV1.environment_ref (AuthoritativeRecordV1.record_ref r) = IdrRunProjectionV1.environment_ref p) ->
  records_ok (store_record record p).
Proof.
  intros Hp Hr. destruct record as [r|]; [|done]. destruct (Hr r eq_refl) as [Hd He].
  intros k s. cbn. rewrite lookup_insert_Some. intros [[<- <-]|[_ Hs]]; [done|by apply Hp].
Qed.

Lemma withdraw_frame r p : frame p (withdraw p r).
Proof.
  unfold withdraw, withdraw_execution, withdraw_bindings.
  repeat (case_match; cbn [IdrRunProjectionV1.execution IdrRunProjectionV1.with_execution]); solve_frame.
Qed.

Section boundary.
Context {C : Crates} {P : UuidParser} (minted : Minted.t) (command : IdrCommandEnvelopeV1.t) (now : N) (proofs : list VerifiedProductionProofV1.t).

(** The record of a transition is of the run's boundary. *)
Lemma apply_command_boundary p q r event :
  Envelope.validate command = Ok tt -> IdrRunProjectionV1.environment_ref p = IdrCommandEnvelopeV1.environment_ref command ->
  apply_command minted command now proofs p = Ok (q, Some r, event) ->
  AuthoritativeRecordRefV1.trust_domain (AuthoritativeRecordV1.record_ref r) = IdrRunProjectionV1.trust_domain p /\
  AuthoritativeRecordRefV1.environment_ref (AuthoritativeRecordV1.record_ref r) = IdrRunProjectionV1.environment_ref p.
Proof.
  intros Hv He H. destruct (is_correction (IdrCommandEnvelopeV1.command command)) eqn:Hc.
  - unfold apply_command in H. destruct (IdrCommandEnvelopeV1.command command); try discriminate Hc.
    unfold correct_human_model_assertion in H. inv_arm.
    match goal with E : issue_record _ _ _ _ _ _ _ = Ok _ |- _ =>
      apply issue_record_Ok in E as (_ & _ & _ & cd & rd & _ & ->) end. by cbn.
  - destruct (apply_command_issues _ _ _ _ _ _ _ _ Hv He Hc H) as (kind & _ & []). by rewrite He.
Qed.
End boundary.

(** ** Transactions *)

Record coherent (d : TrustDomainV1.t) (env : ReferenceV1.t) (p : IdrRunProjectionV1.t) : Prop := {
  co_domain : IdrRunProjectionV1.trust_domain p = d;
  co_environment : IdrRunProjectionV1.environment_ref p = env;
  co_records : records_ok p;
}.

Lemma coherent_frame d env p q : frame p q -> coherent d env p -> coherent d env q.
Proof.
  intros [Hd He _ _ _ _ Hr _ _] []. split; [congruence|congruence|]. by apply (records_ok_same p).
Qed.

Section chosen.
Context {C : Crates} {P : UuidParser} (closure : AuthoritativeRecordRefV1.t -> Chain (list AuthoritativeRecordRefV1.t)).
Context (minted : Minted.t) (command : IdrCommandEnvelopeV1.t) (now : N) (proofs : list VerifiedProductionProofV1.t).

Lemma withdraw_requests p r : requests_ok p -> requests_ok (withdraw p r).
Proof.
  intros Hp. unfold withdraw. set (p0 := IdrRunProjectionV1.with_invalidated_records _ _).
  assert (requests_ok p0) as Hp0 by (by apply (requests_ok_same p)).
  clearbody p0. assert (requests_ok (withdraw_bindings r p0)) as Hb.
  { destruct Hp0 as [Hb Ha He]. unfold withdraw_bindings, clear_if.
    repeat case_match; split; cbn; try apply holds_filter; done. }
  unfold withdraw_execution. repeat case_match; auto with chain.
Qed.

Lemma closure_keeps (Q : IdrRunProjectionV1.t -> Prop) t rs b :
  (forall p r, Q p -> Q (withdraw p r)) -> (forall s p, Q p -> Q (IdrRunProjectionV1.with_state s p)) ->
  Q (IdrTransitionV1.projection t) ->
  Q (IdrTransitionV1.projection (apply_repository_invalidation_closure t rs b)).
Proof.
  intros Hw Hs Ht. unfold apply_repository_invalidation_closure. cbn.
  assert (Q (foldl withdraw (IdrTransitionV1.projection t) rs)) as Hf.
  { revert Ht. generalize (IdrTransitionV1.projection t). induction rs as [|r rs IH]; intros p Hp; cbn; auto. }
  repeat case_match; auto.
Qed.

Lemma chosen_requests bound p t :
  requests_ok p -> choose_transition closure minted bound command now proofs p = Ok t ->
  requests_ok (IdrTransitionV1.projection t).
Proof.
  intros Hp (t0 & Ht & Hc)%choose_transition_Ok.
  assert (requests_ok (advanced p)) as Hadv by (by apply (requests_ok_same p)).
  assert (requests_ok (IdrTransitionV1.projection t0)) as H0.
  { destruct Ht as [(q & event & [])%evaluate_Ok|[_ (a & _ & Ht)%failure_Ok]].
    - apply apply_command_requests in ac_arm; [|done..]. rewrite ac_transition. cbn.
      destruct (IdrTransitionV1.authoritative_record t0); by apply (requests_ok_same q).
    - cbn zeta in Ht. rewrite Ht. eapply requests_ok_same; [..|by apply set_execution_state_requests]; done. }
  destruct Hc as [->|(rs & b & ->)]; [done|].
  apply closure_keeps; [by intros; apply withdraw_requests|by intros s q ?; apply (requests_ok_same q)|done].
Qed.

Lemma chosen_coherent d env bound p t :
  coherent d env p -> choose_transition closure minted bound command now proofs p = Ok t ->
  coherent d env (IdrTransitionV1.projection t).
Proof.
  intros Hp (t0 & Ht & Hc)%choose_transition_Ok.
  assert (coherent d env (IdrTransitionV1.projection t0)) as H0.
  { destruct Ht as [(q & event & Ha)%evaluate_Ok|[_ (a & _ & Ht)%failure_Ok]].
    - pose proof (coherent_frame d env _ _ (accepted_frame _ _ _ _ _ _ _ _ Ha)) as Hq.
      destruct Ha. destruct Hq as [Hd He Hr]; [by destruct Hp|]. rewrite ac_transition. cbn.
      split; [by destruct (IdrTransitionV1.authoritative_record t0)..|].
      apply store_record_ok; [done|]. intros r Hrec. rewrite Hrec in ac_arm.
      apply apply_command_boundary in ac_arm as [Hd' He']; [|done..]. destruct Hp. cbn in *. split; congruence.
    - cbn zeta in Ht. rewrite Ht. by destruct Hp. }
  destruct Hc as [->|(rs & b & ->)]; [done|].
  apply closure_keeps; [intros q r; apply coherent_frame, withdraw_frame|by intros s q []|done].
Qed.
End chosen.

(** ** Runs *)

Section runs.
Context {C : Crates} {P : UuidParser} (security : PostgresSecurityContextV1.t).

Definition run_in_order (p : IdrRunProjectionV1.t) : Prop :=
  requests_ok p /\
  coherent (PostgresSecurityContextV1.trust_domain security) (PostgresSecurityContextV1.environment_ref security) p.

Lemma pending_in_order r t :
  run_in_order (IdrRunProjectionV1.pending (PostgresSecurityContextV1.trust_domain security)
    (PostgresSecurityContextV1.environment_ref security) r t).
Proof.
  split; [split; by intros ? [=]|]. split; [done|done|]. intros k s. cbn. by rewrite lookup_empty.
Qed.

Lemma step_in_order before after :
  authority_step security before after -> (forall r p, before.1 !! r = Some p -> run_in_order p) ->
  forall r p, after.1 !! r = Some p -> run_in_order p.
Proof.
  intros [? ? ? ? ? ? command ? ? ? t H] Hok. apply handle_Ok in H as (vs & p0 & []). subst.
  assert (run_in_order p0) as [Hr Hc].
  { destruct (load_projection_Ok _ _ _ _ tr_projection) as [Hl|[_ ->]]; [by eapply Hok|apply pending_in_order]. }
  intros r p. cbn. rewrite lookup_insert_Some. intros [[_ <-]|[_ Hl]]; [|by eapply Hok].
  split; [by eapply chosen_requests|by eapply chosen_coherent].
Qed.

(** C5. What a run executes is what was admitted: under every sequence of accepted
    commands the request digest its execution carries, which the provider's
    receipt must repeat, is the digest of the reserved Action record with its
    operation and parameters, and every current record of the run is filed under
    its own kind and belongs to the orchestrator's domain and environment. *)
Theorem executed_request_is_the_admitted_one tb run p :
  authority_reachable security (∅, []) tb -> tb.1 !! run = Some p ->
  requests_ok p /\ records_ok p /\
  IdrRunProjectionV1.trust_domain p = PostgresSecurityContextV1.trust_domain security /\
  IdrRunProjectionV1.environment_ref p = PostgresSecurityContextV1.environment_ref security.
Proof.
  intros Hr Hl. enough (run_in_order p) as [Hq []] by done. revert run p Hl.
  remember (∅, [] : list consumption) as start eqn:Hs.
  assert (forall r p, start.1 !! r = Some p -> run_in_order p) as Hstart
    by (subst; intros r p; cbn; by rewrite lookup_empty).
  clear Hs. induction Hr as [tb|tb1 tb2 tb3 Hstep _ IH]; [exact Hstart|].
  apply IH. by apply (step_in_order _ _ Hstep).
Qed.
End runs.
