(* ===== verification/ChainClosed.v ===== *)
(** * ChainClosed: runs with an execution receipt

    Once a run holds an execution receipt it is closed to new work for good, and its
    execution has crossed the dispatch boundary; what is learned from the execution (an
    outcome, a candidate of the human model, its promotion) is learned from a closed run
    ([closed_ok]).  A record is withdrawn by name on an open run only, so nothing a
    closed run holds can be. *)

From stdpp Require Import base list gmap fin_sets countable sorting strings.
From Stdlib Require Import NArith ZArith Lia.
From S2P Require Import Prelude Text Json Crates CanonicalJson Common Production ProductionProps ChainData ChainCommand ChainPayload ChainTransition ChainEvaluate ChainRepository Authority ChainProps ChainExecution AuthorityProps ChainRequest.

Record closed_ok (p : IdrRunProjectionV1.t) : Prop := {
  cl_receipt : IdrRunProjectionV1.records p !! CandidateKindV1.ExecutionReceipt <> None ->
    run_open (IdrRunProjectionV1.state p) = false /\ exists e, IdrRunProjectionV1.execution p = Some e /\ dispatched (ExecutionProjectionV1.state e) = true;
  cl_model : IdrRunProjectionV1.records p !! CandidateKindV1.ExecutionReceipt = None ->
    IdrRunProjectionV1.outcome_binding p = None /\ IdrRunProjectionV1.human_model_candidate p = None /\ IdrRunProjectionV1.human_model_promotion p = None;
}.

Lemma pending_closed d env r t : closed_ok (IdrRunProjectionV1.pending d env r t).
Proof. split; [by cbn|done]. Qed.

(** A record of another kind changes nothing. *)
Lemma store_closed r p :
  (forall record, r = Some record -> AuthoritativeRecordRefV1.candidate_kind (AuthoritativeRecordV1.record_ref record) <> CandidateKindV1.ExecutionReceipt) ->
  closed_ok p -> closed_ok (store_record r p).
Proof.
  intros Hk [H1 H2]. destruct r as [record|]; [|by split]. specialize (Hk _ eq_refl).
  split; cbn; rewrite lookup_insert_ne by done; auto.
Qed.

Section arms.
Context {C : Crates} {P : UuidParser} (minted : Minted.t) (command : IdrCommandEnvelopeV1.t) (now : N) (proofs : list VerifiedProductionProofV1.t).

Definition commits (c : IdrCommandV1.t) : bool :=
  match c with IdrCommandV1.CommitExecutionReceipt _ _ _ _ _ _ => true | _ => false end.

Lemma issued_other_kind p q r event :
  Envelope.validate command = Ok tt -> IdrRunProjectionV1.environment_ref p = IdrCommandEnvelopeV1.environment_ref command -> commits (IdrCommandEnvelopeV1.command command) = false ->
  apply_command minted command now proofs p = Ok (q, Some r, event) -> AuthoritativeRecordRefV1.candidate_kind (AuthoritativeRecordV1.record_ref r) <> CandidateKindV1.ExecutionReceipt.
Proof.
  intros Hv He Hn H. destruct (is_correction (IdrCommandEnvelopeV1.command command)) eqn:Hc.
  - destruct (IdrCommandEnvelopeV1.command command) eqn:Hcmd; try discriminate Hc.
    pose proof (validated_kind command _ Hv ltac:(rewrite Hcmd; reflexivity)) as Hk. rewrite Hcmd in Hk. cbn in Hk. injection Hk as Hk.
    unfold apply_command in H. rewrite Hcmd in H. unfold correct_human_model_assertion in H. inv_arm.
    match goal with E : issue_record _ _ _ _ _ _ _ = Ok _ |- _ => apply issue_record_Ok in E as (_ & _ & _ & cd & rd & _ & ->) end.
    cbn. by rewrite Hk.
  - destruct (apply_command_issues _ _ _ _ _ _ _ _ Hv He Hc H) as (kind & Hk & Hi). rewrite (is_kind _ _ _ _ _ _ Hi).
    destruct (IdrCommandEnvelopeV1.command command); first [discriminate Hk|discriminate Hn|by injection Hk as <-].
Qed.
(** What an arm other than the receipt's leaves before its record is filed *)
Lemma apply_command_closed p q r event :
  command_allowed (IdrRunProjectionV1.state p) (IdrCommandEnvelopeV1.command command) = true -> commits (IdrCommandEnvelopeV1.command command) = false ->
  apply_command minted command now proofs p = Ok (q, r, event) -> closed_ok p -> closed_ok q.
Proof.
  intros Ha Hn H Hp. pose proof (apply_command_frame _ _ _ _ _ _ _ _ H) as Hf. destruct Hp as [H1 H2].
  assert (run_open (IdrRunProjectionV1.state p) = true -> IdrRunProjectionV1.records p !! CandidateKindV1.ExecutionReceipt = None) as Hnone.
  { intros Ho. destruct (IdrRunProjectionV1.records p !! CandidateKindV1.ExecutionReceipt) eqn:E; [|done]. destruct (H1 ltac:(done)) as [Hc _]. congruence. }
  assert (IdrRunProjectionV1.records p !! CandidateKindV1.ExecutionReceipt = None ->
    IdrRunProjectionV1.outcome_binding q = None /\ IdrRunProjectionV1.human_model_candidate q = None /\ IdrRunProjectionV1.human_model_promotion q = None -> closed_ok q) as Hfresh.
  { intros Hr Hb. split; rewrite (fr_records _ _ Hf), Hr; done. }
  unfold apply_command in H. destruct (IdrCommandEnvelopeV1.command command) eqn:Hcmd; try discriminate Hn.
  all: try (solve [
    specialize (Hnone ltac:(by destruct (IdrRunProjectionV1.state p))); apply (Hfresh Hnone); destruct (H2 Hnone) as (B1 & B2 & B3);
    unfold start_run, record_context, record_intent, record_decision, record_turn, record_response, consume_response_send, record_action,
      admit_action, reserve_execution, recover_permit, deliver_permit, start_dispatch, advance_permit, ensure_current_execution_action,
      invalidate_record, revoke_unless_terminal in H; inv_arm; repeat case_match; cbn; by split_and!]).
  - unfold reconcile_execution in H. apply bind_Ok in H as (e & [He _]%reserved_execution_Ok & H). inv_arm.
    split; cbn; [|done]. intros Hr. destruct (H1 Hr) as [Ho _]. split; [done|]. rewrite He. by eexists.
  - unfold expire_execution_lease in H. apply bind_Ok in H as (e & [He _]%reserved_execution_Ok & H). inv_arm;
      (split; cbn; [|done]; intros Hr; destruct (H1 Hr) as [Ho (e' & He' & Hd)]; split; [done|]; rewrite He; eexists; split; [done|]; cbn);
      [|done]. assert (e' = e) as -> by congruence. by destruct (ExecutionProjectionV1.state e).
  - unfold record_outcome in H. inv_arm. match goal with E : IdrRunProjectionV1.records p !! _ = Some _ |- _ => split; cbn; rewrite E end; [|done].
    intros _. apply H1. by match goal with E : IdrRunProjectionV1.records p !! _ = Some _ |- _ => rewrite E end.
  - unfold propose_human_model_candidate in H. inv_arm. split; cbn; [done|]. intros Hr. destruct (H2 Hr) as [Hb _]. congruence.
  - unfold record_human_model_promotion, source_candidate_of in H. inv_arm. split; cbn; [done|]. intros Hr. destruct (H2 Hr) as (_ & Hb & _).
    by rewrite Hb in *.
  - unfold promote_human_model_assertion in H. inv_arm. by split.
  - unfold correct_human_model_assertion in H. inv_arm. by split.
  - unfold cancel_run in H. inv_arm. split; cbn; [|done]. intros Hr. split; [done|]. by apply H1.
Qed.
End arms.

(** ** Transitions *)

Section transitions.
Context {C : Crates} {P : UuidParser} (closure : AuthoritativeRecordRefV1.t -> Chain (list AuthoritativeRecordRefV1.t)).
Context (minted : Minted.t) (command : IdrCommandEnvelopeV1.t) (now : N) (proofs : list VerifiedProductionProofV1.t).

Lemma evaluated_closed p t :
  evaluate_authoritative_transition_v1 minted command now proofs p = Ok t -> closed_ok p -> closed_ok (IdrTransitionV1.projection t).
Proof.
  intros (q & event & [])%evaluate_Ok Hp. rewrite ac_transition. cbn.
  assert (closed_ok (advanced p)) as Ha by (destruct Hp; by split).
  destruct (commits (IdrCommandEnvelopeV1.command command)) eqn:Hc.
  - unfold apply_command in ac_arm. destruct (IdrCommandEnvelopeV1.command command) eqn:Hcmd; try discriminate Hc.
    unfold commit_execution_receipt in ac_arm. inv_arm.
    match goal with E : current_execution _ _ _ = Ok ?e |- _ => apply current_execution_Ok in E as (He & _) end.
    match goal with E : run_state_after _ = Ok _ |- _ => apply run_state_after_closed in E as [Hs%settled_cases Hr] end.
    match goal with E : issue_record _ _ _ _ _ _ _ = Ok _ |- _ => apply issue_record_Ok in E as (_ & _ & _ & cd & rd & _ & Hrec) end.
    pose proof (validated_kind command _ ac_valid ltac:(rewrite Hcmd; reflexivity)) as Hk. rewrite Hcmd in Hk. injection Hk as Hk.
    match goal with E : Some _ = IdrTransitionV1.authoritative_record t |- _ => rewrite <- E end.
    rewrite Hrec. cbn. rewrite Hk. split; cbn; rewrite lookup_insert_eq; [|done]. intros _. split; [done|].
    cbn in He. rewrite He. by eexists.
  - apply store_closed.
    + intros record Hr. rewrite Hr in ac_arm. exact (issued_other_kind minted command now proofs (advanced p) q record event ac_valid ac_environment Hc ac_arm).
    + exact (apply_command_closed minted command now proofs (advanced p) q _ event ac_allowed Hc ac_arm Ha).
Qed.

Lemma withdraw_closed p r : closed_ok p -> closed_ok (withdraw p r).
Proof.
  intros [H1 H2]. destruct (withdraw_softens p r) as [He Hs]. pose proof (fr_records _ _ (withdraw_frame r p)) as Hrec.
  split; rewrite Hrec.
  - intros Hr. destruct (H1 Hr) as (Ho & e & Hex & Hd). rewrite Hs. split; [done|]. rewrite Hex in He.
    inversion He as [? e' Hsoft Heq|]; subst. exists e'. split; [done|]. destruct Hsoft as (s & -> & Hd' & _). cbn. by rewrite Hd'.
  - intros Hr. destruct (H2 Hr) as (B1 & B2 & B3).
    unfold withdraw, withdraw_execution, set_execution_state, withdraw_bindings, clear_if.
    repeat (case_match; cbn); cbn in *; rewrite ?B1, ?B2, ?B3 in *; try done.
Qed.

Lemma state_closed s p : run_open s = false -> closed_ok p -> closed_ok (IdrRunProjectionV1.with_state s p).
Proof. intros Hs [H1 H2]. split; cbn; [|done]. intros Hr. split; [done|]. by apply H1. Qed.

Lemma chosen_closed bound p t :
  choose_transition closure minted bound command now proofs p = Ok t -> closed_ok p -> closed_ok (IdrTransitionV1.projection t).
Proof.
  intros (t0 & Ht & Hc)%choose_transition_Ok Hp. assert (closed_ok (IdrTransitionV1.projection t0)) as H0.
  { destruct Ht as [Ht|[_ (a & _ & Ht)%failure_Ok]]; [by eapply evaluated_closed|]. cbv zeta in Ht. rewrite Ht.
    destruct Hp as [H1 H2]. split; cbn; [|done]. intros Hr. destruct (H1 Hr) as (_ & e & He & Hd).
    assert (crossed_dispatch_boundary p = true) as -> by (unfold crossed_dispatch_boundary; by rewrite He).
    split; [done|]. rewrite He. by eexists. }
  destruct Hc as [->|(rs & b & ->)]; [done|]. unfold apply_repository_invalidation_closure. cbn.
  assert (closed_ok (foldl withdraw (IdrTransitionV1.projection t0) rs)) as Hf.
  { revert H0. generalize (IdrTransitionV1.projection t0). induction rs as [|r rs IH]; intros q Hq; cbn; [done|]. by apply IH, withdraw_closed. }
  destruct b; [|destruct (is_some_and _ _)]; [by apply state_closed..|done].
Qed.
End transitions.

(** ** Runs *)

Section runs.
Context {C : Crates} {P : UuidParser} (security : PostgresSecurityContextV1.t).

Lemma step_closed before after :
  authority_step security before after -> (forall r p, before.1 !! r = Some p -> closed_ok p) ->
  forall r p, after.1 !! r = Some p -> closed_ok p.
Proof.
  intros [? ? ? ? ? ? command ? ? ? t H] Hok. apply handle_Ok in H as (vs & p0 & []). subst.
  assert (closed_ok p0) as Hc.
  { destruct (load_projection_Ok _ _ _ _ tr_projection) as [Hl|[_ ->]]; [by eapply Hok|apply pending_closed]. }
  intros r p. cbn. rewrite lookup_insert_Some. intros [[_ <-]|[_ Hl]]; [|by eapply Hok]. by eapply chosen_closed.
Qed.

Lemma reachable_closed tb run p :
  authority_reachable security (∅, []) tb -> tb.1 !! run = Some p -> closed_ok p.
Proof.
  intros Hr Hl. revert run p Hl. remember (∅, [] : list consumption) as start eqn:Hs.
  assert (forall r p, start.1 !! r = Some p -> closed_ok p) as Hstart by (subst; intros r p; cbn; by rewrite lookup_empty).
  clear Hs. induction Hr as [tb|tb1 tb2 tb3 Hstep _ IH]; [exact Hstart|]. apply IH. by apply (step_closed _ _ Hstep).
Qed.

(** A closed run refuses to have a record withdrawn by name. *)
Lemma closed_refuses closure minted command now proofs bound p t reference reason :
  choose_transition closure minted bound command now proofs p = Ok t -> closed_ok p ->
  (bound = Ok tt \/ exists q, evaluate_authoritative_transition_v1 minted command now proofs p = Ok q) ->
  IdrCommandEnvelopeV1.command command = IdrCommandV1.InvalidateRecord reference reason ->
  IdrRunProjectionV1.records p !! CandidateKindV1.ExecutionReceipt = None.
Proof.
  intros (t0 & Ht & _)%choose_transition_Ok [H1 _] Hb Hcmd.
  assert (exists t0, evaluate_authoritative_transition_v1 minted command now proofs p = Ok t0) as (t1 & (q & event & [])%evaluate_Ok).
  { destruct Hb as [->|?]; [|done]. destruct Ht as [?|[? _]]; [by exists t0|done]. }
  rewrite Hcmd in ac_allowed. destruct (IdrRunProjectionV1.records p !! CandidateKindV1.ExecutionReceipt) eqn:E; [|done].
  destruct (H1 ltac:(done)) as [Ho _]. by destruct (IdrRunProjectionV1.state p).
Qed.
End runs.
