(* ===== verification/ChainPromotion.v ===== *)
(** * ChainPromotion: what a promoted assertion of the human model rests on

    An invariant of every stored run: the promotion decision it holds was taken
    about the human-model candidate it holds, and a provisional one counted at
    least two independent pieces of evidence. *)

From stdpp Require Import base list gmap fin_sets countable sorting strings.
From Stdlib Require Import NArith ZArith Lia.
From S2P Require Import Prelude Text Json Crates CanonicalJson Common Production ProductionProps ChainData ChainCommand ChainPayload ChainTransition ChainEvaluate ChainRepository Authority ChainProps ChainExecution AuthorityProps ChainRequest.

(** The independent evidence of a candidate: its distinct references. *)
Definition evidence_roots (payload : Value) : option (gset text) :=
  evidence ← get (txt "evidence_refs") payload ≫= as_array;
  match collect_map evidence_root evidence with Ok roots => Some (list_to_set roots) | Err _ => None end.

(** The decision was taken about this candidate, on enough evidence. *)
Definition supports (c : HumanModelCandidateProjectionV1.t) (d : HumanModelPromotionProjectionV1.t) : Prop :=
  HumanModelPromotionProjectionV1.outcome d = txt "promote_provisional" ->
  exists roots, evidence_roots (HumanModelCandidateProjectionV1.materialized_payload c) = Some roots /\
    (2 <= size roots)%nat.

Record promotion_ok (p : IdrRunProjectionV1.t) : Prop := {
  pr_supported : forall c d,
    IdrRunProjectionV1.human_model_candidate p = Some c -> IdrRunProjectionV1.human_model_promotion p = Some d ->
    HumanModelCandidateProjectionV1.candidate_ref c = HumanModelPromotionProjectionV1.source_candidate_ref d ->
    supports c d;
  pr_current : forall d, IdrRunProjectionV1.human_model_promotion p = Some d ->
    exists current, IdrRunProjectionV1.records p !! CandidateKindV1.HumanModelCandidate = Some current /\
      AuthoritativeRecordRefV1.revision (HumanModelPromotionProjectionV1.source_candidate_ref d) <= AuthoritativeRecordRefV1.revision current;
}.

Lemma promotion_ok_same p q :
  IdrRunProjectionV1.human_model_candidate q = IdrRunProjectionV1.human_model_candidate p ->
  IdrRunProjectionV1.human_model_promotion q = IdrRunProjectionV1.human_model_promotion p -> IdrRunProjectionV1.records q = IdrRunProjectionV1.records p ->
  promotion_ok p -> promotion_ok q.
Proof. intros Hc Hd Hr [H1 H2]. split; rewrite ?Hc, ?Hd, ?Hr; done. Qed.

Lemma validated_promotion payload digest source outcome :
  validate_human_model_promotion payload digest source = Ok outcome -> outcome = txt "promote_provisional" ->
  exists roots, evidence_roots source = Some roots /\ (2 <= size roots)%nat.
Proof.
  unfold validate_human_model_promotion, evidence_roots. intros H Ho.
  apply bind_Ok in H as (claimed & _ & H). apply reject_Ok in H as [_ H].
  apply bind_Ok in H as (o & _ & H). cbv zeta in H. apply bind_Ok in H as (evidence & ->%ok_or_Ok & H).
  apply bind_Ok in H as (roots & Hroots & H). apply reject_Ok in H as [_ H]. 
  cbn [mbind option_bind]. rewrite Hroots. eexists. split; [done|].
  destruct (if (o == txt "keep_session") || (o == txt "store_candidate") || (o == txt "reject") then true else _) eqn:Hv;
    [injection H as ->|done]. subst outcome.
  rewrite !bool_decide_false in Hv by (intros [=]). rewrite bool_decide_true in Hv by done. cbn [orb] in Hv.
  apply N.leb_le in Hv. lia.
Qed.

Section step.
Context {C : Crates} {P : UuidParser} (minted : Minted.t) (command : IdrCommandEnvelopeV1.t) (now : N) (proofs : list VerifiedProductionProofV1.t).

(** What an arm does to the candidate and the decision. *)
Inductive model_step (p q : IdrRunProjectionV1.t) (r : option AuthoritativeRecordV1.t) : Prop :=
| model_same :
    IdrRunProjectionV1.human_model_candidate q = IdrRunProjectionV1.human_model_candidate p ->
    IdrRunProjectionV1.human_model_promotion q = IdrRunProjectionV1.human_model_promotion p -> model_step p q r
| model_proposed record c :
    r = Some record -> IdrRunProjectionV1.human_model_candidate q = Some c ->
    HumanModelCandidateProjectionV1.candidate_ref c = AuthoritativeRecordV1.record_ref record ->
    AuthoritativeRecordRefV1.candidate_kind (AuthoritativeRecordV1.record_ref record) = CandidateKindV1.HumanModelCandidate ->
    IdrRunProjectionV1.human_model_promotion q = IdrRunProjectionV1.human_model_promotion p -> model_step p q r
| model_decided c d :
    IdrRunProjectionV1.human_model_candidate p = Some c -> IdrRunProjectionV1.human_model_candidate q = Some c ->
    IdrRunProjectionV1.human_model_promotion q = Some d -> supports c d ->
    IdrRunProjectionV1.records p !! CandidateKindV1.HumanModelCandidate = Some (HumanModelPromotionProjectionV1.source_candidate_ref d) ->
    model_step p q r.

Lemma set_execution_state_model s p r : model_step p (set_execution_state s p) r.
Proof. by apply model_same. Qed.

Lemma ensure_model p rid pid q b r :
  ensure_current_execution_action p rid pid now = Ok (q, b) -> model_step p q r.
Proof. unfold ensure_current_execution_action. intros H. inv_arm; by apply model_same. Qed.

Lemma advance_model required next event p rid pid q r ev :
  advance_permit command now required next event p rid pid = Ok (q, r, ev) -> model_step p q r.
Proof.
  intros (e & _ & _ & _ & [(_ & _ & ->)|(_ & ->)])%advance_permit_Ok; apply set_execution_state_model.
Qed.

Lemma promotion_model decision source p q r ev :
  record_human_model_promotion minted command now proofs p decision source = Ok (q, r, ev) -> model_step p q r.
Proof.
  unfold record_human_model_promotion. intros H.
  apply bind_unit_Ok in H as [Hcur H]. apply reject_Ok in H as [Hk H].
  apply bind_Ok in H as (c & Hc%ok_or_Ok & H). apply option_filter_Some in Hc as [Hc Href%bool_decide_eq_true_1].
  apply bind_Ok in H as (outcome & Ho & H). apply bind_unit_Ok in H as [_ H].
  apply bind_Ok in H as (rec & _ & [= <- _ _]).
  apply negb_false_iff, bool_decide_eq_true_1 in Hk. unfold require_exact_current_record_at in Hcur.
  apply ok_if_Ok in Hcur. rewrite !andb_true_iff in Hcur. destruct Hcur as [[[[Hcur%bool_decide_eq_true_1 _] _] _] _].
  eapply model_decided; [done|done|done| |].
  - intros Hprov. cbn in Hprov. by eapply validated_promotion.
  - cbn. by rewrite <- Hk.
Qed.

Lemma propose_model candidate p q r ev :
  CandidateSubmissionV1.candidate_kind candidate = CandidateKindV1.HumanModelCandidate ->
  propose_human_model_candidate minted command now proofs p candidate = Ok (q, r, ev) -> model_step p q r.
Proof.
  unfold propose_human_model_candidate. intros Hk H. inv_arm.
  match goal with E : issue_next _ _ _ _ _ _ _ = Ok _ |- _ => apply (issue_next_issued _ _ _ _ _ _ _ _ Hk) in E as [Hkind] end.
  by eapply model_proposed.
Qed.

Lemma apply_command_model p q r ev :
  Envelope.validate command = Ok tt -> apply_command minted command now proofs p = Ok (q, r, ev) -> model_step p q r.
Proof.
  unfold apply_command. intros Hv H. destruct (IdrCommandEnvelopeV1.command command) eqn:Hc.
  all: try (by apply advance_model in H).
  all: try (by apply promotion_model in H).
  17: { eapply propose_model; [|exact H]. pose proof (validated_kind command candidate Hv) as Hk.
    rewrite Hc in Hk. by injection (Hk eq_refl). }
  - unfold start_run in H. inv_arm. by apply model_same.
  - unfold record_context in H. inv_arm. by apply model_same.
  - unfold record_intent in H. inv_arm; by apply model_same.
  - unfold record_decision in H. inv_arm. by apply model_same.
  - unfold record_turn in H. inv_arm. by apply model_same.
  - unfold record_response in H. inv_arm. by apply model_same.
  - unfold consume_response_send in H. inv_arm. by apply model_same.
  - unfold record_action, revoke_unless_terminal in H. inv_arm. repeat case_match; by apply model_same.
  - unfold admit_action in H. inv_arm. by apply model_same.
  - unfold reserve_execution in H. inv_arm. by apply model_same.
  - unfold recover_permit in H. inv_arm; by apply model_same.
  - unfold commit_execution_receipt in H. inv_arm. by apply model_same.
  - unfold reconcile_execution in H. inv_arm. by apply model_same.
  - unfold expire_execution_lease in H. inv_arm; by apply model_same.
  - unfold invalidate_record in H. inv_arm. repeat case_match; by apply model_same.
  - unfold record_outcome in H. inv_arm. by apply model_same.
  - unfold promote_human_model_assertion in H. inv_arm. by apply model_same.
  - unfold correct_human_model_assertion in H. inv_arm. by apply model_same.
  - unfold cancel_run in H. inv_arm. by apply model_same.
Qed.
End step.

(** ** Transitions *)

Section transitions.
Context {C : Crates} {P : UuidParser} (minted : Minted.t) (command : IdrCommandEnvelopeV1.t) (now : N) (proofs : list VerifiedProductionProofV1.t).

(** A new candidate is the next revision of the current one. *)
Lemma candidate_revision p q r event current :
  Envelope.validate command = Ok tt -> IdrRunProjectionV1.environment_ref p = IdrCommandEnvelopeV1.environment_ref command ->
  apply_command minted command now proofs p = Ok (q, Some r, event) ->
  AuthoritativeRecordRefV1.candidate_kind (AuthoritativeRecordV1.record_ref r) = CandidateKindV1.HumanModelCandidate ->
  IdrRunProjectionV1.records p !! CandidateKindV1.HumanModelCandidate = Some current ->
  AuthoritativeRecordRefV1.revision (AuthoritativeRecordV1.record_ref r) = AuthoritativeRecordRefV1.revision current + 1.
Proof.
  intros Hv He H Hk Hcur. destruct (is_correction (IdrCommandEnvelopeV1.command command)) eqn:Hc.
  - exfalso. unfold apply_command in H. destruct (IdrCommandEnvelopeV1.command command) eqn:Hcmd; try discriminate Hc.
    unfold correct_human_model_assertion in H. inv_arm.
    pose proof (validated_kind command correction Hv) as Hvk. rewrite Hcmd in Hvk. injection (Hvk eq_refl) as Hvk'.
    match goal with E : issue_record _ _ _ _ _ _ _ = Ok _ |- _ =>
      apply issue_record_Ok in E as (_ & _ & _ & cd & rd & _ & ->) end. cbn in Hk. congruence.
  - destruct (apply_command_issues _ _ _ _ _ _ _ _ Hv He Hc H) as (kind & _ & [Hkind _ Hn _ _ _ _]).
    rewrite Hk in Hkind. subst kind. unfold next_revision in Hn. rewrite Hcur in Hn.
    apply ok_or_Ok, checked_succ_Some in Hn as [_ ->]. done.
Qed.

Lemma accepted_promotion p t :
  promotion_ok p -> evaluate_authoritative_transition_v1 minted command now proofs p = Ok t ->
  promotion_ok (IdrTransitionV1.projection t).
Proof.
  intros [Hs Hcur] (q & event & Ha)%evaluate_Ok.
  pose proof (fr_records _ _ (accepted_frame _ _ _ _ _ _ _ _ Ha)) as Hrec. cbn in Hrec. destruct Ha.
  pose proof (apply_command_model _ _ _ _ _ _ _ _ ac_valid ac_arm) as Hm.
  rewrite ac_transition. cbn [IdrTransitionV1.projection].
  set (record := IdrTransitionV1.authoritative_record t) in *.
  assert (forall old, IdrRunProjectionV1.records p !! CandidateKindV1.HumanModelCandidate = Some old ->
    exists new, IdrRunProjectionV1.records (store_record record q) !! CandidateKindV1.HumanModelCandidate = Some new /\
      AuthoritativeRecordRefV1.revision old <= AuthoritativeRecordRefV1.revision new /\
      (forall r, record = Some r -> AuthoritativeRecordRefV1.candidate_kind (AuthoritativeRecordV1.record_ref r) = CandidateKindV1.HumanModelCandidate ->
       AuthoritativeRecordRefV1.revision old < AuthoritativeRecordRefV1.revision (AuthoritativeRecordV1.record_ref r))) as Hgrow.
  { intros old Hold. destruct record as [r|]; cbn; [|rewrite Hrec; by exists old].
    destruct (decide (AuthoritativeRecordRefV1.candidate_kind (AuthoritativeRecordV1.record_ref r) = CandidateKindV1.HumanModelCandidate)) as [Hk|Hk].
    - pose proof (candidate_revision (advanced p) _ _ _ _ ac_valid ac_environment ac_arm Hk Hold) as Hr.
      exists (AuthoritativeRecordV1.record_ref r). rewrite Hk, lookup_insert_eq. split; [done|]. split; [lia|]. intros ? [= <-] _. lia.
    - exists old. rewrite lookup_insert_ne, Hrec by done. split; [done|]. split; [done|]. intros ? [= <-]. done. }
  assert (IdrRunProjectionV1.human_model_candidate (store_record record q) = IdrRunProjectionV1.human_model_candidate q /\
    IdrRunProjectionV1.human_model_promotion (store_record record q) = IdrRunProjectionV1.human_model_promotion q) as [Hc1 Hc2]
    by (by destruct record).
  split; rewrite Hc2; [rewrite Hc1|].
  - intros c d Hc Hd Hsrc. destruct Hm as [H1 H2|r c' Hr H1 Href Hk H2|c' d' _ H1 H2 Hsup _].
    + rewrite H1 in Hc. rewrite H2 in Hd. by apply Hs.
    + exfalso. rewrite H2 in Hd. cbn in Hd. destruct (Hcur _ Hd) as (old & Hold & Hle).
      destruct (Hgrow _ Hold) as (new & _ & _ & Hlt). specialize (Hlt _ Hr Hk).
      simplify_eq. rewrite Href in Hsrc. rewrite Hsrc in Hlt. lia.
    + by simplify_eq.
  - intros d Hd. destruct Hm as [_ H2|r c' _ _ _ _ H2|c' d' _ _ H2 _ H3].
    + rewrite H2 in Hd. destruct (Hcur _ Hd) as (old & Hold & Hle).
      destruct (Hgrow _ Hold) as (new & Hnew & Hle' & _). exists new. split; [done|]. lia.
    + rewrite H2 in Hd. destruct (Hcur _ Hd) as (old & Hold & Hle).
      destruct (Hgrow _ Hold) as (new & Hnew & Hle' & _). exists new. split; [done|]. lia.
    + simplify_eq. destruct (Hgrow _ H3) as (new & Hnew & Hle' & _). by exists new.
Qed.

Lemma withdraw_promotion p r : promotion_ok p -> promotion_ok (withdraw p r).
Proof.
  intros [Hs Hc]. pose proof (fr_records _ _ (withdraw_frame r p)) as Hrec.
  assert ((forall c, IdrRunProjectionV1.human_model_candidate (withdraw p r) = Some c -> IdrRunProjectionV1.human_model_candidate p = Some c) /\
          (forall d, IdrRunProjectionV1.human_model_promotion (withdraw p r) = Some d -> IdrRunProjectionV1.human_model_promotion p = Some d))
    as [H1 H2].
  { unfold withdraw, withdraw_execution, withdraw_bindings, clear_if.
    repeat (case_match; cbn); split; first [done | by intros x [? _]%option_filter_Some]. }
  split; [auto|]. intros d Hd. rewrite Hrec. auto.
Qed.

Lemma chosen_promotion closure bound p t :
  promotion_ok p -> choose_transition closure minted bound command now proofs p = Ok t ->
  promotion_ok (IdrTransitionV1.projection t).
Proof.
  intros Hp (t0 & Ht & Hc)%choose_transition_Ok.
  assert (promotion_ok (IdrTransitionV1.projection t0)) as H0.
  { destruct Ht as [Ht|[_ (a & _ & Ht)%failure_Ok]]; [by eapply accepted_promotion|].
    cbn zeta in Ht. rewrite Ht. by apply (promotion_ok_same p). }
  destruct Hc as [->|(rs & b & ->)]; [done|].
  apply closure_keeps; [by intros; apply withdraw_promotion|by intros s q ?; apply (promotion_ok_same q)|done].
Qed.
End transitions.

(** ** Runs *)

Section runs.
Context {C : Crates} {P : UuidParser} (security : PostgresSecurityContextV1.t).

Lemma step_promotion before after :
  authority_step security before after -> (forall r p, before.1 !! r = Some p -> promotion_ok p) ->
  forall r p, after.1 !! r = Some p -> promotion_ok p.
Proof.
  intros [? ? ? ? ? ? command ? ? ? t H] Hok. apply handle_Ok in H as (vs & p0 & []). subst.
  assert (promotion_ok p0).
  { destruct (load_projection_Ok _ _ _ _ tr_projection) as [Hl|[_ ->]]; [by eapply Hok|by split]. }
  intros r p. cbn. rewrite lookup_insert_Some. intros [[_ <-]|[_ Hl]]; [|by eapply Hok]. by eapply chosen_promotion.
Qed.

Lemma reachable_promotion tb run p :
  authority_reachable security (∅, []) tb -> tb.1 !! run = Some p -> promotion_ok p.
Proof.
  intros Hr. revert run p. remember (∅, [] : list consumption) as start eqn:Hs.
  assert (forall r p, start.1 !! r = Some p -> promotion_ok p) as Hstart
    by (subst; intros r p; cbn; by rewrite lookup_empty).
  clear Hs. induction Hr as [tb|tb1 tb2 tb3 Hstep _ IH]; [exact Hstart|].
  apply IH. by apply (step_promotion _ _ Hstep).
Qed.

(** C20. An assertion enters the human model only from the promotion decision and
    the candidate the run holds: it is the candidate's payload with the lifecycle
    of the decision, and a provisional one rests on at least two distinct pieces
    of evidence, under every sequence of accepted commands. *)
Theorem promoted_assertion_is_supported minted command now proofs tb run p t assertion decision_ref :
  authority_reachable security (∅, []) tb -> tb.1 !! run = Some p ->
  IdrCommandEnvelopeV1.command command = IdrCommandV1.PromoteHumanModelAssertion assertion decision_ref ->
  evaluate_authoritative_transition_v1 minted command now proofs p = Ok t ->
  exists c d r fields impact lifecycle,
    IdrRunProjectionV1.human_model_candidate p = Some c /\ IdrRunProjectionV1.human_model_promotion p = Some d /\
    HumanModelPromotionProjectionV1.decision_ref d = decision_ref /\
    HumanModelCandidateProjectionV1.materialized_payload c = Obj fields /\ supports c d /\
    lifecycle_state_of (HumanModelPromotionProjectionV1.outcome d) = Ok lifecycle /\ impact <= 10000 /\
    IdrTransitionV1.authoritative_record t = Some r /\
    AuthoritativeRecordRefV1.candidate_kind (AuthoritativeRecordV1.record_ref r) = CandidateKindV1.HumanModelAssertion /\
    AuthoritativeRecordV1.payload r = materialize d lifecycle impact fields.
Proof.
  intros Hr Hl Hc (q & event & [])%evaluate_Ok. destruct (reachable_promotion _ _ _ Hr Hl) as [Hs _].
  unfold apply_command in ac_arm. rewrite Hc in ac_arm. unfold promote_human_model_assertion in ac_arm.
  apply bind_unit_Ok in ac_arm as [_ H]. apply reject_Ok in H as [_ H].
  apply bind_Ok in H as (d & Hd%ok_or_Ok & H). apply option_filter_Some in Hd as [Hd [Hdr%bool_decide_eq_true_1 _]%andb_true_iff].
  cbv zeta in H. apply bind_Ok in H as (c & Hcand%ok_or_Ok & H).
  apply option_filter_Some in Hcand as [Hcand Hsrc%bool_decide_eq_true_1].
  apply bind_unit_Ok in H as [_ H]. apply bind_Ok in H as (lifecycle & Hlc & H).
  apply bind_Ok in H as (impact & Himp%ok_or_Ok & H). apply option_filter_Some in Himp as [_ Himp%N.leb_le].
  apply bind_Ok in H as (fields & Hf%ok_or_Ok & H). apply bind_Ok in H as (until & _ & H).
  apply bind_Ok in H as (revision & _ & H). apply bind_Ok in H as (r & Hi & [= _ Hrec _]).
  apply issue_internal_Ok in Hi as (_ & _ & s & tn & cd & rd & _ & _ & ->).
  exists c, d. eexists _, fields, impact, lifecycle. split_and!; try done; [|by apply Hs].
  destruct (HumanModelCandidateProjectionV1.materialized_payload c); try discriminate Hf. by injection Hf as ->.
Qed.
End runs.
