(* ===== verification/LedgerData.v ===== *)
(** * LedgerData: the rows of the authority database ([idr-runtime/src/postgres_authority.rs])

    The tables of [src/crates/idr-store/migrations] the orchestrator writes and
    reads back, one record per row, and the serialized form of a run's projection
    the digests are computed over.

    A column that holds the name of an enumeration is that enumeration, and the
    JSON column [projection] is the projection it was written from; every other
    JSON column is a JSON tree. *)

From stdpp Require Import base list gmap fin_sets countable sorting strings.
From Stdlib Require Import NArith ZArith Lia.
From S2P Require Import Prelude Text Json Crates CanonicalJson Common Production ChainData ChainCommand ChainPayload ChainTransition ChainEvaluate ChainRepository Authority.

(** ** The serialized projection *)

(** [#[derive(Ord)]] of a record reference. *)
#[export] Instance record_ref_ord : Ord AuthoritativeRecordRefV1.t := fun a b =>
  let key r := (AuthoritativeRecordRefV1.record_id r, (AuthoritativeRecordRefV1.revision r, (AuthoritativeRecordRefV1.candidate_kind r,
    (AuthoritativeRecordRefV1.trust_domain r, (AuthoritativeRecordRefV1.environment_ref r, (AuthoritativeRecordRefV1.valid_from r,
    (AuthoritativeRecordRefV1.valid_until r, AuthoritativeRecordRefV1.record_digest r))))))) in
  cmp (key a) (key b).

Section projection_json.
Context {C : Crates}.

#[export] Instance response_binding_json : ToJson ResponseBindingProjectionV1.t := fun b =>
  Obj [(txt "response_ref", Json.to_json (ResponseBindingProjectionV1.response_ref b));
    (txt "rendered_content_digest", Json.to_json (ResponseBindingProjectionV1.rendered_content_digest b));
    (txt "channel_ref", Json.to_json (ResponseBindingProjectionV1.channel_ref b));
    (txt "audience_ref", Json.to_json (ResponseBindingProjectionV1.audience_ref b))].

#[export] Instance promotion_json : ToJson HumanModelPromotionProjectionV1.t := fun p =>
  Obj [(txt "decision_ref", Json.to_json (HumanModelPromotionProjectionV1.decision_ref p));
    (txt "source_candidate_ref", Json.to_json (HumanModelPromotionProjectionV1.source_candidate_ref p));
    (txt "outcome_ref", Json.to_json (HumanModelPromotionProjectionV1.outcome_ref p));
    (txt "outcome", Json.to_json (HumanModelPromotionProjectionV1.outcome p))].

#[export] Instance model_candidate_json : ToJson HumanModelCandidateProjectionV1.t := fun c =>
  Obj [(txt "candidate_ref", Json.to_json (HumanModelCandidateProjectionV1.candidate_ref c));
    (txt "outcome_ref", Json.to_json (HumanModelCandidateProjectionV1.outcome_ref c));
    (txt "materialized_payload", HumanModelCandidateProjectionV1.materialized_payload c)].

#[export] Instance admission_json : ToJson ActionAdmissionProjectionV1.t := fun a =>
  Obj [(txt "admission_ref", Json.to_json (ActionAdmissionProjectionV1.admission_ref a));
    (txt "action_ref", Json.to_json (ActionAdmissionProjectionV1.action_ref a));
    (txt "provider_ref", Json.to_json (ActionAdmissionProjectionV1.provider_ref a));
    (txt "owner_ref", Json.to_json (ActionAdmissionProjectionV1.owner_ref a));
    (txt "operation_ref", Json.to_json (ActionAdmissionProjectionV1.operation_ref a));
    (txt "parameter_digest", Json.to_json (ActionAdmissionProjectionV1.parameter_digest a));
    (txt "request_digest", Json.to_json (ActionAdmissionProjectionV1.request_digest a));
    (txt "idempotency_key", Json.to_json (ActionAdmissionProjectionV1.idempotency_key a));
    (txt "proof_bindings", proof_bindings_json (ActionAdmissionProjectionV1.proof_bindings a));
    (txt "exact_authorization_proof_id", Json.to_json (ActionAdmissionProjectionV1.exact_authorization_proof_id a));
    (txt "authorization_valid_until", Json.to_json (ActionAdmissionProjectionV1.authorization_valid_until a));
    (txt "valid_until", Json.to_json (ActionAdmissionProjectionV1.valid_until a))].

#[export] Instance decision_binding_json : ToJson DecisionBindingProjectionV1.t := fun b =>
  Obj [(txt "decision_ref", Json.to_json (DecisionBindingProjectionV1.decision_ref b));
    (txt "selected_option_ref", Json.to_json (DecisionBindingProjectionV1.selected_option_ref b));
    (txt "operation_ref", Json.to_json (DecisionBindingProjectionV1.operation_ref b));
    (txt "parameter_digest", Json.to_json (DecisionBindingProjectionV1.parameter_digest b))].

#[export] Instance action_binding_json : ToJson ActionBindingProjectionV1.t := fun b =>
  Obj [(txt "action_ref", Json.to_json (ActionBindingProjectionV1.action_ref b));
    (txt "selected_option_ref", Json.to_json (ActionBindingProjectionV1.selected_option_ref b));
    (txt "operation_ref", Json.to_json (ActionBindingProjectionV1.operation_ref b));
    (txt "parameter_digest", Json.to_json (ActionBindingProjectionV1.parameter_digest b));
    (txt "request_digest", Json.to_json (ActionBindingProjectionV1.request_digest b))].

#[export] Instance execution_json : ToJson ExecutionProjectionV1.t := fun e =>
  Obj [(txt "reservation_id", Json.to_json (ExecutionProjectionV1.reservation_id e));
    (txt "action_admission_ref", Json.to_json (ExecutionProjectionV1.action_admission_ref e));
    (txt "action_ref", Json.to_json (ExecutionProjectionV1.action_ref e));
    (txt "provider_ref", Json.to_json (ExecutionProjectionV1.provider_ref e));
    (txt "owner_ref", Json.to_json (ExecutionProjectionV1.owner_ref e));
    (txt "operation_ref", Json.to_json (ExecutionProjectionV1.operation_ref e));
    (txt "parameter_digest", Json.to_json (ExecutionProjectionV1.parameter_digest e));
    (txt "request_digest", Json.to_json (ExecutionProjectionV1.request_digest e));
    (txt "idempotency_key", Json.to_json (ExecutionProjectionV1.idempotency_key e));
    (txt "attempt", Json.to_json (ExecutionProjectionV1.attempt e));
    (txt "permit_id", Json.to_json (ExecutionProjectionV1.permit_id e));
    (txt "exact_authorization_proof_id", Json.to_json (ExecutionProjectionV1.exact_authorization_proof_id e));
    (txt "action_valid_until", Json.to_json (ExecutionProjectionV1.action_valid_until e));
    (txt "admission_valid_until", Json.to_json (ExecutionProjectionV1.admission_valid_until e));
    (txt "authorization_valid_until", Json.to_json (ExecutionProjectionV1.authorization_valid_until e));
    (txt "permit_valid_until", Json.to_json (ExecutionProjectionV1.permit_valid_until e));
    (txt "lease_until", Json.to_json (ExecutionProjectionV1.lease_until e));
    (txt "dispatch_nonce", Json.to_json (ExecutionProjectionV1.dispatch_nonce e));
    (txt "state", Json.to_json (ExecutionProjectionV1.state e))].

(** [BTreeMap<CandidateKindV1, AuthoritativeRecordRefV1>] *)
Definition records_json (records : gmap CandidateKindV1.t AuthoritativeRecordRefV1.t) : Value :=
  Obj (map (fun entry : CandidateKindV1.t * AuthoritativeRecordRefV1.t =>
    (json_key (Json.to_json entry.1), Json.to_json entry.2)) (map_to_list records)).

#[export] Instance run_projection_json : ToJson IdrRunProjectionV1.t := fun p =>
  Obj [(txt "trust_domain", Json.to_json (IdrRunProjectionV1.trust_domain p));
    (txt "environment_ref", Json.to_json (IdrRunProjectionV1.environment_ref p));
    (txt "run_id", Json.to_json (IdrRunProjectionV1.run_id p));
    (txt "tenant_ref", Json.to_json (IdrRunProjectionV1.tenant_ref p));
    (txt "subject_ref", Json.to_json (IdrRunProjectionV1.subject_ref p));
    (txt "turn_id", Json.to_json (IdrRunProjectionV1.turn_id p));
    (txt "aggregate_version", Json.to_json (IdrRunProjectionV1.aggregate_version p));
    (txt "state", Json.to_json (IdrRunProjectionV1.state p));
    (txt "records", records_json (IdrRunProjectionV1.records p));
    (txt "invalidated_records", Json.to_json (IdrRunProjectionV1.invalidated_records p));
    (txt "response_send_nonces", Json.to_json (IdrRunProjectionV1.response_send_nonces p));
    (txt "response_binding", Json.to_json (IdrRunProjectionV1.response_binding p));
    (txt "outcome_binding", Json.to_json (IdrRunProjectionV1.outcome_binding p));
    (txt "human_model_candidate", Json.to_json (IdrRunProjectionV1.human_model_candidate p));
    (txt "human_model_promotion", Json.to_json (IdrRunProjectionV1.human_model_promotion p));
    (txt "decision_binding", Json.to_json (IdrRunProjectionV1.decision_binding p));
    (txt "action_binding", Json.to_json (IdrRunProjectionV1.action_binding p));
    (txt "action_admission", Json.to_json (IdrRunProjectionV1.action_admission p));
    (txt "execution", Json.to_json (IdrRunProjectionV1.execution p));
    (txt "last_event_sequence", Json.to_json (IdrRunProjectionV1.last_event_sequence p))].

Definition projection_digest_v1 (p : IdrRunProjectionV1.t) : Chain text :=
  map_err IdrRuntimeErrorV1.Protocol (canonical_digest_v1 "idr-run-projection-v1" (Json.to_json p)).
End projection_json.

(** [i64_from_u64] *)
Definition i64_max : N := 9223372036854775807.
Definition i64_from_u64 (value : N) : Chain Z :=
  if value <=? i64_max then Ok (Z.of_N value) else Err IdrRuntimeErrorV1.SerializationFailed.

(** ** Rows *)

(** [idr_runs] *)
Module RunRow.
Record t := mk {
  trust_domain : TrustDomainV1.t;
  environment_ref : ReferenceV1.t;
  projection : IdrRunProjectionV1.t;
  projection_digest : text;
}.
End RunRow.

(** [idr_proof_envelopes] *)
Module EnvelopeRow.
Record t := mk {
  proof_id : Uuid;
  trust_domain : TrustDomainV1.t;
  environment_ref : ReferenceV1.t;
  proof_kind : ProductionProofKindV1.t;
  issuer_ref : ReferenceV1.t;
  key_id : ReferenceV1.t;
  tenant_ref : ReferenceV1.t;
  subject_ref : ReferenceV1.t;
  subject_digest : text;
  nonce : text;
  trust_root_version : N;
  trust_root_digest : text;
  envelope : ProductionProofEnvelopeV1.t;
  verified_at : N;
}.
End EnvelopeRow.

(** [idr_contract_records] *)
Module ContractRow.
Record t := mk {
  record_id : Uuid;
  revision : N;
  candidate_kind : CandidateKindV1.t;
  trust_domain : TrustDomainV1.t;
  environment_ref : ReferenceV1.t;
  run_id : Uuid;
  tenant_ref : ReferenceV1.t;
  subject_ref : ReferenceV1.t;
  record_digest : text;
  record : Value;
  issued_by_command_id : Uuid;
  issued_at : N;
  valid_from : N;
  valid_until : N;
}.
End ContractRow.

(** [idr_contract_current]: the current record of a kind. *)
Module CurrentRow.
Record t := mk {
  trust_domain : TrustDomainV1.t;
  environment_ref : ReferenceV1.t;
  record_id : Uuid;
  revision : N;
  record_digest : text;
}.
End CurrentRow.

(** A stored record is named by its identifier and revision. *)
Definition Node : Type := Uuid * N.

(** [idr_contract_dependencies] *)
Module DependencyRow.
Record t := mk {
  dependent : Node;
  dependency : Node;
  dependency_digest : text;
}.
End DependencyRow.

(** [idr_operation_idempotency_fences] *)
Module FenceRow.
Record t := mk {
  fence_id : Uuid;
  trust_domain : TrustDomainV1.t;
  environment_ref : ReferenceV1.t;
  tenant_ref : ReferenceV1.t;
  operation_ref : ReferenceV1.t;
  idempotency_key : text;
  first_run_id : Uuid;
  first_action : Node;
  first_action_digest : text;
  fence_digest : text;
  created_at_micros : Z;
}.
End FenceRow.

(** [idr_execution_reservations]; [fence_id] is [reservation_id]. *)
Module ReservationRow.
Record t := mk {
  reservation_id : Uuid;
  fence_id : Uuid;
  run_id : Uuid;
  tenant_ref : ReferenceV1.t;
  action : Node;
  action_admission : Node;
  operation_ref : ReferenceV1.t;
  idempotency_key : text;
  provider_ref : ReferenceV1.t;
  owner_ref : ReferenceV1.t;
  state : ExecutionAggregateStateV1.t;
  aggregate_version : N;
  action_digest : text;
  parameter_digest : text;
  request_digest : text;
  exact_authorization_proof_id : Uuid;
  action_valid_until : N;
  admission_valid_until : N;
  authorization_valid_until : N;
  created_at_micros : Z;
  updated_at_micros : Z;
}.
Definition update (state : ExecutionAggregateStateV1.t) (aggregate_version : N) (updated_at_micros : Z) (r : t) : t :=
  mk (reservation_id r) (fence_id r) (run_id r) (tenant_ref r) (action r) (action_admission r) (operation_ref r)
    (idempotency_key r) (provider_ref r) (owner_ref r) state aggregate_version (action_digest r)
    (parameter_digest r) (request_digest r) (exact_authorization_proof_id r) (action_valid_until r)
    (admission_valid_until r) (authorization_valid_until r) (created_at_micros r) updated_at_micros.
End ReservationRow.

(** [idr_execution_attempts] *)
Module AttemptRow.
Record t := mk {
  reservation_id : Uuid;
  attempt : N;
  permit_id : Uuid;
  dispatch_nonce : text;
  lease_until : N;
  permit_valid_until : N;
  state : ExecutionAggregateStateV1.t;
  provider_ref : ReferenceV1.t;
  owner_ref : ReferenceV1.t;
  started_at_micros : option Z;
  completed_at_micros : option Z;
}.
Definition update (state : ExecutionAggregateStateV1.t) (started_at completed_at : option Z) (r : t) : t :=
  mk (reservation_id r) (attempt r) (permit_id r) (dispatch_nonce r) (lease_until r) (permit_valid_until r) state
    (provider_ref r) (owner_ref r)
    (match started_at_micros r with Some m => Some m | None => started_at end)
    (match completed_at_micros r with Some m => Some m | None => completed_at end).
End AttemptRow.

(** [idr_audit_events] with the number of its event in [idr_run_events]; both rows and
    that of [idr_outbox_events] hold the same event. *)
Module AuditRow.
Record t := mk {
  sequence : Z;
  global_sequence : N;
  idr_attestation_id : Uuid;
  event_id : Uuid;
  trust_domain : TrustDomainV1.t;
  environment_ref : ReferenceV1.t;
  tenant_ref : ReferenceV1.t;
  run_id : Uuid;
  aggregate_version : N;
  actor_ref : ReferenceV1.t;
  caller_ref : ReferenceV1.t;
  correlation_ref : ReferenceV1.t;
  causation_ref : ReferenceV1.t;
  contract_refs : Value;
  proof_refs : Value;
  policy_revision_ref : ReferenceV1.t;
  previous_hash : text;
  event_hash : text;
  payload : Value;
}.
End AuditRow.

(** [idr_step_snapshots] *)
Module StepRow.
Record t := mk {
  run_id : Uuid;
  step_id : Uuid;
  step_kind : text;
  step_state : string;
  aggregate_version : N;
  snapshot : IdrRunProjectionV1.t;
}.
End StepRow.

(** [IdrCommandReceiptV1] *)
Module IdrCommandReceiptV1.
Record t := mk {
  command_id : Uuid;
  attestation_id : Uuid;
  trust_domain : TrustDomainV1.t;
  environment_ref : ReferenceV1.t;
  run_id : Uuid;
  aggregate_version : N;
  event_sequence : N;
  state : IdrRunStateV1.t;
  record_ref : option AuthoritativeRecordRefV1.t;
  idempotent_replay : bool;
}.
#[global] Instance to_json {C : Crates} : ToJson t := fun r =>
  Obj [(txt "command_id", Json.to_json (command_id r)); (txt "attestation_id", Json.to_json (attestation_id r));
    (txt "trust_domain", Json.to_json (trust_domain r)); (txt "environment_ref", Json.to_json (environment_ref r));
    (txt "run_id", Json.to_json (run_id r)); (txt "aggregate_version", Json.to_json (aggregate_version r));
    (txt "event_sequence", Json.to_json (event_sequence r)); (txt "state", Json.to_json (state r));
    (txt "record_ref", Json.to_json (record_ref r)); (txt "idempotent_replay", Json.to_json (idempotent_replay r))].
(** [receipt.idempotent_replay = true] *)
Definition replayed (r : t) : t :=
  mk (command_id r) (attestation_id r) (trust_domain r) (environment_ref r) (run_id r) (aggregate_version r)
    (event_sequence r) (state r) (record_ref r) true.
End IdrCommandReceiptV1.

(** [idr_command_receipts] *)
Module ReceiptRow.
Record t := mk {
  trust_domain : TrustDomainV1.t;
  environment_ref : ReferenceV1.t;
  tenant_ref : ReferenceV1.t;
  run_id : Uuid;
  actor_ref : ReferenceV1.t;
  caller_ref : ReferenceV1.t;
  command_digest : text;
  receipt : IdrCommandReceiptV1.t;
  receipt_mac : text;
  idr_attestation_id : Uuid;
}.
End ReceiptRow.

(** *** The rows of one kind of record *)

(** [idr_response_send_consumptions] *)
Module ResponseSendRow.
Record t := mk {
  tenant_ref : ReferenceV1.t;
  response : Node;
  send_nonce : text;
  command_id : Uuid;
  channel_ref : ReferenceV1.t;
  audience_ref : ReferenceV1.t;
  rendered_content_digest : text;
}.
End ResponseSendRow.

(** [idr_execution_receipts] *)
Module ExecutionReceiptRow.
Record t := mk {
  receipt_record : Node;
  reservation_id : Uuid;
  attempt : N;
  permit_id : Uuid;
  provider_ref : ReferenceV1.t;
  dispatch_nonce : text;
  receipt : Value;
}.
End ExecutionReceiptRow.

(** [idr_outcome_records] *)
Module OutcomeRow.
Record t := mk {
  outcome_record : Node;
  run_id : Uuid;
  execution_receipt : Node;
  observation_proof_id : Uuid;
  outcome : Value;
}.
End OutcomeRow.

(** [idr_human_model_candidates] *)
Module ModelCandidateRow.
Record t := mk {
  candidate_record : Node;
  run_id : Uuid;
  tenant_ref : ReferenceV1.t;
  subject_ref : ReferenceV1.t;
  candidate_digest : text;
  candidate : Value;
}.
End ModelCandidateRow.

(** [idr_human_model_promotion_decisions] *)
Module PromotionRow.
Record t := mk {
  decision_record : Node;
  source_candidate : Node;
  promotion_proof_id : Uuid;
  candidate_digest : text;
  outcome : text;
  decision : Value;
}.
End PromotionRow.

(** [idr_human_model_assertions]: promoted by a decision, or the correction of an
    assertion under a proof. *)
Module AssertionRow.
Inductive origin :=
| Promoted (decision : Node)
| Corrected (predecessor : Node) (correction_proof_id : Uuid).
Record t := mk {
  assertion_record : Node;
  from : origin;
  tenant_ref : ReferenceV1.t;
  subject_ref : ReferenceV1.t;
  lifecycle_state : text;
  expires_at : option N;
  assertion : Value;
}.
End AssertionRow.

(** The six tables [persist_specialized_projection] writes beside the execution *)
Module Specialized.
Record t := mk {
  sends : list ResponseSendRow.t;
  receipts : list ExecutionReceiptRow.t;
  outcomes : list OutcomeRow.t;
  candidates : list ModelCandidateRow.t;
  promotions : list PromotionRow.t;
  assertions : list AssertionRow.t;
}.
Definition empty : t := mk [] [] [] [] [] [].
Definition eta (s : t) : t := mk (sends s) (receipts s) (outcomes s) (candidates s) (promotions s) (assertions s).
Definition with_sends : list ResponseSendRow.t -> t -> t := ltac:(setter eta sends).
Definition with_receipts : list ExecutionReceiptRow.t -> t -> t := ltac:(setter eta receipts).
Definition with_outcomes : list OutcomeRow.t -> t -> t := ltac:(setter eta outcomes).
Definition with_candidates : list ModelCandidateRow.t -> t -> t := ltac:(setter eta candidates).
Definition with_promotions : list PromotionRow.t -> t -> t := ltac:(setter eta promotions).
Definition with_assertions : list AssertionRow.t -> t -> t := ltac:(setter eta assertions).
End Specialized.

(** How a row names a stored record *)
Definition node (r : AuthoritativeRecordRefV1.t) : Node := (AuthoritativeRecordRefV1.record_id r, AuthoritativeRecordRefV1.revision r).
Definition row_node (row : ContractRow.t) : Node := (ContractRow.record_id row, ContractRow.revision row).

(** ** The database *)

Module Database.
Record t := mk {
  runs : gmap Uuid RunRow.t;
  steps : list StepRow.t;
  records : list ContractRow.t;
  current : gmap (Uuid * CandidateKindV1.t) CurrentRow.t;
  dependencies : list DependencyRow.t;
  invalidations : gset Node;
  envelopes : list EnvelopeRow.t;
  consumptions : list consumption;
  fences : list FenceRow.t;
  reservations : gmap Uuid ReservationRow.t;
  attempts : list AttemptRow.t;
  events : list AuditRow.t;
  receipts : gmap Uuid ReceiptRow.t;
  checkpoints : list AuditCheckpointV1.t;
  attestations : list (Attestation.t * text);
  specialized : Specialized.t;
}.
Definition empty : t := mk ∅ [] [] ∅ [] ∅ [] [] [] ∅ [] [] ∅ [] [] Specialized.empty.

Definition eta (d : t) : t :=
  mk (runs d) (steps d) (records d) (current d) (dependencies d) (invalidations d) (envelopes d) (consumptions d)
    (fences d) (reservations d) (attempts d) (events d) (receipts d) (checkpoints d) (attestations d) (specialized d).
Definition with_runs : gmap Uuid RunRow.t -> t -> t := ltac:(setter eta runs).
Definition with_steps : list StepRow.t -> t -> t := ltac:(setter eta steps).
Definition with_records : list ContractRow.t -> t -> t := ltac:(setter eta records).
Definition with_current : gmap (Uuid * CandidateKindV1.t) CurrentRow.t -> t -> t := ltac:(setter eta current).
Definition with_dependencies : list DependencyRow.t -> t -> t := ltac:(setter eta dependencies).
Definition with_invalidations : gset Node -> t -> t := ltac:(setter eta invalidations).
Definition with_envelopes : list EnvelopeRow.t -> t -> t := ltac:(setter eta envelopes).
Definition with_consumptions : list consumption -> t -> t := ltac:(setter eta consumptions).
Definition with_fences : list FenceRow.t -> t -> t := ltac:(setter eta fences).
Definition with_reservations : gmap Uuid ReservationRow.t -> t -> t := ltac:(setter eta reservations).
Definition with_attempts : list AttemptRow.t -> t -> t := ltac:(setter eta attempts).
Definition with_events : list AuditRow.t -> t -> t := ltac:(setter eta events).
Definition with_receipts : gmap Uuid ReceiptRow.t -> t -> t := ltac:(setter eta receipts).
Definition with_checkpoints : list AuditCheckpointV1.t -> t -> t := ltac:(setter eta checkpoints).
Definition with_attestations : list (Attestation.t * text) -> t -> t := ltac:(setter eta attestations).
Definition with_specialized : Specialized.t -> t -> t := ltac:(setter eta specialized).
End Database.

(** What the database and the random generator provide to a transaction beside the
    identifiers the transition mints: the time of the rows in microseconds, the second in
    which the reservation is written, the transaction and
    the process, the identifiers of the rows and the numbers of the event. *)
Module Session.
Record t := mk {
  micros : Z;
  clock : N;
  txid : Z;
  backend_pid : Z;
  attestation_id : Uuid;
  attestation_nonce : Uuid;
  event_id : Uuid;
  global_sequence : N;
  audit_sequence : Z;
  checkpoint_id : Uuid;
}.
End Session.
