(* ===== verification/Copies.v ===== *)
(** * Copies: the rows of one kind of record ([idr-runtime/src/postgres_authority.rs])

    [persist_specialized_projection] copies some records into a table of their kind:
    the response that was sent, execution receipts, outcomes, and the human model's
    candidates, promotion decisions and assertions.  The constraints and triggers of
    these tables (migrations 0001, 0002, 0003) decide whether a row is taken; the view
    bridge of 0007 lets a unique violation here through.
    [query_effective_human_model_assertions_for_test] reads the assertions back.

    A foreign key to a row the same transaction wrote under the same key (the run) is
    left out; so is the length of a digest the program itself has computed. *)

From stdpp Require Import base list gmap fin_sets countable sorting strings.
From Stdlib Require Import NArith ZArith Lia.
From S2P Require Import Prelude Text Json Crates CanonicalJson Common Production ChainData ChainCommand ChainPayload ChainTransition ChainEvaluate ChainRepository Authority LedgerData.

(** ** Columns of a JSON value *)

(** [value #> '{field}'], where SQL does not tell a JSON null from an absent field *)
Definition path (field : string) (value : Value) : option Value :=
  match get (txt field) value with Some Null => None | found => found end.
Definition payload_of (record : Value) : option Value := path "payload" record.
Definition payload_field (field : string) (record : Value) : option Value := payload_of record ≫= path field.
Definition payload_text (field : string) (record : Value) : option text := payload_of record ≫= get_str field.
(** [(record #>> '{payload,field}')::integer]: the validators let only a JSON number in. *)
Definition payload_number (field : string) (record : Value) : option N := payload_field field record ≫= value_as_u64.

(** [jsonb_exists]: a key of an object, or a string of an array *)
Definition jsonb_exists (value : Value) (t : text) : bool :=
  match value with
  | Obj fields => existsb (fun field => field.1 == t) fields
  | Arr values => contains (Str t) values
  | Str s => s == t
  | _ => false
  end.

(** ** Arguments of the statements *)

(** [payload_string] *)
Definition payload_string (payload : Value) (field : string) : Chain text :=
  ok_or IdrRuntimeErrorV1.BindingMismatch (option_filter (fun value => negb (value == [])) (get_str field payload)).

(** [command_proof_id] *)
Definition command_proof_id (command : IdrCommandEnvelopeV1.t) (proof_kind : ProductionProofKindV1.t) : Chain Uuid :=
  ok_or IdrRuntimeErrorV1.MissingRequiredProof
    (ProductionProofClaimsV1.proof_id ∘ ProductionProofEnvelopeV1.claims
     <$> find_first (fun proof => ProductionProofClaimsV1.proof_kind (ProductionProofEnvelopeV1.claims proof) == proof_kind)
           (IdrCommandEnvelopeV1.proofs command)).

Definition i32_max : N := 2147483647.
Definition i32_from_u32 (value : N) : Chain N :=
  if value <=? i32_max then Ok value else Err IdrRuntimeErrorV1.SerializationFailed.

(** ** Inserting a row *)

(** The primary and unique keys, then the foreign keys *)
Definition insert_row {A} (clash : A -> A -> bool) (referenced : bool) (row : A) (rows : list A) : Chain (list A) :=
  reject existsb (clash row) rows with repository_failure "duplicate key value violates unique constraint";
  reject negb referenced with repository_failure "insert violates foreign key constraint";
  Ok (rows ++ [row]).
Definition same_key {A K} `{EqDecision K} (key : A -> K) (a b : A) : bool := key a == key b.

Definition digest_length : nat := 64.

Section tables.
Context {C : Crates}.
Context (records : list ContractRow.t) (envelopes : list EnvelopeRow.t).
Context (attempts : list AttemptRow.t) (reservations : gmap Uuid ReservationRow.t).

Definition stored_record (n : Node) : option ContractRow.t := find_first (fun row => row_node row == n) records.
Definition recorded (n : Node) : bool := is_some (stored_record n).
Definition proof_stored (id : Uuid) : bool := existsb (fun row => EnvelopeRow.proof_id row == id) envelopes.

(** *** Sending a response *)

Definition persist_response_send (command : IdrCommandEnvelopeV1.t) (s : Specialized.t) : Chain Specialized.t :=
  match IdrCommandEnvelopeV1.command command with
  | IdrCommandV1.ConsumeResponseSend response_ref rendered_bytes channel_ref audience_ref send_nonce =>
      _ ← i64_from_u64 (AuthoritativeRecordRefV1.revision response_ref);
      let row := ResponseSendRow.mk (IdrCommandEnvelopeV1.tenant_ref command) (node response_ref) send_nonce (IdrCommandEnvelopeV1.command_id command)
                   channel_ref audience_ref (encode_hex (sha256 rendered_bytes)) in
      reject negb (length send_nonce =? digest_length)%nat with repository_failure "send_nonce violates check constraint";
      sends ← insert_row (same_key (fun row => (ResponseSendRow.tenant_ref row, ResponseSendRow.send_nonce row)))
                (recorded (ResponseSendRow.response row)) row (Specialized.sends s);
      Ok (Specialized.with_sends sends s)
  | _ => Ok s
  end.

(** *** Execution receipts *)

Definition receipt_row (record : AuthoritativeRecordV1.t) (reservation_id permit_id : Uuid) (provider_ref : ReferenceV1.t) (dispatch_nonce : text)
    (attempt : N) : ExecutionReceiptRow.t :=
  ExecutionReceiptRow.mk (node (AuthoritativeRecordV1.record_ref record)) reservation_id attempt permit_id provider_ref dispatch_nonce
    (to_value (Json.to_json record)).

Definition attempt_of (row : ExecutionReceiptRow.t) : option AttemptRow.t :=
  find_first (fun attempt => (AttemptRow.reservation_id attempt == ExecutionReceiptRow.reservation_id row)
                             && (AttemptRow.attempt attempt =? ExecutionReceiptRow.attempt row)) attempts.

(** [idr_validate_execution_receipt_v2]: a comparison with a column that is null decides
    nothing. *)
Definition receipt_refused (row : ExecutionReceiptRow.t) : bool :=
  is_some_and (fun attempt =>
      negb (contains (AttemptRow.state attempt)
              [ExecutionAggregateStateV1.DispatchStarted; ExecutionAggregateStateV1.AwaitingProvider; ExecutionAggregateStateV1.ReconciliationRequired; ExecutionAggregateStateV1.Succeeded; ExecutionAggregateStateV1.Failed; ExecutionAggregateStateV1.Rejected;
               ExecutionAggregateStateV1.Compensated])
      || (AttemptRow.permit_id attempt != ExecutionReceiptRow.permit_id row)
      || (AttemptRow.provider_ref attempt != ExecutionReceiptRow.provider_ref row)
      || (AttemptRow.dispatch_nonce attempt != ExecutionReceiptRow.dispatch_nonce row)) (attempt_of row)
  || is_some_and (fun reservation =>
      is_some_and (fun request_digest => ReservationRow.request_digest reservation != request_digest)
        (payload_text "request_digest" (ExecutionReceiptRow.receipt row)))
      (reservations !! ExecutionReceiptRow.reservation_id row).

(** [PRIMARY KEY] and [UNIQUE (reservation_id, attempt)] *)
Definition receipts_clash (a b : ExecutionReceiptRow.t) : bool :=
  same_key ExecutionReceiptRow.receipt_record a b
  || same_key (fun row => (ExecutionReceiptRow.reservation_id row, ExecutionReceiptRow.attempt row)) a b.

Definition persist_receipt_row (row : ExecutionReceiptRow.t) (s : Specialized.t) : Chain Specialized.t :=
  reject receipt_refused row with repository_failure "Receipt does not match dispatched attempt and approved request";
  reject negb (length (ExecutionReceiptRow.dispatch_nonce row) =? digest_length)%nat
    with repository_failure "dispatch_nonce violates check constraint";
  receipts ← insert_row receipts_clash
    (recorded (ExecutionReceiptRow.receipt_record row) && is_some (attempt_of row)) row (Specialized.receipts s);
  Ok (Specialized.with_receipts receipts s).

(** *** Outcomes, candidates and promotion decisions *)

Definition persist_outcome_row (row : OutcomeRow.t) (s : Specialized.t) : Chain Specialized.t :=
  outcomes ← insert_row (same_key OutcomeRow.outcome_record)
    (recorded (OutcomeRow.outcome_record row) && proof_stored (OutcomeRow.observation_proof_id row)
     && existsb (fun receipt => ExecutionReceiptRow.receipt_record receipt == OutcomeRow.execution_receipt row)
          (Specialized.receipts s)) row (Specialized.outcomes s);
  Ok (Specialized.with_outcomes outcomes s).

Definition persist_candidate_row (row : ModelCandidateRow.t) (s : Specialized.t) : Chain Specialized.t :=
  reject negb (length (ModelCandidateRow.candidate_digest row) =? digest_length)%nat
    with repository_failure "candidate_digest violates check constraint";
  candidates ← insert_row (same_key ModelCandidateRow.candidate_record) (recorded (ModelCandidateRow.candidate_record row))
    row (Specialized.candidates s);
  Ok (Specialized.with_candidates candidates s).

Definition persist_promotion_row (row : PromotionRow.t) (s : Specialized.t) : Chain Specialized.t :=
  reject negb (length (PromotionRow.candidate_digest row) =? digest_length)%nat
    with repository_failure "candidate_digest violates check constraint";
  promotions ← insert_row (same_key PromotionRow.decision_record)
    (recorded (PromotionRow.decision_record row) && proof_stored (PromotionRow.promotion_proof_id row)
     && existsb (fun candidate => ModelCandidateRow.candidate_record candidate == PromotionRow.source_candidate row)
          (Specialized.candidates s)) row (Specialized.promotions s);
  Ok (Specialized.with_promotions promotions s).

(** *** Assertions *)

Definition expected_lifecycle (outcome : text) : option text :=
  if outcome == txt "promote_provisional" then Some (txt "provisional")
  else if outcome == txt "promote_user_confirmed" then Some (txt "user_confirmed")
  else if outcome == txt "promote_outcome_supported" then Some (txt "outcome_supported")
  else None.

(** The columns an assertion must repeat of its candidate *)
Definition promoted_fields : list string :=
  ["predicate"; "value_digest"; "scope_ref"; "evidence_refs"; "allowed_purposes"; "outcome_record_id"; "outcome_revision";
   "outcome_record_digest"]%string.

Definition find_promotion (s : Specialized.t) (decision : Node) : option PromotionRow.t :=
  find_first (fun promotion => PromotionRow.decision_record promotion == decision) (Specialized.promotions s).

(** [idr_enforce_human_model_materialization_v3], given the promotion, the record of its
    candidate and that of its decision *)
Definition materializes (row : AssertionRow.t) (promotion : PromotionRow.t) (candidate decision : ContractRow.t) : bool :=
  let assertion := AssertionRow.assertion row in
  let source := ContractRow.record candidate in
  is_some (payload_of source)
  && is_some_and (fun lifecycle => (AssertionRow.lifecycle_state row == lifecycle)
       && (payload_text "lifecycle_state" assertion == Some lifecycle)) (expected_lifecycle (PromotionRow.outcome promotion))
  && (payload_text "source_candidate_digest" assertion == Some (PromotionRow.candidate_digest promotion))
  && (payload_text "promotion_decision_record_id" assertion == Some (uuid_hyphenated (PromotionRow.decision_record promotion).1))
  && (payload_number "promotion_decision_revision" assertion == Some (PromotionRow.decision_record promotion).2)
  && (payload_text "promotion_decision_record_digest" assertion == Some (ContractRow.record_digest decision))
  && forallb (fun field => payload_field field assertion == payload_field field source) promoted_fields
  && match payload_number "maximum_impact_basis_points" assertion, payload_number "maximum_impact_basis_points" source with
     | Some impact, Some allowed => impact <=? allowed
     | _, _ => true
     end.

Definition materialization_refused (row : AssertionRow.t) (s : Specialized.t) : bool :=
  match AssertionRow.from row with
  | AssertionRow.Corrected _ _ => false
  | AssertionRow.Promoted decision =>
      negb (is_some_and (fun promotion =>
        match stored_record (PromotionRow.source_candidate promotion), stored_record (PromotionRow.decision_record promotion) with
        | Some candidate, Some decision => materializes row promotion candidate decision
        | _, _ => false
        end) (find_promotion s decision))
  end.

Definition persist_assertion_row (row : AssertionRow.t) (s : Specialized.t) : Chain Specialized.t :=
  reject materialization_refused row s
    with repository_failure "Human Model Assertion escalated or changed promoted Candidate authority";
  assertions ← insert_row (same_key AssertionRow.assertion_record)
    (recorded (AssertionRow.assertion_record row)
     && match AssertionRow.from row with
        | AssertionRow.Promoted decision => is_some (find_promotion s decision)
        | AssertionRow.Corrected predecessor proof_id =>
            proof_stored proof_id
            && existsb (fun assertion => AssertionRow.assertion_record assertion == predecessor) (Specialized.assertions s)
        end) row (Specialized.assertions s);
  Ok (Specialized.with_assertions assertions s).

Definition assertion_row (record : AuthoritativeRecordV1.t) (from : AssertionRow.origin) (lifecycle : text) : AssertionRow.t :=
  AssertionRow.mk (node (AuthoritativeRecordV1.record_ref record)) from (AuthoritativeRecordV1.tenant_ref record) (AuthoritativeRecordV1.subject_ref record) lifecycle
    (get (txt "expires_at") (AuthoritativeRecordV1.payload record) ≫= value_as_u64) (to_value (Json.to_json record)).

(** [expires_at.map(i64_from_u64).transpose()?] *)
Definition persist_assertion (row : AssertionRow.t) (s : Specialized.t) : Chain Specialized.t :=
  _ ← match AssertionRow.expires_at row with None => Ok tt | Some expires_at => _ ← i64_from_u64 expires_at; Ok tt end;
  persist_assertion_row row s.

(** *** The table a command's record is copied into *)

Definition persist_domain_row (command : IdrCommandEnvelopeV1.t) (transition : IdrTransitionV1.t) (s : Specialized.t) : Chain Specialized.t :=
  let issued := ok_or IdrRuntimeErrorV1.SerializationFailed (IdrTransitionV1.authoritative_record transition) in
  match IdrCommandEnvelopeV1.command command with
  | IdrCommandV1.CommitExecutionReceipt _ reservation_id permit_id provider_ref dispatch_nonce attempt =>
      record ← issued;
      _ ← i64_from_u64 (AuthoritativeRecordRefV1.revision (AuthoritativeRecordV1.record_ref record));
      attempt ← i32_from_u32 attempt;
      persist_receipt_row (receipt_row record reservation_id permit_id provider_ref dispatch_nonce attempt) s
  | IdrCommandV1.RecordOutcome _ =>
      record ← issued;
      receipt_ref ← ok_or IdrRuntimeErrorV1.MissingDependency (IdrRunProjectionV1.records (IdrTransitionV1.projection transition) !! CandidateKindV1.ExecutionReceipt);
      proof_id ← command_proof_id command ProductionProofKindV1.OutcomeObservation;
      _ ← i64_from_u64 (AuthoritativeRecordRefV1.revision (AuthoritativeRecordV1.record_ref record));
      _ ← i64_from_u64 (AuthoritativeRecordRefV1.revision receipt_ref);
      persist_outcome_row (OutcomeRow.mk (node (AuthoritativeRecordV1.record_ref record)) (IdrCommandEnvelopeV1.run_id command) (node receipt_ref) proof_id
                             (to_value (Json.to_json record))) s
  | IdrCommandV1.ProposeHumanModelCandidate _ =>
      record ← issued;
      _ ← i64_from_u64 (AuthoritativeRecordRefV1.revision (AuthoritativeRecordV1.record_ref record));
      persist_candidate_row (ModelCandidateRow.mk (node (AuthoritativeRecordV1.record_ref record)) (AuthoritativeRecordV1.run_id record) (AuthoritativeRecordV1.tenant_ref record)
                               (AuthoritativeRecordV1.subject_ref record) (AuthoritativeRecordV1.candidate_digest record) (to_value (Json.to_json record))) s
  | IdrCommandV1.RecordHumanModelPromotion _ source_candidate_ref =>
      record ← issued;
      proof_id ← command_proof_id command ProductionProofKindV1.HumanModelPromotion;
      outcome ← payload_string (AuthoritativeRecordV1.payload record) "outcome";
      _ ← i64_from_u64 (AuthoritativeRecordRefV1.revision (AuthoritativeRecordV1.record_ref record));
      _ ← i64_from_u64 (AuthoritativeRecordRefV1.revision source_candidate_ref);
      persist_promotion_row (PromotionRow.mk (node (AuthoritativeRecordV1.record_ref record)) (node source_candidate_ref) proof_id
                               (AuthoritativeRecordRefV1.record_digest source_candidate_ref) outcome (to_value (Json.to_json record))) s
  | IdrCommandV1.PromoteHumanModelAssertion _ promotion_decision_ref =>
      record ← issued;
      lifecycle ← payload_string (AuthoritativeRecordV1.payload record) "lifecycle_state";
      _ ← i64_from_u64 (AuthoritativeRecordRefV1.revision (AuthoritativeRecordV1.record_ref record));
      _ ← i64_from_u64 (AuthoritativeRecordRefV1.revision promotion_decision_ref);
      persist_assertion (assertion_row record (AssertionRow.Promoted (node promotion_decision_ref)) lifecycle) s
  | IdrCommandV1.CorrectHumanModelAssertion assertion_ref _ =>
      record ← issued;
      lifecycle ← payload_string (AuthoritativeRecordV1.payload record) "lifecycle_state";
      proof_id ← command_proof_id command ProductionProofKindV1.HumanModelCorrection;
      _ ← i64_from_u64 (AuthoritativeRecordRefV1.revision (AuthoritativeRecordV1.record_ref record));
      _ ← i64_from_u64 (AuthoritativeRecordRefV1.revision assertion_ref);
      persist_assertion (assertion_row record (AssertionRow.Corrected (node assertion_ref) proof_id) lifecycle) s
  | _ => Ok s
  end.
End tables.

(** The copies of contract records, each with the record it names *)
Definition copies (s : Specialized.t) : list (Node * Value) :=
  map (fun row => (ExecutionReceiptRow.receipt_record row, ExecutionReceiptRow.receipt row)) (Specialized.receipts s)
  ++ map (fun row => (OutcomeRow.outcome_record row, OutcomeRow.outcome row)) (Specialized.outcomes s)
  ++ map (fun row => (ModelCandidateRow.candidate_record row, ModelCandidateRow.candidate row)) (Specialized.candidates s)
  ++ map (fun row => (PromotionRow.decision_record row, PromotionRow.decision row)) (Specialized.promotions s)
  ++ map (fun row => (AssertionRow.assertion_record row, AssertionRow.assertion row)) (Specialized.assertions s).

(** ** Reading the human model *)

Module HumanModelQueryV1.
Record t := mk {
  tenant_ref : ReferenceV1.t;
  subject_ref : ReferenceV1.t;
  scope_ref : ReferenceV1.t;
  purpose_ref : ReferenceV1.t;
  policy_revision_ref : ReferenceV1.t;
  maximum_impact_basis_points : N;
}.
Definition new (tenant_ref subject_ref scope_ref purpose_ref policy_revision_ref : ReferenceV1.t)
    (maximum_impact_basis_points : N) : Chain t :=
  reject 10000 <? maximum_impact_basis_points with IdrRuntimeErrorV1.BindingMismatch;
  Ok (mk tenant_ref subject_ref scope_ref purpose_ref policy_revision_ref maximum_impact_basis_points).
End HumanModelQueryV1.

Module EffectiveHumanModelAssertionV1.
Record t := mk {
  assertion_record_id : Uuid;
  assertion_revision : N;
  record_digest : text;
  predicate : text;
  value_digest : text;
  scope_ref : text;
  lifecycle_state : text;
  maximum_impact_basis_points : N;
  expires_at_epoch_seconds : option N;
}.
End EffectiveHumanModelAssertionV1.

Section query.
Context (security : PostgresSecurityContextV1.t) (query : HumanModelQueryV1.t) (now : N) (db : Database.t).

Definition effective_lifecycles : list text := map txt ["provisional"; "user_confirmed"; "outcome_supported"]%string.

(** The join and its conditions *)
Definition effective (row : AssertionRow.t) (contract : ContractRow.t) : bool :=
  let n := AssertionRow.assertion_record row in
  let assertion := AssertionRow.assertion row in
  (row_node contract == n)
  && existsb (fun entry : Uuid * CandidateKindV1.t * CurrentRow.t => (CurrentRow.record_id entry.2, CurrentRow.revision entry.2) == n)
       (map_to_list (Database.current db))
  && (ContractRow.tenant_ref contract == HumanModelQueryV1.tenant_ref query)
  && (ContractRow.subject_ref contract == HumanModelQueryV1.subject_ref query)
  && (get_str "policy_revision_ref" (ContractRow.record contract)
      == Some (ReferenceV1.as_str (HumanModelQueryV1.policy_revision_ref query)))
  && (payload_text "scope_ref" assertion == Some (ReferenceV1.as_str (HumanModelQueryV1.scope_ref query)))
  && is_some_and (fun purposes => jsonb_exists purposes (ReferenceV1.as_str (HumanModelQueryV1.purpose_ref query)))
       (payload_field "allowed_purposes" assertion)
  && is_some_and (fun impact => impact <=? HumanModelQueryV1.maximum_impact_basis_points query)
       (payload_number "maximum_impact_basis_points" assertion)
  && contains (AssertionRow.lifecycle_state row) effective_lifecycles
  && match AssertionRow.expires_at row with None => true | Some expires_at => now <? expires_at end
  && (ContractRow.trust_domain contract == PostgresSecurityContextV1.trust_domain security)
  && (ContractRow.environment_ref contract == PostgresSecurityContextV1.environment_ref security)
  && negb (bool_decide (n ∈ Database.invalidations db)).

(** What is told of an assertion *)
Definition effective_assertion (row : AssertionRow.t) (contract : ContractRow.t) : Chain EffectiveHumanModelAssertionV1.t :=
  let assertion := AssertionRow.assertion row in
  let required (column : option text) := ok_or (repository_failure "unexpected null; try decoding as an `Option`") column in
  impact ← ok_or (repository_failure "invalid input syntax for type integer")
             (payload_number "maximum_impact_basis_points" assertion);
  predicate ← required (payload_text "predicate" assertion);
  value_digest ← required (payload_text "value_digest" assertion);
  scope_ref ← required (payload_text "scope_ref" assertion);
  Ok (EffectiveHumanModelAssertionV1.mk (AssertionRow.assertion_record row).1 (AssertionRow.assertion_record row).2
        (ContractRow.record_digest contract) predicate value_digest scope_ref (AssertionRow.lifecycle_state row) impact
        (AssertionRow.expires_at row)).

(** [ORDER BY assertion_record_id, assertion_revision] *)
Definition query_effective_human_model_assertions_for_test : Chain (list EffectiveHumanModelAssertionV1.t) :=
  collect_map (fun pair => effective_assertion pair.1 pair.2)
    (merge_sort (fun a b => ord_le (AssertionRow.assertion_record a.1) (AssertionRow.assertion_record b.1))
      (filter (fun pair => effective pair.1 pair.2 = true)
        (list_prod (Specialized.assertions (Database.specialized db)) (Database.records db)))).
End query.
