(* ===== verification/Ledger.v ===== *)
(** * Ledger: the transaction of the orchestrator ([idr-runtime/src/postgres_authority.rs])

    [transact_inner] and [handle] over the tables of [LedgerData]: the replay of a
    command already answered, what an accepted command writes, the chain of audit
    events, the checkpoint and its publication.

    A statement is modelled with the constraint that decides it: the primary keys
    and unique keys, the view bridge of migration 0007, and the triggers on
    revisions (0001), attempts (0001), reservations (0004, 0005) and states (0007).
    The other triggers and the foreign keys compare columns written from the same
    values; they refuse rows, they never change one.  [Copies] has the rows that
    are kept by kind of record. *)

From stdpp Require Import base list gmap fin_sets countable sorting strings.
From Stdlib Require Import NArith ZArith Lia.
From S2P Require Import Prelude Text Json Crates CanonicalJson Common Production ChainData ChainCommand ChainPayload ChainTransition ChainEvaluate ChainRepository Authority LedgerData Copies.

(** [ORDER BY] a key *)
Definition sort_by {A K} `{Ord K} (key : A -> K) (l : list A) : list A :=
  merge_sort (fun a b => ord_le (key a) (key b)) l.

(** Rows inserted one after the other *)
Fixpoint insert_each {A T} (insert : A -> T -> Chain T) (rows : list A) (table : T) : Chain T :=
  match rows with
  | [] => Ok table
  | row :: rows => table ← insert row table; insert_each insert rows table
  end.

(** ** The rows a transaction reads *)

(** [SELECT envelope FROM idr_proof_envelopes] *)
Definition load_envelope (security : PostgresSecurityContextV1.t) (db : Database.t) (id : Uuid) :
    Chain ProductionProofEnvelopeV1.t :=
  row ← ok_or IdrRuntimeErrorV1.ActionNotAdmitted
    (find_first (fun row => (EnvelopeRow.proof_id row == id)
        && (EnvelopeRow.trust_domain row == PostgresSecurityContextV1.trust_domain security)
        && (EnvelopeRow.environment_ref row == PostgresSecurityContextV1.environment_ref security))
      (Database.envelopes db));
  Ok (EnvelopeRow.envelope row).

(** *** The recursive query over the dependencies *)

(** The dependents of what was found so far. *)
Definition dependents_of (rows : list DependencyRow.t) (found : gset Node) : gset Node :=
  list_to_set (map DependencyRow.dependent
    (filter (fun row => DependencyRow.dependency row ∈ found) rows)).

(** [WITH RECURSIVE ... UNION]: until nothing new is found. *)
Fixpoint saturate (fuel : nat) (rows : list DependencyRow.t) (found : gset Node) : option (gset Node) :=
  let next := found ∪ dependents_of rows found in
  if bool_decide (next = found) then Some found
  else match fuel with
       | O => None
       | S fuel => saturate fuel rows next
       end.

(** Every round but the last finds the dependent of another row. *)
Definition invalidation_closure (rows : list DependencyRow.t) (root : Node) : option (gset Node) :=
  saturate (S (length rows)) rows {[root]}.

Definition row_reference (row : ContractRow.t) : AuthoritativeRecordRefV1.t :=
  AuthoritativeRecordRefV1.mk (ContractRow.record_id row) (ContractRow.revision row) (ContractRow.candidate_kind row) (ContractRow.trust_domain row)
    (ContractRow.environment_ref row) (ContractRow.valid_from row) (ContractRow.valid_until row) (ContractRow.record_digest row).

Definition load_recursive_invalidation_closure (db : Database.t) (root : AuthoritativeRecordRefV1.t) : Chain (list AuthoritativeRecordRefV1.t) :=
  _ ← i64_from_u64 (AuthoritativeRecordRefV1.revision root);
  nodes ← ok_or IdrRuntimeErrorV1.SerializationFailed (invalidation_closure (Database.dependencies db) (node root));
  Ok (map row_reference
    (sort_by (fun row => (ContractRow.issued_at row, (ContractRow.record_id row, ContractRow.revision row)))
      (filter (fun row => row_node row ∈ nodes) (Database.records db)))).

(** *** Runs *)

Definition events_of_run (run : Uuid) (db : Database.t) : list AuditRow.t :=
  filter (fun row => AuditRow.run_id row = run) (Database.events db).
Definition events_of_tenant (tenant : ReferenceV1.t) (db : Database.t) : list AuditRow.t :=
  filter (fun row => AuditRow.tenant_ref row = tenant) (Database.events db).

(** [payload #>> '{projection_digest}'] of the run's last event *)
Definition audited_digest (run : Uuid) (db : Database.t) : option text :=
  last (events_of_run run db) ≫= fun row => get_str "projection_digest" (AuditRow.payload row).

(** The hash the next event of the tenant is chained to. *)
Definition genesis_hash : text := replicate 64 48.
Definition previous_hash (tenant : ReferenceV1.t) (db : Database.t) : text :=
  default genesis_hash (AuditRow.event_hash <$> last (events_of_tenant tenant db)).

Section with_crates.
Context {C : Crates}.
Context (security : PostgresSecurityContextV1.t).

Definition own_domain : TrustDomainV1.t := PostgresSecurityContextV1.trust_domain security.
Definition own_environment : ReferenceV1.t := PostgresSecurityContextV1.environment_ref security.

Definition load_run (db : Database.t) (command : IdrCommandEnvelopeV1.t) : Chain IdrRunProjectionV1.t :=
  match Database.runs db !! IdrCommandEnvelopeV1.run_id command with
  | Some row =>
      let projection := RunRow.projection row in
      computed ← projection_digest_v1 projection;
      reject (RunRow.trust_domain row != own_domain) || (RunRow.environment_ref row != own_environment)
             || (IdrRunProjectionV1.trust_domain projection != RunRow.trust_domain row)
             || (IdrRunProjectionV1.environment_ref projection != RunRow.environment_ref row)
             || (RunRow.projection_digest row != computed)
             || (audited_digest (IdrCommandEnvelopeV1.run_id command) db != Some (RunRow.projection_digest row))
        with IdrRuntimeErrorV1.IntegrityViolation;
      Ok projection
  | None =>
      match IdrCommandEnvelopeV1.command command with
      | IdrCommandV1.StartRun _ =>
          if IdrCommandEnvelopeV1.expected_aggregate_version command =? 0
          then Ok (IdrRunProjectionV1.pending own_domain own_environment (IdrCommandEnvelopeV1.run_id command) (IdrCommandEnvelopeV1.tenant_ref command))
          else Err IdrRuntimeErrorV1.MissingDependency
      | _ => Err IdrRuntimeErrorV1.MissingDependency
      end
  end.

(** ** The rows an accepted command writes *)

(** The bridge inserts a run or moves it on by one version. *)
Definition upsert_run (projection : IdrRunProjectionV1.t) (digest : text) (db : Database.t) : Chain Database.t :=
  _ ← i64_from_u64 (IdrRunProjectionV1.aggregate_version projection);
  _ ← i64_from_u64 (IdrRunProjectionV1.last_event_sequence projection);
  let row := RunRow.mk (IdrRunProjectionV1.trust_domain projection) (IdrRunProjectionV1.environment_ref projection) projection digest in
  reject match Database.runs db !! IdrRunProjectionV1.run_id projection with
         | Some old =>
             (RunRow.trust_domain old != RunRow.trust_domain row) || (RunRow.environment_ref old != RunRow.environment_ref row)
             || negb (IdrRunProjectionV1.aggregate_version (RunRow.projection old) + 1 =? IdrRunProjectionV1.aggregate_version projection)
         | None => false
         end
    with repository_failure "Attested Run aggregate update is invalid";
  Ok (Database.with_runs (<[IdrRunProjectionV1.run_id projection := row]> (Database.runs db)) db).

Definition step_state_of (state : IdrRunStateV1.t) (event_type : text) : string :=
  match state with
  | IdrRunStateV1.WaitingInput | IdrRunStateV1.WaitingAuthorization | IdrRunStateV1.WaitingDependency | IdrRunStateV1.ReconciliationRequired => "waiting"
  | IdrRunStateV1.Failed | IdrRunStateV1.Rejected | IdrRunStateV1.TimedOut => "failed"
  | IdrRunStateV1.Cancelled | IdrRunStateV1.Invalidated => "cancelled"
  | IdrRunStateV1.Pending | IdrRunStateV1.Running | IdrRunStateV1.Succeeded =>
      if contains event_type [txt "execution_permit_issued"; txt "execution_permit_delivered"; txt "execution_dispatch_started"]
      then "waiting" else "completed"
  end%string.

Definition persist_step_snapshot (command : IdrCommandEnvelopeV1.t) (transition : IdrTransitionV1.t) (db : Database.t) : Chain Database.t :=
  let projection := IdrTransitionV1.projection transition in
  Ok (Database.with_steps
    (Database.steps db ++
      [StepRow.mk (IdrCommandEnvelopeV1.run_id command) (IdrCommandEnvelopeV1.command_id command) (IdrTransitionV1.event_type transition)
        (step_state_of (IdrRunProjectionV1.state projection) (IdrTransitionV1.event_type transition))
        (IdrRunProjectionV1.aggregate_version projection) projection]) db).

Definition contract_row (record : AuthoritativeRecordV1.t) : ContractRow.t :=
  let reference := AuthoritativeRecordV1.record_ref record in
  ContractRow.mk (AuthoritativeRecordRefV1.record_id reference) (AuthoritativeRecordRefV1.revision reference) (AuthoritativeRecordRefV1.candidate_kind reference) (AuthoritativeRecordV1.trust_domain record)
    (AuthoritativeRecordV1.environment_ref record) (AuthoritativeRecordV1.run_id record) (AuthoritativeRecordV1.tenant_ref record) (AuthoritativeRecordV1.subject_ref record)
    (AuthoritativeRecordRefV1.record_digest reference) (to_value (Json.to_json record)) (AuthoritativeRecordV1.issued_by_command_id record) (AuthoritativeRecordV1.issued_at record)
    (AuthoritativeRecordV1.valid_from record) (AuthoritativeRecordV1.valid_until record).

(** [idr_enforce_contract_revision_v1]: [COALESCE(MAX(revision) + 1, 1)] *)
Definition contiguous_revision (record_id : Uuid) (rows : list ContractRow.t) : N :=
  1 + foldr N.max 0 (map ContractRow.revision (filter (fun row => ContractRow.record_id row = record_id) rows)).

Definition persist_authoritative_record (record : option AuthoritativeRecordV1.t) (projection : IdrRunProjectionV1.t) (db : Database.t) : Chain Database.t :=
  match record with
  | None => Ok db
  | Some record =>
      let row := contract_row record in
      _ ← for_each (fun value => _ ← i64_from_u64 value; Ok tt)
            [ContractRow.revision row; ContractRow.issued_at row; ContractRow.valid_from row; ContractRow.valid_until row];
      reject negb (ContractRow.revision row =? contiguous_revision (ContractRow.record_id row) (Database.records db))
             || existsb (fun old => ContractRow.record_digest old == ContractRow.record_digest row) (Database.records db)
        with repository_failure "contract revision must be contiguous";
      let slot := (IdrRunProjectionV1.run_id projection, ContractRow.candidate_kind row) in
      reject is_some_and (fun old => negb (CurrentRow.revision old + 1 =? ContractRow.revision row)) (Database.current db !! slot)
        with repository_failure "Attested current Contract revision is invalid";
      let now_current := CurrentRow.mk (IdrRunProjectionV1.trust_domain projection) (IdrRunProjectionV1.environment_ref projection)
        (ContractRow.record_id row) (ContractRow.revision row) (ContractRow.record_digest row) in
      Ok (Database.with_current (<[slot := now_current]> (Database.current db))
           (Database.with_records (Database.records db ++ [row]) db))
  end.

(** *** Dependencies *)

(** The records a new record is derived from, beside its previous revision. *)
Definition dependencies_of (command : IdrCommandV1.t) (records : gmap CandidateKindV1.t AuthoritativeRecordRefV1.t) (record : AuthoritativeRecordRefV1.t) : gset AuthoritativeRecordRefV1.t :=
  let add_current kind : gset AuthoritativeRecordRefV1.t :=
    match records !! kind with
    | Some reference => if reference != record then {[reference]} else ∅
    | None => ∅
    end in
  match command with
  | IdrCommandV1.RecordContext _ => add_current CandidateKindV1.CanonicalInput
  | IdrCommandV1.RecordIntent _ => add_current CandidateKindV1.ContextSnapshot
  | IdrCommandV1.RecordDecision _ => add_current CandidateKindV1.Intent
  | IdrCommandV1.RecordTurn _ => add_current CandidateKindV1.Intent ∪ add_current CandidateKindV1.Decision
  | IdrCommandV1.RecordResponse _ => add_current CandidateKindV1.TurnCoordination
  | IdrCommandV1.RecordAction _ =>
      add_current CandidateKindV1.TurnCoordination
      ∪ (if is_some (records !! CandidateKindV1.Decision) then add_current CandidateKindV1.Decision else add_current CandidateKindV1.Intent)
  | IdrCommandV1.AdmitAction action_ref _ _ _ _ => {[action_ref]}
  | IdrCommandV1.CommitExecutionReceipt _ _ _ _ _ _ => add_current CandidateKindV1.Action
  | IdrCommandV1.RecordOutcome _ => add_current CandidateKindV1.ExecutionReceipt
  | IdrCommandV1.ProposeHumanModelCandidate _ => add_current CandidateKindV1.Outcome
  | IdrCommandV1.RecordHumanModelPromotion _ source_candidate_ref => {[source_candidate_ref]}
  | IdrCommandV1.PromoteHumanModelAssertion _ promotion_decision_ref => {[promotion_decision_ref]}
  | IdrCommandV1.CorrectHumanModelAssertion assertion_ref _ => {[assertion_ref]}
  | _ => ∅
  end.

(** [INSERT INTO idr_contract_dependencies] under its primary key *)
Definition insert_dependency (row : DependencyRow.t) (rows : list DependencyRow.t) : Chain (list DependencyRow.t) :=
  reject existsb (fun old => (DependencyRow.dependent old == DependencyRow.dependent row)
                             && (DependencyRow.dependency old == DependencyRow.dependency row)) rows
    with repository_failure "duplicate key value violates unique constraint";
  Ok (rows ++ [row]).

(** The row of the record's previous revision, which must be stored. *)
Definition previous_revision (record : AuthoritativeRecordRefV1.t) (stored : list ContractRow.t) : Chain (list DependencyRow.t) :=
  if 1 <? AuthoritativeRecordRefV1.revision record then
    let previous := (AuthoritativeRecordRefV1.record_id record, AuthoritativeRecordRefV1.revision record - 1) in
    _ ← i64_from_u64 (AuthoritativeRecordRefV1.revision record - 1);
    row ← ok_or IdrRuntimeErrorV1.MissingDependency (find_first (fun row => row_node row == previous) stored);
    Ok [DependencyRow.mk (node record) previous (ContractRow.record_digest row)]
  else Ok [].

Definition persist_contract_dependencies (command : IdrCommandEnvelopeV1.t) (transition : IdrTransitionV1.t) (db : Database.t) : Chain Database.t :=
  match IdrTransitionV1.authoritative_record transition with
  | None => Ok db
  | Some record =>
      let record := AuthoritativeRecordV1.record_ref record in
      let dependencies := dependencies_of (IdrCommandEnvelopeV1.command command) (IdrRunProjectionV1.records (IdrTransitionV1.projection transition)) record in
      previous ← previous_revision record (Database.records db);
      _ ← for_each (fun dependency => _ ← i64_from_u64 (AuthoritativeRecordRefV1.revision dependency); Ok tt) (elements dependencies);
      rows ← insert_each insert_dependency
        (previous ++ map (fun dependency => DependencyRow.mk (node record) (node dependency) (AuthoritativeRecordRefV1.record_digest dependency))
                       (btree_elements dependencies)) (Database.dependencies db);
      Ok (Database.with_dependencies rows db)
  end.

(** *** Proofs *)

Definition envelope_row (command : IdrCommandEnvelopeV1.t) (root_version : N) (root_digest : text) (trusted_now : N)
    (envelope : ProductionProofEnvelopeV1.t) (proof : VerifiedProductionProofV1.t) : EnvelopeRow.t :=
  let claims := ProductionProofEnvelopeV1.claims envelope in
  EnvelopeRow.mk (VerifiedProductionProofV1.proof_id proof) own_domain (IdrCommandEnvelopeV1.environment_ref command) (VerifiedProductionProofV1.proof_kind proof)
    (ProductionProofClaimsV1.issuer_ref claims) (ProductionProofEnvelopeV1.key_id envelope)
    (ProductionProofClaimsV1.tenant_ref claims) (ProductionProofClaimsV1.subject_ref claims)
    (ProductionProofClaimsV1.subject_digest claims) (VerifiedProductionProofV1.nonce proof) root_version root_digest envelope trusted_now.

Definition consumption_row (command : IdrCommandEnvelopeV1.t) (row : EnvelopeRow.t) : consumption :=
  mkConsumption own_domain (IdrCommandEnvelopeV1.environment_ref command) (IdrCommandEnvelopeV1.tenant_ref command) (EnvelopeRow.proof_id row)
    (EnvelopeRow.nonce row).

(** The loop body: the envelope under its identifier, then its consumption under its
    identifier and the tenant's nonce. *)
Definition insert_proof (command : IdrCommandEnvelopeV1.t) (row : EnvelopeRow.t) (db : Database.t) : Chain Database.t :=
  let consumed := consumption_row command row in
  reject existsb (fun old => EnvelopeRow.proof_id old == EnvelopeRow.proof_id row) (Database.envelopes db)
         || existsb (fun old => (consumed_proof old == consumed_proof consumed)
              || ((consumed_tenant old == consumed_tenant consumed) && (consumed_nonce old == consumed_nonce consumed)))
              (Database.consumptions db)
    with repository_failure "duplicate key value violates unique constraint";
  Ok (Database.with_consumptions (Database.consumptions db ++ [consumed])
       (Database.with_envelopes (Database.envelopes db ++ [row]) db)).

(** [persist_proof_consumptions] *)
Definition persist_proofs (command : IdrCommandEnvelopeV1.t) (verified : list VerifiedProductionProofV1.t) (root_version : N) (root_digest : text)
    (trusted_now : N) (db : Database.t) : Chain Database.t :=
  _ ← for_each (fun _ : VerifiedProductionProofV1.t => _ ← i64_from_u64 root_version; _ ← i64_from_u64 trusted_now; Ok tt) verified;
  insert_each (insert_proof command)
    (zip_with (envelope_row command root_version root_digest trusted_now) (IdrCommandEnvelopeV1.proofs command) verified) db.

(** *** The execution *)

Definition idempotency_fence_digest_v1 (projection : IdrRunProjectionV1.t) (execution : ExecutionProjectionV1.t) : Chain text :=
  map_err IdrRuntimeErrorV1.Protocol (canonical_digest_v1 "idr-operation-idempotency-fence-v1"
    (Arr [Str (domain_name (IdrRunProjectionV1.trust_domain projection)); Json.to_json (IdrRunProjectionV1.environment_ref projection);
          Json.to_json (IdrRunProjectionV1.tenant_ref projection); Json.to_json (ExecutionProjectionV1.operation_ref execution);
          Str (ExecutionProjectionV1.idempotency_key execution); Json.to_json (IdrRunProjectionV1.run_id projection);
          Json.to_json (AuthoritativeRecordRefV1.record_id (ExecutionProjectionV1.action_ref execution)); Json.to_json (AuthoritativeRecordRefV1.revision (ExecutionProjectionV1.action_ref execution));
          Str (AuthoritativeRecordRefV1.record_digest (ExecutionProjectionV1.action_ref execution))])).

Definition fence_row (projection : IdrRunProjectionV1.t) (execution : ExecutionProjectionV1.t) (digest : text) (micros : Z) : FenceRow.t :=
  FenceRow.mk (ExecutionProjectionV1.reservation_id execution) (IdrRunProjectionV1.trust_domain projection) (IdrRunProjectionV1.environment_ref projection)
    (IdrRunProjectionV1.tenant_ref projection) (ExecutionProjectionV1.operation_ref execution) (ExecutionProjectionV1.idempotency_key execution) (IdrRunProjectionV1.run_id projection)
    (node (ExecutionProjectionV1.action_ref execution)) (AuthoritativeRecordRefV1.record_digest (ExecutionProjectionV1.action_ref execution)) digest micros.

(** [UNIQUE (trust_domain, environment_ref, tenant_ref, operation_ref, idempotency_key)] *)
Definition fence_key (fence : FenceRow.t) :=
  (FenceRow.trust_domain fence, FenceRow.environment_ref fence, FenceRow.tenant_ref fence, FenceRow.operation_ref fence,
   FenceRow.idempotency_key fence).
(** What the row read back is compared with. *)
Definition fence_tuple (fence : FenceRow.t) :=
  (FenceRow.trust_domain fence, FenceRow.environment_ref fence, FenceRow.tenant_ref fence, FenceRow.operation_ref fence,
   FenceRow.first_run_id fence, FenceRow.first_action fence, FenceRow.first_action_digest fence, FenceRow.fence_digest fence).

(** A unique violation is swallowed by the bridge; the row is read back and compared. *)
Definition persist_fence (fence : FenceRow.t) (db : Database.t) : Chain Database.t :=
  let taken := existsb (fun old => (FenceRow.fence_id old == FenceRow.fence_id fence) || (fence_key old == fence_key fence))
                 (Database.fences db) in
  let fences := if taken then Database.fences db else Database.fences db ++ [fence] in
  persisted ← ok_or IdrRuntimeErrorV1.IntegrityViolation
    (find_first (fun old => (FenceRow.fence_id old == FenceRow.fence_id fence)
                            && (FenceRow.idempotency_key old == FenceRow.idempotency_key fence)) fences);
  reject fence_tuple persisted != fence_tuple fence with IdrRuntimeErrorV1.IntegrityViolation;
  Ok (Database.with_fences fences db).

Definition reservation_row (projection : IdrRunProjectionV1.t) (execution : ExecutionProjectionV1.t) (micros : Z) : ReservationRow.t :=
  ReservationRow.mk (ExecutionProjectionV1.reservation_id execution) (ExecutionProjectionV1.reservation_id execution) (IdrRunProjectionV1.run_id projection)
    (IdrRunProjectionV1.tenant_ref projection) (node (ExecutionProjectionV1.action_ref execution)) (node (ExecutionProjectionV1.action_admission_ref execution))
    (ExecutionProjectionV1.operation_ref execution) (ExecutionProjectionV1.idempotency_key execution) (ExecutionProjectionV1.provider_ref execution) (ExecutionProjectionV1.owner_ref execution)
    (ExecutionProjectionV1.state execution) (IdrRunProjectionV1.aggregate_version projection) (AuthoritativeRecordRefV1.record_digest (ExecutionProjectionV1.action_ref execution))
    (ExecutionProjectionV1.parameter_digest execution) (ExecutionProjectionV1.request_digest execution) (ExecutionProjectionV1.exact_authorization_proof_id execution)
    (ExecutionProjectionV1.action_valid_until execution) (ExecutionProjectionV1.admission_valid_until execution) (ExecutionProjectionV1.authorization_valid_until execution)
    micros micros.

(** [LEAST(...) <= clock_timestamp()] *)
Definition reservation_authority_lapsed (action_valid_until admission_valid_until authorization_valid_until clock : N) : bool :=
  (N.min action_valid_until (N.min admission_valid_until authorization_valid_until)) <=? clock.

(** The insert runs the trigger on the authority's validity; on a known reservation the
    bridge then moves its state and version on, under the update guard, and leaves the
    other columns as they were first written. *)
Definition persist_reservation (governance : bool) (clock : N) (row : ReservationRow.t) (db : Database.t) :
    Chain Database.t :=
  _ ← for_each (fun value => _ ← i64_from_u64 value; Ok tt)
        [ReservationRow.action_valid_until row; ReservationRow.admission_valid_until row;
         ReservationRow.authorization_valid_until row];
  reject reservation_authority_lapsed (ReservationRow.action_valid_until row) (ReservationRow.admission_valid_until row)
           (ReservationRow.authorization_valid_until row) clock
    with repository_failure "Execution reservation authority is absent, expired, or mismatched";
  let id := ReservationRow.reservation_id row in
  match Database.reservations db !! id with
  | None => Ok (Database.with_reservations (<[id := row]> (Database.reservations db)) db)
  | Some old =>
      reject negb (ReservationRow.aggregate_version row =? ReservationRow.aggregate_version old + 1)
             || negb (execution_state_transition_allowed governance (ReservationRow.state old) (ReservationRow.state row))
        with repository_failure "Execution reservation update is not a contiguous legal transition";
      let row := ReservationRow.update (ReservationRow.state row) (ReservationRow.aggregate_version row)
                   (ReservationRow.updated_at_micros row) old in
      Ok (Database.with_reservations (<[id := row]> (Database.reservations db)) db)
  end.

Definition attempt_row (execution : ExecutionProjectionV1.t) (micros : Z) : AttemptRow.t :=
  let state := ExecutionProjectionV1.state execution in
  AttemptRow.mk (ExecutionProjectionV1.reservation_id execution) (ExecutionProjectionV1.attempt execution) (ExecutionProjectionV1.permit_id execution)
    (ExecutionProjectionV1.dispatch_nonce execution) (ExecutionProjectionV1.lease_until execution) (ExecutionProjectionV1.permit_valid_until execution) state
    (ExecutionProjectionV1.provider_ref execution) (ExecutionProjectionV1.owner_ref execution)
    (if contains state [ExecutionAggregateStateV1.DispatchStarted; ExecutionAggregateStateV1.AwaitingProvider; ExecutionAggregateStateV1.ReconciliationRequired; ExecutionAggregateStateV1.Succeeded; ExecutionAggregateStateV1.Failed; ExecutionAggregateStateV1.Rejected; ExecutionAggregateStateV1.Compensated]
     then Some micros else None)
    (if contains state [ExecutionAggregateStateV1.Succeeded; ExecutionAggregateStateV1.Failed; ExecutionAggregateStateV1.Rejected; ExecutionAggregateStateV1.Compensated] then Some micros else None).

Definition attempt_identity (row : AttemptRow.t) :=
  (AttemptRow.reservation_id row, AttemptRow.attempt row, AttemptRow.permit_id row, AttemptRow.dispatch_nonce row,
   AttemptRow.provider_ref row, AttemptRow.owner_ref row).

(** The primary key and the two unique keys of an attempt *)
Definition attempts_clash (a b : AttemptRow.t) : bool :=
  ((AttemptRow.reservation_id a == AttemptRow.reservation_id b) && (AttemptRow.attempt a =? AttemptRow.attempt b))
  || (AttemptRow.permit_id a == AttemptRow.permit_id b)
  || ((AttemptRow.reservation_id a == AttemptRow.reservation_id b) && (AttemptRow.dispatch_nonce a == AttemptRow.dispatch_nonce b)).

(** [idr_enforce_execution_attempt_sequence_v1] *)
Definition attempt_in_sequence (row : AttemptRow.t) (rows : list AttemptRow.t) : bool :=
  existsb (fun old => (AttemptRow.reservation_id old == AttemptRow.reservation_id row)
                      && (AttemptRow.attempt old =? AttemptRow.attempt row) && (AttemptRow.permit_id old == AttemptRow.permit_id row)) rows
  || (AttemptRow.attempt row =?
        1 + foldr N.max 0 (map AttemptRow.attempt
              (filter (fun old => AttemptRow.reservation_id old = AttemptRow.reservation_id row) rows)))
     && (AttemptRow.state row == ExecutionAggregateStateV1.PermitIssued).

Definition persist_attempt (governance : bool) (row : AttemptRow.t) (db : Database.t) : Chain Database.t :=
  reject i32_max <? AttemptRow.attempt row with IdrRuntimeErrorV1.SerializationFailed;
  _ ← for_each (fun value => _ ← i64_from_u64 value; Ok tt) [AttemptRow.lease_until row; AttemptRow.permit_valid_until row];
  let rows := Database.attempts db in
  reject negb (attempt_in_sequence row rows)
    with repository_failure "execution attempt must be contiguous and start permit_issued";
  if existsb (attempts_clash row) rows then
    let same old := attempt_identity old == attempt_identity row in
    reject negb (existsb same rows) with repository_failure "Attested execution Attempt identity changed";
    reject existsb (fun old => same old
             && negb (execution_state_transition_allowed governance (AttemptRow.state old) (AttemptRow.state row))) rows
      with repository_failure "Execution attempt update is not a legal monotonic transition";
    Ok (Database.with_attempts
          (map (fun old => if same old
                           then AttemptRow.update (AttemptRow.state row) (AttemptRow.started_at_micros row)
                                  (AttemptRow.completed_at_micros row) old
                           else old) rows) db)
  else Ok (Database.with_attempts (rows ++ [row]) db).

(** The withdrawn records and the execution. *)
Definition persist_execution (session : Session.t) (transition : IdrTransitionV1.t) (db : Database.t) :
    Chain Database.t :=
  let projection := IdrTransitionV1.projection transition in
  let governance := is_governance transition in
  let db := Database.with_invalidations
    (Database.invalidations db ∪ set_map node (IdrRunProjectionV1.invalidated_records projection)) db in
  match IdrRunProjectionV1.execution projection with
  | None => Ok db
  | Some execution =>
      digest ← idempotency_fence_digest_v1 projection execution;
      db ← persist_fence (fence_row projection execution digest (Session.micros session)) db;
      db ← persist_reservation governance (Session.clock session) (reservation_row projection execution (Session.micros session)) db;
      persist_attempt governance (attempt_row execution (Session.micros session)) db
  end.

(** [persist_specialized_projection]: the response that was sent, the withdrawn records,
    the execution, and the copy of the record. *)
Definition persist_specialized_projection (session : Session.t) (command : IdrCommandEnvelopeV1.t) (transition : IdrTransitionV1.t)
    (db : Database.t) : Chain Database.t :=
  sends ← persist_response_send (Database.records db) command (Database.specialized db);
  db ← persist_execution session transition (Database.with_specialized sends db);
  copied ← persist_domain_row (Database.records db) (Database.envelopes db) (Database.attempts db) (Database.reservations db)
             command transition (Database.specialized db);
  Ok (Database.with_specialized copied db).

(** ** Events, receipts and checkpoints *)

Definition contract_refs (transition : IdrTransitionV1.t) : Value :=
  match IdrTransitionV1.authoritative_record transition with
  | Some record => Arr [Json.to_json (AuthoritativeRecordV1.record_ref record)]
  | None => Arr []
  end.

Definition audit_payload (command : IdrCommandEnvelopeV1.t) (transition : IdrTransitionV1.t) (command_digest projection_digest : text) : Value :=
  to_value (Obj
    [(txt "trust_domain", Str (domain_name own_domain)); (txt "environment_ref", Json.to_json own_environment);
     (txt "event_type", Str (IdrTransitionV1.event_type transition)); (txt "command_id", Json.to_json (IdrCommandEnvelopeV1.command_id command));
     (txt "command_digest", Str command_digest); (txt "run_id", Json.to_json (IdrCommandEnvelopeV1.run_id command));
     (txt "tenant_ref", Json.to_json (IdrCommandEnvelopeV1.tenant_ref command));
     (txt "aggregate_version", Json.to_json (IdrRunProjectionV1.aggregate_version (IdrTransitionV1.projection transition)));
     (txt "actor_ref", Json.to_json (IdrCommandEnvelopeV1.actor_ref command)); (txt "caller_ref", Json.to_json (IdrCommandEnvelopeV1.caller_ref command));
     (txt "correlation_ref", Json.to_json (IdrCommandEnvelopeV1.correlation_ref command));
     (txt "causation_ref", Json.to_json (IdrCommandEnvelopeV1.causation_ref command));
     (txt "policy_revision_ref", Json.to_json (IdrCommandEnvelopeV1.policy_revision_ref command));
     (txt "contract_refs", contract_refs transition);
     (txt "proof_refs", Json.to_json (IdrTransitionV1.consumed_proof_ids transition));
     (txt "projection_digest", Str projection_digest);
     (txt "event_payload", IdrTransitionV1.event_payload transition)]).

Definition audit_row (session : Session.t) (command : IdrCommandEnvelopeV1.t) (transition : IdrTransitionV1.t) (previous hash : text)
    (payload : Value) : AuditRow.t :=
  AuditRow.mk (Session.audit_sequence session) (Session.global_sequence session) (Session.attestation_id session)
    (Session.event_id session) own_domain own_environment (IdrCommandEnvelopeV1.tenant_ref command) (IdrCommandEnvelopeV1.run_id command)
    (IdrRunProjectionV1.aggregate_version (IdrTransitionV1.projection transition)) (IdrCommandEnvelopeV1.actor_ref command) (IdrCommandEnvelopeV1.caller_ref command)
    (IdrCommandEnvelopeV1.correlation_ref command) (IdrCommandEnvelopeV1.causation_ref command) (default Null (get (txt "contract_refs") payload))
    (default Null (get (txt "proof_refs") payload)) (IdrCommandEnvelopeV1.policy_revision_ref command) previous hash payload.

(** The event is chained to the tenant's last one. *)
Definition persist_event (session : Session.t) (command : IdrCommandEnvelopeV1.t) (transition : IdrTransitionV1.t)
    (command_digest projection_digest : text) (db : Database.t) : Chain Database.t :=
  let payload := audit_payload command transition command_digest projection_digest in
  let previous := previous_hash (IdrCommandEnvelopeV1.tenant_ref command) db in
  hash ← hash_event_v1 previous payload;
  Ok (Database.with_events (Database.events db ++ [audit_row session command transition previous hash payload]) db).

Definition record_set_root_for_tenant (db : Database.t) (tenant : ReferenceV1.t) : Chain text :=
  let rows := sort_by row_node (filter (fun row => ContractRow.tenant_ref row = tenant) (Database.records db)) in
  map_err IdrRuntimeErrorV1.Protocol (canonical_digest_v1 "idr-authoritative-record-set-v1"
    (Arr (map (fun row => Arr [Json.to_json (ContractRow.record_id row); Json.to_json (ContractRow.revision row);
                               Str (ContractRow.record_digest row)]) rows))).

(** *** The leaves of the execution root ([jsonb_build_object]) *)

Definition micros_json (m : option Z) : Value := match m with Some m => Json.to_json m | None => Null end.

Definition fence_leaf (f : FenceRow.t) : Value :=
  Obj [(txt "fence_id", Json.to_json (FenceRow.fence_id f)); (txt "trust_domain", Json.to_json (FenceRow.trust_domain f));
    (txt "environment_ref", Json.to_json (FenceRow.environment_ref f)); (txt "tenant_ref", Json.to_json (FenceRow.tenant_ref f));
    (txt "operation_ref", Json.to_json (FenceRow.operation_ref f)); (txt "idempotency_key", Str (FenceRow.idempotency_key f));
    (txt "first_run_id", Json.to_json (FenceRow.first_run_id f));
    (txt "first_action_record_id", Json.to_json (FenceRow.first_action f).1);
    (txt "first_action_revision", Json.to_json (FenceRow.first_action f).2);
    (txt "first_action_digest", Str (FenceRow.first_action_digest f)); (txt "fence_digest", Str (FenceRow.fence_digest f));
    (txt "created_at_micros", Json.to_json (FenceRow.created_at_micros f))].

Definition reservation_leaf (r : ReservationRow.t) : Value :=
  Obj [(txt "reservation_id", Json.to_json (ReservationRow.reservation_id r)); (txt "fence_id", Json.to_json (ReservationRow.fence_id r));
    (txt "run_id", Json.to_json (ReservationRow.run_id r)); (txt "tenant_ref", Json.to_json (ReservationRow.tenant_ref r));
    (txt "action_record_id", Json.to_json (ReservationRow.action r).1); (txt "action_revision", Json.to_json (ReservationRow.action r).2);
    (txt "action_admission_record_id", Json.to_json (ReservationRow.action_admission r).1);
    (txt "action_admission_revision", Json.to_json (ReservationRow.action_admission r).2);
    (txt "operation_ref", Json.to_json (ReservationRow.operation_ref r)); (txt "idempotency_key", Str (ReservationRow.idempotency_key r));
    (txt "provider_ref", Json.to_json (ReservationRow.provider_ref r)); (txt "owner_ref", Json.to_json (ReservationRow.owner_ref r));
    (txt "state", Json.to_json (ReservationRow.state r)); (txt "aggregate_version", Json.to_json (ReservationRow.aggregate_version r));
    (txt "action_digest", Str (ReservationRow.action_digest r)); (txt "parameter_digest", Str (ReservationRow.parameter_digest r));
    (txt "request_digest", Str (ReservationRow.request_digest r));
    (txt "exact_authorization_proof_id", Json.to_json (ReservationRow.exact_authorization_proof_id r));
    (txt "action_valid_until", Json.to_json (ReservationRow.action_valid_until r));
    (txt "admission_valid_until", Json.to_json (ReservationRow.admission_valid_until r));
    (txt "authorization_valid_until", Json.to_json (ReservationRow.authorization_valid_until r));
    (txt "created_at_micros", Json.to_json (ReservationRow.created_at_micros r));
    (txt "updated_at_micros", Json.to_json (ReservationRow.updated_at_micros r))].

Definition attempt_leaf (a : AttemptRow.t) : Value :=
  Obj [(txt "reservation_id", Json.to_json (AttemptRow.reservation_id a)); (txt "attempt", Json.to_json (AttemptRow.attempt a));
    (txt "permit_id", Json.to_json (AttemptRow.permit_id a)); (txt "dispatch_nonce", Str (AttemptRow.dispatch_nonce a));
    (txt "lease_until", Json.to_json (AttemptRow.lease_until a)); (txt "permit_valid_until", Json.to_json (AttemptRow.permit_valid_until a));
    (txt "state", Json.to_json (AttemptRow.state a)); (txt "provider_ref", Json.to_json (AttemptRow.provider_ref a));
    (txt "owner_ref", Json.to_json (AttemptRow.owner_ref a)); (txt "started_at_micros", micros_json (AttemptRow.started_at_micros a));
    (txt "completed_at_micros", micros_json (AttemptRow.completed_at_micros a))].

Definition reservations_of_tenant (db : Database.t) (tenant : ReferenceV1.t) : list ReservationRow.t :=
  sort_by ReservationRow.reservation_id
    (filter (fun r => ReservationRow.tenant_ref r = tenant) (map snd (map_to_list (Database.reservations db)))).

Definition execution_state_root_for_tenant (db : Database.t) (tenant : ReferenceV1.t) : Chain text :=
  let fences := sort_by FenceRow.fence_id (filter (fun f => FenceRow.tenant_ref f = tenant) (Database.fences db)) in
  let reservations := reservations_of_tenant db tenant in
  let attempts := sort_by (fun a => (AttemptRow.reservation_id a, AttemptRow.attempt a))
    (filter (fun a => AttemptRow.reservation_id a ∈ map ReservationRow.reservation_id reservations) (Database.attempts db)) in
  map_err IdrRuntimeErrorV1.Protocol (canonical_digest_v1 "idr-execution-state-set-v1"
    (Arr [Arr (map fence_leaf fences); Arr (map reservation_leaf reservations); Arr (map attempt_leaf attempts)])).

(** The later of two checkpoints *)
Definition later (best : option AuditCheckpointV1.t) (c : AuditCheckpointV1.t) : option AuditCheckpointV1.t :=
  match best with
  | Some b => if (AuditCheckpointV1.audit_sequence c <? AuditCheckpointV1.audit_sequence b)%Z then Some b else Some c
  | None => Some c
  end.

(** [ORDER BY audit_sequence DESC LIMIT 1] *)
Definition latest_checkpoint_for_tenant (db : Database.t) (tenant : ReferenceV1.t) : option AuditCheckpointV1.t :=
  foldl later None
    (filter (fun c => AuditCheckpointV1.key c = (own_domain, ReferenceV1.as_str own_environment, ReferenceV1.as_str tenant))
      (Database.checkpoints db)).

Definition checkpoint (session : Session.t) (tenant : ReferenceV1.t) (chain_root : text) (db : Database.t) :
    Chain AuditCheckpointV1.t :=
  record_set_root ← record_set_root_for_tenant db tenant;
  execution_state_root ← execution_state_root_for_tenant db tenant;
  Ok (AuditCheckpointV1.mk own_domain (ReferenceV1.as_str own_environment) (ReferenceV1.as_str tenant) (Session.audit_sequence session) chain_root
    record_set_root execution_state_root (Session.checkpoint_id session)).

(** ** Attestations *)

Context (key : list N) (key_version : Z).

Definition command_receipt_mac (receipt : IdrCommandReceiptV1.t) : Chain text :=
  reject IdrCommandReceiptV1.idempotent_replay receipt with IdrRuntimeErrorV1.IntegrityViolation;
  digest ← map_err IdrRuntimeErrorV1.Protocol (canonical_digest_v1 "idr-command-receipt-v1" (Json.to_json receipt));
  Ok (mac key (as_bytes digest)).

Definition attestation (session : Session.t) (purpose : string) (command_id run_id : Uuid) (tenant : text)
    (pre_version post_version : N) (command_digest transition_digest : text) : Attestation.t :=
  Attestation.mk (domain_name own_domain) (ReferenceV1.as_str own_environment) (txt purpose) (Session.attestation_id session) command_id
    run_id tenant pre_version post_version command_digest transition_digest (Session.txid session) (Session.backend_pid session)
    (Session.attestation_nonce session) key_version.

(** The material is authenticated; the primary key and the two unique keys of the table
    refuse a second attestation. *)
Definition open_orchestrator_attestation (a : Attestation.t) (db : Database.t) : Chain Database.t :=
  material ← Attestation.material a;
  _ ← i64_from_u64 (Attestation.pre_aggregate_version a);
  _ ← i64_from_u64 (Attestation.post_aggregate_version a);
  reject existsb (fun row => (Attestation.attestation_id row.1 == Attestation.attestation_id a)
             || (Attestation.nonce row.1 == Attestation.nonce a)
             || ((Attestation.purpose row.1 == Attestation.purpose a) && (Attestation.command_id row.1 == Attestation.command_id a)
                 && (Attestation.transition_digest row.1 == Attestation.transition_digest a))) (Database.attestations db)
    with repository_failure "duplicate key value violates unique constraint";
  Ok (Database.with_attestations (Database.attestations db ++ [(a, mac key material)]) db).

Definition transition_digest (command : IdrCommandEnvelopeV1.t) (transition : IdrTransitionV1.t) (pre_version : N)
    (command_digest projection_digest : text) : Chain text :=
  map_err IdrRuntimeErrorV1.Protocol (canonical_digest_v1 "idr-orchestrator-transition-attestation-v1" (Obj
    [(txt "trust_domain", Str (domain_name own_domain)); (txt "environment_ref", Json.to_json own_environment);
     (txt "command_id", Json.to_json (IdrCommandEnvelopeV1.command_id command)); (txt "command_digest", Str command_digest);
     (txt "run_id", Json.to_json (IdrCommandEnvelopeV1.run_id command)); (txt "tenant_ref", Json.to_json (IdrCommandEnvelopeV1.tenant_ref command));
     (txt "pre_aggregate_version", Json.to_json pre_version);
     (txt "post_aggregate_version", Json.to_json (IdrRunProjectionV1.aggregate_version (IdrTransitionV1.projection transition)));
     (txt "projection_digest", Str projection_digest); (txt "event_type", Str (IdrTransitionV1.event_type transition));
     (txt "record_ref", Json.to_json (AuthoritativeRecordV1.record_ref <$> IdrTransitionV1.authoritative_record transition));
     (txt "consumed_proof_ids", Json.to_json (IdrTransitionV1.consumed_proof_ids transition))])).

Definition attestation_purpose (transition : IdrTransitionV1.t) : string :=
  if is_governance transition then "governance_proof_revocation" else "command_transition".

(** ** The transaction *)

Context {P : UuidParser} (trust_root : TrustRootSnapshotV1.t).

(** A command already answered: it must be the same one, carry valid proofs, and the
    stored receipt and its attestation must be authentic. *)
Definition replay_receipt (command : IdrCommandEnvelopeV1.t) (command_digest : text) (trusted_now : N) (row : ReceiptRow.t) (db : Database.t) :
    Chain (IdrCommandReceiptV1.t * AuditCheckpointV1.t) :=
  reject (ReceiptRow.trust_domain row != own_domain) || (ReceiptRow.environment_ref row != own_environment)
         || (ReceiptRow.tenant_ref row != IdrCommandEnvelopeV1.tenant_ref command) || (ReceiptRow.run_id row != IdrCommandEnvelopeV1.run_id command)
         || (ReceiptRow.actor_ref row != IdrCommandEnvelopeV1.actor_ref command) || (ReceiptRow.caller_ref row != IdrCommandEnvelopeV1.caller_ref command)
         || (ReceiptRow.command_digest row != command_digest)
    with IdrRuntimeErrorV1.IdempotencyConflict;
  _ ← verify_proofs_inside_transaction security trust_root command trusted_now;
  let receipt := ReceiptRow.receipt row in
  let stored_attestation_id := ReceiptRow.idr_attestation_id row in
  reject IdrCommandReceiptV1.attestation_id receipt != stored_attestation_id with IdrRuntimeErrorV1.IntegrityViolation;
  receipt_mac ← command_receipt_mac receipt;
  reject receipt_mac != ReceiptRow.receipt_mac row with IdrRuntimeErrorV1.IntegrityViolation;
  attestation_row ← ok_or (repository_failure "no rows returned")
    (find_first (fun row => Attestation.attestation_id row.1 == stored_attestation_id) (Database.attestations db));
  verified ← Attestation.verify_row security key key_version attestation_row.1 attestation_row.2;
  reject verified != stored_attestation_id with IdrRuntimeErrorV1.IntegrityViolation;
  latest ← ok_or (repository_failure "no rows returned") (latest_checkpoint_for_tenant db (IdrCommandEnvelopeV1.tenant_ref command));
  Ok (IdrCommandReceiptV1.replayed receipt, latest).

(** From the proofs to the transition: nothing is written. *)
Definition decide_transition (minted : Minted.t) (command : IdrCommandEnvelopeV1.t) (trusted_now : N) (db : Database.t) :
    Chain (list VerifiedProductionProofV1.t * IdrRunProjectionV1.t * IdrTransitionV1.t) :=
  verified_proofs ← verify_proofs_inside_transaction security trust_root command trusted_now;
  projection ← load_run db command;
  let bound_admission_result :=
    reverify_bound_action_admission_proofs security trust_root (load_envelope security db) projection command trusted_now in
  _ ← check_proof_replay security (Database.consumptions db) command verified_proofs;
  transition ← choose_transition (load_recursive_invalidation_closure db) minted bound_admission_result command trusted_now
                 verified_proofs projection;
  Ok (verified_proofs, projection, transition).

(** Everything the transition says, in the order it is written. *)
Definition persist_transition (session : Session.t) (command : IdrCommandEnvelopeV1.t) (trusted_now : N) (verified_proofs : list VerifiedProductionProofV1.t)
    (transition : IdrTransitionV1.t) (command_digest projection_digest : text) (db : Database.t) : Chain Database.t :=
  let projection := IdrTransitionV1.projection transition in
  db ← upsert_run projection projection_digest db;
  db ← persist_step_snapshot command transition db;
  db ← persist_authoritative_record (IdrTransitionV1.authoritative_record transition) projection db;
  db ← persist_contract_dependencies command transition db;
  db ← persist_proofs command verified_proofs (TrustRootSnapshotV1.root_version trust_root)
         (TrustRootSnapshotV1.root_digest trust_root) trusted_now db;
  db ← persist_specialized_projection session command transition db;
  persist_event session command transition command_digest projection_digest db.

Definition receipt_of (command : IdrCommandEnvelopeV1.t) (transition : IdrTransitionV1.t) (attestation_id : Uuid) (sequence : N) :
    IdrCommandReceiptV1.t :=
  IdrCommandReceiptV1.mk (IdrCommandEnvelopeV1.command_id command) attestation_id own_domain own_environment (IdrCommandEnvelopeV1.run_id command)
    (IdrRunProjectionV1.aggregate_version (IdrTransitionV1.projection transition)) sequence
    (IdrRunProjectionV1.state (IdrTransitionV1.projection transition))
    (AuthoritativeRecordV1.record_ref <$> IdrTransitionV1.authoritative_record transition) false.

Definition persist_receipt (command : IdrCommandEnvelopeV1.t) (command_digest : text) (receipt : IdrCommandReceiptV1.t) (db : Database.t) :
    Chain Database.t :=
  receipt_mac ← command_receipt_mac receipt;
  _ ← i64_from_u64 (IdrCommandReceiptV1.aggregate_version receipt);
  Ok (Database.with_receipts
    (<[IdrCommandEnvelopeV1.command_id command := ReceiptRow.mk own_domain own_environment (IdrCommandEnvelopeV1.tenant_ref command) (IdrCommandEnvelopeV1.run_id command)
         (IdrCommandEnvelopeV1.actor_ref command) (IdrCommandEnvelopeV1.caller_ref command) command_digest receipt receipt_mac
         (IdrCommandReceiptV1.attestation_id receipt)]> (Database.receipts db)) db).

Definition transact_inner (session : Session.t) (minted : Minted.t) (command : IdrCommandEnvelopeV1.t) (trusted_now : N) (db : Database.t) :
    Chain (Database.t * IdrCommandReceiptV1.t * AuditCheckpointV1.t) :=
  reject (TrustRootSnapshotV1.trust_domain trust_root != own_domain) || (TrustRootSnapshotV1.environment_ref trust_root != own_environment)
    with IdrRuntimeErrorV1.BindingMismatch;
  command_digest ← Envelope.canonical_digest command;
  match Database.receipts db !! IdrCommandEnvelopeV1.command_id command with
  | Some row =>
      replayed ← replay_receipt command command_digest trusted_now row db;
      Ok (db, replayed.1, replayed.2)
  | None =>
      '(verified_proofs, projection, transition) ← decide_transition minted command trusted_now db;
      projection_digest ← projection_digest_v1 (IdrTransitionV1.projection transition);
      digest ← transition_digest command transition (IdrRunProjectionV1.aggregate_version projection) command_digest projection_digest;
      let opened := attestation session (attestation_purpose transition) (IdrCommandEnvelopeV1.command_id command) (IdrCommandEnvelopeV1.run_id command)
        (ReferenceV1.as_str (IdrCommandEnvelopeV1.tenant_ref command)) (IdrRunProjectionV1.aggregate_version projection)
        (IdrRunProjectionV1.aggregate_version (IdrTransitionV1.projection transition)) command_digest digest in
      db ← open_orchestrator_attestation opened db;
      db ← persist_transition session command trusted_now verified_proofs transition command_digest projection_digest db;
      let receipt := receipt_of command transition (Attestation.attestation_id opened) (Session.global_sequence session) in
      db ← persist_receipt command command_digest receipt db;
      let chain_root := previous_hash (IdrCommandEnvelopeV1.tenant_ref command) db in
      sealed ← checkpoint session (IdrCommandEnvelopeV1.tenant_ref command) chain_root db;
      Ok (Database.with_checkpoints (Database.checkpoints db ++ [sealed]) db, receipt, sealed)
  end.

(** ** The entry point *)

Definition zero_run_id : Uuid := mkUuid 0 I.

Definition checkpoint_json (c : AuditCheckpointV1.t) : Value :=
  Obj [(txt "trust_domain", Json.to_json (AuditCheckpointV1.trust_domain c)); (txt "environment_ref", Str (AuditCheckpointV1.environment_ref c));
    (txt "tenant_ref", Str (AuditCheckpointV1.tenant_ref c)); (txt "audit_sequence", Json.to_json (AuditCheckpointV1.audit_sequence c));
    (txt "chain_root", Str (AuditCheckpointV1.chain_root c)); (txt "record_set_root", Str (AuditCheckpointV1.record_set_root c));
    (txt "execution_state_root", Str (AuditCheckpointV1.execution_state_root c));
    (txt "checkpoint_id", Json.to_json (AuditCheckpointV1.checkpoint_id c))].

(** The attestation of a published checkpoint, in a transaction of its own. *)
Definition attest_publication (session : Session.t) (receipt : IdrCommandReceiptV1.t) (c : AuditCheckpointV1.t) (db : Database.t) :
    Chain Database.t :=
  command_digest ← map_err IdrRuntimeErrorV1.Protocol (canonical_digest_v1 "idr-checkpoint-publication-command-v1" (Obj
    [(txt "command_id", Json.to_json (IdrCommandReceiptV1.command_id receipt));
     (txt "attestation_id", Json.to_json (IdrCommandReceiptV1.attestation_id receipt)); (txt "checkpoint", checkpoint_json c)]));
  digest ← map_err IdrRuntimeErrorV1.Protocol (canonical_digest_v1 "idr-checkpoint-publication-transition-v1" (Obj
    [(txt "checkpoint_id", Json.to_json (AuditCheckpointV1.checkpoint_id c)); (txt "audit_sequence", Json.to_json (AuditCheckpointV1.audit_sequence c));
     (txt "chain_root", Str (AuditCheckpointV1.chain_root c)); (txt "record_set_root", Str (AuditCheckpointV1.record_set_root c));
     (txt "execution_state_root", Str (AuditCheckpointV1.execution_state_root c))]));
  open_orchestrator_attestation (attestation session "checkpoint_publication" (IdrCommandReceiptV1.command_id receipt)
    zero_run_id (AuditCheckpointV1.tenant_ref c) (IdrCommandReceiptV1.aggregate_version receipt)
    (IdrCommandReceiptV1.aggregate_version receipt) command_digest digest) db.

(** The guards of [handle] before the transaction *)
Definition admit_command (production human_model_write : bool) (command : IdrCommandEnvelopeV1.t) : Chain unit :=
  _ ← (if production && (own_domain == TrustDomainV1.Production)
       then enforce_production_command_release_gate (IdrCommandEnvelopeV1.command command) else Ok tt);
  reject is_human_model_write (IdrCommandEnvelopeV1.command command) && negb human_model_write
    with repository_failure "HUMAN MODEL LONG-TERM WRITE = NOT AUTHORIZED";
  _ ← Envelope.validate command;
  reject IdrCommandEnvelopeV1.trust_domain command != own_domain with IdrRuntimeErrorV1.BindingMismatch;
  reject IdrCommandEnvelopeV1.environment_ref command != own_environment with IdrRuntimeErrorV1.BindingMismatch;
  Ok tt.

(** [handle]: the database and the anchor it leaves, and its answer.  A committed
    transaction stays committed when the publication after it fails. *)
Definition handle {S} `{AnchorBackend S} (production human_model_write : bool) (session publication : Session.t)
    (minted : Minted.t) (command : IdrCommandEnvelopeV1.t) (trusted_now : N) (db : Database.t) (anchor : S) :
    Database.t * S * Chain IdrCommandReceiptV1.t :=
  match (_ ← admit_command production human_model_write command; transact_inner session minted command trusted_now db) with
  | Err error => (db, anchor, Err error)
  | Ok (db, receipt, sealed) =>
      if IdrCommandReceiptV1.idempotent_replay receipt then (db, anchor, Ok receipt)
      else
        match publish sealed anchor with
        | Err error => (db, anchor, Err error)
        | Ok anchor =>
            match attest_publication publication receipt sealed db with
            | Err error => (db, anchor, Err error)
            | Ok db => (db, anchor, Ok receipt)
            end
        end
  end.
End with_crates.
