(* ===== verification/LedgerVerify.v ===== *)
(** * LedgerVerify: the verification of a stored database ([idr-runtime/src/postgres_authority.rs])

    [verify_database_integrity], run before the orchestrator takes up its work: the
    attestations and receipts, the chains of audit events, the runs with their
    admissions and executions, the records, the proofs, the relations between the
    tables and the latest checkpoint of every tenant; then [verify_external_anchor].
    The specialised tables, which repeat a record, are left out as in [Ledger]. *)

From stdpp Require Import base list gmap fin_sets countable sorting strings.
From Stdlib Require Import NArith ZArith Lia.
From S2P Require Import Prelude Text Json Crates CanonicalJson Common Production ChainData ChainCommand ChainPayload ChainTransition ChainEvaluate ChainRepository Authority LedgerData Copies Ledger.

#[export] Instance ord_Z : Ord Z := Z.compare.

Section verify.
Context {C : Crates} {P : UuidParser} (security : PostgresSecurityContextV1.t) (key : list N) (key_version : Z).
Context (from_value : Value -> option AuthoritativeRecordV1.t).

(** ** Audit events *)

(** The columns of an event repeat its payload, and its previous hash is the last one
    of the tenant. *)
Definition columns_match (row : AuditRow.t) (expected_previous : text) : bool :=
  let payload := AuditRow.payload row in
  (AuditRow.trust_domain row == own_domain security)
  && (AuditRow.environment_ref row == own_environment security)
  && (get_str "trust_domain" payload == Some (domain_name (AuditRow.trust_domain row)))
  && (get_str "environment_ref" payload == Some (ReferenceV1.as_str (AuditRow.environment_ref row)))
  && (AuditRow.previous_hash row == expected_previous)
  && (get_str "tenant_ref" payload == Some (ReferenceV1.as_str (AuditRow.tenant_ref row)))
  && (get_str "run_id" payload == Some (uuid_hyphenated (AuditRow.run_id row)))
  && ((get (txt "aggregate_version") payload ≫= value_as_u64) == Some (AuditRow.aggregate_version row))
  && (get_str "actor_ref" payload == Some (ReferenceV1.as_str (AuditRow.actor_ref row)))
  && (get_str "caller_ref" payload == Some (ReferenceV1.as_str (AuditRow.caller_ref row)))
  && (get_str "correlation_ref" payload == Some (ReferenceV1.as_str (AuditRow.correlation_ref row)))
  && (get_str "causation_ref" payload == Some (ReferenceV1.as_str (AuditRow.causation_ref row)))
  && (get_str "policy_revision_ref" payload == Some (ReferenceV1.as_str (AuditRow.policy_revision_ref row)))
  && (get (txt "contract_refs") payload == Some (AuditRow.contract_refs row))
  && (get (txt "proof_refs") payload == Some (AuditRow.proof_refs row)).

(** The last hash of every tenant met so far *)
Definition verify_audit_row (row : AuditRow.t) (tenant_roots : gmap ReferenceV1.t text) : Chain (gmap ReferenceV1.t text) :=
  let expected_previous := default genesis_hash (tenant_roots !! AuditRow.tenant_ref row) in
  reject negb (columns_match row expected_previous) with IdrRuntimeErrorV1.IntegrityViolation;
  computed ← hash_event_v1 (AuditRow.previous_hash row) (AuditRow.payload row);
  reject computed != AuditRow.event_hash row with IdrRuntimeErrorV1.IntegrityViolation;
  Ok (<[AuditRow.tenant_ref row := AuditRow.event_hash row]> tenant_roots).

(** [ORDER BY tenant_ref, sequence] *)
Definition verify_audit_rows (events : list AuditRow.t) : Chain (gmap ReferenceV1.t text) :=
  insert_each verify_audit_row (sort_by (fun row => (AuditRow.tenant_ref row, AuditRow.sequence row)) events) ∅.

(** ** Runs *)

Definition find_record (db : Database.t) (n : Node) : option ContractRow.t :=
  find_first (fun row => row_node row == n) (Database.records db).

(** [record.pointer("/payload/proof_bindings")] *)
Definition stored_bindings (record : Value) : option Value :=
  get (txt "payload") record ≫= get (txt "proof_bindings").

Definition verify_action_admission_projection (db : Database.t) (projection : IdrRunProjectionV1.t) : Chain unit :=
  match IdrRunProjectionV1.action_admission projection with
  | None => Ok tt
  | Some admission =>
      let bindings := ActionAdmissionProjectionV1.proof_bindings admission in
      reject negb (N.of_nat (size bindings) =? lenN ACTION_ADMISSION_PROOF_KINDS_V1)
             || match bindings !! ProductionProofKindV1.ExactAuthorization with
                | None => true
                | Some binding =>
                    (ActionAdmissionProofBindingV1.proof_id binding != ActionAdmissionProjectionV1.exact_authorization_proof_id admission)
                    || negb (ActionAdmissionProofBindingV1.valid_until binding =? ActionAdmissionProjectionV1.authorization_valid_until admission)
                end
        with IdrRuntimeErrorV1.IntegrityViolation;
      _ ← i64_from_u64 (AuthoritativeRecordRefV1.revision (ActionAdmissionProjectionV1.admission_ref admission));
      row ← ok_or IdrRuntimeErrorV1.IntegrityViolation (find_record db (node (ActionAdmissionProjectionV1.admission_ref admission)));
      let record := ContractRow.record row in
      ids ← ok_or IdrRuntimeErrorV1.IntegrityViolation (get (txt "proof_ids") record ≫= as_array);
      record_proof_ids ← collect_map (fun id => ok_or IdrRuntimeErrorV1.IntegrityViolation (as_str id ≫= parse_uuid)) ids;
      let projected_proof_ids : gset Uuid :=
        list_to_set (map (fun binding : ProductionProofKindV1.t * ActionAdmissionProofBindingV1.t => ActionAdmissionProofBindingV1.proof_id binding.2)
          (map_to_list bindings)) in
      reject negb (N.of_nat (size projected_proof_ids) =? lenN ACTION_ADMISSION_PROOF_KINDS_V1)
             || ((list_to_set record_proof_ids : gset Uuid) != projected_proof_ids)
             || (stored_bindings record != Some (to_value (proof_bindings_json bindings)))
        with IdrRuntimeErrorV1.IntegrityViolation;
      Ok tt
  end.

Definition reservation_matches (row : ReservationRow.t) (fence : FenceRow.t) (projection : IdrRunProjectionV1.t) (execution : ExecutionProjectionV1.t)
    (fence_digest : text) : bool :=
  (ReservationRow.reservation_id row == ExecutionProjectionV1.reservation_id execution)
  && (ReservationRow.fence_id row == ExecutionProjectionV1.reservation_id execution)
  && (ReservationRow.run_id row == IdrRunProjectionV1.run_id projection)
  && (ReservationRow.tenant_ref row == IdrRunProjectionV1.tenant_ref projection)
  && (ReservationRow.action row == node (ExecutionProjectionV1.action_ref execution))
  && (ReservationRow.action_admission row == node (ExecutionProjectionV1.action_admission_ref execution))
  && (ReservationRow.operation_ref row == ExecutionProjectionV1.operation_ref execution)
  && (ReservationRow.idempotency_key row == ExecutionProjectionV1.idempotency_key execution)
  && (ReservationRow.provider_ref row == ExecutionProjectionV1.provider_ref execution)
  && (ReservationRow.owner_ref row == ExecutionProjectionV1.owner_ref execution)
  && (ReservationRow.state row == ExecutionProjectionV1.state execution)
  && (ReservationRow.aggregate_version row =? IdrRunProjectionV1.aggregate_version projection)
  && (ReservationRow.action_digest row == AuthoritativeRecordRefV1.record_digest (ExecutionProjectionV1.action_ref execution))
  && (ReservationRow.parameter_digest row == ExecutionProjectionV1.parameter_digest execution)
  && (ReservationRow.request_digest row == ExecutionProjectionV1.request_digest execution)
  && (ReservationRow.exact_authorization_proof_id row == ExecutionProjectionV1.exact_authorization_proof_id execution)
  && (ReservationRow.action_valid_until row =? ExecutionProjectionV1.action_valid_until execution)
  && (ReservationRow.admission_valid_until row =? ExecutionProjectionV1.admission_valid_until execution)
  && (ReservationRow.authorization_valid_until row =? ExecutionProjectionV1.authorization_valid_until execution)
  && (FenceRow.trust_domain fence == IdrRunProjectionV1.trust_domain projection)
  && (FenceRow.environment_ref fence == IdrRunProjectionV1.environment_ref projection)
  && (FenceRow.tenant_ref fence == IdrRunProjectionV1.tenant_ref projection)
  && (FenceRow.operation_ref fence == ExecutionProjectionV1.operation_ref execution)
  && (FenceRow.idempotency_key fence == ExecutionProjectionV1.idempotency_key execution)
  && (FenceRow.first_run_id fence == IdrRunProjectionV1.run_id projection)
  && (FenceRow.first_action fence == node (ExecutionProjectionV1.action_ref execution))
  && (FenceRow.first_action_digest fence == AuthoritativeRecordRefV1.record_digest (ExecutionProjectionV1.action_ref execution))
  && (FenceRow.fence_digest fence == fence_digest).

Definition attempt_matches (row : AttemptRow.t) (execution : ExecutionProjectionV1.t) : bool :=
  (AttemptRow.reservation_id row == ExecutionProjectionV1.reservation_id execution)
  && (AttemptRow.attempt row =? ExecutionProjectionV1.attempt execution)
  && (AttemptRow.permit_id row == ExecutionProjectionV1.permit_id execution)
  && (AttemptRow.dispatch_nonce row == ExecutionProjectionV1.dispatch_nonce execution)
  && (AttemptRow.lease_until row =? ExecutionProjectionV1.lease_until execution)
  && (AttemptRow.permit_valid_until row =? ExecutionProjectionV1.permit_valid_until execution)
  && (AttemptRow.state row == ExecutionProjectionV1.state execution)
  && (AttemptRow.provider_ref row == ExecutionProjectionV1.provider_ref execution)
  && (AttemptRow.owner_ref row == ExecutionProjectionV1.owner_ref execution).

Definition verify_current_execution_projection (db : Database.t) (projection : IdrRunProjectionV1.t) : Chain unit :=
  match IdrRunProjectionV1.execution projection with
  | None => Ok tt
  | Some execution =>
      row ← ok_or IdrRuntimeErrorV1.IntegrityViolation (Database.reservations db !! ExecutionProjectionV1.reservation_id execution);
      fence ← ok_or IdrRuntimeErrorV1.IntegrityViolation
        (find_first (fun fence => FenceRow.fence_id fence == ReservationRow.fence_id row) (Database.fences db));
      digest ← idempotency_fence_digest_v1 projection execution;
      reject negb (reservation_matches row fence projection execution digest) with IdrRuntimeErrorV1.IntegrityViolation;
      reject i32_max <? ExecutionProjectionV1.attempt execution with IdrRuntimeErrorV1.SerializationFailed;
      attempt ← ok_or IdrRuntimeErrorV1.IntegrityViolation
        (find_first (fun row => (AttemptRow.reservation_id row == ExecutionProjectionV1.reservation_id execution)
                                && (AttemptRow.attempt row =? ExecutionProjectionV1.attempt execution)) (Database.attempts db));
      reject negb (attempt_matches attempt execution) with IdrRuntimeErrorV1.IntegrityViolation;
      Ok tt
  end.

Definition verify_run_row (db : Database.t) (run : Uuid) (row : RunRow.t) : Chain unit :=
  let projection := RunRow.projection row in
  computed ← projection_digest_v1 projection;
  reject (RunRow.trust_domain row != own_domain security) || (RunRow.environment_ref row != own_environment security)
         || (IdrRunProjectionV1.trust_domain projection != RunRow.trust_domain row)
         || (IdrRunProjectionV1.environment_ref projection != RunRow.environment_ref row)
         || (computed != RunRow.projection_digest row)
         || (audited_digest run db != Some (RunRow.projection_digest row))
    with IdrRuntimeErrorV1.IntegrityViolation;
  _ ← verify_action_admission_projection db projection;
  verify_current_execution_projection db projection.

(** ** Records, proofs and current records *)

Definition verify_contract_row (row : ContractRow.t) : Chain unit :=
  let record := ContractRow.record row in
  reference ← verify_authoritative_record_value_v1 from_value record;
  reject (AuthoritativeRecordRefV1.record_id reference != ContractRow.record_id row) || negb (AuthoritativeRecordRefV1.revision reference =? ContractRow.revision row)
         || (AuthoritativeRecordRefV1.candidate_kind reference != ContractRow.candidate_kind row)
         || (AuthoritativeRecordRefV1.trust_domain reference != own_domain security) || (AuthoritativeRecordRefV1.trust_domain reference != ContractRow.trust_domain row)
         || (AuthoritativeRecordRefV1.environment_ref reference != own_environment security)
         || (AuthoritativeRecordRefV1.environment_ref reference != ContractRow.environment_ref row)
         || negb (AuthoritativeRecordRefV1.valid_from reference =? ContractRow.valid_from row)
         || negb (AuthoritativeRecordRefV1.valid_until reference =? ContractRow.valid_until row)
         || (AuthoritativeRecordRefV1.record_digest reference != ContractRow.record_digest row)
         || (get_str "run_id" record != Some (uuid_hyphenated (ContractRow.run_id row)))
         || (get_str "tenant_ref" record != Some (ReferenceV1.as_str (ContractRow.tenant_ref row)))
         || (get_str "subject_ref" record != Some (ReferenceV1.as_str (ContractRow.subject_ref row)))
    with IdrRuntimeErrorV1.IntegrityViolation;
  Ok tt.

Definition verify_proof_row (row : EnvelopeRow.t) : Chain unit :=
  let envelope := EnvelopeRow.envelope row in
  let claims := ProductionProofEnvelopeV1.claims envelope in
  _ ← map_err (fun _ => IdrRuntimeErrorV1.IntegrityViolation) (ProductionProofEnvelopeV1.validate_shape envelope);
  reject (ProductionProofClaimsV1.proof_id claims != EnvelopeRow.proof_id row)
         || (ProductionProofClaimsV1.trust_domain claims != EnvelopeRow.trust_domain row)
         || (ProductionProofClaimsV1.environment_ref claims != EnvelopeRow.environment_ref row)
         || (ProductionProofClaimsV1.proof_kind claims != EnvelopeRow.proof_kind row)
         || (ProductionProofClaimsV1.issuer_ref claims != EnvelopeRow.issuer_ref row)
         || (ProductionProofEnvelopeV1.key_id envelope != EnvelopeRow.key_id row)
         || (ProductionProofClaimsV1.tenant_ref claims != EnvelopeRow.tenant_ref row)
         || (ProductionProofClaimsV1.subject_ref claims != EnvelopeRow.subject_ref row)
         || (ProductionProofClaimsV1.subject_digest claims != EnvelopeRow.subject_digest row)
         || (ProductionProofClaimsV1.nonce claims != EnvelopeRow.nonce row)
    with IdrRuntimeErrorV1.IntegrityViolation;
  Ok tt.

(** Current rows are joined with their run. *)
Definition verify_current_row (db : Database.t) (slot : Uuid * CandidateKindV1.t) (row : CurrentRow.t) : Chain unit :=
  match Database.runs db !! slot.1 with
  | None => Ok tt
  | Some run =>
      expected ← ok_or IdrRuntimeErrorV1.IntegrityViolation (IdrRunProjectionV1.records (RunRow.projection run) !! slot.2);
      reject (CurrentRow.trust_domain row != own_domain security) || (CurrentRow.environment_ref row != own_environment security)
             || (AuthoritativeRecordRefV1.record_id expected != CurrentRow.record_id row) || negb (AuthoritativeRecordRefV1.revision expected =? CurrentRow.revision row)
             || (AuthoritativeRecordRefV1.record_digest expected != CurrentRow.record_digest row)
        with IdrRuntimeErrorV1.IntegrityViolation;
      Ok tt
  end.

(** ** Relations *)

Definition dependency_mismatch (db : Database.t) : bool :=
  existsb (fun dependency =>
    existsb (fun dependent => (row_node dependent == DependencyRow.dependent dependency) &&
      existsb (fun source => (row_node source == DependencyRow.dependency dependency)
        && ((DependencyRow.dependency_digest dependency != ContractRow.record_digest source)
            || (ContractRow.trust_domain dependent != ContractRow.trust_domain source)
            || (ContractRow.environment_ref dependent != ContractRow.environment_ref source)
            || (ContractRow.run_id dependent != ContractRow.run_id source))) (Database.records db))
      (Database.records db)) (Database.dependencies db).

Definition current_mismatch (db : Database.t) : bool :=
  existsb (fun run : Uuid * RunRow.t =>
    existsb (fun record : CandidateKindV1.t * AuthoritativeRecordRefV1.t =>
      match Database.current db !! (run.1, record.1) with
      | None => true
      | Some row =>
          (CurrentRow.record_id row != AuthoritativeRecordRefV1.record_id record.2) || negb (CurrentRow.revision row =? AuthoritativeRecordRefV1.revision record.2)
          || (CurrentRow.record_digest row != AuthoritativeRecordRefV1.record_digest record.2)
          || (CurrentRow.trust_domain row != AuthoritativeRecordRefV1.trust_domain record.2)
          || (CurrentRow.environment_ref row != AuthoritativeRecordRefV1.environment_ref record.2)
      end) (map_to_list (IdrRunProjectionV1.records (RunRow.projection run.2)))) (map_to_list (Database.runs db)).

Definition consumption_mismatch (db : Database.t) : bool :=
  existsb (fun proof =>
    let joined := filter (fun c => consumed_proof c = EnvelopeRow.proof_id proof) (Database.consumptions db) in
    is_nil joined
    || existsb (fun c => (EnvelopeRow.trust_domain proof != consumed_domain c)
                         || (EnvelopeRow.environment_ref proof != consumed_environment c)
                         || (EnvelopeRow.nonce proof != consumed_nonce c)) joined) (Database.envelopes db).

(** [jsonb_array_elements_text(contract.record #> '{proof_ids}')]; a text that is no
    UUID fails the query. *)
Definition proof_ids_mismatch (db : Database.t) : bool :=
  existsb (fun contract =>
    existsb (fun id =>
      match as_str id ≫= parse_uuid with
      | None => true
      | Some id =>
          let joined := filter (fun proof => EnvelopeRow.proof_id proof = id) (Database.envelopes db) in
          is_nil joined
          || existsb (fun proof => (EnvelopeRow.trust_domain proof != ContractRow.trust_domain contract)
                                   || (EnvelopeRow.environment_ref proof != ContractRow.environment_ref contract)) joined
      end) (default [] (get (txt "proof_ids") (ContractRow.record contract) ≫= as_array))) (Database.records db).

Definition reservation_mismatch (db : Database.t) : bool :=
  existsb (fun entry : Uuid * ReservationRow.t =>
    let execution := entry.2 in
    match find_record db (ReservationRow.action execution), find_record db (ReservationRow.action_admission execution),
          find_first (fun proof => EnvelopeRow.proof_id proof == ReservationRow.exact_authorization_proof_id execution)
            (Database.envelopes db),
          find_first (fun fence => FenceRow.fence_id fence == ReservationRow.fence_id execution) (Database.fences db) with
    | Some action, Some admission, Some auth_proof, Some fence =>
        (ContractRow.record_digest action != ReservationRow.action_digest execution)
        || negb (ContractRow.valid_until action =? ReservationRow.action_valid_until execution)
        || negb (ContractRow.valid_until admission =? ReservationRow.admission_valid_until execution)
        || (EnvelopeRow.proof_kind auth_proof != ProductionProofKindV1.ExactAuthorization)
        || negb (ProductionProofClaimsV1.expires_at (ProductionProofEnvelopeV1.claims (EnvelopeRow.envelope auth_proof))
                   =? ReservationRow.authorization_valid_until execution)
        || (ReservationRow.fence_id execution != ReservationRow.reservation_id execution)
        || (FenceRow.trust_domain fence != ContractRow.trust_domain action)
        || (FenceRow.environment_ref fence != ContractRow.environment_ref action)
        || (FenceRow.tenant_ref fence != ReservationRow.tenant_ref execution)
        || (FenceRow.operation_ref fence != ReservationRow.operation_ref execution)
        || (FenceRow.idempotency_key fence != ReservationRow.idempotency_key execution)
        || (FenceRow.first_run_id fence != ReservationRow.run_id execution)
        || (FenceRow.first_action fence != ReservationRow.action execution)
        || (FenceRow.first_action_digest fence != ReservationRow.action_digest execution)
    | _, _, _, _ => false
    end) (map_to_list (Database.reservations db)).

(** [IS DISTINCT FROM contract.record] *)
Definition copy_mismatch (db : Database.t) : bool :=
  existsb (fun copy : Node * Value =>
      existsb (fun contract => (row_node contract == copy.1) && (copy.2 != ContractRow.record contract)) (Database.records db))
    (copies (Database.specialized db)).

Definition relational_mismatch (db : Database.t) : bool :=
  dependency_mismatch db || current_mismatch db || consumption_mismatch db || proof_ids_mismatch db || reservation_mismatch db
  || copy_mismatch db.

(** ** Checkpoints *)

(** [DISTINCT ON (tenant_ref) ... ORDER BY tenant_ref, audit_sequence DESC] *)
Definition latest_of_tenants (checkpoints : list AuditCheckpointV1.t) : list AuditCheckpointV1.t :=
  filter (fun c => forallb (fun other => negb (AuditCheckpointV1.tenant_ref other == AuditCheckpointV1.tenant_ref c)
    || (AuditCheckpointV1.audit_sequence other <=? AuditCheckpointV1.audit_sequence c)%Z) checkpoints = true) checkpoints.

Definition verify_checkpoint (db : Database.t) (c : AuditCheckpointV1.t) : Chain unit :=
  let tenant := ReferenceV1.mk (AuditCheckpointV1.tenant_ref c) in
  record_set_root ← record_set_root_for_tenant db tenant;
  reject AuditCheckpointV1.record_set_root c != record_set_root with IdrRuntimeErrorV1.IntegrityViolation;
  execution_state_root ← execution_state_root_for_tenant db tenant;
  reject AuditCheckpointV1.execution_state_root c != execution_state_root with IdrRuntimeErrorV1.IntegrityViolation;
  Ok tt.

(** ** Attestations and receipts *)

Definition verify_receipt_row (row : ReceiptRow.t) : Chain unit :=
  let receipt := ReceiptRow.receipt row in
  reject IdrCommandReceiptV1.attestation_id receipt != ReceiptRow.idr_attestation_id row with IdrRuntimeErrorV1.IntegrityViolation;
  receipt_mac ← command_receipt_mac key receipt;
  reject receipt_mac != ReceiptRow.receipt_mac row with IdrRuntimeErrorV1.IntegrityViolation;
  Ok tt.

(** A receipt of an attestation must be that of the attested command and event. *)
Definition forged_receipt (db : Database.t) (command_id : Uuid) (row : ReceiptRow.t) : bool :=
  let receipt := ReceiptRow.receipt row in
  existsb (fun entry => (Attestation.attestation_id entry.1 == ReceiptRow.idr_attestation_id row) &&
    ((command_id != Attestation.command_id entry.1) || (ReceiptRow.run_id row != Attestation.run_id entry.1)
     || (ReferenceV1.as_str (ReceiptRow.tenant_ref row) != Attestation.tenant_ref entry.1)
     || (ReceiptRow.command_digest row != Attestation.command_digest entry.1)
     || (IdrCommandReceiptV1.attestation_id receipt != ReceiptRow.idr_attestation_id row)
     || negb (existsb (fun event =>
          (AuditRow.global_sequence event =? IdrCommandReceiptV1.event_sequence receipt)
          && (AuditRow.run_id event == ReceiptRow.run_id row)
          && (AuditRow.aggregate_version event =? IdrCommandReceiptV1.aggregate_version receipt)
          && (AuditRow.idr_attestation_id event == ReceiptRow.idr_attestation_id row)
          && (get_str "command_id" (AuditRow.payload event) == Some (uuid_hyphenated command_id))
          && (get_str "command_digest" (AuditRow.payload event) == Some (ReceiptRow.command_digest row))
          && existsb (fun c => (AuditCheckpointV1.audit_sequence c =? AuditRow.sequence event)%Z
                               && (AuditCheckpointV1.tenant_ref c == ReferenceV1.as_str (ReceiptRow.tenant_ref row)))
               (Database.checkpoints db)) (Database.events db)))) (Database.attestations db).

Definition verify_all_orchestrator_attestations (db : Database.t) : Chain unit :=
  _ ← for_each (fun row => _ ← Attestation.verify_row security key key_version row.1 row.2; Ok tt) (Database.attestations db);
  _ ← for_each (fun entry : Uuid * ReceiptRow.t => verify_receipt_row entry.2) (map_to_list (Database.receipts db));
  reject existsb (fun entry : Uuid * ReceiptRow.t => forged_receipt db entry.1 entry.2) (map_to_list (Database.receipts db))
    with IdrRuntimeErrorV1.IntegrityViolation;
  Ok tt.

(** ** The database *)

Definition verify_database_integrity (db : Database.t) : Chain unit :=
  _ ← verify_all_orchestrator_attestations db;
  _ ← verify_audit_rows (Database.events db);
  _ ← for_each (fun entry : Uuid * RunRow.t => verify_run_row db entry.1 entry.2) (map_to_list (Database.runs db));
  _ ← for_each verify_contract_row (sort_by row_node (Database.records db));
  _ ← for_each verify_proof_row (sort_by EnvelopeRow.proof_id (Database.envelopes db));
  _ ← for_each (fun entry : Uuid * CandidateKindV1.t * CurrentRow.t => verify_current_row db entry.1 entry.2) (map_to_list (Database.current db));
  reject relational_mismatch db with IdrRuntimeErrorV1.IntegrityViolation;
  for_each (verify_checkpoint db) (latest_of_tenants (Database.checkpoints db)).

(** [SELECT DISTINCT tenant_ref FROM idr_runs] *)
Definition tenants (db : Database.t) : list ReferenceV1.t :=
  sort (remove_dups (map (fun entry : Uuid * RunRow.t => IdrRunProjectionV1.tenant_ref (RunRow.projection entry.2)) (map_to_list (Database.runs db)))).

(** [verify_external_anchor]: every tenant's latest checkpoint against the anchor *)
Definition verify_external_anchor {S} `{AnchorBackend S} (db : Database.t) (anchor : S) : Chain S :=
  _ ← verify_database_integrity db;
  insert_each (fun tenant => verify_tenant_anchor (own_domain security) (ReferenceV1.as_str (own_environment security))
      (ReferenceV1.as_str tenant) (latest_checkpoint_for_tenant security db tenant))
    (tenants db) anchor.
End verify.
