(* ===== verification/LedgerProps.v ===== *)
(** * LedgerProps: what the orchestrator's transaction guarantees

    [transact_inner] step by step: which tables an accepted command writes and how.
    The database refines the tables of [Authority]: what holds of every sequence of
    accepted commands there holds of the database ([ledger_refines_authority]). *)

From stdpp Require Import base list gmap fin_sets countable sorting strings.
From Stdlib Require Import NArith ZArith Lia.
From S2P Require Import Prelude Text Json Crates CanonicalJson Common Production ProductionProps ChainData ChainCommand ChainPayload ChainTransition ChainEvaluate ChainRepository Authority ChainProps ChainExecution AuthorityProps LedgerData Copies Ledger.

(** ** The tables one at a time *)

(** The tables of a database given table by table *)
Ltac tables := lazy beta iota delta [
    Database.with_runs Database.runs
    Database.with_steps Database.steps
    Database.with_records Database.records
    Database.with_current Database.current
    Database.with_dependencies Database.dependencies
    Database.with_invalidations Database.invalidations
    Database.with_envelopes Database.envelopes
    Database.with_consumptions Database.consumptions
    Database.with_fences Database.fences
    Database.with_reservations Database.reservations
    Database.with_attempts Database.attempts
    Database.with_events Database.events
    Database.with_receipts Database.receipts
    Database.with_checkpoints Database.checkpoints
    Database.with_attestations Database.attestations
    Database.with_specialized Database.specialized] in *.

Lemma insert_each_app {A T} (insert : A -> T -> Chain T) rows rows' table table' :
  insert_each insert (rows ++ rows') table = Ok table' <->
  exists middle, insert_each insert rows table = Ok middle /\ insert_each insert rows' middle = Ok table'.
Proof.
  revert table. induction rows as [|row rows IH]; intros table; cbn [insert_each app].
  { split; [eauto|by intros (? & [= <-] & ?)]. }
  rewrite bind_Ok. setoid_rewrite IH. setoid_rewrite bind_Ok. firstorder.
Qed.

(** A relation kept by every insertion is kept by the loop. *)
Lemma insert_each_invariant {A T} (R : T -> T -> Prop) (insert : A -> T -> Chain T) rows table table' :
  (forall t, R t t) -> (forall t t' t'', R t t' -> R t' t'' -> R t t'') ->
  (forall row t t', row ∈ rows -> insert row t = Ok t' -> R t t') ->
  insert_each insert rows table = Ok table' -> R table table'.
Proof.
  intros Hrefl Htrans. revert table. induction rows as [|row rows IH]; intros table Hi; cbn [insert_each].
  { intros [= <-]. apply Hrefl. }
  intros (middle & Hm & H)%bind_Ok. eapply Htrans; [by eapply Hi; [left|]|].
  eapply IH; [|exact H]. intros row' t t' Hin. apply Hi. by right.
Qed.

Lemma i64_from_u64_Ok n z : i64_from_u64 n = Ok z <-> n <= i64_max /\ z = Z.of_N n.
Proof.
  unfold i64_from_u64. destruct (n <=? i64_max) eqn:Hn.
  - apply N.leb_le in Hn. split; [by intros [= <-]|by intros [_ ->]].
  - apply N.leb_gt in Hn. split; [done|lia].
Qed.

(** The fences a reservation may find: the one it was given first, or none. *)
Record fenced (old : list FenceRow.t) (fence : FenceRow.t) (new : list FenceRow.t) : Prop := {
  fn_grows : new = old \/
    new = old ++ [fence] /\ forall f, f ∈ old -> FenceRow.fence_id f <> FenceRow.fence_id fence /\ fence_key f <> fence_key fence;
  fn_held : exists f, f ∈ new /\ FenceRow.fence_id f = FenceRow.fence_id fence /\
    FenceRow.idempotency_key f = FenceRow.idempotency_key fence /\ fence_tuple f = fence_tuple fence;
}.

Lemma persist_fence_Ok fence db db' :
  persist_fence fence db = Ok db' ->
  exists fences, db' = Database.with_fences fences db /\ fenced (Database.fences db) fence fences.
Proof.
  unfold persist_fence. cbv zeta. intros (f & [Hin Hf]%ok_or_Ok%find_first_Some & H)%bind_Ok.
  apply reject_Ok in H as [Ht [= <-]]. eexists. split; [reflexivity|].
  apply andb_true_iff in Hf as [Hid%bool_decide_eq_true Hkey%bool_decide_eq_true].
  apply negb_false_iff, bool_decide_eq_true in Ht.
  split; [|exists f; split_and!; done].
  destruct (existsb _ _) eqn:Htaken; [by left|]. right. split; [done|]. apply existsb_false in Htaken.
  rewrite Forall_forall in Htaken. intros f' Hf'. specialize (Htaken f' Hf').
  by apply orb_false_iff in Htaken as [?%bool_decide_eq_false ?%bool_decide_eq_false].
Qed.

(** The row a reservation has afterwards: the new one, or the old one moved on. *)
Record reserved (governance : bool) (clock : N) (old : gmap Uuid ReservationRow.t) (row : ReservationRow.t)
    (new : gmap Uuid ReservationRow.t) : Prop := {
  rv_live : reservation_authority_lapsed (ReservationRow.action_valid_until row) (ReservationRow.admission_valid_until row)
    (ReservationRow.authorization_valid_until row) clock = false;
  rv_row : exists row', new = <[ReservationRow.reservation_id row := row']> old /\
    (old !! ReservationRow.reservation_id row = None /\ row' = row \/
     exists before, old !! ReservationRow.reservation_id row = Some before /\
       ReservationRow.aggregate_version row = ReservationRow.aggregate_version before + 1 /\
       execution_state_transition_allowed governance (ReservationRow.state before) (ReservationRow.state row) = true /\
       row' = ReservationRow.update (ReservationRow.state row) (ReservationRow.aggregate_version row)
                (ReservationRow.updated_at_micros row) before);
}.

Lemma persist_reservation_Ok governance clock row db db' :
  persist_reservation governance clock row db = Ok db' ->
  exists reservations, db' = Database.with_reservations reservations db /\
    reserved governance clock (Database.reservations db) row reservations.
Proof.
  unfold persist_reservation. cbv zeta. intros [_ H]%bind_unit_Ok. apply reject_Ok in H as [Hl H].
  destruct (Database.reservations db !! ReservationRow.reservation_id row) as [before|] eqn:Hb.
  - apply reject_Ok in H as [[Hv%negb_false_iff Ha%negb_false_iff]%orb_false_iff [= <-]].
    apply N.eqb_eq in Hv. eexists. split; [reflexivity|]. split; [done|]. eexists. split; [reflexivity|].
    right. by exists before.
  - injection H as <-. eexists. split; [reflexivity|]. split; [done|]. eexists. split; [reflexivity|]. by left.
Qed.

Lemma persist_attempt_Ok governance row db db' :
  persist_attempt governance row db = Ok db' -> exists attempts, db' = Database.with_attempts attempts db.
Proof.
  unfold persist_attempt. cbv zeta. intros [_ H]%reject_Ok. apply bind_unit_Ok in H as [_ H].
  apply reject_Ok in H as [_ H]. destruct (existsb (attempts_clash row) _).
  - apply reject_Ok in H as [_ H]. apply reject_Ok in H as [_ [= <-]]. by eexists.
  - injection H as <-. by eexists.
Qed.

Section persisted.
Context {C : Crates} (security : PostgresSecurityContextV1.t).

(** The rows of an execution. *)
Record execution_written (session : Session.t) (governance : bool) (q : IdrRunProjectionV1.t) (e : ExecutionProjectionV1.t) (db db' : Database.t) : Prop := {
  ew_fence : exists digest, idempotency_fence_digest_v1 q e = Ok digest /\
    fenced (Database.fences db) (fence_row q e digest (Session.micros session)) (Database.fences db');
  ew_reservation : reserved governance (Session.clock session) (Database.reservations db)
    (reservation_row q e (Session.micros session)) (Database.reservations db');
}.

Lemma persist_execution_Ok session t db db' :
  persist_execution session t db = Ok db' ->
  exists invalidations fences reservations attempts,
    db' = Database.with_attempts attempts (Database.with_reservations reservations
            (Database.with_fences fences (Database.with_invalidations invalidations db))) /\
    invalidations = Database.invalidations db ∪ set_map node (IdrRunProjectionV1.invalidated_records (IdrTransitionV1.projection t)) /\
    match IdrRunProjectionV1.execution (IdrTransitionV1.projection t) with
    | Some e => execution_written session (is_governance t) (IdrTransitionV1.projection t) e db db'
    | None => fences = Database.fences db /\ reservations = Database.reservations db /\ attempts = Database.attempts db
    end.
Proof.
  unfold persist_execution. cbv zeta.
  destruct (IdrRunProjectionV1.execution (IdrTransitionV1.projection t)) as [e|].
  - intros (digest & Hd & (db1 & (fences & -> & Hf)%persist_fence_Ok & H)%bind_Ok)%bind_Ok.
    apply bind_Ok in H as (db2 & (reservations & -> & Hr)%persist_reservation_Ok & (attempts & ->)%persist_attempt_Ok).
    do 4 eexists. split_and!; [reflexivity|reflexivity|]. split; [by exists digest|exact Hr].
  - intros [= <-]. do 4 eexists. split_and!; [|reflexivity..]. by destruct db.
Qed.

(** The copies an accepted command leaves. *)
Definition specialized_written (command : IdrCommandEnvelopeV1.t) (t : IdrTransitionV1.t) (s : Specialized.t) (db' : Database.t) : Prop :=
  exists sends, persist_response_send (Database.records db') command s = Ok sends /\
    persist_domain_row (Database.records db') (Database.envelopes db') (Database.attempts db') (Database.reservations db')
      command t sends = Ok (Database.specialized db').

Lemma persist_specialized_Ok session command t db db' :
  persist_specialized_projection session command t db = Ok db' ->
  exists sends middle copied, persist_response_send (Database.records db) command (Database.specialized db) = Ok sends /\
    persist_execution session t (Database.with_specialized sends db) = Ok middle /\
    persist_domain_row (Database.records middle) (Database.envelopes middle) (Database.attempts middle)
      (Database.reservations middle) command t (Database.specialized middle) = Ok copied /\
    db' = Database.with_specialized copied middle.
Proof.
  intros (sends & Hs & (middle & He & (copied & Hc & [= <-])%bind_Ok)%bind_Ok)%bind_Ok.
  by exists sends, middle, copied.
Qed.

Lemma upsert_run_Ok q digest db db' :
  upsert_run q digest db = Ok db' ->
  db' = Database.with_runs (<[IdrRunProjectionV1.run_id q := RunRow.mk (IdrRunProjectionV1.trust_domain q) (IdrRunProjectionV1.environment_ref q) q digest]>
          (Database.runs db)) db /\
  forall row, Database.runs db !! IdrRunProjectionV1.run_id q = Some row ->
    IdrRunProjectionV1.aggregate_version q = IdrRunProjectionV1.aggregate_version (RunRow.projection row) + 1.
Proof.
  unfold upsert_run. cbv zeta. intros (_ & _ & (_ & _ & H)%bind_Ok)%bind_Ok. apply reject_Ok in H as [Hr [= <-]].
  split; [done|]. intros row Hrow. rewrite Hrow in Hr.
  apply orb_false_iff in Hr as [_ Hv%negb_false_iff]. by apply N.eqb_eq in Hv.
Qed.

Lemma persist_authoritative_record_Ok record q db db' :
  persist_authoritative_record record q db = Ok db' ->
  exists current records, db' = Database.with_current current (Database.with_records records db) /\
    match record with
    | None => current = Database.current db /\ records = Database.records db
    | Some record =>
        let row := contract_row record in
        records = Database.records db ++ [row] /\
        ContractRow.revision row = contiguous_revision (ContractRow.record_id row) (Database.records db) /\
        current = <[(IdrRunProjectionV1.run_id q, ContractRow.candidate_kind row) :=
          CurrentRow.mk (IdrRunProjectionV1.trust_domain q) (IdrRunProjectionV1.environment_ref q) (ContractRow.record_id row)
            (ContractRow.revision row) (ContractRow.record_digest row)]> (Database.current db)
    end.
Proof.
  unfold persist_authoritative_record. destruct record as [record|].
  - cbv zeta. intros [_ H]%bind_unit_Ok. apply reject_Ok in H as [[Hr%negb_false_iff _]%orb_false_iff H].
    apply N.eqb_eq in Hr. apply reject_Ok in H as [_ [= <-]]. do 2 eexists. split; [reflexivity|]. split_and!; [reflexivity|exact Hr|reflexivity].
  - intros [= <-]. do 2 eexists. split; [|split; reflexivity]. by destruct db.
Qed.

Lemma persist_contract_dependencies_Ok command t db db' :
  persist_contract_dependencies command t db = Ok db' ->
  exists dependencies, db' = Database.with_dependencies dependencies db.
Proof.
  unfold persist_contract_dependencies. destruct (IdrTransitionV1.authoritative_record t) as [record|].
  - cbv zeta. intros (previous & _ & H)%bind_Ok. apply bind_unit_Ok in H as [_ H].
    apply bind_Ok in H as (rows & _ & [= <-]). exists rows. reflexivity.
  - intros [= <-]. exists (Database.dependencies db). by destruct db.
Qed.

Lemma insert_proofs_Ok command rows db db' :
  insert_each (insert_proof security command) rows db = Ok db' ->
  db' = Database.with_consumptions (Database.consumptions db ++ map (consumption_row security command) rows)
          (Database.with_envelopes (Database.envelopes db ++ rows) db).
Proof.
  revert db. induction rows as [|row rows IH]; intros db; cbn [insert_each map].
  { intros [= <-]. rewrite !app_nil_r. by destruct db. }
  unfold insert_proof at 1. cbv zeta. intros (db1 & H%reject_Ok & H')%bind_Ok. destruct H as [_ [= <-]].
  apply IH in H' as ->. cbn. by rewrite <- !app_assoc.
Qed.

Lemma persist_proofs_Ok command verified root_version root_digest now db db' :
  length verified = length (IdrCommandEnvelopeV1.proofs command) ->
  persist_proofs security command verified root_version root_digest now db = Ok db' ->
  db' = Database.with_consumptions (persist_proof_consumptions security command verified (Database.consumptions db))
          (Database.with_envelopes (Database.envelopes db
             ++ zip_with (envelope_row security command root_version root_digest now) (IdrCommandEnvelopeV1.proofs command) verified) db).
Proof.
  unfold persist_proofs. intros Hlen [_ ->%insert_proofs_Ok]%bind_unit_Ok. f_equal.
  unfold persist_proof_consumptions. f_equal. revert verified Hlen. generalize (IdrCommandEnvelopeV1.proofs command) as es.
  induction es as [|e es IH]; intros [|v vs] Hlen; try done. cbn. f_equal. apply IH. by injection Hlen.
Qed.

Lemma persist_event_Ok session command t command_digest projection_digest db db' :
  persist_event security session command t command_digest projection_digest db = Ok db' ->
  let payload := audit_payload security command t command_digest projection_digest in
  let previous := previous_hash (IdrCommandEnvelopeV1.tenant_ref command) db in
  exists hash, hash_event_v1 previous payload = Ok hash /\
    db' = Database.with_events (Database.events db ++ [audit_row security session command t previous hash payload]) db.
Proof. cbv zeta. unfold persist_event. cbv zeta. intros (hash & Hh & [= <-])%bind_Ok. by exists hash. Qed.
End persisted.

(** ** One transaction *)

Section committed.
Context {C : Crates} {P : UuidParser} (security : PostgresSecurityContextV1.t) (key : list N) (key_version : Z).
Context (trust_root : TrustRootSnapshotV1.t) (session : Session.t) (minted : Minted.t).
Context (command : IdrCommandEnvelopeV1.t) (now : N).

Lemma verified_length verified :
  verify_proofs_inside_transaction security trust_root command now = Ok verified ->
  length verified = length (IdrCommandEnvelopeV1.proofs command).
Proof. intros (? & ? & _ & _ & _ & _ & H)%verify_proofs_Ok. by apply Forall2_length in H. Qed.

(** The rows of an accepted command, table by table. *)
Record persisted (verified : list VerifiedProductionProofV1.t) (t : IdrTransitionV1.t) (command_digest projection_digest : text)
    (db db' : Database.t) : Prop := {
  ps_runs : let q := IdrTransitionV1.projection t in
    Database.runs db' = <[IdrRunProjectionV1.run_id q := RunRow.mk (IdrRunProjectionV1.trust_domain q) (IdrRunProjectionV1.environment_ref q) q projection_digest]>
      (Database.runs db);
  ps_version : forall row, Database.runs db !! IdrRunProjectionV1.run_id (IdrTransitionV1.projection t) = Some row ->
    IdrRunProjectionV1.aggregate_version (IdrTransitionV1.projection t) = IdrRunProjectionV1.aggregate_version (RunRow.projection row) + 1;
  ps_record : match IdrTransitionV1.authoritative_record t with
    | None => Database.current db' = Database.current db /\ Database.records db' = Database.records db
    | Some record =>
        let row := contract_row record in
        let q := IdrTransitionV1.projection t in
        Database.records db' = Database.records db ++ [row] /\
        ContractRow.revision row = contiguous_revision (ContractRow.record_id row) (Database.records db) /\
        Database.current db' = <[(IdrRunProjectionV1.run_id q, ContractRow.candidate_kind row) :=
          CurrentRow.mk (IdrRunProjectionV1.trust_domain q) (IdrRunProjectionV1.environment_ref q) (ContractRow.record_id row)
            (ContractRow.revision row) (ContractRow.record_digest row)]> (Database.current db)
    end;
  ps_dependencies : exists before, Database.records before = Database.records db' /\
    persist_contract_dependencies command t before = Ok (Database.with_dependencies (Database.dependencies db') before);
  ps_consumptions : Database.consumptions db' = persist_proof_consumptions security command verified (Database.consumptions db);
  ps_envelopes : Database.envelopes db' = Database.envelopes db
    ++ zip_with (envelope_row security command (TrustRootSnapshotV1.root_version trust_root)
         (TrustRootSnapshotV1.root_digest trust_root) now) (IdrCommandEnvelopeV1.proofs command) verified;
  ps_invalidations : Database.invalidations db' = Database.invalidations db
    ∪ set_map node (IdrRunProjectionV1.invalidated_records (IdrTransitionV1.projection t));
  ps_execution : match IdrRunProjectionV1.execution (IdrTransitionV1.projection t) with
    | Some e => execution_written session (is_governance t) (IdrTransitionV1.projection t) e db db'
    | None => Database.fences db' = Database.fences db /\ Database.reservations db' = Database.reservations db /\
              Database.attempts db' = Database.attempts db
    end;
  ps_event : let payload := audit_payload security command t command_digest projection_digest in
    let previous := previous_hash (IdrCommandEnvelopeV1.tenant_ref command) db in
    exists hash, hash_event_v1 previous payload = Ok hash /\
      Database.events db' = Database.events db ++ [audit_row security session command t previous hash payload];
  ps_others : Database.receipts db' = Database.receipts db /\ Database.checkpoints db' = Database.checkpoints db /\
    Database.attestations db' = Database.attestations db;
  ps_specialized : specialized_written command t (Database.specialized db) db';
  ps_steps : exists step_id kind state version,
    Database.steps db' = Database.steps db ++ [StepRow.mk (IdrCommandEnvelopeV1.run_id command) step_id kind state version (IdrTransitionV1.projection t)];
}.

Lemma persist_transition_Ok verified t command_digest projection_digest db db' :
  length verified = length (IdrCommandEnvelopeV1.proofs command) ->
  persist_transition security trust_root session command now verified t command_digest projection_digest db = Ok db' ->
  persisted verified t command_digest projection_digest db db'.
Proof.
  intros Hlen. destruct db. unfold persist_transition. cbv zeta. intros (db1 & [-> Hver]%upsert_run_Ok & H)%bind_Ok.
  apply bind_Ok in H as (db2 & [= <-] & H).
  apply bind_Ok in H as (db3 & (cur & recs & -> & Hrec)%persist_authoritative_record_Ok & H).
  apply bind_Ok in H as (db4 & Hdeps & H).
  destruct (persist_contract_dependencies_Ok _ _ _ _ Hdeps) as [deps ->].
  apply bind_Ok in H as (db5 & ->%persist_proofs_Ok & H); [|done].
  apply bind_Ok in H as (db6 & (sends & db7 & copied & Hs & Hexec & Hc & ->)%persist_specialized_Ok & H).
  apply persist_execution_Ok in Hexec as (inv & fn & res & att & -> & -> & Hexec).
  apply persist_event_Ok in H as (hash & Hh & ->). cbv zeta in Hh. tables.
  split; cbv zeta; tables; try done.
  - eexists (Database.mk _ _ _ _ _ _ _ _ _ _ _ _ _ _ _ _). split; [|exact Hdeps]. reflexivity.
  - destruct (IdrRunProjectionV1.execution _) as [e|]; [|done]. destruct Hexec as [Hf Hr]. split; tables; done.
  - exists hash. by split.
  - exists sends. by split.
  - by do 4 eexists.
Qed.

Lemma open_attestation_Ok a db db' :
  open_orchestrator_attestation key a db = Ok db' ->
  exists material, Attestation.material a = Ok material /\
    Forall (fun row => Attestation.attestation_id row.1 <> Attestation.attestation_id a) (Database.attestations db) /\
    db' = Database.with_attestations (Database.attestations db ++ [(a, mac key material)]) db.
Proof.
  unfold open_orchestrator_attestation. intros (material & Hm & H)%bind_Ok. apply bind_Ok in H as (_ & _ & H).
  apply bind_Ok in H as (_ & _ & H). apply reject_Ok in H as [Hd%existsb_false [= <-]].
  exists material. split_and!; try done. eapply Forall_impl; [exact Hd|]. by intros row [[?%bool_decide_eq_false _]%orb_false_iff _]%orb_false_iff.
Qed.

(** What a command's first transaction decided. *)
Record decision := mkDecision {
  dc_verified : list VerifiedProductionProofV1.t;
  dc_loaded : IdrRunProjectionV1.t;
  dc_transition : IdrTransitionV1.t;
  dc_command_digest : text;
  dc_projection_digest : text;
  dc_transition_digest : text;
  dc_material : list N;
  dc_receipt_mac : text;
}.

Definition dc_projection (d : decision) : IdrRunProjectionV1.t := IdrTransitionV1.projection (dc_transition d).
Definition dc_receipt (d : decision) : IdrCommandReceiptV1.t :=
  receipt_of security command (dc_transition d) (Session.attestation_id session) (Session.global_sequence session).
Definition dc_attestation (d : decision) : Attestation.t :=
  attestation security key_version session (attestation_purpose (dc_transition d)) (IdrCommandEnvelopeV1.command_id command)
    (IdrCommandEnvelopeV1.run_id command) (ReferenceV1.as_str (IdrCommandEnvelopeV1.tenant_ref command)) (IdrRunProjectionV1.aggregate_version (dc_loaded d))
    (IdrRunProjectionV1.aggregate_version (dc_projection d)) (dc_command_digest d) (dc_transition_digest d).
Definition dc_receipt_row (d : decision) : ReceiptRow.t :=
  ReceiptRow.mk (own_domain security) (own_environment security) (IdrCommandEnvelopeV1.tenant_ref command) (IdrCommandEnvelopeV1.run_id command)
    (IdrCommandEnvelopeV1.actor_ref command) (IdrCommandEnvelopeV1.caller_ref command) (dc_command_digest d) (dc_receipt d) (dc_receipt_mac d)
    (Session.attestation_id session).

(** What it decided, and what it wrote. *)
Record committed (d : decision) (db db' : Database.t) (sealed : AuditCheckpointV1.t) : Prop := {
  cm_root : TrustRootSnapshotV1.trust_domain trust_root = PostgresSecurityContextV1.trust_domain security /\
    TrustRootSnapshotV1.environment_ref trust_root = PostgresSecurityContextV1.environment_ref security;
  cm_new : Database.receipts db !! IdrCommandEnvelopeV1.command_id command = None;
  cm_loaded : load_run security db command = Ok (dc_loaded d);
  cm_command_digest : Envelope.canonical_digest command = Ok (dc_command_digest d);
  cm_proofs : verify_proofs_inside_transaction security trust_root command now = Ok (dc_verified d);
  cm_replay : check_proof_replay security (Database.consumptions db) command (dc_verified d) = Ok tt;
  cm_chosen : choose_transition (load_recursive_invalidation_closure db) minted
    (reverify_bound_action_admission_proofs security trust_root (load_envelope security db) (dc_loaded d) command now)
    command now (dc_verified d) (dc_loaded d) = Ok (dc_transition d);
  cm_projection_digest : projection_digest_v1 (dc_projection d) = Ok (dc_projection_digest d);
  cm_transition_digest : transition_digest security command (dc_transition d) (IdrRunProjectionV1.aggregate_version (dc_loaded d))
    (dc_command_digest d) (dc_projection_digest d) = Ok (dc_transition_digest d);
  cm_material : Attestation.material (dc_attestation d) = Ok (dc_material d);
  cm_receipt_mac : command_receipt_mac key (dc_receipt d) = Ok (dc_receipt_mac d);
  cm_fresh : Forall (fun row => Attestation.attestation_id row.1 <> Session.attestation_id session) (Database.attestations db);
  cm_tables : persisted (dc_verified d) (dc_transition d) (dc_command_digest d) (dc_projection_digest d) db
    (Database.with_receipts (Database.receipts db) (Database.with_checkpoints (Database.checkpoints db)
      (Database.with_attestations (Database.attestations db) db')));
  cm_attestations : Database.attestations db' = Database.attestations db ++ [(dc_attestation d, mac key (dc_material d))];
  cm_receipts : Database.receipts db' = <[IdrCommandEnvelopeV1.command_id command := dc_receipt_row d]> (Database.receipts db);
  cm_checkpoints : Database.checkpoints db' = Database.checkpoints db ++ [sealed];
  cm_sealed : exists before, checkpoint security session (IdrCommandEnvelopeV1.tenant_ref command)
      (previous_hash (IdrCommandEnvelopeV1.tenant_ref command) before) before = Ok sealed /\
    before = Database.with_checkpoints (Database.checkpoints db) db';
}.

(** What the answer to a known command rests on. *)
Record replayed_from (row : ReceiptRow.t) (command_digest : text) (db : Database.t) (receipt : IdrCommandReceiptV1.t)
    (latest : AuditCheckpointV1.t) : Prop := {
  rp_same : ReceiptRow.trust_domain row = own_domain security /\ ReceiptRow.environment_ref row = own_environment security /\
    ReceiptRow.tenant_ref row = IdrCommandEnvelopeV1.tenant_ref command /\ ReceiptRow.run_id row = IdrCommandEnvelopeV1.run_id command /\
    ReceiptRow.actor_ref row = IdrCommandEnvelopeV1.actor_ref command /\ ReceiptRow.caller_ref row = IdrCommandEnvelopeV1.caller_ref command /\
    ReceiptRow.command_digest row = command_digest;
  rp_proofs : exists verified, verify_proofs_inside_transaction security trust_root command now = Ok verified;
  rp_attested : IdrCommandReceiptV1.attestation_id (ReceiptRow.receipt row) = ReceiptRow.idr_attestation_id row;
  rp_mac : command_receipt_mac key (ReceiptRow.receipt row) = Ok (ReceiptRow.receipt_mac row);
  rp_attestation : exists a stored_mac, (a, stored_mac) ∈ Database.attestations db /\
    Attestation.attestation_id a = ReceiptRow.idr_attestation_id row /\
    Attestation.verify_row security key key_version a stored_mac = Ok (ReceiptRow.idr_attestation_id row);
  rp_latest : latest_checkpoint_for_tenant security db (IdrCommandEnvelopeV1.tenant_ref command) = Some latest;
  rp_receipt : receipt = IdrCommandReceiptV1.replayed (ReceiptRow.receipt row);
}.

Lemma replay_receipt_Ok row command_digest db receipt latest :
  replay_receipt security key key_version trust_root command command_digest now row db = Ok (receipt, latest) ->
  replayed_from row command_digest db receipt latest.
Proof.
  unfold replay_receipt. cbv zeta. intros H. apply reject_Ok in H as [Hsame H].
  rewrite !orb_false_iff, !negb_false_iff, !bool_decide_eq_true in Hsame.
  apply bind_Ok in H as (vs & Hvs & H). apply reject_Ok in H as [Ha%negb_false_iff%bool_decide_eq_true H].
  apply bind_Ok in H as (m & Hm & H). apply reject_Ok in H as [Hmac%negb_false_iff%bool_decide_eq_true H].
  apply bind_Ok in H as ([a stored] & [Hin Hid%bool_decide_eq_true]%ok_or_Ok%find_first_Some & H).
  apply bind_Ok in H as (v & Hv & H). apply reject_Ok in H as [Heq%negb_false_iff%bool_decide_eq_true H].
  apply bind_Ok in H as (c & Hc%ok_or_Ok & [= <- <-]). subst m v. cbn in Hid, Hv.
  split; try done; [by destruct_and!|by exists vs|by exists a, stored].
Qed.

(** A known command is answered from its receipt; a new one is decided and written. *)
Lemma transact_inner_Ok db db' receipt sealed :
  transact_inner security key key_version trust_root session minted command now db = Ok (db', receipt, sealed) ->
  (exists row command_digest, Database.receipts db !! IdrCommandEnvelopeV1.command_id command = Some row /\ db' = db /\
     Envelope.canonical_digest command = Ok command_digest /\
     replay_receipt security key key_version trust_root command command_digest now row db = Ok (receipt, sealed)) \/
  exists d, receipt = dc_receipt d /\ committed d db db' sealed.
Proof.
  unfold transact_inner. intros H. apply reject_Ok in H as [[Hd He]%orb_false_iff H].
  apply negb_false_iff, bool_decide_eq_true in Hd. apply negb_false_iff, bool_decide_eq_true in He.
  apply bind_Ok in H as (command_digest & Hdigest & H).
  destruct (Database.receipts db !! IdrCommandEnvelopeV1.command_id command) as [row|] eqn:Hrow.
  { apply bind_Ok in H as ([r c] & Hr & [= <- <- <-]). left. by exists row, command_digest. }
  right. apply bind_Ok in H as ([[verified p] t] & Ht & H).
  apply bind_Ok in H as (projection_digest & Hpd & H). apply bind_Ok in H as (digest & Htd & H). cbv zeta in H.
  apply bind_Ok in H as (db1 & (material & Hm & Hfresh & ->)%open_attestation_Ok & H).
  apply bind_Ok in H as (db2 & Hp & H). apply bind_Ok in H as (db3 & Hrec & H).
  apply bind_Ok in H as (c & Hc & [= <- <- <-]).
  unfold persist_receipt in Hrec. apply bind_Ok in Hrec as (receipt_mac & Hmac & Hrec).
  apply bind_Ok in Hrec as (_ & _ & [= <-]).
  unfold decide_transition in Ht. apply bind_Ok in Ht as (vs & Hvs & Ht). apply bind_Ok in Ht as (p0 & Hload & Ht).
  apply bind_unit_Ok in Ht as [Hreplay Ht]. apply bind_Ok in Ht as (t0 & Hchosen & [= -> -> ->]).
  exists (mkDecision verified p t command_digest projection_digest digest material receipt_mac). split; [done|].
  apply persist_transition_Ok in Hp; [|by apply verified_length in Hvs].
  destruct Hp. destruct ps_others0 as (Ho1 & Ho2 & Ho3). cbn in *.
  split; cbn; try done.
  - split; cbn; try done. destruct (IdrRunProjectionV1.execution _); [|done]. destruct ps_execution0. by split.
  - by rewrite Ho1.
  - by rewrite Ho2.
  - match type of Hc with checkpoint _ _ _ _ ?b = _ => exists b end.
    split; [exact Hc|]. rewrite <- Ho2. by destruct db2.
Qed.
End committed.

(** ** The database refines the tables of [Authority] *)

(** The runs and the consumed proofs of a database *)
Definition view (db : Database.t) : tables := (RunRow.projection <$> Database.runs db, Database.consumptions db).

Section refinement.
Context {C : Crates} {P : UuidParser} (security : PostgresSecurityContextV1.t).

(** The reservation of a run's execution is in its state and under its fence. *)
Record execution_stored (reservations : gmap Uuid ReservationRow.t) (fences : list FenceRow.t) (q : IdrRunProjectionV1.t) (e : ExecutionProjectionV1.t) : Prop := {
  es_reservation : exists row, reservations !! ExecutionProjectionV1.reservation_id e = Some row /\
    ReservationRow.state row = ExecutionProjectionV1.state e /\ ReservationRow.aggregate_version row = IdrRunProjectionV1.aggregate_version q;
  es_fence : exists f, f ∈ fences /\ FenceRow.fence_id f = ExecutionProjectionV1.reservation_id e /\
    FenceRow.first_run_id f = IdrRunProjectionV1.run_id q /\ FenceRow.first_action f = node (ExecutionProjectionV1.action_ref e) /\
    fence_key f = (IdrRunProjectionV1.trust_domain q, IdrRunProjectionV1.environment_ref q, IdrRunProjectionV1.tenant_ref q, ExecutionProjectionV1.operation_ref e, ExecutionProjectionV1.idempotency_key e);
}.

Definition fences_unique (fences : list FenceRow.t) : Prop :=
  forall f g, f ∈ fences -> g ∈ fences -> FenceRow.fence_id f = FenceRow.fence_id g \/ fence_key f = fence_key g -> f = g.

Record ledger_ok (db : Database.t) : Prop := {
  lo_runs : forall r row, Database.runs db !! r = Some row -> IdrRunProjectionV1.run_id (RunRow.projection row) = r /\
    forall e, IdrRunProjectionV1.execution (RunRow.projection row) = Some e ->
      execution_stored (Database.reservations db) (Database.fences db) (RunRow.projection row) e;
  lo_fences : fences_unique (Database.fences db);
}.

Lemma empty_ledger_ok : ledger_ok Database.empty.
Proof. split; [intros r row; cbn; by rewrite lookup_empty|intros f g ?%not_elem_of_nil]. done. Qed.

Lemma load_run_Ok db command p :
  load_run security db command = Ok p ->
  load_projection security (view db).1 command = Ok p /\
  forall row, Database.runs db !! IdrCommandEnvelopeV1.run_id command = Some row -> p = RunRow.projection row.
Proof.
  unfold load_run, load_projection, view. cbn. rewrite lookup_fmap.
  destruct (Database.runs db !! IdrCommandEnvelopeV1.run_id command) as [row|]; cbn.
  - cbv zeta. intros (digest & _ & H)%bind_Ok. apply reject_Ok in H as [_ [= <-]]. by split; [|intros ? [= ->]].
  - intros H. by split.
Qed.

Lemma fenced_unique old fence new : fenced old fence new -> fences_unique old -> fences_unique new.
Proof.
  intros [Hg _] Ho. destruct Hg as [->|[-> Hfresh]]; [done|].
  intros f g [Hf| ->%list_elem_of_singleton]%elem_of_app [Hg| ->%list_elem_of_singleton]%elem_of_app He; [by apply Ho|..|done].
  - destruct (Hfresh f Hf) as [H1 H2]. naive_solver.
  - destruct (Hfresh g Hg) as [H1 H2]. naive_solver.
Qed.

Lemma fenced_grows old fence new : fenced old fence new -> forall f, f ∈ old -> f ∈ new.
Proof. intros [[->|[-> _]] _] f Hf; [done|]. apply elem_of_app. by left. Qed.

(** An execution as it is written *)
Lemma written_stored session governance q e db db' :
  execution_written session governance q e db db' -> execution_stored (Database.reservations db') (Database.fences db') q e.
Proof.
  intros [(digest & _ & [_ (f & Hf & Hid & Hkey & Ht)]) [_ (row & Hr & Hrow)]]. split.
  - exists row. rewrite Hr. cbn. rewrite lookup_insert_eq. split; [done|].
    destruct Hrow as [[_ ->]|(before & _ & _ & _ & ->)]; by split.
  - exists f. unfold fence_tuple in Ht. cbn in Hid, Hkey, Ht. injection Ht as H1 H2 H3 H4 H5 H6 H7 H8.
    split_and!; try done. unfold fence_key. by rewrite H1, H2, H3, H4, Hkey.
Qed.

Section step.
Context {key : list N} {key_version : Z} {trust_root : TrustRootSnapshotV1.t} {session : Session.t} {minted : Minted.t}.
Context {command : IdrCommandEnvelopeV1.t} {now : N} {d : decision} {db db' : Database.t} {sealed : AuditCheckpointV1.t}.
Context (Hcommitted : committed security key key_version trust_root session minted command now d db db' sealed).
Context (Hok : ledger_ok db).

Let q : IdrRunProjectionV1.t := dc_projection d.

Lemma committed_runs : Database.runs db' =
  <[IdrRunProjectionV1.run_id q := RunRow.mk (IdrRunProjectionV1.trust_domain q) (IdrRunProjectionV1.environment_ref q) q (dc_projection_digest d)]> (Database.runs db).
Proof. destruct Hcommitted as [_ _ _ _ _ _ _ _ _ _ _ _ [] _ _ _ _]. destruct db'. exact ps_runs0. Qed.

Lemma committed_consumptions : Database.consumptions db' =
  persist_proof_consumptions security command (dc_verified d) (Database.consumptions db).
Proof. destruct Hcommitted as [_ _ _ _ _ _ _ _ _ _ _ _ [] _ _ _ _]. destruct db'. exact ps_consumptions0. Qed.

Lemma committed_execution :
  match IdrRunProjectionV1.execution q with
  | Some e => execution_written session (is_governance (dc_transition d)) q e db db'
  | None => Database.fences db' = Database.fences db /\ Database.reservations db' = Database.reservations db
  end.
Proof.
  destruct Hcommitted as [_ _ _ _ _ _ _ _ _ _ _ _ [] _ _ _ _]. unfold q, dc_projection.
  destruct (IdrRunProjectionV1.execution _) as [e|].
  - destruct ps_execution0 as [Hf Hr], db'. by split.
  - destruct ps_execution0 as (Hf & Hr & _), db'. by split.
Qed.

(** The run that was loaded is stored under the command's run. *)
Lemma committed_loaded : IdrRunProjectionV1.run_id (dc_loaded d) = IdrCommandEnvelopeV1.run_id command /\ IdrRunProjectionV1.run_id q = IdrCommandEnvelopeV1.run_id command /\
  (Database.runs db !! IdrCommandEnvelopeV1.run_id command = None \/
   exists row, Database.runs db !! IdrCommandEnvelopeV1.run_id command = Some row /\ RunRow.projection row = dc_loaded d).
Proof.
  pose proof (chosen_run _ _ _ _ _ _ _ _ (cm_chosen _ _ _ _ _ _ _ _ _ _ _ _ Hcommitted)) as Hrun.
  destruct (load_run_Ok _ _ _ (cm_loaded _ _ _ _ _ _ _ _ _ _ _ _ Hcommitted)) as [Hl Hrow].
  assert (IdrRunProjectionV1.run_id (dc_loaded d) = IdrCommandEnvelopeV1.run_id command) as Hid.
  { unfold load_projection, view in Hl. cbn in Hl. rewrite lookup_fmap in Hl.
    destruct (Database.runs db !! IdrCommandEnvelopeV1.run_id command) as [row|] eqn:Hr; cbn in Hl.
    - injection Hl as <-. by apply (lo_runs _ Hok).
    - destruct (load_projection_Ok security ∅ command (dc_loaded d)) as [H|[_ ->]]; [|by rewrite lookup_empty in H|done].
      unfold load_projection. by rewrite lookup_empty. }
  split_and!; [done|by unfold q, dc_projection; rewrite Hrun|].
  destruct (Database.runs db !! IdrCommandEnvelopeV1.run_id command) as [row|] eqn:Hr; [right|by left].
  exists row. split; [done|]. symmetry. by apply Hrow.
Qed.

(** The guard on the reservation's row is [Authority]'s. *)
Lemma committed_guard : persist_execution_row (is_governance (dc_transition d)) (IdrRunProjectionV1.execution (dc_loaded d)) (IdrRunProjectionV1.execution q) = Ok tt.
Proof.
  unfold persist_execution_row. destruct (IdrRunProjectionV1.execution (dc_loaded d)) as [e0|] eqn:He0; [|done].
  pose proof committed_execution as Hw. destruct (IdrRunProjectionV1.execution q) as [e|]; [|done].
  apply reject_Ok. split; [|done]. apply andb_false_iff. rewrite negb_false_iff.
  destruct (decide (ExecutionProjectionV1.reservation_id e0 = ExecutionProjectionV1.reservation_id e)) as [Hid|Hne]; [right|left; by apply bool_decide_eq_false].
  destruct committed_loaded as (_ & _ & [Hnone|(row & Hrow & Hp)]).
  { pose proof (load_run_Ok _ _ _ (cm_loaded _ _ _ _ _ _ _ _ _ _ _ _ Hcommitted)) as [Hl _].
    unfold load_projection, view in Hl. cbn in Hl. rewrite lookup_fmap, Hnone in Hl. cbn in Hl.
    destruct (IdrCommandEnvelopeV1.command command); try discriminate Hl. destruct (_ =? 0); [|discriminate Hl].
    injection Hl as Hl. by rewrite <- Hl in He0. }
  destruct (lo_runs _ Hok _ _ Hrow) as [_ Hst]. rewrite Hp in Hst.
  destruct (Hst e0 He0) as [(r & Hr & Hs & _) _].
  destruct (ew_reservation _ _ _ _ _ _ Hw) as [_ (row' & _ & [[Hn _]|(before & Hb & _ & Ha & _)])]; cbn in *.
  - rewrite <- Hid in Hn. congruence.
  - rewrite <- Hid in Hb. assert (before = r) as -> by congruence. by rewrite <- Hs.
Qed.

Lemma committed_ok : ledger_ok db'.
Proof.
  destruct committed_loaded as (_ & Hq & _). pose proof committed_execution as Hw.
  assert (fences_unique (Database.fences db')) as Hu.
  { destruct (IdrRunProjectionV1.execution q) as [e|].
    - destruct (ew_fence _ _ _ _ _ _ Hw) as (digest & _ & Hf). eapply fenced_unique; [exact Hf|apply Hok].
    - destruct Hw as [-> _]. apply Hok. }
  split; [|done]. rewrite committed_runs. intros r row [[<- <-]|[Hne Hrow]]%lookup_insert_Some; cbn.
  { split; [done|]. intros e He. rewrite He in Hw. by eapply written_stored. }
  destruct (lo_runs _ Hok _ _ Hrow) as [Hr Hst]. split; [done|]. intros e' He'.
  destruct (Hst e' He') as [(rv & Hrv & Hs) (f & Hf & Hid & Hrun & Hk)].
  destruct (IdrRunProjectionV1.execution q) as [e|].
  - destruct (ew_fence _ _ _ _ _ _ Hw) as (digest & _ & Hfenced).
    pose proof (fenced_grows _ _ _ Hfenced f Hf) as Hin. split; [|by exists f].
    destruct (ew_reservation _ _ _ _ _ _ Hw) as [_ (row' & -> & _)].
    exists rv. rewrite lookup_insert_ne; [by split|]. cbn. intros Heq. apply Hne.
    destruct (written_stored _ _ _ _ _ _ Hw) as [_ (g & Hg & Hgid & Hgrun & _)].
    rewrite <- Hr, <- Hrun, <- Hgrun. f_equal. apply Hu; [done..|]. left. congruence.
  - destruct Hw as [Hf' Hr']. split; rewrite ?Hf', ?Hr'; [by exists rv|by exists f].
Qed.
End step.

(** *** Steps *)

(** What a call of [handle] leaves: the database it found, or what one accepted command
    wrote, with or without the attestation of its publication. *)
Lemma handle_cases {S} `{AnchorBackend S} key key_version trust_root production human_model_write session publication minted
    command now db (anchor : S) db' anchor' outcome :
  Ledger.handle security key key_version trust_root production human_model_write session publication minted command now db anchor
    = (db', anchor', outcome) ->
  db' = db /\ anchor' = anchor /\ (is_err outcome = true \/ is_some (Database.receipts db !! IdrCommandEnvelopeV1.command_id command) = true) \/
  exists d sealed db1, admit_command security production human_model_write command = Ok tt /\
    committed security key key_version trust_root session minted command now d db db1 sealed /\
    (db' = db1 \/ exists a material, Attestation.material a = Ok material /\
       Forall (fun row => Attestation.attestation_id row.1 <> Attestation.attestation_id a) (Database.attestations db1) /\
       Attestation.trust_domain a = domain_name (own_domain security) /\
       Attestation.environment_ref a = ReferenceV1.as_str (own_environment security) /\
       Attestation.key_version a = key_version /\
       (Attestation.pre_aggregate_version a <=? Attestation.post_aggregate_version a) = true /\
       db' = Database.with_attestations (Database.attestations db1 ++ [(a, mac key material)]) db1).
Proof.
  unfold Ledger.handle. destruct (_ ← admit_command _ _ _ _; _) as [[[db1 receipt] sealed]|e] eqn:Hin;
    [|intros [= <- <- <-]; left; by split_and!; [..|left]].
  apply bind_unit_Ok in Hin as [Hadmit Hin].
  apply transact_inner_Ok in Hin as [(row & digest & Hrow & -> & _ & Hr)|(d & -> & Hc)].
  { pose proof (rp_receipt _ _ _ _ _ _ _ _ _ _ _ (replay_receipt_Ok _ _ _ _ _ _ _ _ _ _ _ Hr)) as ->.
    cbn. intros [= <- <- <-]. left. split_and!; [done..|]. right. by rewrite Hrow. }
  cbn [IdrCommandReceiptV1.idempotent_replay dc_receipt receipt_of].
  destruct (publish sealed anchor) as [anchor1|e]; [|intros [= <- _ _]; right; exists d, sealed, db1; by split_and!; [..|left]].
  destruct (attest_publication _ _ _ _ _ _ _) as [db2|e] eqn:Ha; intros [= <- _ _]; right; exists d, sealed, db1;
    (split_and!; [done..|]); [right|by left].
  unfold attest_publication in Ha. apply bind_Ok in Ha as (dg & _ & Ha). apply bind_Ok in Ha as (tdg & _ & Ha).
  apply open_attestation_Ok in Ha as (material & Hm & Hf & ->). eexists _, material.
  split_and!; [exact Hm|exact Hf|done..| |reflexivity]. cbn. apply N.leb_refl.
Qed.

(** A first answer: what was written, and the attestation of its publication. *)
Lemma handle_fresh {S} `{AnchorBackend S} key key_version trust_root production human_model_write session publication minted
    command now db (anchor : S) db' anchor' receipt :
  Ledger.handle security key key_version trust_root production human_model_write session publication minted command now db anchor
    = (db', anchor', Ok receipt) ->
  IdrCommandReceiptV1.idempotent_replay receipt = false ->
  exists d sealed db1 a material, receipt = dc_receipt security session command d /\
    admit_command security production human_model_write command = Ok tt /\
    committed security key key_version trust_root session minted command now d db db1 sealed /\
    publish sealed anchor = Ok anchor' /\
    db' = Database.with_attestations (Database.attestations db1 ++ [(a, mac key material)]) db1.
Proof.
  unfold Ledger.handle. destruct (_ ← admit_command _ _ _ _; _) as [[[db1 r] sealed]|e] eqn:Hin; [|done].
  apply bind_unit_Ok in Hin as [Hadmit Hin]. apply transact_inner_Ok in Hin as [(row & digest & _ & -> & _ & Hr)|(d & -> & Hc)].
  { pose proof (rp_receipt _ _ _ _ _ _ _ _ _ _ _ (replay_receipt_Ok _ _ _ _ _ _ _ _ _ _ _ Hr)) as ->. by intros [= _ _ <-]. }
  cbn [IdrCommandReceiptV1.idempotent_replay dc_receipt receipt_of].
  destruct (publish sealed anchor) as [anchor1|e] eqn:Hpub; [|done].
  destruct (attest_publication _ _ _ _ _ _ _) as [db2|e] eqn:Ha; [|done]. intros [= <- <- <-] _.
  unfold attest_publication in Ha. apply bind_Ok in Ha as (dg & _ & Ha). apply bind_Ok in Ha as (tdg & _ & Ha).
  apply open_attestation_Ok in Ha as (material & _ & _ & ->). by eexists d, sealed, db1, _, material.
Qed.

Inductive ledger_step : Database.t -> Database.t -> Prop :=
| handled {S} `{AnchorBackend S} key key_version trust_root production human_model_write session publication minted
    command now db (anchor : S) db' anchor' outcome :
    Ledger.handle security key key_version trust_root production human_model_write session publication minted command now db anchor
      = (db', anchor', outcome) ->
    ledger_step db db'.

Definition ledger_reachable : Database.t -> Prop := rtc ledger_step Database.empty.

Lemma committed_steps key key_version trust_root production human_model_write session minted command now d db db1 sealed :
  admit_command security production human_model_write command = Ok tt ->
  committed security key key_version trust_root session minted command now d db db1 sealed -> ledger_ok db ->
  authority_step security (view db) (view db1).
Proof.
  intros Ha Hc Hok. pose proof (committed_guard Hc Hok) as Hguard.
  pose proof (committed_runs Hc) as Hruns. pose proof (committed_consumptions Hc) as Hcons.
  destruct (load_run_Ok _ _ _ (cm_loaded _ _ _ _ _ _ _ _ _ _ _ _ Hc)) as [Hload _].
  destruct Hc as [[Hd He] _ _ _ Hproofs Hreplay Hchosen _ _ _ _ _ _ _ _ _ _].
  apply (accepted security trust_root (load_envelope security db) (load_recursive_invalidation_closure db) production
    human_model_write minted command now (view db) (view db1) (dc_transition d)).
  unfold admit_command in Ha. unfold Authority.handle. apply bind_unit_Ok in Ha as [Hg Ha]. apply reject_Ok in Ha as [Hw Ha].
  apply bind_unit_Ok in Ha as [Hv Ha]. apply reject_Ok in Ha as [H1 Ha]. apply reject_Ok in Ha as [H2 _].
  apply bind_unit_Ok. split; [exact Hg|]. apply reject_Ok. split; [exact Hw|]. apply bind_unit_Ok. split; [exact Hv|].
  apply reject_Ok. split; [exact H1|]. apply reject_Ok. split; [exact H2|].
  unfold transact, view. apply reject_Ok. split.
  { rewrite orb_false_iff, !negb_false_iff, !bool_decide_eq_true. by split. }
  apply bind_Ok. exists (dc_verified d). split; [exact Hproofs|]. apply bind_Ok. exists (dc_loaded d). split; [exact Hload|].
  cbv zeta. apply bind_unit_Ok. split; [exact Hreplay|]. apply bind_Ok. exists (dc_transition d). split; [exact Hchosen|].
  apply bind_unit_Ok. split; [exact Hguard|]. by rewrite Hruns, Hcons, fmap_insert.
Qed.

Lemma ledger_step_refines db db' :
  ledger_ok db -> ledger_step db db' ->
  ledger_ok db' /\ (view db' = view db \/ authority_step security (view db) (view db')).
Proof.
  intros Hok Hstep. revert Hok.
  destruct Hstep as [S B key key_version trust_root production hm session publication minted command now db0 anchor db1 anchor' outcome H].
  intros Hok.
  apply handle_cases in H as [[-> _]|(d & sealed & db2 & Ha & Hc & Hdb)]; [by split; [|left]|].
  pose proof (committed_ok Hc Hok) as Hok2. pose proof (committed_steps _ _ _ _ _ _ _ _ _ _ _ _ _ Ha Hc Hok) as Hs.
  destruct Hdb as [->|(a & material & _ & _ & _ & _ & _ & _ & ->)]; [split; [exact Hok2|right; exact Hs]|].
  destruct db2. split; [|right; exact Hs]. destruct Hok2 as [Hr Hf]. split; [exact Hr|exact Hf].
Qed.

Lemma ledger_reachable_refines db :
  ledger_reachable db -> ledger_ok db /\ authority_reachable security (∅, []) (view db).
Proof.
  assert (forall db0 db1, rtc ledger_step db0 db1 -> ledger_ok db0 ->
    ledger_ok db1 /\ authority_reachable security (view db0) (view db1)) as Hgen.
  { induction 1 as [db0|db0 db1 db2 Hs Hr IH]; intros Hok; [by split|].
    destruct (ledger_step_refines _ _ Hok Hs) as [Hok1 Hv]. destruct (IH Hok1) as [Hok2 Ha]. split; [done|].
    destruct Hv as [Hv|Hv]; [by rewrite Hv in Ha|]. by eapply rtc_l. }
  intros Hr. destruct (Hgen _ _ Hr empty_ledger_ok) as [Hok Ha]. split; [done|].
  by rewrite <- (fmap_empty (M := gmap Uuid) RunRow.projection).
Qed.
End refinement.

(** C2. The database refines the tables of the authority: whatever commands, replays,
    failed publications and restarts brought a database about, its runs and its
    consumed proofs are those of a sequence of accepted commands, so what is proved of
    every such sequence holds of it. *)
Theorem ledger_refines_authority {C : Crates} {P : UuidParser} security db :
  ledger_reachable security db -> authority_reachable security (∅, []) (view db).
Proof. intros H. apply (ledger_reachable_refines _ _ H). Qed.

(** C13. Once the database holds an execution, its operation and idempotency key belong
    to it for good: two runs whose executions carry the same operation and key of a
    tenant are the same run, with the same reservation of the same Action. *)
Theorem idempotency_key_names_one_execution {C : Crates} {P : UuidParser} security db r1 r2 row1 row2 e1 e2 :
  ledger_reachable security db ->
  Database.runs db !! r1 = Some row1 -> IdrRunProjectionV1.execution (RunRow.projection row1) = Some e1 ->
  Database.runs db !! r2 = Some row2 -> IdrRunProjectionV1.execution (RunRow.projection row2) = Some e2 ->
  IdrRunProjectionV1.trust_domain (RunRow.projection row1) = IdrRunProjectionV1.trust_domain (RunRow.projection row2) ->
  IdrRunProjectionV1.environment_ref (RunRow.projection row1) = IdrRunProjectionV1.environment_ref (RunRow.projection row2) ->
  IdrRunProjectionV1.tenant_ref (RunRow.projection row1) = IdrRunProjectionV1.tenant_ref (RunRow.projection row2) ->
  ExecutionProjectionV1.operation_ref e1 = ExecutionProjectionV1.operation_ref e2 -> ExecutionProjectionV1.idempotency_key e1 = ExecutionProjectionV1.idempotency_key e2 ->
  r1 = r2 /\ ExecutionProjectionV1.reservation_id e1 = ExecutionProjectionV1.reservation_id e2 /\ node (ExecutionProjectionV1.action_ref e1) = node (ExecutionProjectionV1.action_ref e2).
Proof.
  intros [[Hruns Hfences] _]%ledger_reachable_refines H1 He1 H2 He2 Hd Henv Ht Ho Hk.
  destruct (Hruns _ _ H1) as [<- S1], (Hruns _ _ H2) as [<- S2].
  destruct (S1 _ He1) as [_ (f1 & F1 & I1 & R1 & A1 & K1)], (S2 _ He2) as [_ (f2 & F2 & I2 & R2 & A2 & K2)].
  assert (f1 = f2) as ->; [|split_and!; congruence].
  apply Hfences; [done..|]. right. rewrite K1, K2. congruence.
Qed.
