(* ===== verification/LedgerAudit.v ===== *)
(** * LedgerAudit: the chain of audit events and what a verified database guarantees

    The hash of a tenant's last event binds its whole history
    ([audit_chain_binds_history]); every accepted command extends the chain
    ([accepted_command_extends_the_chain]); a command is applied once
    ([command_is_applied_once]); an attestation binds what it attests. *)

From stdpp Require Import base list gmap fin_sets countable sorting strings pretty.
From Stdlib Require Import NArith ZArith Lia.
From S2P Require Import Prelude Text Json Crates CanonicalJson Common Production ProductionProps ChainData ChainCommand ChainPayload ChainTransition ChainEvaluate ChainRepository Authority ChainProps ChainExecution AuthorityProps LedgerData Copies Ledger LedgerVerify LedgerProps.

(** ** Chains of events *)

Section chains.
Context {C : Crates} {L : CratesLaws}.

(** [rows] continues the chain from [first] and ends at [final]. *)
Inductive chained (first : text) : list AuditRow.t -> text -> Prop :=
| chained_nil : chained first [] first
| chained_snoc rows final row :
    chained first rows final -> AuditRow.previous_hash row = final ->
    hash_event_v1 (AuditRow.previous_hash row) (AuditRow.payload row) = Ok (AuditRow.event_hash row) ->
    chained first (rows ++ [row]) (AuditRow.event_hash row).

Lemma chained_inv first rows final :
  chained first rows final -> rows = [] /\ final = first \/
  exists init row, rows = init ++ [row] /\ final = AuditRow.event_hash row /\ chained first init (AuditRow.previous_hash row) /\
    hash_event_v1 (AuditRow.previous_hash row) (AuditRow.payload row) = Ok (AuditRow.event_hash row).
Proof. intros [|init m row Hc <- Hh]; [by left|right]. by exists init, row. Qed.

Lemma hash_event_hex previous event hash : hash_event_v1 previous event = Ok hash -> scalar_textb hash = true.
Proof.
  unfold hash_event_v1. intros (bs & _ & [= <-])%bind_Ok. apply forallb_forall. intros c Hc.
  pose proof (encode_hex_ascii _ (sha256_bytes bs)) as Ha. rewrite Forall_forall in Ha.
  apply N.ltb_lt. specialize (Ha c). rewrite list_elem_of_In in Ha. specialize (Ha Hc). lia.
Qed.

Lemma chained_hex first rows final : chained first rows final -> scalar_textb first = true -> scalar_textb final = true.
Proof. intros [|init m row _ _ Hh] Hf; [done|]. by eapply hash_event_hex. Qed.

(** SHA-256 of some bytes is zero. *)
Definition sha256_zero_preimage : Prop := exists bs, encode_hex (sha256 bs) = genesis_hash.

Lemma hash_event_bind p e p' e' hash :
  scalar_textb p = true -> scalar_textb p' = true -> wire_value e = true -> wire_value e' = true ->
  hash_event_v1 p e = Ok hash -> hash_event_v1 p' e' = Ok hash -> p = p' /\ e = e' \/ sha256_collision.
Proof.
  unfold hash_event_v1. intros Hp Hp' He He' (a & Ha%map_err_Ok & [= Hx])%bind_Ok (b & Hb%map_err_Ok & [= <-])%bind_Ok.
  apply encode_hex_inj in Hx; [|apply sha256_bytes..].
  destruct (decide (a = b)) as [->|Hne]; [left|right; by exists a, b].
  assert (forall q v, scalar_textb q = true -> wire_value v = true ->
    wire_value (Arr [Str (txt "idr-audit-event-v1"); Str q; v]) = true) as Hw.
  { intros q v Hq Hv. cbn [wire_value forallb]. by rewrite Hq, Hv. }
  unfold canonical_json_bytes_v1 in Ha, Hb. rewrite to_value_wire in Ha, Hb by (by apply Hw).
  pose proof (write_canonical_value_inj _ _ _ (Hw _ _ Hp He) (Hw _ _ Hp' He') Ha Hb) as [= -> ->]. done.
Qed.

Lemma chained_binds rows rows' hash :
  Forall (fun row => wire_value (AuditRow.payload row) = true) (rows ++ rows') ->
  chained genesis_hash rows hash -> chained genesis_hash rows' hash ->
  map AuditRow.payload rows = map AuditRow.payload rows' \/ sha256_collision \/ sha256_zero_preimage.
Proof.
  assert (scalar_textb genesis_hash = true) as Hgen by reflexivity.
  assert (forall p e, hash_event_v1 p e = Ok genesis_hash -> sha256_zero_preimage) as Hzero.
  { unfold hash_event_v1. intros p e (bs & _ & [= H])%bind_Ok. by exists bs. }
  revert rows' hash. induction rows as [|row rows IH] using rev_ind; intros rows' hash Hw Hc Hc'.
  - apply chained_inv in Hc as [[_ ->]|(? & ? & Hc & _)]; [|by apply app_cons_not_nil in Hc].
    apply chained_inv in Hc' as [[-> _]|(init & row & -> & He & _ & Hh)]; [by left|].
    right. right. rewrite <- He in Hh. by eapply Hzero.
  - apply chained_inv in Hc as [[Hn _]|(init & r & Heq & -> & Hc & Hh)]; [by destruct rows|].
    apply app_inj_tail in Heq as [<- <-].
    apply chained_inv in Hc' as [[-> He]|(init & r' & -> & He & Hc' & Hh')].
    { right. right. rewrite He in Hh. by eapply Hzero. }
    rewrite !Forall_app, !Forall_singleton in Hw. destruct Hw as [[Hr Hw] [Hr' Hw']]. rewrite He in Hh.
    destruct (hash_event_bind _ _ _ _ _ (chained_hex _ _ _ Hc Hgen) (chained_hex _ _ _ Hc' Hgen) Hw Hw' Hh Hh')
      as [[Hp Hpay]|]; [|by right; left].
    rewrite Hp in Hc. destruct (IH init _ (proj2 (Forall_app _ _ _) (conj Hr Hr')) Hc Hc') as [Hm|]; [left|by right].
    rewrite !map_app. cbn. by rewrite Hm, Hpay.
Qed.
End chains.

(** ** A verified chain *)

(** The events of a tenant in the order they are verified *)
Definition ordered (events : list AuditRow.t) : list AuditRow.t :=
  sort_by (fun row => (AuditRow.tenant_ref row, AuditRow.sequence row)) events.
Definition history (tenant : ReferenceV1.t) (events : list AuditRow.t) : list AuditRow.t :=
  filter (fun row => AuditRow.tenant_ref row = tenant) (ordered events).

Section verified.
Context {C : Crates} (security : PostgresSecurityContextV1.t).

Lemma verify_audit_row_Ok row roots roots' :
  verify_audit_row security row roots = Ok roots' <->
  columns_match security row (default genesis_hash (roots !! AuditRow.tenant_ref row)) = true /\
  hash_event_v1 (AuditRow.previous_hash row) (AuditRow.payload row) = Ok (AuditRow.event_hash row) /\
  roots' = <[AuditRow.tenant_ref row := AuditRow.event_hash row]> roots.
Proof.
  unfold verify_audit_row. cbv zeta. rewrite reject_Ok, bind_Ok, negb_false_iff. split.
  - intros (Hc & hash & Hh & [He [= <-]]%reject_Ok). apply negb_false_iff, bool_decide_eq_true in He. by subst.
  - intros (Hc & Hh & ->). split; [done|]. eexists. split; [done|]. apply reject_Ok. split; [|done].
    by apply negb_false_iff, bool_decide_eq_true.
Qed.

Lemma columns_match_previous row previous : columns_match security row previous = true -> AuditRow.previous_hash row = previous.
Proof. unfold columns_match. rewrite !andb_true_iff. intros [[[[[[[[[[[_ Hp] _] _] _] _] _] _] _] _] _] _]. by apply bool_decide_eq_true in Hp. Qed.

Lemma verified_chained rows roots roots' tenant before :
  insert_each (verify_audit_row security) rows roots = Ok roots' ->
  chained genesis_hash before (default genesis_hash (roots !! tenant)) ->
  chained genesis_hash (before ++ filter (fun row => AuditRow.tenant_ref row = tenant) rows) (default genesis_hash (roots' !! tenant)).
Proof.
  revert roots before. induction rows as [|row rows IH]; intros roots before; cbn [insert_each].
  { intros [= <-]. by rewrite app_nil_r. }
  intros (roots1 & (Hc & Hh & ->)%verify_audit_row_Ok & H)%bind_Ok Hb. apply columns_match_previous in Hc.
  rewrite filter_cons. destruct (decide (AuditRow.tenant_ref row = tenant)) as [<-|Hne].
  - rewrite cons_middle, app_assoc. apply (IH _ _ H). rewrite lookup_insert_eq. cbn. by econstructor.
  - apply (IH _ _ H). by rewrite lookup_insert_ne.
Qed.

Lemma history_chained events roots tenant :
  verify_audit_rows security events = Ok roots ->
  chained genesis_hash (history tenant events) (default genesis_hash (roots !! tenant)).
Proof. intros H. apply (verified_chained _ _ _ tenant [] H). rewrite lookup_empty. constructor. Qed.

Lemma ordered_perm events : ordered events ≡ₚ events.
Proof. unfold ordered, sort_by. apply merge_sort_Permutation. Qed.
End verified.

(** C9. The hash of a tenant's last event binds its whole history: two databases that
    pass the verification of audit events and end in the same hash for a tenant hold
    the same events of that tenant in the same order, unless SHA-256 has a collision
    or a preimage of the zero hash. *)
Theorem audit_chain_binds_history {C : Crates} {L : CratesLaws} security tenant events events' roots roots' :
  verify_audit_rows security events = Ok roots -> verify_audit_rows security events' = Ok roots' ->
  Forall (fun row => wire_value (AuditRow.payload row) = true) (events ++ events') ->
  roots !! tenant = roots' !! tenant ->
  map AuditRow.payload (history tenant events) = map AuditRow.payload (history tenant events') \/
  sha256_collision \/ sha256_zero_preimage.
Proof.
  intros H H' Hw Heq. pose proof (history_chained _ _ _ tenant H) as Hc.
  pose proof (history_chained _ _ _ tenant H') as Hc'. rewrite <- Heq in Hc'.
  eapply chained_binds; [|exact Hc|exact Hc'].
  rewrite !Forall_forall in *. intros row [Hin|Hin]%elem_of_app; apply Hw, elem_of_app; [left|right];
    apply list_elem_of_filter in Hin as [_ Hin]; by rewrite ordered_perm in Hin.
Qed.

(** ** A command is applied once *)

Section once.
Context {C : Crates} {P : UuidParser} (security : PostgresSecurityContextV1.t).

Lemma handle_receipts {S} `{AnchorBackend S} key key_version trust_root production human_model_write session publication minted
    command now db (anchor : S) db' anchor' outcome id row :
  Ledger.handle security key key_version trust_root production human_model_write session publication minted command now db anchor
    = (db', anchor', outcome) ->
  Database.receipts db !! id = Some row -> Database.receipts db' !! id = Some row.
Proof.
  intros [[-> _]|(d & sealed & db1 & _ & Hc & Hdb)]%handle_cases Hrow; [done|].
  assert (Database.receipts db1 !! id = Some row) as H1.
  { rewrite (cm_receipts _ _ _ _ _ _ _ _ _ _ _ _ Hc), lookup_insert_ne; [done|].
    intros <-. pose proof (cm_new _ _ _ _ _ _ _ _ _ _ _ _ Hc). congruence. }
  destruct Hdb as [->|(a & material & _ & _ & _ & _ & _ & _ & ->)]; [done|]. by destruct db1.
Qed.

Lemma step_receipts db db' id row :
  ledger_step security db db' -> Database.receipts db !! id = Some row -> Database.receipts db' !! id = Some row.
Proof. intros [S B key key_version trust_root production hm session publication minted command now db0 anchor db1 anchor' outcome H].
  by eapply handle_receipts. Qed.

Lemma steps_receipts db db' id row :
  rtc (ledger_step security) db db' -> Database.receipts db !! id = Some row -> Database.receipts db' !! id = Some row.
Proof. induction 1; eauto using step_receipts. Qed.

(** A first answer leaves its receipt. *)
Lemma handle_answer {S} `{AnchorBackend S} key key_version trust_root production human_model_write session publication minted
    command now db (anchor : S) db' anchor' receipt :
  Ledger.handle security key key_version trust_root production human_model_write session publication minted command now db anchor
    = (db', anchor', Ok receipt) ->
  IdrCommandReceiptV1.idempotent_replay receipt = false ->
  exists row, Database.receipts db' !! IdrCommandEnvelopeV1.command_id command = Some row /\ ReceiptRow.receipt row = receipt /\
    Envelope.canonical_digest command = Ok (ReceiptRow.command_digest row).
Proof.
  intros Hh Hf. destruct (handle_fresh _ _ _ _ _ _ _ _ _ _ _ _ _ _ _ _ Hh Hf) as (d & sealed & db1 & a & material & -> & _ & Hc & _ & ->).
  exists (dc_receipt_row security session command d). split_and!; [|done|exact (cm_command_digest _ _ _ _ _ _ _ _ _ _ _ _ Hc)].
  pose proof (cm_receipts _ _ _ _ _ _ _ _ _ _ _ _ Hc) as Hrec. destruct db1. cbn in Hrec |- *.
  by rewrite Hrec, lookup_insert_eq.
Qed.

(** A known command changes nothing and is answered from its receipt. *)
Lemma handle_known {S} `{AnchorBackend S} key key_version trust_root production human_model_write session publication minted
    command now db (anchor : S) db' anchor' outcome row :
  Database.receipts db !! IdrCommandEnvelopeV1.command_id command = Some row ->
  Ledger.handle security key key_version trust_root production human_model_write session publication minted command now db anchor
    = (db', anchor', outcome) ->
  db' = db /\ anchor' = anchor /\
  forall r, outcome = Ok r -> r = IdrCommandReceiptV1.replayed (ReceiptRow.receipt row) /\
    Envelope.canonical_digest command = Ok (ReceiptRow.command_digest row) /\
    exists verified, verify_proofs_inside_transaction security trust_root command now = Ok verified.
Proof.
  intros Hrow. unfold Ledger.handle.
  destruct (_ ← admit_command _ _ _ _; _) as [[[db1 r] sealed]|e] eqn:Hin; [|by intros [= <- <- <-]].
  apply bind_unit_Ok in Hin as [_ Hin]. apply transact_inner_Ok in Hin as [(row' & digest & Hrow' & -> & Hd & Hr)|(d & _ & Hc)].
  - assert (row' = row) as -> by congruence. apply replay_receipt_Ok in Hr as [Hsame Hproofs _ _ _ _ ->]. cbn.
    intros [= <- <- <-]. split_and!; [done..|]. intros r [= <-]. split_and!; [done| |done].
    rewrite Hd. f_equal. symmetry. apply Hsame.
  - pose proof (cm_new _ _ _ _ _ _ _ _ _ _ _ _ Hc). congruence.
Qed.
End once.

(** C4. A command is applied once: after it was answered, every later command with its
    identifier, whatever happened in between, leaves the database and the anchor as
    they are, and if it is answered at all it carries the same content, its proofs
    verify again and the answer is the first one, marked as a replay. *)
Theorem command_is_applied_once {C : Crates} {P : UuidParser} {S S' : Type} `{AnchorBackend S} `{AnchorBackend S'} security
    key key_version trust_root production human_model_write session publication minted first now db0 (anchor0 : S) db1 anchor1 receipt
    key' key_version' trust_root' production' human_model_write' session' publication' minted' again now' db2 (anchor2 : S') db3 anchor3 outcome :
  Ledger.handle security key key_version trust_root production human_model_write session publication minted first now db0 anchor0
    = (db1, anchor1, Ok receipt) ->
  IdrCommandReceiptV1.idempotent_replay receipt = false ->
  rtc (ledger_step security) db1 db2 -> IdrCommandEnvelopeV1.command_id again = IdrCommandEnvelopeV1.command_id first ->
  Ledger.handle security key' key_version' trust_root' production' human_model_write' session' publication' minted' again now' db2 anchor2
    = (db3, anchor3, outcome) ->
  db3 = db2 /\ anchor3 = anchor2 /\
  forall r, outcome = Ok r -> r = IdrCommandReceiptV1.replayed receipt /\
    Envelope.canonical_digest again = Envelope.canonical_digest first /\
    exists verified, verify_proofs_inside_transaction security trust_root' again now' = Ok verified.
Proof.
  intros Hfirst Hfresh Hsteps Hid Hagain.
  destruct (handle_answer _ _ _ _ _ _ _ _ _ _ _ _ _ _ _ _ Hfirst Hfresh) as (row & Hrow & <- & Hd).
  pose proof (steps_receipts _ _ _ _ _ Hsteps Hrow) as Hrow2. rewrite <- Hid in Hrow2.
  destruct (handle_known _ _ _ _ _ _ _ _ _ _ _ _ _ _ _ _ _ Hrow2 Hagain) as (-> & -> & Hr).
  split_and!; [done..|]. intros r Ho. destruct (Hr r Ho) as (-> & Hd' & Hv). by rewrite Hd, Hd'.
Qed.

(** ** What an accepted command adds passes the verification *)

#[export] Instance ord_Z_laws : OrdLaws Z.
Proof.
  split; unfold cmp, ord_Z.
  - apply Z.compare_eq_iff.
  - intros x y. apply Z.compare_antisym.
  - intros x y z. rewrite !Z.compare_ngt_iff. lia.
Qed.

(** *** Stored order and verified order *)

(** The events of the database are numbered in the order they are stored. *)
Definition numbered (events : list AuditRow.t) : Prop :=
  StronglySorted (fun a b => (AuditRow.sequence a < AuditRow.sequence b)%Z) events.

Section sorted.
Context {A : Type} (R : A -> A -> Prop).

Lemma strongly_sorted_filter (Q : A -> Prop) `{forall x, Decision (Q x)} l :
  StronglySorted R l -> StronglySorted R (filter Q l).
Proof.
  induction 1 as [|a l Hs IH Hf]; [constructor|]. rewrite filter_cons. destruct (decide (Q a)); [|done].
  constructor; [done|]. rewrite Forall_forall in Hf |- *. intros b [_ Hb]%list_elem_of_filter. by apply Hf.
Qed.

Lemma strongly_sorted_impl (R' : A -> A -> Prop) l :
  (forall a b, a ∈ l -> b ∈ l -> R a b -> R' a b) -> StronglySorted R l -> StronglySorted R' l.
Proof.
  intros Hi Hs. induction Hs as [|a l Hs IH Hf]; [constructor|]. constructor.
  - apply IH. intros b c Hb Hc. apply Hi; by right.
  - rewrite Forall_forall in Hf |- *. intros b Hb. apply Hi; [by left|by right|by apply Hf].
Qed.

Lemma strongly_sorted_cases l a b : StronglySorted R l -> a ∈ l -> b ∈ l -> a = b \/ R a b \/ R b a.
Proof.
  induction 1 as [|c l Hs IH Hf]; [by intros ?%not_elem_of_nil|]. rewrite Forall_forall in Hf.
  intros [->|Ha]%elem_of_cons [->|Hb]%elem_of_cons; auto.
Qed.
End sorted.

Lemma key_le (a b : AuditRow.t) :
  AuditRow.tenant_ref a = AuditRow.tenant_ref b ->
  ord_le (AuditRow.tenant_ref a, AuditRow.sequence a) (AuditRow.tenant_ref b, AuditRow.sequence b) ->
  (AuditRow.sequence a <= AuditRow.sequence b)%Z.
Proof.
  intros Ht Hle. unfold ord_le in Hle. cbn in Hle. rewrite Ht in Hle. apply cmp_then_nGt in Hle as [Hlt|[_ Hle]].
  - by rewrite cmp_refl in Hlt.
  - exact Hle.
Qed.

#[export] Instance event_order_trans : Transitive (fun a b : AuditRow.t =>
  ord_le (AuditRow.tenant_ref a, AuditRow.sequence a) (AuditRow.tenant_ref b, AuditRow.sequence b)).
Proof. intros a b c. unfold ord_le. apply cmp_trans. Qed.
#[export] Instance event_order_total : Total (fun a b : AuditRow.t =>
  ord_le (AuditRow.tenant_ref a, AuditRow.sequence a) (AuditRow.tenant_ref b, AuditRow.sequence b)).
Proof.
  intros a b. unfold ord_le. rewrite (cmp_antisym (AuditRow.tenant_ref a, AuditRow.sequence a)).
  destruct (cmp _ _); [left|left|right]; done.
Qed.

(** Numbered events are verified in the order they are stored. *)
Lemma history_in_order tenant events :
  numbered events -> history tenant events = filter (fun row => AuditRow.tenant_ref row = tenant) events.
Proof.
  intros Hn. apply (StronglySorted_unique_strong (fun a b => (AuditRow.sequence a <= AuditRow.sequence b)%Z)).
  - intros a b [_ Ha]%list_elem_of_filter [_ Hb]%list_elem_of_filter Hab Hba. rewrite ordered_perm in Ha.
    destruct (strongly_sorted_cases _ _ a b Hn Ha Hb) as [?|[?|?]]; [done|lia..].
  - eapply strongly_sorted_impl; [|apply strongly_sorted_filter, (StronglySorted_merge_sort _ events)].
    intros a b [Ha _]%list_elem_of_filter [Hb _]%list_elem_of_filter. apply key_le. congruence.
  - apply strongly_sorted_filter. eapply strongly_sorted_impl; [|exact Hn]. cbn. lia.
  - unfold history. by rewrite ordered_perm.
Qed.

(** *** Verification tenant by tenant *)

Section tenants.
Context {C : Crates} (security : PostgresSecurityContextV1.t).

Fixpoint chain_ok (previous : text) (rows : list AuditRow.t) : Prop :=
  match rows with
  | [] => True
  | row :: rows =>
      columns_match security row previous = true /\
      hash_event_v1 (AuditRow.previous_hash row) (AuditRow.payload row) = Ok (AuditRow.event_hash row) /\
      chain_ok (AuditRow.event_hash row) rows
  end.

Lemma chain_ok_snoc previous rows row :
  chain_ok previous (rows ++ [row]) <->
  chain_ok previous rows /\ columns_match security row (default previous (AuditRow.event_hash <$> last rows)) = true /\
  hash_event_v1 (AuditRow.previous_hash row) (AuditRow.payload row) = Ok (AuditRow.event_hash row).
Proof.
  revert previous. induction rows as [|r rows IH]; intros previous; cbn [chain_ok app].
  - cbn. tauto.
  - rewrite IH, last_cons. destruct (last rows); cbn; tauto.
Qed.

Lemma verified_lookup rows roots roots' tenant :
  insert_each (verify_audit_row security) rows roots = Ok roots' ->
  roots' !! tenant = match last (filter (fun row => AuditRow.tenant_ref row = tenant) rows) with
                     | Some row => Some (AuditRow.event_hash row)
                     | None => roots !! tenant
                     end.
Proof.
  revert roots. induction rows as [|row rows IH]; intros roots; cbn [insert_each].
  { intros [= <-]. by rewrite filter_nil. }
  intros (roots1 & (_ & _ & ->)%verify_audit_row_Ok & Hr%IH)%bind_Ok. rewrite Hr, filter_cons.
  destruct (decide (AuditRow.tenant_ref row = tenant)) as [<-|Hne].
  - rewrite last_cons, lookup_insert_eq. by destruct (last _).
  - by rewrite lookup_insert_ne.
Qed.

(** A verification succeeds exactly when it does for every tenant's events. *)
Lemma verified_tenants rows roots :
  (exists roots', insert_each (verify_audit_row security) rows roots = Ok roots') <->
  forall tenant, chain_ok (default genesis_hash (roots !! tenant)) (filter (fun row => AuditRow.tenant_ref row = tenant) rows).
Proof.
  revert roots. induction rows as [|row rows IH]; intros roots; cbn [insert_each].
  { split; [done|]. intros _. by exists roots. }
  setoid_rewrite bind_Ok. setoid_rewrite verify_audit_row_Ok.
  assert (forall tenant rs, filter (fun r => AuditRow.tenant_ref r = tenant) (row :: rs)
    = if decide (AuditRow.tenant_ref row = tenant) then row :: filter (fun r => AuditRow.tenant_ref r = tenant) rs
      else filter (fun r => AuditRow.tenant_ref r = tenant) rs) as Hf by (intros; by rewrite filter_cons).
  split.
  - intros (roots' & roots1 & (Hc & Hh & ->) & Hr) tenant. rewrite Hf.
    assert (Hrest := proj1 (IH _) (ex_intro _ roots' Hr) tenant).
    destruct (decide (AuditRow.tenant_ref row = tenant)) as [<-|Hne].
    + by rewrite lookup_insert_eq in Hrest.
    + by rewrite lookup_insert_ne in Hrest.
  - intros H. pose proof (H (AuditRow.tenant_ref row)) as Hrow. rewrite Hf, decide_True in Hrow by done.
    destruct Hrow as (Hc & Hh & _).
    destruct (proj2 (IH (<[AuditRow.tenant_ref row := AuditRow.event_hash row]> roots))) as (roots' & Hr).
    + intros tenant. specialize (H tenant). rewrite Hf in H. destruct (decide (AuditRow.tenant_ref row = tenant)) as [<-|Hne].
      * rewrite lookup_insert_eq. apply H.
      * by rewrite lookup_insert_ne.
    + exists roots'. by eexists.
Qed.

(** One more event, of a tenant whose chain it continues *)
Lemma verified_snoc events roots row :
  numbered events -> numbered (events ++ [row]) -> verify_audit_rows security events = Ok roots ->
  columns_match security row (default genesis_hash (roots !! AuditRow.tenant_ref row)) = true ->
  hash_event_v1 (AuditRow.previous_hash row) (AuditRow.payload row) = Ok (AuditRow.event_hash row) ->
  verify_audit_rows security (events ++ [row]) = Ok (<[AuditRow.tenant_ref row := AuditRow.event_hash row]> roots).
Proof.
  intros Hn Hn' Hv Hc Hh. unfold verify_audit_rows in *.
  assert (forall tenant, filter (fun r => AuditRow.tenant_ref r = tenant) (ordered (events ++ [row]))
    = filter (fun r => AuditRow.tenant_ref r = tenant) (ordered events)
      ++ filter (fun r => AuditRow.tenant_ref r = tenant) [row]) as Hsplit.
  { intros tenant. fold (history tenant (events ++ [row])) (history tenant events).
    rewrite !history_in_order by done. by rewrite filter_app. }
  assert (exists roots', insert_each (verify_audit_row security) (ordered (events ++ [row])) ∅ = Ok roots') as (roots' & Hr).
  { apply verified_tenants. intros tenant. rewrite Hsplit, lookup_empty.
    pose proof (proj1 (verified_tenants _ _) (ex_intro _ _ Hv) tenant) as Hold. rewrite lookup_empty in Hold.
    rewrite filter_cons, filter_nil. destruct (decide (AuditRow.tenant_ref row = tenant)) as [<-|Hne]; [|by rewrite app_nil_r].
    apply chain_ok_snoc. split_and!; [done| |done]. rewrite (verified_lookup _ _ _ _ Hv), lookup_empty in Hc.
    unfold ordered. by destruct (last _). }
  unfold ordered in Hr. rewrite Hr. f_equal. apply map_eq. intros tenant. rewrite (verified_lookup _ _ _ tenant Hr).
  fold (ordered (events ++ [row])). rewrite Hsplit, filter_cons, filter_nil.
  destruct (decide (AuditRow.tenant_ref row = tenant)) as [<-|Hne].
  - by rewrite last_snoc, lookup_insert_eq.
  - by rewrite app_nil_r, lookup_insert_ne, (verified_lookup _ _ _ tenant Hv).
Qed.
End tenants.

Section extends.
Context {C : Crates} {P : UuidParser} (security : PostgresSecurityContextV1.t).

(** The columns of a stored event repeat its payload. *)
Lemma audit_row_columns session command t command_digest projection_digest previous hash :
  columns_match security (audit_row security session command t previous hash
    (audit_payload security command t command_digest projection_digest)) previous = true.
Proof. unfold columns_match. rewrite !andb_true_iff, !bool_decide_eq_true. split_and!; reflexivity. Qed.

Lemma numbered_snoc events row :
  numbered events -> Forall (fun old => (AuditRow.sequence old < AuditRow.sequence row)%Z) events -> numbered (events ++ [row]).
Proof.
  intros Hn Hf. apply StronglySorted_app_2; [|done|by repeat constructor].
  intros a b Ha ->%list_elem_of_singleton. rewrite Forall_forall in Hf. by apply Hf.
Qed.

(** The last hash a verification computes is the one the next event is chained to. *)
Lemma previous_hash_verified db roots tenant :
  numbered (Database.events db) -> verify_audit_rows security (Database.events db) = Ok roots ->
  previous_hash tenant db = default genesis_hash (roots !! tenant).
Proof.
  intros Hn Hv. rewrite (verified_lookup _ _ _ _ tenant Hv), lookup_empty.
  unfold previous_hash, events_of_tenant. rewrite <- (history_in_order tenant) by done.
  unfold history, ordered. by destruct (last _).
Qed.

Lemma committed_event key key_version trust_root session minted command now d db db' sealed :
  committed security key key_version trust_root session minted command now d db db' sealed ->
  let payload := audit_payload security command (dc_transition d) (dc_command_digest d) (dc_projection_digest d) in
  let previous := previous_hash (IdrCommandEnvelopeV1.tenant_ref command) db in
  exists hash, hash_event_v1 previous payload = Ok hash /\
    Database.events db' = Database.events db ++ [audit_row security session command (dc_transition d) previous hash payload].
Proof. intros Hc. destruct (ps_event _ _ _ _ _ _ _ _ _ _ _ (cm_tables _ _ _ _ _ _ _ _ _ _ _ _ Hc)) as (hash & Hh & He).
  exists hash. split; [exact Hh|]. by destruct db'. Qed.

Lemma committed_extends key key_version trust_root session minted command now d db db' sealed roots :
  committed security key key_version trust_root session minted command now d db db' sealed ->
  numbered (Database.events db) ->
  Forall (fun row => (AuditRow.sequence row < Session.audit_sequence session)%Z) (Database.events db) ->
  verify_audit_rows security (Database.events db) = Ok roots ->
  exists row, Database.events db' = Database.events db ++ [row] /\ numbered (Database.events db') /\
    AuditRow.run_id row = IdrCommandEnvelopeV1.run_id command /\ AuditRow.tenant_ref row = IdrCommandEnvelopeV1.tenant_ref command /\
    AuditRow.sequence row = Session.audit_sequence session /\
    get_str "command_digest" (AuditRow.payload row) = Some (dc_command_digest d) /\
    get_str "projection_digest" (AuditRow.payload row) = Some (dc_projection_digest d) /\
    verify_audit_rows security (Database.events db') = Ok (<[IdrCommandEnvelopeV1.tenant_ref command := AuditRow.event_hash row]> roots).
Proof.
  intros Hc Hn Hlt Hv. destruct (committed_event _ _ _ _ _ _ _ _ _ _ _ Hc) as (hash & Hh & He).
  set (row := audit_row _ _ _ _ _ _ _) in He. exists row. rewrite He.
  assert (numbered (Database.events db ++ [row])) as Hn' by by apply numbered_snoc.
  split_and!; try done. apply (verified_snoc security _ roots row); try done. cbn.
  rewrite <- (previous_hash_verified db) by done. apply audit_row_columns.
Qed.
End extends.

(** C10. An accepted command appends one event to the audit: it carries the digests of
    the command and of the run it leaves, it continues the chain of its tenant, and a
    database whose events verify still verifies with it, when the database numbers
    events upwards. *)
Theorem accepted_command_extends_the_chain {C : Crates} {P : UuidParser} {S} `{AnchorBackend S} security key key_version trust_root
    production human_model_write session publication minted command now db (anchor : S) db' anchor' receipt roots :
  Ledger.handle security key key_version trust_root production human_model_write session publication minted command now db anchor
    = (db', anchor', Ok receipt) ->
  IdrCommandReceiptV1.idempotent_replay receipt = false -> ledger_reachable security db ->
  numbered (Database.events db) ->
  Forall (fun row => (AuditRow.sequence row < Session.audit_sequence session)%Z) (Database.events db) ->
  verify_audit_rows security (Database.events db) = Ok roots ->
  exists row run command_digest, Database.events db' = Database.events db ++ [row] /\
    Database.runs db' !! IdrCommandEnvelopeV1.run_id command = Some run /\ Envelope.canonical_digest command = Ok command_digest /\
    get_str "command_digest" (AuditRow.payload row) = Some command_digest /\
    get_str "projection_digest" (AuditRow.payload row) = Some (RunRow.projection_digest run) /\
    verify_audit_rows security (Database.events db') = Ok (<[IdrCommandEnvelopeV1.tenant_ref command := AuditRow.event_hash row]> roots) /\
    numbered (Database.events db').
Proof.
  intros Hh Hfresh Hreach Hn Hlt Hv. destruct (ledger_reachable_refines _ _ Hreach) as [Hok _].
  destruct (handle_fresh _ _ _ _ _ _ _ _ _ _ _ _ _ _ _ _ Hh Hfresh) as (d & sealed & db1 & a & material & _ & _ & Hc & _ & ->).
  destruct (committed_extends _ _ _ _ _ _ _ _ _ _ _ _ _ Hc Hn Hlt Hv) as (row & He & Hn' & _ & _ & _ & Hcd & Hpd & Hv').
  pose proof (committed_runs _ Hc) as Hruns. destruct (committed_loaded _ Hc Hok) as (_ & Hid & _). rewrite Hid in Hruns.
  exists row. do 2 eexists. destruct db1. cbn in He, Hn', Hv', Hruns |- *. subst.
  split_and!; [done|apply lookup_insert_eq|exact (cm_command_digest _ _ _ _ _ _ _ _ _ _ _ _ Hc)|done..].
Qed.
