(* ===== verification/LedgerGaps.v ===== *)
(** * LedgerGaps: where the database and the transition engine disagree

    Five behaviours of the stored authority that the engine alone does not show: a run
    whose authority has lapsed accepts no command any more, not even the receipt of an
    effect already dispatched; a correction of the human model is never stored; a
    database does not verify as long as a run holds an admitted action, nor after a retry
    under a new admission; and the verification of the anchor leaves out who acted, under
    which policy, and what the events say. *)

From stdpp Require Import base list gmap fin_sets countable sorting strings.
From Stdlib Require Import NArith ZArith Lia.
From S2P Require Import Prelude Text Json Crates CanonicalJson Common Production ProductionProps ChainData ChainCommand ChainPayload ChainTransition ChainEvaluate ChainRepository Authority ChainProps ChainExecution AuthorityProps ChainRequest LedgerData Copies Ledger LedgerVerify LedgerProps LedgerAudit.

(** ** Lapsed authority *)

Section lapsed.
Context {C : Crates} {P : UuidParser} (security : PostgresSecurityContextV1.t).

Lemma committed_reservation_live key key_version trust_root session minted command now d db db' sealed e :
  committed security key key_version trust_root session minted command now d db db' sealed ->
  IdrRunProjectionV1.execution (dc_projection d) = Some e ->
  reservation_authority_lapsed (ExecutionProjectionV1.action_valid_until e) (ExecutionProjectionV1.admission_valid_until e) (ExecutionProjectionV1.authorization_valid_until e)
    (Session.clock session) = false.
Proof.
  intros Hc He. pose proof (committed_execution _ Hc) as Hw. rewrite He in Hw.
  exact (rv_live _ _ _ _ _ (ew_reservation _ _ _ _ _ _ Hw)).
Qed.

(** What a dispatched execution keeps under an accepted command *)
Lemma committed_dispatch key key_version trust_root production human_model_write session minted command now d db db' sealed row e :
  admit_command security production human_model_write command = Ok tt ->
  committed security key key_version trust_root session minted command now d db db' sealed ->
  ledger_reachable security db ->
  Database.runs db !! IdrCommandEnvelopeV1.run_id command = Some row -> IdrRunProjectionV1.execution (RunRow.projection row) = Some e ->
  dispatched (ExecutionProjectionV1.state e) = true ->
  exists s, IdrRunProjectionV1.execution (dc_projection d) = Some (ExecutionProjectionV1.with_state s e).
Proof.
  intros Ha Hc Hr Hrow He Hd. destruct (ledger_reachable_refines _ _ Hr) as [Hok Hreach].
  pose proof (committed_steps _ _ _ _ _ _ _ _ _ _ _ _ _ _ Ha Hc Hok) as Hs.
  assert ((view db).1 !! IdrCommandEnvelopeV1.run_id command = Some (RunRow.projection row)) as Hl by (cbn; by rewrite lookup_fmap, Hrow).
  destruct (authority_step_dispatch _ _ _ _ _ _ (authority_reachable_ok _ _ _ empty_tables_ok Hreach) Hs Hl He Hd)
    as (q & s & Hq & Hqe & _).
  destruct (committed_loaded _ Hc Hok) as (_ & Hid & _). cbn in Hq.
  rewrite (committed_runs _ Hc), fmap_insert, Hid, lookup_insert_eq in Hq. injection Hq as <-. by exists s.
Qed.
End lapsed.

(** C15. Once the Action, its admission or its authorisation has lapsed, a run whose
    effect was dispatched accepts no command: its receipt is refused like its
    reconciliation or cancellation, and nothing is written. *)
Theorem lapsed_authority_freezes_the_run {C : Crates} {P : UuidParser} {S} `{AnchorBackend S} security key key_version trust_root
    production human_model_write session publication minted command now db (anchor : S) db' anchor' outcome row e :
  ledger_reachable security db ->
  Database.runs db !! IdrCommandEnvelopeV1.run_id command = Some row -> IdrRunProjectionV1.execution (RunRow.projection row) = Some e ->
  dispatched (ExecutionProjectionV1.state e) = true -> Database.receipts db !! IdrCommandEnvelopeV1.command_id command = None ->
  reservation_authority_lapsed (ExecutionProjectionV1.action_valid_until e) (ExecutionProjectionV1.admission_valid_until e) (ExecutionProjectionV1.authorization_valid_until e)
    (Session.clock session) = true ->
  Ledger.handle security key key_version trust_root production human_model_write session publication minted command now db anchor
    = (db', anchor', outcome) ->
  db' = db /\ anchor' = anchor /\ is_err outcome = true.
Proof.
  intros Hr Hrow He Hd Hnew Hlapsed [(-> & -> & Ho)|(d & sealed & db1 & Ha & Hc & _)]%handle_cases.
  - rewrite Hnew in Ho. by destruct Ho.
  - destruct (committed_dispatch _ _ _ _ _ _ _ _ _ _ _ _ _ _ _ _ Ha Hc Hr Hrow He Hd) as (s & Hq).
    pose proof (committed_reservation_live _ _ _ _ _ _ _ _ _ _ _ _ _ Hc Hq) as Hlive. cbn in Hlive. congruence.
Qed.

(** ** Corrections *)

Section corrections.
Context {C : Crates} {P : UuidParser} (security : PostgresSecurityContextV1.t).

Lemma insert_dependency_Ok row rows rows' : insert_dependency row rows = Ok rows' -> rows' = rows ++ [row] /\
  Forall (fun old => ~ (DependencyRow.dependent old = DependencyRow.dependent row /\
                        DependencyRow.dependency old = DependencyRow.dependency row)) rows.
Proof.
  unfold insert_dependency. intros H. apply reject_Ok in H as [H%existsb_false [= <-]]. split; [done|].
  eapply Forall_impl; [exact H|]. cbn. intros old [Hf|Hf]%andb_false_iff [H1 H2]; by apply bool_decide_eq_false in Hf.
Qed.

(** No row is inserted beside one with its key. *)
Lemma insert_dependencies_distinct rows table table' old new :
  insert_each insert_dependency rows table = Ok table' -> old ∈ table -> new ∈ rows ->
  ~ (DependencyRow.dependent old = DependencyRow.dependent new /\ DependencyRow.dependency old = DependencyRow.dependency new).
Proof.
  revert table. induction rows as [|row rows IH]; intros table; cbn [insert_each].
  { intros _ _ ?%not_elem_of_nil. done. }
  intros (middle & [-> Hf]%insert_dependency_Ok & H)%bind_Ok Hold [->|Hnew]%elem_of_cons.
  - rewrite Forall_forall in Hf. by apply Hf.
  - apply (IH _ H); [|done]. apply elem_of_app. by left.
Qed.

(** A record whose previous revision is also one of its dependencies *)
Lemma previous_dependency_twice command t db db' r target :
  persist_contract_dependencies command t db = Ok db' -> IdrTransitionV1.authoritative_record t = Some r ->
  target ∈ dependencies_of (IdrCommandEnvelopeV1.command command) (IdrRunProjectionV1.records (IdrTransitionV1.projection t)) (AuthoritativeRecordV1.record_ref r) ->
  1 < AuthoritativeRecordRefV1.revision (AuthoritativeRecordV1.record_ref r) ->
  node target <> (AuthoritativeRecordRefV1.record_id (AuthoritativeRecordV1.record_ref r), AuthoritativeRecordRefV1.revision (AuthoritativeRecordV1.record_ref r) - 1).
Proof.
  unfold persist_contract_dependencies. intros H Hr Hin Hrev Hnode. rewrite Hr in H. cbv zeta in H.
  apply bind_Ok in H as (previous & Hp & H). apply bind_unit_Ok in H as [_ H].
  apply bind_Ok in H as (rows & Hrows & _). unfold previous_revision in Hp. rewrite (proj2 (N.ltb_lt _ _) Hrev) in Hp.
  apply bind_Ok in Hp as (_ & _ & Hp). apply bind_Ok in Hp as (row & _ & [= <-]).
  apply insert_each_app in Hrows as (middle & Hm & Hrows). cbn [insert_each] in Hm.
  apply bind_Ok in Hm as (m & [-> _]%insert_dependency_Ok & [= <-]).
  eapply (insert_dependencies_distinct _ _ _ (DependencyRow.mk (node (AuthoritativeRecordV1.record_ref r)) _ _)
    (DependencyRow.mk (node (AuthoritativeRecordV1.record_ref r)) (node target) (AuthoritativeRecordRefV1.record_digest target)) Hrows).
  - apply elem_of_app. right. by left.
  - apply list_elem_of_fmap. exists target. split; [done|]. unfold btree_elements. by rewrite elem_of_sort, elem_of_elements.
  - by split.
Qed.

Lemma committed_correction key key_version trust_root session minted command now d db db' sealed target correction :
  committed security key key_version trust_root session minted command now d db db' sealed ->
  IdrCommandEnvelopeV1.command command = IdrCommandV1.CorrectHumanModelAssertion target correction -> AuthoritativeRecordRefV1.revision target = 0.
Proof.
  intros Hc Hcmd. destruct (ps_dependencies _ _ _ _ _ _ _ _ _ _ _ (cm_tables _ _ _ _ _ _ _ _ _ _ _ _ Hc)) as (before & _ & Hdeps).
  destruct (choose_transition_Ok _ _ _ _ _ _ _ _ (cm_chosen _ _ _ _ _ _ _ _ _ _ _ _ Hc)) as (t0 & Ht0 & Ht).
  assert (evaluate_authoritative_transition_v1 minted command now (dc_verified d) (dc_loaded d) = Ok t0) as Hev.
  { destruct Ht0 as [?|[Hb _]]; [done|]. unfold reverify_bound_action_admission_proofs in Hb. by rewrite Hcmd in Hb. }
  destruct (correction_issues _ _ _ _ _ _ _ _ Hcmd Hev) as (_ & _ & r & Hr & _ & _ & Hid & Hrev & _).
  assert (IdrTransitionV1.authoritative_record (dc_transition d) = Some r) as Hr' by (by destruct Ht as [->|(rs & b & ->)]).
  destruct (N.eq_dec (AuthoritativeRecordRefV1.revision target) 0) as [|Hne]; [done|]. exfalso.
  eapply (previous_dependency_twice _ _ _ _ _ target Hdeps Hr').
  - rewrite Hcmd. cbn. set_solver.
  - rewrite Hrev. lia.
  - unfold node. rewrite Hid, Hrev. f_equal. lia.
Qed.
End corrections.

(** A correction of the human model is never stored.  Its record is the next
    revision of its target, so the target is entered among the dependencies twice: as
    the previous revision and as the record the correction is derived from.  The second
    row breaks the primary key, and the command leaves nothing. *)
Theorem correction_is_never_stored {C : Crates} {P : UuidParser} {S} `{AnchorBackend S} security key key_version trust_root
    production human_model_write session publication minted command now db (anchor : S) db' anchor' outcome target correction :
  IdrCommandEnvelopeV1.command command = IdrCommandV1.CorrectHumanModelAssertion target correction -> 0 < AuthoritativeRecordRefV1.revision target ->
  Database.receipts db !! IdrCommandEnvelopeV1.command_id command = None ->
  Ledger.handle security key key_version trust_root production human_model_write session publication minted command now db anchor
    = (db', anchor', outcome) ->
  db' = db /\ anchor' = anchor /\ is_err outcome = true.
Proof.
  intros Hcmd Hrev Hnew [(-> & -> & Ho)|(d & sealed & db1 & _ & Hc & _)]%handle_cases.
  - rewrite Hnew in Ho. by destruct Ho.
  - pose proof (committed_correction _ _ _ _ _ _ _ _ _ _ _ _ _ _ Hc Hcmd). lia.
Qed.

(** ** Admitted actions *)

Section admission.
Context {C : Crates} {P : UuidParser} (security : PostgresSecurityContextV1.t).

Lemma verified_run key key_version from_value db run row :
  verify_database_integrity security key key_version from_value db = Ok tt ->
  Database.runs db !! run = Some row -> verify_run_row security db run row = Ok tt.
Proof.
  unfold verify_database_integrity. intros [_ H]%bind_unit_Ok Hrow. apply bind_Ok in H as (_ & _ & H).
  apply bind_unit_Ok in H as [H _]. apply for_each_Ok in H. rewrite Forall_forall in H.
  apply (H (run, row)). by apply elem_of_map_to_list.
Qed.

(** The identifiers a stored record keeps of the proofs it rests on *)
Lemma stored_proof_ids record :
  get (txt "proof_ids") (to_value (Json.to_json record)) ≫= as_array
    = Some (map (fun id => Str (uuid_hyphenated id)) (AuthoritativeRecordV1.proof_ids record)).
Proof.
  assert (get (txt "proof_ids") (to_value (Json.to_json record)) = Some (to_value (Json.to_json (AuthoritativeRecordV1.proof_ids record)))) as -> by reflexivity.
  cbn. f_equal. by rewrite map_map.
Qed.

Context (uuid_parses : forall u : Uuid, parse_uuid (uuid_hyphenated u) = Some u).

Lemma parsed_proof_ids ids :
  collect_map (fun id => ok_or IdrRuntimeErrorV1.IntegrityViolation (as_str id ≫= parse_uuid)) (map (fun id => Str (uuid_hyphenated id)) ids) = Ok ids.
Proof. apply collect_map_Ok. apply Forall2_fmap_l, Forall_Forall2_diag, Forall_true. intros id. cbn. by rewrite uuid_parses. Qed.

(** An admission verifies only when its record rests on as many proofs as there are
    kinds of admission proof. *)
Lemma verified_admission db q admission record row :
  verify_action_admission_projection db q = Ok tt -> IdrRunProjectionV1.action_admission q = Some admission ->
  find_record db (node (ActionAdmissionProjectionV1.admission_ref admission)) = Some row ->
  ContractRow.record row = to_value (Json.to_json record) ->
  N.of_nat (size (list_to_set (AuthoritativeRecordV1.proof_ids record) : gset Uuid)) = lenN ACTION_ADMISSION_PROOF_KINDS_V1.
Proof.
  intros Hv Ha Hrow Hrec. unfold verify_action_admission_projection in Hv. rewrite Ha in Hv. cbv zeta in Hv.
  apply reject_Ok in Hv as [_ Hv]. apply bind_Ok in Hv as (_ & _ & Hv). apply bind_Ok in Hv as (row' & Hr%ok_or_Ok & Hv).
  rewrite Hrow in Hr. injection Hr as <-. apply bind_Ok in Hv as (ids & Hids%ok_or_Ok & Hv).
  rewrite Hrec, stored_proof_ids in Hids. injection Hids as <-. rewrite parsed_proof_ids in Hv.
  apply bind_Ok in Hv as (ids & [= <-] & Hv). apply reject_Ok in Hv as [[[Hs Hset]%orb_false_iff _]%orb_false_iff _].
  apply negb_false_iff, N.eqb_eq in Hs. apply negb_false_iff, bool_decide_eq_true in Hset. by rewrite Hset.
Qed.

(** Every command that carries the caller's authentication beside its own proofs has as
    many distinct proofs as kinds. *)
Lemma verified_proof_count trust_root command now verified :
  Envelope.validate command = Ok tt -> verify_proofs_inside_transaction security trust_root command now = Ok verified ->
  size (list_to_set (proof_ids_of verified) : gset Uuid) = size (Envelope.required_proof_kinds command).
Proof.
  intros Hv (subject & principal & _ & _ & Hkinds & Hn & Hcov)%verify_proofs_Ok.
  assert (proof_ids_of verified = map (fun e => ProductionProofClaimsV1.proof_id (ProductionProofEnvelopeV1.claims e)) (IdrCommandEnvelopeV1.proofs command)) as ->.
  { clear -Hcov. induction Hcov as [|e v es vs [] _ IH]; [done|]. cbn. by rewrite cv_id, <- IH. }
  rewrite size_list_to_set.
  - rewrite <- Hkinds, size_list_to_set by done. by rewrite !length_map.
  - unfold Envelope.validate in Hv. apply reject_Ok in Hv as [_ Hv]. apply bind_unit_Ok in Hv as [Hp _].
    by apply validate_proofs_distinct in Hp as [? _].
Qed.

Lemma admission_proof_count trust_root command now verified r digest pr ow key :
  IdrCommandEnvelopeV1.command command = IdrCommandV1.AdmitAction r digest pr ow key -> Envelope.validate command = Ok tt ->
  verify_proofs_inside_transaction security trust_root command now = Ok verified ->
  size (list_to_set (proof_ids_of verified) : gset Uuid) = 6%nat.
Proof.
  intros Hc Hv Hp. rewrite (verified_proof_count _ _ _ _ Hv Hp). unfold Envelope.required_proof_kinds. rewrite Hc.
  vm_compute. reflexivity.
Qed.

Lemma fresh_record rows row :
  ContractRow.revision row = contiguous_revision (ContractRow.record_id row) rows ->
  find_first (fun r => row_node r == row_node row) (rows ++ [row]) = Some row.
Proof.
  intros Hrev. apply find_first_unique.
  - apply elem_of_app. right. by left.
  - by apply bool_decide_eq_true.
  - intros r [Hin| ->%list_elem_of_singleton]%elem_of_app Hn%bool_decide_eq_true; [exfalso|done].
    unfold row_node in Hn. injection Hn as Hid Hr. unfold contiguous_revision in Hrev.
    assert (ContractRow.revision r <= foldr N.max 0 (map ContractRow.revision (filter (fun r => ContractRow.record_id r = ContractRow.record_id row) rows))); [|lia].
    clear Hrev Hr. induction rows as [|r' rows IH]; [by apply not_elem_of_nil in Hin|]. rewrite filter_cons.
    apply elem_of_cons in Hin as [->|Hin].
    + rewrite decide_True by done. cbn. lia.
    + specialize (IH Hin). case_decide; cbn; lia.
Qed.
End admission.

(** *** The admission a run holds *)

Section held.
Context {C : Crates} {P : UuidParser}.

(** Nothing but an admission gives a run an admission. *)
Definition admission_kept (p q : IdrRunProjectionV1.t) : Prop :=
  IdrRunProjectionV1.action_admission q = None \/ IdrRunProjectionV1.action_admission q = IdrRunProjectionV1.action_admission p.

Lemma admission_kept_refl p : admission_kept p p.
Proof. by right. Qed.

Lemma admission_kept_trans p q r : admission_kept p q -> admission_kept q r -> admission_kept p r.
Proof. unfold admission_kept. intros H [->| ->]; auto. Qed.

Lemma revoke_admission p : IdrRunProjectionV1.action_admission (revoke_unless_terminal p) = IdrRunProjectionV1.action_admission p.
Proof. unfold revoke_unless_terminal. by repeat case_match. Qed.

Lemma ensure_admission p r pe now q b :
  ensure_current_execution_action p r pe now = Ok (q, b) ->
  IdrRunProjectionV1.action_admission q = IdrRunProjectionV1.action_admission p.
Proof. unfold ensure_current_execution_action. intros H. by inv_arm. Qed.

Lemma withdraw_admission p r : admission_kept p (withdraw p r).
Proof.
  unfold withdraw. set (p0 := IdrRunProjectionV1.with_invalidated_records _ _).
  assert (admission_kept p0 (withdraw_bindings r p0)) as Hb.
  { unfold withdraw_bindings, clear_if, admission_kept.
    repeat case_match; cbn; auto; destruct (IdrRunProjectionV1.action_admission p); cbn; try case_match; auto. }
  apply (admission_kept_trans _ (withdraw_bindings r p0)); [exact Hb|].
  unfold withdraw_execution. repeat case_match; by right.
Qed.

(** What an arm does to it: keeps it, drops it, or names the record it issues, which
    rests on every proof of the command. *)
Lemma apply_command_admission minted command now proofs p q record event :
  apply_command minted command now proofs p = Ok (q, record, event) ->
  admission_kept p q \/
  exists r digest pr ow key, IdrCommandEnvelopeV1.command command = IdrCommandV1.AdmitAction r digest pr ow key /\
    exists issued admission, record = Some issued /\ IdrRunProjectionV1.action_admission q = Some admission /\
      ActionAdmissionProjectionV1.admission_ref admission = AuthoritativeRecordV1.record_ref issued /\
      AuthoritativeRecordV1.proof_ids issued = proof_ids_of proofs.
Proof.
  unfold apply_command. intros H. destruct (IdrCommandEnvelopeV1.command command) eqn:Hc;
    [left|left|left|left|left|left|left|left|right|left|left|left|left|left|left|left|left|left|left|left|left|left|left].
  - unfold start_run in H. inv_arm. by right.
  - unfold record_context in H. inv_arm. by right.
  - unfold record_intent in H. inv_arm; by right.
  - unfold record_decision in H. inv_arm. by right.
  - unfold record_turn in H. inv_arm. by right.
  - unfold record_response in H. inv_arm. by right.
  - unfold consume_response_send in H. inv_arm. by right.
  - unfold record_action in H. inv_arm. by left.
  - do 5 eexists. split; [reflexivity|]. unfold admit_action in H. inv_arm.
    match goal with E : issue_internal_record _ _ _ _ _ _ _ _ _ _ = Ok ?issued |- _ =>
      apply issue_internal_Ok in E as (_ & _ & s & tn & cd & rd & _ & _ & Hissued) end.
    do 2 eexists. split_and!; [reflexivity|cbn; reflexivity|done|]. by rewrite Hissued.
  - unfold reserve_execution in H. inv_arm. by right.
  - unfold recover_permit in H. inv_arm; by right.
  - unfold deliver_permit, advance_permit in H. inv_arm; right; cbn; eauto using ensure_admission.
  - unfold start_dispatch, advance_permit in H. inv_arm; right; cbn; eauto using ensure_admission.
  - unfold commit_execution_receipt in H. inv_arm. by right.
  - unfold reconcile_execution in H. inv_arm. by right.
  - unfold expire_execution_lease in H. inv_arm; by right.
  - unfold invalidate_record in H. inv_arm. right. cbn. by repeat case_match.
  - unfold record_outcome in H. inv_arm. by right.
  - unfold propose_human_model_candidate in H. inv_arm. by right.
  - unfold record_human_model_promotion in H. inv_arm. by right.
  - unfold promote_human_model_assertion in H. inv_arm. by right.
  - unfold correct_human_model_assertion in H. inv_arm. by right.
  - unfold cancel_run in H. inv_arm. by right.
Qed.

(** The run a transaction leaves *)
Lemma chosen_admission closure minted bound command now proofs p t :
  choose_transition closure minted bound command now proofs p = Ok t ->
  admission_kept p (IdrTransitionV1.projection t) \/
  exists r digest pr ow key, IdrCommandEnvelopeV1.command command = IdrCommandV1.AdmitAction r digest pr ow key /\
    exists issued, IdrTransitionV1.authoritative_record t = Some issued /\
      AuthoritativeRecordV1.proof_ids issued = proof_ids_of proofs /\
      forall admission, IdrRunProjectionV1.action_admission (IdrTransitionV1.projection t) = Some admission ->
        ActionAdmissionProjectionV1.admission_ref admission = AuthoritativeRecordV1.record_ref issued.
Proof.
  intros (t0 & Ht & Hc)%choose_transition_Ok.
  assert (admission_kept (IdrTransitionV1.projection t0) (IdrTransitionV1.projection t) /\
    IdrTransitionV1.authoritative_record t = IdrTransitionV1.authoritative_record t0) as [Hk Hr].
  { destruct Hc as [->|(rs & b & ->)]; [by split; [apply admission_kept_refl|]|split; [|done]].
    apply (closure_keeps (admission_kept (IdrTransitionV1.projection t0))); [|by intros s q|apply admission_kept_refl].
    intros q r Hq. eapply admission_kept_trans; [exact Hq|apply withdraw_admission]. }
  assert (admission_kept p (IdrTransitionV1.projection t0) \/ exists q event, accepted_by minted command now proofs p t0 q event) as H0.
  { destruct Ht as [(q & event & Ha)%evaluate_Ok|[_ (a & _ & Ht)%failure_Ok]]; [right; by exists q, event|left].
    cbv zeta in Ht. rewrite Ht. by right. }
  destruct H0 as [H0|(q & event & [])]; [left; by eapply admission_kept_trans|].
  assert (IdrRunProjectionV1.action_admission (IdrTransitionV1.projection t0) = IdrRunProjectionV1.action_admission q) as Hq.
  { rewrite ac_transition. cbn. by destruct (IdrTransitionV1.authoritative_record t0). }
  apply apply_command_admission in ac_arm as [Hkept|(r & digest & pr & ow & key & Hc' & issued & adm & Hi & Ha & Hn & Hids)].
  - left. eapply admission_kept_trans; [|exact Hk]. unfold admission_kept. by rewrite Hq.
  - right. exists r, digest, pr, ow, key. split; [done|]. exists issued. rewrite Hr. split_and!; [done..|].
    intros admission Hadm. destruct Hk as [Hk|Hk]; rewrite Hk in Hadm; [done|]. rewrite Hq, Ha in Hadm. by injection Hadm as <-.
Qed.

(** *** The record of a held admission *)

(** The record of an admission is stored and rests on six proofs. *)
Definition six_proofs (rows : list ContractRow.t) (p : IdrRunProjectionV1.t) : Prop :=
  forall admission, IdrRunProjectionV1.action_admission p = Some admission ->
  exists row record, find_first (fun r => row_node r == node (ActionAdmissionProjectionV1.admission_ref admission)) rows = Some row /\
    ContractRow.record row = to_value (Json.to_json record) /\
    size (list_to_set (AuthoritativeRecordV1.proof_ids record) : gset Uuid) = 6%nat.

Lemma six_proofs_kept rows rows' p q : admission_kept p q -> six_proofs rows p -> six_proofs (rows ++ rows') q.
Proof.
  intros Hk Hp admission Ha. destruct Hk as [Hk|Hk]; rewrite Hk in Ha; [done|].
  destruct (Hp _ Ha) as (row & record & Hf & Hrec). exists row, record. split; [by apply find_first_app|done].
Qed.

Context (security : PostgresSecurityContextV1.t).

Definition admissions_recorded (db : Database.t) : Prop :=
  forall run row, Database.runs db !! run = Some row -> six_proofs (Database.records db) (RunRow.projection row).

(** An accepted command appends at most a record. *)
Lemma committed_records key key_version trust_root session minted command now d db db' sealed :
  committed security key key_version trust_root session minted command now d db db' sealed ->
  exists rows, Database.records db' = Database.records db ++ rows /\
    forall issued, IdrTransitionV1.authoritative_record (dc_transition d) = Some issued -> rows = [contract_row issued] /\
      ContractRow.revision (contract_row issued) = contiguous_revision (ContractRow.record_id (contract_row issued)) (Database.records db).
Proof.
  intros Hc. pose proof (ps_record _ _ _ _ _ _ _ _ _ _ _ (cm_tables _ _ _ _ _ _ _ _ _ _ _ _ Hc)) as Hr.
  destruct (IdrTransitionV1.authoritative_record (dc_transition d)) as [issued|].
  - destruct Hr as (Hr & Hrev & _). exists [contract_row issued]. split; [by destruct db'|]. intros ? [= <-]. by split.
  - destruct Hr as [_ Hr]. exists []. rewrite app_nil_r. split; [by destruct db'|]. by intros ? [=].
Qed.

Lemma committed_admission key key_version trust_root production human_model_write session minted command now d db db' sealed :
  admit_command security production human_model_write command = Ok tt ->
  committed security key key_version trust_root session minted command now d db db' sealed ->
  ledger_ok db -> admissions_recorded db -> admissions_recorded db'.
Proof.
  intros Ha Hc Hok Hdb. destruct (committed_records _ _ _ _ _ _ _ _ _ _ _ Hc) as (rows & Hrows & Hissued).
  intros run row. rewrite (committed_runs _ Hc), Hrows.
  intros [[_ <-]|[_ Hrow]]%lookup_insert_Some; [cbn|eapply six_proofs_kept; [apply admission_kept_refl|by eapply Hdb]].
  destruct (chosen_admission _ _ _ _ _ _ _ _ (cm_chosen _ _ _ _ _ _ _ _ _ _ _ _ Hc))
    as [Hk|(r & digest & pr & ow & k & Hcmd & issued & Hi & Hids & Hadm)].
  - apply (six_proofs_kept _ _ _ _ Hk). destruct (committed_loaded _ Hc Hok) as (_ & _ & [Hnone|(old & Hold & <-)]); [|by eapply Hdb].
    destruct (load_run_Ok _ _ _ _ (cm_loaded _ _ _ _ _ _ _ _ _ _ _ _ Hc)) as [Hl _].
    destruct (load_projection_Ok _ _ _ _ Hl) as [H|[_ ->]]; [|by intros ? [=]].
    cbn in H. by rewrite lookup_fmap, Hnone in H.
  - intros admission Hheld. destruct (Hissued _ Hi) as [-> Hrev]. exists (contract_row issued), issued.
    rewrite (Hadm _ Hheld). split_and!; [exact (fresh_record _ (contract_row issued) Hrev)|done|]. rewrite Hids.
    pose proof (cm_proofs _ _ _ _ _ _ _ _ _ _ _ _ Hc) as Hp. unfold admit_command in Ha. apply bind_unit_Ok in Ha as [_ Ha].
    apply reject_Ok in Ha as [_ Ha]. apply bind_unit_Ok in Ha as [Hval _]. by eapply admission_proof_count.
Qed.

Lemma reachable_admissions db : ledger_reachable security db -> admissions_recorded db.
Proof.
  assert (forall db0 db1, rtc (ledger_step security) db0 db1 -> ledger_ok db0 -> admissions_recorded db0 -> admissions_recorded db1) as Hgen.
  { induction 1 as [|db0 db1 db2 Hstep _ IH]; [done|]. intros Hok Hdb.
    apply IH; [by eapply ledger_step_refines|]. revert Hok Hdb. clear IH. destruct Hstep as [? ? ? ? ? ? ? ? ? ? ? ? ? ? ? ? ? H].
    intros Hok Hdb. apply handle_cases in H as [[-> _]|(d & sealed & db3 & Ha & Hc & Hw)]; [done|].
    pose proof (committed_admission _ _ _ _ _ _ _ _ _ _ _ _ _ Ha Hc Hok Hdb) as H3.
    by destruct Hw as [->|(a & material & _ & _ & _ & _ & _ & _ & ->)]; [|destruct db3]. }
  intros H. apply (Hgen _ _ H); [apply empty_ledger_ok|]. intros run row. cbn. by rewrite lookup_empty.
Qed.
End held.

(** C14. A database in which some run holds an admitted action does not verify.  The
    record of the admission rests on six proofs, the caller's authentication among them,
    the run keeps the five that admit the action, and the verification demands that they
    are the same.  As long as the run holds the admission, whatever commands came after
    it, the check of the database fails that every start of the orchestrator makes; an
    action that is withdrawn or recorded anew takes its admission with it. *)
Theorem admitted_action_breaks_integrity {C : Crates} {P : UuidParser} security key key_version from_value db run row admission :
  (forall u : Uuid, parse_uuid (uuid_hyphenated u) = Some u) -> ledger_reachable security db ->
  Database.runs db !! run = Some row -> IdrRunProjectionV1.action_admission (RunRow.projection row) = Some admission ->
  is_err (verify_database_integrity security key key_version from_value db) = true.
Proof.
  intros Hparse Hreach Hrow Hadm. destruct (verify_database_integrity _ _ _ _ _) as [[]|err] eqn:Hv; [exfalso|done].
  apply (verified_run _ _ _ _ _ _ _ Hv) in Hrow as Hr. unfold verify_run_row in Hr. cbv zeta in Hr. apply bind_Ok in Hr as (dg & _ & Hr).
  apply reject_Ok in Hr as [_ Hr]. apply bind_unit_Ok in Hr as [Hr _].
  destruct (reachable_admissions _ _ Hreach _ _ Hrow _ Hadm) as (crow & record & Hf & Hrec & Hsize).
  pose proof (verified_admission Hparse db _ admission record crow Hr Hadm Hf Hrec) as Hn. rewrite Hsize in Hn.
  vm_compute in Hn. discriminate Hn.
Qed.

(** ** A retry under a new admission *)

Section readmission.
Context {C : Crates} {P : UuidParser} (security : PostgresSecurityContextV1.t).

(** A reservation keeps the admission it was made under. *)
Lemma reserved_admission governance clock old row new before :
  reserved governance clock old row new -> old !! ReservationRow.reservation_id row = Some before ->
  exists after, new !! ReservationRow.reservation_id row = Some after /\
    ReservationRow.action_admission after = ReservationRow.action_admission before.
Proof.
  intros [_ (row' & -> & [[Hn _]|(b & Hb & _ & _ & ->)])] Hold; [congruence|].
  exists (ReservationRow.update (ReservationRow.state row) (ReservationRow.aggregate_version row) (ReservationRow.updated_at_micros row) b).
  rewrite lookup_insert_eq. split; [done|]. assert (b = before) as -> by congruence. done.
Qed.

Lemma verified_reservation db q e :
  verify_current_execution_projection db q = Ok tt -> IdrRunProjectionV1.execution q = Some e ->
  exists r, Database.reservations db !! ExecutionProjectionV1.reservation_id e = Some r /\
    ReservationRow.action_admission r = node (ExecutionProjectionV1.action_admission_ref e).
Proof.
  unfold verify_current_execution_projection. intros H He. rewrite He in H.
  apply bind_Ok in H as (r & Hr%ok_or_Ok & H). apply bind_Ok in H as (f & _ & H). apply bind_Ok in H as (fd & _ & H).
  apply reject_Ok in H as [Hm%negb_false_iff _]. exists r. split; [done|].
  unfold reservation_matches in Hm. rewrite !andb_true_iff, !bool_decide_eq_true in Hm. by destruct_and!.
Qed.
End readmission.

(** A retry under a new admission does not verify either.  The reservation keeps the
    admission it was first made under while the run's execution names the new one, and
    the verification of the execution compares the two. *)
Theorem readmitted_retry_breaks_integrity {C : Crates} {P : UuidParser} {S} `{AnchorBackend S} security key key_version trust_root
    production human_model_write session publication minted command now db (anchor : S) db' anchor' receipt row e reservation :
  ledger_reachable security db ->
  Ledger.handle security key key_version trust_root production human_model_write session publication minted command now db anchor
    = (db', anchor', Ok receipt) ->
  IdrCommandReceiptV1.idempotent_replay receipt = false ->
  Database.runs db' !! IdrCommandEnvelopeV1.run_id command = Some row -> IdrRunProjectionV1.execution (RunRow.projection row) = Some e ->
  Database.reservations db !! ExecutionProjectionV1.reservation_id e = Some reservation ->
  ReservationRow.action_admission reservation <> node (ExecutionProjectionV1.action_admission_ref e) ->
  is_err (verify_current_execution_projection db' (RunRow.projection row)) = true.
Proof.
  intros Hreach Hh Hfresh Hrow He Hres Hne. destruct (ledger_reachable_refines _ _ Hreach) as [Hok _].
  destruct (handle_fresh _ _ _ _ _ _ _ _ _ _ _ _ _ _ _ _ Hh Hfresh) as (d & sealed & db1 & a & material & _ & _ & Hc & _ & ->).
  destruct (verify_current_execution_projection _ _) as [[]|err] eqn:Hv; [exfalso|done].
  destruct (verified_reservation _ _ _ Hv He) as (r & Hr & Ha).
  pose proof (committed_runs _ Hc) as Hruns. destruct (committed_loaded _ Hc Hok) as (_ & Hid & _). rewrite Hid in Hruns.
  pose proof (committed_execution _ Hc) as Hw. destruct db1. cbn in Hrow, Hr, Hruns, Hw. subst.
  rewrite lookup_insert_eq in Hrow. injection Hrow as <-. cbn in He. rewrite He in Hw.
  destruct (reserved_admission _ _ _ _ _ _ (ew_reservation _ _ _ _ _ _ Hw) Hres) as (after & Hafter & Hadm).
  cbn in Hafter. congruence.
Qed.

(** ** What the anchor does not bind *)

Section anchor.
Context {C : Crates} {P : UuidParser} (security : PostgresSecurityContextV1.t) (key : list N) (key_version : Z).
Context (from_value : Value -> option AuthoritativeRecordV1.t).

(** Two events alike in what the rest of the verification reads: their place, their run
    and version, their attestation, and three digests of their payload.  Their actors,
    policies and event payloads may differ. *)
Definition alike (a b : AuditRow.t) : Prop :=
  AuditRow.sequence a = AuditRow.sequence b /\ AuditRow.global_sequence a = AuditRow.global_sequence b /\
  AuditRow.idr_attestation_id a = AuditRow.idr_attestation_id b /\ AuditRow.run_id a = AuditRow.run_id b /\
  AuditRow.aggregate_version a = AuditRow.aggregate_version b /\
  get_str "projection_digest" (AuditRow.payload a) = get_str "projection_digest" (AuditRow.payload b) /\
  get_str "command_id" (AuditRow.payload a) = get_str "command_id" (AuditRow.payload b) /\
  get_str "command_digest" (AuditRow.payload a) = get_str "command_digest" (AuditRow.payload b).

Lemma alike_last events events' run :
  Forall2 alike events events' ->
  option_Forall2 alike (last (filter (fun row => AuditRow.run_id row = run) events))
    (last (filter (fun row => AuditRow.run_id row = run) events')).
Proof.
  induction 1 as [|a b events events' Hab _ IH].
  { constructor. }
  rewrite !filter_cons. pose proof Hab as (_ & _ & _ & Hrun & _). rewrite Hrun.
  destruct (decide (AuditRow.run_id b = run)); [|done]. rewrite !last_cons.
  inversion IH as [? ? Hl Ha Hb|Ha Hb]; by constructor.
Qed.

Lemma alike_digest run db events' :
  Forall2 alike (Database.events db) events' ->
  audited_digest run (Database.with_events events' db) = audited_digest run db.
Proof.
  intros H. unfold audited_digest, events_of_run. destruct db. cbn in *.
  apply (alike_last _ _ run) in H. destruct H as [a b (_ & _ & _ & _ & _ & Hd & _)|]; cbn; [done|done].
Qed.

Lemma existsb_Forall2 {A} (f g : A -> bool) l l' :
  Forall2 (fun a b => f a = g b) l l' -> existsb f l = existsb g l'.
Proof. induction 1 as [|a b l l' Hab _ IH]; [done|]. cbn. by rewrite Hab, IH. Qed.

Lemma existsb_ext {A} (f g : A -> bool) l : (forall a, f a = g a) -> existsb f l = existsb g l.
Proof. intros H. induction l as [|a l IH]; [done|]. cbn. by rewrite H, IH. Qed.

Lemma alike_receipt db events' id row :
  Forall2 alike (Database.events db) events' -> forged_receipt (Database.with_events events' db) id row = forged_receipt db id row.
Proof.
  intros H. unfold forged_receipt. destruct db. cbn in *. apply existsb_ext. intros entry. do 3 f_equal.
  symmetry. apply existsb_Forall2. eapply Forall2_impl; [exact H|]. cbn.
  intros a b (-> & -> & -> & -> & -> & _ & -> & ->). done.
Qed.

Lemma alike_attestations db events' :
  Forall2 alike (Database.events db) events' ->
  verify_all_orchestrator_attestations security key key_version (Database.with_events events' db)
    = verify_all_orchestrator_attestations security key key_version db.
Proof.
  intros H. unfold verify_all_orchestrator_attestations.
  erewrite (existsb_ext _ (fun entry => forged_receipt db entry.1 entry.2)) by (intros; by apply alike_receipt).
  by destruct db.
Qed.

Lemma alike_run db events' run row :
  Forall2 alike (Database.events db) events' ->
  verify_run_row security (Database.with_events events' db) run row = verify_run_row security db run row.
Proof. intros H. unfold verify_run_row. rewrite (alike_digest _ _ _ H). by destruct db. Qed.

Lemma for_each_ext {A} (f g : A -> Chain unit) l : (forall a, f a = g a) -> for_each f l = for_each g l.
Proof. intros H. induction l as [|a l IH]; [done|]. cbn. by rewrite H, IH. Qed.

Lemma alike_integrity db events' roots :
  Forall2 alike (Database.events db) events' -> verify_audit_rows security events' = Ok roots ->
  verify_database_integrity security key key_version from_value db = Ok tt ->
  verify_database_integrity security key key_version from_value (Database.with_events events' db) = Ok tt.
Proof.
  intros H Hv. unfold verify_database_integrity. intros [Ha Hi]%bind_unit_Ok. apply bind_Ok in Hi as (roots0 & _ & Hi).
  rewrite (alike_attestations _ _ H).
  rewrite (for_each_ext _ (fun entry => verify_run_row security db entry.1 entry.2)) by (intros; by apply alike_run).
  apply bind_unit_Ok. split; [exact Ha|]. apply bind_Ok. exists roots. split; [by destruct db|]. by destruct db.
Qed.
End anchor.

(** C25. The verified anchor does not bind all of an audit event.  The roots recomputed
    from the events are never compared with the root in the checkpoint.  So events
    rewritten into another valid chain pass the verification of the database and of its
    anchor like the original ones, provided each is [alike] the one it replaces: the same
    sequence numbers, attestation, run, version, command identifier, command digest and
    projection digest.  The rest of the verification reads these only; the actor, the
    policy, the proofs named, the event's type and its own payload may change. *)
Theorem anchor_does_not_bind_the_chain {C : Crates} {P : UuidParser} {S} `{AnchorBackend S} security key key_version from_value
    db (anchor anchor' : S) events' roots :
  verify_external_anchor security key key_version from_value db anchor = Ok anchor' ->
  Forall2 alike (Database.events db) events' -> verify_audit_rows security events' = Ok roots ->
  verify_external_anchor security key key_version from_value (Database.with_events events' db) anchor = Ok anchor'.
Proof.
  unfold verify_external_anchor. intros [Hi Ha]%bind_unit_Ok He Hv.
  apply bind_unit_Ok. split; [by eapply alike_integrity|]. by destruct db.
Qed.
