(* ===== verification/LedgerClosure.v ===== *)
(** * LedgerClosure: what a withdrawn record takes with it

    The recursive query over the dependencies terminates, finds exactly the records
    derived from its root ([invalidation_closure_is_exact]), and an accepted command that
    withdraws a record withdraws everything derived from it
    ([withdrawal_reaches_every_dependent]). *)

From stdpp Require Import base list gmap fin_sets countable sorting strings.
From Stdlib Require Import NArith ZArith Lia.
From S2P Require Import Prelude Text Json Crates CanonicalJson Common Production ProductionProps ChainData ChainCommand ChainPayload ChainTransition ChainEvaluate ChainRepository Authority ChainProps ChainExecution AuthorityProps LedgerData Copies Ledger LedgerProps.

(** ** The recursive query *)

Section closure.
Context (rows : list DependencyRow.t).

(** [b] is derived from [a] directly. *)
Definition derived (a b : Node) : Prop :=
  exists row, row ∈ rows /\ DependencyRow.dependency row = a /\ DependencyRow.dependent row = b.

Lemma elem_of_dependents found n : n ∈ dependents_of rows found <-> exists a, a ∈ found /\ derived a n.
Proof.
  unfold dependents_of, derived. rewrite elem_of_list_to_set. setoid_rewrite list_elem_of_fmap.
  setoid_rewrite list_elem_of_filter. split.
  - intros (row & -> & Ha & Hr). eexists. split; [exact Ha|]. by exists row.
  - intros (a & Ha & row & Hr & <- & <-). by exists row.
Qed.

(** The rows whose dependent is not found yet: every round but the last finds one. *)
Definition pending (found : gset Node) : list DependencyRow.t :=
  filter (fun row => DependencyRow.dependent row ∉ found) rows.

Lemma pending_shrinks found :
  found ∪ dependents_of rows found <> found ->
  (length (pending (found ∪ dependents_of rows found)) < length (pending found))%nat.
Proof.
  intros Hne. assert (exists n, n ∈ dependents_of rows found /\ n ∉ found) as (n & Hn & Hnew).
  { destruct (set_choose_or_empty (dependents_of rows found ∖ found)) as [(n & [? ?]%elem_of_difference)|He]; [by exists n|].
    exfalso. apply Hne. set_unfold. intros x. destruct (decide (x ∈ found)); naive_solver. }
  assert (exists row, row ∈ rows /\ DependencyRow.dependent row = n) as (row & Hrow & Hd).
  { apply elem_of_dependents in Hn as (a & _ & row & Hr & _ & Hd). by exists row. }
  assert (pending (found ∪ dependents_of rows found)
    = filter (fun row => DependencyRow.dependent row ∉ found ∪ dependents_of rows found) (pending found)) as ->.
  { unfold pending. rewrite list_filter_filter_l; [done|set_solver]. }
  apply (length_filter_lt _ _ row); [|set_solver]. apply list_elem_of_filter. by subst.
Qed.

(** Enough fuel to find the dependent of every row *)
Lemma saturate_terminates fuel found : (length (pending found) < fuel)%nat -> is_Some (saturate fuel rows found).
Proof.
  revert found. induction fuel as [|fuel IH]; intros found Hf; [lia|]. cbn [saturate]. cbv zeta.
  case_bool_decide as Hn; [by eexists|]. apply IH. pose proof (pending_shrinks found Hn). lia.
Qed.

Lemma saturate_spec fuel found result :
  saturate fuel rows found = Some result ->
  found ⊆ result /\ (forall a b, a ∈ result -> derived a b -> b ∈ result) /\
  forall n, n ∈ result -> exists a, a ∈ found /\ rtc derived a n.
Proof.
  revert found. induction fuel as [|fuel IH]; intros found; cbn [saturate]; cbv zeta; case_bool_decide as Hn; try done.
  1,2: intros [= <-]; split_and!; [done| |intros n Hn'; by exists n];
    intros a b Ha Hab; rewrite <- Hn; apply elem_of_union_r, elem_of_dependents; by exists a.
  intros (Hsub & Hclosed & Hsound)%IH. split_and!; [set_solver|done|].
  intros n (a & [Ha|(a0 & Ha0 & Hd)%elem_of_dependents]%elem_of_union & Hr)%Hsound; [by exists a|].
  exists a0. split; [done|]. by eapply rtc_l.
Qed.

Lemma closure_exact root :
  exists found, invalidation_closure rows root = Some found /\ forall n, n ∈ found <-> rtc derived root n.
Proof.
  destruct (saturate_terminates (S (length rows)) {[root]}) as [found Hf].
  { unfold pending. pose proof (length_filter (fun row => DependencyRow.dependent row ∉ ({[root]} : gset Node)) rows). lia. }
  exists found. split; [exact Hf|]. destruct (saturate_spec _ _ _ Hf) as (Hsub & Hclosed & Hsound).
  intros n. split.
  - intros (a & ->%elem_of_singleton & Hr)%Hsound. exact Hr.
  - intros Hr. assert (root ∈ found) as Hroot by set_solver. clear Hsound Hsub Hf.
    induction Hr as [|a b c Hab _ IH]; [done|]. apply IH. by apply (Hclosed a).
Qed.
End closure.

(** C28. The recursive query terminates on every table of dependencies, cyclic ones
    included, and finds the root and exactly the records derived from it, directly or
    through others. *)
Theorem invalidation_closure_is_exact rows root :
  exists found, invalidation_closure rows root = Some found /\ forall n, n ∈ found <-> rtc (derived rows) root n.
Proof. apply closure_exact. Qed.

Lemma loaded_closure db root refs :
  load_recursive_invalidation_closure db root = Ok refs ->
  forall row, row ∈ Database.records db -> rtc (derived (Database.dependencies db)) (node root) (row_node row) ->
  row_reference row ∈ refs.
Proof.
  unfold load_recursive_invalidation_closure. intros (_ & _ & H)%bind_Ok row Hrow Hr.
  apply bind_Ok in H as (nodes & Hn%ok_or_Ok & [= <-]).
  destruct (closure_exact (Database.dependencies db) (node root)) as (found & Hf & Hex).
  assert (nodes = found) as -> by congruence. apply list_elem_of_fmap. exists row. split; [done|].
  unfold sort_by. rewrite merge_sort_Permutation. apply list_elem_of_filter. split; [by apply Hex|done].
Qed.

(** ** Accepted withdrawals *)

Section withdrawal.
Context {C : Crates} {P : UuidParser}.

Lemma withdraw_records p r : IdrRunProjectionV1.invalidated_records (withdraw p r) = {[r]} ∪ IdrRunProjectionV1.invalidated_records p.
Proof.
  unfold withdraw, withdraw_execution, set_execution_state, withdraw_bindings.
  repeat (case_match; try done).
Qed.

Lemma withdrawn_all t rs b :
  IdrRunProjectionV1.invalidated_records (IdrTransitionV1.projection (apply_repository_invalidation_closure t rs b))
  = list_to_set rs ∪ IdrRunProjectionV1.invalidated_records (IdrTransitionV1.projection t).
Proof.
  unfold apply_repository_invalidation_closure. cbn.
  assert (forall p, IdrRunProjectionV1.invalidated_records (foldl withdraw p rs) = list_to_set rs ∪ IdrRunProjectionV1.invalidated_records p) as H.
  { induction rs as [|r rs IH]; intros p; cbn; [set_solver|]. rewrite IH, withdraw_records. set_solver. }
  repeat case_match; cbn; apply H.
Qed.

(** The record an accepted command withdraws: the one it names, or the one its record
    replaces. *)
Inductive withdraws (command : IdrCommandEnvelopeV1.t) (current : gmap CandidateKindV1.t AuthoritativeRecordRefV1.t) (issued : option AuthoritativeRecordRefV1.t)
    (root : AuthoritativeRecordRefV1.t) : Prop :=
| withdraws_named reason : IdrCommandEnvelopeV1.command command = IdrCommandV1.InvalidateRecord root reason -> withdraws command current issued root
| withdraws_replaced new :
    issued = Some new -> Command.expected_candidate_kind (IdrCommandEnvelopeV1.command command) = Some (AuthoritativeRecordRefV1.candidate_kind new) ->
    current !! AuthoritativeRecordRefV1.candidate_kind new = Some root -> AuthoritativeRecordRefV1.candidate_kind root = AuthoritativeRecordRefV1.candidate_kind new -> new <> root ->
    withdraws command current issued root.

Lemma failure_record p command proofs t :
  action_admission_proof_failure p command proofs = Ok t -> IdrTransitionV1.authoritative_record t = None.
Proof. unfold action_admission_proof_failure. intros H. inv_arm. done. Qed.

Lemma chosen_withdraws closure minted bound command now proofs p t root :
  choose_transition closure minted bound command now proofs p = Ok t ->
  (reverifies_admission (IdrCommandEnvelopeV1.command command) = false -> bound = Ok tt) ->
  withdraws command (IdrRunProjectionV1.records p) (AuthoritativeRecordV1.record_ref <$> IdrTransitionV1.authoritative_record t) root ->
  exists rs, closure root = Ok rs /\ list_to_set rs ⊆ IdrRunProjectionV1.invalidated_records (IdrTransitionV1.projection t).
Proof.
  intros Hch Hb [reason Hcmd|new Hnew Hkind Hcur Hk Hne].
  - rewrite Hcmd in Hb. rewrite (Hb eq_refl) in Hch. cbn [choose_transition] in Hch. cbv zeta in Hch.
    apply bind_Ok in Hch as (t0 & _ & H). rewrite Hcmd in H. apply bind_Ok in H as (rs & Hrs & [= <-]).
    exists rs. split; [exact Hrs|]. rewrite withdrawn_all. set_solver.
  - destruct bound as [[]|e].
    + cbn [choose_transition] in Hch. cbv zeta in Hch. apply bind_Ok in Hch as (t0 & _ & H).
      rewrite Hkind in H. cbn in H. rewrite Hcur in H.
      assert (superseded_closure closure (Some root) t0 = Ok t) as Hs.
      { destruct (IdrCommandEnvelopeV1.command command); done. }
      clear H. unfold superseded_closure in Hs.
      assert (IdrTransitionV1.authoritative_record t = IdrTransitionV1.authoritative_record t0) as Hrec.
      { destruct (is_some_and _ _); [|by injection Hs as ->]. by apply bind_Ok in Hs as (rs & _ & [= <-]). }
      rewrite Hrec in Hnew. destruct (IdrTransitionV1.authoritative_record t0) as [r|]; [|done]. injection Hnew as <-.
      cbn [is_some_and] in Hs. rewrite bool_decide_eq_true_2 in Hs by done.
      rewrite bool_decide_eq_false_2 in Hs by done. cbn in Hs. apply bind_Ok in Hs as (rs & Hrs & [= <-]).
      exists rs. split; [exact Hrs|]. rewrite withdrawn_all. set_solver.
    + exfalso. cbn in Hch. destruct e; try discriminate Hch.
      apply bind_Ok in Hch as (a & _ & H). apply bind_Ok in H as (rs & _ & H). apply bind_Ok in H as (t0 & Ht%failure_record & [= <-]).
      cbn in Hnew. by rewrite Ht in Hnew.
Qed.

Lemma committed_withdraws security key key_version trust_root session minted command now d db db' sealed root stored :
  committed security key key_version trust_root session minted command now d db db' sealed ->
  withdraws command (IdrRunProjectionV1.records (dc_loaded d)) (AuthoritativeRecordV1.record_ref <$> IdrTransitionV1.authoritative_record (dc_transition d)) root ->
  stored ∈ Database.records db -> rtc (derived (Database.dependencies db)) (node root) (row_node stored) ->
  row_reference stored ∈ IdrRunProjectionV1.invalidated_records (dc_projection d) /\ row_node stored ∈ Database.invalidations db'.
Proof.
  intros Hc Hw Hin Hr. pose proof (cm_chosen _ _ _ _ _ _ _ _ _ _ _ _ Hc) as Hch.
  destruct (chosen_withdraws _ _ _ _ _ _ _ _ root Hch) as (rs & Hrs & Hsub); [|done|].
  { intros Hrev. unfold reverify_bound_action_admission_proofs. by rewrite Hrev. }
  pose proof (loaded_closure _ _ _ Hrs _ Hin Hr) as Hmem.
  assert (row_reference stored ∈ IdrRunProjectionV1.invalidated_records (dc_projection d)) as Hp.
  { apply Hsub. by apply elem_of_list_to_set. }
  split; [exact Hp|]. pose proof (ps_invalidations _ _ _ _ _ _ _ _ _ _ _ (cm_tables _ _ _ _ _ _ _ _ _ _ _ _ Hc)) as Hi.
  destruct db'. cbn in Hi |- *. rewrite Hi. apply elem_of_union_r, elem_of_map. by exists (row_reference stored).
Qed.
End withdrawal.

(** C7. An accepted command that withdraws a record, by name or by issuing its
    successor, withdraws every stored record derived from it, at any distance: all of
    them are among the withdrawn records of the run and of the database. *)
Theorem withdrawal_reaches_every_dependent {C : Crates} {P : UuidParser} {S} `{AnchorBackend S} security key key_version trust_root
    production human_model_write session publication minted command now db (anchor : S) db' anchor' receipt row row' root stored :
  ledger_reachable security db ->
  Ledger.handle security key key_version trust_root production human_model_write session publication minted command now db anchor
    = (db', anchor', Ok receipt) ->
  IdrCommandReceiptV1.idempotent_replay receipt = false ->
  Database.runs db !! IdrCommandEnvelopeV1.run_id command = Some row -> Database.runs db' !! IdrCommandEnvelopeV1.run_id command = Some row' ->
  withdraws command (IdrRunProjectionV1.records (RunRow.projection row)) (IdrCommandReceiptV1.record_ref receipt) root ->
  stored ∈ Database.records db -> rtc (derived (Database.dependencies db)) (node root) (row_node stored) ->
  row_reference stored ∈ IdrRunProjectionV1.invalidated_records (RunRow.projection row') /\ row_node stored ∈ Database.invalidations db'.
Proof.
  intros Hreach Hh Hfresh Hrow Hrow' Hw Hin Hr. destruct (ledger_reachable_refines _ _ Hreach) as [Hok _].
  destruct (handle_fresh _ _ _ _ _ _ _ _ _ _ _ _ _ _ _ _ Hh Hfresh) as (d & sealed & db1 & a & material & -> & _ & Hc & _ & ->).
  destruct (committed_loaded _ Hc Hok) as (_ & Hid & Hl). pose proof (committed_runs _ Hc) as Hruns. rewrite Hid in Hruns.
  assert (dc_loaded d = RunRow.projection row) as Hp.
  { destruct Hl as [Hn|(r & Hr' & Hp)]; congruence. }
  rewrite <- Hp in Hw. destruct (committed_withdraws _ _ _ _ _ _ _ _ _ _ _ _ _ _ Hc Hw Hin Hr) as [H1 H2].
  destruct db1. cbn in Hrow', Hruns, H2 |- *. subst. rewrite lookup_insert_eq in Hrow'. by injection Hrow' as <-.
Qed.
