(* ===== verification/LedgerAttest.v ===== *)
(** * LedgerAttest: the attestations of the orchestrator

    Every receipt of the database stays attested and every attestation authentic under
    the orchestrator's key ([attestations_stay_authentic]); the message authentication
    code of an attestation binds all that it attests ([attestation_mac_binds]). *)

From stdpp Require Import base list gmap fin_sets countable sorting strings pretty.
From Stdlib Require Import NArith ZArith Lia.
From S2P Require Import Prelude Text Json Crates CanonicalJson Common Production ProductionProps ChainData ChainCommand ChainPayload ChainTransition ChainEvaluate ChainRepository Authority ChainProps ChainExecution AuthorityProps LedgerData Copies Ledger LedgerVerify LedgerProps LedgerAudit.

(** ** Authentic attestations *)

Section authentic.
Context {C : Crates} {P : UuidParser} (security : PostgresSecurityContextV1.t) (key : list N) (key_version : Z).

(** The foreign key of a receipt *)
Definition receipts_attested (db : Database.t) : Prop :=
  forall id row, Database.receipts db !! id = Some row ->
  exists entry, entry ∈ Database.attestations db /\ Attestation.attestation_id entry.1 = ReceiptRow.idr_attestation_id row.

(** What the verification of the attestations establishes. *)
Record authentic (db : Database.t) : Prop := {
  au_rows : forall entry, entry ∈ Database.attestations db ->
    exists id, Attestation.verify_row security key key_version entry.1 entry.2 = Ok id;
  au_receipts : forall id row, Database.receipts db !! id = Some row -> verify_receipt_row key row = Ok tt;
  au_genuine : forall id row, Database.receipts db !! id = Some row -> forged_receipt db id row = false;
}.

Lemma verify_attestations_Ok db :
  verify_all_orchestrator_attestations security key key_version db = Ok tt <-> authentic db.
Proof.
  unfold verify_all_orchestrator_attestations. rewrite !bind_unit_Ok, !for_each_Ok, reject_Ok, !Forall_forall, existsb_false, Forall_forall.
  split.
  - intros (Ha & Hr & Hf & _). split.
    + intros entry Hin. apply Ha in Hin. apply bind_Ok in Hin as (id & Hid & _). by exists id.
    + intros id row Hrow. apply (Hr (id, row)). by apply elem_of_map_to_list.
    + intros id row Hrow. apply (Hf (id, row)). by apply elem_of_map_to_list.
  - intros [Ha Hr Hf]. split_and!; [|intros [id row] ?%elem_of_map_to_list; cbn; eauto..|done].
    intros entry (id & Hid)%Ha. apply bind_Ok. by exists id.
Qed.

(** An attestation made under the key and for the domain verifies. *)
Lemma made_attestation_verifies a material :
  Attestation.material a = Ok material ->
  Attestation.trust_domain a = domain_name (own_domain security) ->
  Attestation.environment_ref a = ReferenceV1.as_str (own_environment security) ->
  Attestation.key_version a = key_version ->
  Attestation.verify_row security key key_version a (mac key material) = Ok (Attestation.attestation_id a).
Proof.
  intros Hm Hd He Hv. unfold Attestation.verify_row.
  assert ((Attestation.post_aggregate_version a <? Attestation.pre_aggregate_version a) = false) as Hle.
  { unfold Attestation.material in Hm. by apply reject_Ok in Hm as [[_ ?]%orb_false_iff _]. }
  apply reject_Ok. split.
  - rewrite Hd, He, Hv, Hle, Z.eqb_refl, !orb_false_iff, !negb_false_iff, !bool_decide_eq_true. done.
  - apply bind_Ok. exists material. split; [exact Hm|]. apply reject_Ok. split; [|done].
    by apply negb_false_iff, bool_decide_eq_true.
Qed.

Lemma existsb_incl {A} (f : A -> bool) l l' : (forall x, x ∈ l -> x ∈ l') -> existsb f l = true -> existsb f l' = true.
Proof. rewrite !existsb_exists. intros H (x & Hx & Hf). exists x. rewrite <- list_elem_of_In in *. auto. Qed.

(** What an accepted command adds leaves the receipts of others as they were. *)
Lemma genuine_extend db db' id row :
  (forall e, e ∈ Database.events db -> e ∈ Database.events db') ->
  (forall c, c ∈ Database.checkpoints db -> c ∈ Database.checkpoints db') ->
  (forall a, a ∈ Database.attestations db' -> Attestation.attestation_id a.1 = ReceiptRow.idr_attestation_id row ->
     a ∈ Database.attestations db) ->
  forged_receipt db id row = false -> forged_receipt db' id row = false.
Proof.
  intros He Hc Ha. unfold forged_receipt. cbv zeta. rewrite !existsb_false, !Forall_forall. intros H entry Hin.
  apply andb_false_iff. destruct (decide (Attestation.attestation_id entry.1 = ReceiptRow.idr_attestation_id row)) as [Hid|Hne];
    [right|left; by apply bool_decide_eq_false].
  specialize (H entry (Ha _ Hin Hid)). apply andb_false_iff in H as [H|H]; [by apply bool_decide_eq_false in H|].
  apply orb_false_iff in H as [H1 H2%negb_false_iff]. apply orb_false_iff. split; [exact H1|].
  apply negb_false_iff. apply existsb_exists in H2 as (event & Hev & Hm). apply existsb_exists. exists event.
  rewrite <- list_elem_of_In in *. split; [by apply He|]. rewrite !andb_true_iff in Hm |- *. destruct_and!. split_and!; try done.
  by eapply existsb_incl.
Qed.
End authentic.

Section preserved.
Context {C : Crates} {P : UuidParser} (security : PostgresSecurityContextV1.t) (key : list N) (key_version : Z).

Lemma attestations_extend db db' a material :
  Database.attestations db' = Database.attestations db ++ [(a, mac key material)] ->
  Database.receipts db' = Database.receipts db ->
  (forall e, e ∈ Database.events db -> e ∈ Database.events db') ->
  (forall c, c ∈ Database.checkpoints db -> c ∈ Database.checkpoints db') ->
  Forall (fun row => Attestation.attestation_id row.1 <> Attestation.attestation_id a) (Database.attestations db) ->
  Attestation.verify_row security key key_version a (mac key material) = Ok (Attestation.attestation_id a) ->
  authentic security key key_version db -> receipts_attested db ->
  authentic security key key_version db' /\ receipts_attested db'.
Proof.
  intros Ha Hr He Hc Hfresh Hv [Hrows Hrec Hgen] Hatt. rewrite Forall_forall in Hfresh.
  assert (forall id row, Database.receipts db !! id = Some row -> ReceiptRow.idr_attestation_id row <> Attestation.attestation_id a) as Hne.
  { intros id row Hrow Heq. destruct (Hatt _ _ Hrow) as (entry & Hin & Hid). apply (Hfresh entry Hin). congruence. }
  split; [split|].
  - rewrite Ha. intros entry [Hin| ->%list_elem_of_singleton]%elem_of_app; [by apply Hrows|by eexists].
  - rewrite Hr. exact Hrec.
  - rewrite Hr. intros id row Hrow. eapply genuine_extend; [exact He|exact Hc| |by apply Hgen].
    rewrite Ha. intros entry [Hin| ->%list_elem_of_singleton]%elem_of_app Hid; [done|]. cbn in Hid. by destruct (Hne _ _ Hrow).
  - intros id row Hrow. rewrite Hr in Hrow. destruct (Hatt _ _ Hrow) as (entry & Hin & Hid).
    exists entry. rewrite Ha. split; [|done]. apply elem_of_app. by left.
Qed.

Section step.
Context {trust_root : TrustRootSnapshotV1.t} {session : Session.t} {minted : Minted.t}.
Context {command : IdrCommandEnvelopeV1.t} {now : N} {d : decision} {db db' : Database.t} {sealed : AuditCheckpointV1.t}.
Context (Hc : committed security key key_version trust_root session minted command now d db db' sealed).

Lemma sealed_place : AuditCheckpointV1.audit_sequence sealed = Session.audit_sequence session /\
  AuditCheckpointV1.tenant_ref sealed = ReferenceV1.as_str (IdrCommandEnvelopeV1.tenant_ref command).
Proof.
  destruct (cm_sealed _ _ _ _ _ _ _ _ _ _ _ _ Hc) as (before & H & _). unfold checkpoint in H.
  apply bind_Ok in H as (r & _ & H). by apply bind_Ok in H as (e & _ & [= <-]).
Qed.

(** The receipt an accepted command leaves is that of its attestation and event. *)
Lemma committed_genuine : forged_receipt db' (IdrCommandEnvelopeV1.command_id command) (dc_receipt_row security session command d) = false.
Proof.
  destruct (committed_event _ _ _ _ _ _ _ _ _ _ _ _ Hc) as (hash & Hh & He). destruct sealed_place as [Hseq Hten].
  unfold forged_receipt. cbv zeta. rewrite existsb_false, (cm_attestations _ _ _ _ _ _ _ _ _ _ _ _ Hc), Forall_app, Forall_singleton. split.
  - eapply Forall_impl; [exact (cm_fresh _ _ _ _ _ _ _ _ _ _ _ _ Hc)|]. intros entry Hne. apply andb_false_iff. left.
    by apply bool_decide_eq_false.
  - apply andb_false_iff. right. rewrite !orb_false_iff, !negb_false_iff, !bool_decide_eq_true. split_and!; try reflexivity.
    apply existsb_exists. eexists. split.
    { rewrite He. rewrite <- list_elem_of_In. apply elem_of_app. right. by left. }
    rewrite !andb_true_iff, !N.eqb_eq, !bool_decide_eq_true. split_and!; try reflexivity.
    apply existsb_exists. exists sealed. rewrite (cm_checkpoints _ _ _ _ _ _ _ _ _ _ _ _ Hc). rewrite <- list_elem_of_In. split.
    { apply elem_of_app. right. by left. }
    rewrite andb_true_iff, bool_decide_eq_true. split; [|exact Hten]. apply Z.eqb_eq. exact Hseq.
Qed.

Lemma committed_attested :
  authentic security key key_version db -> receipts_attested db ->
  authentic security key key_version db' /\ receipts_attested db'.
Proof.
  intros Hau Hat.
  pose proof (cm_receipts _ _ _ _ _ _ _ _ _ _ _ _ Hc) as Hrec. pose proof (cm_attestations _ _ _ _ _ _ _ _ _ _ _ _ Hc) as Ha.
  destruct (committed_event _ _ _ _ _ _ _ _ _ _ _ _ Hc) as (hash & _ & He).
  destruct (attestations_extend db (Database.with_receipts (Database.receipts db) db') (dc_attestation security key_version session command d)
    (dc_material d)) as [[Hrows _ Hgen] Hatt]; try done.
  - destruct db'. cbn in He |- *. rewrite He. intros e Hin. apply elem_of_app. by left.
  - pose proof (cm_checkpoints _ _ _ _ _ _ _ _ _ _ _ _ Hc) as Hcp. destruct db'. cbn in Hcp |- *. rewrite Hcp.
    intros c Hin. apply elem_of_app. by left.
  - exact (cm_fresh _ _ _ _ _ _ _ _ _ _ _ _ Hc).
  - apply made_attestation_verifies; [exact (cm_material _ _ _ _ _ _ _ _ _ _ _ _ Hc)|done..].
  - assert (Database.attestations (Database.with_receipts (Database.receipts db) db') = Database.attestations db') as Hsame by (by destruct db').
    split; [split|].
    + rewrite <- Hsame. exact Hrows.
    + rewrite Hrec. intros id row [[<- <-]|[_ Hrow]]%lookup_insert_Some; [|by apply (au_receipts _ _ _ _ Hau _ _ Hrow)].
      unfold verify_receipt_row. cbv zeta. apply reject_Ok. split; [by apply negb_false_iff, bool_decide_eq_true|].
      apply bind_Ok. exists (dc_receipt_mac d). split; [exact (cm_receipt_mac _ _ _ _ _ _ _ _ _ _ _ _ Hc)|].
      apply reject_Ok. split; [|done]. by apply negb_false_iff, bool_decide_eq_true.
    + rewrite Hrec. intros id row [[<- <-]|[_ Hrow]]%lookup_insert_Some; [exact committed_genuine|].
      specialize (Hgen id row). destruct db'. by apply Hgen.
    + intros id row Hrow. rewrite Hrec in Hrow. apply lookup_insert_Some in Hrow as [[<- <-]|[_ Hrow]].
      * exists (dc_attestation security key_version session command d, mac key (dc_material d)). rewrite Ha. split; [|done].
        apply elem_of_app. right. by left.
      * rewrite <- Hsame. apply (Hatt id row). by destruct db'.
Qed.
End step.
End preserved.

(** C24. Attestations and receipts stay authentic: a database whose attestations and
    receipts verify under the orchestrator's key still does after any call with that
    key, accepted, refused, replayed or failed between the commit and the publication;
    every receipt is that of an attested command, of an audited event and of a
    checkpoint. *)
Theorem attestations_stay_authentic {C : Crates} {P : UuidParser} {S} `{AnchorBackend S} security key key_version trust_root
    production human_model_write session publication minted command now db (anchor : S) db' anchor' outcome :
  Ledger.handle security key key_version trust_root production human_model_write session publication minted command now db anchor
    = (db', anchor', outcome) ->
  verify_all_orchestrator_attestations security key key_version db = Ok tt -> receipts_attested db ->
  verify_all_orchestrator_attestations security key key_version db' = Ok tt /\ receipts_attested db'.
Proof.
  rewrite !verify_attestations_Ok. intros [(-> & _)|(d & sealed & db1 & _ & Hc & Hdb)]%handle_cases Hau Hat; [done|].
  destruct (committed_attested _ _ _ Hc Hau Hat) as [Hau1 Hat1].
  destruct Hdb as [->|(a & material & Hm & Hfresh & Hd & He & Hv & _ & ->)]; [done|].
  apply (attestations_extend _ _ _ db1 _ a material); try (by destruct db1); try done.
  by apply made_attestation_verifies.
Qed.

(** ** What a message authentication code binds *)

Section lines.
(** Printed on one line: ASCII without a line feed *)
Definition one_line (t : text) : Prop := Forall (fun c => c < 128 /\ c <> 10) t.

Lemma one_line_hex bs : Forall is_byte bs -> one_line (encode_hex bs).
Proof.
  intros Hb. apply Forall_and. split; [by apply encode_hex_ascii|]. pose proof (encode_hex_lower bs Hb) as Hl.
  rewrite forallb_forall in Hl. apply Forall_forall. intros c Hc%list_elem_of_In%Hl. by intros ->.
Qed.

Lemma one_line_numeric t : Forall numeric t -> one_line t.
Proof. intros H. eapply Forall_impl; [exact H|]. intros c Hn. unfold numeric in Hn. split; [|intros ->]; lia. Qed.

Lemma as_bytes_is_byte t : scalar_text t -> Forall is_byte (as_bytes t).
Proof.
  unfold as_bytes. induction 1 as [|c t Hc _ IH]; [constructor|]. cbn. apply Forall_app. split; [|done].
  assert (c / 4096 < 272) as H1 by (apply N.Div0.div_lt_upper_bound; lia).
  assert (c / 262144 < 5) as H2 by (apply N.Div0.div_lt_upper_bound; lia).
  pose proof (N.mod_lt c 64). pose proof (N.mod_lt (c / 64) 64). pose proof (N.mod_lt (c / 4096) 64).
  unfold encode_char, is_byte. destruct (c <? 128) eqn:E1; [|destruct (c <? 2048) eqn:E2; [|destruct (c <? 65536) eqn:E3]];
    repeat match goal with H : (_ <? _) = true |- _ => apply N.ltb_lt in H end; repeat constructor; try lia.
  - assert (c / 64 < 32) by (apply N.Div0.div_lt_upper_bound; lia). lia.
  - assert (c / 4096 < 16) by (apply N.Div0.div_lt_upper_bound; lia). lia.
Qed.

(** Two lines that can be told apart from what follows: neither holds a line feed, or
    both have the same length. *)
Definition told_apart (a b : text) : Prop := (10 ∉ a /\ 10 ∉ b) \/ length a = length b.

Definition next_lines (ls : list text) : text := concat (map (fun l => 10 :: l) ls).

Lemma told_apart_split a b ls ks :
  told_apart a b -> length ls = length ks -> a ++ next_lines ls = b ++ next_lines ks -> a = b /\ next_lines ls = next_lines ks.
Proof.
  intros [[Ha Hb]|Hl] Hlen; [|by apply app_inj_1]. revert b Hb. induction a as [|c a IH]; intros [|d b] Hb H; try done.
  - destruct ls, ks; try done. cbn in H. injection H as <- _. by apply not_elem_of_cons in Hb as [? _].
  - destruct ls, ks; try done. cbn in H. injection H as -> _. by apply not_elem_of_cons in Ha as [? _].
  - cbn in H. injection H as -> H. apply not_elem_of_cons in Ha as [_ Ha]. apply not_elem_of_cons in Hb as [_ Hb].
    by destruct (IH Ha b Hb H) as [-> ->].
Qed.

Lemma next_lines_inj ls ks : Forall2 told_apart ls ks -> next_lines ls = next_lines ks -> ls = ks.
Proof.
  induction 1 as [|a b ls ks Hab Hf IH]; [done|]. unfold next_lines. cbn [map concat app]. intros [= H].
  apply told_apart_split in H as [-> H]; [|done|by apply Forall2_length in Hf]. by rewrite (IH H).
Qed.

Lemma join_lines_inj ls ks : Forall2 told_apart ls ks -> join_lines ls = join_lines ks -> ls = ks.
Proof.
  intros [|a b ls' ks' Hab Hf]; [done|]. cbn. intros H.
  apply told_apart_split in H as [-> H]; [|done|by apply Forall2_length in Hf]. by rewrite (next_lines_inj _ _ Hf H).
Qed.
End lines.

Create HintDb lines discriminated.

Section binding.
Context {C : Crates} {L : CratesLaws}.

Lemma mac_binds key m m' : mac key m = mac key m' -> m = m' \/ sha256_collision.
Proof.
  unfold mac. set (inner := map (N.lxor 54) _). set (outer := map (N.lxor 92) _). intros H.
  apply encode_hex_inj in H; [|apply sha256_bytes..].
  destruct (decide (outer ++ sha256 (inner ++ m) = outer ++ sha256 (inner ++ m'))) as [Heq|Hne]; [|right; by do 2 eexists].
  apply app_inv_head in Heq.
  destruct (decide (inner ++ m = inner ++ m')) as [Hi|Hne]; [left; by apply app_inv_head in Hi|right; by do 2 eexists].
Qed.

(** The texts of an attestation are of one line, its identifiers are Unicode. *)
Record printable (a : Attestation.t) : Prop := {
  pr_domain : one_line (Attestation.trust_domain a);
  pr_environment : scalar_text (Attestation.environment_ref a);
  pr_purpose : one_line (Attestation.purpose a);
  pr_tenant : scalar_text (Attestation.tenant_ref a);
  pr_command : one_line (Attestation.command_digest a);
  pr_transition : one_line (Attestation.transition_digest a);
}.

Lemma one_line_feed t : one_line t -> 10 ∉ t.
Proof. unfold one_line. rewrite Forall_forall. intros H Hin. by destruct (H _ Hin). Qed.

Lemma told_apart_lines a b : one_line a -> one_line b -> told_apart a b.
Proof. left. split; by apply one_line_feed. Qed.
Lemma told_apart_uuids u v : told_apart (uuid_hyphenated u) (uuid_hyphenated v).
Proof. right. by rewrite !uuid_hyphenated_length. Qed.
Lemma one_line_Z (z : Z) : one_line (txt (pretty z)).
Proof. apply one_line_numeric, pretty_Z_numeric. Qed.
Lemma one_line_N (n : N) : one_line (dec_text n).
Proof. apply one_line_numeric, pretty_N_numeric. Qed.
Lemma one_line_utf8 t : scalar_text t -> one_line (hex_utf8 t).
Proof. intros H. by apply one_line_hex, as_bytes_is_byte. Qed.

Lemma hex_utf8_inj s t : scalar_text s -> scalar_text t -> hex_utf8 s = hex_utf8 t -> s = t.
Proof. intros Hs Ht H. apply encode_hex_inj in H; [by apply as_bytes_inj|by apply as_bytes_is_byte..]. Qed.

Lemma one_line_scalar t : one_line t -> scalar_text t.
Proof. intros H. eapply Forall_impl; [exact H|]. cbn. lia. Qed.

Lemma scalar_join ls : Forall scalar_text ls -> scalar_text (join_lines ls).
Proof.
  intros [|l ls' Hl Hf]; [constructor|]. cbn. apply Forall_app. split; [done|]. clear Hl.
  induction Hf as [|k ks Hk _ IH]; [constructor|]. cbn. constructor; [lia|]. apply Forall_app. by split.
Qed.

Lemma material_lines_inj a b :
  printable a -> printable b -> Attestation.material_lines a = Attestation.material_lines b -> a = b.
Proof.
  intros [_ Ha1 _ Ha2 _ _] [_ Hb1 _ Hb2 _ _] H.
  destruct a, b. unfold Attestation.material_lines in H. cbn in *. injection H as ? He ? ?%uuid_hyphenated_inj ?%uuid_hyphenated_inj
    ?%uuid_hyphenated_inj Ht Hpre Hpost ? ? Htx Hpid ?%uuid_hyphenated_inj Hkv.
  apply hex_utf8_inj in He, Ht; [|done..]. unfold dec_text in Hpre, Hpost.
  apply txt_inj, (inj pretty) in Hpre, Hpost, Htx, Hpid, Hkv. by subst.
Qed.

#[local] Hint Resolve told_apart_lines told_apart_uuids one_line_Z one_line_N one_line_utf8 one_line_scalar : lines.

Lemma material_inj a b m :
  printable a -> printable b -> Attestation.material a = Ok m -> Attestation.material b = Ok m -> a = b.
Proof.
  intros Ha Hb. unfold Attestation.material. intros [_ Ha']%reject_Ok [_ Hb']%reject_Ok.
  assert (as_bytes (join_lines (Attestation.material_lines a)) = as_bytes (join_lines (Attestation.material_lines b))) as Hm by congruence.
  clear Ha' Hb'.
  assert (forall x, printable x -> Forall scalar_text (Attestation.material_lines x)) as Hsc.
  { intros x [].
    unfold Attestation.material_lines. rewrite !Forall_cons.
    split_and!; try solve [apply one_line_scalar; auto with lines|apply ascii_scalar, uuid_hyphenated_ascii|constructor].
    apply ascii_scalar. by repeat constructor. }
  apply as_bytes_inj in Hm; [|by apply scalar_join, Hsc..]. apply material_lines_inj; [done..|].
  apply join_lines_inj; [|done]. destruct Ha, Hb.
  unfold Attestation.material_lines. repeat (constructor; [solve [auto with lines|by right]|]). constructor.
Qed.
End binding.

(** A stored code authenticates one attestation: two rows that verify with the same
    key and the same code are the same attestation, of the same command, transition,
    versions and database transaction, unless SHA-256 has a collision. *)
Theorem attestation_mac_binds {C : Crates} {L : CratesLaws} security key key_version a b stored_mac id id' :
  printable a -> printable b ->
  Attestation.verify_row security key key_version a stored_mac = Ok id ->
  Attestation.verify_row security key key_version b stored_mac = Ok id' ->
  a = b \/ sha256_collision.
Proof.
  unfold Attestation.verify_row. intros Ha Hb [_ (m & Hm & H)%bind_Ok]%reject_Ok [_ (m' & Hm' & H')%bind_Ok]%reject_Ok.
  apply reject_Ok in H as [H%negb_false_iff%bool_decide_eq_true _], H' as [H'%negb_false_iff%bool_decide_eq_true _].
  destruct (mac_binds key m m') as [<-|]; [congruence| |by right]. left. by apply (material_inj a b m).
Qed.
