(* ===== verification/Outbox.v ===== *)
(** * Outbox: the delivery of audited events ([idr-runtime/src/postgres_authority.rs])

    [claim_outbox_events_for_test] leases undelivered events to a worker,
    [acknowledge_outbox_event_for_test] marks one delivered.  The rows of
    [idr_outbox_events] are a table of their own: a committed command adds one, and only
    these two operations change it.  A transaction is one step; the rows other
    transactions hold locked are an argument ([SKIP LOCKED]). *)

From stdpp Require Import base list gmap fin_sets countable sorting strings.
From Stdlib Require Import NArith ZArith Lia.
From S2P Require Import Prelude Text Json Crates CanonicalJson Common Production ChainData ChainCommand ChainTransition ChainEvaluate ChainRepository Authority LedgerData Copies Ledger LedgerVerify LedgerAudit.

(** ** Rows *)

(** [idr_outbox_events] *)
Module OutboxRow.
Record t := mk {
  outbox_id : Uuid;
  trust_domain : TrustDomainV1.t;
  environment_ref : ReferenceV1.t;
  tenant_ref : ReferenceV1.t;
  run_id : Uuid;
  aggregate_version : N;
  event_type : text;
  payload : Value;
  created_at : Z;
  available_at : Z;
  claim_owner : option ReferenceV1.t;
  claimed_at : option Z;
  claim_until : option Z;
  delivered_at : option Z;
  delivery_attempts : Z;
}.

(** [SET claim_owner = $2, claimed_at = ..., claim_until = ..., delivery_attempts = delivery_attempts + 1] *)
Definition claim (worker_ref : ReferenceV1.t) (now until : Z) (r : t) : t :=
  mk (outbox_id r) (trust_domain r) (environment_ref r) (tenant_ref r) (run_id r) (aggregate_version r) (event_type r) (payload r)
    (created_at r) (available_at r) (Some worker_ref) (Some now) (Some until) (delivered_at r) (delivery_attempts r + 1)%Z.

(** [SET delivered_at = ..., claim_owner = NULL, claimed_at = NULL, claim_until = NULL] *)
Definition deliver (now : Z) (r : t) : t :=
  mk (outbox_id r) (trust_domain r) (environment_ref r) (tenant_ref r) (run_id r) (aggregate_version r) (event_type r) (payload r)
    (created_at r) (available_at r) None None None (Some now) (delivery_attempts r).
End OutboxRow.

Module ClaimedOutboxEventV1.
Record t := mk {
  outbox_id : Uuid;
  tenant_ref : ReferenceV1.t;
  run_id : Uuid;
  aggregate_version : N;
  event_type : text;
  payload : Value;
  delivery_attempts : Z;
}.
Definition of_row (r : OutboxRow.t) : t :=
  mk (OutboxRow.outbox_id r) (OutboxRow.tenant_ref r) (OutboxRow.run_id r) (OutboxRow.aggregate_version r)
    (OutboxRow.event_type r) (OutboxRow.payload r) (OutboxRow.delivery_attempts r).
End ClaimedOutboxEventV1.

Section outbox.
Context {C : Crates} (security : PostgresSecurityContextV1.t) (key : list N) (key_version : Z).

(** The row of an accepted command's event *)
Definition outbox_row (outbox_id : Uuid) (command : IdrCommandEnvelopeV1.t) (transition : IdrTransitionV1.t) (payload : Value) (now : Z) : OutboxRow.t :=
  OutboxRow.mk outbox_id (own_domain security) (own_environment security) (IdrCommandEnvelopeV1.tenant_ref command) (IdrCommandEnvelopeV1.run_id command)
    (IdrRunProjectionV1.aggregate_version (IdrTransitionV1.projection transition)) (IdrTransitionV1.event_type transition) payload
    now now None None None None 0.

(** ** Claims *)

(** [WHERE delivered_at IS NULL AND ... (claim_until IS NULL OR claim_until <= clock_timestamp())] *)
Definition claimable (now : Z) (row : OutboxRow.t) : bool :=
  negb (is_some (OutboxRow.delivered_at row))
  && (OutboxRow.trust_domain row == own_domain security) && (OutboxRow.environment_ref row == own_environment security)
  && (OutboxRow.available_at row <=? now)%Z
  && match OutboxRow.claim_until row with None => true | Some until => (until <=? now)%Z end.

(** [ORDER BY available_at, created_at, outbox_id FOR UPDATE SKIP LOCKED LIMIT $1] *)
Definition select_events (locked : gset Uuid) (limit : nat) (now : Z) (rows : list OutboxRow.t) : list OutboxRow.t :=
  take limit (sort_by (fun row => (OutboxRow.available_at row, (OutboxRow.created_at row, OutboxRow.outbox_id row)))
    (filter (fun row => claimable now row = true /\ OutboxRow.outbox_id row ∉ locked) rows)).

(** The rows after the update of the selected ones *)
Definition update_rows (ids : gset Uuid) (update : OutboxRow.t -> OutboxRow.t) (rows : list OutboxRow.t) : list OutboxRow.t :=
  map (fun row => if bool_decide (OutboxRow.outbox_id row ∈ ids) then update row else row) rows.

Definition selected_ids (rows : list OutboxRow.t) : gset Uuid := list_to_set (map OutboxRow.outbox_id rows).

(** The attestation of a worker's transaction: of no run and of every tenant *)
Definition attest_delivery (session : Session.t) (kind : string) (command_id : Uuid) (fields : list (text * Value)) (db : Database.t) :
    Chain Database.t :=
  let body := Obj ((txt "command_id", Json.to_json command_id) :: fields) in
  command_digest ← map_err IdrRuntimeErrorV1.Protocol (canonical_digest_v1 ("idr-shadow-outbox-" ++ kind ++ "-command-v1")%string body);
  digest ← map_err IdrRuntimeErrorV1.Protocol (canonical_digest_v1 ("idr-shadow-outbox-" ++ kind ++ "-transition-v1")%string body);
  open_orchestrator_attestation key (attestation security key_version session "outbox_delivery" command_id zero_run_id (txt "*") 0 0
    command_digest digest) db.

(** [delivery_attempts] is an [integer]: past its maximum the statement fails. *)
Definition claim_outbox_events_for_test (session : Session.t) (command_id : Uuid) (locked : gset Uuid) (worker_ref : ReferenceV1.t)
    (limit lease_seconds : N) (now : Z) (db : Database.t) (rows : list OutboxRow.t) :
    Chain (Database.t * list OutboxRow.t * list ClaimedOutboxEventV1.t) :=
  reject (limit =? 0) || (500 <? limit) || (lease_seconds =? 0) || (3600 <? lease_seconds) with IdrRuntimeErrorV1.BindingMismatch;
  db ← attest_delivery session "claim" command_id
         [(txt "worker_ref", Json.to_json worker_ref); (txt "limit", Json.to_json limit); (txt "lease_seconds", Json.to_json lease_seconds)] db;
  let selected := select_events locked (N.to_nat limit) now rows in
  reject existsb (fun row => (Z.of_N i32_max <=? OutboxRow.delivery_attempts row)%Z) selected
    with repository_failure "integer out of range";
  let leased := OutboxRow.claim worker_ref now (now + Z.of_N lease_seconds * 1000000)%Z in
  Ok (db, update_rows (selected_ids selected) leased rows,
      map (fun row => ClaimedOutboxEventV1.of_row (leased row)) selected).

(** ** Acknowledgements *)

Definition acknowledges (worker_ref : ReferenceV1.t) (outbox_id : Uuid) (now : Z) (row : OutboxRow.t) : bool :=
  (OutboxRow.outbox_id row == outbox_id) && (OutboxRow.claim_owner row == Some worker_ref)
  && (OutboxRow.trust_domain row == own_domain security) && (OutboxRow.environment_ref row == own_environment security)
  && negb (is_some (OutboxRow.delivered_at row))
  && match OutboxRow.claim_until row with Some until => (now <? until)%Z | None => false end.

(** [CHECK (delivered_at IS NULL OR delivered_at >= created_at)] is the row's own guard. *)
Definition acknowledge_outbox_event_for_test (session : Session.t) (command_id : Uuid) (worker_ref : ReferenceV1.t) (outbox_id : Uuid)
    (now : Z) (db : Database.t) (rows : list OutboxRow.t) : Chain (Database.t * list OutboxRow.t) :=
  db ← attest_delivery session "acknowledgement" command_id
         [(txt "worker_ref", Json.to_json worker_ref); (txt "outbox_id", Json.to_json outbox_id)] db;
  let matching := filter (fun row => acknowledges worker_ref outbox_id now row = true) rows in
  reject existsb (fun row => (now <? OutboxRow.created_at row)%Z) matching with repository_failure "check constraint is violated";
  reject negb (lenN matching =? 1) with IdrRuntimeErrorV1.BindingMismatch;
  Ok (db, map (fun row => if acknowledges worker_ref outbox_id now row then OutboxRow.deliver now row else row) rows).
End outbox.

(** ** Steps *)

Section steps.
Context {C : Crates} (security : PostgresSecurityContextV1.t).

(** The table of events between transactions; the clock of the database does not go
    back. *)
Inductive outbox_step : Z * list OutboxRow.t -> Z * list OutboxRow.t -> Prop :=
| enqueued clock now rows outbox_id command transition payload :
    (clock <= now)%Z -> outbox_id ∉ map OutboxRow.outbox_id rows ->
    outbox_step (clock, rows) (now, rows ++ [outbox_row security outbox_id command transition payload now])
| claimed clock now key key_version session command_id locked worker_ref limit lease_seconds db db' rows rows' events :
    (clock <= now)%Z ->
    claim_outbox_events_for_test security key key_version session command_id locked worker_ref limit lease_seconds now db rows
      = Ok (db', rows', events) ->
    outbox_step (clock, rows) (now, rows')
| acknowledged clock now key key_version session command_id worker_ref outbox_id db db' rows rows' :
    (clock <= now)%Z ->
    acknowledge_outbox_event_for_test security key key_version session command_id worker_ref outbox_id now db rows = Ok (db', rows') ->
    outbox_step (clock, rows) (now, rows')
| elapsed clock now rows : (clock <= now)%Z -> outbox_step (clock, rows) (now, rows).

Definition outbox_reachable : Z * list OutboxRow.t -> Z * list OutboxRow.t -> Prop := rtc outbox_step.

(** *** What the operations do *)

Lemma claim_Ok key key_version session command_id locked worker_ref limit lease_seconds now db rows db' rows' events :
  claim_outbox_events_for_test security key key_version session command_id locked worker_ref limit lease_seconds now db rows
    = Ok (db', rows', events) ->
  let selected := select_events security locked (N.to_nat limit) now rows in
  let leased := OutboxRow.claim worker_ref now (now + Z.of_N lease_seconds * 1000000)%Z in
  0 < limit /\ 0 < lease_seconds /\ rows' = update_rows (selected_ids selected) leased rows /\
  events = map (fun row => ClaimedOutboxEventV1.of_row (leased row)) selected.
Proof.
  unfold claim_outbox_events_for_test. cbv zeta. intros [Hb H]%reject_Ok.
  rewrite !orb_false_iff, !N.eqb_neq in Hb. destruct Hb as [[[Hl _] Hs] _].
  apply bind_Ok in H as (db1 & _ & H). apply reject_Ok in H as [_ [= <- <- <-]].
  split_and!; [lia|lia|done..].
Qed.

Lemma acknowledge_Ok key key_version session command_id worker_ref outbox_id now db rows db' rows' :
  acknowledge_outbox_event_for_test security key key_version session command_id worker_ref outbox_id now db rows = Ok (db', rows') ->
  rows' = map (fun row => if acknowledges security worker_ref outbox_id now row then OutboxRow.deliver now row else row) rows /\
  exists row, row ∈ rows /\ acknowledges security worker_ref outbox_id now row = true.
Proof.
  unfold acknowledge_outbox_event_for_test. cbv zeta. intros (db1 & _ & H)%bind_Ok. apply reject_Ok in H as [_ H].
  apply reject_Ok in H as [Hl%negb_false_iff%N.eqb_eq [= <- <-]]. split; [done|].
  destruct (filter _ rows) as [|row rest] eqn:Hf; [done|]. exists row.
  assert (row ∈ filter (fun row => acknowledges security worker_ref outbox_id now row = true) rows) as Hin by (rewrite Hf; by left).
  by apply list_elem_of_filter in Hin as [? ?].
Qed.

Lemma elem_of_selected locked limit now rows row :
  row ∈ select_events security locked limit now rows -> row ∈ rows /\ claimable security now row = true /\ OutboxRow.outbox_id row ∉ locked.
Proof.
  unfold select_events, sort_by. intros H.
  assert (row ∈ merge_sort (fun a b => ord_le (OutboxRow.available_at a, (OutboxRow.created_at a, OutboxRow.outbox_id a))
    (OutboxRow.available_at b, (OutboxRow.created_at b, OutboxRow.outbox_id b)))
    (filter (fun row => claimable security now row = true /\ OutboxRow.outbox_id row ∉ locked) rows)) as Hin.
  { rewrite <- (take_drop limit). apply elem_of_app. by left. }
  rewrite merge_sort_Permutation in Hin. apply list_elem_of_filter in Hin as [[? ?] ?]. done.
Qed.

Lemma elem_of_selected_ids rows id : id ∈ selected_ids rows <-> exists row, row ∈ rows /\ OutboxRow.outbox_id row = id.
Proof.
  unfold selected_ids. rewrite elem_of_list_to_set, list_elem_of_fmap. split; intros (r & H1 & H2); exists r; by subst.
Qed.

Definition ids (rows : list OutboxRow.t) : list Uuid := map OutboxRow.outbox_id rows.

Lemma update_ids (f : OutboxRow.t -> OutboxRow.t) rows :
  (forall row, OutboxRow.outbox_id (f row) = OutboxRow.outbox_id row) -> ids (map f rows) = ids rows.
Proof. intros Hf. unfold ids. rewrite map_map. by apply map_ext. Qed.

(** Events are never removed and keep one row each. *)
Lemma step_ids s s' : outbox_step s s' -> NoDup (ids s.2) -> NoDup (ids s'.2) /\ ids s.2 ⊆ ids s'.2.
Proof.
  destruct 1 as [clock now rows id command transition payload Hle Hnew|
    clock now key key_version session command_id locked worker limit lease db db' rows rows' events Hle H|
    clock now key key_version session command_id worker id db db' rows rows' Hle H|clock now rows Hle]; cbn; intros Hn.
  - unfold ids in *. rewrite map_app. split; [|set_solver]. apply NoDup_app. split_and!; [done| |apply NoDup_singleton].
    intros x Hx ->%list_elem_of_singleton. by apply Hnew.
  - apply claim_Ok in H as (_ & _ & -> & _). unfold update_rows. rewrite update_ids; [done|]. intros row. by case_bool_decide.
  - apply acknowledge_Ok in H as [-> _]. rewrite update_ids; [done|]. intros row. by destruct (acknowledges _ _ _ _ _).
  - done.
Qed.

Lemma unique_row rows a b : NoDup (ids rows) -> a ∈ rows -> b ∈ rows -> OutboxRow.outbox_id a = OutboxRow.outbox_id b -> a = b.
Proof.
  unfold ids. induction rows as [|r rows IH]; [by intros _ ?%not_elem_of_nil|]. cbn. rewrite NoDup_cons.
  intros [Hni Hn] [->|Ha]%elem_of_cons [->|Hb]%elem_of_cons Hid; [done|..|by apply IH];
    destruct Hni; apply list_elem_of_fmap; eauto.
Qed.

(** A property of an event kept by its claims and its acknowledgement *)
Lemma step_keeps s s' x (Q : OutboxRow.t -> Prop) :
  (forall row worker until, Q row -> claimable security s'.1 row = true -> Q (OutboxRow.claim worker s'.1 until row)) ->
  (forall row worker, Q row -> acknowledges security worker x s'.1 row = true -> Q (OutboxRow.deliver s'.1 row)) ->
  outbox_step s s' -> NoDup (ids s.2) -> x ∈ ids s.2 ->
  (forall row, row ∈ s.2 -> OutboxRow.outbox_id row = x -> Q row) -> forall row, row ∈ s'.2 -> OutboxRow.outbox_id row = x -> Q row.
Proof.
  intros Hclaim Hack Hs Hn Hx Hq row' Hin'. destruct Hs as [clock now rows id command transition payload Hle Hnew|
    clock now key key_version session command_id locked worker limit lease db db' rows rows' events Hle H|
    clock now key key_version session command_id worker id db db' rows rows' Hle H|clock now rows Hle]; cbn in *.
  - apply elem_of_app in Hin' as [Hin'| ->%list_elem_of_singleton]; [by apply Hq|]. cbn. by intros ->.
  - apply claim_Ok in H as (_ & _ & -> & _). unfold update_rows in Hin'. apply list_elem_of_fmap in Hin' as (row & -> & Hin).
    case_bool_decide as Hsel; [|by apply Hq]. cbn. intros Hid. apply Hclaim; [by apply Hq|].
    apply elem_of_selected_ids in Hsel as (r & (Hr & Hc & _)%elem_of_selected & Heq).
    by rewrite <- (unique_row _ _ _ Hn Hr Hin Heq).
  - apply acknowledge_Ok in H as [-> _]. apply list_elem_of_fmap in Hin' as (row & -> & Hin).
    destruct (acknowledges security worker id now row) eqn:Ha; [|by apply Hq]. cbn. intros Hid.
    apply (Hack _ worker); [by apply Hq|]. unfold acknowledges in Ha |- *. rewrite !andb_true_iff in Ha |- *.
    destruct Ha as [[[[[Hi ?] ?] ?] ?] ?]. apply bool_decide_eq_true in Hi. split_and!; try done. by apply bool_decide_eq_true.
  - by apply Hq.
Qed.

Lemma step_clock s s' : outbox_step s s' -> (s.1 <= s'.1)%Z.
Proof. by destruct 1. Qed.

(** *** Leases *)

(** The event is leased to the worker until the given time, or delivered. *)
Record held (worker : ReferenceV1.t) (until : Z) (row : OutboxRow.t) : Prop := {
  hd_domain : OutboxRow.trust_domain row = own_domain security;
  hd_environment : OutboxRow.environment_ref row = own_environment security;
  hd_lease : OutboxRow.delivered_at row <> None \/ OutboxRow.claim_owner row = Some worker /\ OutboxRow.claim_until row = Some until;
}.

Lemma held_unclaimable worker until now row : held worker until row -> (now < until)%Z -> claimable security now row = false.
Proof.
  intros [_ _ [Hd|[_ Hu]]] Hlt; unfold claimable.
  - by destruct (OutboxRow.delivered_at row).
  - rewrite Hu. apply andb_false_iff. right. by apply Z.leb_gt.
Qed.

Lemma held_owner worker until now row other id :
  held worker until row -> acknowledges security other id now row = true -> other = worker.
Proof.
  unfold acknowledges. intros Hh Ha. rewrite !andb_true_iff in Ha. destruct Ha as [[[[[_ Ho%bool_decide_eq_true] _] _] Hd] _].
  destruct Hh as [_ _ [Hh|[Hh _]]]; [by destruct (OutboxRow.delivered_at row)|congruence].
Qed.

Lemma held_reachable s s' x worker until :
  outbox_reachable s s' -> (s'.1 < until)%Z -> NoDup (ids s.2) -> x ∈ ids s.2 ->
  (forall row, row ∈ s.2 -> OutboxRow.outbox_id row = x -> held worker until row) ->
  NoDup (ids s'.2) /\ x ∈ ids s'.2 /\ forall row, row ∈ s'.2 -> OutboxRow.outbox_id row = x -> held worker until row.
Proof.
  induction 1 as [s|s s1 s2 Hs Hr IH]; intros Hlt Hn Hx Hq; [done|].
  assert (s1.1 <= s2.1)%Z as Hle by (clear -Hr; induction Hr as [|? ? ? ?%step_clock]; lia).
  destruct (step_ids _ _ Hs Hn) as [Hn1 Hsub]. apply IH; [done..|by apply Hsub|].
  apply (step_keeps s s1 x); try done.
  - intros row w u Hh Hc. rewrite (held_unclaimable _ _ _ _ Hh) in Hc; [done|lia].
  - intros row w [Hd He _] Ha. split; [exact Hd|exact He|by left].
Qed.

Lemma filter_unique (f : OutboxRow.t -> bool) rows row :
  NoDup (ids rows) -> row ∈ rows -> (forall r, r ∈ rows -> f r = true <-> OutboxRow.outbox_id r = OutboxRow.outbox_id row) ->
  filter (fun r => f r = true) rows = [row].
Proof.
  unfold ids. induction rows as [|r rows IH]; [by intros _ ?%not_elem_of_nil|]. cbn [map]. rewrite NoDup_cons.
  intros [Hni Hn] Hin Hf. rewrite filter_cons. apply elem_of_cons in Hin as [<-|Hin].
  - rewrite decide_True by (by apply Hf; [left|]). f_equal.
    assert (forall r, r ∈ rows -> f r <> true) as Hnone.
    { intros r Hr Hfr. apply Hf in Hfr; [|by right]. apply Hni, list_elem_of_fmap. by exists r. }
    clear -Hnone. induction rows as [|r rows IH]; [done|]. rewrite filter_cons, decide_False by (apply Hnone; by left).
    apply IH. intros r' Hr'. apply Hnone. by right.
  - rewrite decide_False.
    + apply IH; [done|done|]. intros r' Hr'. apply Hf. by right.
    + intros Hfr. apply Hf in Hfr; [|by left]. apply Hni, list_elem_of_fmap. exists row. by split.
Qed.

(** The holder of a lease can acknowledge its event. *)
Lemma held_acknowledges key key_version session command_id worker until row now db db' rows :
  NoDup (ids rows) -> row ∈ rows -> held worker until row -> OutboxRow.delivered_at row = None ->
  (OutboxRow.created_at row <= now < until)%Z ->
  attest_delivery security key key_version session "acknowledgement" command_id
    [(txt "worker_ref", Json.to_json worker); (txt "outbox_id", Json.to_json (OutboxRow.outbox_id row))] db = Ok db' ->
  exists rows', acknowledge_outbox_event_for_test security key key_version session command_id worker (OutboxRow.outbox_id row) now db rows
    = Ok (db', rows').
Proof.
  intros Hn Hin [Hd He Hl] Hnone Ht Ha. destruct Hl as [?|[Ho Hu]]; [done|].
  unfold acknowledge_outbox_event_for_test. rewrite Ha. cbn -[filter acknowledges].
  rewrite (filter_unique (acknowledges security worker (OutboxRow.outbox_id row) now) rows row Hn Hin).
  - cbn. rewrite (proj2 (Z.ltb_ge _ _)) by lia. cbn. by eexists.
  - intros r Hr. unfold acknowledges. rewrite !andb_true_iff, !bool_decide_eq_true. split; [by intros [[[[[? _] _] _] _] _]|].
    intros Hid. rewrite (unique_row _ _ _ Hn Hr Hin Hid), Hnone, Hu, Ho, Hd, He. split_and!; try done. apply Z.ltb_lt. lia.
Qed.

(** *** Delivered events *)

Lemma delivered_reachable s s' x :
  outbox_reachable s s' -> NoDup (ids s.2) -> x ∈ ids s.2 ->
  (forall row, row ∈ s.2 -> OutboxRow.outbox_id row = x -> OutboxRow.delivered_at row <> None) ->
  forall row, row ∈ s'.2 -> OutboxRow.outbox_id row = x -> OutboxRow.delivered_at row <> None.
Proof.
  induction 1 as [s|s s1 s2 Hs Hr IH]; intros Hn Hx Hq; [done|].
  destruct (step_ids _ _ Hs Hn) as [Hn1 Hsub]. apply IH; [done|by apply Hsub|]. by apply (step_keeps s s1 x).
Qed.

Lemma claimed_row rows x locked limit now worker until row :
  NoDup (ids rows) -> x ∈ select_events security locked limit now rows ->
  row ∈ update_rows (selected_ids (select_events security locked limit now rows)) (OutboxRow.claim worker now until) rows ->
  OutboxRow.outbox_id row = OutboxRow.outbox_id x -> row = OutboxRow.claim worker now until x.
Proof.
  intros Hn Hx (r & -> & Hr)%list_elem_of_fmap Hid.
  assert (OutboxRow.outbox_id r = OutboxRow.outbox_id x) as Hrx by (by case_bool_decide).
  rewrite bool_decide_eq_true_2 by (apply elem_of_selected_ids; by exists x). f_equal.
  apply (unique_row rows); [done..|by apply elem_of_selected in Hx as [? _]|done].
Qed.
End steps.

(** C30. A lease is exclusive.  Until it ends, no other claim returns the event, only
    the worker that holds it can acknowledge it, and as long as it has not, it can,
    whatever else happens to the table meanwhile. *)
Theorem lease_is_exclusive {C : Crates} security key key_version session command_id locked worker_ref limit lease_seconds now db rows
    db' rows' events event later rows2 at_time :
  NoDup (ids rows) ->
  claim_outbox_events_for_test security key key_version session command_id locked worker_ref limit lease_seconds now db rows
    = Ok (db', rows', events) ->
  event ∈ events -> outbox_reachable security (now, rows') (later, rows2) ->
  (later <= at_time < now + Z.of_N lease_seconds * 1000000)%Z ->
  (forall key2 version2 session2 id2 locked2 worker2 limit2 lease2 db2 db2' rows2' events2,
     claim_outbox_events_for_test security key2 version2 session2 id2 locked2 worker2 limit2 lease2 at_time db2 rows2
       = Ok (db2', rows2', events2) ->
     ClaimedOutboxEventV1.outbox_id event ∉ map ClaimedOutboxEventV1.outbox_id events2) /\
  (forall key2 version2 session2 id2 worker2 db2 db2' rows2',
     acknowledge_outbox_event_for_test security key2 version2 session2 id2 worker2 (ClaimedOutboxEventV1.outbox_id event) at_time db2 rows2
       = Ok (db2', rows2') -> worker2 = worker_ref) /\
  (forall key2 version2 session2 id2 db2 db2' row,
     row ∈ rows2 -> OutboxRow.outbox_id row = ClaimedOutboxEventV1.outbox_id event -> OutboxRow.delivered_at row = None ->
     (OutboxRow.created_at row <= at_time)%Z ->
     attest_delivery security key2 version2 session2 "acknowledgement" id2
       [(txt "worker_ref", Json.to_json worker_ref); (txt "outbox_id", Json.to_json (ClaimedOutboxEventV1.outbox_id event))] db2 = Ok db2' ->
     exists rows2', acknowledge_outbox_event_for_test security key2 version2 session2 id2 worker_ref
       (ClaimedOutboxEventV1.outbox_id event) at_time db2 rows2 = Ok (db2', rows2')).
Proof.
  intros Hn Hc Hin Hr Ht. assert (outbox_step security (now, rows) (now, rows')) as Hstep by (by econstructor).
  destruct (step_ids _ _ _ Hstep Hn) as [Hn' _]. cbn in Hn'.
  apply claim_Ok in Hc as (_ & _ & -> & ->). apply list_elem_of_fmap in Hin as (x & -> & Hx). cbn in *.
  destruct (held_reachable security _ _ (OutboxRow.outbox_id x) worker_ref (now + Z.of_N lease_seconds * 1000000) Hr) as (Hn2 & Hx2 & Hheld).
  - cbn. lia.
  - exact Hn'.
  - cbn. unfold update_rows. rewrite update_ids by (intros; by case_bool_decide).
    apply list_elem_of_fmap. exists x. split; [done|]. by apply elem_of_selected in Hx as [? _].
  - cbn. intros row Hrow Hid. rewrite (claimed_row _ _ _ _ _ _ _ _ _ Hn Hx Hrow Hid).
    apply elem_of_selected in Hx as (_ & Hcl & _). unfold claimable in Hcl. rewrite !andb_true_iff, !bool_decide_eq_true in Hcl.
    split; [by destruct_and!..|by right].
  - cbn in *. split_and!.
    + intros key2 version2 session2 id2 locked2 worker2 limit2 lease2 db2 db2' rows2' events2 (_ & _ & _ & ->)%claim_Ok Hev.
      rewrite map_map in Hev. apply list_elem_of_fmap in Hev as (y & Hid & (Hy & Hcl & _)%elem_of_selected).
      rewrite (held_unclaimable _ _ _ _ _ (Hheld y Hy (eq_sym Hid))) in Hcl; [done|lia].
    + intros key2 version2 session2 id2 worker2 db2 db2' rows2' [_ (row & Hrow & Ha)]%acknowledge_Ok.
      eapply held_owner; [|exact Ha]. apply Hheld; [done|].
      unfold acknowledges in Ha. rewrite !andb_true_iff in Ha. destruct Ha as [[[[[Hi ?] ?] ?] ?] ?]. by apply bool_decide_eq_true in Hi.
    + intros key2 version2 session2 id2 db2 db2' row Hrow Hid Hnone Hcr Ha. rewrite <- Hid in Ha |- *.
      apply (held_acknowledges security _ _ _ _ _ _ row _ _ _ _ Hn2 Hrow (Hheld row Hrow Hid) Hnone); [lia|exact Ha].
Qed.

(** An event is delivered once: after its acknowledgement no claim returns it and
    no acknowledgement is accepted for it again, however much later. *)
Theorem event_is_delivered_once {C : Crates} security key key_version session command_id worker_ref outbox_id now db rows
    db' rows' later rows2 :
  NoDup (ids rows) ->
  acknowledge_outbox_event_for_test security key key_version session command_id worker_ref outbox_id now db rows = Ok (db', rows') ->
  outbox_reachable security (now, rows') (later, rows2) ->
  (forall key2 version2 session2 id2 locked2 worker2 limit2 lease2 at_time db2 db2' rows2' events2,
     claim_outbox_events_for_test security key2 version2 session2 id2 locked2 worker2 limit2 lease2 at_time db2 rows2
       = Ok (db2', rows2', events2) -> outbox_id ∉ map ClaimedOutboxEventV1.outbox_id events2) /\
  (forall key2 version2 session2 id2 worker2 at_time db2,
     is_err (acknowledge_outbox_event_for_test security key2 version2 session2 id2 worker2 outbox_id at_time db2 rows2) = true).
Proof.
  intros Hn Ha Hr. assert (outbox_step security (now, rows) (now, rows')) as Hstep by (by econstructor).
  destruct (step_ids _ _ _ Hstep Hn) as [Hn' Hsub]. cbn in Hn', Hsub.
  apply acknowledge_Ok in Ha as [-> (row & Hrow & Hack)].
  assert (OutboxRow.outbox_id row = outbox_id) as Hid.
  { unfold acknowledges in Hack. rewrite !andb_true_iff in Hack. destruct Hack as [[[[[Hi ?] ?] ?] ?] ?]. by apply bool_decide_eq_true in Hi. }
  assert (forall r, r ∈ rows2 -> OutboxRow.outbox_id r = outbox_id -> OutboxRow.delivered_at r <> None) as Hdel.
  { apply (delivered_reachable security _ _ outbox_id Hr Hn').
    - apply Hsub. apply list_elem_of_fmap. by exists row.
    - cbn. intros r (r0 & -> & Hr0)%list_elem_of_fmap Hr0id.
      assert (r0 = row) as ->; [|by rewrite Hack].
      apply (unique_row rows); [done..|]. rewrite Hid. by destruct (acknowledges security worker_ref outbox_id now r0). }
  split.
  - intros key2 version2 session2 id2 locked2 worker2 limit2 lease2 at_time db2 db2' rows2' events2 (_ & _ & _ & ->)%claim_Ok Hev.
    rewrite map_map in Hev. apply list_elem_of_fmap in Hev as (y & Hy & (Hy2 & Hcl & _)%elem_of_selected).
    unfold claimable in Hcl. specialize (Hdel y Hy2 (eq_sym Hy)). by destruct (OutboxRow.delivered_at y).
  - intros key2 version2 session2 id2 worker2 at_time db2.
    destruct (acknowledge_outbox_event_for_test _ _ _ _ _ _ _ _ _ _) as [[db3 rows3]|e] eqn:H; [exfalso|done].
    apply acknowledge_Ok in H as [_ (r & Hr2 & Ha2)]. unfold acknowledges in Ha2. rewrite !andb_true_iff in Ha2.
    destruct Ha2 as [[[[[Hi%bool_decide_eq_true ?] ?] ?] Hd] ?]. specialize (Hdel r Hr2 Hi). by destruct (OutboxRow.delivered_at r).
Qed.
