(* ===== verification/Delivery.v ===== *)
(** * Delivery: events are delivered in the end

    A worker claims events, acknowledges each one before its lease ends, and starts
    again.  Between its calls, and between a claim and its acknowledgements, anything may
    happen to the table: other workers claim and acknowledge, commands add events, time
    passes.  A call that fails leaves the table; that none of the calls a worker needs
    fails is proved, not assumed.  What is assumed is fairness ([offered]): in the rounds
    that count, the event is not leased to another worker or locked when the claim is
    made.  The measure is the number of undelivered events no later than the event in the
    order of the claims, which each of these rounds makes smaller. *)

From stdpp Require Import base list gmap fin_sets countable sorting strings.
From Stdlib Require Import NArith ZArith Lia.
From S2P Require Import Prelude Text Json Crates CanonicalJson Common Production ChainData ChainCommand ChainTransition ChainEvaluate ChainRepository Authority LedgerData Copies Ledger LedgerVerify LedgerAudit Outbox.

(** ** The attestation of a call *)

Section written.
Context {C : Crates} {L : CratesLaws}.

Definition writable (v : Value) : Prop := exists bs, write_canonical_value v = Ok bs.

(** A string, or a number that crosses the wire unchanged *)
Definition plain (v : Value) : Prop :=
  (exists t, v = Str t) \/ exists n, v = Num (number_of_u64 n) /\ n <= IDR_MAX_SAFE_WIRE_INTEGER_V1.

Lemma collect_total {E A B} (f : A -> Result E B) l :
  Forall (fun a => exists b, f a = Ok b) l -> exists bs, collect (map f l) = Ok bs.
Proof.
  induction 1 as [|a l [b Hb] _ [bs IH]]; [by exists []|]. exists (b :: bs). cbn. by rewrite Hb, IH.
Qed.

Lemma write_string_total t : exists bs, write_string t = Ok bs.
Proof. destruct (json_string_quoted t) as [bs Hb]. exists (34 :: bs). unfold write_string. by rewrite Hb. Qed.

Lemma plain_writable v : plain v -> writable v /\ to_value v = v.
Proof.
  intros [[t ->]|(n & -> & Hn)]; (split; [|done]); [apply write_string_total|].
  unfold writable. cbn [write_canonical_value]. unfold validate_canonical_number, IDR_MAX_SAFE_WIRE_INTEGER_V1 in *.
  cbn [as_i64 number_of_u64]. rewrite (proj2 (N.ltb_lt n 9223372036854775808)) by lia. cbv zeta.
  match goal with |- context [negb ?b] => replace b with true by (symmetry; apply andb_true_iff; rewrite !Z.leb_le; lia) end.
  cbn. by eexists.
Qed.

Lemma writable_Obj fs : Forall (fun f => writable f.2) fs -> writable (Obj fs).
Proof.
  intros Hf. unfold writable. cbn [write_canonical_value].
  destruct (collect_total write_entry (sort_entries encode_utf16 (map (fun f => (f.1, write_canonical_value f.2)) fs))) as [items ->];
    [|by eexists].
  unfold sort_entries. rewrite merge_sort_Permutation. apply Forall_fmap. eapply Forall_impl; [exact Hf|].
  intros [k v] [b Hb]. cbn in *. unfold write_entry. cbn. destruct (write_string_total k) as [a ->]. rewrite Hb. by eexists.
Qed.

Lemma writable_pair t v : writable v -> writable (Arr [Str t; v]).
Proof.
  intros [b Hb]. unfold writable. cbn [write_canonical_value map collect]. destruct (write_string_total t) as [a ->].
  rewrite Hb. by eexists.
Qed.

Lemma plain_digest domain fs :
  Forall (fun f => plain f.2) fs -> exists digest, canonical_digest_v1 domain (Obj fs) = Ok digest /\ str_len digest = 64.
Proof.
  intros Hf. unfold canonical_digest_v1, canonical_json_bytes_v1.
  assert (writable (to_value (Arr [Str (txt domain); Obj fs]))) as [bs ->].
  { cbn [to_value map]. apply writable_pair, writable_Obj. unfold sort_entries. rewrite merge_sort_Permutation. apply Forall_fmap.
    eapply Forall_impl; [exact Hf|]. intros [k v] Hv. cbn in *. by destruct (plain_writable v Hv) as [Hw ->]. }
  cbn. eexists. split; [reflexivity|]. rewrite str_len_encode_hex by apply sha256_bytes. unfold lenN. by rewrite sha256_length.
Qed.
End written.

(** ** Calls *)

(** What a worker's transaction runs with; its database holds the attestations. *)
Module Call.
Record t := mk {
  key : list N;
  key_version : Z;
  session : Session.t;
  command_id : Uuid;
  database : Database.t;
}.

(** The identifiers the call generates are new. *)
Definition fresh (c : t) : Prop :=
  Forall (fun row : Attestation.t * text => Attestation.attestation_id row.1 <> Session.attestation_id (session c) /\
      Attestation.nonce row.1 <> Session.attestation_nonce (session c) /\ Attestation.command_id row.1 <> command_id c)
    (Database.attestations (database c)).
End Call.

Section calls.
Context {C : Crates} (security : PostgresSecurityContextV1.t).

(** The rows after a claim and the events it returns; a call that fails is rolled back. *)
Definition claim_call (c : Call.t) (locked : gset Uuid) (worker_ref : ReferenceV1.t) (limit lease_seconds : N) (now : Z)
    (rows : list OutboxRow.t) : list OutboxRow.t * list ClaimedOutboxEventV1.t :=
  match claim_outbox_events_for_test security (Call.key c) (Call.key_version c) (Call.session c) (Call.command_id c) locked worker_ref
          limit lease_seconds now (Call.database c) rows with
  | Ok (_, rows', events) => (rows', events)
  | Err _ => (rows, [])
  end.

Definition acknowledge_call (c : Call.t) (worker_ref : ReferenceV1.t) (outbox_id : Uuid) (now : Z) (rows : list OutboxRow.t) :
    list OutboxRow.t :=
  match acknowledge_outbox_event_for_test security (Call.key c) (Call.key_version c) (Call.session c) (Call.command_id c) worker_ref
          outbox_id now (Call.database c) rows with
  | Ok (_, rows') => rows'
  | Err _ => rows
  end.

(** The claimed events are acknowledged one after the other before [until]. *)
Inductive works_off (until : Z) (worker_ref : ReferenceV1.t) : list Uuid -> Z * list OutboxRow.t -> Z * list OutboxRow.t -> Prop :=
| nothing_left s : works_off until worker_ref [] s s
| next_event c x xs s s1 now s2 :
    outbox_reachable security s s1 -> (s1.1 <= now < until)%Z -> Call.fresh c ->
    works_off until worker_ref xs (now, acknowledge_call c worker_ref x now s1.2) s2 ->
    works_off until worker_ref (x :: xs) s s2.

(** The claim may take the event: it is not leased to anyone, and not locked. *)
Definition offered (x : Uuid) (locked : gset Uuid) (now : Z) (rows : list OutboxRow.t) : Prop :=
  forall row, row ∈ rows -> OutboxRow.outbox_id row = x ->
  OutboxRow.delivered_at row <> None \/ claimable security now row = true /\ x ∉ locked.

(** A round of some worker in which the event [x] is offered *)
Inductive round (x : Uuid) (s s' : Z * list OutboxRow.t) : Prop :=
| round_of c locked worker_ref limit lease_seconds s1 now :
    outbox_reachable security s s1 -> (s1.1 <= now)%Z -> Call.fresh c ->
    0 < limit <= 500 -> 0 < lease_seconds <= 3600 ->
    Forall (fun row => OutboxRow.delivery_attempts row < Z.of_N i32_max)%Z s1.2 -> offered x locked now s1.2 ->
    works_off (now + Z.of_N lease_seconds * 1000000) worker_ref
      (map ClaimedOutboxEventV1.outbox_id (claim_call c locked worker_ref limit lease_seconds now s1.2).2)
      (now, (claim_call c locked worker_ref limit lease_seconds now s1.2).1) s' ->
    round x s s'.
End calls.

(** *** Calls as steps *)

Section steps.
Context {C : Crates} (security : PostgresSecurityContextV1.t).

Lemma claim_call_step c locked worker_ref limit lease_seconds s now :
  (s.1 <= now)%Z -> outbox_step security s (now, (claim_call security c locked worker_ref limit lease_seconds now s.2).1).
Proof.
  destruct s as [clock rows]. cbn. intros Hle. unfold claim_call.
  destruct (claim_outbox_events_for_test _ _ _ _ _ _ _ _ _ _ _ _) as [[[db' rows'] events]|e] eqn:Hc;
    [by eapply claimed|by apply elapsed].
Qed.

Lemma acknowledge_call_step c worker_ref x s now :
  (s.1 <= now)%Z -> outbox_step security s (now, acknowledge_call security c worker_ref x now s.2).
Proof.
  destruct s as [clock rows]. cbn. intros Hle. unfold acknowledge_call.
  destruct (acknowledge_outbox_event_for_test _ _ _ _ _ _ _ _ _ _) as [[db' rows']|e] eqn:Hc;
    [by eapply acknowledged|by apply elapsed].
Qed.

Lemma works_off_reachable until worker_ref xs s s2 : works_off security until worker_ref xs s s2 -> outbox_reachable security s s2.
Proof.
  induction 1 as [|c x xs s s1 now s2 Hr Ht _ _ IH]; [reflexivity|]. etransitivity; [exact Hr|].
  eapply rtc_l; [|exact IH]. apply acknowledge_call_step. lia.
Qed.

Lemma round_reachable x s s' : round security x s s' -> outbox_reachable security s s'.
Proof.
  intros [c locked worker_ref limit lease_seconds s1 now Hr Hle _ _ _ _ _ Hw]. etransitivity; [exact Hr|].
  eapply rtc_l; [by apply claim_call_step|]. by eapply works_off_reachable.
Qed.

(** ** The queue *)

(** The events of a table that only the operations have written *)
Record queue (s : Z * list OutboxRow.t) : Prop := {
  qu_ids : NoDup (ids s.2);
  qu_rows : forall row, row ∈ s.2 -> OutboxRow.trust_domain row = own_domain security /\
    OutboxRow.environment_ref row = own_environment security /\ (OutboxRow.created_at row <= s.1)%Z /\ (OutboxRow.available_at row <= s.1)%Z;
}.

Definition event_key (row : OutboxRow.t) : Z * (Z * Uuid) :=
  (OutboxRow.available_at row, (OutboxRow.created_at row, OutboxRow.outbox_id row)).

(** Where a row comes from: an older state of it, or it is a new event. *)
Definition comes_from (rows : list OutboxRow.t) (row' : OutboxRow.t) : Prop :=
  exists row, row ∈ rows /\ event_key row' = event_key row /\ OutboxRow.trust_domain row' = OutboxRow.trust_domain row /\
    OutboxRow.environment_ref row' = OutboxRow.environment_ref row /\ (OutboxRow.delivered_at row' = None -> OutboxRow.delivered_at row = None).

Lemma step_origin s s' row' :
  outbox_step security s s' -> row' ∈ s'.2 ->
  comes_from s.2 row' \/ (s.1 <= OutboxRow.available_at row')%Z /\ OutboxRow.trust_domain row' = own_domain security /\
    OutboxRow.environment_ref row' = own_environment security /\ OutboxRow.created_at row' = s'.1 /\ OutboxRow.available_at row' = s'.1.
Proof.
  destruct 1 as [clock now rows id command transition payload Hle Hnew|
    clock now key key_version session command_id locked worker limit lease db db' rows rows' events Hle H|
    clock now key key_version session command_id worker id db db' rows rows' Hle H|clock now rows Hle]; cbn; intros Hin.
  - apply elem_of_app in Hin as [Hin| ->%list_elem_of_singleton]; [left; by exists row'|right]. done.
  - left. apply claim_Ok in H as (_ & _ & -> & _). apply list_elem_of_fmap in Hin as (row & -> & Hin). exists row.
    by case_bool_decide.
  - left. apply acknowledge_Ok in H as [-> _]. apply list_elem_of_fmap in Hin as (row & -> & Hin). exists row.
    by destruct (acknowledges _ _ _ _ _).
  - left. by exists row'.
Qed.

Lemma step_queue s s' : outbox_step security s s' -> queue s -> queue s'.
Proof.
  intros Hs [Hn Hq]. pose proof (step_clock _ _ _ Hs) as Hle. destruct (step_ids _ _ _ Hs Hn) as [Hn' _]. split; [done|].
  intros row' Hin. destruct (step_origin _ _ _ Hs Hin) as [(row & Hrow & [= Hav Hcr _] & Hd & He & _)|(_ & Hd & He & Hc & Ha)].
  - destruct (Hq row Hrow) as (Hd' & He' & Hc' & Ha'). rewrite Hd, He, Hcr, Hav. split_and!; [done|done|lia|lia].
  - split_and!; [done|done|lia|lia].
Qed.

Lemma reachable_queue s s' : outbox_reachable security s s' -> queue s -> queue s'.
Proof. induction 1; eauto using step_queue. Qed.

Lemma reachable_clock s s' : outbox_reachable security s s' -> (s.1 <= s'.1)%Z.
Proof. induction 1 as [|s s1 s2 ?%step_clock _ IH]; lia. Qed.

Lemma empty_queue clock : queue (clock, []).
Proof. split; [by apply NoDup_nil|by intros row ?%not_elem_of_nil]. Qed.

(** An event stays in the table under its key. *)
Definition present (x : Uuid) (k : Z * (Z * Uuid)) (rows : list OutboxRow.t) : Prop :=
  exists row, row ∈ rows /\ OutboxRow.outbox_id row = x /\ event_key row = k.
Definition delivered_in (x : Uuid) (rows : list OutboxRow.t) : Prop :=
  exists row, row ∈ rows /\ OutboxRow.outbox_id row = x /\ OutboxRow.delivered_at row <> None.

Lemma elem_of_ids x rows : x ∈ ids rows <-> exists row, row ∈ rows /\ OutboxRow.outbox_id row = x.
Proof. unfold ids. rewrite list_elem_of_fmap. split; intros (row & H1 & H2); exists row; by subst. Qed.

Lemma step_present s s' x k : outbox_step security s s' -> queue s -> present x k s.2 -> present x k s'.2.
Proof.
  intros Hs [Hn _] (row & Hin & Hid & Hk). destruct (step_ids _ _ _ Hs Hn) as [_ Hsub].
  assert (x ∈ ids s.2) as Hx by (apply elem_of_ids; by exists row).
  apply Hsub in Hx as Hx'. apply elem_of_ids in Hx' as (row' & Hin' & Hid'). exists row'. split_and!; [done..|].
  apply (step_keeps security s s' x (fun r => event_key r = k)); try done.
  intros r Hr Hrid. by rewrite <- Hk, (unique_row _ _ _ Hn Hr Hin (eq_trans Hrid (eq_sym Hid))).
Qed.

Lemma reachable_present s s' x k : outbox_reachable security s s' -> queue s -> present x k s.2 -> present x k s'.2.
Proof. induction 1; eauto using step_queue, step_present. Qed.

Lemma reachable_ids s s' : outbox_reachable security s s' -> queue s -> ids s.2 ⊆ ids s'.2.
Proof.
  induction 1 as [|s s1 s2 Hs _ IH]; intros Hq; [done|]. destruct (step_ids _ _ _ Hs (qu_ids _ Hq)) as [_ Hsub].
  etransitivity; [exact Hsub|]. by eapply IH, step_queue.
Qed.

Lemma reachable_delivered s s' x : outbox_reachable security s s' -> queue s -> delivered_in x s.2 -> delivered_in x s'.2.
Proof.
  intros Hr Hq (row & Hin & Hid & Hd). assert (x ∈ ids s.2) as Hx by (apply elem_of_ids; by exists row).
  apply (reachable_ids _ _ Hr Hq) in Hx as Hx'. apply elem_of_ids in Hx' as (row' & Hin' & Hid'). exists row'. split_and!; [done..|].
  apply (delivered_reachable security s s' x Hr (qu_ids _ Hq) Hx); [|done..].
  intros r Hr' Hrid. by rewrite (unique_row _ _ _ (qu_ids _ Hq) Hr' Hin (eq_trans Hrid (eq_sym Hid))).
Qed.

(** ** The measure *)

(** The undelivered events no later than [k] *)
Definition ahead (k : Z * (Z * Uuid)) (rows : list OutboxRow.t) : gset Uuid :=
  list_to_set (ids (filter (fun row => OutboxRow.delivered_at row = None /\ ord_le (event_key row) k) rows)).

Lemma elem_of_ahead k rows x :
  x ∈ ahead k rows <->
  exists row, row ∈ rows /\ OutboxRow.outbox_id row = x /\ OutboxRow.delivered_at row = None /\ ord_le (event_key row) k.
Proof.
  unfold ahead. rewrite elem_of_list_to_set, elem_of_ids. setoid_rewrite list_elem_of_filter. naive_solver.
Qed.

Lemma key_before (a b : Z * (Z * Uuid)) : ord_le a b -> (a.1 <= b.1)%Z.
Proof.
  destruct a as [a a'], b as [b b']. unfold ord_le. cbn. intros [Hlt|[Heq _]]%cmp_then_nGt.
  - by apply Z.lt_le_incl.
  - by apply Z.eq_le_incl, Z.compare_eq.
Qed.

(** No event is added before an event that is due. *)
Lemma step_ahead s s' k : outbox_step security s s' -> (k.1 < s.1)%Z -> ahead k s'.2 ⊆ ahead k s.2.
Proof.
  intros Hs Hk x (row' & Hin & Hid & Hd & Hle)%elem_of_ahead. apply elem_of_ahead.
  destruct (step_origin _ _ _ Hs Hin) as [(row & Hrow & Hkey & _ & _ & Hdel)|(Ha & _)].
  - exists row. rewrite <- Hkey. split_and!; [done| |auto|done]. rewrite <- Hid. by injection Hkey.
  - apply key_before in Hle. cbn in Hle. lia.
Qed.

Lemma reachable_ahead s s' k : outbox_reachable security s s' -> (k.1 < s.1)%Z -> ahead k s'.2 ⊆ ahead k s.2.
Proof.
  induction 1 as [|s s1 s2 Hs _ IH]; intros Hk; [done|]. etransitivity; [apply IH|by apply step_ahead].
  apply step_clock in Hs. lia.
Qed.
End steps.

(** ** Sorted rows *)

Section sorting.
Context {A K : Type} `{OrdLaws K} (key : A -> K).

Lemma sort_by_head l x rest : sort_by key l = x :: rest -> forall y, y ∈ l -> ord_le (key x) (key y).
Proof.
  intros Hs y Hy. assert (StronglySorted (fun a b => ord_le (key a) (key b)) (sort_by key l)) as Hsorted.
  { apply Sorted_StronglySorted; [intros a b c; apply (transitivity (R := ord_le))|].
    apply Sorted_merge_sort. intros a b. apply (total ord_le). }
  assert (y ∈ sort_by key l) as Hin by (unfold sort_by; by rewrite merge_sort_Permutation).
  rewrite Hs in Hsorted, Hin. apply elem_of_cons in Hin as [->|Hin]; [apply (reflexivity (R := ord_le))|].
  apply StronglySorted_inv in Hsorted as [_ Hf]. rewrite Forall_forall in Hf. by apply Hf.
Qed.
End sorting.

(** ** Rounds *)

Section rounds.
Context {C : Crates} {L : CratesLaws} (security : PostgresSecurityContextV1.t).

(** A call with new identifiers is attested. *)
Lemma fresh_attested c kind fields :
  Call.fresh c -> Forall (fun f => plain f.2) fields ->
  exists db', attest_delivery security (Call.key c) (Call.key_version c) (Call.session c) kind (Call.command_id c) fields (Call.database c)
    = Ok db'.
Proof.
  intros Hfresh Hf. assert (Forall (fun f => plain f.2) ((txt "command_id", Json.to_json (Call.command_id c)) :: fields)) as Hall.
  { constructor; [left; by eexists|done]. }
  unfold attest_delivery. cbv zeta.
  destruct (plain_digest ("idr-shadow-outbox-" ++ kind ++ "-command-v1")%string _ Hall) as (d1 & -> & H1).
  destruct (plain_digest ("idr-shadow-outbox-" ++ kind ++ "-transition-v1")%string _ Hall) as (d2 & -> & H2).
  cbn [map_err mbind result_bind]. unfold open_orchestrator_attestation, Attestation.material. cbn [attestation Attestation.command_digest
    Attestation.transition_digest Attestation.pre_aggregate_version Attestation.post_aggregate_version]. rewrite H1, H2. cbn.
  destruct (existsb _ _) eqn:Hex; [exfalso|by eexists]. apply existsb_exists in Hex as (row & Hin%list_elem_of_In & Hclash).
  unfold Call.fresh in Hfresh. rewrite Forall_forall in Hfresh. destruct (Hfresh row Hin) as (Hi & Hn & Hc).
  rewrite !orb_true_iff, !andb_true_iff, !bool_decide_eq_true in Hclash. tauto.
Qed.

Lemma plain_N n : n <= IDR_MAX_SAFE_WIRE_INTEGER_V1 -> plain (Json.to_json n).
Proof. intros Hn. right. by exists n. Qed.

Ltac plain_fields := repeat first [apply Forall_nil_2 | apply Forall_cons_2;
  [cbn [snd]; first [left; by eexists | apply plain_N; unfold IDR_MAX_SAFE_WIRE_INTEGER_V1; lia]|]].

(** A claim of a fresh call succeeds. *)
Lemma claim_runs c locked worker_ref limit lease_seconds now rows :
  Call.fresh c -> 0 < limit <= 500 -> 0 < lease_seconds <= 3600 ->
  Forall (fun row => OutboxRow.delivery_attempts row < Z.of_N i32_max)%Z rows ->
  exists db', claim_outbox_events_for_test security (Call.key c) (Call.key_version c) (Call.session c) (Call.command_id c) locked
    worker_ref limit lease_seconds now (Call.database c) rows
    = Ok (db', (claim_call security c locked worker_ref limit lease_seconds now rows).1, (claim_call security c locked worker_ref limit lease_seconds now rows).2).
Proof.
  intros Hfresh Hl Hs Hmax. unfold claim_call.
  enough (exists o, claim_outbox_events_for_test security (Call.key c) (Call.key_version c) (Call.session c) (Call.command_id c) locked
    worker_ref limit lease_seconds now (Call.database c) rows = Ok o) as [[[db' rows'] events] ->] by (by eexists).
  unfold claim_outbox_events_for_test.
  rewrite (proj2 (N.eqb_neq limit 0)), (proj2 (N.eqb_neq lease_seconds 0)), (proj2 (N.ltb_ge 500 limit)), (proj2 (N.ltb_ge 3600 lease_seconds)) by lia.
  cbn [orb]. destruct (fresh_attested c "claim" [(txt "worker_ref", Json.to_json worker_ref); (txt "limit", Json.to_json limit);
    (txt "lease_seconds", Json.to_json lease_seconds)] Hfresh) as [db' ->].
  { plain_fields. }
  cbn [mbind result_bind]. cbv zeta. destruct (existsb _ _) eqn:Hex; [exfalso|by eexists].
  apply existsb_exists in Hex as (row & (Hin & _)%list_elem_of_In%elem_of_selected & Hle%Z.leb_le).
  rewrite Forall_forall in Hmax. specialize (Hmax row Hin). cbv beta in Hmax. lia.
Qed.

(** Acknowledged before its lease ends, an event is delivered. *)
Lemma acknowledge_delivers c worker_ref until x rows now :
  Call.fresh c -> queue security (now, rows) -> (now < until)%Z -> x ∈ ids rows ->
  (forall row, row ∈ rows -> OutboxRow.outbox_id row = x -> held security worker_ref until row) ->
  delivered_in x (acknowledge_call security c worker_ref x now rows).
Proof.
  intros Hfresh Hq Ht (row & Hin & Hid)%elem_of_ids Hheld.
  destruct (OutboxRow.delivered_at row) as [at_time|] eqn:Hd.
  { apply (reachable_delivered security (now, rows) (now, acknowledge_call security c worker_ref x now rows));
      [apply rtc_once, (acknowledge_call_step security c worker_ref x (now, rows)); cbn; lia|done|].
    exists row. split_and!; [done..|]. by rewrite Hd. }
  destruct (fresh_attested c "acknowledgement" [(txt "worker_ref", Json.to_json worker_ref); (txt "outbox_id", Json.to_json x)] Hfresh)
    as [db' Ha]. { plain_fields. }
  destruct (qu_rows _ _ Hq row Hin) as (_ & _ & Hc & _). cbn in Hc. rewrite <- Hid in Ha.
  destruct (held_acknowledges security (Call.key c) (Call.key_version c) (Call.session c) (Call.command_id c) worker_ref until row now
    (Call.database c) db' rows (qu_ids _ _ Hq) Hin (Hheld row Hin Hid) Hd) as [rows' Hack];
    [lia|exact Ha|].
  unfold acknowledge_call. rewrite <- Hid, Hack. apply acknowledge_Ok in Hack as [-> (row0 & Hin0 & Hack)].
  assert (row0 = row) as ->.
  { apply (unique_row rows); [apply Hq|done..|]. unfold acknowledges in Hack. rewrite !andb_true_iff in Hack.
    destruct Hack as [[[[[Hi%bool_decide_eq_true _] _] _] _] _]. done. }
  exists (OutboxRow.deliver now row). split_and!; [|done..]. apply list_elem_of_fmap. exists row. by rewrite Hack.
Qed.

Lemma works_off_delivers until worker_ref xs s s2 :
  works_off security until worker_ref xs s s2 -> queue security s ->
  (forall x, x ∈ xs -> x ∈ ids s.2 /\ forall row, row ∈ s.2 -> OutboxRow.outbox_id row = x -> held security worker_ref until row) ->
  forall x, x ∈ xs -> delivered_in x s2.2.
Proof.
  induction 1 as [|c x xs s s1 now s2 Hr Ht Hfresh Hw IH]; intros Hq Hheld; [by intros x ?%not_elem_of_nil|].
  pose proof (acknowledge_call_step security c worker_ref x s1 now ltac:(lia)) as Hack.
  pose proof (reachable_queue _ _ _ Hr Hq) as Hq1. pose proof (step_queue _ _ _ Hack Hq1) as Hq2.
  assert (delivered_in x (acknowledge_call security c worker_ref x now s1.2)) as Hd.
  { destruct (Hheld x (list_elem_of_here _ _)) as [Hx Hh].
    destruct (held_reachable security s s1 x worker_ref until Hr ltac:(lia) (qu_ids _ _ Hq) Hx Hh) as (_ & Hx1 & Hh1).
    apply (acknowledge_delivers c worker_ref until); [done| |lia|done..].
    destruct s1 as [clock rows]. eapply step_queue; [apply (elapsed security clock now); cbn in Ht; lia|done]. }
  intros y [->|Hy]%elem_of_cons.
  - by apply (reachable_delivered security _ _ _ (works_off_reachable _ _ _ _ _ _ Hw) Hq2).
  - apply IH; [done| |done]. intros z Hz. destruct (Hheld z) as [Hx Hh]; [by right|].
    destruct (held_reachable security s (now, acknowledge_call security c worker_ref x now s1.2) z worker_ref until) as (_ & Hx1 & Hh1);
      [by eapply rtc_r|cbn; lia|apply Hq|done..].
Qed.

(** The first event a claim takes is no later than any event it may take. *)
Lemma first_selected locked limit now rows row :
  row ∈ rows -> claimable security now row = true -> OutboxRow.outbox_id row ∉ locked -> (0 < limit)%nat ->
  exists y, y ∈ select_events security locked limit now rows /\ ord_le (event_key y) (event_key row).
Proof.
  intros Hin Hcl Hl Hlimit. unfold select_events.
  set (eligible := filter _ rows). assert (row ∈ eligible) as He by (by apply list_elem_of_filter).
  destruct (sort_by event_key eligible) as [|y rest] eqn:Hs.
  - assert (row ∈ sort_by event_key eligible) as Hr by (unfold sort_by; by rewrite merge_sort_Permutation).
    rewrite Hs in Hr. by apply not_elem_of_nil in Hr.
  - exists y. split; [|by eapply sort_by_head]. unfold event_key in Hs. rewrite Hs. destruct limit; [lia|]. by left.
Qed.

(** What a claim takes is in the table afterwards, and held by the worker. *)
Lemma claimed_held key key_version session command_id locked worker_ref limit lease_seconds now db rows db' rows' events :
  NoDup (ids rows) ->
  claim_outbox_events_for_test security key key_version session command_id locked worker_ref limit lease_seconds now db rows
    = Ok (db', rows', events) ->
  forall x, x ∈ map ClaimedOutboxEventV1.outbox_id events -> x ∈ ids rows' /\
  forall row, row ∈ rows' -> OutboxRow.outbox_id row = x -> held security worker_ref (now + Z.of_N lease_seconds * 1000000) row.
Proof.
  intros Hn (_ & _ & -> & ->)%claim_Ok x Hx. rewrite map_map in Hx. apply list_elem_of_fmap in Hx as (y & -> & Hy). cbn.
  apply elem_of_selected in Hy as Hy'. destruct Hy' as (Hin & Hcl & _). split.
  - unfold update_rows. rewrite update_ids by (intros; by case_bool_decide). apply elem_of_ids. by exists y.
  - intros row Hrow Hid. rewrite (claimed_row _ _ _ _ _ _ _ _ _ Hn Hy Hrow Hid).
    unfold claimable in Hcl. rewrite !andb_true_iff, !bool_decide_eq_true in Hcl. split; [by destruct_and!..|by right].
Qed.

(** A round in which [x] is offered and not yet delivered delivers an event no later
    than [x]. *)
Lemma round_delivers x k s s' :
  round security x s s' -> queue security s -> present x k s.2 -> (k.1 < s.1)%Z -> ~ delivered_in x s'.2 ->
  exists y, y ∈ ahead k s.2 /\ delivered_in y s'.2.
Proof.
  intros [c locked worker_ref limit lease_seconds s1 now Hr Hle Hfresh Hl Hs Hmax Hoffer Hw] Hq Hx Hk Hopen.
  pose proof (reachable_queue _ _ _ Hr Hq) as Hq1. destruct (reachable_present _ _ _ _ _ Hr Hq Hx) as (row & Hin & Hid & Hkey).
  pose proof (claim_call_step security c locked worker_ref limit lease_seconds s1 now Hle) as Hclaim.
  pose proof (step_queue _ _ _ Hclaim Hq1) as Hq2. pose proof (works_off_reachable _ _ _ _ _ _ Hw) as Hr2.
  destruct (Hoffer row Hin Hid) as [Hd|[Hcl Hlocked]].
  { destruct Hopen. apply (reachable_delivered security _ _ _ Hr2 Hq2). eapply (reachable_delivered security s1); [by apply rtc_once|done|].
    by exists row. }
  destruct (first_selected locked (N.to_nat limit) now s1.2 row Hin Hcl ltac:(by rewrite Hid) ltac:(lia)) as (y & Hy & Hyle).
  destruct (claim_runs c locked worker_ref limit lease_seconds now s1.2 Hfresh Hl Hs Hmax) as [db' Hrun].
  pose proof Hrun as (_ & _ & _ & Hev)%claim_Ok.
  exists (OutboxRow.outbox_id y). split.
  - apply (reachable_ahead security s s1 k Hr Hk). apply elem_of_ahead. exists y.
    pose proof Hy as (Hyin & Hycl & _)%elem_of_selected. split_and!; [done..| |by rewrite <- Hkey].
    unfold claimable in Hycl. by destruct (OutboxRow.delivered_at y).
  - apply (works_off_delivers _ _ _ _ _ Hw Hq2).
    + eapply claimed_held; [apply Hq1|exact Hrun].
    + rewrite Hev, map_map. apply list_elem_of_fmap. by exists y.
Qed.

Lemma delivered_not_ahead k rows y : NoDup (ids rows) -> delivered_in y rows -> y ∉ ahead k rows.
Proof.
  intros Hn (row & Hin & Hid & Hd) (row' & Hin' & Hid' & Hd' & _)%elem_of_ahead.
  by rewrite (unique_row _ _ _ Hn Hin Hin' (eq_trans Hid (eq_sym Hid'))) in Hd.
Qed.

(** Each of these rounds leaves fewer events before [x]. *)
Lemma rounds_deliver x k n s s' :
  nsteps (round security x) n s s' -> queue security s -> present x k s.2 -> (k.1 < s.1)%Z -> (size (ahead k s.2) <= n)%nat ->
  delivered_in x s'.2.
Proof.
  induction 1 as [s|n s s1 s' Hround Hrest IH]; intros Hq Hx Hk Hn.
  - destruct Hx as (row & Hin & Hid & Hkey). exists row. split_and!; [done..|]. intros Hd.
    assert (ahead k s.2 ≡ ∅) as He by (apply size_empty_iff; lia). apply (not_elem_of_empty (C := gset Uuid) x). rewrite <- He.
    apply elem_of_ahead. exists row. split_and!; [done..|]. rewrite Hkey. apply (reflexivity (R := ord_le)).
  - pose proof (round_reachable _ _ _ _ Hround) as Hr. pose proof (reachable_queue _ _ _ Hr Hq) as Hq1.
    assert (rtc (outbox_step security) s1 s') as Hr'.
    { clear -Hrest. induction Hrest as [|? ? ? ? ?%round_reachable]; [done|by etransitivity]. }
    destruct (decide (x ∈ ahead k s1.2)) as [Hopen|Hdone].
    + apply IH; [done|by eapply reachable_present|apply reachable_clock in Hr; lia|].
      destruct (round_delivers x k s s1 Hround Hq Hx Hk) as (y & Hy & Hdy).
      { intros Hd. by apply (delivered_not_ahead k _ _ (qu_ids _ _ Hq1) Hd). }
      assert (ahead k s1.2 ⊂ ahead k s.2) as Hsub%subset_size; [|lia]. split; [by eapply reachable_ahead|].
      intros Hback. apply (delivered_not_ahead k _ _ (qu_ids _ _ Hq1) Hdy). by apply Hback.
    + apply (reachable_delivered security s1 s' x Hr' Hq1).
      destruct (reachable_present _ _ _ _ _ Hr Hq Hx) as (row & Hin & Hid & Hkey). exists row. split_and!; [done..|]. intros Hd.
      apply Hdone, elem_of_ahead. exists row. split_and!; [done..|]. rewrite Hkey. apply (reflexivity (R := ord_le)).
Qed.

(** A round for an event is always possible: the calls of one worker, at the time its
    lease, if any, has run out. *)
Lemma works_off_possible until worker_ref xs now rows :
  (now < until)%Z -> exists s2, works_off security until worker_ref xs (now, rows) s2.
Proof.
  intros Ht. revert rows. induction xs as [|x xs IH]; intros rows; [eexists; apply nothing_left|].
  set (c := Call.mk [] 0 (Session.mk 0 0 0 0 zero_run_id zero_run_id zero_run_id 0 0 zero_run_id) zero_run_id Database.empty).
  destruct (IH (acknowledge_call security c worker_ref x now rows)) as [s2 H]. exists s2.
  eapply (next_event _ _ _ c _ _ _ (now, rows) now); [reflexivity|cbn; lia|constructor|exact H].
Qed.

Lemma round_possible x s :
  queue security s -> Forall (fun row => OutboxRow.delivery_attempts row < Z.of_N i32_max)%Z s.2 -> exists s', round security x s s'.
Proof.
  intros Hq Hmax.
  set (c := Call.mk [] 0 (Session.mk 0 0 0 0 zero_run_id zero_run_id zero_run_id 0 0 zero_run_id) zero_run_id Database.empty).
  assert (exists now, (s.1 <= now)%Z /\ offered security x ∅ now s.2) as (now & Hle & Hoffer).
  { set (leases := omap OutboxRow.claim_until s.2). exists (foldr Z.max s.1 leases). split.
    - clear. generalize leases as l. induction l as [|z l IH]; cbn; lia.
    - intros row Hin Hid. destruct (OutboxRow.delivered_at row) eqn:Hd; [by left|right]. split; [|set_solver].
      destruct (qu_rows _ _ Hq row Hin) as (Hdom & Henv & _ & Hav).
      assert (s.1 <= foldr Z.max s.1 leases)%Z as Hs by (clear; generalize leases as l; induction l as [|z l IH]; cbn; lia).
      unfold claimable. rewrite Hd, Hdom, Henv, !bool_decide_eq_true_2, (proj2 (Z.leb_le _ _)) by (done || lia). cbn.
      destruct (OutboxRow.claim_until row) as [until|] eqn:Hu; [|done]. apply Z.leb_le.
      assert (until ∈ leases) as Hl by (apply list_elem_of_omap; by exists row).
      revert Hl. clear. generalize leases as l. induction l as [|z l IH]; [by intros ?%not_elem_of_nil|].
      intros [->|Hl]%elem_of_cons; cbn; [lia|]. specialize (IH Hl). lia. }
  destruct (works_off_possible (now + Z.of_N 1 * 1000000) (own_environment security)
    (map ClaimedOutboxEventV1.outbox_id (claim_call security c ∅ (own_environment security) 1 1 now s.2).2) now
    (claim_call security c ∅ (own_environment security) 1 1 now s.2).1) as [s' Hw]; [lia|].
  exists s'. eapply (round_of _ _ _ _ c ∅ _ 1 1 s now); [reflexivity|done|constructor|lia|lia|done|done|exact Hw].
Qed.
End rounds.

(** C29. Every event is delivered in the end, under a fair schedule.  Take an event that
    is due in a table the operations have written.  After as many rounds as there are
    undelivered events no later than it, it has been delivered, whatever other workers
    and commands do to the table between and during the rounds.  A round is a claim, with
    any worker, limit and lease, at a time when the event is neither leased nor locked
    and no event has used up its attempts, followed by an acknowledgement of each event
    claimed before the lease ends; the calls have new identifiers.  That the calls a
    round needs succeed is proved, not assumed, and so is that such a round is possible
    after any number of them, unless the attempts are used up. *)
Theorem worker_drains_the_outbox {C : Crates} {L : CratesLaws} security start clock rows now row :
  outbox_reachable security (start, []) (clock, rows) -> (clock <= now)%Z -> row ∈ rows -> (OutboxRow.available_at row < now)%Z ->
  (forall n s, nsteps (round security (OutboxRow.outbox_id row)) n (now, rows) s ->
     (size (ahead (event_key row) rows) <= n)%nat ->
     exists row', row' ∈ s.2 /\ OutboxRow.outbox_id row' = OutboxRow.outbox_id row /\ OutboxRow.delivered_at row' <> None) /\
  (forall n s, nsteps (round security (OutboxRow.outbox_id row)) n (now, rows) s ->
     Forall (fun row => OutboxRow.delivery_attempts row < Z.of_N i32_max)%Z s.2 ->
     exists s', round security (OutboxRow.outbox_id row) s s').
Proof.
  intros Hr Hle Hin Hdue. assert (queue security (now, rows)) as Hq.
  { apply (reachable_queue security (start, [])); [|apply empty_queue]. eapply rtc_r; [exact Hr|by apply elapsed]. }
  split.
  - intros n s Hn Hsize. apply (rounds_deliver security _ (event_key row) _ _ _ Hn Hq); [by exists row|done|done].
  - intros n s Hn Hmax. apply round_possible; [|done]. apply (reachable_queue security (now, rows)); [|done].
    clear -Hn. induction Hn as [|? ? ? ? ?%round_reachable]; [done|by etransitivity].
Qed.
