(* ===== verification/RuntimeRole.v ===== *)
(** * RuntimeRole: the database identity of a production authority
    ([idr-runtime/src/postgres_authority.rs])

    [verify_production_runtime_role] asks the catalogue of the database what the
    connected role may do.  The rows of the catalogue and the answers of PostgreSQL's
    privilege functions are the record [Catalog.t]; the function is what the source
    makes of them. *)

From stdpp Require Import base list fin_sets strings.
From Stdlib Require Import NArith Lia.
From S2P Require Import Prelude Text Json Crates Common Production ChainData Authority.

(** ** The catalogue *)

(** [pg_roles] *)
Module RoleRow.
Record t := mk {
  rolname : text;
  rolcanlogin : bool;
  rolsuper : bool;
  rolcreaterole : bool;
  rolcreatedb : bool;
  rolreplication : bool;
  rolbypassrls : bool;
  rolinherit : bool;
}.
End RoleRow.

(** [pg_class.relkind], as far as the query tells kinds apart *)
Module RelationKind.
Inductive t := Table | Partitioned | View | Sequence | Other.
#[global] Instance eq_dec : EqDecision t.
Proof. solve_decision. Defined.
End RelationKind.

(** [pg_class], with the name of its schema and of its owner *)
Module RelationRow.
Record t := mk {
  oid : N;
  relname : text;
  namespace : text;
  relkind : RelationKind.t;
  relowner : text;
}.
End RelationRow.

(** [pg_proc] *)
Module ProcedureRow.
Record t := mk {
  oid : N;
  proname : text;
  namespace : text;
  prosecdef : bool;
  proconfig : option (list text);
}.
End ProcedureRow.

Module Privilege.
Inductive t := Select | Insert | Update | Delete | Truncate | References | Trigger | Usage | Execute | Create | Temporary.
End Privilege.

Module Membership.
Inductive t := Usage | Member | Set_.
End Membership.

Module Catalog.
Record t := mk {
  current_user : text;
  roles : list RoleRow.t;
  relations : list RelationRow.t;
  procedures : list ProcedureRow.t;
  (** [pg_has_role], [has_schema_privilege] and the like, for the current user *)
  pg_has_role : text -> Membership.t -> bool;
  has_schema_privilege : text -> Privilege.t -> bool;
  has_database_privilege : Privilege.t -> bool;
  has_table_privilege : N -> Privilege.t -> bool;
  has_sequence_privilege : N -> Privilege.t -> bool;
  has_function_privilege : N -> Privilege.t -> bool;
}.
End Catalog.

(** ** The check *)

Section role.
Context {C : Crates} (schema : text) (catalog : Catalog.t).

Definition required_role_name : text := txt "idr_runtime_" ++ firstn 32 (encode_hex (sha256 (as_bytes schema))).

Definition relations_of (kinds : list RelationKind.t) : list RelationRow.t :=
  filter (fun relation => RelationRow.namespace relation = schema /\ contains (RelationRow.relkind relation) kinds = true)
    (Catalog.relations catalog).
Definition procedures_of : list ProcedureRow.t :=
  filter (fun procedure => ProcedureRow.namespace procedure = schema) (Catalog.procedures catalog).
Definition may (privilege : Privilege.t) (relation : RelationRow.t) : bool :=
  Catalog.has_table_privilege catalog (RelationRow.oid relation) privilege.
Definition may_use (privilege : Privilege.t) (sequence : RelationRow.t) : bool :=
  Catalog.has_sequence_privilege catalog (RelationRow.oid sequence) privilege.
Definition may_execute (procedure : ProcedureRow.t) : bool :=
  Catalog.has_function_privilege catalog (ProcedureRow.oid procedure) Privilege.Execute.

(** A name the search path resolves in the schema *)
Definition relation_named (name : string) : Chain RelationRow.t :=
  ok_or (repository_failure "relation does not exist")
    (find_first (fun relation => (RelationRow.namespace relation == schema) && (RelationRow.relname relation == txt name)) (Catalog.relations catalog)).
Definition role_named (name : text) : option RoleRow.t := find_first (fun role => RoleRow.rolname role == name) (Catalog.roles catalog).

Definition required_role_is_restricted (required : RoleRow.t) : bool :=
  negb (RoleRow.rolcanlogin required) && negb (RoleRow.rolsuper required) && negb (RoleRow.rolcreaterole required)
  && negb (RoleRow.rolcreatedb required) && negb (RoleRow.rolreplication required) && negb (RoleRow.rolbypassrls required)
  && negb (RoleRow.rolinherit required).

Definition can_set_unexpected_role : bool :=
  existsb (fun candidate => negb (contains (RoleRow.rolname candidate) [Catalog.current_user catalog; required_role_name])
                            && Catalog.pg_has_role catalog (RoleRow.rolname candidate) Membership.Set_) (Catalog.roles catalog).

Definition can_mutate_base_table : bool :=
  existsb (fun relation => existsb (fun privilege => may privilege relation)
      [Privilege.Insert; Privilege.Update; Privilege.Delete; Privilege.Truncate; Privilege.References; Privilege.Trigger])
    (relations_of [RelationKind.Table; RelationKind.Partitioned]).

Definition can_use_authority_sequence : bool :=
  existsb (fun sequence => existsb (fun privilege => may_use privilege sequence) [Privilege.Usage; Privilege.Select; Privilege.Update])
    (relations_of [RelationKind.Sequence]).

(** The views named [idr_...]: 22 of them, each readable, insertable and updatable *)
Definition authority_views : list RelationRow.t :=
  filter (fun relation => is_some (strip_prefix (txt "idr_") (RelationRow.relname relation)) = true) (relations_of [RelationKind.View]).
Definition has_exact_view_acl : bool :=
  (length authority_views =? 22)%nat
  && forallb (fun view => may Privilege.Select view && may Privilege.Insert view && may Privilege.Update view
                          && negb (may Privilege.Delete view) && negb (may Privilege.Trigger view)) authority_views.

Definition attested_entry : text := txt "idr_open_attested_transition_v8".
Definition has_no_unexpected_function_execution : bool :=
  negb (existsb (fun procedure => may_execute procedure && (ProcedureRow.proname procedure != attested_entry)) procedures_of).
Definition can_open_attested_transition : bool :=
  existsb (fun procedure => (ProcedureRow.proname procedure == attested_entry) && may_execute procedure) procedures_of.

Definition pinned_search_path : text := txt "search_path=" ++ schema ++ txt ", pg_catalog, pg_temp".
Definition security_definer_paths_are_pinned : bool :=
  negb (existsb (fun procedure => ProcedureRow.prosecdef procedure
    && negb (is_some_and (contains pinned_search_path) (ProcedureRow.proconfig procedure))) procedures_of).

Definition can_assume_object_owner : bool :=
  existsb (fun relation => Catalog.pg_has_role catalog (RelationRow.relowner relation) Membership.Usage)
    (relations_of [RelationKind.Table; RelationKind.Partitioned; RelationKind.Sequence]).

(** The condition on the row the query returns *)
Definition forbidden_authority (actor required : RoleRow.t) (attestations secrets : RelationRow.t) : bool :=
  negb (RoleRow.rolcanlogin actor)
  || RoleRow.rolsuper actor
  || RoleRow.rolcreaterole actor
  || RoleRow.rolcreatedb actor
  || RoleRow.rolreplication actor
  || RoleRow.rolbypassrls actor
  || negb (RoleRow.rolinherit actor)
  || negb (Catalog.pg_has_role catalog required_role_name Membership.Usage)
  || negb (Catalog.pg_has_role catalog required_role_name Membership.Member)
  || negb (Catalog.pg_has_role catalog required_role_name Membership.Set_)
  || negb (required_role_is_restricted required)
  || can_set_unexpected_role
  || Catalog.has_schema_privilege catalog schema Privilege.Create
  || Catalog.has_database_privilege catalog Privilege.Create
  || Catalog.has_database_privilege catalog Privilege.Temporary
  || can_mutate_base_table
  || can_use_authority_sequence
  || negb has_exact_view_acl
  || negb (may Privilege.Select attestations && negb (may Privilege.Insert attestations) && negb (may Privilege.Update attestations))
  || negb (negb (may Privilege.Select secrets) && negb (may Privilege.Insert secrets))
  || negb has_no_unexpected_function_execution
  || negb can_open_attested_transition
  || negb security_definer_paths_are_pinned
  || can_assume_object_owner.

(** The role the schema requires, and the relations called by name, must exist for the
    query to return. *)
Definition verify_production_runtime_role : Chain unit :=
  actor ← ok_or (repository_failure "no rows returned by a query that expected to return at least one row")
            (role_named (Catalog.current_user catalog));
  required ← ok_or (repository_failure "role does not exist") (role_named required_role_name);
  attestations ← relation_named "idr_transition_attestations_v7";
  secrets ← relation_named "idr_orchestrator_attestation_secrets_v7";
  reject forbidden_authority actor required attestations secrets
    with repository_failure "Production Runtime database identity does not match the exact Round 13 ACL";
  Ok tt.
End role.

(** ** What the check guarantees *)

(** What a role may not do that keeps it from writing past the attested entry. *)
Record confined (schema : text) (catalog : Catalog.t) : Prop := {
  cf_tables : forall relation, relation ∈ Catalog.relations catalog -> RelationRow.namespace relation = schema ->
    RelationRow.relkind relation = RelationKind.Table \/ RelationRow.relkind relation = RelationKind.Partitioned ->
    may catalog Privilege.Insert relation = false /\ may catalog Privilege.Update relation = false /\
    may catalog Privilege.Delete relation = false /\ may catalog Privilege.Truncate relation = false /\
    Catalog.pg_has_role catalog (RelationRow.relowner relation) Membership.Usage = false;
  cf_functions : forall procedure, procedure ∈ Catalog.procedures catalog -> ProcedureRow.namespace procedure = schema ->
    may_execute catalog procedure = true -> ProcedureRow.proname procedure = attested_entry;
  cf_definers : forall procedure, procedure ∈ Catalog.procedures catalog -> ProcedureRow.namespace procedure = schema ->
    ProcedureRow.prosecdef procedure = true ->
    exists settings, ProcedureRow.proconfig procedure = Some settings /\ pinned_search_path schema ∈ settings;
  cf_create : Catalog.has_schema_privilege catalog schema Privilege.Create = false /\
    Catalog.has_database_privilege catalog Privilege.Create = false /\
    Catalog.has_database_privilege catalog Privilege.Temporary = false;
}.

Section guarantees.
Context {C : Crates} (schema : text) (catalog : Catalog.t).

Lemma elem_of_relations_of kinds relation :
  relation ∈ Catalog.relations catalog -> RelationRow.namespace relation = schema ->
  RelationRow.relkind relation ∈ kinds -> relation ∈ relations_of schema catalog kinds.
Proof. intros Hr Hn Hk. apply list_elem_of_filter. split_and!; [done| |done]. by apply bool_decide_eq_true. Qed.

Lemma elem_of_procedures_of procedure :
  procedure ∈ Catalog.procedures catalog -> ProcedureRow.namespace procedure = schema -> procedure ∈ procedures_of schema catalog.
Proof. intros Hp Hn. by apply list_elem_of_filter. Qed.

Lemma runtime_role_confined : verify_production_runtime_role schema catalog = Ok tt -> confined schema catalog.
Proof.
  unfold verify_production_runtime_role. intros (actor & _ & H)%bind_Ok. apply bind_Ok in H as (required & _ & H).
  apply bind_Ok in H as (attestations & _ & H). apply bind_Ok in H as (secrets & _ & H). apply reject_Ok in H as [H _].
  unfold forbidden_authority in H. rewrite !orb_false_iff, !negb_false_iff in H.
  repeat match goal with Hc : _ /\ _ |- _ => destruct Hc end.
  match goal with Hf : has_no_unexpected_function_execution _ _ = true, Hs : security_definer_paths_are_pinned _ _ = true |- _ =>
    rename Hf into Hfunctions, Hs into Hdefiners end.
  match goal with Hm : can_mutate_base_table _ _ = false, Ho : can_assume_object_owner _ _ = false |- _ =>
    rename Hm into Hmutate, Ho into Howner end.
  unfold has_no_unexpected_function_execution, security_definer_paths_are_pinned in Hfunctions, Hdefiners.
  rewrite negb_true_iff, existsb_false, Forall_forall in Hfunctions, Hdefiners.
  unfold can_mutate_base_table, can_assume_object_owner in Hmutate, Howner. rewrite existsb_false, Forall_forall in Hmutate, Howner.
  split.
  - intros relation Hr Hn Hk.
    assert (RelationRow.relkind relation ∈ [RelationKind.Table; RelationKind.Partitioned]) as Hkind by set_solver.
    pose proof (Hmutate relation (elem_of_relations_of _ _ Hr Hn Hkind)) as Hm. cbn in Hm. rewrite !orb_false_iff in Hm.
    split_and!; [apply Hm..|]. apply Howner, elem_of_relations_of; [done|done|set_solver].
  - intros procedure Hp Hn He. pose proof (Hfunctions procedure (elem_of_procedures_of _ Hp Hn)) as Hf.
    by rewrite He, andb_true_l, negb_false_iff, bool_decide_eq_true in Hf.
  - intros procedure Hp Hn Hd. pose proof (Hdefiners procedure (elem_of_procedures_of _ Hp Hn)) as Hf.
    rewrite Hd, andb_true_l, negb_false_iff in Hf. destruct (ProcedureRow.proconfig procedure) as [settings|]; [|done].
    exists settings. split; [done|]. by apply contains_true.
  - by split_and!.
Qed.
End guarantees.
