(* ===== verification/LedgerConnect.v ===== *)
(** * LedgerConnect: how the orchestrator is opened ([idr-runtime/src/postgres_authority.rs])

    The attestation key, its provisioning, the checks on the schema and on the rows of
    other domains, [connect_for_domain] with the two constructors over it, and the
    migration of a production schema.  The file and process environment, the migrations of
    [sqlx] and the catalogue of the database are arguments: what was read, or the
    outcome. *)

From stdpp Require Import base list gmap fin_sets countable sorting strings.
From Stdlib Require Import NArith ZArith Lia.
From S2P Require Import Prelude Text Json Crates CanonicalJson Common Production ChainData ChainCommand ChainPayload ChainTransition ChainEvaluate ChainRepository Authority LedgerData Copies Ledger LedgerVerify Outbox RuntimeRole.

(** ** The attestation key *)

Definition ORCHESTRATOR_ATTESTATION_KEY_VERSION_V1 : Z := 1.
Definition EXPECTED_SCHEMA_MIGRATION_VERSION_V1 : Z := 8.

(** A file as it was inspected and read; [None] where the system reported an error. *)
Module KeyFile.
Record t := mk {
  is_file : bool;
  mode : N;
  contents : option text;
}.
End KeyFile.

(** Slicing a [str] between two offsets panics inside a character. *)
Definition is_char_boundary (t : text) (offset : N) : bool :=
  existsb (fun n => str_len (firstn n t) =? offset) (seq 0 (S (length t))).
Definition str_slice (t : text) (first last : N) : option (list N) :=
  if is_char_boundary t first && is_char_boundary t last
  then Some (firstn (N.to_nat (last - first)) (skipn (N.to_nat first) (as_bytes t))) else None.

(** A function that may panic *)
Inductive outcome (A : Type) :=
| Returned (result : Chain A)
| Panicked.
Arguments Returned {A} result.
Arguments Panicked {A}.

Module OrchestratorAttestationKeyV1.
Record t := mk {
  bytes : list N;
  version : Z;
}.

(** The two random identifiers *)
Definition random_shadow_key (first second : Uuid) : t :=
  mk (be_bytes 16 (as_u128 first) ++ be_bytes 16 (as_u128 second)) ORCHESTRATOR_ATTESTATION_KEY_VERSION_V1.

(** The loop over the 32 pairs *)
Fixpoint decode_key (encoded : text) (indices : list nat) (bytes : list N) : outcome (list N) :=
  match indices with
  | [] => Returned (Ok bytes)
  | index :: indices =>
      match str_slice encoded (2 * N.of_nat index) (2 * N.of_nat index + 2) with
      | None => Panicked
      | Some digits =>
          if negb (forallb is_lower_hex digits)
          then Returned (Err (repository_failure "Orchestrator attestation key must use canonical lowercase hex"))
          else match decode_pairs digits with
               | Some [byte] => decode_key encoded indices (bytes ++ [byte])
               | _ => Returned (Err (repository_failure "Orchestrator attestation key contains invalid hex"))
               end
      end
  end.

(** [path] is the environment variable with the file it names, which may not be there. *)
Definition from_protected_environment_file (path : option (option KeyFile.t)) : outcome t :=
  match path with
  | None => Returned (Err (repository_failure "IDR_ORCHESTRATOR_ATTESTATION_KEY_FILE is required"))
  | Some None => Returned (Err (repository_failure "cannot inspect Orchestrator attestation key file"))
  | Some (Some file) =>
      if negb (KeyFile.is_file file) || negb (N.land (KeyFile.mode file) 63 =? 0)
      then Returned (Err (repository_failure "Orchestrator attestation key must be a regular mode-0600 file"))
      else match KeyFile.contents file with
           | None => Returned (Err (repository_failure "cannot read Orchestrator attestation key file"))
           | Some contents =>
               let encoded := trim contents in
               if negb (str_len encoded =? 64)
               then Returned (Err (repository_failure
                      "Orchestrator attestation key must contain exactly 64 lowercase hex characters"))
               else match decode_key encoded (seq 0 32) [] with
                    | Returned (Ok bytes) => Returned (Ok (mk bytes ORCHESTRATOR_ATTESTATION_KEY_VERSION_V1))
                    | Returned (Err error) => Returned (Err error)
                    | Panicked => Panicked
                    end
           end
  end.

Definition digest {C : Crates} (key : t) : text := encode_hex (sha256 (bytes key)).
End OrchestratorAttestationKeyV1.

(** [idr_orchestrator_attestation_secrets_v7] *)
Module SecretRow.
Record t := mk {
  key_digest : text;
  secret : list N;
  retired : bool;
}.
End SecretRow.

(** A key is stored once; another key of its version is refused. *)
Definition provision_orchestrator_attestation_key {C : Crates} (key : OrchestratorAttestationKeyV1.t) (secrets : gmap Z SecretRow.t) :
    Chain (gmap Z SecretRow.t) :=
  let version := OrchestratorAttestationKeyV1.version key in
  let secrets :=
    match secrets !! version with
    | Some _ => secrets
    | None => <[version := SecretRow.mk (OrchestratorAttestationKeyV1.digest key) (OrchestratorAttestationKeyV1.bytes key) false]> secrets
    end in
  stored ← ok_or (repository_failure "no rows returned")
    (row ← secrets !! version; if SecretRow.retired row then None else Some (SecretRow.key_digest row));
  reject stored != OrchestratorAttestationKeyV1.digest key
    with repository_failure "Orchestrator attestation key does not match the provisioned schema";
  Ok secrets.

(** ** The schema *)

Definition validate_schema_name (schema : text) : Chain unit :=
  let bytes := as_bytes schema in
  let safe (index : nat) (byte : N) :=
    (byte =? 95) || ((97 <=? byte) && (byte <=? 122)) || ((0 <? N.of_nat index) && (48 <=? byte) && (byte <=? 57)) in
  reject is_nil schema || (63 <? str_len schema) || negb (forallb (fun b : bool => b) (imap safe bytes))
    with repository_failure "PostgreSQL schema name is not a safe identifier";
  Ok tt.

(** The row counted over [_sqlx_migrations] *)
Module Migrations.
Record t := mk {
  migration_count : Z;
  latest_version : Z;
  all_succeeded : bool;
}.
End Migrations.

Definition verify_schema_version_for_pool (found : option Migrations.t) : Chain unit :=
  row ← ok_or (repository_failure "IDR schema is absent or unreadable; run the separate migrator first") found;
  reject negb (Migrations.migration_count row =? EXPECTED_SCHEMA_MIGRATION_VERSION_V1)%Z
         || negb (Migrations.latest_version row =? EXPECTED_SCHEMA_MIGRATION_VERSION_V1)%Z
         || negb (Migrations.all_succeeded row)
    with repository_failure "IDR schema version mismatch";
  Ok tt.

(** ** Rows of other domains *)

Section connect.
Context {C : Crates} {P : UuidParser} (security : PostgresSecurityContextV1.t).

Definition foreign (domain : TrustDomainV1.t) (environment : ReferenceV1.t) : bool :=
  (domain != own_domain security) || (environment != own_environment security).
Definition foreign_record (row : ContractRow.t) : bool := foreign (ContractRow.trust_domain row) (ContractRow.environment_ref row).

(** The query of [verify_trust_domain].  A step carries the domain of the projection it
    is a snapshot of; a run event and an audit event are one row. *)
Definition foreign_rows (db : Database.t) (outbox : list OutboxRow.t) : bool :=
  existsb (fun entry : Uuid * RunRow.t => foreign (RunRow.trust_domain entry.2) (RunRow.environment_ref entry.2)) (map_to_list (Database.runs db))
  || existsb (fun row => foreign (IdrRunProjectionV1.trust_domain (StepRow.snapshot row)) (IdrRunProjectionV1.environment_ref (StepRow.snapshot row))) (Database.steps db)
  || existsb foreign_record (Database.records db)
  || existsb (fun entry : Uuid * CandidateKindV1.t * CurrentRow.t =>
       foreign (CurrentRow.trust_domain entry.2) (CurrentRow.environment_ref entry.2)) (map_to_list (Database.current db))
  || existsb (fun row => foreign (EnvelopeRow.trust_domain row) (EnvelopeRow.environment_ref row)) (Database.envelopes db)
  || existsb (fun row => foreign (consumed_domain row) (consumed_environment row)) (Database.consumptions db)
  || existsb (fun row => foreign (AuditRow.trust_domain row) (AuditRow.environment_ref row)) (Database.events db)
  || existsb (fun row => foreign (OutboxRow.trust_domain row) (OutboxRow.environment_ref row)) outbox
  || existsb (fun c => (AuditCheckpointV1.trust_domain c != own_domain security)
                       || (AuditCheckpointV1.environment_ref c != ReferenceV1.as_str (own_environment security))) (Database.checkpoints db)
  || existsb (fun entry : Uuid * ReceiptRow.t => foreign (ReceiptRow.trust_domain entry.2) (ReceiptRow.environment_ref entry.2))
       (map_to_list (Database.receipts db))
  || existsb (fun dependency =>
       existsb (fun dependent => (row_node dependent == DependencyRow.dependent dependency) &&
         existsb (fun source => (row_node source == DependencyRow.dependency dependency)
                                && (foreign_record dependent || foreign_record source)) (Database.records db))
         (Database.records db)) (Database.dependencies db)
  || existsb (fun entry : Uuid * ReservationRow.t =>
       is_some_and (fun run => foreign (RunRow.trust_domain run) (RunRow.environment_ref run))
         (Database.runs db !! ReservationRow.run_id entry.2)) (map_to_list (Database.reservations db))
  || existsb (fun row => foreign (FenceRow.trust_domain row) (FenceRow.environment_ref row)) (Database.fences db)
  || existsb (fun copy : Node * Value =>
       existsb (fun contract => (row_node contract == copy.1) && foreign_record contract) (Database.records db))
       (copies (Database.specialized db)).

Definition verify_trust_domain (db : Database.t) (outbox : list OutboxRow.t) : Chain unit :=
  reject foreign_rows db outbox
    with repository_failure "database contains unclassified or foreign trust identity state";
  Ok tt.

(** ** Opening *)

Context (from_value : Value -> option AuthoritativeRecordV1.t).
(** [MIGRATOR.run], and the catalogue a production start asks about its role *)
Context (migrate : option Migrations.t -> Chain (option Migrations.t)) (catalog : Catalog.t).

(** The state a start finds: the schema, its secrets and rows, the anchor. *)
Record deployment (S : Type) := mkDeployment {
  dp_migrations : option Migrations.t;
  dp_secrets : gmap Z SecretRow.t;
  dp_database : Database.t;
  dp_outbox : list OutboxRow.t;
  dp_anchor : S;
}.
Arguments mkDeployment {S}.
Arguments dp_migrations {S}. Arguments dp_secrets {S}. Arguments dp_database {S}. Arguments dp_outbox {S}. Arguments dp_anchor {S}.

(** [current_snapshot] is asked twice; its answers are [first] and [second].  The
    migrations and the provisioning are compiled into shadow builds, the check of the
    role into production builds.  A start that fails returns its error; the key it
    provisioned and the checkpoints it published before are not returned with it. *)
Definition connect_for_domain {S} `{AnchorBackend S} (schema : text) (first second : Chain TrustRootSnapshotV1.t) (trust_domain : TrustDomainV1.t)
    (key : OrchestratorAttestationKeyV1.t) (state : deployment S) : Chain (deployment S) :=
  let failure := repository_failure "security context or Trust Root crossed IDR trust domains" in
  _ ← validate_schema_name schema;
  reject own_domain security != trust_domain with failure;
  snapshot ← first;
  reject TrustRootSnapshotV1.trust_domain snapshot != trust_domain with failure;
  snapshot ← second;
  reject TrustRootSnapshotV1.environment_ref snapshot != own_environment security with failure;
  '(migrations, secrets) ←
    (if trust_domain == TrustDomainV1.Shadow
     then migrations ← migrate (dp_migrations state);
          secrets ← provision_orchestrator_attestation_key key (dp_secrets state);
          Ok (migrations, secrets)
     else Ok (dp_migrations state, dp_secrets state));
  _ ← verify_schema_version_for_pool migrations;
  _ ← (if trust_domain == TrustDomainV1.Production then verify_production_runtime_role schema catalog else Ok tt);
  _ ← verify_trust_domain (dp_database state) (dp_outbox state);
  anchor ← verify_external_anchor security (OrchestratorAttestationKeyV1.bytes key) (OrchestratorAttestationKeyV1.version key) from_value
             (dp_database state) (dp_anchor state);
  Ok (mkDeployment migrations secrets (dp_database state) (dp_outbox state) anchor).

Definition connect_shadow {S} `{AnchorBackend S} (schema : text) (first second : Chain TrustRootSnapshotV1.t) (random1 random2 : Uuid)
    (state : deployment S) : Chain (deployment S) :=
  reject negb (is_some (strip_prefix (txt "idr_shadow_") schema))
    with repository_failure "Shadow authority requires an idr_shadow_* schema";
  connect_for_domain schema first second TrustDomainV1.Shadow (OrchestratorAttestationKeyV1.random_shadow_key random1 random2) state.

(** The release gates come first. *)
Definition connect_production {S} `{AnchorBackend S} (durable : bool) (schema : text) (first second : Chain TrustRootSnapshotV1.t)
    (path : option (option KeyFile.t)) (state : deployment S) : outcome (deployment S) :=
  match (_ ← enforce_production_startup_release_gates;
         reject negb (is_some (strip_prefix (txt "idr_production_") schema))
           with repository_failure "Production authority requires an idr_production_* schema";
         reject negb durable with repository_failure "production startup requires an external durable audit anchor";
         Ok tt) with
  | Err error => Returned (Err error)
  | Ok _ =>
      match OrchestratorAttestationKeyV1.from_protected_environment_file path with
      | Panicked => Panicked
      | Returned (Err error) => Returned (Err error)
      | Returned (Ok key) => Returned (connect_for_domain schema first second TrustDomainV1.Production key state)
      end
  end.

(** [PostgresIdrMigratorV1::migrate_production], run before a production start *)
Definition migrate_production {S} (schema : text) (path : option (option KeyFile.t)) (state : deployment S) : outcome (deployment S) :=
  match OrchestratorAttestationKeyV1.from_protected_environment_file path with
  | Panicked => Panicked
  | Returned (Err error) => Returned (Err error)
  | Returned (Ok key) => Returned
      (_ ← validate_schema_name schema;
       reject negb (is_some (strip_prefix (txt "idr_production_") schema))
         with repository_failure "Production migration requires an idr_production_* schema";
       migrations ← migrate (dp_migrations state);
       secrets ← provision_orchestrator_attestation_key key (dp_secrets state);
       _ ← verify_schema_version_for_pool migrations;
       Ok (mkDeployment migrations secrets (dp_database state) (dp_outbox state) (dp_anchor state)))
  end.

(** [IDR_MIGRATOR_DATABASE_URL] says where; without it nothing is migrated. *)
Definition migrate_production_from_environment {S} (url : option text) (schema : text) (path : option (option KeyFile.t))
    (state : deployment S) : outcome (deployment S) :=
  match url with
  | None => Returned (Err (repository_failure "IDR_MIGRATOR_DATABASE_URL is required"))
  | Some _ => migrate_production schema path state
  end.
End connect.

(** ** Shadow keys *)

Lemma random_shadow_key_inj a b c d :
  OrchestratorAttestationKeyV1.bytes (OrchestratorAttestationKeyV1.random_shadow_key a b)
    = OrchestratorAttestationKeyV1.bytes (OrchestratorAttestationKeyV1.random_shadow_key c d) -> a = c /\ b = d.
Proof.
  unfold OrchestratorAttestationKeyV1.random_shadow_key. cbn [OrchestratorAttestationKeyV1.bytes]. intros H.
  apply app_inj_1 in H as [H1 H2]; [|by rewrite !be_bytes_length].
  assert (forall u v : Uuid, be_bytes 16 (as_u128 u) = be_bytes 16 (as_u128 v) -> u = v) as Hinj.
  { intros u v He. apply as_u128_inj. apply be_bytes_inj in He; [done|apply as_u128_lt..]. }
  split; by apply Hinj.
Qed.

Section opens.
Context {C : Crates} {L : CratesLaws} {P : UuidParser} (security : PostgresSecurityContextV1.t).
Context (from_value : Value -> option AuthoritativeRecordV1.t).
Context (migrate : option Migrations.t -> Chain (option Migrations.t)) (catalog : Catalog.t).

Lemma provision_Ok key secrets secrets' :
  provision_orchestrator_attestation_key key secrets = Ok secrets' ->
  exists row, secrets' !! OrchestratorAttestationKeyV1.version key = Some row /\ SecretRow.retired row = false /\
    SecretRow.key_digest row = OrchestratorAttestationKeyV1.digest key.
Proof.
  unfold provision_orchestrator_attestation_key. cbv zeta. set (s := match _ with Some _ => _ | None => _ end).
  intros (stored & Hs%ok_or_Ok & H)%bind_Ok. apply reject_Ok in H as [Hd%negb_false_iff%bool_decide_eq_true [= <-]].
  destruct (s !! OrchestratorAttestationKeyV1.version key) as [row|]; [|done]. cbn in Hs. exists row.
  destruct (SecretRow.retired row); [done|]. injection Hs as Hs. by subst.
Qed.

(** A version that has a key keeps it: only that key is provisioned again. *)
Lemma provision_keeps key secrets secrets' row :
  provision_orchestrator_attestation_key key secrets = Ok secrets' ->
  secrets !! OrchestratorAttestationKeyV1.version key = Some row ->
  secrets' = secrets /\ SecretRow.key_digest row = OrchestratorAttestationKeyV1.digest key.
Proof.
  unfold provision_orchestrator_attestation_key. cbv zeta. intros (stored & Hs%ok_or_Ok & H)%bind_Ok Hrow.
  rewrite Hrow in Hs, H. apply reject_Ok in H as [Hd%negb_false_iff%bool_decide_eq_true [= <-]]. split; [done|].
  cbn in Hs. rewrite Hrow in Hs. cbn in Hs. destruct (SecretRow.retired row); [done|]. injection Hs as Hs. by subst.
Qed.

Lemma digest_binds_key a b :
  OrchestratorAttestationKeyV1.digest a = OrchestratorAttestationKeyV1.digest b ->
  OrchestratorAttestationKeyV1.bytes a = OrchestratorAttestationKeyV1.bytes b \/ sha256_collision.
Proof.
  unfold OrchestratorAttestationKeyV1.digest. intros Hd%encode_hex_inj; [|apply sha256_bytes..].
  destruct (decide (OrchestratorAttestationKeyV1.bytes a = OrchestratorAttestationKeyV1.bytes b)) as [|Hne]; [by left|].
  right. by do 2 eexists.
Qed.

Lemma connect_secrets {S} `{AnchorBackend S} schema first second random1 random2 (state state' : deployment S) :
  connect_shadow security from_value migrate catalog schema first second random1 random2 state = Ok state' ->
  provision_orchestrator_attestation_key (OrchestratorAttestationKeyV1.random_shadow_key random1 random2) (dp_secrets _ state)
    = Ok (dp_secrets _ state').
Proof.
  unfold connect_shadow, connect_for_domain. cbv zeta. intros [_ Hc]%reject_Ok. apply bind_unit_Ok in Hc as [_ Hc].
  apply reject_Ok in Hc as [_ Hc]. apply bind_Ok in Hc as (s1 & _ & Hc). apply reject_Ok in Hc as [_ Hc].
  apply bind_Ok in Hc as (s2 & _ & Hc). apply reject_Ok in Hc as [_ Hc]. apply bind_Ok in Hc as ([m secrets] & Hs & Hc).
  rewrite bool_decide_eq_true_2 in Hs by done. apply bind_Ok in Hs as (m' & _ & Hs). apply bind_Ok in Hs as (s' & Hs & [= -> ->]).
  apply bind_unit_Ok in Hc as [_ Hc]. apply bind_unit_Ok in Hc as [_ Hc]. apply bind_unit_Ok in Hc as [_ Hc].
  by apply bind_Ok in Hc as (a & _ & [= <-]).
Qed.
End opens.

(** A Shadow authority opens its schema once.  Every start draws a new random key
    of the same version, and the key of a version is stored for good: on a schema that
    keeps the key of an earlier start, a start with other random identifiers is refused
    whatever the database holds, unless SHA-256 has a collision. *)
Theorem shadow_authority_opens_once {C : Crates} {L : CratesLaws} {P : UuidParser} {S S'} `{AnchorBackend S} `{AnchorBackend S'}
    security from_value migrate catalog schema first second random1 random2 (state opened : deployment S)
    security' from_value' migrate' catalog' schema' first' second' random3 random4 (again : deployment S') :
  connect_shadow security from_value migrate catalog schema first second random1 random2 state = Ok opened ->
  dp_secrets _ again !! ORCHESTRATOR_ATTESTATION_KEY_VERSION_V1 = dp_secrets _ opened !! ORCHESTRATOR_ATTESTATION_KEY_VERSION_V1 ->
  (random3, random4) <> (random1, random2) ->
  is_err (connect_shadow security' from_value' migrate' catalog' schema' first' second' random3 random4 again) = true \/ sha256_collision.
Proof.
  intros (row & Hrow & _ & Hd)%connect_secrets%provision_Ok Hkept Hne.
  destruct (connect_shadow security' _ _ _ _ _ _ _ _ _) as [reopened|e] eqn:Hagain; [|by left]. right.
  apply connect_secrets in Hagain. cbn in Hrow. rewrite <- Hkept in Hrow.
  destruct (provision_keeps _ _ _ _ Hagain Hrow) as [_ Hd']. rewrite Hd in Hd'.
  destruct (digest_binds_key _ _ Hd') as [[-> ->]%random_shadow_key_inj|]; [by destruct Hne|done].
Qed.

(** ** Key files *)

Lemma encode_hex_skipn n bs : skipn (2 * n) (encode_hex bs) = encode_hex (skipn n bs).
Proof.
  revert bs. induction n as [|n IH]; intros bs; [done|]. replace (2 * S n)%nat with (S (S (2 * n))) by lia.
  destruct bs as [|b bs]; [done|]. apply IH.
Qed.

Lemma hex_boundary bs n : Forall is_byte bs -> (n <= length (encode_hex bs))%nat -> is_char_boundary (encode_hex bs) (N.of_nat n) = true.
Proof.
  intros Hb Hn. apply existsb_exists. exists n. split; [apply in_seq; lia|]. apply N.eqb_eq.
  unfold str_len, lenN. rewrite as_bytes_ascii; [by rewrite length_firstn, Nat.min_l|].
  apply Forall_take. by apply encode_hex_ascii.
Qed.

Lemma decode_key_hex done todo :
  Forall is_byte (done ++ todo) ->
  OrchestratorAttestationKeyV1.decode_key (encode_hex (done ++ todo)) (seq (length done) (length todo)) done = Returned (Ok (done ++ todo)).
Proof.
  revert done. induction todo as [|b todo IH]; intros done Hb; cbn [seq length OrchestratorAttestationKeyV1.decode_key].
  { by rewrite app_nil_r. }
  assert (Forall is_byte [b]) as Hb1 by (by apply Forall_app in Hb as [_ [Hb _]%Forall_cons]; constructor).
  unfold str_slice.
  replace (2 * N.of_nat (length done)) with (N.of_nat (2 * length done)) by lia.
  replace (N.of_nat (2 * length done) + 2) with (N.of_nat (2 * length done + 2)) by lia.
  rewrite !hex_boundary by (done || (rewrite encode_hex_length, length_app; cbn; lia)). cbn [andb].
  rewrite as_bytes_ascii by by apply encode_hex_ascii. rewrite Nat2N.id, encode_hex_skipn, drop_app_length.
  replace (N.to_nat (N.of_nat (2 * length done + 2) - N.of_nat (2 * length done))) with 2%nat by lia.
  change (firstn 2 (encode_hex (b :: todo))) with (encode_hex [b]). rewrite encode_hex_lower by done. cbn [negb].
  rewrite decode_pairs_encode by done. rewrite cons_middle, app_assoc in Hb |- *.
  replace (seq (S (length done)) (length todo)) with (seq (length (done ++ [b])) (length todo)) by (f_equal; rewrite length_app; cbn; lia).
  by apply IH.
Qed.

(** A key file gives back its key: a private file that holds the 32 bytes of a key
    in lowercase hexadecimal, with white space around them, is read as that key. *)
Theorem key_file_roundtrip mode contents bytes :
  N.land mode 63 = 0 -> length bytes = 32%nat -> Forall is_byte bytes -> trim contents = encode_hex bytes ->
  OrchestratorAttestationKeyV1.from_protected_environment_file (Some (Some (KeyFile.mk true mode (Some contents))))
    = Returned (Ok (OrchestratorAttestationKeyV1.mk bytes ORCHESTRATOR_ATTESTATION_KEY_VERSION_V1)).
Proof.
  intros Hm Hl Hb Ht. unfold OrchestratorAttestationKeyV1.from_protected_environment_file. cbn [KeyFile.is_file KeyFile.mode KeyFile.contents].
  rewrite Hm, Ht, str_len_encode_hex by done. unfold lenN. rewrite Hl. cbn -[OrchestratorAttestationKeyV1.decode_key seq].
  pose proof (decode_key_hex [] bytes Hb) as Hd. cbn [app length] in Hd. by rewrite Hl in Hd; rewrite Hd.
Qed.

(** A character of two bytes across the boundary of a pair: the start panics. *)
Example misplaced_character_panics :
  OrchestratorAttestationKeyV1.from_protected_environment_file
    (Some (Some (KeyFile.mk true 384 (Some (97 :: 233 :: repeat 97 61))))) = Panicked.
Proof. vm_compute. reflexivity. Qed.

(** ** Opening again *)

Lemma provision_again {C : Crates} key secrets secrets' :
  provision_orchestrator_attestation_key key secrets = Ok secrets' -> provision_orchestrator_attestation_key key secrets' = Ok secrets'.
Proof.
  intros (row & Hrow & Hr & Hd)%provision_Ok. unfold provision_orchestrator_attestation_key. cbv zeta. rewrite Hrow.
  apply bind_Ok. exists (SecretRow.key_digest row). rewrite Hrow. cbn. rewrite Hr. split; [done|].
  apply reject_Ok. split; [|done]. by apply negb_false_iff, bool_decide_eq_true.
Qed.

Section again.
Context {S : Type} `{AnchorLaws S}.

Lemma tenant_anchor_Ok d e t cp (s s' : S) :
  (forall c, cp = Some c -> AuditCheckpointV1.key c = (d, e, t)) ->
  verify_tenant_anchor d e t cp s = Ok s' ->
  load_latest s' (d, e, t) = Ok cp /\ (cp = None -> d <> TrustDomainV1.Production) /\
  forall k, k <> (d, e, t) -> load_latest s' k = load_latest s k.
Proof.
  intros Hkey. unfold verify_tenant_anchor. cbv zeta. intros (anchor & Ha & Hv)%bind_Ok. destruct cp as [c|].
  - specialize (Hkey c eq_refl). apply bind_Ok in Hv as ([s1 latest] & Hp & Hv).
    apply reject_Ok in Hv as [Heq%negb_false_iff%bool_decide_eq_true [= <-]]. cbn in *. subst latest.
    destruct (match anchor with Some _ => _ | None => _ end).
    + apply bind_Ok in Hp as (s2 & Hpub & Hp). apply bind_Ok in Hp as (latest & Hl & [= <- ->]).
      split_and!; [exact Hl|done|]. intros k Hne. apply (publish_keeps_others _ _ _ _ Hpub). by rewrite Hkey.
    + injection Hp as <- ->. split_and!; done.
  - apply reject_Ok in Hv as [[Hs Hd]%orb_false_iff [= <-]]. apply bool_decide_eq_false in Hd. destruct anchor; [done|]. by split_and!.
Qed.

Lemma tenant_anchor_fixed d e t cp (s : S) :
  load_latest s (d, e, t) = Ok cp -> (cp = None -> d <> TrustDomainV1.Production) -> verify_tenant_anchor d e t cp s = Ok s.
Proof.
  intros Hl Hd. unfold verify_tenant_anchor. cbv zeta. apply bind_Ok. exists cp. split; [exact Hl|]. destruct cp as [c|].
  - apply bind_Ok. exists (s, Some c). rewrite Z.ltb_irrefl. split; [done|]. apply reject_Ok. split; [|done].
    by apply negb_false_iff, bool_decide_eq_true.
  - apply reject_Ok. split; [|done]. cbn. by apply bool_decide_eq_false, Hd.
Qed.

Lemma anchored_tenants d e (latest : text -> option AuditCheckpointV1.t) tenants (s s' : S) :
  (forall t c, latest t = Some c -> AuditCheckpointV1.key c = (d, e, t)) ->
  insert_each (fun t => verify_tenant_anchor d e t (latest t)) tenants s = Ok s' ->
  insert_each (fun t => verify_tenant_anchor d e t (latest t)) tenants s' = Ok s'.
Proof.
  intros Hkey Hs.
  assert (forall t, (t ∈ tenants -> load_latest s' (d, e, t) = Ok (latest t) /\ (latest t = None -> d <> TrustDomainV1.Production)) /\
    (t ∉ tenants -> load_latest s' (d, e, t) = load_latest s (d, e, t))) as Hall.
  { revert s Hs. induction tenants as [|t0 tenants IH]; intros s Hs t; cbn [insert_each] in Hs.
    { injection Hs as ->. split; [by intros ?%not_elem_of_nil|done]. }
    apply bind_Ok in Hs as (s1 & (Hl & Hd & Ho)%tenant_anchor_Ok & Hs); [|by apply Hkey].
    destruct (IH s1 Hs t) as [Hin Hout]. destruct (decide (t ∈ tenants)) as [Ht|Ht].
    - split; [by intros _; apply Hin|]. intros Hn. exfalso. apply Hn. by right.
    - rewrite (Hout Ht). split.
      + intros [->|?]%elem_of_cons; [by split|done].
      + intros [Hne _]%not_elem_of_cons. apply Ho. congruence. }
  assert (forall t, t ∈ tenants -> load_latest s' (d, e, t) = Ok (latest t) /\ (latest t = None -> d <> TrustDomainV1.Production)) as Hfix
    by (intros t; apply Hall).
  clear Hall Hs Hkey s. revert Hfix. induction tenants as [|t0 tenants IH]; intros Hfix; cbn [insert_each]; [done|].
  apply bind_Ok. exists s'. split; [|apply IH; intros t Ht; apply Hfix; by right].
  destruct (Hfix t0) as [Hl Hd]; [by left|]. by apply tenant_anchor_fixed.
Qed.
End again.

Lemma latest_checkpoint_key security db tenant c :
  latest_checkpoint_for_tenant security db tenant = Some c ->
  AuditCheckpointV1.key c = (own_domain security, ReferenceV1.as_str (own_environment security), ReferenceV1.as_str tenant).
Proof.
  unfold latest_checkpoint_for_tenant. set (l := filter _ _).
  assert (forall best, (forall b, best = Some b -> AuditCheckpointV1.key b = (own_domain security, ReferenceV1.as_str (own_environment security), ReferenceV1.as_str tenant)) ->
    (forall b, b ∈ l -> AuditCheckpointV1.key b = (own_domain security, ReferenceV1.as_str (own_environment security), ReferenceV1.as_str tenant)) ->
    forall b, foldl later best l = Some b -> AuditCheckpointV1.key b = (own_domain security, ReferenceV1.as_str (own_environment security), ReferenceV1.as_str tenant)) as Hf.
  { generalize l as cs. induction cs as [|x cs IH]; intros best Hb Hl b; cbn [foldl]; [by apply Hb|].
    apply IH; [|by intros y Hy; apply Hl; right]. intros y Hy. unfold later in Hy.
    destruct best as [b0|]; [case_match|]; injection Hy as <-; [by apply Hb|apply Hl; by left..]. }
  apply Hf; [done|]. intros b [Hk _]%list_elem_of_filter. exact Hk.
Qed.

(** Opening is idempotent: what a start leaves is opened by the next one with the
    same key, which finds nothing to publish and changes nothing, on an anchor that reads
    back what it was given. *)
Theorem reopening_changes_nothing {C : Crates} {P : UuidParser} {S} `{AnchorLaws S} security from_value migrate catalog schema first second
    trust_domain key (state opened : deployment S) :
  connect_for_domain security from_value migrate catalog schema first second trust_domain key state = Ok opened ->
  migrate (dp_migrations _ opened) = Ok (dp_migrations _ opened) ->
  connect_for_domain security from_value migrate catalog schema first second trust_domain key opened = Ok opened.
Proof.
  unfold connect_for_domain. cbv zeta. intros Hc Hm. apply bind_unit_Ok in Hc as [H1 Hc]. apply bind_unit_Ok. split; [exact H1|].
  apply reject_Ok in Hc as [H2 Hc]. apply reject_Ok. split; [exact H2|].
  apply bind_Ok in Hc as (s1 & H3 & Hc). apply bind_Ok. exists s1. split; [exact H3|].
  apply reject_Ok in Hc as [H4 Hc]. apply reject_Ok. split; [exact H4|].
  apply bind_Ok in Hc as (s2 & H5 & Hc). apply bind_Ok. exists s2. split; [exact H5|].
  apply reject_Ok in Hc as [H6 Hc]. apply reject_Ok. split; [exact H6|].
  apply bind_Ok in Hc as ([m secrets] & Hs & Hc). apply bind_unit_Ok in Hc as [H7 Hc]. apply bind_unit_Ok in Hc as [H8 Hc].
  apply bind_unit_Ok in Hc as [H9 Hc]. apply bind_Ok in Hc as (anchor & Ha & [= <-]). cbn in *.
  apply bind_Ok. exists (m, secrets). split.
  - destruct (trust_domain == TrustDomainV1.Shadow); [|done].
    apply bind_Ok in Hs as (m' & _ & Hs). apply bind_Ok in Hs as (sec & Hp & [= -> ->]).
    apply bind_Ok. exists m. split; [exact Hm|]. apply bind_Ok. exists secrets. split; [|done].
    by eapply provision_again.
  - apply bind_unit_Ok. split; [exact H7|]. apply bind_unit_Ok. split; [exact H8|]. apply bind_unit_Ok. split; [exact H9|].
    apply bind_Ok. exists anchor. split; [|done]. unfold verify_external_anchor in Ha |- *.
    apply bind_unit_Ok in Ha as [Hi Ha]. apply bind_unit_Ok. split; [exact Hi|].
    pose proof (anchored_tenants (own_domain security) (ReferenceV1.as_str (own_environment security))
      (fun t => latest_checkpoint_for_tenant security (dp_database _ state) (ReferenceV1.mk t))) as Hfix.
    assert (forall ts (s : S), insert_each (fun tenant => verify_tenant_anchor (own_domain security) (ReferenceV1.as_str (own_environment security))
        (ReferenceV1.as_str tenant) (latest_checkpoint_for_tenant security (dp_database _ state) tenant)) ts s
      = insert_each (fun t => verify_tenant_anchor (own_domain security) (ReferenceV1.as_str (own_environment security)) t
        (latest_checkpoint_for_tenant security (dp_database _ state) (ReferenceV1.mk t))) (map ReferenceV1.as_str ts) s) as Heq.
    { induction ts as [|t ts IH]; intros s; [done|]. cbn [map insert_each]. destruct t as [t]. cbn.
      destruct (verify_tenant_anchor _ _ _ _ s); [apply IH|done]. }
    rewrite Heq in Ha |- *. eapply Hfix; [|exact Ha]. by intros t c Hl%latest_checkpoint_key.
Qed.

(** ** A production start *)

(** A production authority starts only under a role that writes through the attested
    entry: whoever the catalogue says it is, it holds no privilege on a base table and
    cannot act as an owner of one, executes no other function of the schema, creates
    nothing, and every function that runs as its definer has its search path pinned. *)
Theorem production_start_is_confined {C : Crates} {P : UuidParser} {S} `{AnchorBackend S} security from_value migrate catalog schema first
    second key (state opened : deployment S) :
  connect_for_domain security from_value migrate catalog schema first second TrustDomainV1.Production key state = Ok opened ->
  confined schema catalog.
Proof.
  unfold connect_for_domain. cbv zeta. intros [_ Hc]%bind_unit_Ok. apply reject_Ok in Hc as [_ Hc].
  apply bind_Ok in Hc as (s1 & _ & Hc). apply reject_Ok in Hc as [_ Hc]. apply bind_Ok in Hc as (s2 & _ & Hc).
  apply reject_Ok in Hc as [_ Hc]. apply bind_Ok in Hc as ([m secrets] & _ & Hc). apply bind_unit_Ok in Hc as [_ Hc].
  apply bind_unit_Ok in Hc as [Hrole _]. rewrite bool_decide_eq_true_2 in Hrole by done. by apply runtime_role_confined.
Qed.

Lemma protected_key_version path key :
  OrchestratorAttestationKeyV1.from_protected_environment_file path = Returned (Ok key) ->
  OrchestratorAttestationKeyV1.version key = ORCHESTRATOR_ATTESTATION_KEY_VERSION_V1.
Proof. unfold OrchestratorAttestationKeyV1.from_protected_environment_file. intros H. repeat case_match; by simplify_eq. Qed.

(** A production schema keeps the key it was migrated with.  Migrating it again with the
    same key file changes nothing, when the migrator has nothing left to do; with another
    key it is refused, unless SHA-256 has a collision. *)
Theorem migrated_schema_keeps_its_key {C : Crates} {L : CratesLaws} {S} migrate schema path path' key key' (state migrated : deployment S) :
  OrchestratorAttestationKeyV1.from_protected_environment_file path = Returned (Ok key) ->
  OrchestratorAttestationKeyV1.from_protected_environment_file path' = Returned (Ok key') ->
  migrate_production migrate schema path state = Returned (Ok migrated) ->
  migrate (dp_migrations _ migrated) = Ok (dp_migrations _ migrated) ->
  (key' = key -> migrate_production migrate schema path' migrated = Returned (Ok migrated)) /\
  (key' <> key -> sha256_collision \/ exists error, migrate_production migrate schema path' migrated = Returned (Err error)).
Proof.
  intros Hk Hk' Hm Hdone. pose proof (protected_key_version _ _ Hk) as Hv. pose proof (protected_key_version _ _ Hk') as Hv'.
  unfold migrate_production in Hm |- *. rewrite Hk in Hm. rewrite Hk'. injection Hm as Hm.
  apply bind_unit_Ok in Hm as [Hs Hm]. apply reject_Ok in Hm as [Hp Hm]. apply bind_Ok in Hm as (migrations & _ & Hm).
  apply bind_Ok in Hm as (secrets & Hpro & Hm). apply bind_unit_Ok in Hm as [Hversion [= <-]]. cbn in *. split.
  - intros ->. f_equal. apply bind_unit_Ok. split; [exact Hs|]. apply reject_Ok. split; [exact Hp|].
    apply bind_Ok. exists migrations. split; [exact Hdone|]. apply bind_Ok. exists secrets.
    split; [by eapply provision_again|]. by apply bind_unit_Ok.
  - intros Hne. destruct (_ ← validate_schema_name schema; _) as [again|error] eqn:Ha; [|right; by exists error]. left.
    apply bind_unit_Ok in Ha as [_ Ha]. apply reject_Ok in Ha as [_ Ha]. apply bind_Ok in Ha as (m & _ & Ha).
    apply bind_Ok in Ha as (again' & Hagain & _). destruct (provision_Ok _ _ _ Hpro) as (row & Hrow & _ & Hd).
    rewrite Hv, <- Hv' in Hrow. destruct (provision_keeps _ _ _ _ Hagain Hrow) as [_ Hd']. rewrite Hd in Hd'.
    destruct (digest_binds_key _ _ Hd') as [Hb|]; [|done]. destruct Hne. destruct key, key'. cbn in *. congruence.
Qed.
