(* ===== verification/Rotation.v ===== *)
(** * Rotation: the trust root while the orchestrator runs
    ([idr-runtime/src/postgres_authority.rs])

    [RotatingTrustRootProviderV1] hands out the current trust root and replaces it by a
    newer one.  A transaction reads the root once, at its start, and may commit after the
    root has been replaced: the steps below interleave rotations, reads and commits. *)

From stdpp Require Import base list gmap fin_sets countable sorting strings relations.
From Stdlib Require Import NArith ZArith Lia.
From S2P Require Import Prelude Text Json Crates CanonicalJson Common Production ProductionProps ChainData ChainCommand ChainPayload ChainTransition ChainEvaluate ChainRepository Authority ChainProps ChainExecution AuthorityProps LedgerData Copies Ledger LedgerProps.

(** ** The provider *)

(** A snapshot behind a lock.  A lock is poisoned by a panic of a writer. *)
Module RotatingTrustRootProviderV1.
Record t := mk {
  current : TrustRootSnapshotV1.t;
  poisoned : bool;
}.

Definition new (snapshot : TrustRootSnapshotV1.t) : t := mk snapshot false.

Definition rotate (snapshot : TrustRootSnapshotV1.t) (provider : t) : Chain t :=
  reject poisoned provider with repository_failure "Trust Root lock poisoned";
  reject TrustRootSnapshotV1.root_version snapshot <=? TrustRootSnapshotV1.root_version (current provider)
    with repository_failure "Trust Root version must advance monotonically";
  Ok (mk snapshot (poisoned provider)).

Definition current_snapshot (provider : t) : Chain TrustRootSnapshotV1.t :=
  reject poisoned provider with repository_failure "Trust Root lock poisoned";
  Ok (current provider).
End RotatingTrustRootProviderV1.

(** ** The running orchestrator *)

Module Runtime.
Record t := mk {
  provider : RotatingTrustRootProviderV1.t;
  (** the roots read by transactions that have not ended *)
  reads : list TrustRootSnapshotV1.t;
  database : Database.t;
}.
End Runtime.

Section runtime.
Context {C : Crates} {P : UuidParser} (security : PostgresSecurityContextV1.t).

Definition started (root : TrustRootSnapshotV1.t) : Runtime.t :=
  Runtime.mk (RotatingTrustRootProviderV1.new root) [] Database.empty.
Definition current_root (r : Runtime.t) : TrustRootSnapshotV1.t := RotatingTrustRootProviderV1.current (Runtime.provider r).
Definition proofs (r : Runtime.t) : list EnvelopeRow.t := Database.envelopes (Runtime.database r).

(** The steps when every new root is one of [offered] *)
Inductive runtime_step (offered : TrustRootSnapshotV1.t -> Prop) : Runtime.t -> Runtime.t -> Prop :=
| rotates snapshot provider provider' reads db :
    offered snapshot -> RotatingTrustRootProviderV1.rotate snapshot provider = Ok provider' ->
    runtime_step offered (Runtime.mk provider reads db) (Runtime.mk provider' reads db)
| begins provider root reads db :
    RotatingTrustRootProviderV1.current_snapshot provider = Ok root ->
    runtime_step offered (Runtime.mk provider reads db) (Runtime.mk provider (root :: reads) db)
| answers {S} `{AnchorBackend S} provider before root after key key_version production human_model_write session publication minted
    command now db (anchor : S) db' anchor' outcome :
    Ledger.handle security key key_version root production human_model_write session publication minted command now db anchor
      = (db', anchor', outcome) ->
    runtime_step offered (Runtime.mk provider (before ++ root :: after) db) (Runtime.mk provider (before ++ after) db').

(** The database sees commands under some root. *)
Lemma runtime_step_ledger offered r r' :
  runtime_step offered r r' ->
  Runtime.database r' = Runtime.database r \/ ledger_step security (Runtime.database r) (Runtime.database r').
Proof. destruct 1; [by left..|]. right. by econstructor. Qed.

Lemma runtime_ledger offered r r' :
  rtc (runtime_step offered) r r' -> rtc (ledger_step security) (Runtime.database r) (Runtime.database r').
Proof.
  induction 1 as [r|r1 r2 r3 Hs _ IH]; [done|]. destruct (runtime_step_ledger _ _ _ Hs) as [He|Hl]; [by rewrite He in IH|].
  by eapply rtc_l.
Qed.

Lemma rotate_Ok snapshot provider provider' :
  RotatingTrustRootProviderV1.rotate snapshot provider = Ok provider' ->
  RotatingTrustRootProviderV1.current provider' = snapshot /\
  TrustRootSnapshotV1.root_version (RotatingTrustRootProviderV1.current provider) < TrustRootSnapshotV1.root_version snapshot.
Proof. unfold RotatingTrustRootProviderV1.rotate. intros [_ H]%reject_Ok. by apply reject_Ok in H as [Hv%N.leb_gt [= <-]]. Qed.

Lemma current_snapshot_Ok provider root :
  RotatingTrustRootProviderV1.current_snapshot provider = Ok root -> root = RotatingTrustRootProviderV1.current provider.
Proof. unfold RotatingTrustRootProviderV1.current_snapshot. by intros [_ [= <-]]%reject_Ok. Qed.

(** ** What is stored under a root *)

(** A proof stored under a root: it names the root, which verified it. *)
Definition verified_under (root : TrustRootSnapshotV1.t) (row : EnvelopeRow.t) : Prop :=
  EnvelopeRow.trust_root_version row = TrustRootSnapshotV1.root_version root /\
  EnvelopeRow.trust_root_digest row = TrustRootSnapshotV1.root_digest root /\
  EnvelopeRow.key_id row = ProductionProofEnvelopeV1.key_id (EnvelopeRow.envelope row) /\
  exists expected verified, TrustRootSnapshotV1.verify_at root (EnvelopeRow.envelope row) expected (EnvelopeRow.verified_at row) = Ok verified.

Lemma verified_proofs trust_root command now vs e v :
  verify_proofs_inside_transaction security trust_root command now = Ok vs ->
  (e, v) ∈ zip (IdrCommandEnvelopeV1.proofs command) vs ->
  exists expected, TrustRootSnapshotV1.verify_at trust_root e expected now = Ok v.
Proof.
  unfold verify_proofs_inside_transaction. intros [_ H]%reject_Ok. apply bind_Ok in H as (digest & _ & H).
  apply reject_Ok in H as [_ H]. apply bind_Ok in H as (subject & _ & H%collect_map_Ok).
  intros (i & e' & v' & [= -> ->] & He & Hv)%elem_of_lookup_zip_with.
  pose proof (Forall2_lookup_lr _ _ _ _ _ _ H He Hv) as (issuer & _ & Hat)%verify_command_proof_Ok. by eexists.
Qed.

Lemma committed_envelopes key key_version trust_root session minted command now d db db' sealed :
  committed security key key_version trust_root session minted command now d db db' sealed ->
  exists rows, Database.envelopes db' = Database.envelopes db ++ rows /\ Forall (verified_under trust_root) rows.
Proof.
  intros Hc. pose proof (cm_proofs _ _ _ _ _ _ _ _ _ _ _ _ Hc) as Hp.
  pose proof (ps_envelopes _ _ _ _ _ _ _ _ _ _ _ (cm_tables _ _ _ _ _ _ _ _ _ _ _ _ Hc)) as He. destruct db'. cbn in He |- *.
  eexists. split; [exact He|]. apply Forall_forall. intros row (i & e & v & -> & He1 & He2)%elem_of_lookup_zip_with.
  split_and!; [done..|]. destruct (verified_proofs _ _ _ _ e v Hp) as [expected Hv]; [|by exists expected, v].
  apply elem_of_lookup_zip_with. by exists i, e, v.
Qed.

Lemma handle_envelopes {S} `{AnchorBackend S} key key_version root production human_model_write session publication minted
    command now db (anchor : S) db' anchor' outcome :
  Ledger.handle security key key_version root production human_model_write session publication minted command now db anchor
    = (db', anchor', outcome) ->
  exists rows, Database.envelopes db' = Database.envelopes db ++ rows /\ Forall (verified_under root) rows.
Proof.
  intros [[-> _]|(d & sealed & db1 & _ & Hc & Hdb)]%handle_cases; [by exists []; rewrite app_nil_r|].
  destruct (committed_envelopes _ _ _ _ _ _ _ _ _ _ _ Hc) as (rows & He & Hr). exists rows. split; [|exact Hr].
  rewrite <- He. destruct Hdb as [->|(a & m & _ & _ & _ & _ & _ & _ & ->)]; [done|by destruct db1].
Qed.

(** Every proof stored from here on was verified by a root that is now current or read, or
    by one offered later, and the roots in use stay among these. *)
Lemma stored_from_here offered r r' :
  rtc (runtime_step offered) r r' -> offered (current_root r) -> Forall offered (Runtime.reads r) ->
  exists rows, proofs r' = proofs r ++ rows /\ Forall (fun row => exists root, offered root /\ verified_under root row) rows.
Proof.
  induction 1 as [r|r1 r2 r3 Hs _ IH]; intros Hcur Hreads; [by exists []; rewrite app_nil_r|].
  destruct Hs as [snapshot provider provider' reads db Ho [Hr _]%rotate_Ok|provider root reads db ->%current_snapshot_Ok|
    S B provider before root after key kv prod hm session publication minted command now db anchor db' anchor' outcome Hh].
  - apply IH; [unfold current_root; cbn; by rewrite Hr|exact Hreads].
  - apply IH; [exact Hcur|by constructor].
  - cbn [Runtime.reads] in Hreads. apply Forall_app in Hreads as [Hb [Hroot Ha]%Forall_cons].
    destruct IH as (rows & Hp & Hrows); [exact Hcur|by apply Forall_app|].
    apply handle_envelopes in Hh as (new & He & Hn). exists (new ++ rows). unfold proofs in *. cbn [Runtime.database] in *.
    rewrite Hp, He, app_assoc. split; [done|]. apply Forall_app. split; [|exact Hrows].
    eapply Forall_impl; [exact Hn|]. intros row Hrow. by exists root.
Qed.

(** The version of the current root never goes down. *)
Lemma rotation_advances offered r r' :
  rtc (runtime_step offered) r r' ->
  TrustRootSnapshotV1.root_version (current_root r) <= TrustRootSnapshotV1.root_version (current_root r').
Proof.
  induction 1 as [r|r1 r2 r3 Hs _ IH]; [done|]. etrans; [|exact IH].
  destruct Hs as [snapshot provider provider' reads db _ [Hr Hv]%rotate_Ok| |]; [|done..].
  unfold current_root. cbn. rewrite Hr. by apply N.lt_le_incl.
Qed.

(** A step keeps what is offered later than a version: rotation itself sees to it. *)
Lemma only_later_roots version r r' :
  rtc (runtime_step (fun _ => True)) r r' -> version <= TrustRootSnapshotV1.root_version (current_root r) ->
  rtc (runtime_step (fun root => version <= TrustRootSnapshotV1.root_version root)) r r'.
Proof.
  induction 1 as [r|r1 r2 r3 Hs Hr IH]; intros Hv; [done|]. eapply rtc_l; [|apply IH].
  - destruct Hs as [snapshot provider provider' reads db _ Hrot| |].
    + eapply rotates; [|exact Hrot]. apply rotate_Ok in Hrot as [_ Hlt]. unfold current_root in Hv. cbn in Hv. lia.
    + by eapply begins.
    + by eapply answers.
  - etrans; [exact Hv|]. eapply rotation_advances, rtc_once, Hs.
Qed.

(** Every root in use is one that has been current, the newest first. *)
Record coherent (served : list TrustRootSnapshotV1.t) (r : Runtime.t) : Prop := {
  co_current : head served = Some (current_root r);
  co_sorted : StronglySorted (fun a b => TrustRootSnapshotV1.root_version b < TrustRootSnapshotV1.root_version a) served;
  co_reads : forall root, root ∈ Runtime.reads r -> root ∈ served;
  co_proofs : forall row, row ∈ proofs r -> exists root, root ∈ served /\ verified_under root row;
}.

Lemma coherent_step served r r' :
  coherent served r -> runtime_step (fun _ => True) r r' -> exists served', coherent served' r'.
Proof.
  intros [Hc Hs Hr Hp] Hstep.
  destruct Hstep as [snapshot provider provider' reads db _ [Hcur Hlt]%rotate_Ok|provider root reads db ->%current_snapshot_Ok|
    S B provider before root after key kv prod hm session publication minted command now db anchor db' anchor' outcome Hh].
  - exists (snapshot :: served). unfold current_root in *. cbn in *. split; cbn.
    + unfold current_root. cbn. by rewrite Hcur.
    + constructor; [done|]. destruct served as [|root served]; [done|]. injection Hc as ->.
      apply StronglySorted_inv in Hs as [_ Hs]. constructor; [done|].
      eapply Forall_impl; [exact Hs|]. cbn. lia.
    + intros root Hroot. right. by apply Hr.
    + intros row Hrow. destruct (Hp row Hrow) as (root & Hroot & Hv). exists root. split; [by right|done].
  - exists served. split; [done..| |done]. cbn. intros root [->|Hroot]%elem_of_cons; [|by apply Hr].
    destruct served; [done|]. injection Hc as ->. by left.
  - exists served. split; [done..| |].
    + intros other Hin. apply Hr. cbn in *. set_solver.
    + apply handle_envelopes in Hh as (rows & He & Hrows). unfold proofs in *. cbn in *. rewrite He.
      intros row [Hrow|Hrow]%elem_of_app; [by apply Hp|]. exists root.
      split; [apply Hr; set_solver|]. by eapply (proj1 (Forall_forall _ _)).
Qed.

Lemma coherent_reachable root0 r : rtc (runtime_step (fun _ => True)) (started root0) r -> exists served, coherent served r.
Proof.
  assert (exists served, coherent served (started root0)) as H0.
  { exists [root0]. split; [done|by repeat constructor|by intros ? ?%elem_of_nil|by intros ? ?%elem_of_nil]. }
  intros Hr. revert H0. induction Hr as [r0|r1 r2 r3 Hs _ IH]; intros H0; [done|]. apply IH. destruct H0 as [served Hc].
  by eapply coherent_step.
Qed.

Lemma sorted_versions_inj served a b :
  StronglySorted (fun a b => TrustRootSnapshotV1.root_version b < TrustRootSnapshotV1.root_version a) served ->
  a ∈ served -> b ∈ served -> TrustRootSnapshotV1.root_version a = TrustRootSnapshotV1.root_version b -> a = b.
Proof.
  induction 1 as [|root served _ IH Hall]; [by intros ?%elem_of_nil|]. rewrite Forall_forall in Hall.
  intros [->|Ha]%elem_of_cons [->|Hb]%elem_of_cons He; [done| | |by apply IH].
  - specialize (Hall b Hb). lia.
  - specialize (Hall a Ha). lia.
Qed.
End runtime.

(** C18. Once a trust root has been replaced, and the transactions that had read an older one
    have ended, nothing is verified by it any more: each proof stored afterwards was
    verified by a root at least as new, whose version and digest it names, and two proofs
    that name one version name one root. *)
Theorem superseded_root_verifies_nothing {C : Crates} {P : UuidParser} security root0 r r' :
  rtc (runtime_step security (fun _ => True)) (started root0) r ->
  Forall (fun root => TrustRootSnapshotV1.root_version (current_root r) <= TrustRootSnapshotV1.root_version root) (Runtime.reads r) ->
  rtc (runtime_step security (fun _ => True)) r r' ->
  (exists rows, proofs r' = proofs r ++ rows /\ forall row, row ∈ rows ->
     exists root, verified_under root row /\ TrustRootSnapshotV1.root_version (current_root r) <= TrustRootSnapshotV1.root_version root) /\
  forall a b, a ∈ proofs r' -> b ∈ proofs r' -> EnvelopeRow.trust_root_version a = EnvelopeRow.trust_root_version b ->
    EnvelopeRow.trust_root_digest a = EnvelopeRow.trust_root_digest b.
Proof.
  intros Hr Hreads Hr'. split.
  - destruct (stored_from_here _ _ _ _ (only_later_roots _ _ _ _ Hr' (N.le_refl _)) (N.le_refl _) Hreads) as (rows & Hp & Hrows).
    exists rows. split; [exact Hp|]. intros row Hrow. rewrite Forall_forall in Hrows. destruct (Hrows row Hrow) as (root & Hv & Hu). by exists root.
  - assert (rtc (runtime_step security (fun _ => True)) (started root0) r') as Hall by by etrans.
    destruct (coherent_reachable _ root0 r' Hall) as (served & [_ Hs _ Hp]).
    intros a b Ha Hb He. destruct (Hp a Ha) as (ra & Hra & Va & Da & _), (Hp b Hb) as (rb & Hrb & Vb & Db & _).
    rewrite Da, Db. f_equal. eapply sorted_versions_inj; [done..|congruence].
Qed.

(** C17. A key that has been taken out signs nothing any more.  When neither the current root
    nor one a running transaction has read holds the key, and no root offered later does,
    no proof signed under its identifier is stored again, however rotations, transactions
    and failures interleave. *)
Theorem withdrawn_key_signs_nothing {C : Crates} {P : UuidParser} security (key_id : ReferenceV1.t) r r' :
  let without root := TrustRootSnapshotV1.keys root !! ReferenceV1.as_str key_id = None in
  without (current_root r) -> Forall without (Runtime.reads r) -> rtc (runtime_step security without) r r' ->
  exists rows, proofs r' = proofs r ++ rows /\ forall row, row ∈ rows -> EnvelopeRow.key_id row <> key_id.
Proof.
  intros without Hcur Hreads Hr. destruct (stored_from_here _ _ _ _ Hr Hcur Hreads) as (rows & Hp & Hrows).
  exists rows. split; [exact Hp|]. intros row Hrow He. rewrite Forall_forall in Hrows.
  destruct (Hrows row Hrow) as (root & Hnone & _ & _ & Hid & expected & verified & Hv).
  apply verify_at_Ok in Hv as (_ & _ & _ & _ & _ & key & _ & _ & Hkey & _). rewrite <- Hid, He in Hkey. unfold without in Hnone. congruence.
Qed.

(** The provider does not look at the domain of a new root.  Under one of another domain
    or environment every command is refused and nothing is written. *)
Theorem foreign_root_stops_the_authority {C : Crates} {P : UuidParser} {S} `{AnchorBackend S} security key key_version root production
    human_model_write session publication minted command now db (anchor : S) :
  TrustRootSnapshotV1.trust_domain root <> PostgresSecurityContextV1.trust_domain security \/
  TrustRootSnapshotV1.environment_ref root <> PostgresSecurityContextV1.environment_ref security ->
  exists error, Ledger.handle security key key_version root production human_model_write session publication minted command now db anchor
    = (db, anchor, Err error).
Proof.
  intros Hroot. unfold Ledger.handle. destruct (admit_command _ _ _ _) as [[]|error]; [|by exists error].
  unfold transact_inner. cbn [mbind result_bind]. eexists.
  replace ((_ != _) || _) with true; [reflexivity|]. symmetry. apply orb_true_iff. rewrite !negb_true_iff, !bool_decide_eq_false. exact Hroot.
Qed.
