(* ===== verification/LedgerModel.v ===== *)
(** * LedgerModel: the copies of records, and the human model read back

    Every copy of a record repeats the record ([copies_repeat_their_record]).  What the
    query tells of the human model is the content a promotion decision let through
    ([effective_assertion_was_promoted]), and nothing of it is told once a record it is
    derived from has been withdrawn ([withdrawn_evidence_is_never_told]).  The commands
    that withdraw or correct a record by name are refused on a run with a promotion
    ([promotion_refuses_recall_commands]); a new outcome or candidate still supersedes what
    was promoted.  Every row of
    every table belongs to the authority's own domain
    ([reachable_database_passes_the_domain_check]). *)

From stdpp Require Import base list gmap fin_sets countable sorting strings.
From Stdlib Require Import NArith ZArith Lia.
From S2P Require Import Prelude Text Json Crates CanonicalJson Common Production ProductionProps ChainData ChainCommand ChainPayload ChainTransition ChainEvaluate ChainRepository Authority ChainProps ChainExecution AuthorityProps ChainRequest ChainClosed LedgerData Copies Ledger LedgerVerify LedgerProps LedgerGaps LedgerClosure Outbox LedgerConnect.

(** ** What a command adds to the copies *)

Lemma insert_row_Ok {A} clash referenced (row : A) rows rows' :
  insert_row clash referenced row rows = Ok rows' ->
  existsb (clash row) rows = false /\ referenced = true /\ rows' = rows ++ [row].
Proof.
  unfold insert_row. intros [Hc [Hr%negb_false_iff [= <-]]%reject_Ok]%reject_Ok. by split_and!.
Qed.

Section writes.
Context {C : Crates}.
Context (records : list ContractRow.t) (envelopes : list EnvelopeRow.t).
Context (attempts : list AttemptRow.t) (reservations : gmap Uuid ReservationRow.t).

(** The copy of a record *)
Definition copy_of (record : AuthoritativeRecordV1.t) : Node * Value := (node (AuthoritativeRecordV1.record_ref record), to_value (Json.to_json record)).

(** An assertion that the guard let in *)
Definition admitted_assertion (command : IdrCommandV1.t) (s : Specialized.t) (row : AssertionRow.t) : Prop :=
  materialization_refused records row s = false /\
  match AssertionRow.from row with
  | AssertionRow.Promoted decision => True
  | AssertionRow.Corrected predecessor _ =>
      predecessor ∈ map AssertionRow.assertion_record (Specialized.assertions s) /\
      exists target correction, command = IdrCommandV1.CorrectHumanModelAssertion target correction /\ predecessor = node target
  end.

(** What may be new *)
Record extended (command : IdrCommandV1.t) (issued : option AuthoritativeRecordV1.t) (s s' : Specialized.t) : Prop := {
  ex_copies : forall copy, copy ∈ copies s' -> copy ∈ copies s \/ exists record, issued = Some record /\ copy = copy_of record;
  ex_promotions : exists new, Specialized.promotions s' = Specialized.promotions s ++ new;
  ex_promotion_keys : NoDup (map PromotionRow.decision_record (Specialized.promotions s)) ->
    NoDup (map PromotionRow.decision_record (Specialized.promotions s'));
  ex_assertions : Specialized.assertions s' = Specialized.assertions s \/
    exists row, Specialized.assertions s' = Specialized.assertions s ++ [row] /\ admitted_assertion command s row /\
      Specialized.promotions s' = Specialized.promotions s;
}.

Lemma extended_refl command issued s : extended command issued s s.
Proof. split; [by left|exists []; by rewrite app_nil_r|done|by left]. Qed.

Lemma persist_response_send_Ok command s s' :
  persist_response_send records command s = Ok s' -> exists sends, s' = Specialized.with_sends sends s.
Proof.
  unfold persist_response_send. destruct (IdrCommandEnvelopeV1.command command);
    try (intros [= <-]; exists (Specialized.sends s); by destruct s).
  cbv zeta. intros (_ & _ & H)%bind_Ok. apply reject_Ok in H as [_ H]. apply bind_Ok in H as (sends & _ & [= <-]). by eexists.
Qed.

Lemma NoDup_snoc_key {A K} `{EqDecision K} (key : A -> K) rows row :
  existsb (same_key key row) rows = false -> NoDup (map key rows) -> NoDup (map key (rows ++ [row])).
Proof.
  intros Hc%existsb_false Hn. rewrite map_app. apply NoDup_app. split_and!; [done| |apply NoDup_singleton].
  intros k Hk ->%list_elem_of_singleton. apply list_elem_of_fmap in Hk as (old & He & Hin).
  rewrite Forall_forall in Hc. specialize (Hc _ Hin). unfold same_key in Hc. apply bool_decide_eq_false in Hc. congruence.
Qed.

Ltac new_copy := intros copy; unfold copies; cbn [Specialized.with_receipts Specialized.with_outcomes Specialized.with_candidates
    Specialized.with_promotions Specialized.with_assertions Specialized.receipts Specialized.outcomes Specialized.candidates
    Specialized.promotions Specialized.assertions]; rewrite !map_app, !elem_of_app; cbn [map];
  rewrite list_elem_of_singleton; naive_solver.

(** A row in a table other than those of promotions and assertions *)
Lemma extended_other command issued s s' record :
  issued = Some record -> (forall copy, copy ∈ copies s' -> copy ∈ copies s \/ copy = copy_of record) ->
  Specialized.promotions s' = Specialized.promotions s -> Specialized.assertions s' = Specialized.assertions s ->
  extended command issued s s'.
Proof.
  intros -> Hc Hp Ha. split; rewrite ?Hp; [|by exists []; rewrite app_nil_r|done|by left].
  intros copy Hin. destruct (Hc copy Hin) as [?| ->]; [by left|right; by exists record].
Qed.

Lemma extended_assertion command record row s s' :
  (AssertionRow.assertion_record row, AssertionRow.assertion row) = copy_of record ->
  (forall predecessor proof_id, AssertionRow.from row = AssertionRow.Corrected predecessor proof_id ->
     exists target correction, command = IdrCommandV1.CorrectHumanModelAssertion target correction /\ predecessor = node target) ->
  persist_assertion records envelopes row s = Ok s' -> extended command (Some record) s s'.
Proof.
  intros Hcopy Hcommand. unfold persist_assertion, persist_assertion_row. intros (_ & _ & H)%bind_Ok.
  apply reject_Ok in H as [Hg H]. apply bind_Ok in H as (rows & (_ & Hr & ->)%insert_row_Ok & [= <-]).
  assert (admitted_assertion command s row) as Ha.
  { split; [done|]. destruct (AssertionRow.from row) as [decision|predecessor proof_id] eqn:Hf; [done|].
    split; [|by eapply Hcommand]. apply andb_true_iff in Hr as [_ [_ Hr]%andb_true_iff].
    apply existsb_exists in Hr as (old & Hin & He%bool_decide_eq_true).
    apply list_elem_of_fmap. exists old. split; [done|]. by apply list_elem_of_In. }
  destruct s. split; [|by exists []; rewrite app_nil_r|done|right; by exists row]. new_copy.
Qed.

Lemma persist_domain_row_Ok command t s s' :
  persist_domain_row records envelopes attempts reservations command t s = Ok s' ->
  extended (IdrCommandEnvelopeV1.command command) (IdrTransitionV1.authoritative_record t) s s'.
Proof.
  unfold persist_domain_row. cbv zeta.
  destruct (IdrCommandEnvelopeV1.command command); try (intros [= <-]; apply extended_refl);
    intros (record & Hr%ok_or_Ok & H)%bind_Ok; rewrite Hr; repeat match type of H with mbind _ _ = _ => apply bind_Ok in H as (? & _ & H) end.
  - unfold persist_receipt_row in H. apply reject_Ok in H as [_ H]. apply reject_Ok in H as [_ H].
    apply bind_Ok in H as (rows & (_ & _ & ->)%insert_row_Ok & [= <-]). destruct s.
    eapply extended_other; [done| |done..]. new_copy.
  - unfold persist_outcome_row in H. apply bind_Ok in H as (rows & (_ & _ & ->)%insert_row_Ok & [= <-]). destruct s.
    eapply extended_other; [done| |done..]. new_copy.
  - unfold persist_candidate_row in H. apply reject_Ok in H as [_ H].
    apply bind_Ok in H as (rows & (_ & _ & ->)%insert_row_Ok & [= <-]). destruct s.
    eapply extended_other; [done| |done..]. new_copy.
  - unfold persist_promotion_row in H. apply reject_Ok in H as [_ H].
    apply bind_Ok in H as (rows & (Hc & _ & ->)%insert_row_Ok & [= <-]). destruct s.
    split; [|by eexists|by apply NoDup_snoc_key|by left]. new_copy.
  - by eapply extended_assertion; [| |exact H].
  - eapply extended_assertion; [| |exact H]; [done|]. intros ? ? [= <- _]. by do 2 eexists.
Qed.
End writes.

(** ** What every reachable database holds *)

Section model.
Context {C : Crates} {P : UuidParser} (security : PostgresSecurityContextV1.t).

(** A record is found under its identifier and revision. *)
Definition stored_once (records : list ContractRow.t) : Prop :=
  forall row, row ∈ records -> 1 <= ContractRow.revision row /\ stored_record records (row_node row) = Some row.

Definition copies_ok (records : list ContractRow.t) (s : Specialized.t) : Prop :=
  forall copy, copy ∈ copies s -> exists row, row ∈ records /\ row_node row = copy.1 /\ ContractRow.record row = copy.2.

Record model_ok (db : Database.t) : Prop := {
  mo_records : stored_once (Database.records db);
  mo_copies : copies_ok (Database.records db) (Database.specialized db);
  mo_promotions : NoDup (map PromotionRow.decision_record (Specialized.promotions (Database.specialized db)));
  mo_assertions : forall row, row ∈ Specialized.assertions (Database.specialized db) ->
    (exists decision, AssertionRow.from row = AssertionRow.Promoted decision) /\
    materialization_refused (Database.records db) row (Database.specialized db) = false;
}.

Lemma stored_once_snoc records row :
  stored_once records -> ContractRow.revision row = contiguous_revision (ContractRow.record_id row) records ->
  stored_once (records ++ [row]).
Proof.
  intros Hok Hrev r [Hin| ->%list_elem_of_singleton]%elem_of_app.
  - destruct (Hok r Hin) as [H1 H2]. split; [done|]. by apply find_first_app.
  - split; [rewrite Hrev; unfold contiguous_revision; lia|]. by apply fresh_record.
Qed.

Lemma refused_mono records new s s' row :
  (exists promotions, Specialized.promotions s' = Specialized.promotions s ++ promotions) ->
  materialization_refused records row s = false -> materialization_refused (records ++ new) row s' = false.
Proof.
  intros [promotions Hp]. unfold materialization_refused. destruct (AssertionRow.from row) as [decision|]; [|done].
  rewrite !negb_false_iff. destruct (find_promotion s decision) as [p|] eqn:Hf; [|done]. cbn.
  assert (find_promotion s' decision = Some p) as ->. { unfold find_promotion in *. rewrite Hp. by apply find_first_app. }
  cbn. unfold stored_record. destruct (find_first _ records) as [c|] eqn:Hc; [|done].
  rewrite (find_first_app _ _ _ _ Hc). destruct (find_first (fun r => row_node r == PromotionRow.decision_record p) records) as [dr|] eqn:Hd; [|done].
  by rewrite (find_first_app _ _ _ _ Hd).
Qed.

Section step.
Context {key : list N} {key_version : Z} {trust_root : TrustRootSnapshotV1.t} {session : Session.t} {minted : Minted.t}.
Context {command : IdrCommandEnvelopeV1.t} {now : N} {d : decision} {db db' : Database.t} {sealed : AuditCheckpointV1.t}.
Context (Hcommitted : committed security key key_version trust_root session minted command now d db db' sealed).

Lemma committed_extended :
  (exists new, Database.records db' = Database.records db ++ new /\
     new = option_list (contract_row <$> IdrTransitionV1.authoritative_record (dc_transition d)) /\
     forall row, row ∈ new -> ContractRow.revision row = contiguous_revision (ContractRow.record_id row) (Database.records db)) /\
  exists sends, extended (Database.records db') (IdrCommandEnvelopeV1.command command) (IdrTransitionV1.authoritative_record (dc_transition d))
    (Specialized.with_sends sends (Database.specialized db)) (Database.specialized db').
Proof.
  pose proof (cm_tables _ _ _ _ _ _ _ _ _ _ _ _ Hcommitted) as Ht.
  pose proof (ps_record _ _ _ _ _ _ _ _ _ _ _ Ht) as Hrecord. pose proof (ps_specialized _ _ _ _ _ _ _ _ _ _ _ Ht) as Hs.
  destruct db'. unfold specialized_written in Hs. tables. split.
  - destruct (IdrTransitionV1.authoritative_record (dc_transition d)) as [r|]; cbn [option_list fmap option_fmap option_map].
    + destruct Hrecord as (-> & Hrev & _). eexists. split_and!; [reflexivity..|]. by intros row ->%list_elem_of_singleton.
    + destruct Hrecord as [_ ->]. exists []. rewrite app_nil_r. split_and!; [done..|]. by intros row ?%not_elem_of_nil.
  - destruct Hs as (s1 & [sends ->]%persist_response_send_Ok & H%persist_domain_row_Ok). by exists sends.
Qed.

Lemma committed_model : model_ok db -> model_ok db'.
Proof.
  intros [Hr Hc Hp Ha]. destruct committed_extended as [(new & Hrows & Hnew & Hrev) (sends & [Hcopies Hpre Hkeys Hassert])].
  assert (stored_once (Database.records db')) as Hr'.
  { rewrite Hrows. destruct (IdrTransitionV1.authoritative_record (dc_transition d)) as [r|]; cbn in Hnew; subst new.
    - apply stored_once_snoc; [done|]. apply Hrev. by left.
    - by rewrite app_nil_r. }
  assert (forall row, row ∈ Specialized.assertions (Database.specialized db) ->
    materialization_refused (Database.records db') row (Database.specialized db') = false) as Hold.
  { intros row Hin. rewrite Hrows. eapply refused_mono; [exact Hpre|]. by apply Ha. }
  split; [done| |by apply Hkeys|].
  - intros copy [Hin|(record & Hrec & ->)]%Hcopies.
    + destruct (Hc copy Hin) as (row & Hrow & H). exists row. split; [|done]. rewrite Hrows. apply elem_of_app. by left.
    + exists (contract_row record). split_and!; [|done..]. rewrite Hrows, Hnew, Hrec. apply elem_of_app. right. by left.
  - destruct Hassert as [->|(row & -> & [Hg Hfrom] & Hsame)]; cbn [Specialized.with_sends Specialized.assertions] in *.
    { intros row Hin. split; [by apply Ha|by apply Hold]. }
    intros row' [Hin| ->%list_elem_of_singleton]%elem_of_app; [split; [by apply Ha|by apply Hold]|].
    destruct (AssertionRow.from row) as [decision|predecessor proof_id] eqn:Hf.
    + split; [by exists decision|].  rewrite <- Hg. unfold materialization_refused. rewrite Hf. f_equal. unfold find_promotion. by rewrite Hsame.
    + exfalso. destruct Hfrom as [Hin (target & correction & Hcmd & ->)].
      pose proof (committed_correction _ _ _ _ _ _ _ _ _ _ _ _ _ _ Hcommitted Hcmd) as Hzero.
      apply list_elem_of_fmap in Hin as (old & Hnode & Hin).
      destruct (Hc (AssertionRow.assertion_record old, AssertionRow.assertion old)) as (c & Hc' & Hcn & _).
      { unfold copies. rewrite !elem_of_app. do 4 right. apply list_elem_of_fmap. by exists old. }
      destruct (Hr c Hc') as [Hone _]. cbn in Hcn. rewrite <- Hnode in Hcn. injection Hcn as _ Hrevision. lia.
Qed.
End step.

Lemma step_model db db' : model_ok db -> ledger_step security db db' -> model_ok db'.
Proof.
  intros Hok Hstep. revert Hok.
  destruct Hstep as [S B key key_version trust_root production hm session publication minted command now db0 anchor db1 anchor' outcome H].
  intros Hok. apply handle_cases in H as [[-> _]|(d & sealed & db2 & _ & Hc & Hdb)]; [done|].
  pose proof (committed_model Hc Hok) as [H1 H2 H3 H4].
  destruct Hdb as [->|(a & material & _ & _ & _ & _ & _ & _ & ->)]; destruct db2; by split.
Qed.

Lemma reachable_model db : ledger_reachable security db -> model_ok db.
Proof.
  intros Hr. assert (model_ok Database.empty) as He.
  { split; [intros row ?%not_elem_of_nil|intros copy ?%not_elem_of_nil|apply NoDup_nil_2|intros row ?%not_elem_of_nil]; done. }
  revert He. unfold ledger_reachable in Hr. induction Hr as [|db0 db1 db2 Hs _ IH]; [done|]. intros H. by apply IH, (step_model _ _ H).
Qed.
End model.

(** C22. A copy of a record repeats it: in every reachable database each row of the five
    tables of copies names exactly one stored record and holds its value, so the
    comparison of the verification finds no difference. *)
Theorem copies_repeat_their_record {C : Crates} {P : UuidParser} security db :
  ledger_reachable security db ->
  copy_mismatch db = false /\
  forall copy, copy ∈ copies (Database.specialized db) ->
    exists row, find_record db copy.1 = Some row /\ ContractRow.record row = copy.2 /\
      forall other, other ∈ Database.records db -> row_node other = copy.1 -> other = row.
Proof.
  intros [Hr Hc _ _]%reachable_model.
  assert (forall copy, copy ∈ copies (Database.specialized db) -> exists row, find_record db copy.1 = Some row /\
    ContractRow.record row = copy.2 /\ forall other, other ∈ Database.records db -> row_node other = copy.1 -> other = row) as H.
  { intros copy (row & Hin & Hn & Hv)%Hc. destruct (Hr row Hin) as [_ Hf]. exists row. rewrite Hn in Hf. split_and!; [done..|].
    intros other Ho Hno. destruct (Hr other Ho) as [_ Hfo]. rewrite Hno in Hfo. congruence. }
  split; [|done]. unfold copy_mismatch. apply existsb_false, Forall_forall. intros copy Hin.
  destruct (H copy Hin) as (row & _ & Hv & Hu). apply existsb_false, Forall_forall. intros other Ho.
  destruct (bool_decide (row_node other = copy.1)) eqn:Hn; [|done]. apply bool_decide_eq_true in Hn.
  rewrite (Hu other Ho Hn), Hv. cbn. by rewrite bool_decide_eq_true_2.
Qed.

(** ** The human model *)

Section told.
Context {C : Crates} (security : PostgresSecurityContextV1.t).

Lemma query_Ok query now db results e :
  query_effective_human_model_assertions_for_test security query now db = Ok results -> e ∈ results ->
  exists row contract, row ∈ Specialized.assertions (Database.specialized db) /\ contract ∈ Database.records db /\
    effective security query now db row contract = true /\ effective_assertion row contract = Ok e.
Proof.
  unfold query_effective_human_model_assertions_for_test. intros H%collect_map_Ok [i Hi]%list_elem_of_lookup.
  destruct (Forall2_lookup_r _ _ _ _ _ H Hi) as ([row contract] & Hp%list_elem_of_lookup_2 & He). exists row, contract.
  rewrite merge_sort_Permutation in Hp. apply list_elem_of_filter in Hp as [Heff Hp].
  apply list_elem_of_In, in_prod_iff in Hp as [H1%list_elem_of_In H2%list_elem_of_In]. done.
Qed.

(** The conditions of the query *)
Record told (query : HumanModelQueryV1.t) (now : N) (db : Database.t) (row : AssertionRow.t) (contract : ContractRow.t) : Prop := {
  to_node : row_node contract = AssertionRow.assertion_record row;
  to_current : exists run kind current, Database.current db !! (run, kind) = Some current /\
    (CurrentRow.record_id current, CurrentRow.revision current) = row_node contract;
  to_tenant : ContractRow.tenant_ref contract = HumanModelQueryV1.tenant_ref query;
  to_subject : ContractRow.subject_ref contract = HumanModelQueryV1.subject_ref query;
  to_policy : get_str "policy_revision_ref" (ContractRow.record contract)
    = Some (ReferenceV1.as_str (HumanModelQueryV1.policy_revision_ref query));
  to_scope : payload_text "scope_ref" (AssertionRow.assertion row)
    = Some (ReferenceV1.as_str (HumanModelQueryV1.scope_ref query));
  to_purpose : exists purposes, payload_field "allowed_purposes" (AssertionRow.assertion row) = Some purposes /\
    jsonb_exists purposes (ReferenceV1.as_str (HumanModelQueryV1.purpose_ref query)) = true;
  to_impact : exists impact, payload_number "maximum_impact_basis_points" (AssertionRow.assertion row) = Some impact /\
    impact <= HumanModelQueryV1.maximum_impact_basis_points query;
  to_live : forall expires_at, AssertionRow.expires_at row = Some expires_at -> now < expires_at;
  to_domain : ContractRow.trust_domain contract = PostgresSecurityContextV1.trust_domain security /\
    ContractRow.environment_ref contract = PostgresSecurityContextV1.environment_ref security;
  to_kept : row_node contract ∉ Database.invalidations db;
}.

Lemma is_some_and_true {A} (f : A -> bool) o : is_some_and f o = true <-> exists a, o = Some a /\ f a = true.
Proof. destruct o; cbn; naive_solver. Qed.

Lemma effective_told query now db row contract : effective security query now db row contract = true -> told query now db row contract.
Proof.
  unfold effective. cbv zeta. rewrite !andb_true_iff, !bool_decide_eq_true, !is_some_and_true, negb_true_iff, bool_decide_eq_false.
  intros [[[[[[[[[[[[Hn Hc] Ht] Hs] Hp] Hsc] Hpu] Hi] _] Hx] Hd] He] Hv].
  split; try done; try (by rewrite Hn).
  - apply existsb_exists in Hc as ([[run kind] current] & Hin & Hcur%bool_decide_eq_true).
    exists run, kind, current. cbn in Hcur. split; [|by rewrite Hn, Hcur]. by apply elem_of_map_to_list, list_elem_of_In.
  - destruct Hi as (impact & Hi & Hle%N.leb_le). by exists impact.
  - intros expires_at Heq. rewrite Heq in Hx. by apply N.ltb_lt.
Qed.

Lemma effective_assertion_Ok row contract e :
  effective_assertion row contract = Ok e ->
  (EffectiveHumanModelAssertionV1.assertion_record_id e, EffectiveHumanModelAssertionV1.assertion_revision e)
    = AssertionRow.assertion_record row /\
  EffectiveHumanModelAssertionV1.record_digest e = ContractRow.record_digest contract /\
  payload_text "predicate" (AssertionRow.assertion row) = Some (EffectiveHumanModelAssertionV1.predicate e) /\
  payload_text "value_digest" (AssertionRow.assertion row) = Some (EffectiveHumanModelAssertionV1.value_digest e) /\
  payload_text "scope_ref" (AssertionRow.assertion row) = Some (EffectiveHumanModelAssertionV1.scope_ref e) /\
  payload_number "maximum_impact_basis_points" (AssertionRow.assertion row)
    = Some (EffectiveHumanModelAssertionV1.maximum_impact_basis_points e) /\
  EffectiveHumanModelAssertionV1.lifecycle_state e = AssertionRow.lifecycle_state row /\
  EffectiveHumanModelAssertionV1.expires_at_epoch_seconds e = AssertionRow.expires_at row.
Proof.
  unfold effective_assertion. cbv zeta. intros (impact & Hi%ok_or_Ok & H)%bind_Ok.
  apply bind_Ok in H as (p & Hp%ok_or_Ok & H). apply bind_Ok in H as (v & Hv%ok_or_Ok & H).
  apply bind_Ok in H as (s & Hs%ok_or_Ok & [= <-]). cbn. split_and!; try done. by destruct (AssertionRow.assertion_record row).
Qed.
End told.

(** A text is the same in two payloads that agree on its field. *)
Lemma payload_text_agrees field a b t :
  payload_field field a = payload_field field b -> payload_text field a = Some t -> payload_text field b = Some t.
Proof.
  unfold payload_field, payload_text, get_str, path. intros Heq Ha.
  destruct (payload_of a) as [pa|]; [|done]. cbn in Heq, Ha.
  destruct (get (txt field) pa) as [[]|]; try discriminate Ha.
  destruct (payload_of b) as [pb|]; [|done]. cbn in Heq |- *.
  by destruct (get (txt field) pb) as [[]|]; try discriminate Heq; injection Heq as <-.
Qed.

(** C21. What the query tells of the human model was promoted: each answer names a
    current record of the tenant and subject asked for that is not withdrawn and not past
    the expiry its row carries, and that a stored promotion decision let through (a row
    need not carry an expiry, and the validity of the record is not looked at); its
    lifecycle is the one the decision
    grants, its predicate, value and scope are those of the decision's candidate, which
    allows the purpose asked for, and its impact exceeds neither the candidate's nor the
    query's. *)
Theorem effective_assertion_was_promoted {C : Crates} {P : UuidParser} security query now db results e :
  ledger_reachable security db ->
  query_effective_human_model_assertions_for_test security query now db = Ok results -> e ∈ results ->
  exists row contract promotion candidate, contract ∈ Database.records db /\ told security query now db row contract /\
    row_node contract
      = (EffectiveHumanModelAssertionV1.assertion_record_id e, EffectiveHumanModelAssertionV1.assertion_revision e) /\
    ContractRow.record_digest contract = EffectiveHumanModelAssertionV1.record_digest e /\
    AssertionRow.from row = AssertionRow.Promoted (PromotionRow.decision_record promotion) /\
    promotion ∈ Specialized.promotions (Database.specialized db) /\
    expected_lifecycle (PromotionRow.outcome promotion) = Some (EffectiveHumanModelAssertionV1.lifecycle_state e) /\
    find_record db (PromotionRow.source_candidate promotion) = Some candidate /\
    payload_text "predicate" (ContractRow.record candidate) = Some (EffectiveHumanModelAssertionV1.predicate e) /\
    payload_text "value_digest" (ContractRow.record candidate) = Some (EffectiveHumanModelAssertionV1.value_digest e) /\
    payload_text "scope_ref" (ContractRow.record candidate) = Some (EffectiveHumanModelAssertionV1.scope_ref e) /\
    (exists purposes, payload_field "allowed_purposes" (ContractRow.record candidate) = Some purposes /\
       jsonb_exists purposes (ReferenceV1.as_str (HumanModelQueryV1.purpose_ref query)) = true) /\
    (forall impact, payload_number "maximum_impact_basis_points" (ContractRow.record candidate) = Some impact ->
       EffectiveHumanModelAssertionV1.maximum_impact_basis_points e <= impact) /\
    EffectiveHumanModelAssertionV1.maximum_impact_basis_points e <= HumanModelQueryV1.maximum_impact_basis_points query.
Proof.
  intros Hreach Hq Hin. destruct (query_Ok _ _ _ _ _ _ Hq Hin) as (row & contract & Hrow & Hcontract & Heff%effective_told & He).
  apply effective_assertion_Ok in He as (Hnode & Hdigest & Hpred & Hval & Hscope & Himpact & Hlife & _).
  destruct (mo_assertions _ (reachable_model _ _ Hreach) row Hrow) as [[decision Hfrom] Hguard].
  unfold materialization_refused in Hguard. rewrite Hfrom in Hguard. apply negb_false_iff, is_some_and_true in Hguard as (promotion & Hp & Hguard).
  apply find_first_Some in Hp as [Hp Hpn%bool_decide_eq_true].
  destruct (stored_record _ (PromotionRow.source_candidate promotion)) as [candidate|] eqn:Hc; [|done].
  destruct (stored_record _ (PromotionRow.decision_record promotion)) as [dr|]; [|done].
  unfold materializes in Hguard. cbv zeta in Hguard. rewrite !andb_true_iff in Hguard.
  destruct Hguard as [[[[[[[_ Hl] _] _] _] _] Hfields] Hle].
  apply is_some_and_true in Hl as (lifecycle & Hexp & [Hl%bool_decide_eq_true _]%andb_true_iff).
  rewrite forallb_forall in Hfields.
  assert (forall field, In field promoted_fields -> payload_field field (AssertionRow.assertion row) = payload_field field (ContractRow.record candidate)) as Hf.
  { intros field Hin'. by apply Hfields, bool_decide_eq_true in Hin'. }
  exists row, contract, promotion, candidate. pose proof (to_node _ _ _ _ _ _ Heff) as Hrn.
  destruct (to_impact _ _ _ _ _ _ Heff) as (impact & Hi & Hmax). rewrite Himpact in Hi. injection Hi as <-.
  destruct (to_purpose _ _ _ _ _ _ Heff) as (purposes & Hpu & Hex).
  split_and!; try done.
  - by rewrite Hrn.
  - by rewrite Hpn.
  - by rewrite Hlife, Hl.
  - eapply payload_text_agrees; [|exact Hpred]. apply Hf. cbn; tauto.
  - eapply payload_text_agrees; [|exact Hval]. apply Hf. cbn; tauto.
  - eapply payload_text_agrees; [|exact Hscope]. apply Hf. cbn; tauto.
  - exists purposes. split; [|done]. rewrite <- Hpu. symmetry. apply Hf. cbn; tauto.
  - intros allowed Ha. rewrite Himpact, Ha in Hle. by apply N.leb_le.
Qed.

(** ** Withdrawn evidence *)

Section withdrawn.
Context {C : Crates} {P : UuidParser} (security : PostgresSecurityContextV1.t).

Lemma step_invalidations db db' : ledger_step security db db' -> Database.invalidations db ⊆ Database.invalidations db'.
Proof.
  intros [S B key key_version trust_root production hm session publication minted command now db0 anchor db1 anchor' outcome H].
  apply handle_cases in H as [[-> _]|(d & sealed & db2 & _ & Hc & Hdb)]; [done|].
  pose proof (ps_invalidations _ _ _ _ _ _ _ _ _ _ _ (cm_tables _ _ _ _ _ _ _ _ _ _ _ _ Hc)) as Hi.
  destruct Hdb as [->|(a & material & _ & _ & _ & _ & _ & _ & ->)]; destruct db2; cbn in Hi |- *; rewrite Hi; set_solver.
Qed.

Lemma steps_invalidations db db' : rtc (ledger_step security) db db' -> Database.invalidations db ⊆ Database.invalidations db'.
Proof. induction 1 as [|db0 db1 db2 Hs _ IH]; [done|]. pose proof (step_invalidations _ _ Hs). set_solver. Qed.
End withdrawn.

(** C8. Once a record has been withdrawn, what was derived from it is never told again:
    after the command that withdrew it, whatever commands follow and whenever the human
    model is queried, no answer names a record derived from it, at any distance. *)
Theorem withdrawn_evidence_is_never_told {C : Crates} {P : UuidParser} {S} `{AnchorBackend S} security key key_version trust_root
    production human_model_write session publication minted command now db (anchor : S) db' anchor' receipt row root stored
    later query at_time results :
  ledger_reachable security db ->
  Ledger.handle security key key_version trust_root production human_model_write session publication minted command now db anchor
    = (db', anchor', Ok receipt) ->
  IdrCommandReceiptV1.idempotent_replay receipt = false ->
  Database.runs db !! IdrCommandEnvelopeV1.run_id command = Some row ->
  withdraws command (IdrRunProjectionV1.records (RunRow.projection row)) (IdrCommandReceiptV1.record_ref receipt) root ->
  stored ∈ Database.records db -> rtc (derived (Database.dependencies db)) (node root) (row_node stored) ->
  rtc (ledger_step security) db' later ->
  query_effective_human_model_assertions_for_test security query at_time later = Ok results ->
  forall e, e ∈ results ->
    (EffectiveHumanModelAssertionV1.assertion_record_id e, EffectiveHumanModelAssertionV1.assertion_revision e) <> row_node stored.
Proof.
  intros Hreach Hh Hfresh Hrow Hw Hin Hr Hlater Hq e He Heq. destruct (ledger_reachable_refines _ _ Hreach) as [Hok _].
  destruct (handle_fresh _ _ _ _ _ _ _ _ _ _ _ _ _ _ _ _ Hh Hfresh) as (d & sealed & db1 & a & material & -> & _ & Hc & _ & ->).
  destruct (committed_loaded _ Hc Hok) as (_ & _ & Hl).
  assert (dc_loaded d = RunRow.projection row) as Hp by (destruct Hl as [Hn|(r & Hr' & Hp)]; congruence).
  rewrite <- Hp in Hw. destruct (committed_withdraws _ _ _ _ _ _ _ _ _ _ _ _ _ _ Hc Hw Hin Hr) as [_ Hinv].
  destruct (query_Ok _ _ _ _ _ _ Hq He) as (arow & contract & _ & _ & Ht%effective_told & Hea).
  apply effective_assertion_Ok in Hea as (Hn & _). apply (to_kept _ _ _ _ _ _ Ht).
  rewrite (to_node _ _ _ _ _ _ Ht), <- Hn, Heq. apply steps_invalidations in Hlater. destruct db1. set_solver.
Qed.

(** ** The rows of the authority's own domain *)

Section arms.
Context {C : Crates} {P : UuidParser} (minted : Minted.t) (command : IdrCommandEnvelopeV1.t) (now : N) (proofs : list VerifiedProductionProofV1.t).

(** A record carries the boundary of its reference. *)
Definition columns_agree (r : AuthoritativeRecordV1.t) : Prop :=
  AuthoritativeRecordV1.trust_domain r = AuthoritativeRecordRefV1.trust_domain (AuthoritativeRecordV1.record_ref r) /\ AuthoritativeRecordV1.environment_ref r = AuthoritativeRecordRefV1.environment_ref (AuthoritativeRecordV1.record_ref r).

Lemma apply_command_columns p q r event :
  apply_command minted command now proofs p = Ok (q, Some r, event) -> columns_agree r.
Proof.
  assert (forall candidate domain id revision r, issue_record candidate command now proofs domain id revision = Ok r -> columns_agree r) as Hi.
  { intros candidate domain id revision r' (_ & _ & _ & cd & rd & _ & ->)%issue_record_Ok. done. }
  assert (forall kind payload p valid_until id revision r,
    issue_internal_record minted kind payload command p now valid_until proofs id revision = Ok r -> columns_agree r) as Hn.
  { intros kind payload p' valid_until id revision r' (_ & _ & s & t & cd & rd & _ & _ & ->)%issue_internal_Ok. done. }
  unfold apply_command. destruct (IdrCommandEnvelopeV1.command command);
    unfold start_run, require_no_record, record_context, record_intent, record_decision, record_turn, record_response, consume_response_send,
      record_action, admit_action, reserve_execution, recover_permit, deliver_permit, start_dispatch, advance_permit,
      commit_execution_receipt, reconcile_execution, expire_execution_lease, invalidate_record, record_outcome,
      propose_human_model_candidate, record_human_model_promotion, promote_human_model_assertion, correct_human_model_assertion,
      cancel_run, issue_next; intros H; inv_arm; eauto.
Qed.
End arms.

Section own.
Context {C : Crates} {P : UuidParser} (security : PostgresSecurityContextV1.t).

Definition own (domain : TrustDomainV1.t) (environment : ReferenceV1.t) : Prop :=
  domain = own_domain security /\ environment = own_environment security.

Lemma own_foreign domain environment : own domain environment -> foreign security domain environment = false.
Proof. intros [-> ->]. unfold foreign. by rewrite !bool_decide_eq_true_2. Qed.

Record own_rows (db : Database.t) : Prop := {
  ow_runs : forall run row, Database.runs db !! run = Some row ->
    own (RunRow.trust_domain row) (RunRow.environment_ref row) /\
    coherent (own_domain security) (own_environment security) (RunRow.projection row);
  ow_steps : forall row, row ∈ Database.steps db -> own (IdrRunProjectionV1.trust_domain (StepRow.snapshot row)) (IdrRunProjectionV1.environment_ref (StepRow.snapshot row));
  ow_records : forall row, row ∈ Database.records db -> own (ContractRow.trust_domain row) (ContractRow.environment_ref row);
  ow_current : forall slot row, Database.current db !! slot = Some row -> own (CurrentRow.trust_domain row) (CurrentRow.environment_ref row);
  ow_envelopes : forall row, row ∈ Database.envelopes db -> own (EnvelopeRow.trust_domain row) (EnvelopeRow.environment_ref row);
  ow_consumptions : forall row, row ∈ Database.consumptions db -> own (consumed_domain row) (consumed_environment row);
  ow_events : forall row, row ∈ Database.events db -> own (AuditRow.trust_domain row) (AuditRow.environment_ref row);
  ow_checkpoints : forall c, c ∈ Database.checkpoints db -> AuditCheckpointV1.trust_domain c = own_domain security /\
    AuditCheckpointV1.environment_ref c = ReferenceV1.as_str (own_environment security);
  ow_receipts : forall id row, Database.receipts db !! id = Some row -> own (ReceiptRow.trust_domain row) (ReceiptRow.environment_ref row);
  ow_fences : forall row, row ∈ Database.fences db -> own (FenceRow.trust_domain row) (FenceRow.environment_ref row);
}.

Lemma empty_own : own_rows Database.empty.
Proof.
  split; first [intros row H; by apply not_elem_of_nil in H | intros ? ? H; cbn in H; by rewrite lookup_empty in H].
Qed.

Section step.
Context {key : list N} {key_version : Z} {trust_root : TrustRootSnapshotV1.t} {session : Session.t} {minted : Minted.t}.
Context {command : IdrCommandEnvelopeV1.t} {now : N} {d : decision} {db db' : Database.t} {sealed : AuditCheckpointV1.t}.
Context (Hcommitted : committed security key key_version trust_root session minted command now d db db' sealed).
Context (Hcommand : IdrCommandEnvelopeV1.environment_ref command = own_environment security) (Hown : own_rows db).

Lemma committed_coherent : coherent (own_domain security) (own_environment security) (dc_loaded d) /\
  coherent (own_domain security) (own_environment security) (dc_projection d).
Proof.
  assert (coherent (own_domain security) (own_environment security) (dc_loaded d)) as H.
  { destruct (load_run_Ok _ _ _ _ (cm_loaded _ _ _ _ _ _ _ _ _ _ _ _ Hcommitted)) as [Hl Hrow].
    destruct (Database.runs db !! IdrCommandEnvelopeV1.run_id command) as [row|] eqn:Hr.
    - rewrite (Hrow row eq_refl). by apply (ow_runs _ Hown _ _ Hr).
    - destruct (load_projection_Ok _ _ _ _ Hl) as [H|[_ ->]]; [|by apply pending_in_order].
      unfold view in H. cbn in H. by rewrite lookup_fmap, Hr in H. }
  split; [done|]. eapply chosen_coherent; [exact H|]. exact (cm_chosen _ _ _ _ _ _ _ _ _ _ _ _ Hcommitted).
Qed.

(** The record of the transition is one its command issued. *)
Lemma committed_record r : IdrTransitionV1.authoritative_record (dc_transition d) = Some r ->
  own (AuthoritativeRecordV1.trust_domain r) (AuthoritativeRecordV1.environment_ref r).
Proof.
  intros Hr. destruct (choose_transition_Ok _ _ _ _ _ _ _ _ (cm_chosen _ _ _ _ _ _ _ _ _ _ _ _ Hcommitted)) as (t0 & Ht0 & Ht).
  assert (IdrTransitionV1.authoritative_record t0 = Some r) as Hr0 by (by destruct Ht as [<-|(rs & b & Ht)]; [|rewrite Ht in Hr]).
  destruct Ht0 as [(q & event & [])%evaluate_Ok|[_ Hf%failure_record]]; [|congruence].
  rewrite Hr0 in ac_arm. pose proof ac_arm as [Hd He]%apply_command_boundary; [|done..].
  apply apply_command_columns in ac_arm as [-> ->]. rewrite Hd, He. destruct committed_coherent as [[] _]. by split.
Qed.
Lemma own_snoc {A} (f : A -> TrustDomainV1.t) (g : A -> ReferenceV1.t) rows row :
  (forall r, r ∈ rows -> own (f r) (g r)) -> own (f row) (g row) -> forall r, r ∈ rows ++ [row] -> own (f r) (g r).
Proof. intros Hrows Hrow r [?| ->%list_elem_of_singleton]%elem_of_app; auto. Qed.

Lemma own_app {A} (f : A -> TrustDomainV1.t) (g : A -> ReferenceV1.t) rows rows' :
  (forall r, r ∈ rows -> own (f r) (g r)) -> (forall r, r ∈ rows' -> own (f r) (g r)) -> forall r, r ∈ rows ++ rows' -> own (f r) (g r).
Proof. intros H1 H2 r [?|?]%elem_of_app; auto. Qed.

Lemma own_insert {K A} `{Countable K} (f : A -> TrustDomainV1.t) (g : A -> ReferenceV1.t) (rows : gmap K A) k row :
  (forall i r, rows !! i = Some r -> own (f r) (g r)) -> own (f row) (g row) ->
  forall i r, <[k := row]> rows !! i = Some r -> own (f r) (g r).
Proof. intros Hrows Hrow i r [[_ <-]|[_ ?]]%lookup_insert_Some; eauto. Qed.

Lemma committed_fences row : row ∈ Database.fences db' -> own (FenceRow.trust_domain row) (FenceRow.environment_ref row).
Proof.
  pose proof (committed_execution _ Hcommitted) as He. destruct committed_coherent as [_ [Hd Hv _]].
  destruct (IdrRunProjectionV1.execution (dc_projection d)) as [e|].
  - destruct (ew_fence _ _ _ _ _ _ He) as (digest & _ & [[->|[-> _]] _]); [apply (ow_fences _ Hown)|].
    apply own_snoc; [apply (ow_fences _ Hown)|]. by split.
  - destruct He as [-> _]. apply (ow_fences _ Hown).
Qed.

Lemma committed_own : own_rows db'.
Proof.
  destruct committed_coherent as [_ Hq]. pose proof committed_fences as Hfences. pose proof (committed_runs _ Hcommitted) as Hruns.
  pose proof (cm_tables _ _ _ _ _ _ _ _ _ _ _ _ Hcommitted) as Ht.
  pose proof (ps_record _ _ _ _ _ _ _ _ _ _ _ Ht) as Hrecord. pose proof (ps_envelopes _ _ _ _ _ _ _ _ _ _ _ Ht) as Henvelopes.
  pose proof (committed_consumptions _ Hcommitted) as Hconsumptions. pose proof (ps_event _ _ _ _ _ _ _ _ _ _ _ Ht) as (hash & _ & Hevents).
  pose proof (ps_steps _ _ _ _ _ _ _ _ _ _ _ Ht) as (step_id & kind & state & version & Hsteps).
  pose proof (cm_receipts _ _ _ _ _ _ _ _ _ _ _ _ Hcommitted) as Hreceipts.
  pose proof (cm_checkpoints _ _ _ _ _ _ _ _ _ _ _ _ Hcommitted) as Hcheckpoints.
  destruct (cm_sealed _ _ _ _ _ _ _ _ _ _ _ _ Hcommitted) as (before & Hsealed & _). unfold checkpoint in Hsealed.
  apply bind_Ok in Hsealed as (? & _ & Hsealed). apply bind_Ok in Hsealed as (? & _ & Hsealed).
  apply (f_equal (fun r => match r with Ok c => c | Err _ => sealed end)) in Hsealed. cbn in Hsealed.
  pose proof committed_record as Hissued. destruct Hq as [Hd He Hr]. destruct Hown as [O1 O2 O3 O4 O5 O6 O7 O8 O9 O10].
  clear Ht Hcommitted. destruct db'. tables. cbv zeta in *. split; tables.
  - rewrite Hruns. intros run row [[_ <-]|[_ H]]%lookup_insert_Some; [|by eapply O1]. split; by split.
  - rewrite Hsteps. apply own_snoc; [done|]. by split.
  - destruct (IdrTransitionV1.authoritative_record _) as [r|]; [|by destruct Hrecord as [_ ->]].
    destruct Hrecord as (-> & _ & _). apply own_snoc; [done|]. by apply Hissued.
  - destruct (IdrTransitionV1.authoritative_record _) as [r|]; [|by destruct Hrecord as [-> _]].
    destruct Hrecord as (_ & _ & ->). apply own_insert; [done|]. by split.
  - rewrite Henvelopes. apply own_app; [done|]. intros row (i & e & v & -> & _)%elem_of_lookup_zip_with. by split.
  - rewrite Hconsumptions. unfold persist_proof_consumptions. apply own_app; [done|]. intros row (v & -> & _)%list_elem_of_fmap. by split.
  - rewrite Hevents. apply own_snoc; [done|]. by split.
  - rewrite Hcheckpoints. intros c [?| ->%list_elem_of_singleton]%elem_of_app; [by apply O8|]. by rewrite <- Hsealed.
  - rewrite Hreceipts. apply own_insert; [done|]. by split.
  - exact Hfences.
Qed.
End step.

Lemma step_own db db' : own_rows db -> ledger_step security db db' -> own_rows db'.
Proof.
  intros Hok Hstep. revert Hok.
  destruct Hstep as [S B key key_version trust_root production hm session publication minted command now db0 anchor db1 anchor' outcome H].
  intros Hok. apply handle_cases in H as [[-> _]|(d & sealed & db2 & Ha & Hc & Hdb)]; [done|].
  assert (IdrCommandEnvelopeV1.environment_ref command = own_environment security) as Henv.
  { unfold admit_command in Ha. apply bind_unit_Ok in Ha as [_ Ha]. apply reject_Ok in Ha as [_ Ha]. apply bind_unit_Ok in Ha as [_ Ha].
    apply reject_Ok in Ha as [_ Ha]. apply reject_Ok in Ha as [He _]. by apply negb_false_iff, bool_decide_eq_true in He. }
  pose proof (committed_own Hc Henv Hok) as H.
  destruct Hdb as [->|(a & material & _ & _ & _ & _ & _ & _ & ->)]; [done|]. destruct db2, H. by split.
Qed.

Lemma reachable_own db : ledger_reachable security db -> own_rows db.
Proof.
  intros Hr. pose proof empty_own as He. revert He. unfold ledger_reachable in Hr.
  induction Hr as [|db0 db1 db2 Hs _ IH]; [done|]. intros H. by apply IH, (step_own _ _ H).
Qed.

(** The table of events is of the domain too. *)
Definition own_outbox (rows : list OutboxRow.t) : Prop :=
  forall row, row ∈ rows -> own (OutboxRow.trust_domain row) (OutboxRow.environment_ref row).

Lemma outbox_own s s' : outbox_reachable security s s' -> own_outbox s.2 -> own_outbox s'.2.
Proof.
  induction 1 as [|s0 s1 s2 Hs _ IH]; [done|]. intros Ho. apply IH. clear IH. destruct Hs; unfold own_outbox in *; cbn in *.
  - apply own_snoc; [done|]. by split.
  - apply claim_Ok in H0 as (_ & _ & -> & _). unfold update_rows. intros r (row & -> & Hin)%list_elem_of_fmap.
    destruct (bool_decide _); by apply Ho in Hin.
  - apply acknowledge_Ok in H0 as [-> _]. intros r (row & -> & Hin)%list_elem_of_fmap.
    destruct (acknowledges _ _ _ _ _); by apply Ho in Hin.
  - done.
Qed.
Lemma no_foreign {A} (f : A -> TrustDomainV1.t) (g : A -> ReferenceV1.t) rows :
  (forall r, r ∈ rows -> own (f r) (g r)) -> existsb (fun r => foreign security (f r) (g r)) rows = false.
Proof. intros H. apply existsb_false, Forall_forall. intros r Hr. by apply own_foreign, H. Qed.

Lemma no_foreign_entry {K A} `{Countable K} (f : A -> TrustDomainV1.t) (g : A -> ReferenceV1.t) (rows : gmap K A) :
  (forall i r, rows !! i = Some r -> own (f r) (g r)) ->
  existsb (fun entry : K * A => foreign security (f entry.2) (g entry.2)) (map_to_list rows) = false.
Proof. intros Hr. apply existsb_false, Forall_forall. intros [i r] Hin%elem_of_map_to_list. by apply own_foreign, (Hr i). Qed.

Lemma own_rows_pass db outbox : own_rows db -> own_outbox outbox -> foreign_rows security db outbox = false.
Proof.
  intros [O1 O2 O3 O4 O5 O6 O7 O8 O9 O10] Ho. unfold foreign_rows. rewrite !orb_false_iff.
  assert (forall row, row ∈ Database.records db -> foreign_record security row = false) as Hr by (intros row Hin; by apply own_foreign, O3).
  split_and!; try (by apply no_foreign); try (by apply no_foreign_entry).
  - apply (no_foreign_entry RunRow.trust_domain RunRow.environment_ref). intros i r Hi. by apply (O1 i).
  - apply existsb_false, Forall_forall. intros c Hc. destruct (O8 c Hc) as [-> ->]. by rewrite !bool_decide_eq_true_2.
  - apply existsb_false, Forall_forall. intros dependency _. apply existsb_false, Forall_forall. intros dependent Hd.
    apply andb_false_iff. right. apply existsb_false, Forall_forall. intros source Hs. by rewrite (Hr _ Hd), (Hr _ Hs), andb_false_r.
  - apply existsb_false, Forall_forall. intros [i reservation] _. cbn.
    destruct (Database.runs db !! _) as [run|] eqn:Hrun; [|done]. cbn. by apply own_foreign, (O1 _ _ Hrun).
  - apply existsb_false, Forall_forall. intros copy _. apply existsb_false, Forall_forall. intros contract Hc.
    by rewrite (Hr _ Hc), andb_false_r.
Qed.
End own.

(** C36. Every row of every table belongs to the authority's domain and environment, so a
    start never finds foreign rows in what the authority itself wrote: on every database
    and every table of events reached from empty ones, the check of the trust domain
    passes. *)
Theorem reachable_database_passes_the_domain_check {C : Crates} {P : UuidParser} security db clock now outbox :
  ledger_reachable security db -> outbox_reachable security (clock, []) (now, outbox) ->
  verify_trust_domain security db outbox = Ok tt.
Proof.
  intros Hdb%reachable_own Hout. apply outbox_own in Hout; [|by intros row ?%not_elem_of_nil].
  apply reject_Ok. split; [|done]. by apply own_rows_pass.
Qed.

(** C23. On a run with a promotion the two commands that withdraw or correct a record by
    name are refused and change nothing.  A promotion is made on a run that holds an
    execution receipt, such a run is closed for good, and [InvalidateRecord] needs an
    open run; [CorrectHumanModelAssertion] is refused by the key of the dependencies, for
    a target of a positive revision.  Other commands are not covered: a new outcome or
    candidate of the run still supersedes the promotion and the assertion made from it. *)
Theorem promotion_refuses_recall_commands {C : Crates} {P : UuidParser} {S} `{AnchorBackend S} security key key_version trust_root
    production human_model_write session publication minted command now db (anchor : S) db' anchor' outcome row :
  ledger_reachable security db -> Database.runs db !! IdrCommandEnvelopeV1.run_id command = Some row ->
  IdrRunProjectionV1.human_model_promotion (RunRow.projection row) <> None ->
  (exists reference reason, IdrCommandEnvelopeV1.command command = IdrCommandV1.InvalidateRecord reference reason) \/
  (exists target correction, IdrCommandEnvelopeV1.command command = IdrCommandV1.CorrectHumanModelAssertion target correction /\ 0 < AuthoritativeRecordRefV1.revision target) ->
  Database.receipts db !! IdrCommandEnvelopeV1.command_id command = None ->
  Ledger.handle security key key_version trust_root production human_model_write session publication minted command now db anchor
    = (db', anchor', outcome) ->
  db' = db /\ anchor' = anchor /\ is_err outcome = true.
Proof.
  intros Hreach Hrow Hmodel Hcmd Hnew [(-> & -> & Ho)|(d & sealed & db1 & _ & Hc & _)]%handle_cases.
  { rewrite Hnew in Ho. by destruct Ho. }
  exfalso. destruct Hcmd as [(reference & reason & Hcmd)|(target & correction & Hcmd & Hrev)].
  - destruct (ledger_reachable_refines _ _ Hreach) as [Hok Hauth]. destruct (committed_loaded _ Hc Hok) as (_ & _ & Hl).
    assert (dc_loaded d = RunRow.projection row) as Hp by (destruct Hl as [Hn|(r & Hr' & Hp)]; congruence).
    assert (closed_ok (RunRow.projection row)) as Hclosed.
    { eapply (reachable_closed _ _ (IdrCommandEnvelopeV1.run_id command) _ Hauth). unfold view. cbn. by rewrite lookup_fmap, Hrow. }
    apply Hmodel. rewrite <- Hp in Hclosed |- *. apply (cl_model _ Hclosed).
    eapply closed_refuses; [exact (cm_chosen _ _ _ _ _ _ _ _ _ _ _ _ Hc)|done| |exact Hcmd].
    left. unfold reverify_bound_action_admission_proofs. by rewrite Hcmd.
  - pose proof (committed_correction _ _ _ _ _ _ _ _ _ _ _ _ _ _ Hc Hcmd). lia.
Qed.
