(* ===== verification/ChainSample.v ===== *)
(** * ChainSample: one run of the trust chain, evaluated

    A run in a shadow environment from its input to a settled execution, every
    command signed and handled by the orchestrator's own definitions.  The
    witnesses of the trust chain's theorems are taken from it. *)

From stdpp Require Import base list gmap fin_sets countable sorting strings.
From Stdlib Require Import NArith ZArith Lia.
From S2P Require Import Prelude Text Json Crates CanonicalJson Common Production ProductionProps ChainData ChainCommand ChainPayload ChainTransition ChainEvaluate ChainRepository Authority ChainProps ChainExecution AuthorityProps ChainRecords ChainRequest ChainPromotion.

Module ChainSample.
Import Toy.

(** [Uuid::parse] of the hyphenated form. *)
#[global] Instance parser : @UuidParser Toy.crates := fun value =>
  bytes ← decode_hex 16 (filter (fun c => c <> 45) value);
  uuid_of_u128 (foldl (fun n b => n * 256 + b) 0 bytes).

Definition ref (s : string) : ReferenceV1.t := ReferenceV1.mk (txt s).
Definition environment : ReferenceV1.t := ref "environment:idr:shadow:lab".
Definition audience : ReferenceV1.t := ref "audience:idr:shadow:lab".
Definition digest (n : N) : text := encode_hex (be_bytes 32 n).
Definition now : N := 150.

Definition proof_kinds : list ProductionProofKindV1.t :=
  [ProductionProofKindV1.CallerAuthentication; ProductionProofKindV1.InputAdmission; ProductionProofKindV1.ContextSnapshot; ProductionProofKindV1.IntentFastPathAdmission;
   ProductionProofKindV1.DecisionNecessityAdmission; ProductionProofKindV1.TurnCoordinationAdmission; ProductionProofKindV1.ResponsePolicy; ProductionProofKindV1.ResponseAdmission;
   ProductionProofKindV1.Authority; ProductionProofKindV1.Capability; ProductionProofKindV1.Policy; ProductionProofKindV1.ExactAuthorization; ProductionProofKindV1.ActionAdmission; ProductionProofKindV1.ExecutionPermit;
   ProductionProofKindV1.ProviderReceipt; ProductionProofKindV1.OutcomeObservation; ProductionProofKindV1.HumanModelPromotion; ProductionProofKindV1.HumanModelUserConfirmation;
   ProductionProofKindV1.HumanModelCorrection].

Definition public_key : list N := be_bytes 32 77.
Definition key : ProductionIssuerKeyV1.t :=
  ProductionIssuerKeyV1.mk TrustDomainV1.Shadow environment (ref "issuer:1") (ref "key:1") public_key
    audience (ref "tenant:1") (list_to_set proof_kinds) 50 300 None.
Definition trust_root : TrustRootSnapshotV1.t :=
  TrustRootSnapshotV1.mk TrustDomainV1.Shadow environment 3 (digest 5) 40 {[txt "key:1" := key]}.
Definition security : PostgresSecurityContextV1.t :=
  PostgresSecurityContextV1.mk TrustDomainV1.Shadow environment audience
    (list_to_map (map (fun kind => (kind, ref "issuer:1")) proof_kinds)).

(** ** Signing a command *)

(** The command of number [n], before its proofs. *)
Definition unsigned (n version : N) (caller : string) (command : IdrCommandV1.t) : IdrCommandEnvelopeV1.t :=
  IdrCommandEnvelopeV1.mk (Toy.uuid n) TrustDomainV1.Shadow environment (Toy.uuid 1000) version (ref "actor:1") (ref caller)
    (ref "tenant:1") (ref "scope:1") (ref "purpose:1") (ref "policy:1") (ref "correlation:1")
    (ref "causation:1") command [].

Definition claims (command : IdrCommandEnvelopeV1.t) (n : N) (kind : ProductionProofKindV1.t) : ProductionProofClaimsV1.t :=
  let subject := match Envelope.proof_subject command with Ok s => s | Err _ => (ref "none", []) end in
  let principal := match expected_principal_digest command with Ok d => d | Err _ => [] end in
  ProductionProofClaimsV1.mk WireCompatibilityV1.v1 (Toy.uuid (n * 100 + ProductionProofKindV1.rank kind + 1))
    TrustDomainV1.Shadow environment kind (ref "issuer:1") subject.1 subject.2 audience (ref "tenant:1")
    (ref "scope:1") (ref "purpose:1") (ref "policy:1") 100 110 200 (digest (n * 100 + ProductionProofKindV1.rank kind + 1))
    principal (default_proof_assertion kind).

Definition sign (c : ProductionProofClaimsV1.t) : ProductionProofEnvelopeV1.t :=
  let message := match ProductionProofClaimsV1.canonical_signing_bytes c with Ok m => m | Err _ => [] end in
  ProductionProofEnvelopeV1.mk c (ref "key:1") IDR_PROOF_ALGORITHM_ED25519_V1
    (encode_hex (Toy.ed25519_sign public_key message)).

Definition signed (n : N) (command : IdrCommandEnvelopeV1.t) : IdrCommandEnvelopeV1.t :=
  IdrCommandEnvelopeV1.mk (IdrCommandEnvelopeV1.command_id command) (IdrCommandEnvelopeV1.trust_domain command) (IdrCommandEnvelopeV1.environment_ref command)
    (IdrCommandEnvelopeV1.run_id command) (IdrCommandEnvelopeV1.expected_aggregate_version command) (IdrCommandEnvelopeV1.actor_ref command)
    (IdrCommandEnvelopeV1.caller_ref command) (IdrCommandEnvelopeV1.tenant_ref command) (IdrCommandEnvelopeV1.scope_ref command) (IdrCommandEnvelopeV1.purpose_ref command)
    (IdrCommandEnvelopeV1.policy_revision_ref command) (IdrCommandEnvelopeV1.correlation_ref command) (IdrCommandEnvelopeV1.causation_ref command)
    (IdrCommandEnvelopeV1.command command)
    (map (fun kind => sign (claims command n kind)) (elements (Envelope.required_proof_kinds command))).

(** ** The commands *)

Definition obj (fields : list (string * Value)) : Value :=
  to_value (Obj (map (fun f => (txt f.1, f.2)) fields)).
Definition str (s : string) : Value := Str (txt s).
Definition candidate (n : N) (kind : CandidateKindV1.t) (payload : Value) : CandidateSubmissionV1.t :=
  CandidateSubmissionV1.mk WireCompatibilityV1.v1 (Toy.uuid (2000 + n)) kind (Toy.uuid 1000) (Toy.uuid 1001)
    (ref "subject:1") (ref "tenant:1") (ref "scope:1") (ref "purpose:1") (ref "policy:1") 120 190 payload.
Definition record_of (p : IdrRunProjectionV1.t) (kind : CandidateKindV1.t) : AuthoritativeRecordRefV1.t :=
  default (AuthoritativeRecordRefV1.mk (Toy.uuid 0) 0 kind TrustDomainV1.Shadow environment 0 0 []) (IdrRunProjectionV1.records p !! kind).
Definition execution_of (p : IdrRunProjectionV1.t) : Uuid * Uuid * text :=
  match IdrRunProjectionV1.execution p with
  | Some e => (ExecutionProjectionV1.reservation_id e, ExecutionProjectionV1.permit_id e, ExecutionProjectionV1.request_digest e)
  | None => (Toy.uuid 0, Toy.uuid 0, [])
  end.
Definition idempotency_key : text := txt "key-1".

(** A record named by identifier, revision and digest. *)
Definition record_fields (prefix : string) (record : AuthoritativeRecordRefV1.t) : list (string * Value) :=
  [(prefix ++ "_record_id", Str (Toy.uuid_hyphenated (AuthoritativeRecordRefV1.record_id record)));
   (prefix ++ "_revision", Num (number_of_u64 (AuthoritativeRecordRefV1.revision record)));
   (prefix ++ "_record_digest", Str (AuthoritativeRecordRefV1.record_digest record))]%string.
Definition model_fields : list (string * Value) :=
  [("predicate", str "prefers"); ("scope_ref", str "scope:1"); ("value_digest", Str (digest 17));
   ("evidence_refs", Arr [str "evidence:1"; str "evidence:2"]);
   ("allowed_purposes", Arr [str "purpose:1"]); ("maximum_impact_basis_points", Num (number_of_u64 500))]%string.

(** The caller and the command of step [n] on the projection so far. *)
Definition script (n : N) (p : IdrRunProjectionV1.t) : string * IdrCommandV1.t :=
  let action := record_of p CandidateKindV1.Action in
  let '(reservation, permit, request) := execution_of p in
  match n with
  | 1 => ("owner:1", IdrCommandV1.StartRun (candidate n CandidateKindV1.CanonicalInput (obj [])))
  | 2 => ("owner:1", IdrCommandV1.RecordContext (candidate n CandidateKindV1.ContextSnapshot (obj [])))
  | 3 => ("owner:1", IdrCommandV1.RecordIntent (candidate n CandidateKindV1.Intent
           (obj [("fast_path_outcome", str "allow_fast_path");
                 ("resolution_method", str "deterministic_fast_path")])))
  | 4 => ("owner:1", IdrCommandV1.RecordDecision (candidate n CandidateKindV1.Decision
           (obj [("necessity_outcome", str "required"); ("selected_option_ref", str "option:1");
                 ("selected_action_operation_ref", str "operation:1");
                 ("selected_action_parameter_digest", Str (digest 7))])))
  | 5 => ("owner:1", IdrCommandV1.RecordTurn (candidate n CandidateKindV1.TurnCoordination
           (obj [("mode", str "act_then_respond"); ("nodes", Arr [str "action"; str "response"]);
                 ("edges", Arr [Arr [str "action"; str "response"]])])))
  | 6 => ("owner:1", IdrCommandV1.RecordAction (candidate n CandidateKindV1.Action
           (obj [("selected_option_ref", str "option:1"); ("operation_ref", str "operation:1");
                 ("parameter_digest", Str (digest 7))])))
  | 7 => ("owner:1", IdrCommandV1.AdmitAction action (AuthoritativeRecordRefV1.record_digest action) (ref "provider:1")
           (ref "owner:1") idempotency_key)
  | 8 => ("owner:1", IdrCommandV1.ReserveExecution (record_of p CandidateKindV1.ActionAdmissionDecision) action
           (AuthoritativeRecordRefV1.record_digest action) (ref "provider:1") (ref "owner:1") idempotency_key 1 160 (digest 9))
  | 9 => ("provider:1", IdrCommandV1.DeliverPermit reservation permit)
  | 10 => ("provider:1", IdrCommandV1.StartDispatch reservation permit)
  | 11 => ("provider:1", IdrCommandV1.CommitExecutionReceipt
           (candidate n CandidateKindV1.ExecutionReceipt
             (obj [("permit_id", Str (Toy.uuid_hyphenated permit)); ("provider_ref", str "provider:1");
                   ("dispatch_nonce", Str (digest 9)); ("attempt", Num (number_of_u64 1));
                   ("action_was_invalidated", Bool false); ("request_digest", Str request);
                   ("result_digest", Str (digest 11)); ("state", str "succeeded")]))
           reservation permit (ref "provider:1") (digest 9) 1)
  | 12 => ("observer:1", IdrCommandV1.RecordOutcome (candidate n CandidateKindV1.Outcome
           (obj [("receipt_record_digest", Str (AuthoritativeRecordRefV1.record_digest (record_of p CandidateKindV1.ExecutionReceipt)));
                 ("observed_value_digest", Str (digest 13)); ("observation", str "done")])))
  | 13 => ("observer:1", IdrCommandV1.ProposeHumanModelCandidate (candidate n CandidateKindV1.HumanModelCandidate
           (obj (record_fields "outcome" (record_of p CandidateKindV1.Outcome) ++ model_fields))))
  | 14 => ("observer:1", IdrCommandV1.RecordHumanModelPromotion (candidate n CandidateKindV1.HumanModelPromotionDecision
           (obj (record_fields "outcome" (record_of p CandidateKindV1.Outcome) ++
             [("candidate_digest", Str (AuthoritativeRecordRefV1.record_digest (record_of p CandidateKindV1.HumanModelCandidate)));
              ("outcome", str "promote_provisional"); ("independent_evidence_count", Num (number_of_u64 2))])))
           (record_of p CandidateKindV1.HumanModelCandidate))
  | 15 => ("observer:1", IdrCommandV1.PromoteHumanModelAssertion (candidate n CandidateKindV1.HumanModelAssertion
           (obj [("source_candidate_digest", Str (AuthoritativeRecordRefV1.record_digest (record_of p CandidateKindV1.HumanModelCandidate)))]))
           (record_of p CandidateKindV1.HumanModelPromotionDecision))
  | 31 => ("owner:1", IdrCommandV1.ExpireExecutionLease reservation)
  | 32 => ("owner:1", IdrCommandV1.RecordAction (candidate n CandidateKindV1.Action (obj [])))
  | 33 => ("owner:1", IdrCommandV1.CorrectHumanModelAssertion (record_of p CandidateKindV1.Decision)
           (candidate n CandidateKindV1.HumanModelAssertion (obj (("lifecycle_state", str "corrected") :: model_fields))))
  | _ => ("owner:1", IdrCommandV1.CancelRun (ref "reason:1"))
  end%string.

Definition minted (n : N) : Minted.t :=
  Minted.mk (Toy.uuid (3000 + n)) (Toy.uuid (4000 + n)) (Toy.uuid (5000 + n)) (Toy.uuid (6000 + n)).
Definition closure (record : AuthoritativeRecordRefV1.t) : Chain (list AuthoritativeRecordRefV1.t) := Ok [record].

Definition command_at (n : N) (tb : tables) : IdrCommandEnvelopeV1.t :=
  let p := default (IdrRunProjectionV1.pending TrustDomainV1.Shadow environment (Toy.uuid 1000) (ref "tenant:1"))
             (tb.1 !! Toy.uuid 1000) in
  let '(caller, command) := script n p in
  signed n (unsigned n (IdrRunProjectionV1.aggregate_version p) caller command).

(** The proofs stored so far, the admission's among them. *)
Definition load_envelope (stored : list ProductionProofEnvelopeV1.t) (id : Uuid) :
    Chain ProductionProofEnvelopeV1.t :=
  ok_or IdrRuntimeErrorV1.MissingDependency
    (find_first (fun e => ProductionProofClaimsV1.proof_id (ProductionProofEnvelopeV1.claims e) == id) stored).

Definition handle_at (at_time : N) (stored : list ProductionProofEnvelopeV1.t) (n : N) (command : IdrCommandEnvelopeV1.t) (tb : tables) :
    Chain (tables * IdrTransitionV1.t) :=
  handle security trust_root (load_envelope stored) closure false true (minted n) command at_time tb.

(** The tables and the stored proofs. *)
Definition state : Type := tables * list ProductionProofEnvelopeV1.t.
Definition start : state := (∅, [], []).

(** Whether the command of number [n] is accepted, and what it leaves. *)
Definition take (n : N) (s : state) : bool * state :=
  let command := command_at n s.1 in
  match handle_at now s.2 n command s.1 with
  | Ok handled => (true, (handled.1, s.2 ++ IdrCommandEnvelopeV1.proofs command))
  | Err _ => (false, s)
  end.

Fixpoint play (fuel : nat) (n : N) (s : bool * state) : list (bool * state) :=
  s :: match fuel with O => [] | S fuel => play fuel (n + 1) (take n s.2) end.

(** The run, command by command. *)
Definition trace : list (bool * state) := play 14 1 (true, start).
Definition nth_state (k : nat) (states : list (bool * state)) : state := (nth k states (true, start)).2.
End ChainSample.
(** The state after [k] commands *)
Notation state_at k := (ChainSample.nth_state k ChainSample.trace).

Section reachable.
Import ChainSample.

Lemma play_nth fuel n s k :
  (k < fuel)%nat -> nth (S k) (play fuel n s) (true, start) = take (n + N.of_nat k) (nth k (play fuel n s) (true, start)).2.
Proof.
  revert n s k. induction fuel as [|fuel IH]; intros n s k Hk; [lia|].
  destruct k as [|k]; cbn [play nth].
  - rewrite N.add_0_r. by destruct fuel.
  - rewrite (IH (n + 1) (take n s.2) k) by lia. by replace (n + 1 + N.of_nat k) with (n + N.of_nat (S k)) by lia.
Qed.

Lemma play_length fuel n s : length (play fuel n s) = S fuel.
Proof. revert n s. induction fuel as [|fuel IH]; intros n s; [done|]. cbn [play length]. by rewrite IH. Qed.

Lemma take_true n s : (take n s).1 = true -> @authority_step Toy.crates parser security s.1 (take n s).2.1.
Proof.
  unfold take. destruct (handle_at _ _ _ _ _) as [[tb t]|] eqn:Hh; [|done]. intros _. eapply accepted, Hh.
Qed.
End reachable.

(** ** The evaluation *)

Definition sample_run (tb : tables) : IdrRunProjectionV1.t :=
  default (IdrRunProjectionV1.pending TrustDomainV1.Shadow ChainSample.environment (Toy.uuid 1000) (ChainSample.ref "tenant:1"))
    (tb.1 !! Toy.uuid 1000).
Definition sample_execution (tb : tables) : option ExecutionAggregateStateV1.t := ExecutionProjectionV1.state <$> IdrRunProjectionV1.execution (sample_run tb).

Definition result {E A} (d : A) (m : Result E A) : A := match m with Ok a => a | Err _ => d end.
Lemma result_Ok {E A} (d : A) (m : Result E A) : is_err m = false -> m = Ok (result d m).
Proof. by destruct m. Qed.

(** The transition of command [n] on the run in [s]. *)
Definition proofs_of (command : IdrCommandEnvelopeV1.t) : list VerifiedProductionProofV1.t :=
  result [] (verify_proofs_inside_transaction ChainSample.security ChainSample.trust_root command ChainSample.now).
Definition transition_at (n : N) (s : ChainSample.state) : Chain IdrTransitionV1.t :=
  let command := ChainSample.command_at n s.1 in
  @evaluate_authoritative_transition_v1 Toy.crates ChainSample.parser (ChainSample.minted n) command
    ChainSample.now (proofs_of command) (sample_run s.1).
Definition pending_run : IdrRunProjectionV1.t :=
  IdrRunProjectionV1.pending TrustDomainV1.Shadow ChainSample.environment (Toy.uuid 1000) (ChainSample.ref "tenant:1").
Definition no_transition : IdrTransitionV1.t := IdrTransitionV1.mk pending_run None [] Null [] [].

(** The run after its admission, cancelled, and a reservation whose admission lost a proof. *)
Definition cancelled_run (s : ChainSample.state) : IdrRunProjectionV1.t :=
  IdrRunProjectionV1.with_state IdrRunStateV1.Cancelled (sample_run s.1).
Definition reopened (s : ChainSample.state) : Chain IdrTransitionV1.t :=
  @choose_transition Toy.crates ChainSample.parser ChainSample.closure (ChainSample.minted 8)
    (Err IdrRuntimeErrorV1.ActionNotAdmitted) (ChainSample.command_at 8 s.1) 150 [] (cancelled_run s).

(** The lease of the dispatched execution runs out. *)
Definition expired (s : ChainSample.state) : tables :=
  (result (∅, [], no_transition) (ChainSample.handle_at 165 s.2 31 (ChainSample.command_at 31 s.1) s.1)).1.

(** What the witnesses need of the run, in one evaluation. *)
Record facts (states : list (bool * ChainSample.state)) : Prop := {
  all_accepted : forallb fst states = true;
  dispatched_10 : sample_execution (ChainSample.nth_state 10 states).1 = Some ExecutionAggregateStateV1.DispatchStarted;
  succeeded_14 : sample_execution (ChainSample.nth_state 14 states).1 = Some ExecutionAggregateStateV1.Succeeded;
  transition_1 : is_err (transition_at 1 (ChainSample.nth_state 0 states)) = false;
  transition_10 : is_err (transition_at 10 (ChainSample.nth_state 9 states)) = false;
  transition_15 : is_err (transition_at 15 (ChainSample.nth_state 14 states)) = false;
  transition_33 : is_err (transition_at 33 (ChainSample.nth_state 4 states)) = false;
  decision_4 : AuthoritativeRecordRefV1.candidate_kind
    (ChainSample.record_of (sample_run (ChainSample.nth_state 4 states).1) CandidateKindV1.Decision) = CandidateKindV1.Decision;
  reopened_7 : is_err (reopened (ChainSample.nth_state 7 states)) = false;
  not_dispatched_7 : crossed_dispatch_boundary (cancelled_run (ChainSample.nth_state 7 states)) = false;
  expired_10 : sample_execution (expired (ChainSample.nth_state 10 states)) = Some ExecutionAggregateStateV1.ReconciliationRequired;
}.

Definition check_facts (states : list (bool * ChainSample.state)) : bool :=
  forallb fst states
  && bool_decide (sample_execution (ChainSample.nth_state 10 states).1 = Some ExecutionAggregateStateV1.DispatchStarted)
  && bool_decide (sample_execution (ChainSample.nth_state 14 states).1 = Some ExecutionAggregateStateV1.Succeeded)
  && negb (is_err (transition_at 1 (ChainSample.nth_state 0 states)))
  && negb (is_err (transition_at 10 (ChainSample.nth_state 9 states)))
  && negb (is_err (transition_at 15 (ChainSample.nth_state 14 states)))
  && negb (is_err (transition_at 33 (ChainSample.nth_state 4 states)))
  && bool_decide (AuthoritativeRecordRefV1.candidate_kind
       (ChainSample.record_of (sample_run (ChainSample.nth_state 4 states).1) CandidateKindV1.Decision) = CandidateKindV1.Decision)
  && negb (is_err (reopened (ChainSample.nth_state 7 states)))
  && negb (crossed_dispatch_boundary (cancelled_run (ChainSample.nth_state 7 states)))
  && bool_decide (sample_execution (expired (ChainSample.nth_state 10 states)) = Some ExecutionAggregateStateV1.ReconciliationRequired).

Lemma check_facts_sound states : check_facts states = true -> facts states.
Proof.
  unfold check_facts. rewrite !andb_true_iff, !negb_true_iff, !bool_decide_eq_true.
  intros [[[[[[[[[[H1 H2] H3] H4] H5] H6] H7] H8] H9] H10] H11].
  exact (Build_facts states H1 H2 H3 H4 H5 H6 H7 H8 H9 H10 H11).
Qed.

Lemma run_facts : facts ChainSample.trace.
Proof. apply check_facts_sound. vm_compute. reflexivity. Qed.

Lemma play_accepted fuel n s k : (k < fuel)%nat -> forallb fst (ChainSample.play fuel n s) = true ->
  @authority_step Toy.crates ChainSample.parser ChainSample.security
    (ChainSample.nth_state k (ChainSample.play fuel n s)).1 (ChainSample.nth_state (S k) (ChainSample.play fuel n s)).1.
Proof.
  intros Hk Ha. pose proof (play_nth fuel n s k Hk) as Hn. unfold ChainSample.nth_state. rewrite Hn.
  apply take_true. rewrite <- Hn. rewrite forallb_forall in Ha. apply Ha, nth_In. rewrite play_length. lia.
Qed.

Lemma accepted_at k : (k < 14)%nat ->
  @authority_step Toy.crates ChainSample.parser ChainSample.security (state_at k).1 (state_at (S k)).1.
Proof. intros Hk. exact (play_accepted 14 1 (true, ChainSample.start) k Hk (all_accepted _ run_facts)). Qed.

Lemma reachable_from_to i j : (i <= j <= 14)%nat ->
  @authority_reachable Toy.crates ChainSample.parser ChainSample.security (state_at i).1 (state_at j).1.
Proof.
  intros [Hij Hj]. induction Hij as [|j Hij IH]; [reflexivity|].
  etransitivity; [apply IH; lia|]. apply rtc_once, accepted_at. lia.
Qed.

Lemma reachable_at j : (j <= 14)%nat ->
  @authority_reachable Toy.crates ChainSample.parser ChainSample.security (∅, []) (state_at j).1.
Proof. intros Hj. apply (reachable_from_to 0 j). lia. Qed.

Lemma sample_lookup tb s :
  sample_execution tb = Some s ->
  tb.1 !! Toy.uuid 1000 = Some (sample_run tb) /\
  exists e, IdrRunProjectionV1.execution (sample_run tb) = Some e /\ ExecutionProjectionV1.state e = s.
Proof.
  unfold sample_execution. destruct (IdrRunProjectionV1.execution (sample_run tb)) as [e|] eqn:Hr; [|done].
  intros [= <-]. split; [|by exists e]. unfold sample_run in *. by destruct (tb.1 !! _).
Qed.

Lemma dispatched10 :
  (state_at 10).1.1 !! Toy.uuid 1000 = Some (sample_run (state_at 10).1) /\
  exists e, IdrRunProjectionV1.execution (sample_run (state_at 10).1) = Some e /\ dispatched (ExecutionProjectionV1.state e) = true.
Proof.
  destruct (sample_lookup _ _ (dispatched_10 _ run_facts)) as [Hl (e & He & Hs)]. split; [exact Hl|].
  exists e. split; [exact He|]. by rewrite Hs.
Qed.

Lemma dispatched_effect_is_never_forgotten_witness :
  exists e, IdrRunProjectionV1.execution (sample_run (state_at 10).1) = Some e /\ dispatched (ExecutionProjectionV1.state e) = true /\
    exists q s, (state_at 11).1.1 !! Toy.uuid 1000 = Some q /\ IdrRunProjectionV1.execution q = Some (ExecutionProjectionV1.with_state s e) /\
      dispatched s = true.
Proof.
  destruct dispatched10 as [Hl (e & He & Hd)]. exists e. split; [exact He|]. split; [exact Hd|].
  refine (@dispatched_effect_is_never_forgotten Toy.crates ChainSample.parser ChainSample.security _ _ _ _ _
    (reachable_at 10 _) (reachable_from_to 10 11 _) Hl He Hd); lia.
Defined.

Lemma proofs_are_consumed_once_witness : (state_at 10).1.2 `prefix_of` (state_at 11).1.2 /\ consumed_once (state_at 11).1.2.
Proof.
  refine (@proofs_are_consumed_once Toy.crates ChainSample.parser ChainSample.security _ _
    (reachable_at 10 _) (reachable_from_to 10 11 _)); lia.
Defined.

Lemma lease_is_the_deadline_witness :
  exists e, IdrRunProjectionV1.execution (sample_run (state_at 10).1) = Some e /\
    execution_authority_expired e 160 = (ExecutionProjectionV1.lease_until e <=? 160).
Proof.
  destruct dispatched10 as [Hl (e & He & Hd)]. exists e. split; [exact He|].
  exact (@lease_is_the_deadline Toy.crates ChainSample.parser ChainSample.security _ _ _ _ 160 (reachable_at 10 ltac:(lia)) Hl He).
Defined.

(** ** Single commands *)

Definition command1 : IdrCommandEnvelopeV1.t := ChainSample.command_at 1 (∅, []).
Definition handled1 : Chain (tables * IdrTransitionV1.t) :=
  ChainSample.handle_at ChainSample.now [] 1 command1 (∅, []).
Lemma handled1_Ok : is_err handled1 = false.
Proof. vm_compute. reflexivity. Qed.

Lemma accepted_command_is_authorised_witness :
  exists after t subject principal verified, handled1 = Ok (after, t) /\
    Forall2 (@covers Toy.crates ChainSample.security ChainSample.trust_root command1 ChainSample.now subject principal)
      (IdrCommandEnvelopeV1.proofs command1) verified.
Proof.
  pose proof (result_Ok ((∅, []), IdrTransitionV1.mk (sample_run (∅, [])) None [] Null [] []) _ handled1_Ok) as Hh.
  destruct (result _ _) as [after t]. pose proof Hh as Hh'. unfold handled1, ChainSample.handle_at in Hh'.
  destruct (@accepted_command_is_authorised Toy.crates ChainSample.security ChainSample.trust_root ChainSample.parser
    (ChainSample.load_envelope []) ChainSample.closure false true (ChainSample.minted 1) command1 ChainSample.now
    (∅, []) after t Hh') as (subject & principal & verified & _ & _ & _ & _ & Hc).
  exists after, t, subject, principal, verified. split; [exact Hh|exact Hc].
Defined.

Lemma production_is_closed_witness :
  exists message,
    @handle Toy.crates (PostgresSecurityContextV1.mk TrustDomainV1.Production ChainSample.environment
      ChainSample.audience ∅) ChainSample.trust_root (ChainSample.load_envelope []) ChainSample.parser
      ChainSample.closure true true (ChainSample.minted 1)
      (ChainSample.unsigned 1 0 "owner:1" (IdrCommandV1.RecoverPermit (Toy.uuid 1))) 150 (∅, [])
    = Err (repository_failure message).
Proof.
  apply (@production_is_closed Toy.crates ChainSample.parser); [reflexivity|]. right. left. reflexivity.
Defined.

Lemma failed_admission_reopens_cancelled_run_witness :
  exists t, reopened (state_at 7) = Ok t /\ IdrRunProjectionV1.state (IdrTransitionV1.projection t) = IdrRunStateV1.WaitingAuthorization.
Proof.
  generalize (reopened_7 _ run_facts), (not_dispatched_7 _ run_facts).
  generalize (state_at 7). intros s Hr Hc. pose proof (result_Ok no_transition _ Hr) as Ht.
  eexists. split; [exact Ht|]. unfold reopened in Ht at 1.
  exact (proj2 (@failed_admission_reopens_cancelled_run Toy.crates ChainSample.parser ChainSample.closure
    (ChainSample.minted 8) (ChainSample.command_at 8 s.1) 150 [] (cancelled_run s) _ eq_refl Hc Ht)).
Defined.

Lemma command_at_run n tb : IdrCommandEnvelopeV1.run_id (ChainSample.command_at n tb) = Toy.uuid 1000.
Proof. unfold ChainSample.command_at. by destruct (ChainSample.script _ _). Qed.
Lemma command32 tb : exists a, IdrCommandEnvelopeV1.command (ChainSample.command_at 32 tb) = IdrCommandV1.RecordAction a.
Proof.
  unfold ChainSample.command_at, ChainSample.script. cbv zeta.
  destruct (ChainSample.execution_of _) as [[r pe] d]. by eexists.
Qed.

Lemma reconciliation_blocks_the_action_witness :
  let tb := expired (state_at 10) in
  is_err (ChainSample.handle_at 166 [] 32 (ChainSample.command_at 32 tb) tb) = true.
Proof.
  cbv zeta. generalize (expired_10 _ run_facts). generalize (expired (state_at 10)). intros tb.
  intros [Hl (e & He & Hs)]%sample_lookup. unfold ChainSample.handle_at.
  refine (@reconciliation_blocks_the_action Toy.crates ChainSample.parser ChainSample.security
    ChainSample.trust_root (ChainSample.load_envelope []) ChainSample.closure false true (ChainSample.minted 32)
    (ChainSample.command_at 32 tb) 166 tb (sample_run tb) e _ He Hs _).
  - rewrite command_at_run. exact Hl.
  - left. exact (command32 tb).
Defined.

(** ** The transition engine alone *)

Lemma transition_advances_run_witness :
  IdrRunProjectionV1.aggregate_version (IdrTransitionV1.projection (result no_transition (transition_at 1 (state_at 0)))) = 1.
Proof.
  generalize (transition_1 _ run_facts). change (state_at 0) with ChainSample.start. intros Hok.
  pose proof (result_Ok no_transition _ Hok) as Ht. unfold transition_at in Ht at 1.
  exact (proj1 (proj2 (@transition_advances_run Toy.crates ChainSample.parser (ChainSample.minted 1) _
    ChainSample.now _ pending_run _ Ht))).
Defined.

(** The dispatch of the delivered permit. *)
Lemma command_at_10 tb :
  exists r pe, IdrCommandEnvelopeV1.command (ChainSample.command_at 10 tb) = IdrCommandV1.StartDispatch r pe.
Proof.
  unfold ChainSample.command_at, ChainSample.script. cbv zeta.
  destruct (ChainSample.execution_of _) as [[r pe] d]. by exists r, pe.
Qed.

Lemma dispatch_needs_live_authority_witness :
  exists reservation permit e,
    IdrCommandEnvelopeV1.command (ChainSample.command_at 10 (state_at 9).1) = IdrCommandV1.StartDispatch reservation permit /\
    IdrRunProjectionV1.execution (sample_run (state_at 9).1) = Some e /\ ExecutionProjectionV1.permit_id e = permit.
Proof.
  generalize (transition_10 _ run_facts). generalize (state_at 9). intros s Hok.
  pose proof (result_Ok no_transition _ Hok) as Ht. unfold transition_at in Ht at 1.
  destruct (command_at_10 s.1) as (r & pe & Hc).
  destruct (@dispatch_needs_live_authority Toy.crates ChainSample.parser (ChainSample.minted 10) _
    ChainSample.now _ (sample_run s.1) _ r pe Hc Ht) as (e & He & _ & Hp & _).
  exists r, pe, e. split; [exact Hc|]. split; [exact He|exact Hp].
Defined.

(** ** Records, commands and checkpoints *)

Definition candidate1 : CandidateSubmissionV1.t := ChainSample.candidate 1 CandidateKindV1.CanonicalInput (ChainSample.obj []).
Definition issued1 : Chain AuthoritativeRecordV1.t :=
  issue_record (C:=Toy.crates) candidate1 command1 ChainSample.now (proofs_of command1) TrustDomainV1.Shadow
    (Toy.uuid 3001) 1.
Definition no_record : AuthoritativeRecordV1.t :=
  AuthoritativeRecordV1.mk (ChainSample.record_of pending_run CandidateKindV1.Action) TrustDomainV1.Shadow ChainSample.environment (Toy.uuid 0)
    (Toy.uuid 0) (ChainSample.ref "tenant:1") (ChainSample.ref "subject:1") (ChainSample.ref "policy:1")
    (Toy.uuid 0) [] Null (Toy.uuid 0) 0 0 0 [].
Definition record1 : AuthoritativeRecordV1.t := result no_record issued1.
Lemma issued1_Ok : is_err issued1 = false /\ record_wire (C:=Toy.crates) record1 = true.
Proof. split; vm_compute; reflexivity. Qed.

(** A parser that knows one stored record. *)
Definition from_value (record : AuthoritativeRecordV1.t) (v : Value) : option AuthoritativeRecordV1.t :=
  if v == to_value (@Json.to_json _ (@AuthoritativeRecordV1.to_json Toy.crates) record) then Some record else None.
Lemma from_value_self record :
  from_value record (to_value (@Json.to_json _ (@AuthoritativeRecordV1.to_json Toy.crates) record)) = Some record.
Proof. unfold from_value. by rewrite bool_decide_true. Qed.
Lemma from_value_Some record v r : from_value record v = Some r -> r = record.
Proof. unfold from_value. destruct (bool_decide _); [by intros [= <-]|done]. Qed.

Lemma record1_verifies :
  verify_authoritative_record_value_v1 (C:=Toy.crates) (from_value record1)
    (to_value (@Json.to_json _ (@AuthoritativeRecordV1.to_json Toy.crates) record1)) = Ok (AuthoritativeRecordV1.record_ref record1).
Proof. vm_compute. reflexivity. Qed.

Lemma issued_record_verifies_witness :
  verify_authoritative_record_value_v1 (C:=Toy.crates) (from_value record1)
    (to_value (@Json.to_json _ (@AuthoritativeRecordV1.to_json Toy.crates) record1)) = Ok (AuthoritativeRecordV1.record_ref record1).
Proof.
  pose proof (result_Ok no_record _ (proj1 issued1_Ok)) as Hi. unfold issued1 in Hi at 1.
  exact (proj1 (@issued_record_verifies Toy.crates toy_laws (from_value record1) candidate1 command1
    ChainSample.now (proofs_of command1) TrustDomainV1.Shadow (Toy.uuid 3001) 1 record1
    (from_value_self record1) Hi)).
Defined.

Lemma record_digest_binds_record_witness :
  from_value record1 (to_value (@Json.to_json _ (@AuthoritativeRecordV1.to_json Toy.crates) record1))
  = from_value record1 (to_value (@Json.to_json _ (@AuthoritativeRecordV1.to_json Toy.crates) record1))
  \/ @sha256_collision Toy.crates.
Proof.
  refine (@record_digest_binds_record Toy.crates toy_laws (from_value record1) _ _ _ _ record1_verifies
    record1_verifies _ eq_refl).
  intros u r Hr. rewrite (from_value_Some _ _ _ Hr). exact (proj2 issued1_Ok).
Defined.

Definition subject1 : Chain (ReferenceV1.t * text) := Envelope.proof_subject (C:=Toy.crates) command1.
Lemma subject1_Ok : is_err subject1 = false /\ command_wire (C:=Toy.crates) command1 = true.
Proof. split; vm_compute; reflexivity. Qed.

Lemma proof_subject_binds_command_witness :
  Envelope.unsigned command1 = Envelope.unsigned command1 \/ @sha256_collision Toy.crates.
Proof.
  pose proof (result_Ok (ChainSample.ref "none", []) _ (proj1 subject1_Ok)) as Hs. unfold subject1 in Hs at 1.
  exact (@proof_subject_binds_command Toy.crates toy_laws command1 command1 _ (proj2 subject1_Ok)
    (proj2 subject1_Ok) Hs Hs).
Defined.

Definition checkpoint (sequence : Z) (root : string) : AuditCheckpointV1.t :=
  AuditCheckpointV1.mk TrustDomainV1.Shadow (txt "environment:idr:shadow:lab") (txt "tenant:1") sequence
    (txt root) (txt root) (txt root) (Toy.uuid 1).

Definition anchor1 : InMemoryAuditCheckpointAnchorV1.t :=
  <[AuditCheckpointV1.key (checkpoint 1 "a") := checkpoint 1 "a"]> ∅.
Definition anchor2 : Chain InMemoryAuditCheckpointAnchorV1.t := publish (checkpoint 2 "b") anchor1.
Definition anchor3 : Chain InMemoryAuditCheckpointAnchorV1.t :=
  verify_tenant_anchor TrustDomainV1.Shadow (txt "environment:idr:shadow:lab") (txt "tenant:1")
    (Some (checkpoint 3 "c")) (result anchor1 anchor2).
(** The checks pass; a forked root of a known sequence does not. *)
Lemma anchors_Ok :
  is_err anchor2 = false /\ is_err anchor3 = false /\
  is_err (verify_tenant_anchor TrustDomainV1.Shadow (txt "environment:idr:shadow:lab") (txt "tenant:1")
    (Some (checkpoint 1 "b")) anchor1) = true.
Proof. split_and!; vm_compute; reflexivity. Qed.
Lemma anchor1_latest :
  load_latest anchor1 (TrustDomainV1.Shadow, txt "environment:idr:shadow:lab", txt "tenant:1")
  = Ok (Some (checkpoint 1 "a")).
Proof. unfold load_latest, anchor1. cbn [InMemoryAuditCheckpointAnchorV1.backend]. by f_equal. Qed.

Lemma anchor_detects_rollback_witness : newer (checkpoint 1 "a") (checkpoint 3 "c").
Proof.
  destruct anchors_Ok as (H2 & H3 & _).
  exact (proj1 (@anchor_detects_rollback InMemoryAuditCheckpointAnchorV1.t _ _ TrustDomainV1.Shadow
    (txt "environment:idr:shadow:lab") (txt "tenant:1") (checkpoint 1 "a") (checkpoint 3 "c") anchor1
    (result anchor1 anchor2) _ anchor1_latest
    (rtc_once _ _ (ex_intro _ (checkpoint 2 "b") (result_Ok anchor1 anchor2 H2))) eq_refl
    (result_Ok anchor1 anchor3 H3))).
Defined.

(** ** The request, the human model and corrections *)

Lemma executed_request_is_the_admitted_one_witness :
  exists e, IdrRunProjectionV1.execution (sample_run (state_at 10).1) = Some e /\ @request_ok Toy.crates e.
Proof.
  destruct dispatched10 as [Hl (e & He & _)]. exists e. split; [exact He|].
  exact (rq_execution _ (proj1 (@executed_request_is_the_admitted_one Toy.crates ChainSample.parser
    ChainSample.security _ _ _ (reachable_at 10 ltac:(lia)) Hl)) _ He).
Defined.

Lemma command_at_15 tb :
  exists a d, IdrCommandEnvelopeV1.command (ChainSample.command_at 15 tb) = IdrCommandV1.PromoteHumanModelAssertion a d.
Proof.
  unfold ChainSample.command_at, ChainSample.script. cbv zeta.
  destruct (ChainSample.execution_of _) as [[r pe] x]. by do 2 eexists.
Qed.

Lemma promoted_assertion_is_supported_witness :
  exists c d, IdrRunProjectionV1.human_model_candidate (sample_run (state_at 14).1) = Some c /\
    IdrRunProjectionV1.human_model_promotion (sample_run (state_at 14).1) = Some d /\ supports c d.
Proof.
  generalize (succeeded_14 _ run_facts), (transition_15 _ run_facts), (reachable_at 14 ltac:(lia)).
  generalize (state_at 14). intros s [Hl _]%sample_lookup Hok Hr.
  destruct (command_at_15 s.1) as (a & dr & Hc).
  pose proof (result_Ok no_transition _ Hok) as Ht. unfold transition_at in Ht at 1.
  destruct (@promoted_assertion_is_supported Toy.crates ChainSample.parser ChainSample.security
    (ChainSample.minted 15) _ ChainSample.now _ _ _ _ _ a dr Hr Hl Hc Ht)
    as (c & d & r & fields & impact & lifecycle & Hcand & Hd & _ & _ & Hs & _).
  exists c, d. split; [exact Hcand|]. split; [exact Hd|exact Hs].
Defined.

(** A Decision is corrected as if it were an assertion. *)
Definition decision_of (s : ChainSample.state) : AuthoritativeRecordRefV1.t :=
  ChainSample.record_of (sample_run s.1) CandidateKindV1.Decision.

Lemma command_at_33 tb :
  exists correction, IdrCommandEnvelopeV1.command (ChainSample.command_at 33 tb)
    = IdrCommandV1.CorrectHumanModelAssertion (ChainSample.record_of (sample_run tb) CandidateKindV1.Decision) correction.
Proof.
  unfold ChainSample.command_at, ChainSample.script. cbv zeta.
  destruct (ChainSample.execution_of _) as [[r pe] x]. by eexists.
Qed.

Lemma correction_takes_over_its_target_witness :
  AuthoritativeRecordRefV1.candidate_kind (decision_of (state_at 4)) = CandidateKindV1.Decision /\
  exists r, AuthoritativeRecordRefV1.candidate_kind (AuthoritativeRecordV1.record_ref r) = CandidateKindV1.HumanModelAssertion /\
    AuthoritativeRecordRefV1.record_id (AuthoritativeRecordV1.record_ref r) = AuthoritativeRecordRefV1.record_id (decision_of (state_at 4)).
Proof.
  generalize (decision_4 _ run_facts), (transition_33 _ run_facts). generalize (state_at 4). intros s Hd Hok.
  destruct (command_at_33 s.1) as [correction Hc].
  pose proof (result_Ok no_transition _ Hok) as Ht. unfold transition_at in Ht at 1.
  destruct (@correction_takes_over_its_target Toy.crates ChainSample.parser (ChainSample.minted 33) _
    ChainSample.now _ (sample_run s.1) _ _ _ Hc Ht)
    as (_ & _ & r & _ & _ & Hk & Hid & _).
  split; [exact Hd|]. exists r. split; [exact Hk|exact Hid].
Defined.
