(* ===== verification/Contract.v ===== *)
(** * Contract: what every semantic contract promises

    The nine contract types of the protocol share one shape: metadata of a fixed
    kind, a digest input covering the contract's content, a [record_digest] over
    it, a [validate] that re-checks everything and a [record_ref] that names a
    valid contract.  [Contract] is that shape and [ContractLaws] what the store
    and the cross-contract checks rely on; each contract file proves its
    instance.  The theorems here are proved once against the interface. *)

From stdpp Require Import base list strings.
From Stdlib Require Import NArith Lia.
From S2P Require Import Prelude Text Json Crates Common.

Section shape.
Context {C : Crates} {A : Type}.

(** The body every [issue] shares: digest the content, store the digest,
    validate the whole. *)
Definition seal (domain : string) (digest_input : A -> Value) (set_record_digest : text -> A -> A)
    (validate : A -> Checked unit) (value : A) : Checked A :=
  digest ← contract_digest domain (digest_input value);
  let value := set_record_digest digest value in
  _ ← validate value;
  Ok value.

(** The final check every [validate] shares. *)
Definition check_record_digest (domain : string) (digest_input : A -> Value)
    (record_digest : A -> text) (value : A) : Checked unit :=
  expected ← contract_digest domain (digest_input value);
  reject expected != record_digest value with DigestMismatch;
  Ok tt.

(** The body every [record_ref] shares. *)
Definition name_contract (kind : HumanCenteredContractKindV1) (metadata : A -> Metadata)
    (record_digest : A -> text) (validate : A -> Checked unit) (value : A) : Checked ContractRef :=
  _ ← validate value;
  HumanCenteredContractRefV1.new kind (HumanCenteredContractMetadataV1.contract_id (metadata value))
    (HumanCenteredContractMetadataV1.revision (metadata value)) (record_digest value).

Lemma check_record_digest_Ok domain digest_input record_digest (value : A) :
  check_record_digest domain digest_input record_digest value = Ok tt <->
  contract_digest domain (digest_input value) = Ok (record_digest value).
Proof.
  unfold check_record_digest. rewrite bind_Ok. split.
  - intros (d & Hd & H). apply reject_Ok in H as [H _].
    apply negb_false_iff in H. rewrite bool_decide_true_iff in H. by subst.
  - intros Hd. eexists. split; [exact Hd|]. by rewrite bool_decide_eq_true_2.
Qed.
Lemma name_contract_valid kind metadata record_digest validate (value : A) r :
  name_contract kind metadata record_digest validate value = Ok r -> validate value = Ok tt.
Proof. by intros [? _]%bind_unit_Ok. Qed.
End shape.

Class Contract {C : Crates} (A : Type) := {
  contract_kind_of : HumanCenteredContractKindV1;
  contract_domain : string;
  contract_metadata : A -> Metadata;
  contract_record_digest : A -> text;
  with_record_digest : text -> A -> A;
  contract_digest_input : A -> Value;
  contract_validate : A -> Checked unit;
  contract_record_ref : A -> Checked ContractRef;
}.
#[global] Arguments contract_kind_of {_} A {_}.
#[global] Arguments contract_domain {_} A {_}.

Class ContractLaws {C : Crates} (A : Type) `{!Contract A} := {
  (** a valid contract has valid metadata of its kind and a matching digest *)
  contract_validate_Ok : forall a : A, contract_validate a = Ok tt ->
    metadata_ok (contract_metadata a) /\
    HumanCenteredContractMetadataV1.contract_kind (contract_metadata a) = contract_kind_of A /\
    contract_digest (contract_domain A) (contract_digest_input a) = Ok (contract_record_digest a);
  (** [record_ref] validates, then names the contract *)
  contract_record_ref_def : forall a : A,
    contract_record_ref a =
      name_contract (contract_kind_of A) contract_metadata contract_record_digest contract_validate a;
  (** the digest field is not part of what is digested *)
  with_record_digest_input : forall d (a : A),
    contract_digest_input (with_record_digest d a) = contract_digest_input a /\
    contract_record_digest (with_record_digest d a) = d;
  (** on valid contracts the digest covers every field except the digest itself *)
  contract_digest_input_inj : CratesLaws -> forall a b : A,
    contract_validate a = Ok tt -> contract_validate b = Ok tt ->
    contract_digest_input a = contract_digest_input b ->
    contract_record_digest a = contract_record_digest b -> a = b;
}.

Section contract.
Context {C : Crates} {L : CratesLaws} {A : Type} `{!Contract A, !ContractLaws A}.

Lemma contract_digest_valid domain v d : contract_digest domain v = Ok d -> valid_digest d = true.
Proof.
  unfold contract_digest. intros H. inv_ok.
  apply valid_digest_encode_hex; [apply sha256_bytes|apply sha256_length].
Qed.

(** Naming a contract succeeds exactly on the valid ones; the reference carries
    its kind, identity, revision and digest. *)
Lemma record_ref_Ok (a : A) r :
  contract_record_ref a = Ok r <->
  contract_validate a = Ok tt /\
  r = HumanCenteredContractRefV1.mk (contract_kind_of A)
        (HumanCenteredContractMetadataV1.contract_id (contract_metadata a))
        (HumanCenteredContractMetadataV1.revision (contract_metadata a))
        (contract_record_digest a).
Proof.
  rewrite contract_record_ref_def. unfold name_contract. rewrite bind_Ok. setoid_rewrite ref_new_Ok. split.
  - intros ([] & Hv & -> & _). done.
  - intros (Hv & ->). exists tt. split; [done|]. split; [done|]. apply ref_validate_Ok. cbn.
    apply contract_validate_Ok in Hv as ([(? & ? & ?) ? _ _ _ _ _ _] & _ & Hd).
    split; [done|]. split; [lia|]. by apply contract_digest_valid in Hd.
Qed.

Lemma record_ref_valid (a : A) r :
  contract_record_ref a = Ok r -> HumanCenteredContractRefV1.validate r = Ok tt.
Proof. rewrite contract_record_ref_def. unfold name_contract. intros ([] & _ & [_ H]%ref_new_Ok)%bind_Ok. done. Qed.

Definition contract_issue : A -> Checked A :=
  seal (contract_domain A) contract_digest_input with_record_digest contract_validate.

(** What [issue] returns is the value it was given under its own digest, valid,
    and with a reference of its own. *)
Lemma contract_issue_Ok (v a : A) :
  contract_issue v = Ok a <->
  exists d, contract_digest (contract_domain A) (contract_digest_input v) = Ok d /\
    a = with_record_digest d v /\ contract_validate a = Ok tt.
Proof.
  unfold contract_issue, seal. rewrite bind_Ok. split.
  - intros (d & Hd & ([] & Hv & [= <-])%bind_Ok). by exists d.
  - intros (d & Hd & -> & Hv). exists d. split; [done|]. apply bind_Ok. by exists tt.
Qed.

(** Two different pieces of content under one digest: what breaking the hash
    would have to produce. *)
Definition digest_collision (domain : string) : Prop :=
  exists v w, v <> w /\ exists d, contract_digest domain v = Ok d /\ contract_digest domain w = Ok d.

Lemma record_refs_bind (a b : A) r :
  contract_record_ref a = Ok r -> contract_record_ref b = Ok r ->
  a = b \/ digest_collision (contract_domain A).
Proof.
  rewrite !record_ref_Ok. intros [Hva ->] [Hvb [= Hi Hr Hd]].
  pose proof (contract_validate_Ok _ Hva) as (_ & _ & Ha).
  pose proof (contract_validate_Ok _ Hvb) as (_ & _ & Hb).
  destruct (decide (contract_digest_input a = contract_digest_input b)) as [He|Hne].
  - left. by apply contract_digest_input_inj.
  - right. exists (contract_digest_input a), (contract_digest_input b). split; [done|].
    exists (contract_record_digest a). split; congruence.
Qed.

(** One reference names one contract, of every contract type: two valid
    contracts with the same reference are equal, unless the digest function
    gives two different contents the same digest. *)
Theorem record_ref_binds_content (a b : A) r :
  contract_record_ref a = Ok r -> contract_record_ref b = Ok r ->
  a = b \/ digest_collision (contract_domain A).
Proof. apply record_refs_bind. Qed.

(** Issuing and naming agree, for every contract type: an issued contract
    is valid and has the reference made of its kind, identity, revision and the
    digest of the content it was issued with. *)
Theorem issued_contract_has_its_reference (v a : A) :
  contract_issue v = Ok a ->
  contract_validate a = Ok tt /\
  exists d, contract_digest (contract_domain A) (contract_digest_input v) = Ok d /\
    a = with_record_digest d v /\
    contract_record_ref a = Ok (HumanCenteredContractRefV1.mk (contract_kind_of A)
      (HumanCenteredContractMetadataV1.contract_id (contract_metadata a))
      (HumanCenteredContractMetadataV1.revision (contract_metadata a)) d).
Proof.
  intros (d & Hd & -> & Hv)%contract_issue_Ok. split; [done|]. exists d. split; [done|].
  split; [done|]. apply record_ref_Ok. split; [done|].
  by rewrite (proj2 (with_record_digest_input d v)).
Qed.
End contract.

(** The two laws a contract file has to prove, from the definitions of its
    [validate] and [digest_input]. *)
Ltac solve_contract_valid :=
  intros; inv_ok;
  repeat match goal with
  | H : check_record_digest _ _ _ _ = Ok tt |- _ => apply check_record_digest_Ok in H
  | H : HumanCenteredContractMetadataV1.validate _ = Ok tt |- _ => apply metadata_validate_Ok in H
  | H : (_ != _) = false |- _ => apply negb_false_iff in H; rewrite bool_decide_true_iff in H
  end;
  done.
Ltac solve_digest_inj H :=
  json_fields H;
  repeat match goal with E : Arr _ = Arr _ |- _ => json_fields E end;
  repeat match goal with E : Json.to_json _ = Json.to_json _ |- _ => apply Json.json_inj in E end;
  cbn in *; subst; reflexivity.

(** ** Sample values for evaluating the model on concrete inputs *)

Module Sample.
Definition reference (s : string) : ReferenceV1.t := ReferenceV1.mk (txt s).
Definition context : AuthorityContextV1.t :=
  AuthorityContextV1.mk (reference "subject:1") (reference "actor:1") (reference "caller:1")
    (reference "tenant:1") (reference "scope:1") (reference "purpose:1") (reference "operation:1").
Definition digest : text := encode_hex (be_bytes 32 7).
Definition ref (kind : HumanCenteredContractKindV1) (n : N) : ContractRef :=
  HumanCenteredContractRefV1.mk kind (Toy.uuid n) 1 digest.
Definition metadata (kind : HumanCenteredContractKindV1) (n : N) (deps : list ContractRef) : Metadata :=
  HumanCenteredContractMetadataV1.mk kind (Toy.uuid n) (Toy.uuid 2) (Toy.uuid 3) 1 None context []
    deps (reference "policy:1") 1000 HUMAN_CENTERED_SCHEMA_VERSION.
End Sample.
