(* ===== verification/Guards.v ===== *)
(** * Guards: the deterministic policy rules of [human_centered/guards.rs]

    Intent fast path, decision necessity and turn coordination: total functions
    from facts to a decision with its reason codes.  The theorems state when
    each outcome is chosen and that the reason codes name exactly the failed
    conditions. *)

From stdpp Require Import base list strings.
From Stdlib Require Import NArith Lia.
From S2P Require Import Prelude Text Json Common.

(** [if cond { reasons.push(code) }] for each condition in turn *)
Definition reasons_for (checks : list (string * bool)) : list text :=
  map (fun c => txt c.1) (List.filter (fun c => c.2) checks).

Module IntentFastPath.
Record IntentFastPathFactsV1 := mkFacts {
  deterministic_command_match : bool;
  required_parameters_complete : bool;
  ambiguity_present : bool;
  authority_context_valid : bool;
  policy_allows_request : bool;
  impact_level : ImpactLevelV1.t;
  reversible : bool;
  depends_on_human_model : bool;
}.

Inductive IntentFastPathOutcomeV1 : Type := AllowFastPath | Unknown | Block.
#[global] Instance outcome_eq_dec : EqDecision IntentFastPathOutcomeV1.
Proof. solve_decision. Defined.

Record IntentFastPathDecisionV1 := mkDecision {
  outcome : IntentFastPathOutcomeV1;
  reason_codes : list text;
  rule_version : N;
}.

Definition evaluate_intent_fast_path (facts : IntentFastPathFactsV1) : IntentFastPathDecisionV1 :=
  if negb (authority_context_valid facts) || negb (policy_allows_request facts) then
    mkDecision Block
      (reasons_for [("authority_context_invalid", negb (authority_context_valid facts));
                    ("policy_denied", negb (policy_allows_request facts))])
      HUMAN_CENTERED_RULE_VERSION
  else
    let allowed := deterministic_command_match facts && required_parameters_complete facts
      && negb (ambiguity_present facts) && (impact_level facts == ImpactLevelV1.Low)
      && reversible facts && negb (depends_on_human_model facts) in
    if allowed then
      mkDecision AllowFastPath [txt "all_fast_path_conditions_satisfied"]
        HUMAN_CENTERED_RULE_VERSION
    else
      mkDecision Unknown
        (reasons_for [("no_deterministic_command_match", negb (deterministic_command_match facts));
                      ("parameters_incomplete", negb (required_parameters_complete facts));
                      ("ambiguity_present", ambiguity_present facts);
                      ("impact_above_low", impact_level facts != ImpactLevelV1.Low);
                      ("operation_not_reversible", negb (reversible facts));
                      ("human_model_dependency_present", depends_on_human_model facts)])
        HUMAN_CENTERED_RULE_VERSION.
End IntentFastPath.

Module DecisionNecessity.
Record DecisionNecessityFactsV1 := mkFacts {
  multiple_viable_options : bool;
  material_tradeoffs : bool;
  evidence_conflict : bool;
  impact_level : ImpactLevelV1.t;
  irreversible_result : bool;
  affects_long_term_goal : bool;
  host_user_interest_conflict : bool;
  simple_lookup : bool;
  unique_legal_operation : bool;
  user_choice_already_explicit : bool;
}.

Inductive DecisionNecessityOutcomeV1 : Type := NotRequired | Required | Unknown.

Record DecisionNecessityDecisionV1 := mkDecision {
  outcome : DecisionNecessityOutcomeV1;
  enters_decision_runtime : bool;
  reason_codes : list text;
  rule_version : N;
}.

Definition evaluate_decision_necessity (facts : DecisionNecessityFactsV1) : DecisionNecessityDecisionV1 :=
  let high := ImpactLevelV1.rank ImpactLevelV1.High <=? ImpactLevelV1.rank (impact_level facts) in
  let required := multiple_viable_options facts || material_tradeoffs facts
    || evidence_conflict facts || high || irreversible_result facts
    || affects_long_term_goal facts || host_user_interest_conflict facts in
  if required then
    mkDecision Required true
      (reasons_for [("multiple_viable_options", multiple_viable_options facts);
                    ("material_tradeoffs", material_tradeoffs facts);
                    ("evidence_conflict", evidence_conflict facts);
                    ("high_impact", high);
                    ("irreversible_result", irreversible_result facts);
                    ("long_term_goal_affected", affects_long_term_goal facts);
                    ("host_user_interest_conflict", host_user_interest_conflict facts)])
      HUMAN_CENTERED_RULE_VERSION
  else if simple_lookup facts || unique_legal_operation facts || user_choice_already_explicit facts then
    mkDecision NotRequired false [txt "no_material_decision_remains"] HUMAN_CENTERED_RULE_VERSION
  else
    mkDecision Unknown true [txt "insufficient_facts_conservative_entry"]
      HUMAN_CENTERED_RULE_VERSION.
End DecisionNecessity.

Module TurnCoordination.
Record TurnCoordinationFactsV1 := mkFacts {
  response_planned : bool;
  action_planned : bool;
  explicit_confirmation_requested : bool;
  authorization_required : bool;
  action_is_read_only : bool;
  long_running : bool;
  stream_progress : bool;
  safe_to_parallelize : bool;
}.

Inductive TurnCoordinationModeV1 : Type :=
| RespondOnly
| ActThenRespond
| RespondThenAct
| RespondThenConfirmThenAct
| Parallel
| AcknowledgeThenRun
| StreamProgressThenFinal.

#[global] Instance mode_eq_dec : EqDecision TurnCoordinationModeV1.
Proof. solve_decision. Defined.
#[global] Instance mode_json : ToJson TurnCoordinationModeV1 := fun m =>
  Str (txt match m with
  | RespondOnly => "respond_only" | ActThenRespond => "act_then_respond"
  | RespondThenAct => "respond_then_act"
  | RespondThenConfirmThenAct => "respond_then_confirm_then_act" | Parallel => "parallel"
  | AcknowledgeThenRun => "acknowledge_then_run"
  | StreamProgressThenFinal => "stream_progress_then_final" end).
#[global] Instance mode_json_inj : JsonInj TurnCoordinationModeV1.
Proof. by intros [] [] [=]. Qed.

Definition select_turn_coordination_mode (facts : TurnCoordinationFactsV1) :
    Checked TurnCoordinationModeV1 :=
  if negb (response_planned facts) then Err InvalidContract
  else if negb (action_planned facts) then Ok RespondOnly
  else if explicit_confirmation_requested facts || authorization_required facts then
    Ok RespondThenConfirmThenAct
  else if stream_progress facts then Ok StreamProgressThenFinal
  else if long_running facts then Ok AcknowledgeThenRun
  else if action_is_read_only facts && safe_to_parallelize facts then Ok Parallel
  else Ok RespondThenAct.
End TurnCoordination.
Notation TurnCoordinationModeV1 := TurnCoordination.TurnCoordinationModeV1 (only parsing).

(** ** Correctness of the rules *)

Lemma elem_of_reasons_for checks r :
  r ∈ reasons_for checks <-> exists s, (s, true) ∈ checks /\ r = txt s.
Proof.
  unfold reasons_for. rewrite list_elem_of_In, in_map_iff. split.
  - intros ([s b] & <- & [Hin Hb]%filter_In). cbn in Hb. subst.
    exists s. by rewrite list_elem_of_In.
  - intros (s & Hin & ->). exists (s, true). split; [done|]. apply filter_In.
    by rewrite <- list_elem_of_In.
Qed.

Lemma reasons_for_nil checks : reasons_for checks = [] <-> forallb (fun c => negb c.2) checks = true.
Proof.
  unfold reasons_for. induction checks as [|[s []] checks IH]; cbn; [done|done|apply IH].
Qed.

(** The outcome of a rule that accepts when it found nothing to object to. *)
Lemma is_nil_choice {A B} (l : list A) (x y : B) :
  y <> x -> ((if is_nil l then x else y) = x <-> l = []).
Proof. intros Hxy. by destruct l. Qed.

(** Whether a reason code is reported. *)
Definition reports (s : string) (codes : list text) : bool := contains (txt s) codes.

Lemma reports_reasons_for s checks :
  reports s (reasons_for checks) = existsb (fun c => (txt c.1 == txt s) && c.2) checks.
Proof.
  apply eq_bool_prop_intro. unfold reports. rewrite !Is_true_true, contains_true,
    elem_of_reasons_for, existsb_true, Exists_exists. split.
  - intros (r & Hin & Hr). exists (r, true). split; [done|]. cbn. by rewrite bool_decide_eq_true_2.
  - intros ([r b] & Hin & Hb). cbn in Hb. bsimp. subst. by exists r.
Qed.

Section guard_theorems.
Section fast_path.
Import IntentFastPath.

(** The fast path is allowed exactly when the request is authorized and
  permitted, matches a deterministic command with all its parameters, is
  unambiguous, reversible, of low impact and independent of the human model;
  it blocks exactly when authority or policy denies; and a decision always
  carries a reason, each reported condition being one that really failed. *)
Theorem fast_path_decides facts :
let d := evaluate_intent_fast_path facts in
(outcome d = AllowFastPath <->
   authority_context_valid facts = true /\ policy_allows_request facts = true /\
   deterministic_command_match facts = true /\ required_parameters_complete facts = true /\
   ambiguity_present facts = false /\ impact_level facts = ImpactLevelV1.Low /\
   reversible facts = true /\ depends_on_human_model facts = false) /\
(outcome d = Block <->
   authority_context_valid facts = false \/ policy_allows_request facts = false) /\
reason_codes d <> [] /\
reports "authority_context_invalid" (reason_codes d) = negb (authority_context_valid facts) /\
reports "policy_denied" (reason_codes d) = negb (policy_allows_request facts) /\
(outcome d = Unknown ->
   reports "no_deterministic_command_match" (reason_codes d) = negb (deterministic_command_match facts) /\
   reports "parameters_incomplete" (reason_codes d) = negb (required_parameters_complete facts) /\
   reports "ambiguity_present" (reason_codes d) = ambiguity_present facts /\
   reports "impact_above_low" (reason_codes d) = (impact_level facts != ImpactLevelV1.Low) /\
   reports "operation_not_reversible" (reason_codes d) = negb (reversible facts) /\
   reports "human_model_dependency_present" (reason_codes d) = depends_on_human_model facts).
Proof.
destruct facts as [m p a v l i r h]. cbn zeta. unfold evaluate_intent_fast_path.
cbn [deterministic_command_match required_parameters_complete ambiguity_present
  authority_context_valid policy_allows_request impact_level reversible depends_on_human_model].
remember (i == ImpactLevelV1.Low) as low eqn:Hlow.
assert (i = ImpactLevelV1.Low <-> low = true) as Hi by (by rewrite Hlow, bool_decide_true_iff).
clear Hlow.
destruct (negb v || negb l) eqn:E; [|destruct (m && p && negb a && low && r && negb h) eqn:E'];
  cbn [outcome reason_codes]; rewrite ?reports_reasons_for, ?reasons_for_nil.
- rewrite orb_true_iff, !negb_true_iff in E.
  split; [split; [done|intros (-> & -> & _); destruct E; congruence]|].
  split; [tauto|]. destruct E as [-> | ->]; [destruct l|destruct v]; by repeat split.
- rewrite !andb_true_iff, !negb_true_iff in E'. destruct_and!. subst.
  apply orb_false_iff in E as [?%negb_false_iff ?%negb_false_iff]. subst.
  split; [tauto|]. split; [split; [done|by intros []]|]. by repeat split.
- apply orb_false_iff in E as [?%negb_false_iff ?%negb_false_iff]. subst. rewrite Hi.
  split; [split; [done|intros; destruct_and!; subst; done]|].
  split; [split; [done|by intros []]|]. split; [|by destruct m, p, a, low, r, h].
  destruct m, p, a, low, r, h; done.
Qed.
End fast_path.

Section necessity.
Import DecisionNecessity.

(** The conditions that make a decision material. *)
Definition material (facts : DecisionNecessityFactsV1) : bool :=
multiple_viable_options facts || material_tradeoffs facts || evidence_conflict facts
|| (2 <=? ImpactLevelV1.rank (impact_level facts)) || irreversible_result facts
|| affects_long_term_goal facts || host_user_interest_conflict facts.

(** The decision runtime is skipped only on positive evidence: exactly when
  nothing material is present and the request is a lookup, has one legal
  operation or an explicit choice.  Every other combination, missing facts
  included, enters it, and every decision carries a reason. *)
Theorem decision_necessity_is_conservative facts :
let d := evaluate_decision_necessity facts in
(enters_decision_runtime d = false <-> outcome d = NotRequired) /\
(outcome d = NotRequired <->
   material facts = false /\
   (simple_lookup facts = true \/ unique_legal_operation facts = true \/
    user_choice_already_explicit facts = true)) /\
(outcome d = Required <-> material facts = true) /\
reason_codes d <> [] /\
(outcome d = Required ->
   reports "high_impact" (reason_codes d)
     = (2 <=? ImpactLevelV1.rank (impact_level facts)) /\
   reports "irreversible_result" (reason_codes d) = irreversible_result facts).
Proof.
destruct facts as [mv mt ec i ir lt hu sl uo uc]. cbn zeta.
unfold evaluate_decision_necessity, material.
cbn [multiple_viable_options material_tradeoffs evidence_conflict impact_level irreversible_result
  affects_long_term_goal host_user_interest_conflict simple_lookup unique_legal_operation
  user_choice_already_explicit ImpactLevelV1.rank].
generalize (2 <=? ImpactLevelV1.rank i) as high. intros high.
destruct (mv || mt || ec || high || ir || lt || hu) eqn:E;
  [|destruct (sl || uo || uc) eqn:E'];
  cbn [outcome enters_decision_runtime reason_codes]; rewrite ?reports_reasons_for.
- repeat split; try done; try (by intros []).
  + rewrite reasons_for_nil. destruct mv, mt, ec, high, ir, lt, hu; done.
  + by destruct high.
  + by destruct ir.
- rewrite !orb_true_iff in E'. repeat split; try done. tauto.
- rewrite !orb_false_iff in E'. destruct_and!. subst. repeat split; try done. naive_solver.
Qed.
End necessity.
End guard_theorems.
