(* ===== verification/RunState.v ===== *)
(** * RunState: the interaction run state machine ([human_centered/runtime.rs]) *)

From stdpp Require Import base list relations strings.
From Stdlib Require Import NArith Lia.
From S2P Require Import Prelude Text Json Common.

Module InteractionRunStateV1.
Inductive t : Type :=
| Pending
| Running
| WaitingInput
| WaitingAuthorization
| WaitingDependency
| Succeeded
| Rejected
| Failed
| Cancelled
| TimedOut
| Invalidated.

#[global] Instance eq_dec : EqDecision t.
Proof. solve_decision. Defined.

Definition is_terminal (self : t) : bool :=
  match self with
  | Succeeded | Rejected | Failed | Cancelled | TimedOut | Invalidated => true
  | _ => false
  end.

Definition may_transition_to (self next : t) : bool :=
  match self, next with
  | Pending, (Running | Rejected | Cancelled | TimedOut | Invalidated) => true
  | Running, (WaitingInput | WaitingAuthorization | WaitingDependency | Succeeded | Rejected
             | Failed | Cancelled | TimedOut | Invalidated) => true
  | (WaitingInput | WaitingAuthorization | WaitingDependency),
    (Running | Rejected | Failed | Cancelled | TimedOut | Invalidated) => true
  | _, _ => false
  end.
End InteractionRunStateV1.
Import InteractionRunStateV1.

Definition validate_interaction_run_transition (current next : InteractionRunStateV1.t) : Checked unit :=
  reject negb (may_transition_to current next) with InvalidTransition;
  Ok tt.

(** ** The machine as a step relation *)

Inductive run_step : InteractionRunStateV1.t -> InteractionRunStateV1.t -> Prop :=
| run_step_intro s n : validate_interaction_run_transition s n = Ok tt -> run_step s n.

Lemma run_step_iff s n : run_step s n <-> may_transition_to s n = true.
Proof.
  unfold validate_interaction_run_transition. split.
  - intros [? ? H]. unfold validate_interaction_run_transition in H. by destruct (may_transition_to _ _).
  - intros H. constructor. unfold validate_interaction_run_transition. by rewrite H.
Qed.

(** Runs: the sequences of states an interaction goes through. *)
Inductive run_trace : list InteractionRunStateV1.t -> Prop :=
| trace_start : run_trace [Pending]
| trace_step s n ss : run_trace (s :: ss) -> run_step s n -> run_trace (n :: s :: ss).

(** The terminal states are exactly the ones no transition leaves, and every
    other state can be brought to an end: a run is never stuck in a state that
    is not terminal. *)
Theorem terminal_iff_final s :
  (is_terminal s = true <-> forall n, validate_interaction_run_transition s n = Err InvalidTransition) /\
  (is_terminal s = false -> exists n, run_step s n /\ is_terminal n = true).
Proof.
  split; [split|].
  - intros Ht n. by destruct s, n.
  - intros H. specialize (H Cancelled). by destruct s.
  - intros H. exists Cancelled. rewrite run_step_iff. by destruct s.
Qed.

(** In any run, success is declared only by a state that was running just
    before; a waiting state is entered only from running; nothing follows a
    terminal state; and no run ever returns to pending. *)
Theorem run_trace_discipline ss :
  run_trace ss ->
  (forall i s p, ss !! i = Some s -> ss !! S i = Some p ->
     (s = Succeeded -> p = Running) /\
     (s = WaitingInput \/ s = WaitingAuthorization \/ s = WaitingDependency -> p = Running) /\
     is_terminal p = false /\ s <> Pending) /\
  (exists s, ss !! 0%nat = Some s) /\
  last ss = Some Pending.
Proof.
  induction 1 as [|s n ss Hss [IH [_ IHl]] Hstep].
  - split; [by intros [|i] ? ?|]. eauto.
  - split; [|split; [by eexists|by rewrite last_cons_cons]].
    apply run_step_iff in Hstep. intros [|i] s' p'; cbn.
    + intros [= <-] [= <-]. by destruct s, n; repeat split; try done; intros; destruct_or?.
    + apply IH.
Qed.
