(* ===== verification/Input.v ===== *)
(** * Input: canonical input events ([human_centered/input.rs])

    Which source may assert which semantic role, and the event constructor and
    validator. *)

From stdpp Require Import base list strings sorting.
From Stdlib Require Import NArith Lia.
From S2P Require Import Prelude Text Json Crates Common.

Inductive SourceActorV1 : Type :=
| User | Host | Agent | Tool | ExternalSystem | HumanApprover | Scheduler | PolicyEngine
| DeviceEnvironment.

Inductive SemanticRoleV1 : Type :=
| Objective | Intent | Command | Fact | Observation | Proposal | Authorization | Policy
| SResult | Feedback | TimeTrigger | SecuritySignal.

#[export] Instance source_actor_eq_dec : EqDecision SourceActorV1.
Proof. solve_decision. Defined.
#[export] Instance semantic_role_eq_dec : EqDecision SemanticRoleV1.
Proof. solve_decision. Defined.

Definition role_rank (r : SemanticRoleV1) : N :=
  match r with
  | Objective => 0 | Intent => 1 | Command => 2 | Fact => 3 | Observation => 4 | Proposal => 5
  | Authorization => 6 | Policy => 7 | SResult => 8 | Feedback => 9 | TimeTrigger => 10
  | SecuritySignal => 11
  end.
#[export] Instance semantic_role_ord : Ord SemanticRoleV1 := fun r s => cmp (role_rank r) (role_rank s).
#[export] Instance semantic_role_ord_laws : OrdLaws SemanticRoleV1.
Proof. apply (ord_laws_key _ role_rank); [done|]. by intros [] []. Qed.

Definition source_actor_may_assert (source : SourceActorV1) (role : SemanticRoleV1) : bool :=
  match source with
  | User =>
      match role with
      | Objective | Intent | Command | Fact | Proposal | Authorization | Feedback => true
      | _ => false
      end
  | Host => match role with Authorization => false | _ => true end
  | Agent =>
      match role with Fact | Observation | Proposal | SResult | Feedback => true | _ => false end
  | Tool => match role with Fact | Observation | SResult | SecuritySignal => true | _ => false end
  | ExternalSystem =>
      match role with Fact | Observation | SResult | SecuritySignal => true | _ => false end
  | HumanApprover => match role with Authorization | Feedback | Fact => true | _ => false end
  | Scheduler => role == TimeTrigger
  | PolicyEngine => match role with Policy | Authorization | SecuritySignal => true | _ => false end
  | DeviceEnvironment => match role with Observation | Fact | SecuritySignal => true | _ => false end
  end.

Module CanonicalInputEventV1.
Record t := mk {
  event_id : HumanCenteredInputEventIdV1;
  run_id : HumanCenteredRunIdV1;
  turn_id : HumanCenteredTurnIdV1;
  source_actor : SourceActorV1;
  actor_ref : ReferenceV1.t;
  primary_semantic_role : SemanticRoleV1;
  semantic_roles : list SemanticRoleV1;
  content_ref : ReferenceV1.t;
  content_digest : text;
  correlation_ref : ReferenceV1.t;
  logical_time : N;
  schema_version : N;
}.

(** [roles] is a [BTreeSet] of the listed roles: its size is the number of
    distinct ones and it contains what the list contains. *)
Definition validate (e : t) : Checked unit :=
  let roles := remove_dups (semantic_roles e) in
  reject UuidId.is_empty (event_id e) || UuidId.is_empty (run_id e) || UuidId.is_empty (turn_id e)
         || is_nil (semantic_roles e) || (16 <? lenN (semantic_roles e))
         || negb (lenN roles =? lenN (semantic_roles e))
         || negb (contains (primary_semantic_role e) roles)
         || existsb (fun role => negb (source_actor_may_assert (source_actor e) role)) (semantic_roles e)
         || blank (actor_ref e) || blank (content_ref e) || blank (correlation_ref e)
         || negb (is_some_and valid_digest (strip_prefix (txt "sha256:") (content_digest e)))
         || (logical_time e =? 0) || (HUMAN_CENTERED_MAX_SAFE_WIRE_INTEGER <? logical_time e)
         || (schema_version e != HUMAN_CENTERED_SCHEMA_VERSION)
    with InvalidContract;
  Ok tt.

(** [minted] is the event identifier drawn by [mint()]. *)
Definition new (minted : HumanCenteredInputEventIdV1) (run_id : HumanCenteredRunIdV1)
    (turn_id : HumanCenteredTurnIdV1) (source_actor : SourceActorV1) (actor_ref : ReferenceV1.t)
    (primary_semantic_role : SemanticRoleV1) (semantic_roles : list SemanticRoleV1)
    (content_ref : ReferenceV1.t) (content_digest : text) (correlation_ref : ReferenceV1.t)
    (logical_time : N) : Checked t :=
  let value := mk minted run_id turn_id source_actor actor_ref primary_semantic_role
    (dedup (sort semantic_roles)) content_ref content_digest correlation_ref logical_time
    HUMAN_CENTERED_SCHEMA_VERSION in
  _ ← validate value;
  Ok value.
End CanonicalInputEventV1.

Section input_theorems.
Import CanonicalInputEventV1.

Lemma input_validate_roles e :
  validate e = Ok tt ->
  primary_semantic_role e ∈ semantic_roles e /\
  Forall (fun role => source_actor_may_assert (source_actor e) role = true) (semantic_roles e).
Proof.
  unfold validate. rewrite reject_Ok, !orb_false_iff. intros [H _].
  destruct_and!. split.
  - match goal with Hc : negb (contains _ _) = false |- _ =>
      apply negb_false_iff, contains_true in Hc; by rewrite elem_of_remove_dups in Hc end.
  - match goal with Hc : existsb _ _ = false |- _ => apply existsb_false in Hc as Hf end.
    eapply Forall_impl; [exact Hf|]. intros r. cbn. by rewrite negb_false_iff.
Qed.

(** Only a user, a human approver or the policy engine can introduce an
    authorization: an accepted event whose roles include one never comes from
    the host, an agent, a tool, a scheduler, a device or an external system. *)
Theorem authorization_has_an_authorized_source minted run turn src actor prim roles content digest
    corr time e :
  new minted run turn src actor prim roles content digest corr time = Ok e ->
  (forall r, r ∈ semantic_roles e <-> r ∈ roles) /\ prim ∈ roles /\
  (Authorization ∈ roles -> src = User \/ src = HumanApprover \/ src = PolicyEngine) /\
  (Command ∈ roles -> src = User \/ src = Host).
Proof.
  intros ([] & Hv & [= <-])%bind_Ok.
  apply input_validate_roles in Hv as [Hp Hr]. cbn in *.
  assert (forall r, r ∈ dedup (sort roles) <-> r ∈ roles) as Hin by apply canonical_list.
  rewrite Forall_forall in Hr. split; [done|]. split; [by apply Hin|].
  split; intros Ha%Hin%Hr; destruct src; try discriminate Ha; auto.
Qed.
End input_theorems.
