(* ===== verification/Kernel.v ===== *)
(** * Kernel: the deterministic assessment kernel ([idr-runtime/src/legacy.rs])

    One assessment runs the three guards over the facts of a request and derives
    the coordination mode, the action posture and the next run state. *)

From stdpp Require Import base list strings.
From Stdlib Require Import NArith Lia.
From S2P Require Import Prelude Text Json Crates Common Guards RunState Input.
Import IntentFastPath DecisionNecessity TurnCoordination.

Module Kernel.
Record InteractionAssessmentRequestV1 := mkRequest {
  input : CanonicalInputEventV1.t;
  fast_path_facts : IntentFastPathFactsV1;
  decision_facts : DecisionNecessityFactsV1;
  coordination_facts : TurnCoordinationFactsV1;
}.

Inductive ActionPlanningPostureV1 : Type := PostureNone | Blocked | Planned | PostureWaitingAuthorization.

Record InteractionAssessmentV1 := mkAssessment {
  schema_version : N;
  fast_path : IntentFastPathDecisionV1;
  decision_necessity : DecisionNecessityDecisionV1;
  coordination_mode : TurnCoordinationModeV1;
  action_posture : ActionPlanningPostureV1;
  next_run_state : InteractionRunStateV1.t;
}.

Definition impact_rank (request : InteractionAssessmentRequestV1) : N :=
  ImpactLevelV1.rank (DecisionNecessity.impact_level (decision_facts request)).

Definition validate_assessment_facts (request : InteractionAssessmentRequestV1) : Checked unit :=
  let coordination := coordination_facts request in
  reject (IntentFastPath.impact_level (fast_path_facts request)
            != DecisionNecessity.impact_level (decision_facts request))
         || negb (response_planned coordination)
         || (authorization_required coordination && negb (action_planned coordination))
         || (explicit_confirmation_requested coordination && negb (action_planned coordination))
         || (action_planned coordination
             && (ImpactLevelV1.rank ImpactLevelV1.High <=? impact_rank request)
             && negb (authorization_required coordination))
         || (safe_to_parallelize coordination && negb (action_is_read_only coordination))
         || (stream_progress coordination && negb (action_planned coordination))
    with InvalidContract;
  Ok tt.

Definition assess (request : InteractionAssessmentRequestV1) : Checked InteractionAssessmentV1 :=
  _ ← CanonicalInputEventV1.validate (input request);
  _ ← validate_assessment_facts request;
  let fast_path := evaluate_intent_fast_path (fast_path_facts request) in
  let decision_necessity := evaluate_decision_necessity (decision_facts request) in
  reject (IntentFastPath.outcome fast_path == AllowFastPath)
         && enters_decision_runtime decision_necessity
    with InvalidContract;
  if IntentFastPath.outcome fast_path == Block then
    Ok (mkAssessment HUMAN_CENTERED_SCHEMA_VERSION fast_path decision_necessity RespondOnly Blocked
          InteractionRunStateV1.Rejected)
  else
    coordination_mode ← select_turn_coordination_mode (coordination_facts request);
    let '(action_posture, next_run_state) :=
      match coordination_mode with
      | RespondOnly => (PostureNone, InteractionRunStateV1.Running)
      | RespondThenConfirmThenAct =>
          (PostureWaitingAuthorization, InteractionRunStateV1.WaitingAuthorization)
      | _ => (Planned, InteractionRunStateV1.Running)
      end in
    Ok (mkAssessment HUMAN_CENTERED_SCHEMA_VERSION fast_path decision_necessity coordination_mode
          action_posture next_run_state).
End Kernel.
Import Kernel.

Lemma facts_valid_Ok request :
  validate_assessment_facts request = Ok tt ->
  let c := coordination_facts request in
  IntentFastPath.impact_level (fast_path_facts request)
    = DecisionNecessity.impact_level (decision_facts request) /\
  response_planned c = true /\
  (action_planned c = true -> 2 <= impact_rank request -> authorization_required c = true) /\
  (action_planned c = false -> authorization_required c = false /\ explicit_confirmation_requested c = false) /\
  (safe_to_parallelize c = true -> action_is_read_only c = true).
Proof.
  unfold validate_assessment_facts. intros [H _]%reject_Ok.
  rewrite !orb_false_iff, !andb_false_iff, !negb_false_iff, N.leb_gt, bool_decide_true_iff in H.
  destruct_and!. cbn. change (ImpactLevelV1.rank ImpactLevelV1.High) with 2 in *.
  repeat split; try done; intros; destruct_or!; try congruence; lia.
Qed.

(** An assessment never plans an action it may not take: a blocked request is
      rejected with no action; an action of high or critical impact, or one whose
      confirmation was asked for, always waits for authorization; running in
      parallel needs a read-only action; a fast-path answer never bypasses a
      required decision; and an action is planned only when one was requested. *)
Theorem assessment_is_safe request a :
  assess request = Ok a ->
  let c := coordination_facts request in
  (IntentFastPath.outcome (fast_path a) = Block <->
     action_posture a = Blocked) /\
  (action_posture a = Blocked ->
     coordination_mode a = RespondOnly /\ next_run_state a = InteractionRunStateV1.Rejected) /\
  (action_posture a <> Blocked -> action_planned c = true ->
     2 <= impact_rank request \/ explicit_confirmation_requested c = true ->
     coordination_mode a = RespondThenConfirmThenAct /\
     action_posture a = PostureWaitingAuthorization /\
     next_run_state a = InteractionRunStateV1.WaitingAuthorization) /\
  (coordination_mode a = Parallel -> action_is_read_only c = true) /\
  (IntentFastPath.outcome (fast_path a) = AllowFastPath ->
     enters_decision_runtime (decision_necessity a) = false /\ impact_rank request = 0) /\
  (action_posture a = Planned \/ action_posture a = PostureWaitingAuthorization ->
     action_planned c = true).
Proof.
  unfold assess. intros H. inv_ok.
  match goal with Hf : validate_assessment_facts _ = _ |- _ =>
    apply facts_valid_Ok in Hf as (Himp & Hresp & Hhigh & Hnone & Hpar) end.
  set (fp := evaluate_intent_fast_path (fast_path_facts request)) in *.
  set (dn := evaluate_decision_necessity (decision_facts request)) in *.
  match goal with Hb : _ && _ = false |- _ => rename Hb into Hfast end.
  assert (IntentFastPath.outcome fp = AllowFastPath ->
     enters_decision_runtime dn = false /\ impact_rank request = 0) as Hallow.
  { intros Ha. split.
    - rewrite Ha in Hfast. by rewrite bool_decide_eq_true_2 in Hfast by done.
    - pose proof (fast_path_decides (fast_path_facts request)) as [[Hd _] _].
      destruct (Hd Ha) as (_ & _ & _ & _ & _ & Hlow & _).
      unfold impact_rank. by rewrite <- Himp, Hlow. }
  case_bool_decide as Hblock.
  - inv_ok. cbn. rewrite Hblock in *. repeat split; try done; try naive_solver.
  - inv_ok. unfold select_turn_coordination_mode in *. rewrite Hresp in *. cbn in *.
    destruct (action_planned (coordination_facts request)) eqn:Hact; cbn in *.
    + destruct (explicit_confirmation_requested (coordination_facts request)) eqn:He; cbn in *;
      [|destruct (authorization_required (coordination_facts request)) eqn:Hauth; cbn in *].
      * inv_ok. cbn. repeat split; try done; naive_solver.
      * inv_ok. cbn. repeat split; try done; naive_solver.
      * repeat case_match; simplify_eq; inv_ok; simplify_eq; cbn; bsimp;
          repeat split; try done; try naive_solver; intros; destruct_or!; try done;
          by specialize (Hhigh eq_refl ltac:(done)).
    + inv_ok. cbn. repeat split; try done; naive_solver.
Qed.
