(* ===== verification/Orchestrator.v ===== *)
(** * Orchestrator: orchestration steps ([idr-runtime/src/orchestrator.rs])

    The step state machine, the retry policy and the step record.  [transition]
    takes [&mut self]: it is modelled as a function that returns the record it
    leaves behind together with its result, because the record changes before
    the final check and stays changed when that check fails. *)

From stdpp Require Import base list sorting strings.
From Stdlib Require Import NArith Lia.
From S2P Require Import Prelude Text Json Crates Common.

Inductive OrchestrationStepKindV1 : Type :=
| InputAdmission | ContextSnapshot | IntentAssessment | SDecision | TurnPlanning
| ResponseAdmission | ActionAdmission | SExecution | OutcomeObservation | HumanModelCandidate.

Module OrchestrationStepStateV1.
Inductive t : Type :=
| Pending | Running | WaitingInput | WaitingAuthorization | WaitingDependency
| Succeeded | Failed | Cancelled | TimedOut | Invalidated.

#[global] Instance eq_dec : EqDecision t.
Proof. solve_decision. Defined.

Definition may_transition_to (self next : t) : bool :=
  match self, next with
  | Pending, (Running | Cancelled | TimedOut | Invalidated) => true
  | Running, (WaitingInput | WaitingAuthorization | WaitingDependency | Succeeded | Failed
             | Cancelled | TimedOut | Invalidated) => true
  | (WaitingInput | WaitingAuthorization | WaitingDependency),
    (Running | Failed | Cancelled | TimedOut | Invalidated) => true
  | _, _ => false
  end.
End OrchestrationStepStateV1.

Inductive WaitConditionV1 : Type :=
| UserInput (binding : ReferenceV1.t)
| Authorization (binding : ContractRef)
| Dependency (binding : ContractRef)
| ProviderReconciliation (binding : ReferenceV1.t).

Module RetryPolicyV1.
Record t := mk {
  maximum_attempts : N;
  initial_backoff_millis : N;
  maximum_backoff_millis : N;
}.

Definition validate (p : t) : Checked unit :=
  reject (maximum_attempts p =? 0) || (initial_backoff_millis p =? 0)
         || (maximum_backoff_millis p <? initial_backoff_millis p)
    with InvalidContract;
  Ok tt.
End RetryPolicyV1.

Module OrchestrationStepRecordV1.
Import OrchestrationStepStateV1.
Record t := mk {
  step_id : Uuid;
  run_id : HumanCenteredRunIdV1;
  turn_id : HumanCenteredTurnIdV1;
  step_kind : OrchestrationStepKindV1;
  state : OrchestrationStepStateV1.t;
  attempt : N;
  dependency_step_ids : list Uuid;
  wait_condition : option WaitConditionV1;
  retry_policy : RetryPolicyV1.t;
  causation_ref : ReferenceV1.t;
  correlation_ref : ReferenceV1.t;
}.

Definition set_attempt (s : t) (n : N) : t :=
  mk (step_id s) (run_id s) (turn_id s) (step_kind s) (state s) n (dependency_step_ids s)
    (wait_condition s) (retry_policy s) (causation_ref s) (correlation_ref s).
Definition set_state (s : t) (next : OrchestrationStepStateV1.t) (w : option WaitConditionV1) : t :=
  mk (step_id s) (run_id s) (turn_id s) (step_kind s) next (attempt s) (dependency_step_ids s)
    w (retry_policy s) (causation_ref s) (correlation_ref s).

(** [matches!(next, WaitingInput | WaitingAuthorization | WaitingDependency)] *)
Definition is_waiting (s : OrchestrationStepStateV1.t) : bool :=
  match s with WaitingInput | WaitingAuthorization | WaitingDependency => true | _ => false end.

Definition wait_matches_state (s : OrchestrationStepStateV1.t) (w : option WaitConditionV1) : bool :=
  match s, w with
  | WaitingInput, Some (UserInput _) => true
  | WaitingAuthorization, Some (Authorization _) => true
  | WaitingDependency, Some (Dependency _) | WaitingDependency, Some (ProviderReconciliation _) => true
  | _, _ => false
  end.

Definition validate (s : t) : Checked unit :=
  _ ← RetryPolicyV1.validate (retry_policy s);
  let dependencies := dedup (sort (dependency_step_ids s)) in
  let waiting := is_waiting (state s) in
  let wait_matches_state := wait_matches_state (state s) (wait_condition s) in
  reject is_nil_uuid (step_id s) || UuidId.is_empty (run_id s) || UuidId.is_empty (turn_id s)
         || negb (lenN dependencies =? lenN (dependency_step_ids s))
         || contains (step_id s) (dependency_step_ids s)
         || (RetryPolicyV1.maximum_attempts (retry_policy s) <? attempt s)
         || negb (eqb waiting (is_some (wait_condition s)))
         || (waiting && negb wait_matches_state)
         || blank (causation_ref s) || blank (correlation_ref s)
    with InvalidContract;
  Ok tt.

(** [minted] is the identifier drawn by [Uuid::new_v4()]. *)
Definition pending (minted : Uuid) (run_id : HumanCenteredRunIdV1) (turn_id : HumanCenteredTurnIdV1)
    (step_kind : OrchestrationStepKindV1) (dependency_step_ids : list Uuid)
    (retry_policy : RetryPolicyV1.t) (causation_ref correlation_ref : ReferenceV1.t) : Checked t :=
  let value := mk minted run_id turn_id step_kind Pending 0 dependency_step_ids None retry_policy
    causation_ref correlation_ref in
  _ ← validate value;
  Ok value.

(** The record after the call, and the result of the call. *)
Definition transition (s : t) (next : OrchestrationStepStateV1.t)
    (w : option WaitConditionV1) : t * Checked unit :=
  if negb (may_transition_to (state s) next) then (s, Err InvalidTransition) else
  let requires_wait := is_waiting next in
  if negb (eqb requires_wait (is_some w)) then (s, Err InvalidContract) else
  let attempted : Checked t :=
    if next == Running then
      next_attempt ← ok_or RevisionOverflow (checked_succ u32_max (attempt s));
      reject RetryPolicyV1.maximum_attempts (retry_policy s) <? next_attempt with InvalidTransition;
      Ok (set_attempt s next_attempt)
    else Ok s in
  match attempted with
  | Err e => (s, Err e)
  | Ok s => let s := set_state s next w in (s, validate s)
  end.
End OrchestrationStepRecordV1.
Import OrchestrationStepRecordV1.

(** ** Histories of a step: what a caller that stops at the first error sees *)

Definition terminal (s : OrchestrationStepStateV1.t) : bool :=
  match s with
  | OrchestrationStepStateV1.Succeeded | OrchestrationStepStateV1.Failed
  | OrchestrationStepStateV1.Cancelled | OrchestrationStepStateV1.TimedOut
  | OrchestrationStepStateV1.Invalidated => true
  | _ => false
  end.

Inductive step_history : list OrchestrationStepRecordV1.t -> Prop :=
| history_pending minted run turn kind deps policy cause corr s :
    pending minted run turn kind deps policy cause corr = Ok s -> step_history [s]
| history_transition s next w s' hs :
    step_history (s :: hs) -> transition s next w = (s', Ok tt) -> step_history (s' :: s :: hs).

Definition is_running (s : OrchestrationStepRecordV1.t) : bool :=
  state s == OrchestrationStepStateV1.Running.

Definition count_running (hs : list OrchestrationStepRecordV1.t) : N :=
  lenN (filter (fun s => is_running s = true) hs).

Lemma transition_Ok s next w s' :
  transition s next w = (s', Ok tt) ->
  validate s' = Ok tt /\ OrchestrationStepStateV1.may_transition_to (state s) next = true /\
  state s' = next /\ wait_condition s' = w /\ retry_policy s' = retry_policy s /\
  step_id s' = step_id s /\
  attempt s' = (if next == OrchestrationStepStateV1.Running then attempt s + 1 else attempt s).
Proof.
  unfold transition. destruct (OrchestrationStepStateV1.may_transition_to _ _) eqn:Hm; [|done].
  cbn [negb]. destruct (eqb _ _); [|done]. cbn [negb].
  destruct (bool_decide_reflect (next = OrchestrationStepStateV1.Running)) as [->|Hne].
  - destruct (checked_succ u32_max (attempt s)) as [n|] eqn:Hn; [|done]. cbn.
    apply checked_succ_Some in Hn as [_ ->].
    destruct (_ <? _); [done|]. intros [= <- Hv]. done.
  - intros [= <- Hv]. done.
Qed.

Lemma step_validate_Ok s : validate s = Ok tt ->
  attempt s <= RetryPolicyV1.maximum_attempts (retry_policy s) /\
  is_waiting (state s) = is_some (wait_condition s) /\
  (is_waiting (state s) = true -> wait_matches_state (state s) (wait_condition s) = true) /\
  NoDup (dependency_step_ids s) /\ step_id s ∉ dependency_step_ids s.
Proof.
  unfold validate. intros ([] & _ & H)%bind_Ok. apply reject_Ok in H as [H _].
  rewrite !orb_false_iff in H. destruct_and!.
  rewrite N.ltb_ge, !negb_false_iff, contains_false, eqb_true_iff, N.eqb_eq, andb_false_iff,
    negb_false_iff in *.
  split; [done|]. split; [done|]. split; [by intuition congruence|]. split; [|done].
  destruct (canonical_list (dependency_step_ids s)) as (_ & Hn & Hin).
  match goal with Hl : lenN (dedup _) = lenN _ |- _ => unfold lenN in Hl; apply Nat2N.inj in Hl as Hl end.
  assert (dedup (sort (dependency_step_ids s)) ≡ₚ dependency_step_ids s) as <-; [|done].
  apply submseteq_length_Permutation; [|lia]. apply NoDup_submseteq; [done|]. intros x. apply Hin.
Qed.

(** The orchestration steps a caller drives without ignoring an error are valid
    at every point, never revive after an end state, are running at most as many
    times as the policy allows, and count each of those runs in [attempt]. *)
Lemma step_history_inv hs :
  step_history hs ->
  exists s hs', hs = s :: hs' /\ validate s = Ok tt /\
    attempt s = count_running hs /\
    Forall (fun p => terminal (state p) = false) hs' /\
    Forall (fun p => retry_policy p = retry_policy s /\ step_id p = step_id s) hs.
Proof.
  induction 1 as [minted run turn kind deps policy cause corr s H|s next w s' hs _ IH H].
  - unfold pending in H. apply bind_Ok in H as ([] & Hv & [= <-]).
    eexists _, []. repeat split; try done; repeat constructor; done.
  - destruct IH as (s0 & hs' & [= <- <-] & _ & Ha & Ht & Hp).
    apply transition_Ok in H as (Hv & Hm & Hs & _ & Hr & Hid & Hat).
    eexists _, _. split; [done|]. split; [done|]. split; [|split].
    + assert (is_running s' = (next == OrchestrationStepStateV1.Running)) as Hrun
        by (unfold is_running; by rewrite Hs).
      rewrite Hat, Ha. unfold count_running. rewrite (filter_cons _ s'), Hrun.
      destruct (bool_decide_reflect (next = OrchestrationStepStateV1.Running)) as [->|].
      * rewrite decide_True by done. unfold lenN. cbn [length]. lia.
      * rewrite decide_False by done. done.
    + constructor; [|done]. by destruct (state s), next.
    + constructor; [done|]. eapply Forall_impl; [exact Hp|]. cbn. intros p [? ?]. split; congruence.
Qed.

(** A step driven to its end without ignoring an error: every record of its
    history is valid, carries a wait condition exactly in the waiting states and
    of the matching kind, is never left once terminal, and enters the running
    state at most [maximum_attempts] times over its whole life. *)
Theorem step_history_bounded_and_valid hs :
  step_history hs ->
  exists s hs', hs = s :: hs' /\ validate s = Ok tt /\
    Forall (fun p => terminal (state p) = false) hs' /\
    count_running hs <= RetryPolicyV1.maximum_attempts (retry_policy s) /\
    (is_waiting (state s) = true <-> wait_condition s <> None) /\
    (is_waiting (state s) = true -> wait_matches_state (state s) (wait_condition s) = true) /\
    NoDup (dependency_step_ids s) /\ step_id s ∉ dependency_step_ids s.
Proof.
  intros (s & hs' & -> & Hv & Ha & Ht & _)%step_history_inv. eexists _, _. split; [done|].
  split; [done|]. split; [done|]. apply step_validate_Ok in Hv as (Hb & Hw & Hm & Hd).
  rewrite <- Ha. split; [done|]. split; [|done]. rewrite Hw. by destruct (wait_condition s).
Qed.

(** [transition] accepts exactly when the state machine allows the move, the
    presence of a wait condition matches the target state, a run has an attempt
    left, and the record it would leave is valid; then the record differs only
    in state, wait condition and attempt. *)
Theorem transition_accepts_iff s next w :
  (transition s next w).2 = Ok tt <->
  let s' := set_state (if next == OrchestrationStepStateV1.Running
                       then set_attempt s (attempt s + 1) else s) next w in
  OrchestrationStepStateV1.may_transition_to (state s) next = true /\
  is_waiting next = is_some w /\
  (next = OrchestrationStepStateV1.Running ->
     attempt s < u32_max /\ attempt s + 1 <= RetryPolicyV1.maximum_attempts (retry_policy s)) /\
  validate s' = Ok tt /\ (transition s next w).1 = s'.
Proof.
  cbn zeta. unfold transition.
  destruct (OrchestrationStepStateV1.may_transition_to _ _); [|naive_solver]. cbn [negb].
  destruct (eqb _ _) eqn:Hw; cbn [negb];
    [apply eqb_prop in Hw|apply eqb_false_iff in Hw; split; [done|by intros (? & ? & _)]].
  destruct (bool_decide_reflect (next = OrchestrationStepStateV1.Running)) as [Hr|Hr].
  - destruct (checked_succ u32_max (attempt s)) as [n|] eqn:Hn; cbn.
    + apply checked_succ_Some in Hn as [Hlt ->].
      destruct (N.ltb_spec (RetryPolicyV1.maximum_attempts (retry_policy s)) (attempt s + 1)); cbn.
      * split; [done|]. intros (_ & _ & H1 & _). destruct (H1 Hr). lia.
      * tauto.
    + split; [done|]. intros (_ & _ & H1 & _). destruct (H1 Hr) as [Hlt _].
      exfalso. assert (checked_succ u32_max (attempt s) = Some (attempt s + 1)) by (by apply checked_succ_Some).
      congruence.
  - cbn. tauto.
Qed.

(** ** A rejected transition can still change the record *)

Module Example.
Definition reference : ReferenceV1.t := ReferenceV1.mk (txt "cause:turn-plan").
Definition bound : ContractRef :=
  HumanCenteredContractRefV1.mk KAction (Toy.uuid 9) 1 (txt "").
Definition policy : RetryPolicyV1.t := RetryPolicyV1.mk 1 100 1000.
Definition fresh : OrchestrationStepRecordV1.t :=
  mk (Toy.uuid 1) (Toy.uuid 2) (Toy.uuid 3) ActionAdmission OrchestrationStepStateV1.Pending 0 []
    None policy reference reference.
Definition running : OrchestrationStepRecordV1.t :=
  (transition fresh OrchestrationStepStateV1.Running None).1.
Definition waiting : OrchestrationStepRecordV1.t :=
  (transition running OrchestrationStepStateV1.WaitingInput (Some (UserInput reference))).1.
End Example.

(** A transition that reports an error is not always without effect: a
    running step asked to wait for input on an authorization binding is refused,
    yet the record is left waiting for input, no longer valid, although it was
    valid before. *)
Theorem rejected_transition_corrupts_the_step :
  exists s next w s',
    validate s = Ok tt /\ transition s next w = (s', Err InvalidContract) /\
    s' <> s /\ state s' = next /\ validate s' = Err InvalidContract.
Proof.
  exists Example.running, OrchestrationStepStateV1.WaitingInput, (Some (Authorization Example.bound)).
  eexists. split; [by vm_compute|]. split; [by vm_compute|]. split; [discriminate|].
  split; by vm_compute.
Qed.

Lemma step_history_example :
  step_history [Example.waiting; Example.running; Example.fresh].
Proof.
  eapply (history_transition _ OrchestrationStepStateV1.WaitingInput (Some (UserInput Example.reference))); [|vm_compute; reflexivity].
  eapply (history_transition _ OrchestrationStepStateV1.Running None); [|vm_compute; reflexivity].
  apply (history_pending (Toy.uuid 1) (Toy.uuid 2) (Toy.uuid 3) ActionAdmission [] Example.policy
    Example.reference Example.reference). vm_compute; reflexivity.
Defined.

Lemma step_history_bounded_and_valid_witness :
  step_history [Example.waiting; Example.running; Example.fresh] /\
  count_running [Example.waiting; Example.running; Example.fresh] <= 1.
Proof.
  split; [exact step_history_example|].
  destruct (step_history_bounded_and_valid _ step_history_example) as (s & hs & [= <- <-] & _ & _ & H & _).
  exact H.
Defined.
