(* ===== verification/Graph.v ===== *)
(** * Graph: the dependency graph of a turn plan ([human_centered/turn.rs])

    [dependency_graph_is_acyclic] (Kahn's algorithm over sorted maps) and
    [dependency_path_exists] (breadth-first search), written over any ordered
    node type.  A [BTreeMap] is a [gmap] whose keys are visited in the order of
    [Ord]; a [VecDeque] used as a queue is a list.  Both loops carry fuel:
    [graph_fuel_suffices] and [path_fuel_suffices] show that the amount used is
    never exhausted, and the two correctness theorems are about the functions
    with that fuel. *)

From stdpp Require Import base list gmap fin_sets fin_maps relations sorting.
From Stdlib Require Import NArith Lia.
From S2P Require Import Prelude.

Definition usize_max : N := u64_max.

(** [*degree -= 1] on [usize], as a release build computes it. *)
Definition wrapping_pred (d : N) : N := if d =? 0 then usize_max else d - 1.

Section graph.
Context {A : Type} `{Countable A, OrdLaws A}.

(** A [BTreeSet]'s elements in iteration order. *)
Definition iter_set (s : gset A) : list A := sort (elements s).

Definition add_edge (st : gmap A (gset A) * gmap A N) (edge : A * A) : gmap A (gset A) * gmap A N :=
  let '(adjacency, indegrees) := st in
  let succs := default ∅ (adjacency !! edge.1) in
  if bool_decide (edge.2 ∈ succs) then (<[edge.1 := succs]> adjacency, indegrees)
  else (<[edge.1 := {[edge.2]} ∪ succs]> adjacency,
        <[edge.2 := default 0 (indegrees !! edge.2) + 1]> indegrees).

(** [for next in next_nodes]: [None] is the early [return false]. *)
Fixpoint release (next_nodes : list A) (indegrees : gmap A N) (ready : list A) :
    option (gmap A N * list A) :=
  match next_nodes with
  | [] => Some (indegrees, ready)
  | next :: next_nodes =>
      match indegrees !! next with
      | None => None
      | Some degree =>
          let degree := wrapping_pred degree in
          release next_nodes (<[next := degree]> indegrees)
            (if degree =? 0 then ready ++ [next] else ready)
      end
  end.

(** [while let Some(node) = ready.pop_front()] *)
Fixpoint drain (fuel : nat) (total : N) (adjacency : gmap A (gset A)) (indegrees : gmap A N)
    (ready : list A) (visited : N) : option bool :=
  match fuel with
  | O => None
  | S fuel =>
      match ready with
      | [] => Some (visited =? total)
      | node :: ready =>
          match adjacency !! node with
          | None => drain fuel total adjacency indegrees ready (visited + 1)
          | Some next_nodes =>
              match release (iter_set next_nodes) indegrees ready with
              | None => Some false
              | Some (indegrees, ready) => drain fuel total adjacency indegrees ready (visited + 1)
              end
          end
      end
  end.

Definition initial_indegrees (nodes : gset A) : gmap A N := gset_to_gmap 0 nodes.
Definition zero_degree (indegrees : gmap A N) : list A :=
  filter (fun node => indegrees !! node = Some 0) (iter_set (dom indegrees)).

Definition drain_fuel (nodes : gset A) : nat := S (size nodes).

Definition dependency_graph_run (nodes : gset A) (edges : list (A * A)) : option bool :=
  let '(adjacency, indegrees) := foldl add_edge (∅, initial_indegrees nodes) edges in
  drain (drain_fuel nodes) (N.of_nat (size nodes)) adjacency indegrees (zero_degree indegrees) 0.
Definition dependency_graph_is_acyclic (nodes : gset A) (edges : list (A * A)) : bool :=
  default false (dependency_graph_run nodes edges).

(** The search: [if !visited.insert(current) { continue; }], then the scan of
    the successors of [current]. *)
Fixpoint search (fuel : nat) (target : A) (edges : list (A * A)) (queue : list A) (visited : gset A) :
    option bool :=
  match fuel with
  | O => None
  | S fuel =>
      match queue with
      | [] => Some false
      | current :: queue =>
          if bool_decide (current ∈ visited) then search fuel target edges queue visited
          else
            let nexts := map snd (filter (fun e => e.1 = current) edges) in
            if existsb (fun next => next == target) nexts then Some true
            else search fuel target edges (queue ++ nexts) ({[current]} ∪ visited)
      end
  end.

Definition path_fuel (edges : list (A * A)) : nat := S (S (length edges)).
Definition dependency_path_run (start target : A) (edges : list (A * A)) : option bool :=
  search (path_fuel edges) target edges [start] ∅.
Definition dependency_path_exists (start target : A) (edges : list (A * A)) : bool :=
  default false (dependency_path_run start target edges).

(** ** Specification *)

Definition edge_of (edges : list (A * A)) (x y : A) : Prop := (x, y) ∈ edges.
#[global] Instance edge_of_dec edges : RelDecision (edge_of edges).
Proof. intros x y. unfold edge_of. apply _. Defined.
Definition acyclic (edges : list (A * A)) : Prop := forall x, ~ tc (edge_of edges) x x.

Implicit Types (edges : list (A * A)) (x y n p : A).

(** ** Breadth-first search *)

Definition unseen (visited : gset A) edges : nat :=
  length (filter (fun e => e.1 ∉ visited) edges).

Lemma unseen_expand visited edges x :
  x ∉ visited ->
  (length (filter (fun e => e.1 = x) edges) + unseen ({[x]} ∪ visited) edges
   = unseen visited edges)%nat.
Proof.
  intros Hx. unfold unseen. induction edges as [|[a b] es IH]; [done|].
  rewrite !filter_cons. repeat case_decide; cbn [length fst] in *; set_solver by lia.
Qed.

Lemma search_total fuel target edges queue visited :
  (length queue + unseen visited edges < fuel)%nat ->
  is_Some (search fuel target edges queue visited).
Proof.
  revert queue visited. induction fuel as [|fuel IH]; intros queue visited Hf; [lia|].
  cbn. destruct queue as [|x queue]; [by eexists|]. cbn in Hf.
  case_bool_decide as Hx; [apply IH; lia|].
  case_match; [by eexists|]. apply IH.
  rewrite length_app, length_map. pose proof (unseen_expand visited edges x Hx). lia.
Qed.

Lemma search_sound fuel start target edges queue visited :
  Forall (rtc (edge_of edges) start) queue ->
  search fuel target edges queue visited = Some true ->
  tc (edge_of edges) start target.
Proof.
  revert queue visited. induction fuel as [|fuel IH]; intros queue visited Hq; [done|].
  cbn. destruct Hq as [|x queue Hx Hq]; [done|].
  case_bool_decide; [by apply IH|]. case_match eqn:E.
  - intros _. apply existsb_true, Exists_exists in E as (y & Hy & E). rewrite bool_decide_true_iff in E. subst y.
    apply list_elem_of_fmap in Hy as ([a b] & -> & [Ha Hb]%list_elem_of_filter). cbn in *. subst a.
    eapply tc_rtc_l; [exact Hx|]. by apply tc_once.
  - apply IH. apply Forall_app. split; [done|]. apply Forall_forall. intros y Hy.
    apply list_elem_of_fmap in Hy as ([a b] & -> & [Ha Hb]%list_elem_of_filter). cbn in *. subst a.
    eapply rtc_r; [exact Hx|]. done.
Qed.

Lemma search_complete fuel target edges queue visited :
  (forall x y, x ∈ visited -> edge_of edges x y -> y <> target /\ (y ∈ visited \/ y ∈ queue)) ->
  search fuel target edges queue visited = Some false ->
  exists closed : gset A, visited ⊆ closed /\ Forall (.∈ closed) queue /\
    forall x y, x ∈ closed -> edge_of edges x y -> y <> target /\ y ∈ closed.
Proof.
  revert queue visited. induction fuel as [|fuel IH]; intros queue visited Hinv; [done|].
  cbn. destruct queue as [|x queue].
  - intros _. exists visited. split; [done|]. split; [constructor|]. set_solver.
  - case_bool_decide as Hx.
    + intros (closed & Hv & Hq & Hc)%IH; [exists closed; split; [done|split; [|done]]|].
      * constructor; [set_solver|done].
      * set_solver.
    + case_match eqn:E; [done|].
      apply existsb_false in E. rewrite Forall_forall in E.
      intros (closed & Hv & Hq & Hc)%IH.
      * exists closed. split; [set_solver|]. split; [|done]. apply Forall_app in Hq as [Hq _].
        constructor; [set_solver|done].
      * intros a y Ha Hy. apply elem_of_union in Ha as [->%elem_of_singleton|Ha].
        -- assert (y ∈ map snd (filter (fun e => e.1 = x) edges)) as Hin.
           { apply list_elem_of_fmap. exists (x, y). split; [done|]. by apply list_elem_of_filter. }
           split; [|set_solver]. apply E in Hin. by rewrite bool_decide_false_iff in Hin.
        -- set_solver.
Qed.

Lemma path_fuel_suffices start target edges :
  is_Some (dependency_path_run start target edges).
Proof.
  apply search_total. assert (unseen ∅ edges <= length edges)%nat by apply length_filter.
  unfold path_fuel. cbn [length]. lia.
Qed.

Lemma path_exists_iff start target edges :
  dependency_path_exists start target edges = true <-> tc (edge_of edges) start target.
Proof.
  unfold dependency_path_exists.
  destruct (path_fuel_suffices start target edges) as [[] Hr]; rewrite Hr; cbn.
  - split; [intros _|done]. eapply search_sound; [|exact Hr]. by repeat constructor.
  - split; [done|]. intros Ht.
    apply search_complete in Hr as (closed & _ & Hs & Hc); [|set_solver].
    apply Forall_inv in Hs. exfalso.
    induction Ht as [x y Hxy|x y z Hxy _ IH]; [by apply Hc in Hxy as []|].
    apply Hc in Hxy as [_ Hy]; [auto|done].
Qed.

(** ** Kahn's algorithm *)

Definition preds edges n : gset A := list_to_set (map fst (filter (fun e => e.2 = n) edges)).
Definition pending edges (visited : list A) n : N :=
  N.of_nat (size (preds edges n ∖ list_to_set visited)).
Definition within (nodes : gset A) edges : Prop :=
  Forall (fun e => e.1 ∈ nodes /\ e.2 ∈ nodes) edges.

Lemma elem_of_preds edges n p : p ∈ preds edges n <-> edge_of edges p n.
Proof.
  unfold preds, edge_of. rewrite elem_of_list_to_set, list_elem_of_fmap. split.
  - intros ([a b] & -> & [Hb Hin]%list_elem_of_filter). cbn in *. by subst.
  - intros Hin. exists (p, n). split; [done|]. by apply list_elem_of_filter.
Qed.

Lemma preds_snoc edges e n :
  preds (edges ++ [e]) n = if decide (e.2 = n) then {[e.1]} ∪ preds edges n else preds edges n.
Proof.
  apply set_eq. intros p. rewrite elem_of_preds. unfold edge_of.
  rewrite elem_of_app, list_elem_of_singleton. destruct e as [a b]. cbn.
  case_decide; [rewrite elem_of_union, elem_of_singleton|]; rewrite elem_of_preds; unfold edge_of;
    naive_solver.
Qed.

(** What the first loop leaves: successor sets, and the number of distinct
    predecessors of every node. *)
Lemma add_edges_spec nodes edges :
  within nodes edges ->
  let st := foldl add_edge (∅, initial_indegrees nodes) edges in
  (forall x y, y ∈ default ∅ (st.1 !! x) <-> edge_of edges x y) /\
  (forall n, st.2 !! n = if decide (n ∈ nodes) then Some (N.of_nat (size (preds edges n))) else None).
Proof.
  intros Hw. cbn zeta. induction edges as [|[a b] edges IH] using rev_ind.
  - cbn. split.
    + intros x y. rewrite lookup_empty. unfold edge_of. set_solver.
    + intros n. unfold initial_indegrees. case_decide.
      * rewrite lookup_gset_to_gmap. by rewrite option_guard_True.
      * rewrite lookup_gset_to_gmap. by rewrite option_guard_False.
  - apply Forall_app in Hw as [Hw [[Ha Hb] _]%Forall_cons]. cbn in Ha, Hb.
    specialize (IH Hw) as [IHa IHi]. rewrite foldl_app. cbn [foldl].
    destruct (foldl _ _ edges) as [adj indeg]. cbn [fst snd] in *. cbn [add_edge fst snd].
    assert (forall x y, edge_of (edges ++ [(a, b)]) x y <-> edge_of edges x y \/ (x = a /\ y = b)) as He.
    { intros x y. unfold edge_of. by rewrite elem_of_app, list_elem_of_singleton, pair_eq. }
    case_bool_decide as Hin; cbn [fst snd].
    + split.
      * intros x y. rewrite He, <- IHa. destruct (decide (a = x)) as [->|].
        -- rewrite lookup_insert_eq. cbn. naive_solver.
        -- rewrite lookup_insert_ne by done. naive_solver.
      * intros n. rewrite IHi, preds_snoc. cbn [fst snd].
        destruct (decide (n ∈ nodes)), (decide (b = n)) as [->|]; try done.
        do 3 f_equal. apply IHa, elem_of_preds in Hin. set_solver.
    + split.
      * intros x y. rewrite He, <- IHa. destruct (decide (a = x)) as [->|].
        -- rewrite lookup_insert_eq. cbn. set_solver.
        -- rewrite lookup_insert_ne by done. naive_solver.
      * intros n. rewrite preds_snoc. cbn [fst snd]. destruct (decide (b = n)) as [->|].
        -- rewrite lookup_insert_eq, IHi, !decide_True by done.
           cbn [from_option]. unfold id. f_equal.
           rewrite size_union, size_singleton; [lia|].
           apply disjoint_singleton_l. by rewrite elem_of_preds, <- IHa.
        -- rewrite lookup_insert_ne by done. apply IHi.
Qed.

(** What releasing the successors of a node does to the degrees and the queue. *)
Lemma release_spec next_nodes indegrees ready :
  NoDup next_nodes ->
  Forall (fun n => exists d, indegrees !! n = Some d /\ d <> 0) next_nodes ->
  exists indegrees' ready',
    release next_nodes indegrees ready = Some (indegrees', ready') /\
    (forall n, indegrees' !! n = if decide (n ∈ next_nodes) then N.pred <$> indegrees !! n
                                 else indegrees !! n) /\
    ready' = ready ++ filter (fun n => indegrees !! n = Some 1) next_nodes.
Proof.
  intros Hn. revert indegrees ready.
  induction Hn as [|x xs Hx Hn IH]; intros indeg ready Hd.
  - eexists _, _. split; [done|]. split; [|cbn; by rewrite app_nil_r].
    intros n. by rewrite decide_False by set_solver.
  - apply Forall_cons in Hd as [(d & Hd & Hd0) Hds]. cbn [release]. rewrite Hd.
    assert (wrapping_pred d = N.pred d) as ->.
    { unfold wrapping_pred. destruct (N.eqb_spec d 0); [done|lia]. }
    edestruct (IH (<[x:=N.pred d]> indeg)
      (if N.pred d =? 0 then ready ++ [x] else ready)) as (indeg' & ready' & -> & Hi & ->).
    { rewrite Forall_forall in Hds |- *. intros n Hn'. rewrite lookup_insert_ne; [auto|]. by intros ->. }
    eexists _, _. split; [done|]. split.
    + intros n. rewrite Hi. destruct (decide (n = x)) as [->|Hne].
      * rewrite decide_False, lookup_insert_eq, decide_True, Hd by (done || by left). done.
      * rewrite lookup_insert_ne by done. do 2 case_decide; set_solver.
    + rewrite filter_cons.
      assert (filter (fun n => <[x:=N.pred d]> indeg !! n = Some 1) xs
              = filter (fun n => indeg !! n = Some 1) xs) as ->.
      { apply filter_ext_in. intros n Hn'. rewrite lookup_insert_ne; [done|]. by intros ->. }
      destruct (N.eqb_spec (N.pred d) 0).
      * rewrite decide_True by (rewrite Hd; f_equal; lia). by rewrite <- app_assoc.
      * rewrite decide_False by (rewrite Hd; intros [=]; lia). done.
Qed.

Lemma pending_zero edges visited n :
  pending edges visited n = 0 <-> forall p, edge_of edges p n -> p ∈ visited.
Proof.
  unfold pending. split.
  - intros Hz p Hp%elem_of_preds. apply dec_stable. intros Hv.
    assert (size (preds edges n ∖ list_to_set visited) = O) as Hs by lia.
    apply size_empty_inv in Hs. set_solver.
  - intros Hp. assert (preds edges n ∖ list_to_set visited ≡ ∅) as ->; [|by rewrite size_empty].
    intros p. rewrite elem_of_difference, elem_of_preds, elem_of_list_to_set. set_solver.
Qed.

Lemma pending_visit edges visited x n :
  x ∉ visited ->
  pending edges visited n =
    if decide (edge_of edges x n) then pending edges (visited ++ [x]) n + 1
    else pending edges (visited ++ [x]) n.
Proof.
  intros Hx. unfold pending. rewrite list_to_set_app_L. cbn [list_to_set].
  case_decide as He.
  - assert (preds edges n ∖ list_to_set visited
      = {[x]} ∪ preds edges n ∖ (list_to_set visited ∪ ({[x]} ∪ ∅))) as ->.
    { apply set_eq. intros p. rewrite elem_of_union, !elem_of_difference, !elem_of_union,
        !elem_of_singleton, elem_of_list_to_set, elem_of_preds.
      destruct (decide (p = x)); set_solver. }
    rewrite size_union, size_singleton; [lia|]. set_solver.
  - do 2 f_equal. apply set_eq. intros p. rewrite !elem_of_difference, !elem_of_union,
      !elem_of_singleton, elem_of_list_to_set, elem_of_preds.
    destruct (decide (p = x)) as [->|]; set_solver.
Qed.

Section drain_invariant.
Context (nodes : gset A) (edges : list (A * A)) (adjacency : gmap A (gset A)).
Context (Hwithin : within nodes edges).
Context (Hadj : forall x y, y ∈ default ∅ (adjacency !! x) <-> edge_of edges x y).

(** [visited] lists the nodes popped so far, oldest first: it is a prefix of
    a topological order, the degrees count the predecessors still to come,
    and the queue holds exactly the unvisited nodes with none left. *)
Record drain_inv (visited ready : list A) (indegrees : gmap A N) : Prop := {
  di_nodup : NoDup (visited ++ ready);
  di_degree : forall n, indegrees !! n =
    if decide (n ∈ nodes) then Some (pending edges visited n) else None;
  di_ready : forall n, n ∈ visited ++ ready <-> n ∈ nodes /\ pending edges visited n = 0;
  di_topological : forall i x p, visited !! i = Some x -> edge_of edges p x ->
    exists j, (j < i)%nat /\ visited !! j = Some p;
}.

(** What one iteration takes of the adjacency: the degrees of the successors go down by
    one, and those that reach zero join the queue. *)
Lemma release_successors visited x ready (indegrees : gmap A N) :
  x ∉ visited ->
  (forall n, indegrees !! n = if decide (n ∈ nodes) then Some (pending edges visited n) else None) ->
  exists indegrees' fresh,
    match adjacency !! x with
    | None => Some (indegrees, ready)
    | Some next_nodes => release (iter_set next_nodes) indegrees ready
    end = Some (indegrees', ready ++ fresh) /\
    (forall n, indegrees' !! n = if decide (edge_of edges x n) then N.pred <$> indegrees !! n
                                 else indegrees !! n) /\
    NoDup fresh /\ forall n, n ∈ fresh <-> edge_of edges x n /\ indegrees !! n = Some 1.
Proof.
  intros Hxv Hdeg. specialize (Hadj x).
  destruct (adjacency !! x) as [succs|]; cbn in Hadj.
  - destruct (release_spec (iter_set succs) indegrees ready) as (indeg' & ready' & -> & Hi & ->).
    + unfold iter_set. rewrite sort_perm. apply NoDup_elements.
    + apply Forall_forall. intros n. unfold iter_set. rewrite elem_of_sort, elem_of_elements, Hadj.
      intros Hn. exists (pending edges visited n). rewrite Hdeg, decide_True.
      2:{ unfold within in Hwithin. rewrite Forall_forall in Hwithin. by apply Hwithin in Hn as [_ ?]. }
      split; [done|]. intros Hz. apply Hxv. by eapply pending_zero.
    + eexists _, _. split; [done|]. unfold iter_set in *. split_and!.
      * intros n. rewrite Hi. do 2 case_decide; rewrite elem_of_sort, elem_of_elements, Hadj in *; tauto.
      * apply NoDup_filter. rewrite sort_perm. apply NoDup_elements.
      * intros n. rewrite list_elem_of_filter, elem_of_sort, elem_of_elements, Hadj. tauto.
  - exists indegrees, []. rewrite app_nil_r. split_and!; [done| |constructor|].
    + intros n. rewrite decide_False; [done|]. intros He%Hadj. set_solver.
    + intros n. rewrite <- Hadj. set_solver.
Qed.

(** The nodes that join the queue have no predecessor left to come. *)
Lemma freed_nodes visited x (indegrees : gmap A N) (fresh : list A) :
  x ∉ visited ->
  (forall n, indegrees !! n = if decide (n ∈ nodes) then Some (pending edges visited n) else None) ->
  (forall n, n ∈ fresh <-> edge_of edges x n /\ indegrees !! n = Some 1) ->
  forall n, n ∈ fresh <-> n ∈ nodes /\ edge_of edges x n /\ pending edges (visited ++ [x]) n = 0.
Proof.
  intros Hxv Hdeg Hf n. rewrite Hf, Hdeg. pose proof (pending_visit edges visited x n Hxv) as Hp. split.
  - intros [He Hs]. rewrite decide_True in Hp by done. case_decide; [|done].
    injection Hs as Hs. split_and!; [done..|lia].
  - intros (Hn & He & Hz). rewrite decide_True in Hp by done. rewrite decide_True by done.
    split; [done|]. f_equal. lia.
Qed.

(** One iteration of the loop. *)
Lemma drain_step visited x ready indegrees :
  drain_inv visited (x :: ready) indegrees ->
  exists indegrees' ready',
    match adjacency !! x with
    | None => Some (indegrees, ready)
    | Some next_nodes => release (iter_set next_nodes) indegrees ready
    end = Some (indegrees', ready') /\
    drain_inv (visited ++ [x]) ready' indegrees'.
Proof.
  intros [Hnd Hdeg Hrdy Htop].
  assert (x ∉ visited) as Hxv.
  { apply NoDup_app in Hnd as (_ & Hd & _). intros Hin. apply (Hd x Hin). by left. }
  destruct (release_successors visited x ready indegrees Hxv Hdeg) as (indeg' & fresh & Hrel & Hdeg' & Hfn & Hf).
  pose proof (freed_nodes visited x indegrees fresh Hxv Hdeg Hf) as Hf2.
  eexists _, _. split; [exact Hrel|]. split.
  - rewrite <- app_assoc. cbn [app]. rewrite (app_comm_cons ready fresh x), app_assoc.
    apply NoDup_app. split; [done|]. split; [|done]. intros n Hn Hnf.
    apply Hrdy in Hn as [_ Hz]. apply Hf2 in Hnf as (_ & He & _).
    apply Hxv. by eapply pending_zero.
  - intros n. rewrite Hdeg', Hdeg. pose proof (pending_visit edges visited x n Hxv) as Hp.
    destruct (decide (edge_of edges x n)), (decide (n ∈ nodes)); try done; cbn; f_equal; lia.
  - intros n. rewrite <- app_assoc. cbn [app]. rewrite (app_comm_cons ready fresh x), app_assoc, elem_of_app.
    rewrite Hrdy, Hf2. pose proof (pending_visit edges visited x n Hxv) as Hp.
    case_decide as He; split; intros Hn.
    + destruct Hn as [[? ?]|(? & _ & ?)]; [lia|done].
    + right. tauto.
    + destruct Hn as [[? ?]|(? & ? & ?)]; [split; [done|lia]|done].
    + left. split; [tauto|lia].
  - intros i y p Hi He. apply lookup_app_Some in Hi as [Hi|[Hge Hi]].
    + destruct (Htop _ _ _ Hi He) as (j & ? & ?). exists j. split; [done|]. by apply lookup_app_l_Some.
    + destruct (i - length visited)%nat as [|k] eqn:Hk; [|by destruct k]. injection Hi as <-.
      assert (x ∈ visited ++ x :: ready) as [_ Hz]%Hrdy by set_solver.
      rewrite pending_zero in Hz. apply Hz, list_elem_of_lookup in He as [j Hj].
      exists j. split; [apply lookup_lt_Some in Hj; lia|]. by apply lookup_app_l_Some.
Qed.

Lemma visited_bound visited ready indegrees :
  drain_inv visited ready indegrees -> (length visited + length ready <= size nodes)%nat.
Proof.
  intros [Hnd _ Hrdy _]. rewrite <- length_app, <- (size_list_to_set (C:=gset A)) by done.
  apply subseteq_size. intros n. rewrite elem_of_list_to_set, Hrdy. tauto.
Qed.

(** The loop ends within its fuel, in a state where the invariant holds and
    the queue is empty. *)
Lemma drain_result fuel visited ready indegrees :
  drain_inv visited ready indegrees -> (size nodes < fuel + length visited)%nat ->
  exists visited' indegrees', drain_inv visited' [] indegrees' /\
    drain fuel (N.of_nat (size nodes)) adjacency indegrees ready (lenN visited)
      = Some (bool_decide (length visited' = size nodes)).
Proof.
  revert visited ready indegrees. induction fuel as [|fuel IH]; intros visited ready indeg Hinv Hf.
  { apply visited_bound in Hinv. lia. }
  cbn [drain]. destruct ready as [|x ready].
  - exists visited, indeg. split; [done|]. f_equal. unfold lenN.
    destruct (N.eqb_spec (N.of_nat (length visited)) (N.of_nat (size nodes)));
      symmetry; [apply bool_decide_true_iff|apply bool_decide_false_iff]; lia.
  - apply drain_step in Hinv as (indeg' & ready' & Hrel & Hinv).
    edestruct (IH _ _ _ Hinv) as (visited' & indeg'' & Hinv' & Hd).
    { rewrite length_app. cbn. lia. }
    exists visited', indeg''. split; [done|]. rewrite <- Hd.
    assert (lenN (visited ++ [x]) = lenN visited + 1) as ->
      by (unfold lenN; rewrite length_app; cbn; lia).
    destruct (adjacency !! x); [by rewrite Hrel|]. by injection Hrel as -> ->.
Qed.

Lemma drain_inv_initial indegrees :
  (forall n, indegrees !! n = if decide (n ∈ nodes) then Some (N.of_nat (size (preds edges n))) else None) ->
  drain_inv [] (zero_degree indegrees) indegrees.
Proof.
  intros Hi.
  assert (forall n, pending edges [] n = N.of_nat (size (preds edges n))) as Hp.
  { intros n. unfold pending. cbn [list_to_set]. by rewrite difference_empty_L. }
  split.
  - cbn. unfold zero_degree, iter_set. apply NoDup_filter. rewrite sort_perm. apply NoDup_elements.
  - intros n. by rewrite Hi, Hp.
  - intros n. cbn. unfold zero_degree, iter_set.
    rewrite list_elem_of_filter, elem_of_sort, elem_of_elements, elem_of_dom, Hi, Hp.
    case_decide; [|naive_solver]. split; [intros [[= ->] _]; done|].
    intros [_ ->]. split; [done|by eexists].
  - intros i x p Hx. by rewrite lookup_nil in Hx.
Qed.

(** With the queue empty, every node was visited exactly when there is no
    cycle. *)
Lemma drain_inv_final visited indegrees :
  drain_inv visited [] indegrees -> (length visited = size nodes <-> acyclic edges).
Proof.
  intros [Hnd Hdeg Hrdy Htop]. rewrite app_nil_r in *. split.
  - intros Hlen x Hc.
    assert (forall n p, n ∈ nodes -> tc (edge_of edges) p n -> forall i, visited !! i = Some n ->
      exists j, (j < i)%nat /\ visited !! j = Some p) as Hback.
    { intros n p _ Ht. induction Ht as [p n Hpn|p y n Hpy Hyn IH]; intros i Hi.
      - by eapply Htop.
      - destruct (IH _ Hi) as (j & Hj & Hy). destruct (Htop _ _ _ Hy Hpy) as (k & Hk & Hp).
        exists k. split; [lia|done]. }
    assert (x ∈ nodes) as Hxn.
    { unfold within in Hwithin. rewrite Forall_forall in Hwithin.
      inversion Hc; subst; by match goal with H : edge_of _ _ _ |- _ => apply Hwithin in H as [? ?] end. }
    assert (x ∈ visited) as [i Hi]%list_elem_of_lookup.
    { assert (list_to_set visited =@{gset A} nodes) as Hall.
      { apply set_subseteq_size_eq; [|rewrite size_list_to_set by done; lia].
        intros n. rewrite elem_of_list_to_set, Hrdy. tauto. }
      rewrite <- Hall in Hxn. by apply elem_of_list_to_set in Hxn. }
    destruct (Hback x x Hxn Hc i Hi) as (j & Hj & Hx).
    rewrite (NoDup_lookup _ _ _ _ Hnd Hx Hi) in Hj. lia.
  - intros Hac. rewrite <- (size_list_to_set (C:=gset A)) by done. f_equal.
    apply set_eq. intros n. rewrite elem_of_list_to_set. split; [rewrite Hrdy; tauto|].
    intros Hn. assert (sn (flip (edge_of edges)) n) as Hsn.
    { apply tc_finite_sn.
      - intros y Hy. apply (Hac y). clear -Hy. revert Hy.
        assert (forall a b, tc (flip (edge_of edges)) a b -> tc (edge_of edges) b a) as Hflip; [|auto].
        induction 1 as [a b Hab|a b c Hab _ IH]; [by apply tc_once|]. by eapply tc_r.
      - exists (elements nodes). intros y Hy. apply elem_of_elements. unfold within in Hwithin.
        rewrite Forall_forall in Hwithin. clear -Hy Hwithin.
        induction Hy as [a b Hab|a b c _ _ IH]; [|done]. by apply Hwithin in Hab as [? ?]. }
    induction Hsn as [n _ IH]. rewrite Hrdy. split; [done|]. apply pending_zero. intros p Hp.
    apply IH; [done|]. unfold within in Hwithin. rewrite Forall_forall in Hwithin.
    by apply Hwithin in Hp as [? _].
Qed.
End drain_invariant.

Lemma graph_run_result nodes edges :
  within nodes edges ->
  exists b, dependency_graph_run nodes edges = Some b /\ (b = true <-> acyclic edges).
Proof.
  intros Hw. unfold dependency_graph_run.
  pose proof (add_edges_spec nodes edges Hw) as [Ha Hi].
  destruct (foldl _ _ _) as [adjacency indegrees]. cbn [fst snd] in *.
  destruct (drain_result nodes edges adjacency Hw Ha (drain_fuel nodes) [] (zero_degree indegrees) indegrees)
    as (visited & indeg' & Hinv & Hd).
  - by eapply drain_inv_initial.
  - unfold drain_fuel. cbn. lia.
  - eexists. split; [exact Hd|]. rewrite bool_decide_true_iff. by eapply drain_inv_final.
Qed.

Lemma graph_fuel_suffices nodes edges :
  within nodes edges -> is_Some (dependency_graph_run nodes edges).
Proof. intros (b & -> & _)%graph_run_result. by eexists. Qed.

Lemma acyclic_iff nodes edges :
  within nodes edges -> (dependency_graph_is_acyclic nodes edges = true <-> acyclic edges).
Proof.
  intros (b & Hr & Hb)%graph_run_result. unfold dependency_graph_is_acyclic. by rewrite Hr.
Qed.
End graph.

(** C37. On edges between known nodes the topological sort terminates and answers
    true exactly when no node reaches itself along one or more edges. *)
Theorem kahn_decides_acyclicity {A} `{Countable A, !Ord A, !OrdLaws A} (nodes : gset A) (edges : list (A * A)) :
  within nodes edges ->
  is_Some (dependency_graph_run nodes edges) /\
  (dependency_graph_is_acyclic nodes edges = true <-> acyclic edges).
Proof. intros Hw. split; [by apply graph_fuel_suffices|by apply acyclic_iff]. Qed.

Lemma kahn_decides_acyclicity_witness :
  let edges : list (N * N) := [(1, 2); (2, 3); (1, 2); (3, 1)] in
  within (A:=N) {[1; 2; 3]} edges /\ ~ acyclic edges.
Proof.
  cbn zeta. split.
  - unfold within. repeat constructor; set_solver.
  - intros Ha. eapply (kahn_decides_acyclicity (A:=N) {[1; 2; 3]}) in Ha.
    + vm_compute in Ha. discriminate Ha.
    + unfold within. repeat constructor; set_solver.
Defined.

(** The breadth-first search terminates and answers true exactly when a path
    of one or more edges leads from the start to the target. *)
Theorem search_decides_reachability {A} `{Countable A, !Ord A, !OrdLaws A} (start target : A) (edges : list (A * A)) :
  is_Some (dependency_path_run start target edges) /\
  (dependency_path_exists start target edges = true <-> tc (edge_of edges) start target).
Proof. split; [apply path_fuel_suffices|apply path_exists_iff]. Qed.

Lemma search_decides_reachability_witness :
  let edges : list (N * N) := [(1, 2); (2, 3); (3, 2)] in
  is_Some (dependency_path_run 1 3 edges) /\ tc (edge_of edges) 1 3.
Proof.
  cbn zeta. destruct (search_decides_reachability (A:=N) 1 3 [(1, 2); (2, 3); (3, 2)]) as [Ht Hd].
  split; [exact Ht|]. apply Hd. vm_compute. reflexivity.
Defined.
