(* ===== verification/Intent.v ===== *)
(** * Intent: ranked hypotheses and the intent contract ([human_centered/intent.rs])

    A [BTreeSet] that is only tested and counted is a [gset]; one that is
    iterated is read in the order of [Ord].  [value as u16] is the value modulo
    [2^16]. *)

From stdpp Require Import base list gmap fin_sets sorting strings.
From Stdlib Require Import NArith Lia.
From S2P Require Import Prelude Text Json Crates Common Contract.

Inductive IntentResolutionMethodV1 : Type := DeterministicFastPath | FullPath.
#[export] Instance method_eq_dec : EqDecision IntentResolutionMethodV1.
Proof. solve_decision. Defined.
#[export] Instance method_json : ToJson IntentResolutionMethodV1 := fun m =>
  Str (txt match m with
  | DeterministicFastPath => "deterministic_fast_path" | FullPath => "full_path" end).
#[export] Instance method_json_inj : JsonInj IntentResolutionMethodV1.
Proof. by intros [] [] [=]. Qed.

Module IntentHypothesisV1.
Record t := mk {
  hypothesis_ref : ReferenceV1.t;
  intent_name : text;
  confidence : UnitIntervalBasisPointsV1.t;
  supporting_evidence_refs : list ReferenceV1.t;
  contradicting_evidence_refs : list ReferenceV1.t;
}.

#[global] Instance to_json : ToJson t := fun h =>
  Obj [(txt "hypothesis_ref", Json.to_json (hypothesis_ref h));
       (txt "intent_name", Json.to_json (intent_name h));
       (txt "confidence", Json.to_json (confidence h));
       (txt "supporting_evidence_refs", Json.to_json (supporting_evidence_refs h));
       (txt "contradicting_evidence_refs", Json.to_json (contradicting_evidence_refs h))].
#[global] Instance json_inj : JsonInj t.
Proof. solve_json_inj. Qed.

Definition validate (h : t) : Checked unit :=
  _ ← validate_required_text (intent_name h);
  reject blank (hypothesis_ref h)
         || existsb (fun reference => contains reference (contradicting_evidence_refs h))
              (supporting_evidence_refs h)
    with InvalidContract;
  Ok tt.

Definition new (hypothesis_ref : ReferenceV1.t) (intent_name : text)
    (confidence : UnitIntervalBasisPointsV1.t)
    (supporting_evidence_refs contradicting_evidence_refs : list ReferenceV1.t) : Checked t :=
  supporting_evidence_refs ← canonical_references supporting_evidence_refs;
  contradicting_evidence_refs ← canonical_references contradicting_evidence_refs;
  let value := mk hypothesis_ref intent_name confidence supporting_evidence_refs
    contradicting_evidence_refs in
  _ ← validate value;
  Ok value.
End IntentHypothesisV1.

Module RankedIntentHypothesisV1.
Record t := mk { hypothesis : IntentHypothesisV1.t; rank : N }.

#[global] Instance to_json : ToJson t := fun r =>
  Obj [(txt "hypothesis", Json.to_json (hypothesis r)); (txt "rank", Json.to_json (rank r))].
#[global] Instance json_inj : JsonInj t.
Proof. solve_json_inj. Qed.

Definition new (hypothesis : IntentHypothesisV1.t) (rank : N) : Checked t :=
  _ ← IntentHypothesisV1.validate hypothesis;
  reject rank =? 0 with InvalidContract;
  Ok (mk hypothesis rank).
End RankedIntentHypothesisV1.

Inductive HumanModelEffectKindV1 : Type :=
| ReorderedBaseHypothesis | AddedPersonalizedHypothesis | ExposedModelExpressionConflict.
#[export] Instance effect_kind_json : ToJson HumanModelEffectKindV1 := fun k =>
  Str (txt match k with
  | ReorderedBaseHypothesis => "reordered_base_hypothesis"
  | AddedPersonalizedHypothesis => "added_personalized_hypothesis"
  | ExposedModelExpressionConflict => "exposed_model_expression_conflict" end).
#[export] Instance effect_kind_json_inj : JsonInj HumanModelEffectKindV1.
Proof. by intros [] [] [=]. Qed.

Module HumanModelIntentEffectV1.
Record t := mk {
  assertion_ref : ContractRef;
  effect_kind : HumanModelEffectKindV1;
  affected_hypothesis_ref : ReferenceV1.t;
  base_rank : option N;
  personalized_rank : N;
  explanation_ref : ReferenceV1.t;
}.

Section with_crates.
Context {C : Crates}.
#[global] Instance to_json : ToJson t := fun e =>
  Obj [(txt "assertion_ref", Json.to_json (assertion_ref e));
       (txt "effect_kind", Json.to_json (effect_kind e));
       (txt "affected_hypothesis_ref", Json.to_json (affected_hypothesis_ref e));
       (txt "base_rank", Json.to_json (base_rank e));
       (txt "personalized_rank", Json.to_json (personalized_rank e));
       (txt "explanation_ref", Json.to_json (explanation_ref e))].
#[global] Instance json_inj {L : CratesLaws} : JsonInj t.
Proof. solve_json_inj. Qed.
End with_crates.

Definition new (assertion_ref : ContractRef) (effect_kind : HumanModelEffectKindV1)
    (affected_hypothesis_ref : ReferenceV1.t) (base_rank : option N) (personalized_rank : N)
    (explanation_ref : ReferenceV1.t) : Checked t :=
  _ ← HumanCenteredContractRefV1.validate assertion_ref;
  reject (HumanCenteredContractRefV1.kind assertion_ref != KHumanModelAssertion)
         || (personalized_rank =? 0) || (base_rank == Some 0)
    with InvalidContract;
  Ok (mk assertion_ref effect_kind affected_hypothesis_ref base_rank personalized_rank
    explanation_ref).
End HumanModelIntentEffectV1.

(** ** Ranked hypotheses *)

Definition hypothesis_name (r : RankedIntentHypothesisV1.t) : text :=
  ReferenceV1.as_str (IntentHypothesisV1.hypothesis_ref (RankedIntentHypothesisV1.hypothesis r)).

(** The loop of [validate_ranked_hypotheses]: [BTreeSet::insert] tells whether
    the rank was new, [BTreeMap::insert] whether the reference was there. *)
Fixpoint collect_ranks (values : list RankedIntentHypothesisV1.t) (ranks : gset N)
    (references : gmap text N) : Checked (gset N) :=
  match values with
  | [] => Ok ranks
  | value :: values =>
      let rank := RankedIntentHypothesisV1.rank value in
      _ ← IntentHypothesisV1.validate (RankedIntentHypothesisV1.hypothesis value);
      reject (rank =? 0) || bool_decide (rank ∈ ranks)
             || is_some (references !! hypothesis_name value)
        with InvalidContract;
      collect_ranks values ({[rank]} ∪ ranks) (<[hypothesis_name value := rank]> references)
  end.

(** [(1..=values.len()).map(|value| value as u16)] *)
Definition expected_ranks {A} (values : list A) : list N :=
  map (fun v => N.of_nat v mod 65536) (seq 1 (length values)).

Definition validate_ranked_hypotheses (values : list RankedIntentHypothesisV1.t) : Checked unit :=
  reject 256 <? lenN values with CollectionLimitExceeded;
  ranks ← collect_ranks values ∅ ∅;
  reject sort (elements ranks) != expected_ranks values with InvalidContract;
  Ok tt.

Lemma expected_ranks_plain {A} (values : list A) :
  lenN values <= 256 -> expected_ranks values = map N.of_nat (seq 1 (length values)).
Proof.
  unfold expected_ranks, lenN. intros Hl. apply map_ext_in. intros v Hv%in_seq.
  apply N.mod_small. lia.
Qed.

Lemma union_shuffle (x y z : gset N) : x ∪ (y ∪ z) = y ∪ x ∪ z.
Proof. set_solver. Qed.

Lemma collect_ranks_Ok values ranks references ranks' :
  collect_ranks values ranks references = Ok ranks' <->
  Forall (fun v => IntentHypothesisV1.validate (RankedIntentHypothesisV1.hypothesis v) = Ok tt /\
                   RankedIntentHypothesisV1.rank v <> 0 /\
                   RankedIntentHypothesisV1.rank v ∉ ranks /\
                   references !! hypothesis_name v = None) values /\
  NoDup (map RankedIntentHypothesisV1.rank values) /\ NoDup (map hypothesis_name values) /\
  ranks' = list_to_set (map RankedIntentHypothesisV1.rank values) ∪ ranks.
Proof.
  revert ranks references. induction values as [|v vs IH]; intros ranks refs; cbn [collect_ranks map].
  - rewrite !NoDup_nil, Forall_nil. cbn. rewrite (left_id_L ∅ (∪)). split; [intros [= ->]; done|].
    by intros (_ & _ & _ & ->).
  - rewrite bind_Ok, Forall_cons, !NoDup_cons, !list_elem_of_fmap. cbn [list_to_set].
    split.
    + intros ([] & Hv & H). rewrite reject_Ok, !orb_false_iff, N.eqb_neq, bool_decide_false_iff,
        is_some_false in H. destruct H as [[[Hz Hr] Hn] H].
      apply IH in H as (Hf & Hd1 & Hd2 & ->).
      split; [split; [done|]|].
      * eapply Forall_impl; [exact Hf|]. cbn. intros w (? & ? & Hw & Hl).
        apply lookup_insert_None in Hl as [? ?]. apply not_elem_of_union in Hw as [_ ?]. done.
      * rewrite Forall_forall in Hf. split; [split; [|done]|split; [split; [|done]|by rewrite union_shuffle]].
        -- intros (w & Hw & Hin). apply Hf in Hin as (_ & _ & Hin & _). apply Hin. rewrite Hw. apply elem_of_union_l, elem_of_singleton_2. done.
        -- intros (w & Hw & Hin). apply Hf in Hin as (_ & _ & _ & Hin).
           apply lookup_insert_None in Hin as [_ ?]. done.
    + intros ([(Hv & Hz & Hr & Hn) Hf] & [Hr1 Hd1] & [Hn1 Hd2] & ->). exists tt. split; [done|].
      rewrite reject_Ok, !orb_false_iff, N.eqb_neq, bool_decide_false_iff, is_some_false.
      split; [done|]. apply IH. rewrite Forall_forall in Hf |- *.
      split; [|split; [done|split; [done|by rewrite union_shuffle]]].
      intros w Hw. destruct (Hf w Hw) as (? & ? & ? & ?). split; [done|]. split; [done|].
      split.
      * intros [Hx%elem_of_singleton|]%elem_of_union; [|done]. apply Hr1. by exists w.
      * apply lookup_insert_None. split; [done|]. intros Hx. apply Hn1. by exists w.
Qed.

Lemma StronglySorted_seq a n : StronglySorted ord_le (map N.of_nat (seq a n)).
Proof.
  revert a. induction n as [|n IH]; intros a; [constructor|]. cbn. constructor; [apply IH|].
  apply Forall_forall. intros x (y & -> & Hy)%list_elem_of_fmap. apply elem_of_seq in Hy.
  unfold ord_le, cmp, ord_N. apply N.compare_le_iff. lia.
Qed.

Lemma ranked_Ok values :
  validate_ranked_hypotheses values = Ok tt <->
  lenN values <= 256 /\
  Forall (fun v => IntentHypothesisV1.validate (RankedIntentHypothesisV1.hypothesis v) = Ok tt) values /\
  NoDup (map hypothesis_name values) /\
  map RankedIntentHypothesisV1.rank values ≡ₚ map N.of_nat (seq 1 (length values)).
Proof.
  unfold validate_ranked_hypotheses. rewrite reject_Ok, N.ltb_ge, bind_Ok.
  assert (forall ranks : gset N, sort (elements ranks) != map N.of_nat (seq 1 (length values)) = false <->
    elements ranks ≡ₚ map N.of_nat (seq 1 (length values))) as Hs.
  { intros ranks. rewrite negb_false_iff, bool_decide_true_iff. split.
    - intros <-. symmetry. apply sort_perm.
    - intros Hp. rewrite (sort_perm_eq _ _ Hp). apply sort_id, StronglySorted_seq. }
  split.
  - intros (Hl & ranks & (Hf & Hd1 & Hd2 & ->)%collect_ranks_Ok & H). rewrite reject_Ok in H.
    rewrite expected_ranks_plain in H by done. destruct H as [H _]. rewrite Hs in H.
    rewrite union_empty_r_L, elements_list_to_set in H by done.
    split; [done|]. split; [|done]. eapply Forall_impl; [exact Hf|]. naive_solver.
  - intros (Hl & Hf & Hd2 & Hp). split; [done|].
    assert (NoDup (map RankedIntentHypothesisV1.rank values)) as Hd1.
    { rewrite Hp. apply NoDup_fmap; [intros ? ?; lia|apply NoDup_seq]. }
    exists (list_to_set (map RankedIntentHypothesisV1.rank values) ∪ ∅). split.
    + apply collect_ranks_Ok. split; [|done]. rewrite Forall_forall in Hf |- *. intros v Hv.
      split; [auto|]. split; [|split; [apply not_elem_of_empty|by rewrite lookup_empty]].
      intros Hz. assert (RankedIntentHypothesisV1.rank v ∈ map N.of_nat (seq 1 (length values))) as Hin.
      { rewrite <- Hp. apply list_elem_of_fmap. eauto. }
      apply list_elem_of_fmap in Hin as (n & Hn & Hin). apply elem_of_seq in Hin. lia.
    + rewrite reject_Ok, expected_ranks_plain by done. split; [|done]. rewrite Hs.
      by rewrite union_empty_r_L, elements_list_to_set.
Qed.

(** ** The contract *)

Module IntentContractV1.
Record t := mk {
  metadata : Metadata;
  user_stated_intent_ref : ReferenceV1.t;
  base_hypotheses : list RankedIntentHypothesisV1.t;
  personalized_hypotheses : list RankedIntentHypothesisV1.t;
  primary_hypothesis_ref : ReferenceV1.t;
  confidence : UnitIntervalBasisPointsV1.t;
  ambiguity : bool;
  clarification_required : bool;
  human_model_effects : list HumanModelIntentEffectV1.t;
  resolution_method : IntentResolutionMethodV1;
  record_digest : text;
}.

Definition set_record_digest (d : text) (c : t) : t :=
  mk (metadata c) (user_stated_intent_ref c) (base_hypotheses c) (personalized_hypotheses c)
    (primary_hypothesis_ref c) (confidence c) (ambiguity c) (clarification_required c)
    (human_model_effects c) (resolution_method c) d.

Section with_crates.
Context {C : Crates}.
Definition digest_input (c : t) : Value :=
  Arr [Json.to_json (metadata c); Json.to_json (user_stated_intent_ref c);
       Json.to_json (base_hypotheses c); Json.to_json (personalized_hypotheses c);
       Json.to_json (primary_hypothesis_ref c); Json.to_json (confidence c);
       Json.to_json (ambiguity c); Json.to_json (clarification_required c);
       Json.to_json (human_model_effects c); Json.to_json (resolution_method c)].

(** [base_refs] and [personalized_refs] *)
Definition hypothesis_refs (values : list RankedIntentHypothesisV1.t) : gset text :=
  list_to_set (map hypothesis_name values).

Definition validate (c : t) : Checked unit :=
  _ ← HumanCenteredContractMetadataV1.validate (metadata c);
  reject HumanCenteredContractMetadataV1.contract_kind (metadata c) != KIntent
    with ContractKindMismatch;
  _ ← validate_ranked_hypotheses (base_hypotheses c);
  _ ← validate_ranked_hypotheses (personalized_hypotheses c);
  reject blank (user_stated_intent_ref c) || is_nil (base_hypotheses c)
         || is_nil (personalized_hypotheses c)
    with InvalidContract;
  let base_refs := hypothesis_refs (base_hypotheses c) in
  let personalized_refs := hypothesis_refs (personalized_hypotheses c) in
  reject negb (bool_decide (base_refs ⊆ personalized_refs))
         || negb (bool_decide (ReferenceV1.as_str (primary_hypothesis_ref c) ∈ personalized_refs))
         || ((resolution_method c == DeterministicFastPath)
             && (negb (is_nil (human_model_effects c)) || (base_refs != personalized_refs)))
         || existsb (fun effect =>
              negb (contains (HumanModelIntentEffectV1.assertion_ref effect)
                      (HumanCenteredContractMetadataV1.dependency_refs (metadata c))))
              (human_model_effects c)
    with InvalidContract;
  check_record_digest "intent-contract-v1" digest_input record_digest c.

Definition issue (metadata : Metadata) (user_stated_intent_ref : ReferenceV1.t)
    (base_hypotheses personalized_hypotheses : list RankedIntentHypothesisV1.t)
    (primary_hypothesis_ref : ReferenceV1.t) (confidence : UnitIntervalBasisPointsV1.t)
    (ambiguity clarification_required : bool)
    (human_model_effects : list HumanModelIntentEffectV1.t)
    (resolution_method : IntentResolutionMethodV1) : Checked t :=
  seal "intent-contract-v1" digest_input set_record_digest validate
    (mk metadata user_stated_intent_ref base_hypotheses personalized_hypotheses
       primary_hypothesis_ref confidence ambiguity clarification_required human_model_effects
       resolution_method []).

Definition record_ref : t -> Checked ContractRef :=
  name_contract KIntent metadata record_digest validate.

#[global] Instance to_json : ToJson t := fun c =>
  Obj [(txt "metadata", Json.to_json (metadata c));
       (txt "user_stated_intent_ref", Json.to_json (user_stated_intent_ref c));
       (txt "base_hypotheses", Json.to_json (base_hypotheses c));
       (txt "personalized_hypotheses", Json.to_json (personalized_hypotheses c));
       (txt "primary_hypothesis_ref", Json.to_json (primary_hypothesis_ref c));
       (txt "confidence", Json.to_json (confidence c));
       (txt "ambiguity", Json.to_json (ambiguity c));
       (txt "clarification_required", Json.to_json (clarification_required c));
       (txt "human_model_effects", Json.to_json (human_model_effects c));
       (txt "resolution_method", Json.to_json (resolution_method c));
       (txt "record_digest", Json.to_json (record_digest c))].

#[global] Instance contract : Contract t := {
  contract_kind_of := KIntent;
  contract_domain := "intent-contract-v1";
  contract_metadata := metadata;
  contract_record_digest := record_digest;
  with_record_digest := set_record_digest;
  contract_digest_input := digest_input;
  contract_validate := validate;
  contract_record_ref := record_ref;
}.
#[global] Instance contract_laws : ContractLaws t.
Proof.
  split; [|done|done|].
  - intros c H. cbn in H. unfold validate in H. solve_contract_valid.
  - intros L [] [] _ _ H E. cbn in H, E. unfold digest_input in H. solve_digest_inj H.
Qed.
End with_crates.
End IntentContractV1.

(** What a list of ranked hypotheses must be: at most 256 valid hypotheses under
    distinct references, ranked by exactly the numbers from 1. *)
Definition well_ranked (values : list RankedIntentHypothesisV1.t) : Prop :=
  lenN values <= 256 /\
  Forall (fun v => IntentHypothesisV1.validate (RankedIntentHypothesisV1.hypothesis v) = Ok tt) values /\
  NoDup (map hypothesis_name values) /\
  map RankedIntentHypothesisV1.rank values ≡ₚ map N.of_nat (seq 1 (length values)).

(** The rank check accepts exactly the lists whose ranks are a permutation of
    1, ..., n and whose hypotheses are valid and distinct: no rank is missing,
    repeated, zero or wrapped around. *)
Theorem ranking_is_a_permutation values :
  validate_ranked_hypotheses values = Ok tt <-> well_ranked values.
Proof. apply ranked_Ok. Qed.

Section intent_theorems.
Context {C : Crates}.
Import IntentContractV1.

Lemma elem_of_hypothesis_refs r values :
  r ∈ hypothesis_refs values <-> r ∈ map hypothesis_name values.
Proof. apply elem_of_list_to_set. Qed.

Lemma subseteq_hypothesis_refs vs ws :
  hypothesis_refs vs ⊆ hypothesis_refs ws <->
  (forall r, r ∈ map hypothesis_name vs -> r ∈ map hypothesis_name ws).
Proof. rewrite elem_of_subseteq. by setoid_rewrite elem_of_hypothesis_refs. Qed.

(** The intent contract is accepted exactly when: its metadata and both
    rankings are sound and not empty, personalization never drops a base
    hypothesis, the primary hypothesis is among the personalized ones, the
    deterministic fast path used no human model (no effect, same hypotheses),
    every human-model effect rests on an assertion the contract depends on,
    and the digest is that of its content. *)
Theorem intent_validate_iff (c : t) :
  validate c = Ok tt <->
  metadata_ok (metadata c) /\
  HumanCenteredContractMetadataV1.contract_kind (metadata c) = KIntent /\
  well_ranked (base_hypotheses c) /\ well_ranked (personalized_hypotheses c) /\
  blank (user_stated_intent_ref c) = false /\ base_hypotheses c <> [] /\
  (forall r, r ∈ map hypothesis_name (base_hypotheses c) ->
     r ∈ map hypothesis_name (personalized_hypotheses c)) /\
  ReferenceV1.as_str (primary_hypothesis_ref c) ∈ map hypothesis_name (personalized_hypotheses c) /\
  (resolution_method c = DeterministicFastPath ->
     human_model_effects c = [] /\
     map hypothesis_name (personalized_hypotheses c) ≡ₚ map hypothesis_name (base_hypotheses c)) /\
  (forall e, e ∈ human_model_effects c ->
     HumanModelIntentEffectV1.assertion_ref e
       ∈ HumanCenteredContractMetadataV1.dependency_refs (metadata c)) /\
  contract_digest "intent-contract-v1" (digest_input c) = Ok (record_digest c).
Proof.
  assert (well_ranked (base_hypotheses c) -> well_ranked (personalized_hypotheses c) ->
    (hypothesis_refs (base_hypotheses c) = hypothesis_refs (personalized_hypotheses c) <->
     map hypothesis_name (personalized_hypotheses c) ≡ₚ map hypothesis_name (base_hypotheses c))) as Hperm.
  { intros (_ & _ & Hb & _) (_ & _ & Hp & _). split.
    - intros Heq. apply NoDup_Permutation; [done|done|]. intros r.
      by rewrite <- !elem_of_hypothesis_refs, Heq.
    - intros Heq. apply set_eq. intros r. by rewrite !elem_of_hypothesis_refs, Heq. }
  assert (Forall (fun e => negb (contains (HumanModelIntentEffectV1.assertion_ref e)
      (HumanCenteredContractMetadataV1.dependency_refs (metadata c))) = false) (human_model_effects c) <->
    (forall e, e ∈ human_model_effects c -> HumanModelIntentEffectV1.assertion_ref e
       ∈ HumanCenteredContractMetadataV1.dependency_refs (metadata c))) as Heff.
  { rewrite Forall_forall. split; intros H e He; specialize (H e He);
      rewrite negb_false_iff, contains_true in *; done. }
  unfold validate.
  rewrite bind_unit_Ok, metadata_validate_Ok, reject_Ok, negb_false_iff, bool_decide_true_iff,
    bind_unit_Ok, ranked_Ok, bind_unit_Ok, ranked_Ok, !reject_Ok, check_record_digest_Ok.
  fold (well_ranked (base_hypotheses c)) (well_ranked (personalized_hypotheses c)).
  rewrite !orb_false_iff, !is_nil_false, !negb_false_iff, andb_false_iff, orb_false_iff,
    ?negb_false_iff, existsb_false, Heff, !bool_decide_true_iff, bool_decide_false_iff,
    subseteq_hypothesis_refs, elem_of_hypothesis_refs, is_nil_true.
  assert ((forall r, r ∈ map hypothesis_name (base_hypotheses c) ->
     r ∈ map hypothesis_name (personalized_hypotheses c)) -> base_hypotheses c <> [] ->
     personalized_hypotheses c <> []) as Hne.
  { intros Hsub Hb Hp. rewrite Hp in Hsub. destruct (base_hypotheses c) as [|h hs]; [done|].
    apply (not_elem_of_nil (hypothesis_name h)), Hsub. left. }
  destruct (decide (resolution_method c = DeterministicFastPath)); tauto.
Qed.
End intent_theorems.

(** ** The theorems on a concrete contract *)

Module IntentSample.
Import Toy.
Definition hypothesis (name : string) : IntentHypothesisV1.t :=
  IntentHypothesisV1.mk (Sample.reference name) (txt "book a room")
    (UnitIntervalBasisPointsV1.mk 9000) [Sample.reference "evidence:1"] [].
Definition ranked (name : string) (rank : N) : RankedIntentHypothesisV1.t :=
  RankedIntentHypothesisV1.mk (hypothesis name) rank.
Definition issued : Checked IntentContractV1.t :=
  IntentContractV1.issue (Sample.metadata KIntent 10 []) (Sample.reference "stated:1")
    [ranked "hypothesis:a" 2; ranked "hypothesis:b" 1]
    [ranked "hypothesis:b" 1; ranked "hypothesis:a" 2]
    (Sample.reference "hypothesis:b") (UnitIntervalBasisPointsV1.mk 9000) false false []
    DeterministicFastPath.
Definition contract : IntentContractV1.t :=
  Eval vm_compute in match issued with Ok c => c | Err _ =>
    IntentContractV1.mk (Sample.metadata KIntent 10 []) (Sample.reference "") [] []
      (Sample.reference "") UnitIntervalBasisPointsV1.ZERO false false [] FullPath [] end.
Definition reference : ContractRef :=
  Eval vm_compute in HumanCenteredContractRefV1.mk KIntent (Toy.uuid 10) 1
    (IntentContractV1.record_digest contract).
End IntentSample.

Lemma intent_sample_ref :
  contract_record_ref (C:=Toy.crates) IntentSample.contract = Ok IntentSample.reference.
Proof. vm_compute. reflexivity. Qed.

Lemma record_ref_binds_content_witness :
  contract_record_ref (C:=Toy.crates) IntentSample.contract = Ok IntentSample.reference /\
  (IntentSample.contract = IntentSample.contract \/ digest_collision (C:=Toy.crates) "intent-contract-v1").
Proof.
  split; [exact intent_sample_ref|].
  exact (record_ref_binds_content (L:=toy_laws) IntentSample.contract IntentSample.contract
    IntentSample.reference intent_sample_ref intent_sample_ref).
Defined.

Lemma issued_contract_has_its_reference_witness :
  contract_issue (C:=Toy.crates) IntentSample.contract = Ok IntentSample.contract /\
  contract_validate (C:=Toy.crates) IntentSample.contract = Ok tt.
Proof.
  assert (contract_issue (C:=Toy.crates) IntentSample.contract = Ok IntentSample.contract) as Hi
    by (vm_compute; reflexivity).
  split; [exact Hi|].
  exact (proj1 (issued_contract_has_its_reference (L:=toy_laws) _ _ Hi)).
Defined.
