(* ===== verification/Decision.v ===== *)
(** * Decision: the decision contract ([human_centered/decision.rs])

    The [u32] sum of the criteria weights wraps as a release build computes it;
    [decision_validate_iff] shows that it never does on an accepted contract. *)

From stdpp Require Import base list gmap fin_sets sorting strings.
From Stdlib Require Import NArith Lia.
From S2P Require Import Prelude Text Json Crates Common Contract.

Inductive DecisionStageV1 : Type :=
| Framing | GatheringEvidence | GeneratingOptions | ComparingOptions | AwaitingUserInput
| RecommendationReady | UserDecided.
#[export] Instance stage_eq_dec : EqDecision DecisionStageV1.
Proof. solve_decision. Defined.
#[export] Instance stage_json : ToJson DecisionStageV1 := fun s =>
  Str (txt match s with
  | Framing => "framing" | GatheringEvidence => "gathering_evidence"
  | GeneratingOptions => "generating_options" | ComparingOptions => "comparing_options"
  | AwaitingUserInput => "awaiting_user_input" | RecommendationReady => "recommendation_ready"
  | UserDecided => "user_decided" end).
#[export] Instance stage_json_inj : JsonInj DecisionStageV1.
Proof. by intros [] [] [=]. Qed.

Inductive CriterionImportanceV1 : Type := IRequired | IHigh | IMedium | ILow.
#[export] Instance importance_json : ToJson CriterionImportanceV1 := fun i =>
  Str (txt match i with
  | IRequired => "required" | IHigh => "high" | IMedium => "medium" | ILow => "low" end).
#[export] Instance importance_json_inj : JsonInj CriterionImportanceV1.
Proof. by intros [] [] [=]. Qed.

Module DecisionCriterionV1.
Record t := mk {
  name : text;
  importance : CriterionImportanceV1;
  weight : option UnitIntervalBasisPointsV1.t;
  evidence_refs : list ReferenceV1.t;
}.
#[global] Instance to_json : ToJson t := fun c =>
  Obj [(txt "name", Json.to_json (name c)); (txt "importance", Json.to_json (importance c));
       (txt "weight", Json.to_json (weight c)); (txt "evidence_refs", Json.to_json (evidence_refs c))].
#[global] Instance json_inj : JsonInj t.
Proof. solve_json_inj. Qed.

Definition new (name : text) (importance : CriterionImportanceV1)
    (weight : option UnitIntervalBasisPointsV1.t) (evidence_refs : list ReferenceV1.t) : Checked t :=
  evidence_refs ← canonical_references evidence_refs;
  _ ← validate_required_text name;
  Ok (mk name importance weight evidence_refs).
End DecisionCriterionV1.

Module DecisionOptionV1.
Record t := mk {
  option_ref : ReferenceV1.t;
  label : text;
  description : text;
  evidence_refs : list ReferenceV1.t;
  reversible : bool;
}.
#[global] Instance to_json : ToJson t := fun o =>
  Obj [(txt "option_ref", Json.to_json (option_ref o)); (txt "label", Json.to_json (label o));
       (txt "description", Json.to_json (description o));
       (txt "evidence_refs", Json.to_json (evidence_refs o));
       (txt "reversible", Json.to_json (reversible o))].
#[global] Instance json_inj : JsonInj t.
Proof. solve_json_inj. Qed.

Definition new (option_ref : ReferenceV1.t) (label description : text)
    (evidence_refs : list ReferenceV1.t) (reversible : bool) : Checked t :=
  evidence_refs ← canonical_references evidence_refs;
  let value := mk option_ref label description evidence_refs reversible in
  _ ← validate_required_text label;
  _ ← validate_required_text description;
  Ok value.
End DecisionOptionV1.

Module DecisionRiskV1.
Record t := mk {
  summary : text;
  impact : ImpactLevelV1.t;
  likelihood : UnitIntervalBasisPointsV1.t;
  evidence_refs : list ReferenceV1.t;
  mitigation : option text;
}.
#[global] Instance to_json : ToJson t := fun r =>
  Obj [(txt "summary", Json.to_json (summary r)); (txt "impact", Json.to_json (impact r));
       (txt "likelihood", Json.to_json (likelihood r));
       (txt "evidence_refs", Json.to_json (evidence_refs r));
       (txt "mitigation", Json.to_json (mitigation r))].
#[global] Instance json_inj : JsonInj t.
Proof. solve_json_inj. Qed.

Definition validate (r : t) : Checked unit :=
  _ ← validate_required_text (summary r);
  _ ← match mitigation r with
      | Some mitigation => validate_required_text mitigation
      | None => Ok tt
      end;
  Ok tt.
End DecisionRiskV1.

Module DecisionRecommendationV1.
Record t := mk {
  option_ref : ReferenceV1.t;
  confidence : UnitIntervalBasisPointsV1.t;
  conditions : list text;
  evidence_refs : list ReferenceV1.t;
}.
#[global] Instance to_json : ToJson t := fun r =>
  Obj [(txt "option_ref", Json.to_json (option_ref r));
       (txt "confidence", Json.to_json (confidence r));
       (txt "conditions", Json.to_json (conditions r));
       (txt "evidence_refs", Json.to_json (evidence_refs r))].
#[global] Instance json_inj : JsonInj t.
Proof. solve_json_inj. Qed.
#[global] Instance json_not_null : JsonNotNull t. Proof. done. Qed.
End DecisionRecommendationV1.

Module DecisionAuthorizationBoundaryV1.
Record t := mk {
  maximum_automatic_impact : ImpactLevelV1.t;
  user_confirmation_required : bool;
  required_authority_refs : list ReferenceV1.t;
  prohibited_automatic_operations : list ReferenceV1.t;
}.
#[global] Instance eq_dec : EqDecision t.
Proof. solve_decision. Defined.
#[global] Instance to_json : ToJson t := fun b =>
  Obj [(txt "maximum_automatic_impact", Json.to_json (maximum_automatic_impact b));
       (txt "user_confirmation_required", Json.to_json (user_confirmation_required b));
       (txt "required_authority_refs", Json.to_json (required_authority_refs b));
       (txt "prohibited_automatic_operations", Json.to_json (prohibited_automatic_operations b))].
#[global] Instance json_inj : JsonInj t.
Proof. solve_json_inj. Qed.
End DecisionAuthorizationBoundaryV1.

Module DecisionContractV1.
Record t := mk {
  metadata : Metadata;
  intent_ref : ContractRef;
  subject : text;
  stage : DecisionStageV1;
  objective : text;
  constraints : list text;
  criteria : list DecisionCriterionV1.t;
  options : list DecisionOptionV1.t;
  evidence_refs : list ReferenceV1.t;
  conflicts : list text;
  risks : list DecisionRiskV1.t;
  uncertainty : list text;
  recommendation : option DecisionRecommendationV1.t;
  selected_option_ref : option ReferenceV1.t;
  required_user_inputs : list text;
  authorization_boundary : DecisionAuthorizationBoundaryV1.t;
  record_digest : text;
}.

Definition set_record_digest (d : text) (c : t) : t :=
  mk (metadata c) (intent_ref c) (subject c) (stage c) (objective c) (constraints c) (criteria c)
    (options c) (evidence_refs c) (conflicts c) (risks c) (uncertainty c) (recommendation c)
    (selected_option_ref c) (required_user_inputs c) (authorization_boundary c) d.

(** [option_refs] *)
Definition option_refs (c : t) : gset text :=
  list_to_set (map (fun o => ReferenceV1.as_str (DecisionOptionV1.option_ref o)) (options c)).

(** [weights.map(u32::from).sum::<u32>()] *)
Definition weight_sum (weights : list UnitIntervalBasisPointsV1.t) : N :=
  foldl (fun sum w => (sum + UnitIntervalBasisPointsV1.value w) mod 2 ^ 32) 0 weights.

Definition weighted_criteria (c : t) : list UnitIntervalBasisPointsV1.t :=
  omap DecisionCriterionV1.weight (criteria c).

(** The [match self.stage] block, its arms in order. *)
Definition check_stage (c : t) : Checked unit :=
  let is_stage s := stage c == s in
  if is_stage AwaitingUserInput && is_nil (required_user_inputs c) then Err InvalidContract
  else if is_stage RecommendationReady
          && (negb (is_some (recommendation c)) || negb (is_nil (required_user_inputs c)))
  then Err InvalidContract
  else if is_stage UserDecided
          && (negb (is_some (selected_option_ref c)) || negb (is_nil (required_user_inputs c)))
  then Err InvalidContract
  else if (stage c != UserDecided) && is_some (selected_option_ref c) then Err InvalidContract
  else Ok tt.

Section with_crates.
Context {C : Crates}.

Definition digest_input (c : t) : Value :=
  Arr [Arr [Json.to_json (metadata c); Json.to_json (intent_ref c); Json.to_json (subject c);
            Json.to_json (stage c); Json.to_json (objective c); Json.to_json (constraints c);
            Json.to_json (criteria c); Json.to_json (options c)];
       Arr [Json.to_json (evidence_refs c); Json.to_json (conflicts c); Json.to_json (risks c);
            Json.to_json (uncertainty c); Json.to_json (recommendation c);
            Json.to_json (selected_option_ref c); Json.to_json (required_user_inputs c);
            Json.to_json (authorization_boundary c)]].

Definition validate (c : t) : Checked unit :=
  _ ← HumanCenteredContractMetadataV1.validate (metadata c);
  reject HumanCenteredContractMetadataV1.contract_kind (metadata c) != KDecision
    with ContractKindMismatch;
  _ ← HumanCenteredContractRefV1.validate (intent_ref c);
  _ ← validate_required_text (subject c);
  _ ← validate_required_text (objective c);
  _ ← validate_text_collection (constraints c);
  _ ← validate_text_collection (conflicts c);
  _ ← validate_text_collection (uncertainty c);
  _ ← validate_text_collection (required_user_inputs c);
  reject (256 <? lenN (criteria c)) || (256 <? lenN (options c)) || (256 <? lenN (risks c))
    with CollectionLimitExceeded;
  reject (HumanCenteredContractRefV1.kind (intent_ref c) != KIntent)
         || negb (contains (intent_ref c) (HumanCenteredContractMetadataV1.dependency_refs (metadata c)))
         || existsb (fun criterion => is_err (validate_required_text (DecisionCriterionV1.name criterion)))
              (criteria c)
         || existsb (fun risk => is_err (DecisionRiskV1.validate risk)) (risks c)
    with InvalidContract;
  reject negb (N.of_nat (size (option_refs c)) =? lenN (options c))
         || (is_nil (options c) && is_nil (required_user_inputs c))
    with InvalidContract;
  reject negb (is_nil (weighted_criteria c))
         && (negb (lenN (weighted_criteria c) =? lenN (criteria c))
             || negb (weight_sum (weighted_criteria c)
                        =? UnitIntervalBasisPointsV1.value UnitIntervalBasisPointsV1.FULL))
    with InvalidContract;
  _ ← for_each (fun option =>
         _ ← validate_required_text (DecisionOptionV1.label option);
         validate_required_text (DecisionOptionV1.description option)) (options c);
  _ ← match recommendation c with
      | Some r =>
          _ ← validate_text_collection (DecisionRecommendationV1.conditions r);
          reject negb (bool_decide (ReferenceV1.as_str (DecisionRecommendationV1.option_ref r)
                                      ∈ option_refs c))
            with InvalidContract;
          Ok tt
      | None => Ok tt
      end;
  reject is_some_and (fun selected => negb (bool_decide (ReferenceV1.as_str selected ∈ option_refs c)))
           (selected_option_ref c)
    with InvalidContract;
  _ ← check_stage c;
  reject ImpactLevelV1.rank ImpactLevelV1.High
         <=? ImpactLevelV1.rank
               (DecisionAuthorizationBoundaryV1.maximum_automatic_impact (authorization_boundary c))
    with InvalidContract;
  check_record_digest "decision-contract-v1" digest_input record_digest c.

Definition issue (metadata : Metadata) (intent_ref : ContractRef) (subject : text)
    (stage : DecisionStageV1) (objective : text) (constraints : list text)
    (criteria : list DecisionCriterionV1.t) (options : list DecisionOptionV1.t)
    (evidence_refs : list ReferenceV1.t) (conflicts : list text) (risks : list DecisionRiskV1.t)
    (uncertainty : list text) (recommendation : option DecisionRecommendationV1.t)
    (selected_option_ref : option ReferenceV1.t) (required_user_inputs : list text)
    (authorization_boundary : DecisionAuthorizationBoundaryV1.t) : Checked t :=
  evidence_refs ← canonical_references evidence_refs;
  seal "decision-contract-v1" digest_input set_record_digest validate
    (mk metadata intent_ref subject stage objective constraints criteria options evidence_refs
       conflicts risks uncertainty recommendation selected_option_ref required_user_inputs
       authorization_boundary []).

Definition record_ref : t -> Checked ContractRef :=
  name_contract KDecision metadata record_digest validate.

#[global] Instance to_json : ToJson t := fun c =>
  Obj [(txt "metadata", Json.to_json (metadata c)); (txt "intent_ref", Json.to_json (intent_ref c));
       (txt "subject", Json.to_json (subject c)); (txt "stage", Json.to_json (stage c));
       (txt "objective", Json.to_json (objective c));
       (txt "constraints", Json.to_json (constraints c));
       (txt "criteria", Json.to_json (criteria c)); (txt "options", Json.to_json (options c));
       (txt "evidence_refs", Json.to_json (evidence_refs c));
       (txt "conflicts", Json.to_json (conflicts c)); (txt "risks", Json.to_json (risks c));
       (txt "uncertainty", Json.to_json (uncertainty c));
       (txt "recommendation", Json.to_json (recommendation c));
       (txt "selected_option_ref", Json.to_json (selected_option_ref c));
       (txt "required_user_inputs", Json.to_json (required_user_inputs c));
       (txt "authorization_boundary", Json.to_json (authorization_boundary c));
       (txt "record_digest", Json.to_json (record_digest c))].

#[global] Instance contract : Contract t := {
  contract_kind_of := KDecision;
  contract_domain := "decision-contract-v1";
  contract_metadata := metadata;
  contract_record_digest := record_digest;
  with_record_digest := set_record_digest;
  contract_digest_input := digest_input;
  contract_validate := validate;
  contract_record_ref := record_ref;
}.
#[global] Instance contract_laws : ContractLaws t.
Proof.
  split; [|done|done|].
  - intros c H. cbn in H. unfold validate in H. solve_contract_valid.
  - intros L [] [] _ _ H E. cbn in H, E. unfold digest_input in H. solve_digest_inj H.
Qed.
End with_crates.
End DecisionContractV1.

Section decision_facts.
Context {C : Crates}.
Import DecisionContractV1.

Lemma check_stage_Ok c :
  check_stage c = Ok tt <->
  (stage c = AwaitingUserInput -> required_user_inputs c <> []) /\
  (stage c = RecommendationReady -> recommendation c <> None) /\
  (stage c = RecommendationReady \/ stage c = UserDecided -> required_user_inputs c = []) /\
  (selected_option_ref c <> None <-> stage c = UserDecided).
Proof.
  unfold check_stage. destruct (stage c) eqn:Hs; cbn;
    destruct (required_user_inputs c), (recommendation c), (selected_option_ref c); cbn;
    repeat (case_bool_decide; try congruence); cbn; intuition congruence.
Qed.

(** The wrapped sum of a bounded number of 16-bit weights is their sum. *)
Lemma weight_sum_exact ws :
  lenN ws <= 256 -> Forall (fun w => UnitIntervalBasisPointsV1.value w <= u16_max) ws ->
  weight_sum ws = foldr N.add 0 (map UnitIntervalBasisPointsV1.value ws).
Proof.
  unfold weight_sum, u16_max. intros Hl Hw.
  enough (forall acc, acc + lenN ws * 65535 < 2 ^ 32 ->
    foldl (fun sum w => (sum + UnitIntervalBasisPointsV1.value w) mod 2 ^ 32) acc ws
    = acc + foldr N.add 0 (map UnitIntervalBasisPointsV1.value ws)) as H by (rewrite H; lia).
  clear Hl. unfold lenN. induction Hw as [|w ws Hw _ IH]; intros acc Hacc; cbn [foldl foldr map length] in *.
  - lia.
  - rewrite N.mod_small by lia. rewrite IH by lia. lia.
Qed.

Lemma weighted_length c : lenN (weighted_criteria c) <= lenN (criteria c).
Proof.
  unfold weighted_criteria, lenN. induction (criteria c) as [|k ks IH]; cbn; [done|].
  destruct (DecisionCriterionV1.weight k); cbn [length] in *; lia.
Qed.

(** What an accepted decision contract satisfies. *)
Record decision_ok (c : t) : Prop := {
  do_intent : HumanCenteredContractRefV1.kind (intent_ref c) = KIntent /\
    intent_ref c ∈ HumanCenteredContractMetadataV1.dependency_refs (metadata c);
  do_options : NoDup (map (fun o => ReferenceV1.as_str (DecisionOptionV1.option_ref o)) (options c)) /\
    (options c = [] -> required_user_inputs c <> []);
  do_weights : weighted_criteria c = [] \/
    (lenN (weighted_criteria c) = lenN (criteria c) /\ lenN (criteria c) <= 256 /\
     weight_sum (weighted_criteria c) = 10000);
  do_recommendation : forall r, recommendation c = Some r ->
    ReferenceV1.as_str (DecisionRecommendationV1.option_ref r) ∈ option_refs c;
  do_selection : forall s, selected_option_ref c = Some s -> ReferenceV1.as_str s ∈ option_refs c;
  do_stage : check_stage c = Ok tt;
  do_impact : ImpactLevelV1.rank
    (DecisionAuthorizationBoundaryV1.maximum_automatic_impact (authorization_boundary c)) < 2;
}.

Lemma decision_validate_ok c : validate c = Ok tt -> decision_ok c.
Proof.
  unfold validate. intros H. inv_ok. split.
  - rewrite !orb_false_iff, ?negb_false_iff, ?contains_true in *. destruct_and!.
    rewrite bool_decide_true_iff in *. done.
  - rewrite !orb_false_iff, andb_false_iff, !negb_false_iff, !is_nil_false, N.eqb_eq in *. destruct_and!.
    split; [|naive_solver]. apply NoDup_size. unfold option_refs in *. unfold lenN in *.
    by rewrite length_map.
  - rewrite !orb_false_iff, !andb_false_iff, !orb_false_iff, !negb_false_iff, is_nil_true, !N.eqb_eq,
      !N.ltb_ge in *. destruct_and!. naive_solver.
  - intros r Hr. rewrite Hr in *. inv_ok. by rewrite negb_false_iff, bool_decide_true_iff in *.
  - intros r Hr. rewrite Hr in *. cbn [is_some_and] in *.
    by rewrite negb_false_iff, bool_decide_true_iff in *.
  - done.
  - rewrite N.leb_gt in *. done.
Qed.
End decision_facts.

Section decision_theorems.
Context {C : Crates}.
Import DecisionContractV1.

Lemma elem_of_option_refs c r :
  r ∈ option_refs c <-> exists o, o ∈ options c /\ ReferenceV1.as_str (DecisionOptionV1.option_ref o) = r.
Proof. unfold option_refs. rewrite elem_of_list_to_set, list_elem_of_fmap. naive_solver. Qed.

Lemma weighted_all c :
  lenN (weighted_criteria c) = lenN (criteria c) ->
  Forall (fun k => DecisionCriterionV1.weight k <> None) (criteria c).
Proof.
  unfold weighted_criteria, lenN. intros H. apply Nat2N.inj in H.
  assert (forall ks : list DecisionCriterionV1.t, (length (omap DecisionCriterionV1.weight ks) <= length ks)%nat) as Hle.
  { induction ks as [|k ks IH]; [done|]. cbn. destruct (DecisionCriterionV1.weight k); cbn [length]; lia. }
  induction (criteria c) as [|k ks IH]; [constructor|]. cbn in H. specialize (Hle ks).
  destruct (DecisionCriterionV1.weight k) eqn:Hk; cbn [length] in H; [|lia].
  constructor; [congruence|]. apply IH. lia.
Qed.

(** In an accepted decision an option is selected exactly at the stage
    where the user has decided, and then no user input is outstanding; a ready
    recommendation exists and a request for input asks something; selection and
    recommendation name listed, distinct options; the criteria are either all
    weighted, with weights adding up to exactly 10000 and no overflow, or none
    is; and nothing above medium impact may happen automatically. *)
Theorem accepted_decision_is_coherent c :
  Forall (fun w => UnitIntervalBasisPointsV1.value w <= u16_max) (weighted_criteria c) ->
  validate c = Ok tt ->
  (selected_option_ref c <> None <-> stage c = UserDecided) /\
  (stage c = RecommendationReady \/ stage c = UserDecided -> required_user_inputs c = []) /\
  (stage c = AwaitingUserInput -> required_user_inputs c <> []) /\
  (stage c = RecommendationReady -> recommendation c <> None) /\
  NoDup (map (fun o => ReferenceV1.as_str (DecisionOptionV1.option_ref o)) (options c)) /\
  (forall s, selected_option_ref c = Some s ->
     exists o, o ∈ options c /\ DecisionOptionV1.option_ref o = s) /\
  (forall r, recommendation c = Some r ->
     exists o, o ∈ options c /\ DecisionOptionV1.option_ref o = DecisionRecommendationV1.option_ref r) /\
  (Forall (fun k => DecisionCriterionV1.weight k = None) (criteria c) \/
   Forall (fun k => DecisionCriterionV1.weight k <> None) (criteria c) /\
   foldr N.add 0 (map UnitIntervalBasisPointsV1.value (weighted_criteria c)) = 10000) /\
  (DecisionAuthorizationBoundaryV1.maximum_automatic_impact (authorization_boundary c) = ImpactLevelV1.Low \/
   DecisionAuthorizationBoundaryV1.maximum_automatic_impact (authorization_boundary c) = ImpactLevelV1.Medium).
Proof.
  intros Hw [_ [Hn _] Hwts Hrec Hsel Hst Himp]%decision_validate_ok.
  apply check_stage_Ok in Hst as (Ha & Hr & Hin & Hs).
  split; [done|]. split; [done|]. split; [done|]. split; [done|]. split; [done|].
  assert (forall a b : ReferenceV1.t, ReferenceV1.as_str a = ReferenceV1.as_str b -> a = b) as Hinj.
  { by intros [] [] [= ->]. }
  split; [|split; [|split]].
  - intros s (o & Ho & Heq)%Hsel%elem_of_option_refs. eauto.
  - intros r (o & Ho & Heq)%Hrec%elem_of_option_refs. eauto.
  - destruct Hwts as [Hnil|(Hl & Hb & Hsum)]; [left|right].
    + apply Forall_forall. intros k Hk. destruct (DecisionCriterionV1.weight k) as [w|] eqn:E; [|done].
      assert (w ∈ weighted_criteria c) as Hin' by (apply list_elem_of_omap; eauto).
      rewrite Hnil in Hin'. by apply not_elem_of_nil in Hin'.
    + split; [by apply weighted_all|]. rewrite <- weight_sum_exact; [done| |done].
      pose proof (weighted_length c). lia.
  - destruct (DecisionAuthorizationBoundaryV1.maximum_automatic_impact _); cbn in Himp; auto; lia.
Qed.
End decision_theorems.

Module DecisionSample.
Import Toy.
Definition option (name : string) : DecisionOptionV1.t :=
  DecisionOptionV1.mk (Sample.reference name) (txt "label") (txt "description") [] true.
Definition criterion (w : N) : DecisionCriterionV1.t :=
  DecisionCriterionV1.mk (txt "cost") IHigh (Some (UnitIntervalBasisPointsV1.mk w)) [].
Definition issued : Checked DecisionContractV1.t :=
  DecisionContractV1.issue (Sample.metadata KDecision 11 [Sample.ref KIntent 10]) (Sample.ref KIntent 10)
    (txt "subject") UserDecided (txt "objective") [] [criterion 4000; criterion 6000]
    [option "option:a"; option "option:b"] [] [] [] [] None (Some (Sample.reference "option:a")) []
    (DecisionAuthorizationBoundaryV1.mk ImpactLevelV1.Medium true [] []).
Definition contract : DecisionContractV1.t :=
  Eval vm_compute in match issued with Ok c => c | Err _ =>
    DecisionContractV1.mk (Sample.metadata KDecision 11 []) (Sample.ref KIntent 10) [] Framing [] [] []
      [] [] [] [] [] None None [] (DecisionAuthorizationBoundaryV1.mk ImpactLevelV1.Low true [] []) [] end.
End DecisionSample.

Lemma accepted_decision_is_coherent_witness :
  DecisionContractV1.validate (C:=Toy.crates) DecisionSample.contract = Ok tt /\
  DecisionContractV1.selected_option_ref DecisionSample.contract <> None.
Proof.
  assert (DecisionContractV1.validate (C:=Toy.crates) DecisionSample.contract = Ok tt) as Hv
    by (vm_compute; reflexivity).
  split; [exact Hv|].
  apply (accepted_decision_is_coherent (C:=Toy.crates) DecisionSample.contract); [|exact Hv|reflexivity].
  vm_compute. repeat constructor; discriminate.
Defined.
