(* ===== verification/Response.v ===== *)
(** * Response: response contracts and their admission ([human_centered/response.rs])

    The response contract, the envelope that binds rendered content to it, and
    the rule that admits a rendered response for sending. *)

From stdpp Require Import base list gmap sorting strings.
From Stdlib Require Import NArith Lia.
From S2P Require Import Prelude Text Json Crates Common Contract Guards.

Inductive ResponsePhaseV1 : Type := PreAction | Progress | PostAction | Final.
#[export] Instance phase_eq_dec : EqDecision ResponsePhaseV1.
Proof. solve_decision. Defined.
#[export] Instance phase_json : ToJson ResponsePhaseV1 := fun p =>
  Str (txt match p with
  | PreAction => "pre_action" | Progress => "progress" | PostAction => "post_action" | Final => "final" end).
#[export] Instance phase_json_inj : JsonInj ResponsePhaseV1.
Proof. by intros [] [] [=]. Qed.

Inductive ResponseTypeV1 : Type :=
| Answer | Clarification | Recommendation | Challenge | ConfirmationRequest | ProgressUpdate
| ExecutionReport | RecoveryOffer.
#[export] Instance response_type_eq_dec : EqDecision ResponseTypeV1.
Proof. solve_decision. Defined.
#[export] Instance response_type_json : ToJson ResponseTypeV1 := fun r =>
  Str (txt match r with
  | Answer => "answer" | Clarification => "clarification" | Recommendation => "recommendation"
  | Challenge => "challenge" | ConfirmationRequest => "confirmation_request"
  | ProgressUpdate => "progress_update" | ExecutionReport => "execution_report"
  | RecoveryOffer => "recovery_offer" end).
#[export] Instance response_type_json_inj : JsonInj ResponseTypeV1.
Proof. by intros [] [] [=]. Qed.

Inductive ExplanationDepthV1 : Type := DMinimal | DLow | DMedium | DHigh.
#[export] Instance depth_json : ToJson ExplanationDepthV1 := fun d =>
  Str (txt match d with DMinimal => "minimal" | DLow => "low" | DMedium => "medium" | DHigh => "high" end).
#[export] Instance depth_json_inj : JsonInj ExplanationDepthV1.
Proof. by intros [] [] [=]. Qed.

Inductive TerminologyLevelV1 : Type := TPlain | TProfessional | TExpert.
#[export] Instance terminology_json : ToJson TerminologyLevelV1 := fun l =>
  Str (txt match l with TPlain => "plain" | TProfessional => "professional" | TExpert => "expert" end).
#[export] Instance terminology_json_inj : JsonInj TerminologyLevelV1.
Proof. by intros [] [] [=]. Qed.

Module ResponseContractV1.
Record t := mk {
  metadata : Metadata;
  source_contract_refs : list ContractRef;
  response_phase : ResponsePhaseV1;
  response_type : ResponseTypeV1;
  answer_structure : list text;
  evidence_refs : list ReferenceV1.t;
  explanation_depth : ExplanationDepthV1;
  terminology_level : TerminologyLevelV1;
  clarification_questions : list text;
  uncertainty_disclosures : list text;
  prohibited_content_refs : list ReferenceV1.t;
  requires_post_render_policy_check : bool;
  record_digest : text;
}.

Definition set_record_digest (d : text) (c : t) : t :=
  mk (metadata c) (source_contract_refs c) (response_phase c) (response_type c)
    (answer_structure c) (evidence_refs c) (explanation_depth c) (terminology_level c)
    (clarification_questions c) (uncertainty_disclosures c) (prohibited_content_refs c)
    (requires_post_render_policy_check c) d.

(** [matches!(reference.kind(), ...)]: what a response may speak about, and
    what exists only after an action ran *)
Definition source_kind (k : HumanCenteredContractKindV1) : bool :=
  match k with
  | KIntent | KDecision | KAction | KExecutionReceipt | KOutcome => true
  | _ => false
  end.
Definition post_action_kind (k : HumanCenteredContractKindV1) : bool :=
  match k with KExecutionReceipt | KOutcome => true | _ => false end.

Section with_crates.
Context {C : Crates}.

Definition digest_input (c : t) : Value :=
  Arr [Json.to_json (metadata c); Json.to_json (source_contract_refs c);
       Json.to_json (response_phase c); Json.to_json (response_type c);
       Json.to_json (answer_structure c); Json.to_json (evidence_refs c);
       Json.to_json (explanation_depth c); Json.to_json (terminology_level c);
       Json.to_json (clarification_questions c); Json.to_json (uncertainty_disclosures c);
       Json.to_json (prohibited_content_refs c);
       Json.to_json (requires_post_render_policy_check c)].

(** The body of [for reference in &self.source_contract_refs]. *)
Definition check_source (c : t) (reference : ContractRef) : Checked unit :=
  _ ← HumanCenteredContractRefV1.validate reference;
  reject negb (source_kind (HumanCenteredContractRefV1.kind reference))
         || negb (contains reference (HumanCenteredContractMetadataV1.dependency_refs (metadata c)))
    with InvalidContract;
  reject (response_phase c == PreAction)
         && post_action_kind (HumanCenteredContractRefV1.kind reference)
    with InvalidContract;
  Ok tt.

Definition validate (c : t) : Checked unit :=
  _ ← HumanCenteredContractMetadataV1.validate (metadata c);
  reject HumanCenteredContractMetadataV1.contract_kind (metadata c) != KResponse
    with ContractKindMismatch;
  _ ← validate_text_collection (answer_structure c);
  _ ← validate_text_collection (clarification_questions c);
  _ ← validate_text_collection (uncertainty_disclosures c);
  reject is_nil (source_contract_refs c) || is_nil (answer_structure c)
         || negb (requires_post_render_policy_check c)
    with InvalidContract;
  _ ← for_each (check_source c) (source_contract_refs c);
  reject (response_type c == Clarification) && is_nil (clarification_questions c)
    with InvalidContract;
  check_record_digest "response-contract-v1" digest_input record_digest c.

Definition issue (metadata : Metadata) (source_contract_refs : list ContractRef)
    (response_phase : ResponsePhaseV1) (response_type : ResponseTypeV1)
    (answer_structure : list text) (evidence_refs : list ReferenceV1.t)
    (explanation_depth : ExplanationDepthV1) (terminology_level : TerminologyLevelV1)
    (clarification_questions uncertainty_disclosures : list text)
    (prohibited_content_refs : list ReferenceV1.t) : Checked t :=
  evidence_refs ← canonical_references evidence_refs;
  prohibited_content_refs ← canonical_references prohibited_content_refs;
  seal "response-contract-v1" digest_input set_record_digest validate
    (mk metadata source_contract_refs response_phase response_type answer_structure evidence_refs
       explanation_depth terminology_level clarification_questions uncertainty_disclosures
       prohibited_content_refs true []).

Definition record_ref : t -> Checked ContractRef :=
  name_contract KResponse metadata record_digest validate.

#[global] Instance to_json : ToJson t := fun c =>
  Obj [(txt "metadata", Json.to_json (metadata c));
   (txt "source_contract_refs", Json.to_json (source_contract_refs c));
   (txt "response_phase", Json.to_json (response_phase c));
   (txt "response_type", Json.to_json (response_type c));
   (txt "answer_structure", Json.to_json (answer_structure c));
   (txt "evidence_refs", Json.to_json (evidence_refs c));
   (txt "explanation_depth", Json.to_json (explanation_depth c));
   (txt "terminology_level", Json.to_json (terminology_level c));
   (txt "clarification_questions", Json.to_json (clarification_questions c));
   (txt "uncertainty_disclosures", Json.to_json (uncertainty_disclosures c));
   (txt "prohibited_content_refs", Json.to_json (prohibited_content_refs c));
   (txt "requires_post_render_policy_check", Json.to_json (requires_post_render_policy_check c));
   (txt "record_digest", Json.to_json (record_digest c))].

#[global] Instance contract : Contract t := {
  contract_kind_of := KResponse;
  contract_domain := "response-contract-v1";
  contract_metadata := metadata;
  contract_record_digest := record_digest;
  with_record_digest := set_record_digest;
  contract_digest_input := digest_input;
  contract_validate := validate;
  contract_record_ref := record_ref;
}.
#[global] Instance contract_laws : ContractLaws t.
Proof.
  split; [|done|done|].
  - intros c H. cbn in H. unfold validate in H. solve_contract_valid.
  - intros L [] [] _ _ H E. cbn in H, E. unfold digest_input in H. solve_digest_inj H.
Qed.
End with_crates.
End ResponseContractV1.

(** ** Rendered content *)

Module RenderedResponseEnvelopeV1.
Record t := mk {
  response_ref : ContractRef;
  content_digest : text;
  renderer_ref : ReferenceV1.t;
  rendered_at : N;
  schema_version : N;
}.

Section with_crates.
Context {C : Crates}.

(** [format!("sha256:{}", contract_digest("rendered-response-content-v1", content)?)] *)
Definition rendered_content_digest (content : text) : Checked text :=
  digest ← contract_digest "rendered-response-content-v1" (Json.to_json content);
  Ok (txt "sha256:" ++ digest).

Definition validate_for (e : t) (response : ResponseContractV1.t) : Checked unit :=
  _ ← ResponseContractV1.validate response;
  reference ← ResponseContractV1.record_ref response;
  reject (response_ref e != reference)
         || negb (is_some_and valid_digest (strip_prefix (txt "sha256:") (content_digest e)))
         || blank (renderer_ref e) || (rendered_at e =? 0)
         || (HumanCenteredContractMetadataV1.valid_until (ResponseContractV1.metadata response)
               <=? rendered_at e)
         || (schema_version e != HUMAN_CENTERED_SCHEMA_VERSION)
    with InvalidContract;
  Ok tt.

Definition validate_content (e : t) (rendered_content : text) : Checked unit :=
  reject is_nil (trim rendered_content) || (1048576 <? str_len rendered_content)
    with DigestMismatch;
  expected ← rendered_content_digest rendered_content;
  reject content_digest e != expected with DigestMismatch;
  Ok tt.

Definition new (response : ResponseContractV1.t) (rendered_content : text)
    (renderer_ref : ReferenceV1.t) (rendered_at : N) : Checked t :=
  reject is_nil (trim rendered_content) || (1048576 <? str_len rendered_content) with InvalidText;
  response_ref ← ResponseContractV1.record_ref response;
  content_digest ← rendered_content_digest rendered_content;
  let value := mk response_ref content_digest renderer_ref rendered_at
    HUMAN_CENTERED_SCHEMA_VERSION in
  _ ← validate_for value response;
  Ok value.
End with_crates.
End RenderedResponseEnvelopeV1.

(** ** Admission *)

Module ResponseAdmission.
Record ResponsePolicyFactsV1 := mkFacts {
  policy_evaluation_ref : ReferenceV1.t;
  policy_revision_ref : ReferenceV1.t;
  evaluated_response_ref : ContractRef;
  evaluated_content_digest : text;
  evaluated_at : N;
  expires_at : N;
  content_policy_allows : bool;
  evidence_traceable : bool;
  required_uncertainty_present : bool;
  prohibited_content_absent : bool;
  authority_scope_respected : bool;
}.

Inductive ResponseAdmissionOutcomeV1 : Type := Allow | Block.
#[global] Instance admission_eq_dec : EqDecision ResponseAdmissionOutcomeV1.
Proof. solve_decision. Defined.

Record ResponseAdmissionDecisionV1 := mkDecision {
  outcome : ResponseAdmissionOutcomeV1;
  reason_codes : list text;
  decision_policy_evaluation_ref : ReferenceV1.t;
  rule_version : N;
}.

Section with_crates.
Context {C : Crates}.

Definition evaluate_rendered_response_admission (response : ResponseContractV1.t)
    (rendered : RenderedResponseEnvelopeV1.t) (rendered_content : text)
    (facts : ResponsePolicyFactsV1) (valid_at : N) : ResponseAdmissionDecisionV1 :=
  let valid_until :=
    HumanCenteredContractMetadataV1.valid_until (ResponseContractV1.metadata response) in
  let reasons := reasons_for
    [("rendered_response_not_bound_to_contract",
        is_err (RenderedResponseEnvelopeV1.validate_for rendered response)
        || is_err (RenderedResponseEnvelopeV1.validate_content rendered rendered_content));
     ("policy_evaluation_reference_missing", blank (policy_evaluation_ref facts));
     ("policy_revision_mismatch",
        policy_revision_ref facts
          != HumanCenteredContractMetadataV1.policy_revision_ref (ResponseContractV1.metadata response));
     ("policy_evaluation_binding_mismatch",
        (evaluated_response_ref facts != RenderedResponseEnvelopeV1.response_ref rendered)
        || (evaluated_content_digest facts != RenderedResponseEnvelopeV1.content_digest rendered));
     ("policy_evaluation_time_invalid",
        (evaluated_at facts <? RenderedResponseEnvelopeV1.rendered_at rendered)
        || (expires_at facts <=? evaluated_at facts) || (evaluated_at facts =? 0)
        || (valid_until <? expires_at facts));
     ("response_send_time_invalid",
        (valid_at <? evaluated_at facts) || (expires_at facts <=? valid_at)
        || (valid_until <=? valid_at));
     ("content_policy_denied", negb (content_policy_allows facts));
     ("evidence_not_traceable", negb (evidence_traceable facts));
     ("required_uncertainty_missing", negb (required_uncertainty_present facts));
     ("prohibited_content_present", negb (prohibited_content_absent facts));
     ("authority_scope_not_respected", negb (authority_scope_respected facts))] in
  mkDecision (if is_nil reasons then Allow else Block) reasons (policy_evaluation_ref facts)
    HUMAN_CENTERED_RULE_VERSION.
End with_crates.
End ResponseAdmission.

Section response_theorems.
Context {C : Crates} {L : CratesLaws}.

Lemma validate_content_Ok e content :
  RenderedResponseEnvelopeV1.validate_content e content = Ok tt <->
  trim content <> [] /\ str_len content <= 1048576 /\
  RenderedResponseEnvelopeV1.rendered_content_digest content
    = Ok (RenderedResponseEnvelopeV1.content_digest e).
Proof.
  unfold RenderedResponseEnvelopeV1.validate_content.
  rewrite reject_Ok, orb_false_iff, is_nil_false, N.ltb_ge, bind_Ok. split.
  - intros ([? ?] & d & Hd & Hc). apply reject_Ok in Hc as [Hc _].
    rewrite negb_false_iff, bool_decide_true_iff in Hc. by subst.
  - intros (? & ? & Hd). split; [done|]. eexists. split; [exact Hd|].
    by rewrite bool_decide_eq_true_2.
Qed.

Lemma validate_for_Ok e response :
  RenderedResponseEnvelopeV1.validate_for e response = Ok tt <->
  ResponseContractV1.record_ref response = Ok (RenderedResponseEnvelopeV1.response_ref e) /\
  (exists digest, RenderedResponseEnvelopeV1.content_digest e = txt "sha256:" ++ digest /\
                  valid_digest digest = true) /\
  blank (RenderedResponseEnvelopeV1.renderer_ref e) = false /\
  1 <= RenderedResponseEnvelopeV1.rendered_at e
    < HumanCenteredContractMetadataV1.valid_until (ResponseContractV1.metadata response) /\
  RenderedResponseEnvelopeV1.schema_version e = HUMAN_CENTERED_SCHEMA_VERSION.
Proof.
  unfold RenderedResponseEnvelopeV1.validate_for. rewrite bind_unit_Ok, bind_Ok.
  assert (is_some_and valid_digest (strip_prefix (txt "sha256:") (RenderedResponseEnvelopeV1.content_digest e)) = true <->
    exists digest, RenderedResponseEnvelopeV1.content_digest e = txt "sha256:" ++ digest /\
                  valid_digest digest = true) as Hd.
  { setoid_rewrite <- strip_prefix_Some. destruct (strip_prefix _ _); cbn; naive_solver. }
  split.
  - intros (Hv & r & Hr & H). apply reject_Ok in H as [H _].
    rewrite !orb_false_iff, !negb_false_iff, Hd, !bool_decide_true_iff, N.eqb_neq, N.leb_gt in H.
    destruct_and!. subst. repeat split; try done. lia.
  - intros (Hr & Hdig & Hb & Ht & Hs). split; [|exists (RenderedResponseEnvelopeV1.response_ref e); split; [done|]].
    + by apply name_contract_valid in Hr.
    + rewrite reject_Ok, !orb_false_iff, !negb_false_iff, Hd, !bool_decide_true_iff, N.eqb_neq, N.leb_gt.
      repeat split; try done; lia.
Qed.

(** A rendered response is admitted for sending exactly when the envelope
    names this response, the content is the one digested in it and the one the
    policy evaluated, the policy revision is the response's own, rendering,
    evaluation and sending happen in that order before the evaluation and the
    response expire, and all five content checks passed.  Otherwise it is
    blocked, with at least one reason. *)
Theorem response_admission_iff response rendered content facts valid_at :
  let d := ResponseAdmission.evaluate_rendered_response_admission response rendered content facts valid_at in
  let m := ResponseContractV1.metadata response in
  (ResponseAdmission.outcome d = ResponseAdmission.Block <-> ResponseAdmission.reason_codes d <> []) /\
  (ResponseAdmission.outcome d = ResponseAdmission.Allow <->
    ResponseContractV1.record_ref response = Ok (ResponseAdmission.evaluated_response_ref facts) /\
    RenderedResponseEnvelopeV1.response_ref rendered = ResponseAdmission.evaluated_response_ref facts /\
    RenderedResponseEnvelopeV1.rendered_content_digest content
      = Ok (ResponseAdmission.evaluated_content_digest facts) /\
    RenderedResponseEnvelopeV1.content_digest rendered = ResponseAdmission.evaluated_content_digest facts /\
    trim content <> [] /\ str_len content <= 1048576 /\
    blank (RenderedResponseEnvelopeV1.renderer_ref rendered) = false /\
    RenderedResponseEnvelopeV1.schema_version rendered = HUMAN_CENTERED_SCHEMA_VERSION /\
    blank (ResponseAdmission.policy_evaluation_ref facts) = false /\
    ResponseAdmission.policy_revision_ref facts = HumanCenteredContractMetadataV1.policy_revision_ref m /\
    1 <= RenderedResponseEnvelopeV1.rendered_at rendered <= ResponseAdmission.evaluated_at facts /\
    ResponseAdmission.evaluated_at facts <= valid_at /\ valid_at < ResponseAdmission.expires_at facts /\
    ResponseAdmission.expires_at facts <= HumanCenteredContractMetadataV1.valid_until m /\
    ResponseAdmission.content_policy_allows facts = true /\
    ResponseAdmission.evidence_traceable facts = true /\
    ResponseAdmission.required_uncertainty_present facts = true /\
    ResponseAdmission.prohibited_content_absent facts = true /\
    ResponseAdmission.authority_scope_respected facts = true).
Proof.
  cbn zeta. unfold ResponseAdmission.evaluate_rendered_response_admission.
  set (reasons := reasons_for _). cbn [ResponseAdmission.outcome ResponseAdmission.reason_codes].
  split.
  { destruct (is_nil reasons) eqn:E; [apply is_nil_true in E|apply is_nil_false in E]; naive_solver. }
  rewrite is_nil_choice by done. unfold reasons. rewrite reasons_for_nil. cbn [forallb snd].
  rewrite !andb_true_iff, !negb_true_iff, !orb_false_iff, !negb_false_iff, !is_err_false,
    validate_for_Ok, validate_content_Ok, !bool_decide_true_iff, N.eqb_neq, !N.leb_gt, !N.ltb_ge.
  split.
  - intros H. destruct_and!. split_and!; first [done | congruence | lia].
  - intros H. destruct_and!.
    assert (exists digest, RenderedResponseEnvelopeV1.content_digest rendered = txt "sha256:" ++ digest /\
                           valid_digest digest = true).
    { match goal with H : RenderedResponseEnvelopeV1.rendered_content_digest _ = _ |- _ =>
        apply bind_Ok in H as (dg & Hdg & Heq) end.
      exists dg. split; [congruence|]. by eapply contract_digest_valid. }
    split_and!; first [done | congruence | lia].
Qed.
End response_theorems.

Module ResponseSample.
Import Toy.
Definition issued : Checked ResponseContractV1.t :=
  ResponseContractV1.issue (Sample.metadata KResponse 12 [Sample.ref KIntent 10]) [Sample.ref KIntent 10]
    PreAction Answer [txt "summary"] [] DLow TPlain [] [] [].
Definition contract : ResponseContractV1.t :=
  Eval vm_compute in match issued with Ok c => c | Err _ =>
    ResponseContractV1.mk (Sample.metadata KResponse 12 []) [] Final Answer [] [] DLow TPlain [] [] [] false [] end.
Definition content : text := txt "The room is free.".
Definition rendered : RenderedResponseEnvelopeV1.t :=
  Eval vm_compute in match RenderedResponseEnvelopeV1.new contract content (Sample.reference "renderer:1") 100 with
  | Ok e => e
  | Err _ => RenderedResponseEnvelopeV1.mk (Sample.ref KResponse 12) [] (Sample.reference "") 0 0 end.
Definition facts : ResponseAdmission.ResponsePolicyFactsV1 :=
  ResponseAdmission.mkFacts (Sample.reference "evaluation:1") (Sample.reference "policy:1")
    (RenderedResponseEnvelopeV1.response_ref rendered) (RenderedResponseEnvelopeV1.content_digest rendered)
    110 200 true true true true true.
End ResponseSample.

Lemma response_admission_iff_witness :
  ResponseContractV1.record_ref (C:=Toy.crates) ResponseSample.contract
    = Ok (ResponseAdmission.evaluated_response_ref ResponseSample.facts) /\
  ResponseAdmission.outcome (ResponseAdmission.evaluate_rendered_response_admission (C:=Toy.crates)
    ResponseSample.contract ResponseSample.rendered ResponseSample.content ResponseSample.facts 199)
  = ResponseAdmission.Allow.
Proof.
  assert (ResponseAdmission.outcome (ResponseAdmission.evaluate_rendered_response_admission (C:=Toy.crates)
    ResponseSample.contract ResponseSample.rendered ResponseSample.content ResponseSample.facts 199)
    = ResponseAdmission.Allow) as Ha by (vm_compute; reflexivity).
  split; [|exact Ha].
  apply (response_admission_iff (L:=toy_laws) ResponseSample.contract ResponseSample.rendered
    ResponseSample.content ResponseSample.facts 199). exact Ha.
Defined.
