(* ===== verification/Action.v ===== *)
(** * Action: action contracts, exact authorizations and admission
    ([human_centered/action.rs])

    An action contract, the authorization a person gives for exactly that
    action, and the rule that admits an action for execution.  A condition that
    calls a fallible function inside [||] is evaluated where the source evaluates
    it: the disjuncts before it can reject first. *)

From stdpp Require Import base list gmap sorting strings.
From Stdlib Require Import NArith Lia.
From S2P Require Import Prelude Text Json Crates Common Contract Guards.

Inductive ActionAuthorizationStateV1 : Type :=
| NotRequired | Pending | Authorized | Denied | Expired | Revoked.
#[export] Instance authorization_state_eq_dec : EqDecision ActionAuthorizationStateV1.
Proof. solve_decision. Defined.
#[export] Instance authorization_state_json : ToJson ActionAuthorizationStateV1 := fun s =>
  Str (txt match s with
  | NotRequired => "not_required" | Pending => "pending" | Authorized => "authorized"
  | Denied => "denied" | Expired => "expired" | Revoked => "revoked" end).
#[export] Instance authorization_state_json_inj : JsonInj ActionAuthorizationStateV1.
Proof. by intros [] [] [=]. Qed.

Module ActionContractV1.
Record t := mk {
  metadata : Metadata;
  decision_ref : option ContractRef;
  operation_ref : ReferenceV1.t;
  parameters : Value;
  parameter_digest : text;
  preconditions : list text;
  required_authority_refs : list ReferenceV1.t;
  authorization_state : ActionAuthorizationStateV1;
  impact_level : ImpactLevelV1.t;
  reversible : bool;
  idempotency_key : text;
  verification_requirements : list text;
  compensation_operations : list ReferenceV1.t;
  record_digest : text;
}.

Definition set_record_digest (d : text) (c : t) : t :=
  mk (metadata c) (decision_ref c) (operation_ref c) (parameters c) (parameter_digest c)
    (preconditions c) (required_authority_refs c) (authorization_state c) (impact_level c)
    (reversible c) (idempotency_key c) (verification_requirements c) (compensation_operations c)
    d.

Section with_crates.
Context {C : Crates}.

Definition digest_input (c : t) : Value :=
  Arr [Arr [Json.to_json (metadata c); Json.to_json (decision_ref c);
            Json.to_json (operation_ref c); Json.to_json (parameters c);
            Json.to_json (parameter_digest c); Json.to_json (preconditions c)];
       Arr [Json.to_json (required_authority_refs c); Json.to_json (authorization_state c);
            Json.to_json (impact_level c); Json.to_json (reversible c);
            Json.to_json (idempotency_key c); Json.to_json (verification_requirements c);
            Json.to_json (compensation_operations c)]].

Definition validate (c : t) : Checked unit :=
  _ ← HumanCenteredContractMetadataV1.validate (metadata c);
  reject HumanCenteredContractMetadataV1.contract_kind (metadata c) != KAction
    with ContractKindMismatch;
  _ ← validate_text_collection (preconditions c);
  _ ← validate_text_collection (verification_requirements c);
  _ ← validate_required_text (idempotency_key c);
  _ ← validate_json_payload (parameters c);
  reject negb (is_object (parameters c)) || blank (operation_ref c)
         || is_nil (verification_requirements c)
    with InvalidContract;
  expected ← contract_digest "action-parameters-v1" (parameters c);
  reject expected != parameter_digest c with InvalidContract;
  _ ← match decision_ref c with
      | Some decision_ref =>
          _ ← HumanCenteredContractRefV1.validate decision_ref;
          reject (HumanCenteredContractRefV1.kind decision_ref != KDecision)
                 || negb (contains decision_ref
                            (HumanCenteredContractMetadataV1.dependency_refs (metadata c)))
            with InvalidContract;
          Ok tt
      | None => Ok tt
      end;
  let high_impact := ImpactLevelV1.rank ImpactLevelV1.High <=? ImpactLevelV1.rank (impact_level c) in
  let irreversible := negb (reversible c) in
  reject (high_impact && (authorization_state c == NotRequired))
         || ((high_impact || irreversible) && negb (is_some (decision_ref c)))
    with InvalidContract;
  reject reversible c && is_nil (compensation_operations c) with InvalidContract;
  check_record_digest "action-contract-v1" digest_input record_digest c.

Definition issue (metadata : Metadata) (decision_ref : option ContractRef)
    (operation_ref : ReferenceV1.t) (parameters : Value) (preconditions : list text)
    (required_authority_refs : list ReferenceV1.t)
    (authorization_state : ActionAuthorizationStateV1) (impact_level : ImpactLevelV1.t)
    (reversible : bool) (idempotency_key : text) (verification_requirements : list text)
    (compensation_operations : list ReferenceV1.t) : Checked t :=
  _ ← validate_json_payload parameters;
  parameter_digest ← contract_digest "action-parameters-v1" parameters;
  required_authority_refs ← canonical_references required_authority_refs;
  compensation_operations ← canonical_references compensation_operations;
  seal "action-contract-v1" digest_input set_record_digest validate
    (mk metadata decision_ref operation_ref parameters parameter_digest preconditions
       required_authority_refs authorization_state impact_level reversible idempotency_key
       verification_requirements compensation_operations []).

Definition record_ref : t -> Checked ContractRef :=
  name_contract KAction metadata record_digest validate.

#[global] Instance to_json : ToJson t := fun c =>
  Obj [(txt "metadata", Json.to_json (metadata c));
   (txt "decision_ref", Json.to_json (decision_ref c));
   (txt "operation_ref", Json.to_json (operation_ref c));
   (txt "parameters", Json.to_json (parameters c));
   (txt "parameter_digest", Json.to_json (parameter_digest c));
   (txt "preconditions", Json.to_json (preconditions c));
   (txt "required_authority_refs", Json.to_json (required_authority_refs c));
   (txt "authorization_state", Json.to_json (authorization_state c));
   (txt "impact_level", Json.to_json (impact_level c));
   (txt "reversible", Json.to_json (reversible c));
   (txt "idempotency_key", Json.to_json (idempotency_key c));
   (txt "verification_requirements", Json.to_json (verification_requirements c));
   (txt "compensation_operations", Json.to_json (compensation_operations c));
   (txt "record_digest", Json.to_json (record_digest c))].

#[global] Instance contract : Contract t := {
  contract_kind_of := KAction;
  contract_domain := "action-contract-v1";
  contract_metadata := metadata;
  contract_record_digest := record_digest;
  with_record_digest := set_record_digest;
  contract_digest_input := digest_input;
  contract_validate := validate;
  contract_record_ref := record_ref;
}.
#[global] Instance contract_laws : ContractLaws t.
Proof.
  split; [|done|done|].
  - intros c H. cbn in H. unfold validate in H. solve_contract_valid.
  - intros L [] [] _ _ H E. cbn in H, E. unfold digest_input in H. solve_digest_inj H.
Qed.
End with_crates.
End ActionContractV1.

(** ** Exact authorizations *)

Inductive AuthorizationDecisionV1 : Type := Approve | Deny.
#[export] Instance authorization_decision_eq_dec : EqDecision AuthorizationDecisionV1.
Proof. solve_decision. Defined.
#[export] Instance authorization_decision_json : ToJson AuthorizationDecisionV1 := fun d =>
  Str (txt match d with Approve => "approve" | Deny => "deny" end).
#[export] Instance authorization_decision_json_inj : JsonInj AuthorizationDecisionV1.
Proof. by intros [] [] [=]. Qed.

Module ExactActionAuthorizationV1.
Record t := mk {
  authorization_id : Uuid;
  action_ref : ContractRef;
  parameter_digest : text;
  actor_ref : ReferenceV1.t;
  decision : AuthorizationDecisionV1;
  scope_ref : ReferenceV1.t;
  authority_context_digest : text;
  issued_at : N;
  expires_at : N;
  schema_version : N;
}.

Section with_crates.
Context {C : Crates}.

#[global] Instance to_json : ToJson t := fun a =>
  Obj [(txt "authorization_id", Json.to_json (authorization_id a));
       (txt "action_ref", Json.to_json (action_ref a));
       (txt "parameter_digest", Json.to_json (parameter_digest a));
       (txt "actor_ref", Json.to_json (actor_ref a));
       (txt "decision", Json.to_json (decision a));
       (txt "scope_ref", Json.to_json (scope_ref a));
       (txt "authority_context_digest", Json.to_json (authority_context_digest a));
       (txt "issued_at", Json.to_json (issued_at a));
       (txt "expires_at", Json.to_json (expires_at a));
       (txt "schema_version", Json.to_json (schema_version a))].
#[global] Instance json_inj {L : CratesLaws} : JsonInj t.
Proof. solve_json_inj. Qed.

Definition context_of (action : ActionContractV1.t) : AuthorityContextV1.t :=
  HumanCenteredContractMetadataV1.authority_context (ActionContractV1.metadata action).

Definition validate_for (a : t) (action : ActionContractV1.t) (valid_at : N) : Checked unit :=
  _ ← ActionContractV1.validate action;
  _ ← HumanCenteredContractRefV1.validate (action_ref a);
  reject is_nil_uuid (authorization_id a) with InvalidContract;
  reference ← ActionContractV1.record_ref action;
  reject (action_ref a != reference)
         || (parameter_digest a != ActionContractV1.parameter_digest action)
         || (actor_ref a != AuthorityContextV1.actor_ref (context_of action))
         || (scope_ref a != AuthorityContextV1.scope_ref (context_of action))
    with InvalidContract;
  expected ← contract_digest "authority-context-v1" (Json.to_json (context_of action));
  reject (expected != authority_context_digest a) || (issued_at a =? 0)
         || (expires_at a <=? issued_at a) || (valid_at <? issued_at a)
         || (expires_at a <=? valid_at)
         || (schema_version a != HUMAN_CENTERED_SCHEMA_VERSION)
    with InvalidContract;
  Ok tt.

(** [minted] is the identifier drawn by [Uuid::new_v4()]. *)
Definition issue (minted : Uuid) (action : ActionContractV1.t) (actor_ref : ReferenceV1.t)
    (decision : AuthorizationDecisionV1) (scope_ref : ReferenceV1.t) (issued_at expires_at : N) :
    Checked t :=
  _ ← ActionContractV1.validate action;
  authority_context_digest ← contract_digest "authority-context-v1" (Json.to_json (context_of action));
  action_ref ← ActionContractV1.record_ref action;
  let value := mk minted action_ref (ActionContractV1.parameter_digest action) actor_ref decision
    scope_ref authority_context_digest issued_at expires_at HUMAN_CENTERED_SCHEMA_VERSION in
  _ ← validate_for value action issued_at;
  Ok value.

Definition authorization_digest (a : t) : Checked text :=
  contract_digest "exact-action-authorization-v1" (Json.to_json a).
End with_crates.
End ExactActionAuthorizationV1.

(** ** Admission *)

Module ActionAdmission.
Record ActionAdmissionFactsV1 := mkFacts {
  capability_registered : bool;
  capability_enabled : bool;
  actor_authority_valid : bool;
  agent_authority_valid : bool;
  parameters_valid : bool;
  preconditions_satisfied : bool;
  policy_allows : bool;
  verification_available : bool;
  compensation_available_if_required : bool;
  dependencies_current : bool;
}.

Inductive ActionAdmissionOutcomeV1 : Type :=
| Admit | WaitAuthorization | ExecutionPending | AlreadyExecuted | Reject.
#[global] Instance outcome_eq_dec : EqDecision ActionAdmissionOutcomeV1.
Proof. solve_decision. Defined.

Record ActionAdmissionDecisionV1 := mkDecision {
  outcome : ActionAdmissionOutcomeV1;
  reason_codes : list text;
  rule_version : N;
}.

Definition rejected_action_admission (reason : string) : ActionAdmissionDecisionV1 :=
  mkDecision Reject [txt reason] HUMAN_CENTERED_RULE_VERSION.

(** The table of admission checks, and the decision it leads to. *)
Definition check_facts (facts : ActionAdmissionFactsV1) : ActionAdmissionDecisionV1 :=
  let reasons := reasons_for
    [("capability_unregistered", negb (capability_registered facts));
     ("capability_disabled", negb (capability_enabled facts));
     ("actor_authority_invalid", negb (actor_authority_valid facts));
     ("agent_authority_invalid", negb (agent_authority_valid facts));
     ("parameters_invalid", negb (parameters_valid facts));
     ("preconditions_unsatisfied", negb (preconditions_satisfied facts));
     ("policy_denied", negb (policy_allows facts));
     ("verification_unavailable", negb (verification_available facts));
     ("compensation_unavailable", negb (compensation_available_if_required facts));
     ("dependency_stale", negb (dependencies_current facts))] in
  mkDecision (if is_nil reasons then Admit else Reject) reasons HUMAN_CENTERED_RULE_VERSION.

Section with_crates.
Context {C : Crates}.

Definition evaluate_action_admission (action : ActionContractV1.t) (facts : ActionAdmissionFactsV1)
    (authorization : option ExactActionAuthorizationV1.t) (valid_at : N) : ActionAdmissionDecisionV1 :=
  if is_err (ActionContractV1.validate action) then rejected_action_admission "action_contract_invalid"
  else if (valid_at =? 0)
          || (HumanCenteredContractMetadataV1.valid_until (ActionContractV1.metadata action) <=? valid_at)
  then rejected_action_admission "action_contract_expired"
  else match ActionContractV1.authorization_state action with
  | Denied => rejected_action_admission "action_authorization_denied"
  | Expired => rejected_action_admission "action_authorization_expired"
  | Revoked => rejected_action_admission "action_authorization_revoked"
  | Pending | Authorized =>
      match authorization with
      | None => mkDecision WaitAuthorization [txt "exact_action_authorization_required"]
                  HUMAN_CENTERED_RULE_VERSION
      | Some authorization =>
          if is_err (ExactActionAuthorizationV1.validate_for authorization action valid_at)
             || (ExactActionAuthorizationV1.decision authorization != Approve)
          then rejected_action_admission "exact_action_authorization_invalid"
          else check_facts facts
      end
  | NotRequired => check_facts facts
  end.
End with_crates.
End ActionAdmission.

Section action_facts.
Context {C : Crates}.
Import ActionContractV1.

(** What an accepted action contract satisfies beyond its metadata. *)
Record action_ok (c : t) : Prop := {
  ao_parameters : is_object (parameters c) = true /\ validate_json_payload (parameters c) = Ok tt /\
    contract_digest "action-parameters-v1" (parameters c) = Ok (parameter_digest c);
  ao_verification : verification_requirements c <> [];
  ao_decision : forall d, decision_ref c = Some d ->
    HumanCenteredContractRefV1.kind d = KDecision /\
    d ∈ HumanCenteredContractMetadataV1.dependency_refs (metadata c);
  ao_high_impact : 2 <= ImpactLevelV1.rank (impact_level c) ->
    authorization_state c <> NotRequired /\ decision_ref c <> None;
  ao_irreversible : reversible c = false -> decision_ref c <> None;
  ao_reversible : reversible c = true -> compensation_operations c <> [];
}.

Ltac destruct_ex := repeat match goal with H : exists _, _ |- _ => destruct H end.

Lemma action_validate_ok c : validate c = Ok tt -> action_ok c.
Proof.
  unfold validate. intros H. inv_ok. 
  rewrite ?orb_false_iff, ?andb_false_iff, ?negb_false_iff, ?is_nil_false, ?bool_decide_true_iff,
    ?bool_decide_false_iff, ?is_some_true, ?orb_false_iff, ?N.leb_gt in *.
  change (ImpactLevelV1.rank ImpactLevelV1.High) with 2 in *. destruct_and!. subst. split.
  - done.
  - done.
  - intros d Hd. rewrite Hd in *. inv_ok.
    rewrite orb_false_iff, !negb_false_iff, bool_decide_true_iff, contains_true in *. done.
  - intros Hr. split; intros Hx; rewrite Hx in *; destruct_or?; destruct_and?; destruct_ex; first [lia | done].
  - intros Hr Hx. rewrite Hr, Hx in *. destruct_or?; destruct_and?; destruct_ex; done.
  - intros Hr Hx. rewrite Hr, Hx in *. destruct_or?; done.
Qed.

Lemma authorization_validate_Ok (a : ExactActionAuthorizationV1.t) action valid_at :
  ExactActionAuthorizationV1.validate_for a action valid_at = Ok tt <->
  HumanCenteredContractRefV1.validate (ExactActionAuthorizationV1.action_ref a) = Ok tt /\
  is_nil_uuid (ExactActionAuthorizationV1.authorization_id a) = false /\
  record_ref action = Ok (ExactActionAuthorizationV1.action_ref a) /\
  ExactActionAuthorizationV1.parameter_digest a = parameter_digest action /\
  ExactActionAuthorizationV1.actor_ref a
    = AuthorityContextV1.actor_ref (ExactActionAuthorizationV1.context_of action) /\
  ExactActionAuthorizationV1.scope_ref a
    = AuthorityContextV1.scope_ref (ExactActionAuthorizationV1.context_of action) /\
  contract_digest "authority-context-v1" (Json.to_json (ExactActionAuthorizationV1.context_of action))
    = Ok (ExactActionAuthorizationV1.authority_context_digest a) /\
  1 <= ExactActionAuthorizationV1.issued_at a <= valid_at /\
  valid_at < ExactActionAuthorizationV1.expires_at a /\
  ExactActionAuthorizationV1.schema_version a = HUMAN_CENTERED_SCHEMA_VERSION.
Proof.
  unfold ExactActionAuthorizationV1.validate_for. split.
  - intros H. inv_ok.
    rewrite ?orb_false_iff, ?negb_false_iff, ?bool_decide_true_iff, ?N.eqb_neq, ?N.leb_gt, ?N.ltb_ge in *.
    destruct_and!. subst. split_and!; first [done | congruence | lia].
  - intros (Hr & Hid & Href & Hp & Ha & Hs & Hc & Ht & He & Hv).
    rewrite bind_unit_Ok. split; [by apply name_contract_valid in Href|].
    rewrite bind_unit_Ok. split; [done|]. rewrite reject_Ok. split; [done|].
    rewrite bind_Ok. eexists. split; [exact Href|]. rewrite reject_Ok.
    rewrite !orb_false_iff, !negb_false_iff, !bool_decide_true_iff. split; [done|].
    rewrite bind_Ok. eexists. split; [exact Hc|]. rewrite reject_Ok.
    rewrite !orb_false_iff, !negb_false_iff, !bool_decide_true_iff, N.eqb_neq, !N.leb_gt, N.ltb_ge.
    split; [|done]. split_and!; first [done | lia].
Qed.

Lemma check_facts_Admit facts :
  ActionAdmission.outcome (ActionAdmission.check_facts facts) = ActionAdmission.Admit <->
  ActionAdmission.capability_registered facts = true /\ ActionAdmission.capability_enabled facts = true /\
  ActionAdmission.actor_authority_valid facts = true /\ ActionAdmission.agent_authority_valid facts = true /\
  ActionAdmission.parameters_valid facts = true /\ ActionAdmission.preconditions_satisfied facts = true /\
  ActionAdmission.policy_allows facts = true /\ ActionAdmission.verification_available facts = true /\
  ActionAdmission.compensation_available_if_required facts = true /\
  ActionAdmission.dependencies_current facts = true.
Proof.
  unfold ActionAdmission.check_facts. set (reasons := reasons_for _). cbn [ActionAdmission.outcome].
  rewrite is_nil_choice by done. unfold reasons. rewrite reasons_for_nil. cbn [forallb snd].
  rewrite !andb_true_iff, !negb_involutive. tauto.
Qed.

(** The authorization an action needs before it may be admitted. *)
Definition authorized (action : t) (authorization : option ExactActionAuthorizationV1.t)
    (valid_at : N) : Prop :=
  match authorization_state action with
  | NotRequired => True
  | Pending | Authorized =>
      exists a, authorization = Some a /\
        ExactActionAuthorizationV1.validate_for a action valid_at = Ok tt /\
        ExactActionAuthorizationV1.decision a = Approve
  | _ => False
  end.

Lemma action_admission_Admit action facts authorization valid_at :
  ActionAdmission.outcome (ActionAdmission.evaluate_action_admission action facts authorization valid_at)
    = ActionAdmission.Admit <->
  validate action = Ok tt /\
  1 <= valid_at < HumanCenteredContractMetadataV1.valid_until (metadata action) /\
  authorized action authorization valid_at /\
  ActionAdmission.outcome (ActionAdmission.check_facts facts) = ActionAdmission.Admit.
Proof.
  unfold ActionAdmission.evaluate_action_admission, authorized.
  destruct (is_err (validate action)) eqn:Hv.
  { split; [done|]. intros [Hok _]. by rewrite Hok in Hv. }
  apply is_err_false in Hv. destruct (_ || _) eqn:Ht.
  { split; [done|]. rewrite orb_true_iff, N.eqb_eq, N.leb_le in Ht. intros (_ & ? & _). lia. }
  rewrite orb_false_iff, N.eqb_neq, N.leb_gt in Ht.
  assert (1 <= valid_at < HumanCenteredContractMetadataV1.valid_until (metadata action)) by lia.
  assert (forall b : bool, ActionAdmission.outcome
      (if b then ActionAdmission.rejected_action_admission "exact_action_authorization_invalid"
       else ActionAdmission.check_facts facts) = ActionAdmission.Admit <->
    b = false /\ ActionAdmission.outcome (ActionAdmission.check_facts facts) = ActionAdmission.Admit) as Hb
    by (intros []; naive_solver).
  destruct (authorization_state action), authorization as [a|];
    rewrite ?Hb, ?orb_false_iff, ?is_err_false, ?negb_false_iff, ?bool_decide_true_iff; naive_solver.
Qed.
End action_facts.

Section action_theorems.
Context {C : Crates}.
Import ActionContractV1.

(** C38. An action is admitted for execution exactly when its contract is valid
    and unexpired, it is authorized as its state requires (never when denied,
    expired or revoked; by an approval of exactly this action when pending or
    authorized), and all ten admission facts hold. *)
Theorem action_admission_iff action facts authorization valid_at :
  ActionAdmission.outcome (ActionAdmission.evaluate_action_admission action facts authorization valid_at)
    = ActionAdmission.Admit <->
  validate action = Ok tt /\
  1 <= valid_at < HumanCenteredContractMetadataV1.valid_until (metadata action) /\
  authorized action authorization valid_at /\
  ActionAdmission.capability_registered facts = true /\ ActionAdmission.capability_enabled facts = true /\
  ActionAdmission.actor_authority_valid facts = true /\ ActionAdmission.agent_authority_valid facts = true /\
  ActionAdmission.parameters_valid facts = true /\ ActionAdmission.preconditions_satisfied facts = true /\
  ActionAdmission.policy_allows facts = true /\ ActionAdmission.verification_available facts = true /\
  ActionAdmission.compensation_available_if_required facts = true /\
  ActionAdmission.dependencies_current facts = true.
Proof. by rewrite action_admission_Admit, check_facts_Admit. Qed.

(** No action of high or critical impact is ever admitted without a current
    approval by the contract's own actor, within its own scope, of exactly this
    action and these parameters, and without a decision it depends on; an
    irreversible action needs such a decision too, and a reversible one names
    how to compensate it. *)
Theorem high_impact_requires_exact_approval action facts authorization valid_at :
  ActionAdmission.outcome (ActionAdmission.evaluate_action_admission action facts authorization valid_at)
    = ActionAdmission.Admit ->
  (2 <= ImpactLevelV1.rank (impact_level action) ->
    exists a, authorization = Some a /\
      ExactActionAuthorizationV1.decision a = Approve /\
      record_ref action = Ok (ExactActionAuthorizationV1.action_ref a) /\
      contract_digest "action-parameters-v1" (parameters action)
        = Ok (ExactActionAuthorizationV1.parameter_digest a) /\
      ExactActionAuthorizationV1.actor_ref a
        = AuthorityContextV1.actor_ref (ExactActionAuthorizationV1.context_of action) /\
      ExactActionAuthorizationV1.scope_ref a
        = AuthorityContextV1.scope_ref (ExactActionAuthorizationV1.context_of action) /\
      ExactActionAuthorizationV1.issued_at a <= valid_at < ExactActionAuthorizationV1.expires_at a) /\
  (2 <= ImpactLevelV1.rank (impact_level action) \/ reversible action = false ->
    exists d, decision_ref action = Some d /\ HumanCenteredContractRefV1.kind d = KDecision /\
      d ∈ HumanCenteredContractMetadataV1.dependency_refs (metadata action)) /\
  (reversible action = true -> compensation_operations action <> []).
Proof.
  intros (Hv & _ & Hauth & _)%action_admission_Admit.
  apply action_validate_ok in Hv as [(_ & _ & Hp) _ Hd Hh Hi Hr].
  split; [|split; [|done]].
  - intros [Hn _]%Hh. unfold authorized in Hauth.
    assert (exists a, authorization = Some a /\
        ExactActionAuthorizationV1.validate_for a action valid_at = Ok tt /\
        ExactActionAuthorizationV1.decision a = Approve) as (a & -> & Ha & Happ)
      by (by destruct (authorization_state action)).
    exists a. apply authorization_validate_Ok in Ha. destruct_and!.
    split_and!; first [done | congruence | lia].
  - intros Hc. destruct (decision_ref action) as [d|] eqn:E.
    + exists d. split; [done|]. by apply Hd.
    + exfalso. destruct Hc as [[_ Hc]%Hh|Hc%Hi]; done.
Qed.

(** One authorization never covers two different actions: if it validates
    for both, they are the same contract or the contract digest collides. *)
Theorem authorization_covers_one_action (L : CratesLaws) a action other t1 t2 :
  ExactActionAuthorizationV1.validate_for a action t1 = Ok tt ->
  ExactActionAuthorizationV1.validate_for a other t2 = Ok tt ->
  action = other \/ digest_collision "action-contract-v1".
Proof.
  rewrite !authorization_validate_Ok. intros (_ & _ & H1 & _) (_ & _ & H2 & _).
  exact (record_refs_bind (A:=t) _ _ _ H1 H2).
Qed.
End action_theorems.

Module ActionSample.
Import Toy.
Definition issued : Checked ActionContractV1.t :=
  ActionContractV1.issue (Sample.metadata KAction 13 [Sample.ref KDecision 11]) (Some (Sample.ref KDecision 11))
    (Sample.reference "operation:book") (Obj [(txt "room", Str (txt "A"))]) [] [] Pending ImpactLevelV1.High
    true (txt "key-1") [txt "booking confirmed"] [Sample.reference "operation:cancel"].
Definition contract : ActionContractV1.t :=
  Eval vm_compute in match issued with Ok c => c | Err _ =>
    ActionContractV1.mk (Sample.metadata KAction 13 []) None (Sample.reference "") Null [] [] [] Denied
      ImpactLevelV1.Low false [] [] [] [] end.
Definition authorization : ExactActionAuthorizationV1.t :=
  Eval vm_compute in match ExactActionAuthorizationV1.issue (Toy.uuid 77) contract (Sample.reference "actor:1")
      Approve (Sample.reference "scope:1") 10 500 with
  | Ok a => a
  | Err _ => ExactActionAuthorizationV1.mk (Toy.uuid 77) (Sample.ref KAction 13) [] (Sample.reference "") Deny
      (Sample.reference "") [] 0 0 0 end.
Definition facts : ActionAdmission.ActionAdmissionFactsV1 :=
  ActionAdmission.mkFacts true true true true true true true true true true.
End ActionSample.

Lemma high_impact_requires_exact_approval_witness :
  ActionAdmission.outcome (ActionAdmission.evaluate_action_admission (C:=Toy.crates) ActionSample.contract
    ActionSample.facts (Some ActionSample.authorization) 100) = ActionAdmission.Admit /\
  exists d, ActionContractV1.decision_ref ActionSample.contract = Some d /\
    HumanCenteredContractRefV1.kind d = KDecision.
Proof.
  assert (ActionAdmission.outcome (ActionAdmission.evaluate_action_admission (C:=Toy.crates) ActionSample.contract
    ActionSample.facts (Some ActionSample.authorization) 100) = ActionAdmission.Admit) as Ha
    by (vm_compute; reflexivity).
  split; [exact Ha|].
  destruct (high_impact_requires_exact_approval (C:=Toy.crates) _ _ _ _ Ha) as (_ & Hd & _).
  destruct Hd as (d & Hd & Hk & _); [left; vm_compute; discriminate|]. exists d. split; assumption.
Defined.

Lemma authorization_covers_one_action_witness :
  ExactActionAuthorizationV1.validate_for (C:=Toy.crates) ActionSample.authorization ActionSample.contract 20
    = Ok tt /\
  (ActionSample.contract = ActionSample.contract \/ digest_collision (C:=Toy.crates) "action-contract-v1").
Proof.
  assert (forall t, t = 20 \/ t = 30 -> ExactActionAuthorizationV1.validate_for (C:=Toy.crates)
    ActionSample.authorization ActionSample.contract t = Ok tt) as Hv
    by (intros t [-> | ->]; vm_compute; reflexivity).
  split; [apply Hv; left; reflexivity|].
  apply (authorization_covers_one_action (C:=Toy.crates) toy_laws ActionSample.authorization
    ActionSample.contract ActionSample.contract 20 30); apply Hv; [left|right]; reflexivity.
Defined.
