(* ===== verification/Turn.v ===== *)
(** * Turn: turn coordination plans ([human_centered/turn.rs])

    The plan that orders the responses and actions of one turn.  Its two graph
    algorithms are in [Graph]; here they run on contract references. *)

From stdpp Require Import base list gmap fin_sets relations sorting strings.
From Stdlib Require Import NArith Lia.
From S2P Require Import Prelude Text Json Crates Common Contract Guards Graph.
Import TurnCoordination.

Inductive TurnGateKindV1 : Type :=
| UserAuthorization | UserInput | PolicyApproval | HumanApprover | GDependency.
#[export] Instance gate_kind_eq_dec : EqDecision TurnGateKindV1.
Proof. solve_decision. Defined.
#[export] Instance gate_kind_json : ToJson TurnGateKindV1 := fun k =>
  Str (txt match k with
  | UserAuthorization => "user_authorization" | UserInput => "user_input"
  | PolicyApproval => "policy_approval" | HumanApprover => "human_approver"
  | GDependency => "dependency" end).
#[export] Instance gate_kind_json_inj : JsonInj TurnGateKindV1.
Proof. by intros [] [] [=]. Qed.

Module TurnDependencyEdgeV1.
Record t := mk { before : ContractRef; after : ContractRef }.
Section with_crates.
Context {C : Crates}.
#[global] Instance to_json : ToJson t := fun e =>
  Obj [(txt "before", Json.to_json (before e)); (txt "after", Json.to_json (after e))].
#[global] Instance json_inj {L : CratesLaws} : JsonInj t.
Proof. solve_json_inj. Qed.
End with_crates.
Definition pair (e : t) : ContractRef * ContractRef := (before e, after e).
End TurnDependencyEdgeV1.

Module TurnGateV1.
Record t := mk {
  gate_kind : TurnGateKindV1;
  required_before : ContractRef;
  policy_ref : option ReferenceV1.t;
}.
Section with_crates.
Context {C : Crates}.
#[global] Instance to_json : ToJson t := fun g =>
  Obj [(txt "gate_kind", Json.to_json (gate_kind g));
       (txt "required_before", Json.to_json (required_before g));
       (txt "policy_ref", Json.to_json (policy_ref g))].
#[global] Instance json_inj {L : CratesLaws} : JsonInj t.
Proof. solve_json_inj. Qed.
End with_crates.
End TurnGateV1.

Inductive TurnFailurePolicyV1 : Type :=
| ReportOnly | ReportAndOfferRecovery | CompensateThenReport | Escalate.
#[export] Instance failure_policy_json : ToJson TurnFailurePolicyV1 := fun p =>
  Str (txt match p with
  | ReportOnly => "report_only" | ReportAndOfferRecovery => "report_and_offer_recovery"
  | CompensateThenReport => "compensate_then_report" | Escalate => "escalate" end).
#[export] Instance failure_policy_json_inj : JsonInj TurnFailurePolicyV1.
Proof. by intros [] [] [=]. Qed.

Inductive TurnProgressPolicyV1 : Type := Silent | AcknowledgeOnly | StreamStatus.
#[export] Instance progress_policy_json : ToJson TurnProgressPolicyV1 := fun p =>
  Str (txt match p with
  | Silent => "silent" | AcknowledgeOnly => "acknowledge_only" | StreamStatus => "stream_status" end).
#[export] Instance progress_policy_json_inj : JsonInj TurnProgressPolicyV1.
Proof. by intros [] [] [=]. Qed.

Module TurnCoordinationPlanV1.
Record t := mk {
  metadata : Metadata;
  mode : TurnCoordinationModeV1;
  response_refs : list ContractRef;
  action_refs : list ContractRef;
  dependencies : list TurnDependencyEdgeV1.t;
  gates : list TurnGateV1.t;
  failure_policy : TurnFailurePolicyV1;
  progress_policy : TurnProgressPolicyV1;
  rationale : text;
  record_digest : text;
}.

Definition set_record_digest (d : text) (c : t) : t :=
  mk (metadata c) (mode c) (response_refs c) (action_refs c) (dependencies c) (gates c)
    (failure_policy c) (progress_policy c) (rationale c) d.

Definition edges (c : t) : list (ContractRef * ContractRef) :=
  map TurnDependencyEdgeV1.pair (dependencies c).
Definition known_refs (c : t) : gset ContractRef := list_to_set (response_refs c ++ action_refs c).

(** The body of [for edge in &self.dependencies]. *)
Definition check_edge (c : t) (edge : TurnDependencyEdgeV1.t) : Checked unit :=
  _ ← HumanCenteredContractRefV1.validate (TurnDependencyEdgeV1.before edge);
  _ ← HumanCenteredContractRefV1.validate (TurnDependencyEdgeV1.after edge);
  reject (TurnDependencyEdgeV1.before edge == TurnDependencyEdgeV1.after edge)
         || negb (bool_decide (TurnDependencyEdgeV1.before edge ∈ known_refs c))
         || negb (bool_decide (TurnDependencyEdgeV1.after edge ∈ known_refs c))
    with InvalidDependency;
  Ok tt.

Definition authorizes (gate : TurnGateV1.t) : bool := TurnGateV1.gate_kind gate == UserAuthorization.

(** The body of [for gate in &self.gates]. *)
Definition check_gate (c : t) (gate : TurnGateV1.t) : Checked unit :=
  _ ← HumanCenteredContractRefV1.validate (TurnGateV1.required_before gate);
  reject negb (bool_decide (TurnGateV1.required_before gate ∈ known_refs c)) with InvalidDependency;
  reject authorizes gate && (HumanCenteredContractRefV1.kind (TurnGateV1.required_before gate) != KAction)
    with InvalidDependency;
  Ok tt.

Section with_crates.
Context {C : Crates}.

Definition digest_input (c : t) : Value :=
  Arr [Json.to_json (metadata c); Json.to_json (mode c); Json.to_json (response_refs c);
       Json.to_json (action_refs c); Json.to_json (dependencies c); Json.to_json (gates c);
       Json.to_json (failure_policy c); Json.to_json (progress_policy c);
       Json.to_json (rationale c)].

Definition validate (c : t) : Checked unit :=
  _ ← HumanCenteredContractMetadataV1.validate (metadata c);
  reject HumanCenteredContractMetadataV1.contract_kind (metadata c) != KTurnCoordination
    with ContractKindMismatch;
  _ ← validate_required_text (rationale c);
  reject is_nil (response_refs c)
         || existsb (fun reference => HumanCenteredContractRefV1.kind reference != KResponse)
              (response_refs c)
         || existsb (fun reference => HumanCenteredContractRefV1.kind reference != KAction)
              (action_refs c)
    with InvalidContract;
  let action_mode := mode c != RespondOnly in
  reject eqb action_mode (is_nil (action_refs c)) with InvalidContract;
  let confirmation_mode := mode c == RespondThenConfirmThenAct in
  let has_authorization_gate := existsb authorizes (gates c) in
  reject negb (eqb confirmation_mode has_authorization_gate) with InvalidContract;
  reject existsb (fun reference =>
           negb (contains reference (HumanCenteredContractMetadataV1.dependency_refs (metadata c))))
           (elements (known_refs c))
    with InvalidDependency;
  _ ← for_each (check_edge c) (dependencies c);
  reject negb (dependency_graph_is_acyclic (known_refs c) (edges c)) with InvalidDependency;
  _ ← for_each (check_gate c) (gates c);
  reject confirmation_mode
         && existsb (fun action =>
              negb (existsb (fun gate =>
                authorizes gate && (TurnGateV1.required_before gate == action)) (gates c)))
              (action_refs c)
    with InvalidDependency;
  let response_before_action :=
    match mode c with
    | RespondThenAct | RespondThenConfirmThenAct | AcknowledgeThenRun => true
    | _ => false
    end in
  reject response_before_action
         && existsb (fun action =>
              negb (existsb (fun response => dependency_path_exists response action (edges c))
                      (response_refs c)))
              (action_refs c)
    with InvalidDependency;
  reject (mode c == ActThenRespond)
         && existsb (fun response =>
              negb (existsb (fun action => dependency_path_exists action response (edges c))
                      (action_refs c)))
              (response_refs c)
    with InvalidDependency;
  check_record_digest "turn-coordination-plan-v1" digest_input record_digest c.

Definition issue (metadata : Metadata) (mode : TurnCoordinationModeV1)
    (response_refs action_refs : list ContractRef) (dependencies : list TurnDependencyEdgeV1.t)
    (gates : list TurnGateV1.t) (failure_policy : TurnFailurePolicyV1)
    (progress_policy : TurnProgressPolicyV1) (rationale : text) : Checked t :=
  seal "turn-coordination-plan-v1" digest_input set_record_digest validate
    (mk metadata mode response_refs action_refs dependencies gates failure_policy progress_policy
       rationale []).

Definition record_ref : t -> Checked ContractRef :=
  name_contract KTurnCoordination metadata record_digest validate.

#[global] Instance to_json : ToJson t := fun c =>
  Obj [(txt "metadata", Json.to_json (metadata c)); (txt "mode", Json.to_json (mode c));
   (txt "response_refs", Json.to_json (response_refs c));
   (txt "action_refs", Json.to_json (action_refs c));
   (txt "dependencies", Json.to_json (dependencies c)); (txt "gates", Json.to_json (gates c));
   (txt "failure_policy", Json.to_json (failure_policy c));
   (txt "progress_policy", Json.to_json (progress_policy c));
   (txt "rationale", Json.to_json (rationale c));
   (txt "record_digest", Json.to_json (record_digest c))].

#[global] Instance contract : Contract t := {
  contract_kind_of := KTurnCoordination;
  contract_domain := "turn-coordination-plan-v1";
  contract_metadata := metadata;
  contract_record_digest := record_digest;
  with_record_digest := set_record_digest;
  contract_digest_input := digest_input;
  contract_validate := validate;
  contract_record_ref := record_ref;
}.
#[global] Instance contract_laws : ContractLaws t.
Proof.
  split; [|done|done|].
  - intros c H. cbn in H. unfold validate in H. solve_contract_valid.
  - intros L [] [] _ _ H E. cbn in H, E. unfold digest_input in H. solve_digest_inj H.
Qed.
End with_crates.
End TurnCoordinationPlanV1.

Section turn_theorems.
Context {C : Crates}.
Import TurnCoordinationPlanV1.

Lemma checked_edges_within c :
  Forall (fun e => check_edge c e = Ok tt) (dependencies c) -> within (known_refs c) (edges c).
Proof.
  unfold within, edges. rewrite Forall_fmap. intros H. eapply Forall_impl; [exact H|].
  intros e He. unfold check_edge in He. inv_ok.
  rewrite !orb_false_iff, !negb_false_iff, !bool_decide_true_iff in *. cbn. tauto.
Qed.

(** In an accepted plan the dependencies form a partial order on the plan's
    own responses and actions; when the mode puts a response first, every
    action waits for some response, and when it puts the action first every
    response waits for some action; in confirmation mode every action has a user
    authorization gate before it, and in every other mode there is no such
    gate; and a plan that only responds contains no action. *)
Theorem accepted_plan_orders_the_turn c :
  validate c = Ok tt ->
  acyclic (edges c) /\
  (forall x y, edge_of (edges c) x y -> x ∈ response_refs c ++ action_refs c /\
                                        y ∈ response_refs c ++ action_refs c) /\
  (mode c = RespondThenAct \/ mode c = RespondThenConfirmThenAct \/ mode c = AcknowledgeThenRun ->
     forall a, a ∈ action_refs c -> exists r, r ∈ response_refs c /\ tc (edge_of (edges c)) r a) /\
  (mode c = ActThenRespond ->
     forall r, r ∈ response_refs c -> exists a, a ∈ action_refs c /\ tc (edge_of (edges c)) a r) /\
  (mode c = RespondThenConfirmThenAct ->
     forall a, a ∈ action_refs c -> exists g, g ∈ gates c /\
       TurnGateV1.gate_kind g = UserAuthorization /\ TurnGateV1.required_before g = a) /\
  (mode c <> RespondThenConfirmThenAct ->
     forall g, g ∈ gates c -> TurnGateV1.gate_kind g <> UserAuthorization) /\
  (mode c = RespondOnly <-> action_refs c = []) /\
  (forall r, r ∈ response_refs c ++ action_refs c ->
     r ∈ HumanCenteredContractMetadataV1.dependency_refs (metadata c)).
Proof.
  unfold validate. intros H.
  apply bind_unit_Ok in H as [_ H]. apply reject_Ok in H as [_ H].
  apply bind_unit_Ok in H as [_ H]. apply reject_Ok in H as [_ H].
  apply reject_Ok in H as [Hmode H]. apply reject_Ok in H as [Hconf H].
  apply reject_Ok in H as [Hknown H]. apply bind_unit_Ok in H as [Hedges H].
  apply reject_Ok in H as [Hgraph H]. apply bind_unit_Ok in H as [_ H].
  apply reject_Ok in H as [Hgates H]. apply reject_Ok in H as [Hfirst H].
  apply reject_Ok in H as [Hlast _].
  apply for_each_Ok, checked_edges_within in Hedges. apply negb_false_iff in Hgraph.
  rewrite acyclic_iff in Hgraph by done.
  assert (forall (P : ContractRef -> ContractRef -> bool) xs ys,
    existsb (fun x => negb (existsb (P x) ys)) xs = false ->
    forall x, x ∈ xs -> exists y, y ∈ ys /\ P x y = true) as Hex.
  { intros P xs ys Hf x Hx. rewrite existsb_false, Forall_forall in Hf. apply Hf in Hx.
    apply negb_false_iff, existsb_true, Exists_exists in Hx. done. }
  split; [done|]. split; [|split; [|split; [|split; [|split; [|split]]]]].
  - intros x y Hxy. unfold within in Hedges. rewrite Forall_forall in Hedges.
    apply Hedges in Hxy. unfold known_refs in Hxy. by rewrite !elem_of_list_to_set in Hxy.
  - intros Hm a Ha. assert (existsb (fun action => negb (existsb (fun response =>
      dependency_path_exists response action (edges c)) (response_refs c))) (action_refs c) = false) as Hf.
    { destruct Hm as [Hm|[Hm|Hm]]; by rewrite Hm in Hfirst. }
    destruct (Hex (fun a r => dependency_path_exists r a (edges c)) _ _ Hf a Ha) as (r & Hr & Hp).
    exists r. by rewrite path_exists_iff in Hp.
  - intros Hm r Hr. rewrite Hm in Hlast. rewrite bool_decide_eq_true_2 in Hlast by done.
    destruct (Hex (fun r a => dependency_path_exists a r (edges c)) _ _ Hlast r Hr) as (a & Ha & Hp).
    exists a. by rewrite path_exists_iff in Hp.
  - intros Hm a Ha. rewrite Hm, bool_decide_eq_true_2 in Hgates by done. cbn [andb] in Hgates.
    rewrite existsb_false, Forall_forall in Hgates. apply Hgates in Ha.
    apply negb_false_iff, existsb_true, Exists_exists in Ha as (g & Hg & Ha). exists g.
    unfold authorizes in Ha. by rewrite andb_true_iff, !bool_decide_true_iff in Ha.
  - intros Hm g Hg Hk. rewrite (bool_decide_eq_false_2 (mode c = _)) in Hconf by done.
    apply negb_false_iff, eqb_prop in Hconf. symmetry in Hconf.
    rewrite existsb_false, Forall_forall in Hconf. apply Hconf in Hg.
    unfold authorizes in Hg. by rewrite bool_decide_false_iff in Hg.
  - rewrite eqb_false_iff in Hmode.
    destruct (bool_decide_reflect (mode c = RespondOnly)), (action_refs c); cbn in Hmode; naive_solver.
  - intros r Hr. rewrite existsb_false, Forall_forall in Hknown.
    specialize (Hknown r). rewrite elem_of_elements in Hknown. unfold known_refs in Hknown.
    rewrite elem_of_list_to_set, negb_false_iff, contains_true in Hknown. auto.
Qed.
End turn_theorems.

Module TurnSample.
Import Toy.
Definition issued : Checked TurnCoordinationPlanV1.t :=
  let r := Sample.ref KResponse 12 in let a := Sample.ref KAction 13 in
  TurnCoordinationPlanV1.issue (Sample.metadata KTurnCoordination 14 [r; a]) RespondThenConfirmThenAct
    [r] [a] [TurnDependencyEdgeV1.mk r a] [TurnGateV1.mk UserAuthorization a None] ReportOnly Silent
    (txt "confirm before acting").
Definition plan : TurnCoordinationPlanV1.t :=
  Eval vm_compute in match issued with Ok c => c | Err _ =>
    TurnCoordinationPlanV1.mk (Sample.metadata KTurnCoordination 14 []) RespondOnly [] [] [] [] Escalate
      Silent [] [] end.
End TurnSample.

Lemma accepted_plan_orders_the_turn_witness :
  TurnCoordinationPlanV1.validate (C:=Toy.crates) TurnSample.plan = Ok tt /\
  acyclic (TurnCoordinationPlanV1.edges TurnSample.plan) /\
  TurnCoordinationPlanV1.mode TurnSample.plan = RespondThenConfirmThenAct.
Proof.
  assert (TurnCoordinationPlanV1.validate (C:=Toy.crates) TurnSample.plan = Ok tt) as Hv
    by (vm_compute; reflexivity).
  split; [exact Hv|]. split; [|reflexivity].
  apply (accepted_plan_orders_the_turn (C:=Toy.crates) TurnSample.plan Hv).
Defined.
