(* ===== verification/Outcome.v ===== *)
(** * Outcome: outcome records ([human_centered/outcome.rs]) *)

From stdpp Require Import base list gmap sorting strings.
From Stdlib Require Import NArith Lia.
From S2P Require Import Prelude Text Json Crates Common Contract.

Inductive OutcomeStateV1 : Type := Observed | PartiallyObserved | OUnknown | Conflicted.
#[export] Instance outcome_state_eq_dec : EqDecision OutcomeStateV1.
Proof. solve_decision. Defined.
#[export] Instance outcome_state_json : ToJson OutcomeStateV1 := fun s =>
  Str (txt match s with
  | Observed => "observed" | PartiallyObserved => "partially_observed" | OUnknown => "unknown"
  | Conflicted => "conflicted" end).
#[export] Instance outcome_state_json_inj : JsonInj OutcomeStateV1.
Proof. by intros [] [] [=]. Qed.

Inductive OutcomeAttributionV1 : Type :=
| IntentResolution | DecisionQuality | ExecutionQuality | EnvironmentChange | Mixed | InsufficientEvidence.
#[export] Instance attribution_eq_dec : EqDecision OutcomeAttributionV1.
Proof. solve_decision. Defined.
#[export] Instance attribution_json : ToJson OutcomeAttributionV1 := fun a =>
  Str (txt match a with
  | IntentResolution => "intent_resolution" | DecisionQuality => "decision_quality"
  | ExecutionQuality => "execution_quality" | EnvironmentChange => "environment_change"
  | Mixed => "mixed" | InsufficientEvidence => "insufficient_evidence" end).
#[export] Instance attribution_json_inj : JsonInj OutcomeAttributionV1.
Proof. by intros [] [] [=]. Qed.

Module OutcomeRecordV1.
Record t := mk {
  metadata : Metadata;
  decision_ref : option ContractRef;
  action_ref : option ContractRef;
  execution_receipt_ref : option ContractRef;
  objective : text;
  state : OutcomeStateV1;
  observed_results : list text;
  success_criteria_satisfied : list text;
  success_criteria_unsatisfied : list text;
  attribution : OutcomeAttributionV1;
  attribution_confidence : UnitIntervalBasisPointsV1.t;
  evidence_refs : list ReferenceV1.t;
  follow_up_required : bool;
  record_digest : text;
}.

Definition set_record_digest (d : text) (c : t) : t :=
  mk (metadata c) (decision_ref c) (action_ref c) (execution_receipt_ref c) (objective c)
    (state c) (observed_results c) (success_criteria_satisfied c)
    (success_criteria_unsatisfied c) (attribution c) (attribution_confidence c) (evidence_refs c)
    (follow_up_required c) d.

(** The check on each optional reference: valid, of the right kind, among the
    dependencies, and (for a receipt) next to an action. *)
Definition check_optional (c : t) (reference : option ContractRef) (kind : HumanCenteredContractKindV1)
    (also : bool) : Checked unit :=
  match reference with
  | Some reference =>
      _ ← HumanCenteredContractRefV1.validate reference;
      reject (HumanCenteredContractRefV1.kind reference != kind)
             || negb (contains reference (HumanCenteredContractMetadataV1.dependency_refs (metadata c)))
             || negb also
        with InvalidContract;
      Ok tt
  | None => Ok tt
  end.

(** The [match self.state] block. *)
Definition check_state (c : t) : Checked unit :=
  match state c with
  | Observed =>
      reject is_nil (observed_results c) || is_nil (evidence_refs c) with InvalidContract; Ok tt
  | OUnknown =>
      reject negb (is_nil (observed_results c)) || negb (is_nil (success_criteria_satisfied c))
             || negb (is_nil (success_criteria_unsatisfied c)) with InvalidContract; Ok tt
  | Conflicted =>
      reject is_nil (success_criteria_satisfied c) || is_nil (success_criteria_unsatisfied c)
        with InvalidContract; Ok tt
  | PartiallyObserved => Ok tt
  end.

Section with_crates.
Context {C : Crates}.

Definition digest_input (c : t) : Value :=
  Arr [Json.to_json (metadata c); Json.to_json (decision_ref c); Json.to_json (action_ref c);
       Json.to_json (execution_receipt_ref c); Json.to_json (objective c);
       Json.to_json (state c); Json.to_json (observed_results c);
       Json.to_json (success_criteria_satisfied c);
       Json.to_json (success_criteria_unsatisfied c); Json.to_json (attribution c);
       Json.to_json (attribution_confidence c); Json.to_json (evidence_refs c);
       Json.to_json (follow_up_required c)].

Definition validate (c : t) : Checked unit :=
  _ ← HumanCenteredContractMetadataV1.validate (metadata c);
  reject HumanCenteredContractMetadataV1.contract_kind (metadata c) != KOutcome
    with ContractKindMismatch;
  _ ← validate_required_text (objective c);
  _ ← validate_text_collection (observed_results c);
  _ ← validate_text_collection (success_criteria_satisfied c);
  _ ← validate_text_collection (success_criteria_unsatisfied c);
  reject negb (is_some (decision_ref c)) && negb (is_some (action_ref c)) with InvalidContract;
  _ ← check_optional c (decision_ref c) KDecision true;
  _ ← check_optional c (action_ref c) KAction true;
  _ ← check_optional c (execution_receipt_ref c) KExecutionReceipt (is_some (action_ref c));
  reject (state c == OUnknown) && (attribution c != InsufficientEvidence) with InvalidContract;
  _ ← check_state c;
  reject ((attribution c == ExecutionQuality) && negb (is_some (execution_receipt_ref c)))
         || ((attribution c == DecisionQuality) && negb (is_some (decision_ref c)))
    with InvalidContract;
  check_record_digest "outcome-record-v1" digest_input record_digest c.

Definition issue (metadata : Metadata) (decision_ref action_ref execution_receipt_ref : option ContractRef)
    (objective : text) (state : OutcomeStateV1)
    (observed_results success_criteria_satisfied success_criteria_unsatisfied : list text)
    (attribution : OutcomeAttributionV1) (attribution_confidence : UnitIntervalBasisPointsV1.t)
    (evidence_refs : list ReferenceV1.t) (follow_up_required : bool) : Checked t :=
  evidence_refs ← canonical_references evidence_refs;
  seal "outcome-record-v1" digest_input set_record_digest validate
    (mk metadata decision_ref action_ref execution_receipt_ref objective state observed_results
       success_criteria_satisfied success_criteria_unsatisfied attribution attribution_confidence
       evidence_refs follow_up_required []).

Definition record_ref : t -> Checked ContractRef :=
  name_contract KOutcome metadata record_digest validate.

#[global] Instance to_json : ToJson t := fun c =>
  Obj [(txt "metadata", Json.to_json (metadata c));
   (txt "decision_ref", Json.to_json (decision_ref c));
   (txt "action_ref", Json.to_json (action_ref c));
   (txt "execution_receipt_ref", Json.to_json (execution_receipt_ref c));
   (txt "objective", Json.to_json (objective c)); (txt "state", Json.to_json (state c));
   (txt "observed_results", Json.to_json (observed_results c));
   (txt "success_criteria_satisfied", Json.to_json (success_criteria_satisfied c));
   (txt "success_criteria_unsatisfied", Json.to_json (success_criteria_unsatisfied c));
   (txt "attribution", Json.to_json (attribution c));
   (txt "attribution_confidence", Json.to_json (attribution_confidence c));
   (txt "evidence_refs", Json.to_json (evidence_refs c));
   (txt "follow_up_required", Json.to_json (follow_up_required c));
   (txt "record_digest", Json.to_json (record_digest c))].

#[global] Instance contract : Contract t := {
  contract_kind_of := KOutcome;
  contract_domain := "outcome-record-v1";
  contract_metadata := metadata;
  contract_record_digest := record_digest;
  with_record_digest := set_record_digest;
  contract_digest_input := digest_input;
  contract_validate := validate;
  contract_record_ref := record_ref;
}.
#[global] Instance contract_laws : ContractLaws t.
Proof.
  split; [|done|done|].
  - intros c H. cbn in H. unfold validate in H. solve_contract_valid.
  - intros L [] [] _ _ H E. cbn in H, E. unfold digest_input in H. solve_digest_inj H.
Qed.
End with_crates.
End OutcomeRecordV1.

Section outcome_theorems.
Context {C : Crates}.
Import OutcomeRecordV1.

Lemma check_optional_Ok c reference kind also r :
  check_optional c reference kind also = Ok tt -> reference = Some r ->
  HumanCenteredContractRefV1.kind r = kind /\
  r ∈ HumanCenteredContractMetadataV1.dependency_refs (metadata c) /\ also = true.
Proof.
  intros H ->. cbn in H. apply bind_unit_Ok in H as [_ H]. apply reject_Ok in H as [H _].
  rewrite !orb_false_iff, !negb_false_iff, bool_decide_true_iff, contains_true in H. tauto.
Qed.

(** An accepted outcome claims no more than it can show: an unknown outcome
    reports no result and attributes nothing; an observed one carries results
    and evidence; a conflicted one names criteria on both sides; success is
    attributed to execution only with a receipt, and then also an action, and
    to a decision only with that decision; and whatever it refers to is of the
    right kind and among its dependencies. *)
Theorem outcome_claims_are_grounded c :
  validate c = Ok tt ->
  (state c = OUnknown ->
     attribution c = InsufficientEvidence /\ observed_results c = [] /\
     success_criteria_satisfied c = [] /\ success_criteria_unsatisfied c = []) /\
  (state c = Observed -> observed_results c <> [] /\ evidence_refs c <> []) /\
  (state c = Conflicted -> success_criteria_satisfied c <> [] /\ success_criteria_unsatisfied c <> []) /\
  (attribution c = ExecutionQuality -> exists r a, execution_receipt_ref c = Some r /\ action_ref c = Some a) /\
  (attribution c = DecisionQuality -> exists d, decision_ref c = Some d) /\
  (decision_ref c <> None \/ action_ref c <> None) /\
  (forall r kind, (decision_ref c, KDecision) = (Some r, kind) \/ (action_ref c, KAction) = (Some r, kind) \/
     (execution_receipt_ref c, KExecutionReceipt) = (Some r, kind) ->
     HumanCenteredContractRefV1.kind r = kind /\
     r ∈ HumanCenteredContractMetadataV1.dependency_refs (metadata c)).
Proof.
  unfold validate. intros H.
  apply bind_unit_Ok in H as [_ H]. apply reject_Ok in H as [_ H].
  do 4 apply bind_unit_Ok in H as [_ H]. apply reject_Ok in H as [Hsubject H].
  apply bind_unit_Ok in H as [Hd H]. apply bind_unit_Ok in H as [Ha H]. apply bind_unit_Ok in H as [Hr H].
  apply reject_Ok in H as [Hunk H]. apply bind_unit_Ok in H as [Hst H]. apply reject_Ok in H as [Hatt _].
  unfold check_state in Hst.
  rewrite ?orb_false_iff, ?andb_false_iff, ?negb_false_iff, ?bool_decide_true_iff, ?bool_decide_false_iff,
    ?is_some_true in *.
  assert (forall r, execution_receipt_ref c = Some r -> is_some (action_ref c) = true) as Hra.
  { intros r Hx. by apply (check_optional_Ok _ _ _ _ _ Hr) in Hx as (_ & _ & ?). }
  split; [|split; [|split; [|split; [|split; [|split]]]]].
  - intros Hs. rewrite Hs in *. apply reject_Ok in Hst as [Hst _].
    rewrite !orb_false_iff, !negb_false_iff, !is_nil_true in Hst. destruct Hunk; [done|]. tauto.
  - intros Hs. rewrite Hs in *. apply reject_Ok in Hst as [Hst _].
    by rewrite !orb_false_iff, !is_nil_false in Hst.
  - intros Hs. rewrite Hs in *. apply reject_Ok in Hst as [Hst _].
    by rewrite !orb_false_iff, !is_nil_false in Hst.
  - intros Hx. destruct Hatt as [[?|[r Hx']] _]; [done|].
    destruct (proj1 (is_some_true _) (Hra _ Hx')) as [a Ha']. eauto.
  - intros Hx. destruct Hatt as [_ [?|?]]; done.
  - destruct Hsubject as [[? ->]|[? ->]]; [by left|by right].
  - intros r kind [[= H1 <-]|[[= H1 <-]|[= H1 <-]]];
      [apply (check_optional_Ok _ _ _ _ _ Hd) in H1|apply (check_optional_Ok _ _ _ _ _ Ha) in H1
      |apply (check_optional_Ok _ _ _ _ _ Hr) in H1]; tauto.
Qed.
End outcome_theorems.

Module OutcomeSample.
Import Toy.
Definition issued : Checked OutcomeRecordV1.t :=
  let a := Sample.ref KAction 13 in let r := Sample.ref KExecutionReceipt 15 in
  OutcomeRecordV1.issue (Sample.metadata KOutcome 16 [a; r]) None (Some a) (Some r) (txt "room booked")
    Observed [txt "confirmation received"] [txt "booked"] [] ExecutionQuality
    (UnitIntervalBasisPointsV1.mk 8000) [Sample.reference "evidence:1"] false.
Definition outcome : OutcomeRecordV1.t :=
  Eval vm_compute in match issued with Ok c => c | Err _ =>
    OutcomeRecordV1.mk (Sample.metadata KOutcome 16 []) None None None [] OUnknown [] [] [] Mixed
      UnitIntervalBasisPointsV1.ZERO [] false [] end.
End OutcomeSample.

Lemma outcome_claims_are_grounded_witness :
  OutcomeRecordV1.validate (C:=Toy.crates) OutcomeSample.outcome = Ok tt /\
  exists r a, OutcomeRecordV1.execution_receipt_ref OutcomeSample.outcome = Some r /\
              OutcomeRecordV1.action_ref OutcomeSample.outcome = Some a.
Proof.
  assert (OutcomeRecordV1.validate (C:=Toy.crates) OutcomeSample.outcome = Ok tt) as Hv
    by (vm_compute; reflexivity).
  split; [exact Hv|].
  destruct (outcome_claims_are_grounded (C:=Toy.crates) OutcomeSample.outcome Hv) as (_ & _ & _ & H & _).
  apply H. reflexivity.
Defined.
