(* ===== verification/Trust.v ===== *)
(** * Trust: signed proofs and the trust root ([human_centered/trust.rs])

    Proof claims and the canonical bytes an issuer signs, key policies, and the
    verification of a signed proof against the binding a caller expects.  A
    Rust [String] holds Unicode scalar values, which the injectivity theorem
    takes as [claims_text_ok]; [u64] and [u16] fields are numbers below their
    width. *)

From stdpp Require Import base list gmap fin_sets countable sorting strings.
From Stdlib Require Import NArith Lia.
From S2P Require Import Prelude Text Json Crates Common Contract.

(** [b"idr-proof-v1\0"] *)
Definition PROOF_SIGNATURE_DOMAIN : list N := txt "idr-proof-v1" ++ [0].

Inductive ProofKindV1 : Type :=
| PInputAdmission | PContextSnapshot | PIntentFastPathFacts | PDecisionNecessityFacts
| PTurnCoordinationFacts | PAuthorityGrant | PPolicyEvaluation | PCapability | PHumanConfirmation
| PDependencySnapshot | POutcomeObservation | PExecutionPermit | PProviderExecutionReceipt.

Definition tag (k : ProofKindV1) : N :=
  match k with
  | PInputAdmission => 1 | PContextSnapshot => 2 | PIntentFastPathFacts => 3
  | PDecisionNecessityFacts => 4 | PTurnCoordinationFacts => 5 | PAuthorityGrant => 6
  | PPolicyEvaluation => 7 | PCapability => 8 | PHumanConfirmation => 9 | PDependencySnapshot => 10
  | POutcomeObservation => 11 | PExecutionPermit => 12 | PProviderExecutionReceipt => 13
  end.
Lemma tag_inj k l : tag k = tag l -> k = l.
Proof. by destruct k, l. Qed.

#[export] Instance proof_kind_eq_dec : EqDecision ProofKindV1.
Proof. solve_decision. Defined.
#[export] Instance proof_kind_countable : Countable ProofKindV1.
Proof.
  refine (inj_countable tag (fun n => nth_error [PInputAdmission; PContextSnapshot;
    PIntentFastPathFacts; PDecisionNecessityFacts; PTurnCoordinationFacts; PAuthorityGrant;
    PPolicyEvaluation; PCapability; PHumanConfirmation; PDependencySnapshot; POutcomeObservation;
    PExecutionPermit; PProviderExecutionReceipt] (N.to_nat n - 1)) _). by intros [].
Defined.
#[export] Instance proof_kind_json : ToJson ProofKindV1 := fun k =>
  Str (txt match k with
  | PInputAdmission => "input_admission" | PContextSnapshot => "context_snapshot"
  | PIntentFastPathFacts => "intent_fast_path_facts"
  | PDecisionNecessityFacts => "decision_necessity_facts"
  | PTurnCoordinationFacts => "turn_coordination_facts" | PAuthorityGrant => "authority_grant"
  | PPolicyEvaluation => "policy_evaluation" | PCapability => "capability"
  | PHumanConfirmation => "human_confirmation" | PDependencySnapshot => "dependency_snapshot"
  | POutcomeObservation => "outcome_observation" | PExecutionPermit => "execution_permit"
  | PProviderExecutionReceipt => "provider_execution_receipt" end).
#[export] Instance proof_kind_json_inj : JsonInj ProofKindV1.
Proof. by intros [] [] [=]. Qed.

Module ProductionFeatureGatesV1.
Record t := mk {
  production_release_authorized : bool;
  production_authorization_enabled : bool;
  production_execution_enabled : bool;
  long_term_human_model_write_enabled : bool;
  aegis_production_adapter_enabled : bool;
}.
Definition BLOCKED : t := mk false false false false false.

Definition production_trust_root_is_blocked (g : t) : bool :=
  negb (production_release_authorized g) && negb (production_authorization_enabled g)
  && negb (production_execution_enabled g) && negb (long_term_human_model_write_enabled g)
  && negb (aegis_production_adapter_enabled g).
End ProductionFeatureGatesV1.

Definition append_text (bytes : list N) (value : text) : Checked (list N) :=
  let length := str_len value in
  reject u32_max <? length with InvalidText;
  Ok (bytes ++ be_bytes 4 length ++ as_bytes value).

(** ** Claims *)

Module ProofClaimsV1.
Record t := mk {
  proof_id : HumanCenteredProofIdV1;
  proof_kind : ProofKindV1;
  issuer_ref : ReferenceV1.t;
  subject_ref : ReferenceV1.t;
  subject_digest : text;
  tenant_ref : ReferenceV1.t;
  scope_ref : ReferenceV1.t;
  purpose_ref : ReferenceV1.t;
  policy_revision_ref : ReferenceV1.t;
  issued_at : N;
  expires_at : N;
  nonce : text;
  schema_version : N;
}.
#[global] Instance eq_dec : EqDecision t.
Proof. solve_decision. Defined.

Definition validate (c : t) : Checked unit :=
  let references := [issuer_ref c; subject_ref c; tenant_ref c; scope_ref c; purpose_ref c;
                     policy_revision_ref c] in
  reject UuidId.is_empty (proof_id c) || existsb blank references
         || negb (valid_digest (subject_digest c)) || (issued_at c =? 0)
         || (expires_at c <=? issued_at c)
         || (HUMAN_CENTERED_MAX_SAFE_WIRE_INTEGER <? expires_at c)
         || negb (str_len (nonce c) =? 64) || negb (valid_digest (nonce c))
         || (schema_version c != HUMAN_CENTERED_SCHEMA_VERSION)
    with InvalidContract;
  Ok tt.

(** [minted] is the identifier drawn by [mint()]. *)
Definition new (minted : HumanCenteredProofIdV1) (proof_kind : ProofKindV1)
    (issuer_ref subject_ref : ReferenceV1.t) (subject_digest : text)
    (tenant_ref scope_ref purpose_ref policy_revision_ref : ReferenceV1.t)
    (issued_at expires_at : N) (nonce : text) : Checked t :=
  let value := mk minted proof_kind issuer_ref subject_ref subject_digest tenant_ref scope_ref
    purpose_ref policy_revision_ref issued_at expires_at nonce HUMAN_CENTERED_SCHEMA_VERSION in
  _ ← validate value;
  Ok value.

Section with_crates.
Context {C : Crates}.

#[global] Instance to_json : ToJson t := fun c =>
  Obj [(txt "proof_id", Json.to_json (proof_id c)); (txt "proof_kind", Json.to_json (proof_kind c));
       (txt "issuer_ref", Json.to_json (issuer_ref c));
       (txt "subject_ref", Json.to_json (subject_ref c));
       (txt "subject_digest", Json.to_json (subject_digest c));
       (txt "tenant_ref", Json.to_json (tenant_ref c)); (txt "scope_ref", Json.to_json (scope_ref c));
       (txt "purpose_ref", Json.to_json (purpose_ref c));
       (txt "policy_revision_ref", Json.to_json (policy_revision_ref c));
       (txt "issued_at", Json.to_json (issued_at c)); (txt "expires_at", Json.to_json (expires_at c));
       (txt "nonce", Json.to_json (nonce c)); (txt "schema_version", Json.to_json (schema_version c))].
#[global] Instance json_inj {L : CratesLaws} : JsonInj t.
Proof. solve_json_inj. Qed.

Definition canonical_signing_bytes (c : t) : Checked (list N) :=
  _ ← validate c;
  let bytes := PROOF_SIGNATURE_DOMAIN ++ as_bytes (uuid_hyphenated (proof_id c))
               ++ [tag (proof_kind c)] in
  bytes ← append_text bytes (ReferenceV1.as_str (issuer_ref c));
  bytes ← append_text bytes (ReferenceV1.as_str (subject_ref c));
  bytes ← append_text bytes (subject_digest c);
  bytes ← append_text bytes (ReferenceV1.as_str (tenant_ref c));
  bytes ← append_text bytes (ReferenceV1.as_str (scope_ref c));
  bytes ← append_text bytes (ReferenceV1.as_str (purpose_ref c));
  bytes ← append_text bytes (ReferenceV1.as_str (policy_revision_ref c));
  let bytes := bytes ++ be_bytes 8 (issued_at c) ++ be_bytes 8 (expires_at c) in
  bytes ← append_text bytes (nonce c);
  Ok (bytes ++ be_bytes 2 (schema_version c)).
End with_crates.
End ProofClaimsV1.

Module SignedProofEnvelopeV1.
Record t := mk {
  claims : ProofClaimsV1.t;
  key_id : ReferenceV1.t;
  signature : text;
}.
#[global] Instance eq_dec : EqDecision t.
Proof. solve_decision. Defined.

Definition validate_shape (e : t) : Checked unit :=
  _ ← ProofClaimsV1.validate (claims e);
  reject blank (key_id e) || negb (str_len (signature e) =? 128)
         || negb (is_some (decode_hex 64 (signature e)))
    with ProofVerificationFailed;
  Ok tt.

Definition new (claims : ProofClaimsV1.t) (key_id : ReferenceV1.t) (signature : text) : Checked t :=
  let value := mk claims key_id signature in
  _ ← validate_shape value;
  Ok value.

Section with_crates.
Context {C : Crates}.
#[global] Instance to_json : ToJson t := fun e =>
  Obj [(txt "claims", Json.to_json (claims e)); (txt "key_id", Json.to_json (key_id e));
       (txt "signature", Json.to_json (signature e))].
#[global] Instance json_inj {L : CratesLaws} : JsonInj t.
Proof. solve_json_inj. Qed.
#[global] Instance json_not_null : JsonNotNull t. Proof. done. Qed.
End with_crates.
End SignedProofEnvelopeV1.

(** ** Key policies and the trust root *)

Module IssuerKeyPolicyV1.
Record t := mk {
  issuer_ref : ReferenceV1.t;
  key_id : ReferenceV1.t;
  verifying_key : list N;
  allowed_proof_kinds : gset ProofKindV1;
  tenant_ref : ReferenceV1.t;
  valid_from : N;
  valid_until : N;
  revoked_at : option N;
}.

Section with_crates.
Context {C : Crates}.
Definition new (issuer_ref key_id : ReferenceV1.t) (public_key_hex : text)
    (allowed_proof_kinds : gset ProofKindV1) (tenant_ref : ReferenceV1.t)
    (valid_from valid_until : N) (revoked_at : option N) : Checked t :=
  key_bytes ← ok_or ProofVerificationFailed (decode_hex 32 public_key_hex);
  verifying_key ← ok_or ProofVerificationFailed (verifying_key_from_bytes key_bytes);
  reject bool_decide (allowed_proof_kinds = ∅) || (valid_from =? 0) || (valid_until <=? valid_from)
         || (HUMAN_CENTERED_MAX_SAFE_WIRE_INTEGER <? valid_until)
         || is_some_and (fun value => (value <? valid_from) || (valid_until <? value)) revoked_at
    with InvalidContract;
  Ok (mk issuer_ref key_id verifying_key allowed_proof_kinds tenant_ref valid_from valid_until
    revoked_at).
End with_crates.
End IssuerKeyPolicyV1.

Module ExpectedProofBindingV1.
Record t := mk {
  proof_kind : ProofKindV1;
  issuer_ref : ReferenceV1.t;
  subject_ref : ReferenceV1.t;
  subject_digest : text;
  tenant_ref : ReferenceV1.t;
  scope_ref : ReferenceV1.t;
  purpose_ref : ReferenceV1.t;
  policy_revision_ref : ReferenceV1.t;
}.

Definition validate (b : t) : Checked unit :=
  reject negb (valid_digest (subject_digest b))
         || existsb blank [issuer_ref b; subject_ref b; tenant_ref b; scope_ref b; purpose_ref b;
                           policy_revision_ref b]
    with InvalidContract;
  Ok tt.

Definition new (proof_kind : ProofKindV1) (issuer_ref subject_ref : ReferenceV1.t)
    (subject_digest : text) (tenant_ref scope_ref purpose_ref policy_revision_ref : ReferenceV1.t) :
    Checked t :=
  let value := mk proof_kind issuer_ref subject_ref subject_digest tenant_ref scope_ref purpose_ref
    policy_revision_ref in
  _ ← validate value;
  Ok value.
End ExpectedProofBindingV1.

Module VerifiedProofV1.
Record t := mk { envelope : SignedProofEnvelopeV1.t; verified_at : N }.
Definition claims (p : t) : ProofClaimsV1.t := SignedProofEnvelopeV1.claims (envelope p).
End VerifiedProofV1.

Module ProofTrustRootV1.
Record t := mk { keys : gmap text IssuerKeyPolicyV1.t }.

(** [keys.insert(key_id, policy).is_some()] rejects a repeated key. *)
Fixpoint insert_policies (policies : list IssuerKeyPolicyV1.t) (keys : gmap text IssuerKeyPolicyV1.t) :
    Checked (gmap text IssuerKeyPolicyV1.t) :=
  match policies with
  | [] => Ok keys
  | policy :: policies =>
      let key_id := ReferenceV1.as_str (IssuerKeyPolicyV1.key_id policy) in
      reject is_some (keys !! key_id) with InvalidContract;
      insert_policies policies (<[key_id := policy]> keys)
  end.

Definition new (policies : list IssuerKeyPolicyV1.t) : Checked t :=
  keys ← insert_policies policies ∅;
  reject bool_decide (keys = ∅) with InvalidContract;
  Ok (mk keys).

Section with_crates.
Context {C : Crates}.

(** The disjunction that compares claims, expectation, policy and time. *)
Definition binding_mismatch (claims : ProofClaimsV1.t) (expected : ExpectedProofBindingV1.t)
    (policy : IssuerKeyPolicyV1.t) (valid_at : N) : bool :=
  (ProofClaimsV1.proof_kind claims != ExpectedProofBindingV1.proof_kind expected)
  || (ProofClaimsV1.issuer_ref claims != ExpectedProofBindingV1.issuer_ref expected)
  || (ProofClaimsV1.subject_ref claims != ExpectedProofBindingV1.subject_ref expected)
  || (ProofClaimsV1.subject_digest claims != ExpectedProofBindingV1.subject_digest expected)
  || (ProofClaimsV1.tenant_ref claims != ExpectedProofBindingV1.tenant_ref expected)
  || (ProofClaimsV1.scope_ref claims != ExpectedProofBindingV1.scope_ref expected)
  || (ProofClaimsV1.purpose_ref claims != ExpectedProofBindingV1.purpose_ref expected)
  || (ProofClaimsV1.policy_revision_ref claims != ExpectedProofBindingV1.policy_revision_ref expected)
  || (ProofClaimsV1.issuer_ref claims != IssuerKeyPolicyV1.issuer_ref policy)
  || (ProofClaimsV1.tenant_ref claims != IssuerKeyPolicyV1.tenant_ref policy)
  || negb (bool_decide (ProofClaimsV1.proof_kind claims ∈ IssuerKeyPolicyV1.allowed_proof_kinds policy))
  || (valid_at <? ProofClaimsV1.issued_at claims)
  || (ProofClaimsV1.expires_at claims <=? valid_at)
  || (ProofClaimsV1.issued_at claims <? IssuerKeyPolicyV1.valid_from policy)
  || (IssuerKeyPolicyV1.valid_until policy <=? valid_at)
  || is_some_and (fun revoked_at => revoked_at <=? valid_at) (IssuerKeyPolicyV1.revoked_at policy).

Definition verify_at (root : t) (envelope : SignedProofEnvelopeV1.t)
    (expected : ExpectedProofBindingV1.t) (valid_at : N) : Checked VerifiedProofV1.t :=
  _ ← SignedProofEnvelopeV1.validate_shape envelope;
  _ ← ExpectedProofBindingV1.validate expected;
  let claims := SignedProofEnvelopeV1.claims envelope in
  policy ← ok_or ProofVerificationFailed
             (keys root !! ReferenceV1.as_str (SignedProofEnvelopeV1.key_id envelope));
  reject binding_mismatch claims expected policy valid_at with ProofVerificationFailed;
  signature ← ok_or ProofVerificationFailed
                (decode_hex 64 (SignedProofEnvelopeV1.signature envelope));
  message ← ProofClaimsV1.canonical_signing_bytes claims;
  reject negb (ed25519_verify (IssuerKeyPolicyV1.verifying_key policy) message signature)
    with ProofVerificationFailed;
  Ok (VerifiedProofV1.mk envelope valid_at).

(** [now] is the clock reading; [None] is a clock before the epoch. *)
Definition verify_now (root : t) (envelope : SignedProofEnvelopeV1.t)
    (expected : ExpectedProofBindingV1.t) (now : option N) : Checked VerifiedProofV1.t :=
  now ← ok_or ProofVerificationFailed now;
  verify_at root envelope expected now.
End with_crates.
End ProofTrustRootV1.

(** ** Facts about claims and signatures *)

Section trust_facts.
Context {C : Crates}.
Import ProofClaimsV1.

(** The length-prefixed encoding of one string. *)
Definition field (v : text) : list N := be_bytes 4 (str_len v) ++ as_bytes v.

Lemma append_text_Ok bytes v bs :
  append_text bytes v = Ok bs <-> str_len v <= u32_max /\ bs = bytes ++ field v.
Proof.
  unfold append_text, field. rewrite reject_Ok, N.ltb_ge. split; [intros (? & [= <-])|intros (? & ->)]; done.
Qed.

Lemma field_app_inj v w l k :
  scalar_text v -> scalar_text w -> str_len v <= u32_max -> str_len w <= u32_max ->
  field v ++ l = field w ++ k -> v = w /\ l = k.
Proof.
  unfold field. intros Hv Hw Hlv Hlw Heq. rewrite <- !app_assoc in Heq.
  apply app_inj_length in Heq as [Hl Heq]; [|by rewrite !be_bytes_length].
  apply be_bytes_inj in Hl; [|unfold u32_max in *; cbn; lia..].
  apply app_inj_length in Heq as [Ht ?]; [|unfold str_len, lenN in Hl; lia].
  by apply as_bytes_inj in Ht.
Qed.

(** The strings of a proof in signing order. *)
Definition claim_texts (c : t) : list text :=
  [ReferenceV1.as_str (issuer_ref c); ReferenceV1.as_str (subject_ref c); subject_digest c;
   ReferenceV1.as_str (tenant_ref c); ReferenceV1.as_str (scope_ref c);
   ReferenceV1.as_str (purpose_ref c); ReferenceV1.as_str (policy_revision_ref c); nonce c].
Definition claims_text_ok (c : t) : Prop := Forall scalar_text (claim_texts c).

Record claims_ok (c : t) : Prop := {
  co_id : is_nil_uuid (proof_id c) = false;
  co_references : Forall (fun r => blank r = false)
    [issuer_ref c; subject_ref c; tenant_ref c; scope_ref c; purpose_ref c; policy_revision_ref c];
  co_digests : valid_digest (subject_digest c) = true /\ valid_digest (nonce c) = true;
  co_times : 1 <= issued_at c < expires_at c /\ expires_at c <= HUMAN_CENTERED_MAX_SAFE_WIRE_INTEGER;
  co_schema : schema_version c = HUMAN_CENTERED_SCHEMA_VERSION;
}.

Lemma claims_validate_Ok c : validate c = Ok tt <-> claims_ok c.
Proof.
  unfold validate, UuidId.is_empty. rewrite reject_Ok, !orb_false_iff, !negb_false_iff, existsb_false,
    N.eqb_neq, N.eqb_eq, N.leb_gt, N.ltb_ge, bool_decide_true_iff.
  split.
  - intros [H _]. destruct_and!. split; try done; lia.
  - intros [? ? [? Hn] ? ?]. split; [|done]. split_and!; try done; try lia.
    unfold valid_digest in Hn. apply andb_true_iff in Hn as [Hn _]. by apply N.eqb_eq in Hn.
Qed.

Lemma signing_bytes_Ok c bs :
  canonical_signing_bytes c = Ok bs <->
  claims_ok c /\ Forall (fun v => str_len v <= u32_max) (claim_texts c) /\
  bs = PROOF_SIGNATURE_DOMAIN ++ as_bytes (uuid_hyphenated (proof_id c)) ++ [tag (proof_kind c)] ++
    field (ReferenceV1.as_str (issuer_ref c)) ++ field (ReferenceV1.as_str (subject_ref c)) ++
    field (subject_digest c) ++ field (ReferenceV1.as_str (tenant_ref c)) ++
    field (ReferenceV1.as_str (scope_ref c)) ++ field (ReferenceV1.as_str (purpose_ref c)) ++
    field (ReferenceV1.as_str (policy_revision_ref c)) ++
    be_bytes 8 (issued_at c) ++ be_bytes 8 (expires_at c) ++ field (nonce c) ++
    be_bytes 2 (schema_version c).
Proof.
  unfold canonical_signing_bytes, claim_texts. cbn zeta. rewrite bind_unit_Ok, claims_validate_Ok.
  rewrite !Forall_cons, Forall_nil. split.
  - intros [Hc H].
    do 8 (rewrite bind_Ok in H; destruct H as (?b & [?Hlen ->]%append_text_Ok & H)).
    injection H as <-. split; [done|]. split; [tauto|]. by rewrite <- !app_assoc.
  - intros (Hc & Hl & ->). split; [done|]. destruct_and!.
    do 8 (apply bind_Ok; eexists; split; [apply append_text_Ok; split; [done|reflexivity]|]).
    f_equal. by rewrite <- !app_assoc.
Qed.

Context {L : CratesLaws}.

Lemma signing_bytes_inj c d bs :
  claims_text_ok c -> claims_text_ok d ->
  canonical_signing_bytes c = Ok bs -> canonical_signing_bytes d = Ok bs -> c = d.
Proof.
  unfold claims_text_ok. intros Hsc Hsd (Hc & Hlc & ->)%signing_bytes_Ok (Hd & Hld & Heq)%signing_bytes_Ok.
  unfold claim_texts in *. rewrite !Forall_cons, !Forall_nil in *. destruct_and!.
  apply app_inv_head in Heq.
  rewrite !as_bytes_ascii in Heq by apply uuid_hyphenated_ascii.
  apply app_inj_length in Heq as [Hid Heq]; [|by rewrite !uuid_hyphenated_length].
  apply uuid_hyphenated_inj in Hid.
  apply app_inj_length in Heq as [Htag Heq]; [|done]. injection Htag as Htag%tag_inj.
  do 7 (apply field_app_inj in Heq as [? Heq]; [|done..]).
  apply app_inj_length in Heq as [Hi Heq]; [|by rewrite !be_bytes_length].
  apply app_inj_length in Heq as [He Heq]; [|by rewrite !be_bytes_length].
  apply field_app_inj in Heq as [? _]; [|done..].
  destruct Hc as [_ _ _ [? ?] Hvc], Hd as [_ _ _ [? ?] Hvd].
  unfold HUMAN_CENTERED_MAX_SAFE_WIRE_INTEGER in *.
  apply be_bytes_inj in Hi; [|cbn; lia..]. apply be_bytes_inj in He; [|cbn; lia..].
  assert (forall r s : ReferenceV1.t, ReferenceV1.as_str r = ReferenceV1.as_str s -> r = s) as Href
    by (by intros [] [] [= ->]).
  destruct c, d; cbn in *. subst.
  repeat match goal with H : ReferenceV1.as_str _ = ReferenceV1.as_str _ |- _ => apply Href in H end.
  by subst.
Qed.
End trust_facts.

Section trust_root_facts.
Import ProofTrustRootV1.

Definition policy_id (p : IssuerKeyPolicyV1.t) : text := ReferenceV1.as_str (IssuerKeyPolicyV1.key_id p).

Lemma insert_policies_Ok ps keys keys' :
  insert_policies ps keys = Ok keys' <->
  NoDup (map policy_id ps) /\ Forall (fun p => keys !! policy_id p = None) ps /\
  keys' = list_to_map (map (fun p => (policy_id p, p)) ps) ∪ keys.
Proof.
  revert keys. induction ps as [|p ps IH]; intros keys; cbn [insert_policies map].
  - rewrite NoDup_nil, Forall_nil. cbn. rewrite (left_id_L ∅ (∪)). naive_solver.
  - rewrite reject_Ok, IH, is_some_false, NoDup_cons, Forall_cons, list_elem_of_fmap.
    cbn [list_to_map foldr]. fold (policy_id p).
    assert (list_to_map (map (fun p => (policy_id p, p)) ps) ∪ <[policy_id p := p]> keys
      = <[policy_id p := p]> (list_to_map (map (fun p => (policy_id p, p)) ps)) ∪ keys
      \/ policy_id p ∈ map policy_id ps) as Hunion.
    { destruct (decide (policy_id p ∈ map policy_id ps)) as [|Hp]; [by right|left].
      rewrite <- insert_union_l, insert_union_r; [done|].
      apply not_elem_of_list_to_map_1. rewrite <- list_fmap_compose. exact Hp. }
    assert (forall q, <[policy_id p := p]> keys !! policy_id q = None <->
      policy_id p <> policy_id q /\ keys !! policy_id q = None) as Hq.
    { intros q. rewrite lookup_insert_None. naive_solver. }
    rewrite !Forall_forall. setoid_rewrite Hq. rewrite list_elem_of_fmap in Hunion.
    split.
    + intros (Hk & Hd & Hf & ->). split; [split; [|done]|split; [split; [done|]|]].
      * intros (q & Hpq & Hin). by apply Hf in Hin as [? _].
      * intros q Hin. by apply Hf in Hin as [_ ?].
      * destruct Hunion as [->|(q & Hpq & Hin)]; [done|]. by apply Hf in Hin as [? _].
    + intros ([Hn Hd] & [Hk Hf] & ->). split; [done|]. split; [done|]. split.
      * intros q Hin. split; [|auto]. intros Hpq. apply Hn. eauto.
      * destruct Hunion as [->|Hin]; [done|]. by exfalso.
Qed.

(** A trust root is built from exactly the non-empty collections of key
    policies with distinct key identifiers; it then holds each policy under its
    own identifier and nothing else. *)
Theorem trust_root_holds_distinct_policies ps root :
  new ps = Ok root <->
  ps <> [] /\ NoDup (map policy_id ps) /\
  forall id p, keys root !! id = Some p <-> p ∈ ps /\ policy_id p = id.
Proof.
  assert (NoDup (map policy_id ps) -> forall id p,
    (list_to_map (map (fun p => (policy_id p, p)) ps) : gmap text IssuerKeyPolicyV1.t) !! id = Some p <->
    p ∈ ps /\ policy_id p = id) as Hlook.
  { intros Hn id p. rewrite <- elem_of_list_to_map.
    - rewrite list_elem_of_fmap. setoid_rewrite pair_eq. naive_solver.
    - by rewrite <- list_fmap_compose. }
  unfold new. rewrite bind_Ok. setoid_rewrite insert_policies_Ok. split.
  - intros (keys & (Hn & _ & ->) & H). apply reject_Ok in H as [He [= <-]]. cbn [keys].
    rewrite (right_id_L ∅ (∪)) in He |- *. split; [|split; [done|by apply Hlook]].
    intros ->. rewrite bool_decide_false_iff in He. done.
  - intros (Hne & Hn & Hk). exists (keys root). split.
    + split; [done|]. split; [by apply Forall_true|]. rewrite (right_id_L ∅ (∪)).
      apply map_eq. intros id. apply option_eq. intros p. by rewrite Hk, Hlook.
    + rewrite reject_Ok, bool_decide_false_iff. split; [|by destruct root].
      intros He. destruct ps as [|p ps]; [done|].
      assert (keys root !! policy_id p = Some p) as Hp by (apply Hk; split; [left|done]).
      by rewrite He in Hp.
Qed.
End trust_root_facts.

Section trust_theorems.
Context {C : Crates}.
Import ProofTrustRootV1.

(** What a caller expects of a proof, as a relation on the claims. *)
Definition matches_expectation (c : ProofClaimsV1.t) (b : ExpectedProofBindingV1.t) : Prop :=
  ExpectedProofBindingV1.mk (ProofClaimsV1.proof_kind c) (ProofClaimsV1.issuer_ref c)
    (ProofClaimsV1.subject_ref c) (ProofClaimsV1.subject_digest c) (ProofClaimsV1.tenant_ref c)
    (ProofClaimsV1.scope_ref c) (ProofClaimsV1.purpose_ref c) (ProofClaimsV1.policy_revision_ref c) = b.

Lemma binding_mismatch_false c b p t :
  binding_mismatch c b p t = false <->
  matches_expectation c b /\
  ProofClaimsV1.issuer_ref c = IssuerKeyPolicyV1.issuer_ref p /\
  ProofClaimsV1.tenant_ref c = IssuerKeyPolicyV1.tenant_ref p /\
  ProofClaimsV1.proof_kind c ∈ IssuerKeyPolicyV1.allowed_proof_kinds p /\
  ProofClaimsV1.issued_at c <= t < ProofClaimsV1.expires_at c /\
  IssuerKeyPolicyV1.valid_from p <= ProofClaimsV1.issued_at c /\
  t < IssuerKeyPolicyV1.valid_until p /\
  (forall r, IssuerKeyPolicyV1.revoked_at p = Some r -> t < r).
Proof.
  unfold binding_mismatch, matches_expectation.
  rewrite !orb_false_iff, !negb_false_iff, !bool_decide_true_iff, !N.ltb_ge, !N.leb_gt.
  assert (is_some_and (fun r => r <=? t) (IssuerKeyPolicyV1.revoked_at p) = false <->
    (forall r, IssuerKeyPolicyV1.revoked_at p = Some r -> t < r)) as ->.
  { destruct (IssuerKeyPolicyV1.revoked_at p) as [r|]; cbn; [rewrite N.leb_gt|]; naive_solver. }
  destruct b; cbn. split.
  - intros H. destruct_and!. subst. split_and!; done.
  - intros [[= <- <- <- <- <- <- <- <-] ?]. tauto.
Qed.

(** A proof verifies exactly when: the envelope and the expectation are
    well formed; the claims are precisely the ones expected; the key is in the
    trust root, belongs to that issuer and tenant and may make this kind of
    proof; the time lies inside the proof's and the key's validity, before any
    revocation; and the key verifies the signature over the canonical bytes of
    those claims. *)
Theorem verify_at_iff root envelope expected t p :
  let c := SignedProofEnvelopeV1.claims envelope in
  verify_at root envelope expected t = Ok p <->
  p = VerifiedProofV1.mk envelope t /\
  SignedProofEnvelopeV1.validate_shape envelope = Ok tt /\
  ExpectedProofBindingV1.validate expected = Ok tt /\
  matches_expectation c expected /\
  exists policy signature message,
    keys root !! ReferenceV1.as_str (SignedProofEnvelopeV1.key_id envelope) = Some policy /\
    ProofClaimsV1.issuer_ref c = IssuerKeyPolicyV1.issuer_ref policy /\
    ProofClaimsV1.tenant_ref c = IssuerKeyPolicyV1.tenant_ref policy /\
    ProofClaimsV1.proof_kind c ∈ IssuerKeyPolicyV1.allowed_proof_kinds policy /\
    ProofClaimsV1.issued_at c <= t < ProofClaimsV1.expires_at c /\
    IssuerKeyPolicyV1.valid_from policy <= ProofClaimsV1.issued_at c /\
    t < IssuerKeyPolicyV1.valid_until policy /\
    (forall r, IssuerKeyPolicyV1.revoked_at policy = Some r -> t < r) /\
    decode_hex 64 (SignedProofEnvelopeV1.signature envelope) = Some signature /\
    ProofClaimsV1.canonical_signing_bytes c = Ok message /\
    ed25519_verify (IssuerKeyPolicyV1.verifying_key policy) message signature = true.
Proof.
  cbn zeta. unfold verify_at. rewrite bind_unit_Ok, bind_unit_Ok. split.
  - intros (Hs & He & (policy & Hk%ok_or_Ok & H)%bind_Ok). apply reject_Ok in H as [Hb H].
    apply bind_Ok in H as (signature & Hsig%ok_or_Ok & H). apply bind_Ok in H as (message & Hm & H).
    apply reject_Ok in H as [Hv%negb_false_iff [= <-]]. apply binding_mismatch_false in Hb.
    destruct_and!. split_and!; try done. exists policy, signature, message. split_and!; done.
  - intros (-> & Hs & He & Hx & policy & signature & message & H). destruct_and!.
    split; [done|]. split; [done|]. apply bind_Ok. exists policy. rewrite ok_or_Ok. split; [done|].
    apply reject_Ok. split; [by apply binding_mismatch_false; split_and!|].
    apply bind_Ok. exists signature. rewrite ok_or_Ok. split; [done|].
    apply bind_Ok. exists message. split; [done|]. apply reject_Ok. by rewrite negb_false_iff.
Qed.

(** The bytes an issuer signs determine the claims: no two different proofs,
    whatever their strings contain, are signed as the same message, so a
    signature cannot be carried over from one proof to another. *)
Theorem signing_bytes_determine_claims (L : CratesLaws) c d bs :
  claims_text_ok c -> claims_text_ok d ->
  ProofClaimsV1.canonical_signing_bytes c = Ok bs ->
  ProofClaimsV1.canonical_signing_bytes d = Ok bs -> c = d.
Proof. apply signing_bytes_inj. Qed.
End trust_theorems.

Module TrustSample.
Import Toy.
Definition claims : ProofClaimsV1.t :=
  ProofClaimsV1.mk (Toy.uuid 50) PInputAdmission (Sample.reference "issuer:gateway")
    (Sample.reference "input:1") Sample.digest (Sample.reference "tenant:1") (Sample.reference "scope:1")
    (Sample.reference "purpose:1") (Sample.reference "policy:1") 100 200
    (encode_hex (be_bytes 32 9)) HUMAN_CENTERED_SCHEMA_VERSION.
Definition key : list N := be_bytes 32 77.
Definition envelope : SignedProofEnvelopeV1.t :=
  Eval vm_compute in
  SignedProofEnvelopeV1.mk claims (Sample.reference "key:1")
    (encode_hex (Toy.ed25519_sign key
      match ProofClaimsV1.canonical_signing_bytes claims with Ok bs => bs | Err _ => [] end)).
Definition message : list N :=
  Eval vm_compute in match ProofClaimsV1.canonical_signing_bytes claims with Ok bs => bs | Err _ => [] end.
Definition policy : IssuerKeyPolicyV1.t :=
  IssuerKeyPolicyV1.mk (Sample.reference "issuer:gateway") (Sample.reference "key:1") key
    {[PInputAdmission]} (Sample.reference "tenant:1") 50 300 (Some 250).
Definition root : ProofTrustRootV1.t :=
  ProofTrustRootV1.mk {[ReferenceV1.as_str (Sample.reference "key:1") := policy]}.
Definition expected : ExpectedProofBindingV1.t :=
  ExpectedProofBindingV1.mk PInputAdmission (Sample.reference "issuer:gateway")
    (Sample.reference "input:1") Sample.digest (Sample.reference "tenant:1") (Sample.reference "scope:1")
    (Sample.reference "purpose:1") (Sample.reference "policy:1").
End TrustSample.

Example verify_at_sample :
  ProofTrustRootV1.verify_at (C:=Toy.crates) TrustSample.root TrustSample.envelope TrustSample.expected 150
    = Ok (VerifiedProofV1.mk TrustSample.envelope 150) /\
  ProofTrustRootV1.verify_at (C:=Toy.crates) TrustSample.root TrustSample.envelope TrustSample.expected 200
    = Err ProofVerificationFailed.
Proof. split; vm_compute; reflexivity. Qed.

Lemma signing_bytes_determine_claims_witness :
  claims_text_ok TrustSample.claims /\ TrustSample.claims = TrustSample.claims.
Proof.
  assert (claims_text_ok TrustSample.claims) as Ht
    by (unfold claims_text_ok, scalar_text; apply (bool_decide_eq_true_1 _); vm_compute; reflexivity).
  split; [exact Ht|].
  assert (ProofClaimsV1.canonical_signing_bytes (C:=Toy.crates) TrustSample.claims = Ok TrustSample.message)
    as Hm by (vm_compute; reflexivity).
  exact (signing_bytes_determine_claims (C:=Toy.crates) toy_laws _ _ _ Ht Ht Hm Hm).
Defined.
