(* ===== verification/TurnGraph.v ===== *)
(** * TurnGraph: the depth-first search of [validate_turn_candidate]

    The search over the adjacency map of a turn stops within its fuel and refuses
    exactly the graphs with a cycle. *)

From stdpp Require Import base list gmap fin_sets countable sorting strings.
From Stdlib Require Import NArith ZArith Lia.
From S2P Require Import Prelude Text Json Crates CanonicalJson Common Graph Production ProductionProps ChainData ChainCommand ChainPayload.

Section search.
Context (adjacency : gmap text (list text)) (nodes : gset text).

Definition child (x y : text) : Prop := y ∈ default [] (adjacency !! x).

(** Every path from the node ends. *)
Definition ends (x : text) : Prop := Acc (fun y x => child x y) x.

Lemma ends_no_cycle x : ends x -> ~ tc child x x.
Proof.
  intros Hx. induction Hx as [x _ IH]. intros Hc.
  inversion Hc as [? ? Hxx|? y ? Hxy Hyx]; subst; [by apply (IH x)|].
  apply (IH y Hxy). by eapply tc_r.
Qed.

(** What a search from one node, or from several, answers. *)
Definition answers (targets : text -> Prop) (visiting visited : gset text)
    (answer : option (option (gset text * gset text))) : Prop :=
  match answer with
  | None => False
  | Some None => exists x, tc child x x
  | Some (Some (visiting', visited')) =>
      visiting' = visiting /\ visited ⊆ visited' /\ (forall n, targets n -> n ∈ visited') /\
      forall x, x ∈ visited' -> ends x
  end.

Lemma visit_all_answers search l visiting visited :
  (forall n visited, n ∈ l -> (forall x, x ∈ visited -> ends x) ->
    answers (fun m => m = n) visiting visited (search n visiting visited)) ->
  (forall x, x ∈ visited -> ends x) ->
  answers (fun m => m ∈ l) visiting visited (visit_all search l visiting visited).
Proof.
  revert visited. induction l as [|n l IH]; intros visited Hs Hv; cbn.
  { split_and!; [done|done|intros n Hn; by apply elem_of_nil in Hn|done]. }
  pose proof (Hs n visited (list_elem_of_here _ _) Hv) as Hn.
  destruct (search n visiting visited) as [[[visiting1 visited1]|]|]; [|done|done].
  destruct Hn as (-> & Hsub & Hin & Hends).
  specialize (IH visited1 (fun m visited Hm => Hs m visited (list_elem_of_further _ _ _ Hm)) Hends).
  unfold answers in *. destruct (visit_all _ _ _ _) as [[[visiting2 visited2]|]|]; [|done|done].
  destruct IH as (-> & Hsub2 & Hin2 & Hends2). split_and!; [done|by etrans| |done].
  intros m [->|Hm]%elem_of_cons; [|auto]. apply Hsub2, Hin. done.
Qed.

Lemma visit_answers fuel node visiting visited :
  (forall x y, child x y -> y ∈ nodes) -> node ∈ nodes -> visiting ⊆ nodes ->
  (size nodes < fuel + size visiting)%nat ->
  (forall z, z ∈ visiting -> tc child z node) -> (forall x, x ∈ visited -> ends x) ->
  answers (fun m => m = node) visiting visited (visit adjacency fuel node visiting visited).
Proof.
  intros Hwithin. revert node visiting visited.
  induction fuel as [|fuel IH]; intros node visiting visited Hn Hsub Hf Hpath Hv.
  { apply subseteq_size in Hsub. lia. }
  cbn [visit]. destruct (bool_decide_reflect (node ∈ visited)) as [Hin|_].
  { split_and!; [done|done|by intros ? ->|done]. }
  destruct (bool_decide_reflect (node ∈ visiting)) as [Hin|Hnot]; [exists node; auto|].
  assert (size ({[node]} ∪ visiting) = S (size visiting)) as Hsize
    by (rewrite size_union, size_singleton by set_solver; done).
  pose proof (visit_all_answers (visit adjacency fuel) (default [] (adjacency !! node))
    ({[node]} ∪ visiting) visited) as Hall.
  assert (forall z c, z ∈ {[node]} ∪ visiting -> child node c -> tc child z c) as Hext.
  { intros z c [->%elem_of_singleton|Hz]%elem_of_union Hc; [by apply tc_once|]. eapply tc_r; [by apply Hpath|done]. }
  specialize (Hall (fun c vd Hc Hvd => IH c ({[node]} ∪ visiting) vd (Hwithin _ _ Hc) ltac:(set_solver) ltac:(lia)
    (fun z Hz => Hext z c Hz Hc) Hvd) Hv).
  destruct (visit_all _ _ _ _) as [[[visiting1 visited1]|]|]; [|done|done].
  destruct Hall as (-> & Hsub1 & Hin1 & Hends1).
  assert (ends node) as Hnode by (constructor; intros c Hc; by apply Hends1, Hin1).
  split_and!; [set_solver|set_solver|set_solver|].
  intros x [->%elem_of_singleton|Hx]%elem_of_union; auto.
Qed.

Lemma turn_search :
  (forall x y, child x y -> x ∈ nodes /\ y ∈ nodes) ->
  exists answer, visit_all (visit adjacency (visit_fuel nodes)) (btree_elements nodes) ∅ ∅ = Some answer /\
    (is_some answer = true <-> forall x, ~ tc child x x).
Proof.
  intros Hwithin.
  assert (answers (fun m => m ∈ btree_elements nodes) ∅ ∅
    (visit_all (visit adjacency (visit_fuel nodes)) (btree_elements nodes) ∅ ∅)) as Ha.
  { apply visit_all_answers; [|set_solver]. intros n visited Hn%elem_of_btree Hv.
    apply visit_answers; [intros x y Hc; by apply (Hwithin x y)|done|set_solver| |set_solver|done].
    unfold visit_fuel. rewrite size_empty. lia. }
  destruct (visit_all _ _ _ _) as [[[visiting visited]|]|]; [|eexists; split; [done|]|done].
  - eexists; split; [done|]. split; [|done]. intros _ x Hx. destruct Ha as (_ & _ & Hin & Hends).
    eapply ends_no_cycle; [|exact Hx]. apply Hends, Hin, elem_of_btree.
    inversion Hx as [? ? Hc|? ? ? Hc]; subst; apply (Hwithin _ _ Hc).
  - cbn. split; [done|]. intros Hno. destruct Ha as [x Hx]. by destruct (Hno x).
Qed.
End search.

(** ** The adjacency map of the edges *)

Section edges.
Context (nodes : gset text).

Lemma turn_edge_within v x y : turn_edge nodes v = Ok (x, y) -> x ∈ nodes /\ y ∈ nodes /\ x <> y.
Proof.
  unfold turn_edge. intros H. apply bind_Ok in H as (? & _ & H). apply bind_Ok in H as (a & _ & H).
  apply bind_Ok in H as (b & _ & H). apply reject_Ok in H as [Hb [= <- <-]].
  rewrite !orb_false_iff, !negb_false_iff, bool_decide_false_iff, !bool_decide_true_iff in Hb. tauto.
Qed.

Lemma turn_adjacency_Ok edges adjacency adjacency' :
  dom adjacency = nodes -> turn_adjacency nodes edges adjacency = Ok adjacency' ->
  exists pairs, Forall2 (fun v e => turn_edge nodes v = Ok e) edges pairs /\ dom adjacency' = nodes /\
    forall x y, child adjacency' x y <-> child adjacency x y \/ (x, y) ∈ pairs.
Proof.
  revert adjacency. induction edges as [|v edges IH]; intros adjacency Hdom; cbn [turn_adjacency].
  { intros [= <-]. exists []. split_and!; [constructor|done|]. intros x y. rewrite elem_of_nil. tauto. }
  intros ([a b] & He & H)%bind_Ok.
  assert (a ∈ nodes) as Ha.
  { apply turn_edge_within in He. tauto. }
  apply IH in H as (pairs & Hp & Hd & Hc); [|by unfold push_edge; rewrite dom_alter_L].
  exists ((a, b) :: pairs). split_and!; [by constructor|done|]. intros x y. rewrite Hc, elem_of_cons.
  enough (child (push_edge (a, b) adjacency) x y <-> child adjacency x y \/ (x, y) = (a, b)) by tauto.
  unfold child, push_edge. cbn [fst snd]. destruct (decide (x = a)) as [->|Hx].
  - rewrite lookup_alter_eq. rewrite <- Hdom in Ha. apply elem_of_dom in Ha as [cs ->]. cbn.
    rewrite elem_of_app, list_elem_of_singleton. naive_solver.
  - rewrite lookup_alter_ne by done. naive_solver.
Qed.

Lemma no_children x y : ~ child (gset_to_gmap [] nodes) x y.
Proof.
  unfold child. rewrite lookup_gset_to_gmap. intros H. apply elem_of_nil in H || idtac.
  destruct (guard (x ∈ nodes)); cbn in H; by apply elem_of_nil in H.
Qed.

(** C32. The recursive search of a turn's graph terminates: with the map built from
    the turn's edges it always answers within one call more than there are nodes,
    and it accepts exactly the graphs without a cycle. *)
Theorem turn_search_decides_acyclicity edges adjacency pairs :
  turn_adjacency nodes edges (gset_to_gmap [] nodes) = Ok adjacency ->
  Forall2 (fun v e => turn_edge nodes v = Ok e) edges pairs ->
  is_some (visit_all (visit adjacency (visit_fuel nodes)) (btree_elements nodes) ∅ ∅) = true /\
  (turn_is_acyclic nodes adjacency = true <-> acyclic pairs).
Proof.
  intros Ha Hp. apply turn_adjacency_Ok in Ha as (pairs' & Hp' & Hd & Hc); [|apply dom_gset_to_gmap].
  assert (pairs' = pairs) as ->.
  { revert Hp. clear Hc. revert pairs. induction Hp' as [|v e vs es He _ IH]; inversion 1; subst; [done|].
    f_equal; [congruence|auto]. }
  assert (forall x y, child adjacency x y <-> edge_of pairs x y) as Hedge.
  { intros x y. rewrite Hc. unfold edge_of. split; [intros [H|]; [by apply no_children in H|done]|by right]. }
  destruct (turn_search adjacency nodes) as (answer & Hanswer & Hcycle).
  { intros x y Hxy%Hedge. unfold edge_of in Hxy. apply list_elem_of_lookup in Hxy as [i Hi].
    destruct (Forall2_lookup_r _ _ _ _ _ Hp Hi) as (v & _ & Hv). apply turn_edge_within in Hv. tauto. }
  unfold turn_is_acyclic. rewrite Hanswer. split; [done|].
  transitivity (is_some answer = true); [by destruct answer|]. rewrite Hcycle. unfold acyclic.
  split; intros Hno x Hx; apply (Hno x); revert Hx.
  - apply tc_congruence with (f := id). by intros ??; rewrite <- Hedge.
  - apply tc_congruence with (f := id). by intros ??; rewrite Hedge.
Qed.
End edges.

Definition sample_names : gset text := {[txt "action"; txt "response"]}.
Definition sample_edges : list Value := [Arr [Str (txt "action"); Str (txt "response")]].

Lemma turn_search_decides_acyclicity_witness :
  exists adjacency,
    turn_adjacency sample_names sample_edges (gset_to_gmap [] sample_names) = Ok adjacency /\
    (turn_is_acyclic sample_names adjacency = true <-> acyclic [(txt "action", txt "response")]).
Proof.
  eexists. split; [vm_compute; reflexivity|].
  apply (turn_search_decides_acyclicity sample_names sample_edges _ [(txt "action", txt "response")]).
  - vm_compute; reflexivity.
  - repeat constructor.
Defined.
