(* ===== verification/Execution.v ===== *)
(** * Execution: permit requests and execution receipts ([human_centered/execution.rs])

    The request an execution permit signs, the receipt a provider attests, and
    the two functions that bind a verified proof to one of them.  [format!] of an
    identifier is its hyphenated text. *)

From stdpp Require Import base list gmap sorting strings.
From Stdlib Require Import NArith Lia.
From S2P Require Import Prelude Text Json Crates Common Contract Action Trust.

Inductive ExecutionStateV1 : Type := ESucceeded | EFailed | EPartiallySucceeded | ERejected | ECompensated.
#[export] Instance execution_state_eq_dec : EqDecision ExecutionStateV1.
Proof. solve_decision. Defined.
#[export] Instance execution_state_json : ToJson ExecutionStateV1 := fun s =>
  Str (txt match s with
  | ESucceeded => "succeeded" | EFailed => "failed" | EPartiallySucceeded => "partially_succeeded"
  | ERejected => "rejected" | ECompensated => "compensated" end).
#[export] Instance execution_state_json_inj : JsonInj ExecutionStateV1.
Proof. by intros [] [] [=]. Qed.

(** [ProductionReferenceV1::new(...)?] in a function that returns the protocol error *)
Definition checked_reference (value : text) : Checked ReferenceV1.t :=
  map_err from_reference_error (ReferenceV1.new value).

Module ExecutionPermitRequestV1.
Record t := mk {
  request_ref : ReferenceV1.t;
  action_ref : ContractRef;
  authorization_id : Uuid;
  authorization_digest : text;
  provider_ref : ReferenceV1.t;
  owner_ref : ReferenceV1.t;
  attempt : N;
  lease_issued_at : N;
  lease_until : N;
  dispatch_nonce : text;
  idempotency_key : text;
  tenant_ref : ReferenceV1.t;
  scope_ref : ReferenceV1.t;
  purpose_ref : ReferenceV1.t;
  policy_revision_ref : ReferenceV1.t;
  request_digest : text;
}.
#[global] Instance eq_dec : EqDecision t.
Proof. solve_decision. Defined.

Definition set_request_digest (d : text) (r : t) : t :=
  mk (request_ref r) (action_ref r) (authorization_id r) (authorization_digest r) (provider_ref r)
    (owner_ref r) (attempt r) (lease_issued_at r) (lease_until r) (dispatch_nonce r)
    (idempotency_key r) (tenant_ref r) (scope_ref r) (purpose_ref r) (policy_revision_ref r) d.

Section with_crates.
Context {C : Crates}.

Definition digest_input (r : t) : Value :=
  Arr [Arr [Json.to_json (request_ref r); Json.to_json (action_ref r);
            Json.to_json (authorization_id r); Json.to_json (authorization_digest r);
            Json.to_json (provider_ref r); Json.to_json (owner_ref r); Json.to_json (attempt r)];
       Arr [Json.to_json (lease_issued_at r); Json.to_json (lease_until r);
            Json.to_json (dispatch_nonce r); Json.to_json (idempotency_key r);
            Json.to_json (tenant_ref r); Json.to_json (scope_ref r); Json.to_json (purpose_ref r);
            Json.to_json (policy_revision_ref r)]].

Definition context_of (action : ActionContractV1.t) : AuthorityContextV1.t :=
  HumanCenteredContractMetadataV1.authority_context (ActionContractV1.metadata action).

Definition validate_for (r : t) (action : ActionContractV1.t)
    (authorization : ExactActionAuthorizationV1.t) : Checked unit :=
  _ ← ActionContractV1.validate action;
  _ ← ExactActionAuthorizationV1.validate_for authorization action (lease_issued_at r);
  let context := context_of action in
  reject blank (request_ref r) with ProofVerificationFailed;
  reference ← ActionContractV1.record_ref action;
  reject (action_ref r != reference)
         || (authorization_id r != ExactActionAuthorizationV1.authorization_id authorization)
    with ProofVerificationFailed;
  digest ← ExactActionAuthorizationV1.authorization_digest authorization;
  reject (authorization_digest r != digest)
         || (ExactActionAuthorizationV1.decision authorization != Approve)
         || blank (provider_ref r) || blank (owner_ref r) || (attempt r =? 0)
         || (lease_until r <=? lease_issued_at r)
         || (ExactActionAuthorizationV1.expires_at authorization <? lease_until r)
         || (HumanCenteredContractMetadataV1.valid_until (ActionContractV1.metadata action)
               <? lease_until r)
         || negb (str_len (dispatch_nonce r) =? 64) || negb (valid_digest (dispatch_nonce r))
         || (idempotency_key r != ActionContractV1.idempotency_key action)
         || (tenant_ref r != AuthorityContextV1.tenant_ref context)
         || (scope_ref r != AuthorityContextV1.scope_ref context)
         || (purpose_ref r != AuthorityContextV1.purpose_ref context)
         || (policy_revision_ref r
               != HumanCenteredContractMetadataV1.policy_revision_ref (ActionContractV1.metadata action))
    with ProofVerificationFailed;
  expected ← contract_digest "execution-permit-request-v1" (digest_input r);
  reject expected != request_digest r with ProofVerificationFailed;
  Ok tt.

(** [minted] is the identifier drawn by [Uuid::new_v4()]. *)
Definition new (minted : Uuid) (action : ActionContractV1.t)
    (authorization : ExactActionAuthorizationV1.t) (provider_ref owner_ref : ReferenceV1.t)
    (attempt lease_issued_at lease_until : N) (dispatch_nonce : text) : Checked t :=
  _ ← ActionContractV1.validate action;
  action_ref ← ActionContractV1.record_ref action;
  _ ← ExactActionAuthorizationV1.validate_for authorization action lease_issued_at;
  let context := context_of action in
  reject (ExactActionAuthorizationV1.decision authorization != Approve)
         || blank provider_ref || blank owner_ref || (attempt =? 0)
         || (lease_until <=? lease_issued_at)
         || (ExactActionAuthorizationV1.expires_at authorization <? lease_until)
         || (HumanCenteredContractMetadataV1.valid_until (ActionContractV1.metadata action)
               <? lease_until)
         || negb (str_len dispatch_nonce =? 64) || negb (valid_digest dispatch_nonce)
    with ProofVerificationFailed;
  request_ref ← checked_reference (txt "execution-permit-request:" ++ uuid_hyphenated minted);
  authorization_digest ← ExactActionAuthorizationV1.authorization_digest authorization;
  let value := mk request_ref action_ref (ExactActionAuthorizationV1.authorization_id authorization)
    authorization_digest provider_ref owner_ref attempt lease_issued_at lease_until dispatch_nonce
    (ActionContractV1.idempotency_key action) (AuthorityContextV1.tenant_ref context)
    (AuthorityContextV1.scope_ref context) (AuthorityContextV1.purpose_ref context)
    (HumanCenteredContractMetadataV1.policy_revision_ref (ActionContractV1.metadata action)) [] in
  digest ← contract_digest "execution-permit-request-v1" (digest_input value);
  let value := set_request_digest digest value in
  _ ← validate_for value action authorization;
  Ok value.

Definition expected_proof_binding (r : t) (issuer_ref : ReferenceV1.t) : Checked ExpectedProofBindingV1.t :=
  ExpectedProofBindingV1.new PExecutionPermit issuer_ref (request_ref r) (request_digest r)
    (tenant_ref r) (scope_ref r) (purpose_ref r) (policy_revision_ref r).

#[global] Instance to_json : ToJson t := fun r =>
  Obj [(txt "request_ref", Json.to_json (request_ref r)); (txt "action_ref", Json.to_json (action_ref r));
       (txt "authorization_id", Json.to_json (authorization_id r));
       (txt "authorization_digest", Json.to_json (authorization_digest r));
       (txt "provider_ref", Json.to_json (provider_ref r)); (txt "owner_ref", Json.to_json (owner_ref r));
       (txt "attempt", Json.to_json (attempt r));
       (txt "lease_issued_at", Json.to_json (lease_issued_at r));
       (txt "lease_until", Json.to_json (lease_until r));
       (txt "dispatch_nonce", Json.to_json (dispatch_nonce r));
       (txt "idempotency_key", Json.to_json (idempotency_key r));
       (txt "tenant_ref", Json.to_json (tenant_ref r)); (txt "scope_ref", Json.to_json (scope_ref r));
       (txt "purpose_ref", Json.to_json (purpose_ref r));
       (txt "policy_revision_ref", Json.to_json (policy_revision_ref r));
       (txt "request_digest", Json.to_json (request_digest r))].
#[global] Instance json_inj {L : CratesLaws} : JsonInj t.
Proof. solve_json_inj. Qed.
End with_crates.
End ExecutionPermitRequestV1.

Module VerifiedExecutionPermitRequestV1.
Record t := mk {
  request : ExecutionPermitRequestV1.t;
  authorization : ExactActionAuthorizationV1.t;
  verified_proof : VerifiedProofV1.t;
}.

Section with_crates.
Context {C : Crates}.

Definition validate_at (v : t) (action : ActionContractV1.t) (trusted_now : N) : Checked unit :=
  _ ← ExecutionPermitRequestV1.validate_for (request v) action (authorization v);
  _ ← ExactActionAuthorizationV1.validate_for (authorization v) action trusted_now;
  let claims := VerifiedProofV1.claims (verified_proof v) in
  reject (trusted_now <? ExecutionPermitRequestV1.lease_issued_at (request v))
         || (ExecutionPermitRequestV1.lease_until (request v) <=? trusted_now)
         || (trusted_now <? ProofClaimsV1.issued_at claims)
         || (ProofClaimsV1.expires_at claims <=? trusted_now)
         || (HumanCenteredContractMetadataV1.valid_until (ActionContractV1.metadata action)
               <=? trusted_now)
         || (trusted_now <? VerifiedProofV1.verified_at (verified_proof v))
    with ProofVerificationFailed;
  Ok tt.
End with_crates.
End VerifiedExecutionPermitRequestV1.

Section permit_request.
Context {C : Crates}.

Definition verify_execution_permit_request (verified_proof : VerifiedProofV1.t)
    (request : ExecutionPermitRequestV1.t) (action : ActionContractV1.t)
    (authorization : ExactActionAuthorizationV1.t) : Checked VerifiedExecutionPermitRequestV1.t :=
  _ ← ExecutionPermitRequestV1.validate_for request action authorization;
  let claims := VerifiedProofV1.claims verified_proof in
  let verified_at := VerifiedProofV1.verified_at verified_proof in
  reject (ProofClaimsV1.proof_kind claims != PExecutionPermit)
         || (ProofClaimsV1.subject_ref claims != ExecutionPermitRequestV1.request_ref request)
         || (ProofClaimsV1.subject_digest claims != ExecutionPermitRequestV1.request_digest request)
         || (ProofClaimsV1.tenant_ref claims != ExecutionPermitRequestV1.tenant_ref request)
         || (ProofClaimsV1.scope_ref claims != ExecutionPermitRequestV1.scope_ref request)
         || (ProofClaimsV1.purpose_ref claims != ExecutionPermitRequestV1.purpose_ref request)
         || (ProofClaimsV1.policy_revision_ref claims
               != ExecutionPermitRequestV1.policy_revision_ref request)
         || negb (ProofClaimsV1.issued_at claims =? ExecutionPermitRequestV1.lease_issued_at request)
         || (ProofClaimsV1.expires_at claims <? ExecutionPermitRequestV1.lease_until request)
         || (ProofClaimsV1.nonce claims != ExecutionPermitRequestV1.dispatch_nonce request)
         || (verified_at <? ExecutionPermitRequestV1.lease_issued_at request)
         || (ExecutionPermitRequestV1.lease_until request <=? verified_at)
    with ProofVerificationFailed;
  Ok (VerifiedExecutionPermitRequestV1.mk request authorization verified_proof).
End permit_request.

(** ** Receipts *)

Module ExecutionReceiptV1.
Record t := mk {
  metadata : Metadata;
  action_ref : ContractRef;
  permit_id : HumanCenteredProofIdV1;
  authorization_id : Uuid;
  execution_id : Uuid;
  provider_ref : ReferenceV1.t;
  owner_ref : ReferenceV1.t;
  dispatch_nonce : text;
  external_execution_ref : option ReferenceV1.t;
  idempotency_key : text;
  request_parameter_digest : text;
  attempt : N;
  started_at : N;
  completed_at : N;
  state : ExecutionStateV1;
  result_payload : option Value;
  result_payload_digest : option text;
  applied_effects : list text;
  verification_results : list text;
  error_codes : list text;
  record_digest : text;
}.

Definition set_record_digest (d : text) (c : t) : t :=
  mk (metadata c) (action_ref c) (permit_id c) (authorization_id c) (execution_id c)
    (provider_ref c) (owner_ref c) (dispatch_nonce c) (external_execution_ref c)
    (idempotency_key c) (request_parameter_digest c) (attempt c) (started_at c) (completed_at c)
    (state c) (result_payload c) (result_payload_digest c) (applied_effects c)
    (verification_results c) (error_codes c) d.

(** The [match self.state] block. *)
Definition check_state (c : t) : Checked unit :=
  match state c with
  | ESucceeded =>
      reject negb (is_some (result_payload c)) || is_nil (verification_results c)
             || negb (is_nil (error_codes c)) with InvalidContract; Ok tt
  | EFailed | ERejected => reject is_nil (error_codes c) with InvalidContract; Ok tt
  | _ => Ok tt
  end.

Section with_crates.
Context {C : Crates}.

(** [self.result_payload.as_ref().map(|payload| contract_digest(...)).transpose()] *)
Definition payload_digest (payload : option Value) : Checked (option text) :=
  transpose (contract_digest "execution-result-v1") payload.

Definition check_payload (payload : option Value) : Checked unit :=
  match payload with Some payload => validate_json_payload payload | None => Ok tt end.

Definition digest_input (c : t) : Value :=
  Arr [Arr [Json.to_json (metadata c); Json.to_json (action_ref c); Json.to_json (permit_id c);
            Json.to_json (authorization_id c); Json.to_json (execution_id c);
            Json.to_json (provider_ref c); Json.to_json (owner_ref c);
            Json.to_json (dispatch_nonce c); Json.to_json (external_execution_ref c);
            Json.to_json (idempotency_key c); Json.to_json (request_parameter_digest c)];
       Arr [Json.to_json (attempt c); Json.to_json (started_at c);
            Json.to_json (completed_at c); Json.to_json (state c);
            Json.to_json (result_payload c); Json.to_json (result_payload_digest c);
            Json.to_json (applied_effects c); Json.to_json (verification_results c);
            Json.to_json (error_codes c)]].

Definition validate (c : t) : Checked unit :=
  _ ← HumanCenteredContractMetadataV1.validate (metadata c);
  reject HumanCenteredContractMetadataV1.contract_kind (metadata c) != KExecutionReceipt
    with ContractKindMismatch;
  _ ← HumanCenteredContractRefV1.validate (action_ref c);
  _ ← validate_required_text (idempotency_key c);
  _ ← validate_text_collection (applied_effects c);
  _ ← validate_text_collection (verification_results c);
  _ ← validate_text_collection (error_codes c);
  _ ← check_payload (result_payload c);
  reject (HumanCenteredContractRefV1.kind (action_ref c) != KAction)
         || negb (contains (action_ref c) (HumanCenteredContractMetadataV1.dependency_refs (metadata c)))
         || UuidId.is_empty (permit_id c) || is_nil_uuid (authorization_id c)
         || is_nil_uuid (execution_id c) || blank (provider_ref c) || blank (owner_ref c)
         || negb (str_len (dispatch_nonce c) =? 64) || negb (valid_digest (dispatch_nonce c))
         || (attempt c =? 0) || (started_at c =? 0) || (completed_at c <? started_at c)
         || negb (valid_digest (request_parameter_digest c))
    with InvalidContract;
  expected_result_digest ← payload_digest (result_payload c);
  reject expected_result_digest != result_payload_digest c with DigestMismatch;
  _ ← check_state c;
  check_record_digest "execution-receipt-v1" digest_input record_digest c.

(** [minted] is the execution identifier drawn by [Uuid::new_v4()]. *)
Definition issue (minted : Uuid) (metadata : Metadata) (action : ActionContractV1.t)
    (permit_id : HumanCenteredProofIdV1) (authorization_id : Uuid)
    (provider_ref owner_ref : ReferenceV1.t) (dispatch_nonce : text)
    (external_execution_ref : option ReferenceV1.t) (attempt started_at completed_at : N)
    (state : ExecutionStateV1) (result_payload : option Value)
    (applied_effects verification_results error_codes : list text) : Checked t :=
  _ ← ActionContractV1.validate action;
  action_ref ← ActionContractV1.record_ref action;
  _ ← check_payload result_payload;
  result_payload_digest ← payload_digest result_payload;
  seal "execution-receipt-v1" digest_input set_record_digest validate
    (mk metadata action_ref permit_id authorization_id minted provider_ref owner_ref dispatch_nonce
       external_execution_ref (ActionContractV1.idempotency_key action)
       (ActionContractV1.parameter_digest action) attempt started_at completed_at state
       result_payload result_payload_digest applied_effects verification_results error_codes []).

Definition record_ref : t -> Checked ContractRef :=
  name_contract KExecutionReceipt metadata record_digest validate.

#[global] Instance to_json : ToJson t := fun c =>
  Obj [(txt "metadata", Json.to_json (metadata c));
   (txt "action_ref", Json.to_json (action_ref c));
   (txt "permit_id", Json.to_json (permit_id c));
   (txt "authorization_id", Json.to_json (authorization_id c));
   (txt "execution_id", Json.to_json (execution_id c));
   (txt "provider_ref", Json.to_json (provider_ref c));
   (txt "owner_ref", Json.to_json (owner_ref c));
   (txt "dispatch_nonce", Json.to_json (dispatch_nonce c));
   (txt "external_execution_ref", Json.to_json (external_execution_ref c));
   (txt "idempotency_key", Json.to_json (idempotency_key c));
   (txt "request_parameter_digest", Json.to_json (request_parameter_digest c));
   (txt "attempt", Json.to_json (attempt c)); (txt "started_at", Json.to_json (started_at c));
   (txt "completed_at", Json.to_json (completed_at c)); (txt "state", Json.to_json (state c));
   (txt "result_payload", Json.to_json (result_payload c));
   (txt "result_payload_digest", Json.to_json (result_payload_digest c));
   (txt "applied_effects", Json.to_json (applied_effects c));
   (txt "verification_results", Json.to_json (verification_results c));
   (txt "error_codes", Json.to_json (error_codes c));
   (txt "record_digest", Json.to_json (record_digest c))].

(** [None] and [Some(Value::Null)] have the same encoding. *)
Lemma to_json_payload (p q : option Value) :
  Json.to_json p = Json.to_json q -> default Null p = default Null q.
Proof. intros H. destruct p, q; exact H. Qed.

(** The payload digest is present exactly when the payload is. *)
Lemma payload_matches c : validate c = Ok tt ->
  is_some (result_payload_digest c) = is_some (result_payload c).
Proof.
  unfold validate. intros H. inv_ok. rewrite negb_false_iff, bool_decide_true_iff in *. subst.
  match goal with H : payload_digest _ = Ok _ |- _ =>
    apply transpose_Ok in H; destruct (result_payload c); [destruct H as (? & _ & ->)|rewrite H] end;
  done.
Qed.

#[global] Instance contract : Contract t := {
  contract_kind_of := KExecutionReceipt;
  contract_domain := "execution-receipt-v1";
  contract_metadata := metadata;
  contract_record_digest := record_digest;
  with_record_digest := set_record_digest;
  contract_digest_input := digest_input;
  contract_validate := validate;
  contract_record_ref := record_ref;
}.
#[global] Instance contract_laws : ContractLaws t.
Proof.
  split; [|done|done|].
  - intros c H. cbn in H. unfold validate in H. solve_contract_valid.
  - intros L a b Ha Hb H E. cbn in Ha, Hb, H, E. apply payload_matches in Ha, Hb.
    destruct a, b. unfold digest_input in H. json_fields H.
    repeat match goal with E : Arr _ = Arr _ |- _ => json_fields E end.
    repeat match goal with
    | E : Json.to_json (result_payload _) = _ |- _ => apply to_json_payload in E
    | E : Json.to_json _ = Json.to_json _ |- _ => apply Json.json_inj in E
    end.
    cbn in *. subst. f_equal.
    repeat match goal with p : option Value |- _ => destruct p end; cbn in *; congruence.
Qed.

(** [format!("execution-receipt:{}:{}", contract_id, revision)] *)
Definition proof_subject_ref (c : t) : Checked ReferenceV1.t :=
  map_err (fun _ => InvalidContract)
    (ReferenceV1.new (txt "execution-receipt:"
       ++ uuid_hyphenated (HumanCenteredContractMetadataV1.contract_id (metadata c))
       ++ txt ":" ++ dec_text (HumanCenteredContractMetadataV1.revision (metadata c)))).

Definition expected_provider_proof_binding (c : t) : Checked ExpectedProofBindingV1.t :=
  let context := HumanCenteredContractMetadataV1.authority_context (metadata c) in
  subject ← proof_subject_ref c;
  ExpectedProofBindingV1.new PProviderExecutionReceipt (provider_ref c) subject (record_digest c)
    (AuthorityContextV1.tenant_ref context) (AuthorityContextV1.scope_ref context)
    (AuthorityContextV1.purpose_ref context)
    (HumanCenteredContractMetadataV1.policy_revision_ref (metadata c)).
End with_crates.
End ExecutionReceiptV1.

Module VerifiedExecutionReceiptV1.
Record t := mk { receipt : ExecutionReceiptV1.t; verified_proof : VerifiedProofV1.t }.

Section with_crates.
Context {C : Crates}.
Definition validate_at (v : t) (trusted_now : N) : Checked unit :=
  _ ← ExecutionReceiptV1.validate (receipt v);
  let claims := VerifiedProofV1.claims (verified_proof v) in
  reject (trusted_now <? ExecutionReceiptV1.completed_at (receipt v))
         || (trusted_now <? ProofClaimsV1.issued_at claims)
         || (ProofClaimsV1.expires_at claims <=? trusted_now)
         || (trusted_now <? VerifiedProofV1.verified_at (verified_proof v))
    with ProofVerificationFailed;
  Ok tt.
End with_crates.

Definition into_parts (v : t) : ExecutionReceiptV1.t * SignedProofEnvelopeV1.t * N :=
  (receipt v, VerifiedProofV1.envelope (verified_proof v), VerifiedProofV1.verified_at (verified_proof v)).
End VerifiedExecutionReceiptV1.

Section receipts.
Context {C : Crates}.

Definition verify_execution_receipt (verified_proof : VerifiedProofV1.t)
    (receipt : ExecutionReceiptV1.t) : Checked VerifiedExecutionReceiptV1.t :=
  _ ← ExecutionReceiptV1.validate receipt;
  let claims := VerifiedProofV1.claims verified_proof in
  expected ← ExecutionReceiptV1.expected_provider_proof_binding receipt;
  reject (ProofClaimsV1.proof_kind claims != PProviderExecutionReceipt)
         || (ProofClaimsV1.issuer_ref claims != ExecutionReceiptV1.provider_ref receipt)
    with ProofVerificationFailed;
  subject ← ExecutionReceiptV1.proof_subject_ref receipt;
  reject ProofClaimsV1.subject_ref claims != subject with ProofVerificationFailed;
  reference ← ExecutionReceiptV1.record_ref receipt;
  reject (ProofClaimsV1.subject_digest claims != HumanCenteredContractRefV1.record_digest reference)
         || (ProofClaimsV1.tenant_ref claims != ExpectedProofBindingV1.tenant_ref expected)
         || (ProofClaimsV1.scope_ref claims != ExpectedProofBindingV1.scope_ref expected)
         || (ProofClaimsV1.purpose_ref claims != ExpectedProofBindingV1.purpose_ref expected)
         || (ProofClaimsV1.policy_revision_ref claims
               != ExpectedProofBindingV1.policy_revision_ref expected)
         || (ProofClaimsV1.nonce claims != ExecutionReceiptV1.dispatch_nonce receipt)
         || (ProofClaimsV1.issued_at claims <? ExecutionReceiptV1.completed_at receipt)
         || (VerifiedProofV1.verified_at verified_proof <? ProofClaimsV1.issued_at claims)
    with ProofVerificationFailed;
  Ok (VerifiedExecutionReceiptV1.mk receipt verified_proof).
End receipts.

Section execution_facts.
Context {C : Crates}.
Import ExecutionPermitRequestV1.

(** What a request accepted for an action and its authorization satisfies. *)
Record request_ok (r : t) (action : ActionContractV1.t) (a : ExactActionAuthorizationV1.t) : Prop := {
  ro_authorization : ExactActionAuthorizationV1.validate_for a action (lease_issued_at r) = Ok tt;
  ro_action : ActionContractV1.record_ref action = Ok (action_ref r);
  ro_id : authorization_id r = ExactActionAuthorizationV1.authorization_id a;
  ro_digest : ExactActionAuthorizationV1.authorization_digest a = Ok (authorization_digest r);
  ro_approved : ExactActionAuthorizationV1.decision a = Approve;
  ro_attempt : attempt r <> 0;
  ro_lease : lease_issued_at r < lease_until r;
  ro_lease_authorization : lease_until r <= ExactActionAuthorizationV1.expires_at a;
  ro_lease_action : lease_until r
    <= HumanCenteredContractMetadataV1.valid_until (ActionContractV1.metadata action);
  ro_nonce : valid_digest (dispatch_nonce r) = true;
  ro_idempotency : idempotency_key r = ActionContractV1.idempotency_key action;
  ro_context : tenant_ref r = AuthorityContextV1.tenant_ref (context_of action) /\
    scope_ref r = AuthorityContextV1.scope_ref (context_of action) /\
    purpose_ref r = AuthorityContextV1.purpose_ref (context_of action);
  ro_content : contract_digest "execution-permit-request-v1" (digest_input r) = Ok (request_digest r);
}.

Lemma request_validate_ok r action a : validate_for r action a = Ok tt -> request_ok r action a.
Proof.
  unfold validate_for. cbn zeta. intros H.
  apply bind_unit_Ok in H as [_ H]. apply bind_unit_Ok in H as [Ha H].
  apply reject_Ok in H as [_ H]. apply bind_Ok in H as (ref & Href & H).
  apply reject_Ok in H as [H1 H]. apply bind_Ok in H as (ad & Had & H).
  apply reject_Ok in H as [H2 H]. apply bind_Ok in H as (d & Hd & H). apply reject_Ok in H as [H3 _].
  rewrite !orb_false_iff, !negb_false_iff, !bool_decide_true_iff, ?N.eqb_neq, ?N.leb_gt, ?N.ltb_ge in *.
  destruct_and!. subst. split; try done.
Qed.

Lemma permit_verified p r action a v :
  verify_execution_permit_request p r action a = Ok v ->
  v = VerifiedExecutionPermitRequestV1.mk r a p /\ validate_for r action a = Ok tt /\
  ProofClaimsV1.proof_kind (VerifiedProofV1.claims p) = PExecutionPermit /\
  ProofClaimsV1.subject_ref (VerifiedProofV1.claims p) = request_ref r /\
  ProofClaimsV1.subject_digest (VerifiedProofV1.claims p) = request_digest r /\
  ProofClaimsV1.tenant_ref (VerifiedProofV1.claims p) = tenant_ref r /\
  ProofClaimsV1.scope_ref (VerifiedProofV1.claims p) = scope_ref r /\
  ProofClaimsV1.nonce (VerifiedProofV1.claims p) = dispatch_nonce r /\
  ProofClaimsV1.issued_at (VerifiedProofV1.claims p) = lease_issued_at r /\
  lease_until r <= ProofClaimsV1.expires_at (VerifiedProofV1.claims p) /\
  lease_issued_at r <= VerifiedProofV1.verified_at p < lease_until r.
Proof.
  unfold verify_execution_permit_request. cbn zeta. intros [Hv H]%bind_unit_Ok.
  apply reject_Ok in H as [H [= <-]].
  rewrite !orb_false_iff, !negb_false_iff, !bool_decide_true_iff, N.eqb_eq, !N.ltb_ge, N.leb_gt in H.
  destruct_and!. split_and!; done.
Qed.
End execution_facts.

Section execution_theorems.
Context {C : Crates}.
Import ExecutionPermitRequestV1.

(** A verified permit request is usable exactly from the moment its proof
    was verified until its lease ends: the re-check at the store's trusted time
    accepts at those times and no other, because the lease never outlives the
    authorization, the action or the proof. *)
Theorem verified_permit_usable_until_lease_end p r action a v now :
  verify_execution_permit_request p r action a = Ok v ->
  (VerifiedExecutionPermitRequestV1.validate_at v action now = Ok tt <->
   VerifiedProofV1.verified_at p <= now < lease_until r).
Proof.
  intros H. apply permit_verified in H as (-> & Hv & _ & _ & _ & _ & _ & _ & Hi & He & Ht).
  destruct (request_validate_ok _ _ _ Hv) as [Ha _ _ _ _ _ _ Hla Hlact _ _ _ _].
  unfold VerifiedExecutionPermitRequestV1.validate_at.
  cbn [VerifiedExecutionPermitRequestV1.request VerifiedExecutionPermitRequestV1.authorization
    VerifiedExecutionPermitRequestV1.verified_proof].
  rewrite bind_unit_Ok, bind_unit_Ok, reject_Ok, !orb_false_iff, !N.ltb_ge, !N.leb_gt.
  rewrite authorization_validate_Ok in *. destruct_and!.
  split.
  - intros (_ & _ & Hw & _). destruct_and!. lia.
  - intros Hnow. split; [done|]. split_and!; first [done | lia].
Qed.

(** A verified permit request authorizes one dispatch of one action: the
    proof is an execution-permit proof over exactly this request's digest and
    nonce, in the action's tenant and scope; the request names this action, an
    approval of it that is current when the lease starts, the action's own
    idempotency key, and a positive attempt number. *)
Theorem verified_permit_binds_action p r action a v :
  verify_execution_permit_request p r action a = Ok v ->
  let c := VerifiedProofV1.claims p in
  VerifiedExecutionPermitRequestV1.request v = r /\
  ProofClaimsV1.proof_kind c = PExecutionPermit /\
  contract_digest "execution-permit-request-v1" (digest_input r) = Ok (ProofClaimsV1.subject_digest c) /\
  ProofClaimsV1.nonce c = dispatch_nonce r /\ valid_digest (dispatch_nonce r) = true /\
  ProofClaimsV1.tenant_ref c = AuthorityContextV1.tenant_ref (context_of action) /\
  ProofClaimsV1.scope_ref c = AuthorityContextV1.scope_ref (context_of action) /\
  ActionContractV1.record_ref action = Ok (action_ref r) /\
  ExactActionAuthorizationV1.decision a = Approve /\
  ExactActionAuthorizationV1.authorization_digest a = Ok (authorization_digest r) /\
  ExactActionAuthorizationV1.issued_at a <= ProofClaimsV1.issued_at c /\
  ProofClaimsV1.issued_at c < ExactActionAuthorizationV1.expires_at a /\
  idempotency_key r = ActionContractV1.idempotency_key action /\ attempt r <> 0.
Proof.
  intros H. apply permit_verified in H as (-> & Hv & Hk & _ & Hd & Hten & Hsc & Hn & Hi & _ & _).
  destruct (request_validate_ok _ _ _ Hv) as [Ha Href _ Had Happ Hatt _ _ _ Hnonce Hid (Hc1 & Hc2 & _) Hdig].
  apply authorization_validate_Ok in Ha. destruct_and!. cbn zeta.
  split_and!; first [done | congruence | lia].
Qed.

Lemma receipt_depends_on_action (c : ExecutionReceiptV1.t) :
  ExecutionReceiptV1.validate c = Ok tt ->
  ExecutionReceiptV1.action_ref c
    ∈ HumanCenteredContractMetadataV1.dependency_refs (ExecutionReceiptV1.metadata c).
Proof.
  intros H. unfold ExecutionReceiptV1.validate in H.
  apply bind_unit_Ok in H as [_ H]. apply reject_Ok in H as [_ H].
  do 6 apply bind_unit_Ok in H as [_ H]. apply reject_Ok in H as [Hg _].
  rewrite !orb_false_iff, !negb_false_iff, !contains_true in Hg. tauto.
Qed.

(** An accepted receipt shows what it claims: success comes with a result,
    a verification and no error; failure and rejection name an error; the
    result digest is present exactly with a result and is its digest; the
    times are ordered; and the action it reports on is among its dependencies. *)
Theorem accepted_receipt_is_evidenced (c : ExecutionReceiptV1.t) :
  ExecutionReceiptV1.validate c = Ok tt ->
  (ExecutionReceiptV1.state c = ESucceeded ->
     (exists result digest, ExecutionReceiptV1.result_payload c = Some result /\
        ExecutionReceiptV1.result_payload_digest c = Some digest /\
        contract_digest "execution-result-v1" result = Ok digest /\
        validate_json_payload result = Ok tt) /\
     ExecutionReceiptV1.verification_results c <> [] /\ ExecutionReceiptV1.error_codes c = []) /\
  (ExecutionReceiptV1.state c = EFailed \/ ExecutionReceiptV1.state c = ERejected ->
     ExecutionReceiptV1.error_codes c <> []) /\
  (ExecutionReceiptV1.result_payload c = None <-> ExecutionReceiptV1.result_payload_digest c = None) /\
  1 <= ExecutionReceiptV1.started_at c <= ExecutionReceiptV1.completed_at c /\
  ExecutionReceiptV1.attempt c <> 0 /\
  HumanCenteredContractRefV1.kind (ExecutionReceiptV1.action_ref c) = KAction /\
  ExecutionReceiptV1.action_ref c
    ∈ HumanCenteredContractMetadataV1.dependency_refs (ExecutionReceiptV1.metadata c).
Proof.
  intros Hok. pose proof (ExecutionReceiptV1.payload_matches c Hok) as Hmatch.
  unfold ExecutionReceiptV1.validate in Hok.
  apply bind_unit_Ok in Hok as [_ H]. apply reject_Ok in H as [_ H].
  do 5 apply bind_unit_Ok in H as [_ H]. apply bind_unit_Ok in H as [Hpay H].
  apply reject_Ok in H as [Hg H]. apply bind_Ok in H as (d & Hd & H).
  apply reject_Ok in H as [He H]. apply bind_unit_Ok in H as [Hs _].
  rewrite !orb_false_iff, !negb_false_iff, !bool_decide_true_iff, !N.eqb_neq, N.ltb_ge, contains_true in *.
  subst d. destruct_and!. apply transpose_Ok in Hd. unfold ExecutionReceiptV1.check_state in Hs.
  split; [|split; [|split; [|split_and!; first [done | lia]]]].
  - intros Hst. rewrite Hst in Hs. apply reject_Ok in Hs as [Hs _].
    rewrite !orb_false_iff, !negb_false_iff, is_some_true, is_nil_false, is_nil_true in Hs.
    destruct Hs as [[[result Hr] ?] ?]. split; [|done]. rewrite Hr in *.
    destruct Hd as (digest & Hdig & Hrd). exists result, digest. done.
  - intros [Hst|Hst]; rewrite Hst in Hs; apply reject_Ok in Hs as [Hs _]; by rewrite is_nil_false in Hs.
  - rewrite <- !is_some_false. by rewrite Hmatch.
Qed.

(** A verified receipt is what its provider attested, after the execution
    completed: the proof is a provider-receipt proof by the receipt's own
    provider over the receipt's record digest and dispatch nonce; it is
    accepted later exactly while that proof has not expired. *)
Theorem verified_receipt_is_attested p c v :
  verify_execution_receipt p c = Ok v ->
  let claims := VerifiedProofV1.claims p in
  VerifiedExecutionReceiptV1.receipt v = c /\ ExecutionReceiptV1.validate c = Ok tt /\
  ProofClaimsV1.proof_kind claims = PProviderExecutionReceipt /\
  ProofClaimsV1.issuer_ref claims = ExecutionReceiptV1.provider_ref c /\
  ProofClaimsV1.subject_digest claims = ExecutionReceiptV1.record_digest c /\
  ProofClaimsV1.nonce claims = ExecutionReceiptV1.dispatch_nonce c /\
  ExecutionReceiptV1.completed_at c <= ProofClaimsV1.issued_at claims <= VerifiedProofV1.verified_at p /\
  (forall now, VerifiedExecutionReceiptV1.validate_at v now = Ok tt <->
     VerifiedProofV1.verified_at p <= now < ProofClaimsV1.expires_at claims).
Proof.
  unfold verify_execution_receipt. cbn zeta. intros H.
  apply bind_unit_Ok in H as [Hv H]. apply bind_Ok in H as (b & Hb & H).
  apply reject_Ok in H as [H1 H]. apply bind_Ok in H as (s & Hs & H).
  apply reject_Ok in H as [_ H]. apply bind_Ok in H as (ref & Href & H). apply reject_Ok in H as [H2 [= <-]].
  rewrite !orb_false_iff, !negb_false_iff, !bool_decide_true_iff, !N.ltb_ge in *. destruct_and!.
  assert (HumanCenteredContractRefV1.record_digest ref = ExecutionReceiptV1.record_digest c) as Hdig.
  { unfold ExecutionReceiptV1.record_ref, name_contract in Href. apply bind_unit_Ok in Href as [_ Href].
    by apply ref_new_Ok in Href as [-> _]. }
  cbn [VerifiedExecutionReceiptV1.receipt]. split_and!; try done; try congruence.
  intros now. unfold VerifiedExecutionReceiptV1.validate_at.
  cbn [VerifiedExecutionReceiptV1.receipt VerifiedExecutionReceiptV1.verified_proof].
  rewrite bind_unit_Ok, reject_Ok, !orb_false_iff, !N.ltb_ge, N.leb_gt.
  split; [intros (_ & H' & _); destruct_and!; lia|]. intros ?. split; [done|]. split; [|done].
  split_and!; lia.
Qed.
End execution_theorems.

(** ** The theorems on concrete values *)

Module ExecutionSample.
Import Toy.
Definition nonce : text := encode_hex (be_bytes 32 9).
Definition no_request : ExecutionPermitRequestV1.t :=
  let r := Sample.reference "" in
  ExecutionPermitRequestV1.mk r (Sample.ref KAction 13) (Toy.uuid 77) [] r r 0 0 0 [] [] r r r r [].
Definition request : ExecutionPermitRequestV1.t :=
  Eval vm_compute in match ExecutionPermitRequestV1.new (Toy.uuid 60) ActionSample.contract
      ActionSample.authorization (Sample.reference "provider:1") (Sample.reference "owner:1") 1 100 200 nonce with
  | Ok r => r | Err _ => no_request end.
Definition permit_claims : ProofClaimsV1.t :=
  ProofClaimsV1.mk (Toy.uuid 61) PExecutionPermit (Sample.reference "issuer:1")
    (ExecutionPermitRequestV1.request_ref request) (ExecutionPermitRequestV1.request_digest request)
    (Sample.reference "tenant:1") (Sample.reference "scope:1") (Sample.reference "purpose:1")
    (Sample.reference "policy:1") 100 250 nonce HUMAN_CENTERED_SCHEMA_VERSION.
Definition permit_proof : VerifiedProofV1.t :=
  VerifiedProofV1.mk (SignedProofEnvelopeV1.mk permit_claims (Sample.reference "key:1")
    (encode_hex (be_bytes 64 5))) 120.

Definition no_receipt : ExecutionReceiptV1.t :=
  let r := Sample.reference "" in
  ExecutionReceiptV1.mk (Sample.metadata KExecutionReceipt 15 []) (Sample.ref KAction 13) (Toy.uuid 1)
    (Toy.uuid 1) (Toy.uuid 1) r r [] None [] [] 0 0 0 ERejected None None [] [] [] [].
Definition action_ref : ContractRef := ExecutionPermitRequestV1.action_ref request.
Definition receipt_with (result : option Value) : Checked ExecutionReceiptV1.t :=
  ExecutionReceiptV1.issue (Toy.uuid 62) (Sample.metadata KExecutionReceipt 15 [action_ref])
    ActionSample.contract (Toy.uuid 61) (Toy.uuid 77) (Sample.reference "provider:1")
    (Sample.reference "owner:1") nonce None 1 130 140 ESucceeded result [txt "room booked"]
    [txt "confirmed"] [].
Definition receipt : ExecutionReceiptV1.t :=
  Eval vm_compute in match receipt_with (Some (Obj [(txt "code", Str (txt "42"))])) with
  | Ok c => c | Err _ => no_receipt end.
Definition receipt_subject : ReferenceV1.t :=
  Eval vm_compute in match ExecutionReceiptV1.proof_subject_ref receipt with
  | Ok r => r | Err _ => Sample.reference "" end.
Definition receipt_claims : ProofClaimsV1.t :=
  ProofClaimsV1.mk (Toy.uuid 63) PProviderExecutionReceipt (Sample.reference "provider:1")
    receipt_subject (ExecutionReceiptV1.record_digest receipt) (Sample.reference "tenant:1")
    (Sample.reference "scope:1") (Sample.reference "purpose:1") (Sample.reference "policy:1") 150 400
    nonce HUMAN_CENTERED_SCHEMA_VERSION.
Definition receipt_proof : VerifiedProofV1.t :=
  VerifiedProofV1.mk (SignedProofEnvelopeV1.mk receipt_claims (Sample.reference "provider-key:1")
    (encode_hex (be_bytes 64 6))) 160.

(** A receipt whose result is the JSON value null. *)
Definition null_receipt : ExecutionReceiptV1.t :=
  Eval vm_compute in match receipt_with (Some Null) with Ok c => c | Err _ => no_receipt end.
(** What reading its JSON back gives: [Option<Value>] reads null as [None]. *)
Definition null_receipt_read_back : ExecutionReceiptV1.t :=
  Eval vm_compute in
  ExecutionReceiptV1.mk (ExecutionReceiptV1.metadata null_receipt) (ExecutionReceiptV1.action_ref null_receipt)
    (ExecutionReceiptV1.permit_id null_receipt) (ExecutionReceiptV1.authorization_id null_receipt)
    (ExecutionReceiptV1.execution_id null_receipt) (ExecutionReceiptV1.provider_ref null_receipt)
    (ExecutionReceiptV1.owner_ref null_receipt) (ExecutionReceiptV1.dispatch_nonce null_receipt)
    (ExecutionReceiptV1.external_execution_ref null_receipt) (ExecutionReceiptV1.idempotency_key null_receipt)
    (ExecutionReceiptV1.request_parameter_digest null_receipt) (ExecutionReceiptV1.attempt null_receipt)
    (ExecutionReceiptV1.started_at null_receipt) (ExecutionReceiptV1.completed_at null_receipt)
    (ExecutionReceiptV1.state null_receipt) None (ExecutionReceiptV1.result_payload_digest null_receipt)
    (ExecutionReceiptV1.applied_effects null_receipt) (ExecutionReceiptV1.verification_results null_receipt)
    (ExecutionReceiptV1.error_codes null_receipt) (ExecutionReceiptV1.record_digest null_receipt).
End ExecutionSample.

(** A receipt whose result payload is the JSON value null is accepted, but
    its encoding is also that of a receipt without a payload, which is rejected:
    written out and read back it no longer validates. *)
Theorem null_result_does_not_survive_encoding :
  exists r s : ExecutionReceiptV1.t,
    ExecutionReceiptV1.validate (C:=Toy.crates) r = Ok tt /\
    Json.to_json (A:=ExecutionReceiptV1.t) r = Json.to_json s /\
    ExecutionReceiptV1.validate (C:=Toy.crates) s = Err DigestMismatch.
Proof.
  exists ExecutionSample.null_receipt, ExecutionSample.null_receipt_read_back.
  split; [|split]; vm_compute; reflexivity.
Qed.

Lemma permit_sample_verified :
  verify_execution_permit_request (C:=Toy.crates) ExecutionSample.permit_proof ExecutionSample.request
    ActionSample.contract ActionSample.authorization
  = Ok (VerifiedExecutionPermitRequestV1.mk ExecutionSample.request ActionSample.authorization
          ExecutionSample.permit_proof).
Proof. vm_compute. reflexivity. Qed.

Lemma verified_permit_usable_until_lease_end_witness :
  VerifiedExecutionPermitRequestV1.validate_at (C:=Toy.crates)
    (VerifiedExecutionPermitRequestV1.mk ExecutionSample.request ActionSample.authorization
       ExecutionSample.permit_proof) ActionSample.contract 199 = Ok tt.
Proof.
  apply (verified_permit_usable_until_lease_end (C:=Toy.crates) _ _ _ _ _ 199 permit_sample_verified).
  vm_compute. split; [discriminate|reflexivity].
Defined.

Lemma verified_permit_binds_action_witness :
  ExactActionAuthorizationV1.decision ActionSample.authorization = Approve /\
  ExecutionPermitRequestV1.attempt ExecutionSample.request <> 0.
Proof.
  pose proof (verified_permit_binds_action (C:=Toy.crates) _ _ _ _ _ permit_sample_verified) as H.
  destruct H as (_ & _ & _ & _ & _ & _ & _ & _ & Ha & _ & _ & _ & _ & Hn). split; assumption.
Defined.

Lemma accepted_receipt_is_evidenced_witness :
  ExecutionReceiptV1.validate (C:=Toy.crates) ExecutionSample.receipt = Ok tt /\
  ExecutionReceiptV1.verification_results ExecutionSample.receipt <> [].
Proof.
  assert (ExecutionReceiptV1.validate (C:=Toy.crates) ExecutionSample.receipt = Ok tt) as Hv
    by (vm_compute; reflexivity).
  split; [exact Hv|].
  apply (accepted_receipt_is_evidenced (C:=Toy.crates) ExecutionSample.receipt Hv). reflexivity.
Defined.

Lemma verified_receipt_is_attested_witness :
  let v := VerifiedExecutionReceiptV1.mk ExecutionSample.receipt ExecutionSample.receipt_proof in
  verify_execution_receipt (C:=Toy.crates) ExecutionSample.receipt_proof ExecutionSample.receipt = Ok v /\
  VerifiedExecutionReceiptV1.validate_at (C:=Toy.crates) v 399 = Ok tt.
Proof.
  cbn zeta.
  assert (verify_execution_receipt (C:=Toy.crates) ExecutionSample.receipt_proof ExecutionSample.receipt
    = Ok (VerifiedExecutionReceiptV1.mk ExecutionSample.receipt ExecutionSample.receipt_proof)) as Hv
    by (vm_compute; reflexivity).
  split; [exact Hv|].
  apply (verified_receipt_is_attested (C:=Toy.crates) _ _ _ Hv). vm_compute. split; [discriminate|reflexivity].
Defined.
