(* ===== verification/HumanModel.v ===== *)
(** * HumanModel: assertions about a person and the gate that admits them
    ([human_centered/human_model.rs]) *)

From stdpp Require Import base list gmap sorting strings.
From Stdlib Require Import NArith ZArith Lia.
From S2P Require Import Prelude Text Json Crates Common Contract Guards.

Inductive HumanModelAssertionTypeV1 : Type :=
| InteractionProfile | CognitiveInteractionProfile | PersonalDecisionModel | HGoal | HConstraint
| DecisionHistory | OutcomeHistory.
#[export] Instance assertion_type_json : ToJson HumanModelAssertionTypeV1 := fun x =>
  Str (txt match x with
  | InteractionProfile => "interaction_profile"
  | CognitiveInteractionProfile => "cognitive_interaction_profile"
  | PersonalDecisionModel => "personal_decision_model" | HGoal => "goal"
  | HConstraint => "constraint" | DecisionHistory => "decision_history"
  | OutcomeHistory => "outcome_history" end).
#[export] Instance assertion_type_json_inj : JsonInj HumanModelAssertionTypeV1.
Proof. by intros [] [] [=]. Qed.

Inductive HumanModelPersistenceScopeV1 : Type :=
| STurn | SSession | LongTerm.
#[export] Instance persistence_eq_dec : EqDecision HumanModelPersistenceScopeV1.
Proof. solve_decision. Defined.
#[export] Instance persistence_json : ToJson HumanModelPersistenceScopeV1 := fun x =>
  Str (txt match x with
  | STurn => "turn" | SSession => "session" | LongTerm => "long_term" end).
#[export] Instance persistence_json_inj : JsonInj HumanModelPersistenceScopeV1.
Proof. by intros [] [] [=]. Qed.

Inductive HumanModelEpistemicStatusV1 : Type :=
| Candidate | Provisional | UserConfirmed | OutcomeSupported.
#[export] Instance epistemic_eq_dec : EqDecision HumanModelEpistemicStatusV1.
Proof. solve_decision. Defined.
#[export] Instance epistemic_json : ToJson HumanModelEpistemicStatusV1 := fun x =>
  Str (txt match x with
  | Candidate => "candidate" | Provisional => "provisional" | UserConfirmed => "user_confirmed"
  | OutcomeSupported => "outcome_supported" end).
#[export] Instance epistemic_json_inj : JsonInj HumanModelEpistemicStatusV1.
Proof. by intros [] [] [=]. Qed.

Inductive HumanModelLifecycleStatusV1 : Type :=
| LActive | LRejected | LExpired | LSuperseded.
#[export] Instance lifecycle_eq_dec : EqDecision HumanModelLifecycleStatusV1.
Proof. solve_decision. Defined.
#[export] Instance lifecycle_json : ToJson HumanModelLifecycleStatusV1 := fun x =>
  Str (txt match x with
  | LActive => "active" | LRejected => "rejected" | LExpired => "expired"
  | LSuperseded => "superseded" end).
#[export] Instance lifecycle_json_inj : JsonInj HumanModelLifecycleStatusV1.
Proof. by intros [] [] [=]. Qed.

Inductive HumanModelSourceTypeV1 : Type :=
| ExplicitUserStatement | InferredFromInteraction | DecisionObservation | SOutcomeObservation
| UserCorrection | ImportedAuthorizedSource.
#[export] Instance source_type_json : ToJson HumanModelSourceTypeV1 := fun x =>
  Str (txt match x with
  | ExplicitUserStatement => "explicit_user_statement"
  | InferredFromInteraction => "inferred_from_interaction"
  | DecisionObservation => "decision_observation" | SOutcomeObservation => "outcome_observation"
  | UserCorrection => "user_correction" | ImportedAuthorizedSource => "imported_authorized_source" end).
#[export] Instance source_type_json_inj : JsonInj HumanModelSourceTypeV1.
Proof. by intros [] [] [=]. Qed.

Inductive HumanModelCorrectionStateV1 : Type :=
| NotReviewed | CConfirmed | CCorrected | CRejected.
#[export] Instance correction_eq_dec : EqDecision HumanModelCorrectionStateV1.
Proof. solve_decision. Defined.
#[export] Instance correction_json : ToJson HumanModelCorrectionStateV1 := fun x =>
  Str (txt match x with
  | NotReviewed => "not_reviewed" | CConfirmed => "confirmed" | CCorrected => "corrected"
  | CRejected => "rejected" end).
#[export] Instance correction_json_inj : JsonInj HumanModelCorrectionStateV1.
Proof. by intros [] [] [=]. Qed.

Inductive HumanModelValueV1 : Type :=
| VBoolean (b : bool)
| VInteger (z : Z)
| VBasisPoints (p : UnitIntervalBasisPointsV1.t)
| VText (t : text)
| VEnum (t : text)
| VReference (r : ReferenceV1.t).

(** [#[serde(tag = "type", content = "data")]] *)
#[export] Instance model_value_json : ToJson HumanModelValueV1 := fun v =>
  let tagged (tag : string) (data : Value) := Obj [(txt "type", Str (txt tag)); (txt "data", data)] in
  match v with
  | VBoolean b => tagged "boolean" (Json.to_json b)
  | VInteger z => tagged "integer" (Json.to_json z)
  | VBasisPoints p => tagged "basis_points" (Json.to_json p)
  | VText t => tagged "text" (Json.to_json t)
  | VEnum t => tagged "enum" (Json.to_json t)
  | VReference r => tagged "reference" (Json.to_json r)
  end.
#[export] Instance model_value_json_inj : JsonInj HumanModelValueV1.
Proof.
  intros [] [] H; unfold Json.to_json at 1 2, model_value_json in H; apply Obj_eq_inv in H;
    apply field_eq_inv in H as [Ht H]; try discriminate Ht;
    apply field_eq_inv in H as [Hd _]; apply Json.json_inj in Hd; by subst.
Qed.
#[export] Instance model_value_json_not_null : JsonNotNull HumanModelValueV1.
Proof. by intros []. Qed.

Definition validate_model_value (v : HumanModelValueV1) : Checked unit :=
  match v with
  | VText value | VEnum value => validate_required_text value
  | VReference value => reject blank value with InvalidReference; Ok tt
  | _ => Ok tt
  end.

Module HumanModelScopeV1.
Record t := mk { domains : list text; task_types : list text; global : bool }.
#[global] Instance to_json : ToJson t := fun s =>
  Obj [(txt "domains", Json.to_json (domains s)); (txt "task_types", Json.to_json (task_types s));
       (txt "global", Json.to_json (global s))].
#[global] Instance json_inj : JsonInj t.
Proof. solve_json_inj. Qed.

Definition validate (s : t) : Checked unit :=
  reject (64 <? lenN (domains s)) || (64 <? lenN (task_types s)) || negb (unique_strings (domains s))
         || negb (unique_strings (task_types s))
         || (global s && (negb (is_nil (domains s)) || negb (is_nil (task_types s))))
         || (negb (global s) && is_nil (domains s) && is_nil (task_types s))
    with InvalidContract;
  for_each validate_required_text (domains s ++ task_types s).
End HumanModelScopeV1.

Module HumanModelUsagePolicyV1.
Record t := mk {
  allowed_uses : list text;
  forbidden_uses : list text;
  maximum_impact_level : ImpactLevelV1.t;
}.
#[global] Instance to_json : ToJson t := fun p =>
  Obj [(txt "allowed_uses", Json.to_json (allowed_uses p));
       (txt "forbidden_uses", Json.to_json (forbidden_uses p));
       (txt "maximum_impact_level", Json.to_json (maximum_impact_level p))].
#[global] Instance json_inj : JsonInj t.
Proof. solve_json_inj. Qed.

Definition validate (p : t) : Checked unit :=
  reject (64 <? lenN (allowed_uses p)) || (64 <? lenN (forbidden_uses p)) || is_nil (allowed_uses p)
         || negb (unique_strings (allowed_uses p)) || negb (unique_strings (forbidden_uses p))
         || (ImpactLevelV1.rank ImpactLevelV1.High <=? ImpactLevelV1.rank (maximum_impact_level p))
         || existsb (fun value => contains value (forbidden_uses p)) (allowed_uses p)
    with InvalidContract;
  for_each validate_required_text (allowed_uses p ++ forbidden_uses p).
End HumanModelUsagePolicyV1.

(** ** The update gate *)

Module HumanModelUpdateGate.
Record HumanModelUpdateFactsV1 := mkFacts {
  proposed_by_cognitive_service : bool;
  explicit_user_confirmation : bool;
  independent_supporting_observations : N;
  outcome_support_present : bool;
  contradiction_present : bool;
  inference_policy_allows : bool;
  sensitive_attribute_inference : bool;
}.

Inductive HumanModelUpdateGateOutcomeV1 : Type :=
| KeepSession | StoreCandidate | PromoteProvisional | PromoteUserConfirmed | PromoteOutcomeSupported
| Reject.
#[global] Instance outcome_eq_dec : EqDecision HumanModelUpdateGateOutcomeV1.
Proof. solve_decision. Defined.

Record HumanModelUpdateGateDecisionV1 := mkDecision {
  outcome : HumanModelUpdateGateOutcomeV1;
  reason_codes : list text;
  rule_version : N;
}.

Definition epistemic_status (d : HumanModelUpdateGateDecisionV1) : Checked HumanModelEpistemicStatusV1 :=
  reject rule_version d != HUMAN_CENTERED_RULE_VERSION with InvalidContract;
  match outcome d with
  | StoreCandidate => Ok Candidate
  | PromoteProvisional => Ok Provisional
  | PromoteUserConfirmed => Ok UserConfirmed
  | PromoteOutcomeSupported => Ok OutcomeSupported
  | KeepSession | Reject => Err InvalidContract
  end.

Definition evaluate_human_model_update_gate (facts : HumanModelUpdateFactsV1) :
    HumanModelUpdateGateDecisionV1 :=
  let decide_with outcome (reason : string) := mkDecision outcome [txt reason] HUMAN_CENTERED_RULE_VERSION in
  if negb (inference_policy_allows facts) || sensitive_attribute_inference facts
     || contradiction_present facts
  then mkDecision Reject
         (reasons_for [("inference_policy_denied", negb (inference_policy_allows facts));
                       ("sensitive_attribute_inference", sensitive_attribute_inference facts);
                       ("contradiction_requires_review", contradiction_present facts)])
         HUMAN_CENTERED_RULE_VERSION
  else if explicit_user_confirmation facts then
    decide_with PromoteUserConfirmed "explicit_user_confirmation"
  else if outcome_support_present facts && (1 <=? independent_supporting_observations facts) then
    decide_with PromoteOutcomeSupported "outcome_supported"
  else if 2 <=? independent_supporting_observations facts then
    decide_with PromoteProvisional "multiple_independent_observations"
  else if proposed_by_cognitive_service facts then decide_with StoreCandidate "cognitive_candidate_only"
  else decide_with KeepSession "insufficient_long_term_evidence".
End HumanModelUpdateGate.

(** ** Assertions *)

Module HumanModelAssertionV1.
Record t := mk {
  metadata : Metadata;
  assertion_id : HumanModelAssertionIdV1;
  subject_ref : ReferenceV1.t;
  assertion_type : HumanModelAssertionTypeV1;
  predicate : text;
  value : HumanModelValueV1;
  claim_summary : text;
  scope : HumanModelScopeV1.t;
  persistence_scope : HumanModelPersistenceScopeV1;
  epistemic_status : HumanModelEpistemicStatusV1;
  lifecycle_status : HumanModelLifecycleStatusV1;
  confidence : UnitIntervalBasisPointsV1.t;
  source_type : HumanModelSourceTypeV1;
  source_refs : list ReferenceV1.t;
  supporting_evidence_refs : list ReferenceV1.t;
  contradicting_evidence_refs : list ReferenceV1.t;
  correction_state : HumanModelCorrectionStateV1;
  corrected_value : option HumanModelValueV1;
  first_observed_at : N;
  last_observed_at : N;
  expires_at : option N;
  decay_policy_ref : ReferenceV1.t;
  usage_policy : HumanModelUsagePolicyV1.t;
  record_digest : text;
}.

Definition set_record_digest (d : text) (c : t) : t :=
  mk (metadata c) (assertion_id c) (subject_ref c) (assertion_type c) (predicate c) (value c)
    (claim_summary c) (scope c) (persistence_scope c) (epistemic_status c) (lifecycle_status c)
    (confidence c) (source_type c) (source_refs c) (supporting_evidence_refs c)
    (contradicting_evidence_refs c) (correction_state c) (corrected_value c)
    (first_observed_at c) (last_observed_at c) (expires_at c) (decay_policy_ref c)
    (usage_policy c) d.

Section with_crates.
Context {C : Crates}.

Definition digest_input (c : t) : Value :=
  Arr [Arr [Json.to_json (metadata c); Json.to_json (assertion_id c);
            Json.to_json (subject_ref c); Json.to_json (assertion_type c);
            Json.to_json (predicate c); Json.to_json (value c); Json.to_json (claim_summary c);
            Json.to_json (scope c); Json.to_json (persistence_scope c);
            Json.to_json (epistemic_status c); Json.to_json (lifecycle_status c)];
       Arr [Json.to_json (confidence c); Json.to_json (source_type c);
            Json.to_json (source_refs c); Json.to_json (supporting_evidence_refs c);
            Json.to_json (contradicting_evidence_refs c); Json.to_json (correction_state c);
            Json.to_json (corrected_value c); Json.to_json (first_observed_at c);
            Json.to_json (last_observed_at c); Json.to_json (expires_at c);
            Json.to_json (decay_policy_ref c); Json.to_json (usage_policy c)]].

Definition validate (c : t) : Checked unit :=
  _ ← HumanCenteredContractMetadataV1.validate (metadata c);
  reject HumanCenteredContractMetadataV1.contract_kind (metadata c) != KHumanModelAssertion
    with ContractKindMismatch;
  _ ← validate_model_value (value c);
  _ ← HumanModelScopeV1.validate (scope c);
  _ ← HumanModelUsagePolicyV1.validate (usage_policy c);
  _ ← validate_required_text (predicate c);
  _ ← validate_required_text (claim_summary c);
  reject UuidId.is_empty (assertion_id c)
         || (subject_ref c != AuthorityContextV1.subject_ref
                                (HumanCenteredContractMetadataV1.authority_context (metadata c)))
         || blank (decay_policy_ref c) || is_nil (source_refs c) || (first_observed_at c =? 0)
         || (last_observed_at c <? first_observed_at c)
         || is_some_and (fun expires => expires <=? last_observed_at c) (expires_at c)
         || existsb (fun value => contains value (contradicting_evidence_refs c))
              (supporting_evidence_refs c)
         || negb (eqb (correction_state c == CCorrected) (is_some (corrected_value c)))
         || ((persistence_scope c == LongTerm) && (epistemic_status c == Candidate))
    with InvalidContract;
  _ ← match corrected_value c with Some value => validate_model_value value | None => Ok tt end;
  check_record_digest "human-model-assertion-v1" digest_input record_digest c.

(** [minted] is the assertion identifier drawn by [mint()]. *)
Definition issue (minted : HumanModelAssertionIdV1) (metadata : Metadata) (subject_ref : ReferenceV1.t)
    (assertion_type : HumanModelAssertionTypeV1) (predicate : text) (value : HumanModelValueV1)
    (claim_summary : text) (scope : HumanModelScopeV1.t)
    (persistence_scope : HumanModelPersistenceScopeV1)
    (gate_decision : HumanModelUpdateGate.HumanModelUpdateGateDecisionV1)
    (lifecycle_status : HumanModelLifecycleStatusV1) (confidence : UnitIntervalBasisPointsV1.t)
    (source_type : HumanModelSourceTypeV1)
    (source_refs supporting_evidence_refs contradicting_evidence_refs : list ReferenceV1.t)
    (correction_state : HumanModelCorrectionStateV1) (corrected_value : option HumanModelValueV1)
    (first_observed_at last_observed_at : N) (expires_at : option N)
    (decay_policy_ref : ReferenceV1.t) (usage_policy : HumanModelUsagePolicyV1.t) : Checked t :=
  epistemic_status ← HumanModelUpdateGate.epistemic_status gate_decision;
  source_refs ← canonical_references source_refs;
  supporting_evidence_refs ← canonical_references supporting_evidence_refs;
  contradicting_evidence_refs ← canonical_references contradicting_evidence_refs;
  seal "human-model-assertion-v1" digest_input set_record_digest validate
    (mk metadata minted subject_ref assertion_type predicate value claim_summary scope
       persistence_scope epistemic_status lifecycle_status confidence source_type source_refs
       supporting_evidence_refs contradicting_evidence_refs correction_state corrected_value
       first_observed_at last_observed_at expires_at decay_policy_ref usage_policy []).

Definition record_ref : t -> Checked ContractRef :=
  name_contract KHumanModelAssertion metadata record_digest validate.

#[global] Instance to_json : ToJson t := fun c =>
  Obj [(txt "metadata", Json.to_json (metadata c));
   (txt "assertion_id", Json.to_json (assertion_id c));
   (txt "subject_ref", Json.to_json (subject_ref c));
   (txt "assertion_type", Json.to_json (assertion_type c));
   (txt "predicate", Json.to_json (predicate c)); (txt "value", Json.to_json (value c));
   (txt "claim_summary", Json.to_json (claim_summary c));
   (txt "scope", Json.to_json (scope c));
   (txt "persistence_scope", Json.to_json (persistence_scope c));
   (txt "epistemic_status", Json.to_json (epistemic_status c));
   (txt "lifecycle_status", Json.to_json (lifecycle_status c));
   (txt "confidence", Json.to_json (confidence c));
   (txt "source_type", Json.to_json (source_type c));
   (txt "source_refs", Json.to_json (source_refs c));
   (txt "supporting_evidence_refs", Json.to_json (supporting_evidence_refs c));
   (txt "contradicting_evidence_refs", Json.to_json (contradicting_evidence_refs c));
   (txt "correction_state", Json.to_json (correction_state c));
   (txt "corrected_value", Json.to_json (corrected_value c));
   (txt "first_observed_at", Json.to_json (first_observed_at c));
   (txt "last_observed_at", Json.to_json (last_observed_at c));
   (txt "expires_at", Json.to_json (expires_at c));
   (txt "decay_policy_ref", Json.to_json (decay_policy_ref c));
   (txt "usage_policy", Json.to_json (usage_policy c));
   (txt "record_digest", Json.to_json (record_digest c))].

#[global] Instance contract : Contract t := {
  contract_kind_of := KHumanModelAssertion;
  contract_domain := "human-model-assertion-v1";
  contract_metadata := metadata;
  contract_record_digest := record_digest;
  with_record_digest := set_record_digest;
  contract_digest_input := digest_input;
  contract_validate := validate;
  contract_record_ref := record_ref;
}.
#[global] Instance contract_laws : ContractLaws t.
Proof.
  split; [|done|done|].
  - intros c H. cbn in H. unfold validate in H. solve_contract_valid.
  - intros L [] [] _ _ H E. cbn in H, E. unfold digest_input in H. solve_digest_inj H.
Qed.
End with_crates.

Definition effective_value (c : t) (trusted_now : N) : option HumanModelValueV1 :=
  if (lifecycle_status c != LActive) || (correction_state c == CRejected)
     || (trusted_now <? first_observed_at c)
     || is_some_and (fun expires_at => expires_at <=? trusted_now) (expires_at c)
  then None
  else Some (default (value c) (corrected_value c)).
End HumanModelAssertionV1.

Section human_model_theorems.
Context {C : Crates}.
Import HumanModelUpdateGate HumanModelAssertionV1.

(** What the gate lets into the human model: nothing denied by policy,
    sensitive or contradicted; a user's confirmation outranks everything else;
    then an outcome with at least one observation, then two observations; the
    cognitive service's own word only makes a candidate. *)
Theorem update_gate_decides facts :
  let o := outcome (evaluate_human_model_update_gate facts) in
  let admissible := inference_policy_allows facts = true /\ sensitive_attribute_inference facts = false /\
                    contradiction_present facts = false in
  let supported := outcome_support_present facts = true /\ 1 <= independent_supporting_observations facts in
  (o = Reject <-> ~ admissible) /\
  (o = PromoteUserConfirmed <-> admissible /\ explicit_user_confirmation facts = true) /\
  (o = PromoteOutcomeSupported <->
     admissible /\ explicit_user_confirmation facts = false /\ supported) /\
  (o = PromoteProvisional <->
     admissible /\ explicit_user_confirmation facts = false /\ ~ supported /\
     2 <= independent_supporting_observations facts) /\
  (o = StoreCandidate <->
     admissible /\ explicit_user_confirmation facts = false /\ ~ supported /\
     independent_supporting_observations facts < 2 /\ proposed_by_cognitive_service facts = true).
Proof.
  destruct facts as [ps uc n os cp ia sa]. unfold evaluate_human_model_update_gate. cbn.
  destruct (N.leb_spec 1 n), (N.leb_spec 2 n), ia, sa, cp, uc, os, ps; cbn;
    split_and!; split; intros; destruct_and?; try done;
    try (split_and!; try done; intros [? ?]; done || lia); try lia; try tauto.
Qed.

(** Nothing enters long-term memory on the cognitive service's word: an
    assertion issued for long-term persistence from the gate's decision was
    allowed by policy, is not sensitive or contradicted, and rests on the
    user's confirmation, on a supporting outcome, or on two independent
    observations; it is about the subject of its own authority context. *)
Theorem long_term_memory_needs_evidence minted m subject ty pred v claim sc facts lc conf src srcs sup con
    corr cv fo lo ex decay usage a :
  issue minted m subject ty pred v claim sc LongTerm (evaluate_human_model_update_gate facts) lc conf src
    srcs sup con corr cv fo lo ex decay usage = Ok a ->
  persistence_scope a = LongTerm /\
  inference_policy_allows facts = true /\ sensitive_attribute_inference facts = false /\
  contradiction_present facts = false /\
  (explicit_user_confirmation facts = true \/
   (outcome_support_present facts = true /\ 1 <= independent_supporting_observations facts) \/
   2 <= independent_supporting_observations facts) /\
  subject_ref a = AuthorityContextV1.subject_ref
                    (HumanCenteredContractMetadataV1.authority_context (metadata a)).
Proof.
  unfold issue. intros H.
  apply bind_Ok in H as (es & Hes & H). do 3 apply bind_Ok in H as (? & _ & H).
  apply bind_Ok in H as (d & _ & H). apply bind_unit_Ok in H as [Hv [= <-]].
  unfold validate in Hv. apply bind_unit_Ok in Hv as [_ H]. apply reject_Ok in H as [_ H].
  do 5 apply bind_unit_Ok in H as [_ H]. apply reject_Ok in H as [Hg _].
  cbn [persistence_scope epistemic_status subject_ref metadata set_record_digest] in Hg.
  rewrite !orb_false_iff, !negb_false_iff, !bool_decide_true_iff, andb_false_iff,
    !bool_decide_false_iff in Hg. destruct_and!.
  split; [done|].
  assert (es <> Candidate) as Hne by (intros ->; destruct_or?; done).
  unfold HumanModelUpdateGate.epistemic_status in Hes. apply reject_Ok in Hes as [_ Hes].
  unfold evaluate_human_model_update_gate in Hes.
  destruct facts as [ps uc n os cp ia sa]. cbn in *.
  destruct ia, sa, cp; cbn in Hes; try done. split_and!; try done.
  destruct uc; [by left|]. right. cbn in Hes.
  destruct os; cbn in Hes.
  - destruct (N.leb_spec 1 n); [by left|]. right. destruct (N.leb_spec 2 n); [done|].
    destruct ps; cbn in Hes; naive_solver.
  - right. destruct (N.leb_spec 2 n); [done|]. destruct ps; cbn in Hes; naive_solver.
Qed.

(** An accepted assertion has an effective value exactly from its first
    observation until it expires, while active and not rejected by correction;
    that value is the corrected one exactly when it was corrected. *)
Theorem effective_value_iff (a : HumanModelAssertionV1.t) now v :
  validate a = Ok tt ->
  (effective_value a now = Some v <->
    lifecycle_status a = LActive /\ correction_state a <> CRejected /\
    first_observed_at a <= now /\ (forall e, expires_at a = Some e -> now < e) /\
    (correction_state a = CCorrected /\ corrected_value a = Some v \/
     correction_state a <> CCorrected /\ value a = v)).
Proof.
  unfold validate. intros H.
  apply bind_unit_Ok in H as [_ H]. apply reject_Ok in H as [_ H].
  do 5 apply bind_unit_Ok in H as [_ H]. apply reject_Ok in H as [Hg _].
  rewrite !orb_false_iff in Hg. destruct_and!.
  match goal with H : negb (eqb _ _) = false |- _ => apply negb_false_iff, eqb_prop in H as Hcorr end.
  unfold effective_value. destruct (_ || _) eqn:E.
  - split; [done|]. intros (Hl & Hc & Hf & He & _). exfalso.
    rewrite !orb_true_iff, negb_true_iff, bool_decide_false_iff, bool_decide_true_iff, N.ltb_lt in E.
    destruct E as [[[?|?]|?]|E]; [done|done|lia|].
    destruct (expires_at a) as [e|]; [|done]. cbn in E. apply N.leb_le in E. specialize (He e eq_refl). lia.
  - rewrite !orb_false_iff, negb_false_iff, bool_decide_true_iff, bool_decide_false_iff, N.ltb_ge in E.
    destruct E as [[[Hl Hc] Hf] He].
    assert (forall e, expires_at a = Some e -> now < e) as He'.
    { intros e Hx. rewrite Hx in He. cbn in He. by apply N.leb_gt. }
    destruct (bool_decide_reflect (correction_state a = CCorrected)), (corrected_value a); try done;
      cbn; naive_solver.
Qed.
End human_model_theorems.

Module HumanModelSample.
Import Toy.
Definition facts : HumanModelUpdateGate.HumanModelUpdateFactsV1 :=
  HumanModelUpdateGate.mkFacts true false 1 true false true false.
Definition assertion : HumanModelAssertionV1.t :=
  Eval vm_compute in match
  HumanModelAssertionV1.issue (Toy.uuid 70) (Sample.metadata KHumanModelAssertion 17 [])
    (Sample.reference "subject:1") HGoal (txt "prefers") (VText (txt "morning meetings"))
    (txt "prefers mornings") (HumanModelScopeV1.mk [txt "calendar"] [] false) LongTerm
    (HumanModelUpdateGate.evaluate_human_model_update_gate facts) LActive
    (UnitIntervalBasisPointsV1.mk 7000) InferredFromInteraction [Sample.reference "source:1"] [] []
    CCorrected (Some (VText (txt "early meetings"))) 100 200 (Some 300) (Sample.reference "decay:1")
    (HumanModelUsagePolicyV1.mk [txt "scheduling"] [] ImpactLevelV1.Low) with
  | Ok a => a
  | Err _ => HumanModelAssertionV1.mk (Sample.metadata KHumanModelAssertion 17 []) (Toy.uuid 70)
      (Sample.reference "") HGoal [] (VBoolean false) [] (HumanModelScopeV1.mk [] [] true) STurn Candidate
      LRejected UnitIntervalBasisPointsV1.ZERO UserCorrection [] [] [] CRejected None 0 0 None
      (Sample.reference "") (HumanModelUsagePolicyV1.mk [] [] ImpactLevelV1.Low) []
  end.
End HumanModelSample.

Lemma long_term_memory_needs_evidence_witness :
  HumanModelAssertionV1.persistence_scope HumanModelSample.assertion = LongTerm.
Proof.
  assert (HumanModelAssertionV1.issue (C:=Toy.crates) (Toy.uuid 70) (Sample.metadata KHumanModelAssertion 17 [])
      (Sample.reference "subject:1") HGoal (txt "prefers") (VText (txt "morning meetings"))
      (txt "prefers mornings") (HumanModelScopeV1.mk [txt "calendar"] [] false) LongTerm
      (HumanModelUpdateGate.evaluate_human_model_update_gate HumanModelSample.facts) LActive
      (UnitIntervalBasisPointsV1.mk 7000) InferredFromInteraction [Sample.reference "source:1"] [] []
      CCorrected (Some (VText (txt "early meetings"))) 100 200 (Some 300) (Sample.reference "decay:1")
      (HumanModelUsagePolicyV1.mk [txt "scheduling"] [] ImpactLevelV1.Low) = Ok HumanModelSample.assertion) as Hi
    by (vm_compute; reflexivity).
  apply long_term_memory_needs_evidence in Hi. destruct Hi as [Hp _]. exact Hp.
Defined.

Lemma effective_value_iff_witness :
  HumanModelAssertionV1.validate (C:=Toy.crates) HumanModelSample.assertion = Ok tt /\
  HumanModelAssertionV1.effective_value HumanModelSample.assertion 250 = Some (VText (txt "early meetings")).
Proof.
  assert (HumanModelAssertionV1.validate (C:=Toy.crates) HumanModelSample.assertion = Ok tt) as Hv
    by (vm_compute; reflexivity).
  split; [exact Hv|].
  apply (effective_value_iff (C:=Toy.crates) _ 250 (VText (txt "early meetings")) Hv).
  split; [reflexivity|]. split; [vm_compute; discriminate|]. split; [vm_compute; discriminate|].
  split; [|left; split; reflexivity].
  intros e He. vm_compute in He. injection He as <-. reflexivity.
Defined.
