(* ===== verification/StoreData.v ===== *)
(** * StoreData: the durable state of the contract store ([idr-store/src/file_store.rs])

    Contract snapshots, execution reservations and attempts, anchors, the store
    snapshot, the executor-facing permit and the store's errors.  The errors
    [Io], [Poisoned] and the I/O part of the file operations are not modelled:
    the model is of runs in which the file system and the lock work. *)

From stdpp Require Import base list gmap sorting strings.
From Stdlib Require Import NArith Lia.
From S2P Require Import Prelude Text Json Crates Common Contract.
From S2P Require Import Intent Decision Turn Response Action Trust Execution Outcome HumanModel.

Inductive HumanCenteredStoreErrorV1 : Type :=
| Protocol (e : HumanCenteredProtocolError)
| SerializationError
| StaleCurrentPointer
| StaleDependency
| CrossObjectMismatch
| CorruptSnapshot
| CorruptAnchor
| RollbackDetected
| ProofReplayDetected
| AuthorizationAlreadyConsumed
| TrustedClockUnavailable
| ExecutionAlreadyReserved
| ExecutionReservationNotFound
| ExecutionPermitMismatch
| ExecutionOwnerMismatch
| ExecutionLeaseExpired
| ExecutionRequiresReconciliation
| ExecutionActionInvalidated
| InvalidExecutionTransition
| VerifiedReceiptProofRequired
| InvalidExecutionAttempt
| AttemptOverflow
| SequenceOverflow.

#[export] Instance store_error_eq_dec : EqDecision HumanCenteredStoreErrorV1.
Proof. solve_decision. Defined.

Notation Stored := (Result HumanCenteredStoreErrorV1) (only parsing).

(** [?] on a protocol result in a function that returns a store error *)
Definition protocol {A} (m : Checked A) : Stored A := map_err Protocol m.

(** ** Contract snapshots *)

Inductive HumanCenteredContractSnapshotV1 : Type :=
| SIntent (c : IntentContractV1.t)
| SDecision (c : DecisionContractV1.t)
| STurnCoordination (c : TurnCoordinationPlanV1.t)
| SResponse (c : ResponseContractV1.t)
| SAction (c : ActionContractV1.t)
| SExecutionReceipt (c : ExecutionReceiptV1.t)
| SOutcome (c : OutcomeRecordV1.t)
| SHumanModelAssertion (c : HumanModelAssertionV1.t).

Module ContractSnapshot.
Definition t := HumanCenteredContractSnapshotV1.

Definition metadata (s : t) : Metadata :=
  match s with
  | SIntent c => IntentContractV1.metadata c
  | SDecision c => DecisionContractV1.metadata c
  | STurnCoordination c => TurnCoordinationPlanV1.metadata c
  | SResponse c => ResponseContractV1.metadata c
  | SAction c => ActionContractV1.metadata c
  | SExecutionReceipt c => ExecutionReceiptV1.metadata c
  | SOutcome c => OutcomeRecordV1.metadata c
  | SHumanModelAssertion c => HumanModelAssertionV1.metadata c
  end.

Section with_crates.
Context {C : Crates}.

Definition validate (s : t) : Checked unit :=
  match s with
  | SIntent c => IntentContractV1.validate c
  | SDecision c => DecisionContractV1.validate c
  | STurnCoordination c => TurnCoordinationPlanV1.validate c
  | SResponse c => ResponseContractV1.validate c
  | SAction c => ActionContractV1.validate c
  | SExecutionReceipt c => ExecutionReceiptV1.validate c
  | SOutcome c => OutcomeRecordV1.validate c
  | SHumanModelAssertion c => HumanModelAssertionV1.validate c
  end.

Definition record_ref (s : t) : Checked ContractRef :=
  match s with
  | SIntent c => IntentContractV1.record_ref c
  | SDecision c => DecisionContractV1.record_ref c
  | STurnCoordination c => TurnCoordinationPlanV1.record_ref c
  | SResponse c => ResponseContractV1.record_ref c
  | SAction c => ActionContractV1.record_ref c
  | SExecutionReceipt c => ExecutionReceiptV1.record_ref c
  | SOutcome c => OutcomeRecordV1.record_ref c
  | SHumanModelAssertion c => HumanModelAssertionV1.record_ref c
  end.

(** [record.record_ref().ok().as_ref() == Some(&reference)] *)
Definition named (s : t) (reference : ContractRef) : bool := ok (record_ref s) == Some reference.

Definition kind_name (s : t) : string :=
  match s with
  | SIntent _ => "intent" | SDecision _ => "decision" | STurnCoordination _ => "turn_coordination"
  | SResponse _ => "response" | SAction _ => "action" | SExecutionReceipt _ => "execution_receipt"
  | SOutcome _ => "outcome" | SHumanModelAssertion _ => "human_model_assertion"
  end.

(** [#[serde(tag = "contract_kind", content = "contract")]] *)
#[global] Instance to_json : ToJson t := fun s =>
  Obj [(txt "contract_kind", Str (txt (kind_name s)));
       (txt "contract",
         match s with
         | SIntent c => Json.to_json c
         | SDecision c => Json.to_json c
         | STurnCoordination c => Json.to_json c
         | SResponse c => Json.to_json c
         | SAction c => Json.to_json c
         | SExecutionReceipt c => Json.to_json c
         | SOutcome c => Json.to_json c
         | SHumanModelAssertion c => Json.to_json c
         end)].
End with_crates.
End ContractSnapshot.

(** ** Execution reservations *)

Module ExecutionReservationStatusV1.
Inductive t : Type :=
| PermitIssued | Delivered | Dispatched | Cancelled | ReconciliationRequired
| Succeeded | Failed | PartiallySucceeded | Rejected | Compensated | Expired.

#[global] Instance eq_dec : EqDecision t.
Proof. solve_decision. Defined.

Definition permits_retry (s : t) : bool :=
  match s with Failed | Rejected | Expired => true | _ => false end.

Definition is_terminal (s : t) : bool :=
  match s with
  | Succeeded | Failed | PartiallySucceeded | Rejected | Compensated | Cancelled | Expired => true
  | _ => false
  end.

#[global] Instance to_json : ToJson t := fun s =>
  Str (txt match s with
  | PermitIssued => "permit_issued" | Delivered => "delivered" | Dispatched => "dispatched"
  | Cancelled => "cancelled" | ReconciliationRequired => "reconciliation_required"
  | Succeeded => "succeeded" | Failed => "failed" | PartiallySucceeded => "partially_succeeded"
  | Rejected => "rejected" | Compensated => "compensated" | Expired => "expired" end).
End ExecutionReservationStatusV1.

Module ExecutionAttemptRecordV1.
Record t := mk {
  attempt : N;
  permit_id : HumanCenteredProofIdV1;
  proof_id : HumanCenteredProofIdV1;
  proof_nonce : text;
  proof_issuer_ref : ReferenceV1.t;
  proof_key_id : ReferenceV1.t;
  proof_expires_at : N;
  subject_digest : text;
  permit_proof_envelope : SignedProofEnvelopeV1.t;
  authorization : ExactActionAuthorizationV1.t;
  request : ExecutionPermitRequestV1.t;
  consumed_at : N;
  status : ExecutionReservationStatusV1.t;
  delivered_at : option N;
  dispatched_at : option N;
  receipt_ref : option ContractRef;
  receipt_proof_envelope : option SignedProofEnvelopeV1.t;
  receipt_verified_at : option N;
}.

(** The fields a transition assigns; the others never change. *)
Definition update (a : t) (status : ExecutionReservationStatusV1.t) (delivered_at dispatched_at : option N)
    (receipt_ref : option ContractRef) (receipt_proof_envelope : option SignedProofEnvelopeV1.t)
    (receipt_verified_at : option N) : t :=
  mk (attempt a) (permit_id a) (proof_id a) (proof_nonce a) (proof_issuer_ref a) (proof_key_id a)
    (proof_expires_at a) (subject_digest a) (permit_proof_envelope a) (authorization a) (request a)
    (consumed_at a) status delivered_at dispatched_at receipt_ref receipt_proof_envelope
    receipt_verified_at.
(** [attempt.status = status] *)
Definition set_status (a : t) (status : ExecutionReservationStatusV1.t) : t :=
  update a status (delivered_at a) (dispatched_at a) (receipt_ref a) (receipt_proof_envelope a)
    (receipt_verified_at a).

Section with_crates.
Context {C : Crates}.
#[global] Instance to_json : ToJson t := fun a =>
  Obj [(txt "attempt", Json.to_json (attempt a)); (txt "permit_id", Json.to_json (permit_id a));
       (txt "proof_id", Json.to_json (proof_id a)); (txt "proof_nonce", Json.to_json (proof_nonce a));
       (txt "proof_issuer_ref", Json.to_json (proof_issuer_ref a));
       (txt "proof_key_id", Json.to_json (proof_key_id a));
       (txt "proof_expires_at", Json.to_json (proof_expires_at a));
       (txt "subject_digest", Json.to_json (subject_digest a));
       (txt "permit_proof_envelope", Json.to_json (permit_proof_envelope a));
       (txt "authorization", Json.to_json (authorization a));
       (txt "request", Json.to_json (request a)); (txt "consumed_at", Json.to_json (consumed_at a));
       (txt "status", Json.to_json (status a)); (txt "delivered_at", Json.to_json (delivered_at a));
       (txt "dispatched_at", Json.to_json (dispatched_at a));
       (txt "receipt_ref", Json.to_json (receipt_ref a));
       (txt "receipt_proof_envelope", Json.to_json (receipt_proof_envelope a));
       (txt "receipt_verified_at", Json.to_json (receipt_verified_at a))].
End with_crates.
End ExecutionAttemptRecordV1.

Module ExecutionReservationRecordV1.
Record t := mk {
  reservation_id : Uuid;
  action_ref : ContractRef;
  tenant_ref : ReferenceV1.t;
  operation_ref : ReferenceV1.t;
  idempotency_key : text;
  attempts : list ExecutionAttemptRecordV1.t;
}.

Definition set_attempts (r : t) (attempts : list ExecutionAttemptRecordV1.t) : t :=
  mk (reservation_id r) (action_ref r) (tenant_ref r) (operation_ref r) (idempotency_key r) attempts.

Section with_crates.
Context {C : Crates}.
#[global] Instance to_json : ToJson t := fun r =>
  Obj [(txt "reservation_id", Json.to_json (reservation_id r));
       (txt "action_ref", Json.to_json (action_ref r)); (txt "tenant_ref", Json.to_json (tenant_ref r));
       (txt "operation_ref", Json.to_json (operation_ref r));
       (txt "idempotency_key", Json.to_json (idempotency_key r));
       (txt "attempts", Json.to_json (attempts r))].
End with_crates.
End ExecutionReservationRecordV1.

Module ExecutionPermitV1.
Record t := mk {
  reservation_id : Uuid;
  permit_id : HumanCenteredProofIdV1;
  proof_key_id : ReferenceV1.t;
  proof_verified_at : N;
  issued_at : N;
  request : ExecutionPermitRequestV1.t;
}.
End ExecutionPermitV1.

(** ** The store snapshot and its anchors *)

Module StoreSnapshot.
(** [HumanCenteredStoreSnapshotV1] *)
Record t := mk {
  sequence : N;
  previous_snapshot_digest : option text;
  snapshot_digest : text;
  records : list HumanCenteredContractSnapshotV1;
  current_pointers : list ContractRef;
  invalidated_refs : list ContractRef;
  execution_reservations : list ExecutionReservationRecordV1.t;
}.

(** [#[derive(Default)]] *)
Definition default : t := mk 0 None [] [] [] [] [].

Definition set_records (s : t) (records : list HumanCenteredContractSnapshotV1) : t :=
  mk (sequence s) (previous_snapshot_digest s) (snapshot_digest s) records (current_pointers s)
    (invalidated_refs s) (execution_reservations s).
Definition set_pointers (s : t) (pointers : list ContractRef) : t :=
  mk (sequence s) (previous_snapshot_digest s) (snapshot_digest s) (records s) pointers
    (invalidated_refs s) (execution_reservations s).
Definition set_invalidated (s : t) (invalidated : list ContractRef) : t :=
  mk (sequence s) (previous_snapshot_digest s) (snapshot_digest s) (records s) (current_pointers s)
    invalidated (execution_reservations s).
Definition set_reservations (s : t) (reservations : list ExecutionReservationRecordV1.t) : t :=
  mk (sequence s) (previous_snapshot_digest s) (snapshot_digest s) (records s) (current_pointers s)
    (invalidated_refs s) reservations.
Definition set_seal (s : t) (sequence : N) (previous : option text) (digest : text) : t :=
  mk sequence previous digest (records s) (current_pointers s) (invalidated_refs s)
    (execution_reservations s).
End StoreSnapshot.

Module StoreAnchorRecordV1.
Record t := mk {
  sequence : N;
  snapshot_digest : text;
  previous_snapshot_digest : option text;
}.
#[global] Instance eq_dec : EqDecision t.
Proof. solve_decision. Defined.
#[global] Instance to_json : ToJson t := fun a =>
  Obj [(txt "sequence", Json.to_json (sequence a));
       (txt "snapshot_digest", Json.to_json (snapshot_digest a));
       (txt "previous_snapshot_digest", Json.to_json (previous_snapshot_digest a))].
End StoreAnchorRecordV1.

(** ** Facts about contract snapshots *)

Section snapshot_facts.
Context {C : Crates}.

Lemma snapshot_ref_validates s r :
  ContractSnapshot.record_ref s = Ok r ->
  ContractSnapshot.validate s = Ok tt /\
  HumanCenteredContractRefV1.contract_id r
    = HumanCenteredContractMetadataV1.contract_id (ContractSnapshot.metadata s) /\
  HumanCenteredContractRefV1.revision r
    = HumanCenteredContractMetadataV1.revision (ContractSnapshot.metadata s) /\
  HumanCenteredContractRefV1.validate r = Ok tt.
Proof.
  destruct s; cbn [ContractSnapshot.record_ref]; intros H;
    (apply bind_unit_Ok in H as [Hv H]; apply ref_new_Ok in H as [-> Hr]; done).
Qed.

Lemma named_true s r : ContractSnapshot.named s r = true <-> ContractSnapshot.record_ref s = Ok r.
Proof. unfold ContractSnapshot.named. rewrite bool_decide_true_iff. apply ok_Some. Qed.

Context {L : CratesLaws}.

(** A valid snapshot always has a reference, of the kind its metadata says. *)
Lemma snapshot_valid_ref s :
  ContractSnapshot.validate s = Ok tt ->
  exists r, ContractSnapshot.record_ref s = Ok r /\
    HumanCenteredContractRefV1.kind r
      = HumanCenteredContractMetadataV1.contract_kind (ContractSnapshot.metadata s) /\
    metadata_ok (ContractSnapshot.metadata s).
Proof.
  destruct s as [c|c|c|c|c|c|c|c]; cbn [ContractSnapshot.validate ContractSnapshot.record_ref ContractSnapshot.metadata];
    intros Hv; pose proof (contract_validate_Ok c Hv) as (Hm & Hk & _);
    (pose proof (proj2 (record_ref_Ok c _) (conj Hv eq_refl)) as Hr);
    (eexists; split; [exact Hr|]; split; [exact (eq_sym Hk)|exact Hm]).
Qed.
End snapshot_facts.
