(* ===== verification/StoreReplay.v ===== *)
(** * StoreReplay: pointers, invalidation and history ([idr-store/src/file_store.rs])

    [replace_pointer], [invalidate_dependents] with its two passes over the
    execution reservations, [lineage_context_is_continuous] and
    [replay_history].  The invalidation loop carries fuel;
    [invalidate_fuel_suffices] shows that it is never exhausted. *)

From stdpp Require Import base list gmap fin_sets sorting strings.
From Stdlib Require Import NArith Lia.
From S2P Require Import Prelude Text Json Crates Common Contract StoreData.
Import StoreSnapshot.

(** [pointer.kind() == r.kind() && pointer.contract_id() == r.contract_id()] *)
Definition same_key (p r : ContractRef) : bool :=
  (HumanCenteredContractRefV1.kind p == HumanCenteredContractRefV1.kind r)
  && (HumanCenteredContractRefV1.contract_id p == HumanCenteredContractRefV1.contract_id r).

Definition find_pointer (pointers : list ContractRef) (r : ContractRef) : option ContractRef :=
  find_first (fun pointer => same_key pointer r) pointers.

Definition replace_pointer (pointers : list ContractRef) (next : ContractRef) : list ContractRef :=
  sort (List.filter (fun current => negb (same_key current next)) pointers ++ [next]).

(** [if let Some(last) = v.last_mut() { *last = f(last) }] *)
Fixpoint update_last {A} (f : A -> A) (l : list A) : list A :=
  match l with
  | [] => []
  | [x] => [f x]
  | x :: l => x :: update_last f l
  end.

(** The status an attempt gets when its action stops being current. *)
Definition stale_status (s : ExecutionReservationStatusV1.t) : ExecutionReservationStatusV1.t :=
  match s with
  | ExecutionReservationStatusV1.PermitIssued | ExecutionReservationStatusV1.Delivered =>
      ExecutionReservationStatusV1.Cancelled
  | ExecutionReservationStatusV1.Dispatched => ExecutionReservationStatusV1.ReconciliationRequired
  | status => status
  end.

Definition make_stale (r : ExecutionReservationRecordV1.t) : ExecutionReservationRecordV1.t :=
  ExecutionReservationRecordV1.set_attempts r
    (update_last (fun a => ExecutionAttemptRecordV1.set_status a
                             (stale_status (ExecutionAttemptRecordV1.status a)))
       (ExecutionReservationRecordV1.attempts r)).

Definition invalidate_execution_reservation (snapshot : t) (stale_reference : ContractRef) : t :=
  if HumanCenteredContractRefV1.kind stale_reference != KAction then snapshot
  else set_reservations snapshot
         (map (fun r => if ExecutionReservationRecordV1.action_ref r == stale_reference
                        then make_stale r else r) (execution_reservations snapshot)).

(** [snapshot.current_pointers.iter().any(..) && !snapshot.invalidated_refs.contains(..)] *)
Definition is_current (snapshot : t) (r : ContractRef) : bool :=
  contains r (current_pointers snapshot) && negb (contains r (invalidated_refs snapshot)).

Definition reconcile_invalidated_execution_reservations (snapshot : t) : t :=
  set_reservations snapshot
    (map (fun r => if is_current snapshot (ExecutionReservationRecordV1.action_ref r)
                   then r else make_stale r) (execution_reservations snapshot)).

Section with_crates.
Context {C : Crates}.

(** [.find(|record| record.record_ref().ok().as_ref() == Some(reference))] *)
Definition find_record (records : list HumanCenteredContractSnapshotV1) (reference : ContractRef) :
    option HumanCenteredContractSnapshotV1 :=
  find_first (fun record => ContractSnapshot.named record reference) records.

Definition depends_on (record : HumanCenteredContractSnapshotV1) (reference : ContractRef) : bool :=
  contains reference (HumanCenteredContractMetadataV1.dependency_refs (ContractSnapshot.metadata record)).

(** One pass of [for pointer in current_pointers]. *)
Fixpoint scan_pointers (records : list HumanCenteredContractSnapshotV1) (stale : ContractRef)
    (pointers invalidated queue : list ContractRef) : Stored (list ContractRef * list ContractRef) :=
  match pointers with
  | [] => Ok (invalidated, queue)
  | pointer :: pointers =>
      if same_key pointer stale || contains pointer invalidated then
        scan_pointers records stale pointers invalidated queue
      else
        match find_record records pointer with
        | None => Err CorruptSnapshot
        | Some record =>
            if depends_on record stale then
              scan_pointers records stale pointers (invalidated ++ [pointer]) (queue ++ [pointer])
            else scan_pointers records stale pointers invalidated queue
        end
  end.

(** [while let Some(stale) = queue.pop_front()]; [None] is exhausted fuel. *)
Fixpoint propagate (fuel : nat) (records : list HumanCenteredContractSnapshotV1)
    (pointers invalidated queue : list ContractRef) (visited : gset ContractRef) :
    option (Stored (list ContractRef)) :=
  match fuel with
  | O => None
  | S fuel =>
      match queue with
      | [] => Some (Ok invalidated)
      | stale :: queue =>
          if bool_decide (stale ∈ visited) then propagate fuel records pointers invalidated queue visited
          else
            match scan_pointers records stale pointers invalidated queue with
            | Err e => Some (Err e)
            | Ok (invalidated, queue) =>
                propagate fuel records pointers invalidated queue ({[stale]} ∪ visited)
            end
      end
  end.

Definition invalidation_fuel (snapshot : t) : nat := S (S (length (current_pointers snapshot))).
Definition propagate_from (snapshot : t) (stale : ContractRef) : option (Stored (list ContractRef)) :=
  propagate (invalidation_fuel snapshot) (records snapshot) (current_pointers snapshot)
    (invalidated_refs snapshot) [stale] ∅.

Definition invalidate_dependents (snapshot : t) (stale_reference : ContractRef) : Stored t :=
  let snapshot := invalidate_execution_reservation snapshot stale_reference in
  invalidated ← from_option id (Err CorruptSnapshot) (propagate_from snapshot stale_reference);
  Ok (reconcile_invalidated_execution_reservations
        (set_invalidated snapshot (dedup (sort invalidated)))).

Definition lineage_context_is_continuous (previous next : Metadata) : bool :=
  (HumanCenteredContractMetadataV1.run_id previous == HumanCenteredContractMetadataV1.run_id next)
  && (HumanCenteredContractMetadataV1.turn_id previous == HumanCenteredContractMetadataV1.turn_id next)
  && (HumanCenteredContractMetadataV1.authority_context previous
        == HumanCenteredContractMetadataV1.authority_context next).

(** One iteration of [replay_history]. *)
Definition replay_record (replayed : t) (record : HumanCenteredContractSnapshotV1) : Stored t :=
  reference ← protocol (ContractSnapshot.record_ref record);
  let previous := find_pointer (current_pointers replayed) reference in
  let predecessor := HumanCenteredContractMetadataV1.predecessor_ref (ContractSnapshot.metadata record) in
  replayed ←
    match previous with
    | None =>
        if (HumanCenteredContractRefV1.revision reference =? 1) && negb (is_some predecessor)
        then Ok replayed else Err CorruptSnapshot
    | Some pointer =>
        if (checked_succ u64_max (HumanCenteredContractRefV1.revision pointer)
              == Some (HumanCenteredContractRefV1.revision reference))
           && (predecessor == Some pointer)
        then
          previous_record ← ok_or CorruptSnapshot (find_record (records replayed) pointer);
          reject negb (lineage_context_is_continuous (ContractSnapshot.metadata previous_record)
                         (ContractSnapshot.metadata record)) with CorruptSnapshot;
          invalidate_dependents replayed pointer
        else Err CorruptSnapshot
    end;
  let replayed := set_records replayed (records replayed ++ [record]) in
  Ok (set_pointers replayed (replace_pointer (current_pointers replayed) reference)).

Fixpoint replay_from (replayed : t) (history : list HumanCenteredContractSnapshotV1) : Stored t :=
  match history with
  | [] => Ok replayed
  | record :: history => replayed ← replay_record replayed record; replay_from replayed history
  end.

Definition replay_history (history : list HumanCenteredContractSnapshotV1) : Stored t :=
  replay_from StoreSnapshot.default history.
End with_crates.

(** ** The invalidation loop computes a closure *)

Section closure.
Context {C : Crates}.
Variable records : list HumanCenteredContractSnapshotV1.
Variable pointers : list ContractRef.

(** The pointer [p] rests directly on [q]. *)
Definition rests_on (p q : ContractRef) : Prop :=
  p ∈ pointers /\ same_key p q = false /\
  exists record, find_record records p = Some record /\ depends_on record q = true.

(** What becoming stale spreads to, starting from [origin], leaving out what was
    invalidated before. *)
Inductive tainted (old : list ContractRef) (origin : ContractRef) : ContractRef -> Prop :=
| tainted_direct p : rests_on p origin -> p ∉ old -> tainted old origin p
| tainted_step p q : tainted old origin q -> rests_on p q -> p ∉ old -> tainted old origin p.

Lemma scan_pointers_Ok stale ps inv queue inv' queue' :
  scan_pointers records stale ps inv queue = Ok (inv', queue') ->
  exists added, inv' = inv ++ added /\ queue' = queue ++ added /\ NoDup added /\
    forall p, p ∈ added <-> p ∈ ps /\ same_key p stale = false /\ p ∉ inv /\
      exists record, find_record records p = Some record /\ depends_on record stale = true.
Proof.
  revert inv queue. induction ps as [|p ps IH]; cbn; intros inv queue H.
  { injection H as <- <-. exists []. rewrite !app_nil_r. split_and!; [done..|constructor|].
    intros p. rewrite !elem_of_nil. tauto. }
  destruct (same_key p stale || contains p inv) eqn:E.
  { destruct (IH _ _ H) as (added & -> & -> & Hnd & Hin). exists added. split_and!; [done..|].
    intros p'. rewrite Hin, elem_of_cons. apply orb_true_iff in E. rewrite contains_true in E.
    split; [tauto|]. intros ([->|?] & Hk & Hi & Hr); [destruct E; congruence|done]. }
  apply orb_false_iff in E as [Hk Hi]. apply contains_false in Hi.
  destruct (find_record records p) as [r|] eqn:Hf; [|done].
  destruct (depends_on r stale) eqn:Hd.
  - destruct (IH _ _ H) as (added & -> & -> & Hnd & Hin). exists (p :: added).
    rewrite <- !app_assoc. split_and!; [done..| |].
    + constructor; [|done]. rewrite Hin. intros (_ & _ & Hn & _). apply Hn, elem_of_app. right. left.
    + intros p'. rewrite elem_of_cons, Hin, elem_of_cons, elem_of_app, list_elem_of_singleton.
      destruct (decide (p' = p)) as [->|]; naive_solver.
  - destruct (IH _ _ H) as (added & -> & -> & Hnd & Hin). exists added. split_and!; [done..|].
    intros p'. rewrite Hin, elem_of_cons. naive_solver congruence.
Qed.

Lemma scan_pointers_total stale ps inv queue :
  Forall (fun p => is_some (find_record records p) = true) ps ->
  exists r, scan_pointers records stale ps inv queue = Ok r.
Proof.
  intros Hps. revert inv queue. induction Hps as [|p ps Hp Hps IH]; cbn; intros inv queue; [eauto|].
  case_match; [done|]. apply is_some_true in Hp as [r ->]. case_match; eauto.
Qed.

(** Pointers the loop may still invalidate. *)
Definition untouched (inv : list ContractRef) : nat :=
  size (list_to_set pointers ∖ list_to_set inv : gset ContractRef).

Lemma untouched_added inv added :
  NoDup added -> (forall p, p ∈ added -> p ∈ pointers /\ p ∉ inv) ->
  untouched inv = (untouched (inv ++ added) + length added)%nat.
Proof.
  intros Hnd Hin. unfold untouched.
  rewrite <- (size_list_to_set (C:=gset ContractRef) added) by done.
  rewrite <- size_union by set_solver. f_equal. apply set_eq. intros p.
  rewrite list_to_set_app. specialize (Hin p).
  destruct (decide (p ∈ added)); set_solver.
Qed.

(** Fuel for the waiting references and everything that may still join them. *)
Lemma propagate_fuel fuel inv queue visited :
  (length queue + untouched inv < fuel)%nat ->
  exists r, propagate fuel records pointers inv queue visited = Some r.
Proof.
  revert inv queue visited. induction fuel as [|fuel IH]; [lia|]. intros inv queue visited Hf.
  cbn [propagate]. destruct queue as [|stale queue]; [eauto|]. cbn [length] in Hf.
  case_bool_decide; [apply IH; lia|].
  destruct (scan_pointers _ _ _ _ _) as [[inv' queue']|] eqn:E; [|eauto].
  apply scan_pointers_Ok in E as (added & -> & -> & Hnd & Hin). apply IH.
  rewrite length_app. rewrite (untouched_added inv added) in Hf; [lia|done|].
  intros p Hp%Hin. tauto.
Qed.

Lemma propagate_total fuel inv queue visited :
  Forall (fun p => is_some (find_record records p) = true) pointers ->
  (length queue + untouched inv < fuel)%nat ->
  exists inv', propagate fuel records pointers inv queue visited = Some (Ok inv').
Proof.
  intros Hps. revert inv queue visited. induction fuel as [|fuel IH]; [lia|].
  intros inv queue visited Hf. cbn [propagate]. destruct queue as [|stale queue]; [eauto|].
  cbn [length] in Hf. case_bool_decide; [apply IH; lia|].
  destruct (scan_pointers_total stale pointers inv queue Hps) as [[inv' queue'] E]. rewrite E.
  apply scan_pointers_Ok in E as (added & -> & -> & Hnd & Hin). apply IH.
  rewrite length_app. rewrite (untouched_added inv added) in Hf; [lia|done|].
  intros p Hp%Hin. tauto.
Qed.

(** The loop invariant: what is queued or visited is stale, what was added has
    been queued, and what rests on a visited reference is invalidated. *)
Record sweep (old : list ContractRef) (origin : ContractRef)
    (inv queue : list ContractRef) (visited : gset ContractRef) : Prop := {
  sweep_old : forall p, p ∈ old -> p ∈ inv;
  sweep_sound : forall p, p ∈ inv -> p ∈ old \/ tainted old origin p;
  sweep_stale : forall q, q ∈ queue \/ q ∈ visited -> q = origin \/ tainted old origin q;
  sweep_seen : forall p, p = origin \/ (p ∈ inv /\ p ∉ old) -> p ∈ queue \/ p ∈ visited;
  sweep_closed : forall p q, q ∈ visited -> rests_on p q -> p ∈ inv;
}.

Lemma sweep_scan old origin stale queue inv added visited :
  sweep old origin inv (stale :: queue) visited ->
  (forall p, p ∈ added <-> p ∈ pointers /\ same_key p stale = false /\ p ∉ inv /\
     exists record, find_record records p = Some record /\ depends_on record stale = true) ->
  sweep old origin (inv ++ added) (queue ++ added) ({[stale]} ∪ visited).
Proof.
  intros [Hold Hsound Hstale Hseen Hclosed] Hin.
  assert (forall p, p ∈ added -> tainted old origin p) as Hta.
  { intros p [Hp (Hk & Hi & Hr)]%Hin.
    assert (rests_on p stale) as Hrest by (split_and!; done).
    assert (p ∉ old) as Ho by eauto.
    destruct (Hstale stale) as [->|Ht]; [left; left|by left|by eapply tainted_step]. }
  split.
  - intros p ?. apply elem_of_app. auto.
  - intros p [?|?]%elem_of_app; auto.
  - intros q. rewrite elem_of_app, elem_of_union, elem_of_singleton.
    intros [[?|?]|[->|?]]; [apply Hstale; left; by right|auto|apply Hstale; left; left|auto].
  - intros p. rewrite !elem_of_app, elem_of_union, elem_of_singleton. intros [->|[[?|?] ?]].
    + destruct (Hseen origin) as [[?|?]%elem_of_cons|?]; auto.
    + destruct (Hseen p) as [[?|?]%elem_of_cons|?]; auto.
    + auto.
  - intros p q Hq Hr. apply elem_of_app. apply elem_of_union in Hq as [->%elem_of_singleton|Hq].
    + destruct (decide (p ∈ inv)); [by left|right]. apply Hin.
      destruct Hr as (? & ? & ?). done.
    + left. eauto.
Qed.

Lemma sweep_done old origin inv visited :
  sweep old origin inv [] visited -> forall p, p ∈ inv <-> p ∈ old \/ tainted old origin p.
Proof.
  intros [Hold Hsound Hstale Hseen Hclosed] p. split; [auto|].
  intros [?|Ht]; [auto|].
  assert (forall q, q = origin \/ (q ∈ inv /\ q ∉ old) -> q ∈ visited) as Hv.
  { intros q [Hq|?]%Hseen; [by apply elem_of_nil in Hq|done]. }
  induction Ht as [p Hr Ho|p q Ht IH Hr Ho].
  - apply (Hclosed p origin); [|done]. apply Hv. by left.
  - apply (Hclosed p q); [|done]. apply Hv. right. split; [done|]. by destruct Ht.
Qed.

Lemma propagate_sweep old origin fuel inv queue visited inv' :
  sweep old origin inv queue visited ->
  propagate fuel records pointers inv queue visited = Some (Ok inv') ->
  forall p, p ∈ inv' <-> p ∈ old \/ tainted old origin p.
Proof.
  revert inv queue visited. induction fuel as [|fuel IH]; [done|]. intros inv queue visited Hs H.
  cbn [propagate] in H. destruct queue as [|stale queue].
  { injection H as <-. by eapply sweep_done. }
  case_bool_decide as Hv.
  - eapply IH; [|exact H]. destruct Hs as [Hold Hsound Hstale Hseen Hclosed].
    split; [done..| | |done].
    + intros q [?|?]; apply Hstale; [left; by right|by right].
    + intros p [[->|?]%elem_of_cons|?]%Hseen; auto.
  - destruct (scan_pointers _ _ _ _ _) as [[inv1 queue1]|] eqn:E; [|done].
    apply scan_pointers_Ok in E as (added & -> & -> & _ & Hin). eapply IH; [|exact H].
    by apply sweep_scan.
Qed.
End closure.

(** ** Invalidation of a whole snapshot *)

Section invalidation.
Context {C : Crates}.

(** A reservation loses its open attempt when its action is the stale reference
    or is no longer current afterwards. *)
Definition loses_action (stale : ContractRef) (s : t) (r : ExecutionReservationRecordV1.t) : bool :=
  ((HumanCenteredContractRefV1.kind stale == KAction) && (ExecutionReservationRecordV1.action_ref r == stale))
  || negb (is_current s (ExecutionReservationRecordV1.action_ref r)).

Lemma update_last_id {A} (f g : A -> A) (l : list A) :
  (forall x, g (f x) = f x) -> update_last g (update_last f l) = update_last f l.
Proof.
  intros Hfg. induction l as [|x [|y l] IH]; cbn; [done|by rewrite Hfg|].
  cbn in IH. destruct l; cbn in *; by rewrite IH.
Qed.

Lemma stale_status_idem st : stale_status (stale_status st) = stale_status st.
Proof. by destruct st. Qed.

Lemma make_stale_idem r : make_stale (make_stale r) = make_stale r.
Proof. unfold make_stale. cbn. rewrite update_last_id; [done|]. intros a. cbn. by rewrite stale_status_idem. Qed.

Lemma untouched_le pointers inv : (untouched pointers inv <= length pointers)%nat.
Proof.
  unfold untouched. etrans; [|apply (size_list_to_set_le pointers)]. apply subseteq_size. set_solver.
Qed.

Lemma propagate_from_Some s stale : exists r, propagate_from s stale = Some r.
Proof.
  unfold propagate_from. apply (propagate_fuel (records s) (current_pointers s)).
  unfold invalidation_fuel.
  pose proof (untouched_le (current_pointers s) (invalidated_refs s)). cbn [length]. lia.
Qed.

Lemma sweep_start records pointers old origin : sweep records pointers old origin old [origin] ∅.
Proof. split; set_solver. Qed.

Lemma propagate_from_Ok s stale inv :
  propagate_from s stale = Some (Ok inv) ->
  forall p, p ∈ inv <-> p ∈ invalidated_refs s \/
    tainted (records s) (current_pointers s) (invalidated_refs s) stale p.
Proof. intros H. eapply propagate_sweep; [apply sweep_start|exact H]. Qed.

Lemma invalidate_execution_reservation_eq s stale :
  invalidate_execution_reservation s stale = set_reservations s
    (map (fun r => if (HumanCenteredContractRefV1.kind stale == KAction)
                      && (ExecutionReservationRecordV1.action_ref r == stale)
                   then make_stale r else r) (execution_reservations s)).
Proof.
  unfold invalidate_execution_reservation. case_bool_decide; cbn; [done|].
  rewrite map_id. by destruct s.
Qed.

Lemma invalidate_dependents_Ok s stale s' :
  invalidate_dependents s stale = Ok s' <->
  exists inv, propagate_from s stale = Some (Ok inv) /\
    s' = set_invalidated (set_reservations s
           (map (fun r => if loses_action stale (set_invalidated s (dedup (sort inv))) r
                          then make_stale r else r)
              (execution_reservations s))) (dedup (sort inv)).
Proof.
  unfold invalidate_dependents. rewrite invalidate_execution_reservation_eq.
  change (propagate_from (set_reservations s _) stale) with (propagate_from s stale).
  destruct (propagate_from_Some s stale) as [r Hr]. rewrite Hr. cbn [from_option id].
  rewrite bind_Ok.
  assert (forall inv, reconcile_invalidated_execution_reservations
      (set_invalidated (set_reservations s
        (map (fun r => if (HumanCenteredContractRefV1.kind stale == KAction)
                      && (ExecutionReservationRecordV1.action_ref r == stale)
                   then make_stale r else r) (execution_reservations s))) inv) =
      set_invalidated (set_reservations s
           (map (fun r => if loses_action stale (set_invalidated s inv) r then make_stale r else r)
              (execution_reservations s))) inv) as Hrec.
  { intros inv. unfold reconcile_invalidated_execution_reservations, set_invalidated, set_reservations.
    cbn. f_equal. rewrite map_map. apply map_ext. intros x. unfold loses_action, is_current. cbn.
    set (b := _ && (_ == stale)). destruct b; cbn; [rewrite make_stale_idem; by case_match|].
    by destruct (contains _ _ && negb _). }
  split.
  - intros (inv & -> & [= <-]). exists inv. by rewrite Hrec.
  - intros (inv & [= ->] & ->). exists inv. by rewrite Hrec.
Qed.

(** Only the records, pointers and earlier invalidations decide what becomes stale. *)
Lemma invalidate_dependents_agree s t stale s' :
  records s = records t -> current_pointers s = current_pointers t ->
  invalidated_refs s = invalidated_refs t ->
  invalidate_dependents s stale = Ok s' ->
  exists t', invalidate_dependents t stale = Ok t' /\ records s' = records t' /\
    current_pointers s' = current_pointers t' /\ invalidated_refs s' = invalidated_refs t'.
Proof.
  intros Hr Hp Hi (inv & Hf & ->)%invalidate_dependents_Ok.
  assert (propagate_from t stale = Some (Ok inv)) as Ht.
  { rewrite <- Hf. unfold propagate_from, invalidation_fuel. by rewrite Hr, Hp, Hi. }
  eexists. split; [apply invalidate_dependents_Ok; exists inv; split; [exact Ht|reflexivity]|].
  done.
Qed.

(** When a contract is superseded, invalidation is exact: besides what was
    invalidated before, it marks precisely the current contracts that rest on
    the superseded one directly or through other contracts marked with it; the
    records and pointers are untouched, and a reservation keeps its open attempt
    exactly when its action stays current. *)
Theorem invalidation_is_exact s stale s' :
  invalidate_dependents s stale = Ok s' ->
  records s' = records s /\ current_pointers s' = current_pointers s /\
  (forall p, p ∈ invalidated_refs s' <-> p ∈ invalidated_refs s \/
     tainted (records s) (current_pointers s) (invalidated_refs s) stale p) /\
  StronglySorted ord_le (invalidated_refs s') /\ NoDup (invalidated_refs s') /\
  execution_reservations s' =
    map (fun r => if loses_action stale s' r then make_stale r else r) (execution_reservations s).
Proof.
  intros (inv & Hf & ->)%invalidate_dependents_Ok. cbn.
  destruct (dedup_StronglySorted _ (sort_sorted inv)). split_and!; try done.
  intros p. rewrite elem_of_dedup, elem_of_sort. by apply propagate_from_Ok.
Qed.

(** Invalidation always terminates with a result when every current pointer
    names a stored contract: the loop pops each reference at most once. *)
Theorem invalidation_terminates s stale :
  Forall (fun p => is_some (find_record (records s) p) = true) (current_pointers s) ->
  exists s', invalidate_dependents s stale = Ok s'.
Proof.
  intros Hps.
  destruct (propagate_total (records s) (current_pointers s) (invalidation_fuel s)
    (invalidated_refs s) [stale] ∅ Hps) as [inv Hinv].
  { unfold invalidation_fuel.
    pose proof (untouched_le (current_pointers s) (invalidated_refs s)). cbn [length]. lia. }
  eexists. apply invalidate_dependents_Ok. eauto.
Qed.
End invalidation.

(** ** Replaying a history *)

Section replay.
Context {C : Crates}.

Definition revision (r : ContractRef) : N := HumanCenteredContractRefV1.revision r.
Definition names (record : HumanCenteredContractSnapshotV1) (r : ContractRef) : Prop :=
  ContractSnapshot.record_ref record = Ok r.

Lemma same_key_true p q :
  same_key p q = true <-> HumanCenteredContractRefV1.kind p = HumanCenteredContractRefV1.kind q /\
    HumanCenteredContractRefV1.contract_id p = HumanCenteredContractRefV1.contract_id q.
Proof. unfold same_key. bsimp. tauto. Qed.

Lemma same_key_refl p : same_key p p = true.
Proof. by apply same_key_true. Qed.
Lemma same_key_comm p q : same_key p q = same_key q p.
Proof. apply eq_bool_prop_intro. rewrite !Is_true_true, !same_key_true. intuition congruence. Qed.
Lemma same_key_trans p q r : same_key p q = true -> same_key q r = true -> same_key p r = true.
Proof. rewrite !same_key_true. intuition congruence. Qed.

Lemma elem_of_replace_pointer pointers next p :
  p ∈ replace_pointer pointers next <-> p = next \/ (p ∈ pointers /\ same_key p next = false).
Proof.
  unfold replace_pointer. rewrite elem_of_sort, elem_of_app, list_elem_of_singleton.
  rewrite list_elem_of_In, filter_In, <- list_elem_of_In, negb_true_iff. tauto.
Qed.

(** What every replayed snapshot satisfies: the pointers are the latest revisions
    of the recorded contracts, one for each contract. *)
Record replayed_ok (s : t) : Prop := {
  replayed_pointed : forall r, r ∈ records s -> exists q p, names r q /\
    p ∈ current_pointers s /\ same_key p q = true /\ revision q <= revision p;
  replayed_recorded : forall p, p ∈ current_pointers s -> exists r, r ∈ records s /\ names r p;
  replayed_one : forall p q, p ∈ current_pointers s -> q ∈ current_pointers s ->
    same_key p q = true -> p = q;
  replayed_sorted : StronglySorted ord_le (current_pointers s);
  replayed_revisions : forall r1 r2 q1 q2, r1 ∈ records s -> r2 ∈ records s ->
    names r1 q1 -> names r2 q2 -> same_key q1 q2 = true -> revision q1 = revision q2 -> q1 = q2;
}.

Lemma default_replayed_ok : replayed_ok StoreSnapshot.default.
Proof. split; cbn; try (intros; by (exfalso; eapply not_elem_of_nil)). constructor. Qed.

Lemma find_pointer_Some pointers r p :
  find_pointer pointers r = Some p -> p ∈ pointers /\ same_key p r = true.
Proof. apply (find_first_Some (fun pointer => same_key pointer r)). Qed.

Lemma find_pointer_None pointers r :
  find_pointer pointers r = None -> forall p, p ∈ pointers -> same_key p r = false.
Proof. unfold find_pointer. rewrite find_first_None, Forall_forall. auto. Qed.

(** [s'] is [s] after the contract [record], named [r], was appended to it. *)
Definition appended (s : t) (record : HumanCenteredContractSnapshotV1) (r : ContractRef) (s' : t) : Prop :=
  records s' = records s ++ [record] /\ current_pointers s' = replace_pointer (current_pointers s) r.

(** The revision [r] takes its contract's next number. *)
Definition next_revision (s : t) (r : ContractRef) : Prop :=
  match find_pointer (current_pointers s) r with
  | None => revision r = 1
  | Some p => revision r = revision p + 1
  end.

Lemma replay_record_Ok s record s' :
  replay_record s record = Ok s' <->
  exists r, names record r /\ exists s1,
    match find_pointer (current_pointers s) r with
    | None => revision r = 1 /\
        HumanCenteredContractMetadataV1.predecessor_ref (ContractSnapshot.metadata record) = None /\ s1 = s
    | Some p => revision r = revision p + 1 /\ revision p < u64_max /\
        HumanCenteredContractMetadataV1.predecessor_ref (ContractSnapshot.metadata record) = Some p /\
        (exists previous, find_record (records s) p = Some previous /\
           lineage_context_is_continuous (ContractSnapshot.metadata previous)
             (ContractSnapshot.metadata record) = true) /\
        invalidate_dependents s p = Ok s1
    end /\
    s' = set_pointers (set_records s1 (records s1 ++ [record])) (replace_pointer (current_pointers s1) r).
Proof.
  unfold replay_record, protocol, names, revision. rewrite bind_Ok. setoid_rewrite map_err_Ok.
  apply exist_proper. intros r. apply and_iff_compat_l. rewrite bind_Ok. apply exist_proper. intros s1.
  destruct (find_pointer (current_pointers s) r) as [p|].
  - destruct (_ && _) eqn:E.
    + rewrite bind_Ok. apply andb_true_iff in E. rewrite !bool_decide_true_iff, checked_succ_Some in E.
      setoid_rewrite ok_or_Ok. setoid_rewrite reject_Ok. setoid_rewrite negb_false_iff.
      split; [intros ((previous & ? & ? & ?) & [= <-])|intros ((? & ? & ? & (previous & ? & ?) & ?) & ->)];
        naive_solver.
    + split; [intros [? _]; done|]. intros ((Hr & Hu & Hp & _) & _). exfalso.
      apply andb_false_iff in E. rewrite !bool_decide_false_iff, checked_succ_Some in E. naive_solver.
  - destruct (_ && _) eqn:E.
    + apply andb_true_iff in E. rewrite N.eqb_eq, negb_true_iff, is_some_false in E.
      split; [intros ([= <-] & [= <-])|intros ((? & ? & ->) & ->)]; naive_solver.
    + split; [intros [? _]; done|]. intros ((Hr & Hp & _) & _). exfalso.
      apply andb_false_iff in E. rewrite N.eqb_neq, negb_false_iff, is_some_true in E.
      naive_solver congruence.
Qed.

(** A replayed record joins the records, its reference takes its contract's
    pointer, and only what rests on the superseded revision is invalidated. *)
Lemma replay_record_appends s record s' :
  replay_record s record = Ok s' ->
  exists r, names record r /\ appended s record r s' /\ next_revision s r /\
    forall p, p ∈ invalidated_refs s' <-> p ∈ invalidated_refs s \/
      exists v, find_pointer (current_pointers s) r = Some v /\
        tainted (records s) (current_pointers s) (invalidated_refs s) v p.
Proof.
  intros (r & Hr & s1 & H & ->)%replay_record_Ok. exists r. unfold appended, next_revision. cbn.
  destruct (find_pointer (current_pointers s) r) as [v|] eqn:Hf.
  - destruct H as (Hrev & Hlt & _ & _ & Hi).
    apply invalidate_dependents_Ok in Hi as (inv & Hinv & ->). cbn. split_and!; try done.
    intros p. rewrite elem_of_dedup, elem_of_sort, (propagate_from_Ok _ _ _ Hinv). naive_solver.
  - destruct H as (Hrev & _ & ->). split_and!; try done. intros p. naive_solver.
Qed.

Lemma replayed_next s r p :
  replayed_ok s -> next_revision s r -> p ∈ current_pointers s -> same_key p r = true ->
  revision r = revision p + 1.
Proof.
  intros Hs Hn Hp Hk. unfold next_revision in Hn.
  destruct (find_pointer (current_pointers s) r) as [v|] eqn:Hf.
  - apply find_pointer_Some in Hf as [Hv Hvk]. rewrite (replayed_one s Hs p v); [done..|].
    rewrite same_key_comm in Hvk. by eapply same_key_trans.
  - pose proof (find_pointer_None _ _ Hf p Hp). congruence.
Qed.

Lemma replayed_ok_step s record r s' :
  replayed_ok s -> names record r -> next_revision s r -> appended s record r s' -> replayed_ok s'.
Proof.
  intros Hs Hr Hn [Hrec Hptr]. pose proof (replayed_next s r) as Hnext.
  assert (forall r1 q1, r1 ∈ records s -> names r1 q1 -> same_key q1 r = true ->
            revision q1 < revision r) as Hnew.
  { intros r1 q1 Hin Hq Hk. destruct (replayed_pointed s Hs r1 Hin) as (q & p & Hq' & Hp & Hpk & Hle).
    assert (q = q1) as -> by (unfold names in *; congruence).
    rewrite (Hnext p Hs Hn Hp); [lia|]. by eapply same_key_trans. }
  split; rewrite ?Hrec, ?Hptr.
  - intros r1 [Hin| ->%list_elem_of_singleton]%elem_of_app.
    + destruct (replayed_pointed s Hs r1 Hin) as (q & p & Hq & Hp & Hk & Hle).
      destruct (same_key p r) eqn:Hpr.
      * exists q, r. rewrite elem_of_replace_pointer. split_and!; [done|by left| |].
        -- rewrite same_key_comm in Hpr. by eapply same_key_trans.
        -- rewrite (Hnext p Hs Hn Hp Hpr). lia.
      * exists q, p. rewrite elem_of_replace_pointer. auto.
    + exists r, r. rewrite elem_of_replace_pointer. split_and!; auto using same_key_refl, N.le_refl.
  - intros p [->|[Hp _]]%elem_of_replace_pointer; setoid_rewrite elem_of_app.
    + exists record. rewrite list_elem_of_singleton. auto.
    + destruct (replayed_recorded s Hs p Hp) as (r1 & ? & ?). eauto.
  - intros p q [->|[Hp Hpk]]%elem_of_replace_pointer [->|[Hq Hqk]]%elem_of_replace_pointer Hk; try done.
    + rewrite same_key_comm in Hk. congruence.
    + congruence.
    + by apply (replayed_one s Hs).
  - apply sort_sorted.
  - intros r1 r2 q1 q2 [H1| ->%list_elem_of_singleton]%elem_of_app
      [H2| ->%list_elem_of_singleton]%elem_of_app Hq1 Hq2 Hk Heq.
    + by eapply (replayed_revisions s Hs r1 r2).
    + assert (q2 = r) as -> by (unfold names in *; congruence).
      specialize (Hnew r1 q1 H1 Hq1 Hk). lia.
    + assert (q1 = r) as -> by (unfold names in *; congruence). rewrite same_key_comm in Hk.
      specialize (Hnew r2 q2 H2 Hq2 Hk). lia.
    + unfold names in *. congruence.
Qed.

Lemma replay_from_ok s history s' :
  replayed_ok s -> replay_from s history = Ok s' ->
  replayed_ok s' /\ records s' = records s ++ history.
Proof.
  revert s. induction history as [|record history IH]; intros s Hs H; cbn [replay_from] in H.
  - injection H as <-. by rewrite app_nil_r.
  - apply bind_Ok in H as (s1 & (r & Hr & Ha & Hn & _)%replay_record_appends & H).
    apply IH in H as [Hok Hrec]; [|by eapply replayed_ok_step].
    split; [done|]. destruct Ha as [Ha _]. by rewrite Hrec, Ha, <- app_assoc.
Qed.

Lemma replay_history_ok history s :
  replay_history history = Ok s -> replayed_ok s /\ records s = history.
Proof. unfold replay_history. apply (replay_from_ok StoreSnapshot.default), default_replayed_ok. Qed.

Lemma replay_from_app s h1 h2 :
  replay_from s (h1 ++ h2) = (s1 ← replay_from s h1; replay_from s1 h2).
Proof.
  revert s. induction h1 as [|record h1 IH]; intros s; cbn; [done|].
  destruct (replay_record s record); cbn; [apply IH|done].
Qed.

(** Replaying a history of contracts rebuilds the store's pointers from the
    records alone: the records are the history in order, and a reference is a
    current pointer exactly when it names a record of the history whose contract
    has no later revision in it; each contract has one pointer, and they are
    sorted. *)
Theorem replay_keeps_the_latest history s :
  replay_history history = Ok s ->
  records s = history /\ StronglySorted ord_le (current_pointers s) /\
  (forall p q, p ∈ current_pointers s -> q ∈ current_pointers s -> same_key p q = true -> p = q) /\
  forall p, p ∈ current_pointers s <->
    (exists record, record ∈ history /\ names record p) /\
    forall record q, record ∈ history -> names record q -> same_key q p = true -> revision q <= revision p.
Proof.
  intros [Hs Hrec]%replay_history_ok.
  destruct Hs as [Hpointed Hrecorded Hone Hsorted Hrevs]. rewrite Hrec in *. split_and!; try done.
  assert (forall p q record, p ∈ current_pointers s -> record ∈ history -> names record q ->
    same_key q p = true -> revision q <= revision p) as Hlatest.
  { intros p q record Hp Hin Hq Hk. destruct (Hpointed record Hin) as (q' & p' & Hq' & Hp' & Hk' & Hle).
    assert (q' = q) as -> by (unfold names in *; congruence).
    assert (p' = p) as -> by (apply Hone; [done..|by eapply same_key_trans]). done. }
  intros p. split; [split; eauto|]. intros [(record & Hin & Hp) Hmax].
  destruct (Hpointed record Hin) as (q & p' & Hq & Hp' & Hk & Hle).
  assert (q = p) as -> by (unfold names in *; congruence).
  destruct (Hrecorded p' Hp') as (record' & Hin' & Hn').
  specialize (Hmax record' p' Hin' Hn' Hk).
  assert (p' = p) as -> by (eapply (Hrevs record' record); eauto; lia). done.
Qed.

(** After a contract is superseded nothing current and valid rests on the old
    revision: in the replayed store each pointer other than the new revision's
    that is not invalidated depends neither on the superseded reference nor on
    anything its supersession invalidated. *)
Theorem no_current_contract_rests_on_superseded s record s' r v :
  replayed_ok s -> replay_record s record = Ok s' -> names record r ->
  find_pointer (current_pointers s) r = Some v ->
  forall p q dependent, p ∈ current_pointers s' -> p <> r -> p ∉ invalidated_refs s' ->
    find_record (records s) p = Some dependent -> depends_on dependent q = true ->
    q <> v /\ (q ∈ invalidated_refs s' -> q ∈ invalidated_refs s \/ same_key p q = true).
Proof.
  intros Hs (r' & Hr' & [_ Hptr] & _ & Hinv)%replay_record_appends Hr Hv p q dependent Hp Hpr Hni Hf Hd.
  assert (r' = r) as -> by (unfold names in *; congruence).
  rewrite Hptr in Hp. apply elem_of_replace_pointer in Hp as [?|[Hp Hk]]; [done|].
  apply find_pointer_Some in Hv as Hv'. destruct Hv' as [Hv1 Hv2].
  assert (p ∉ invalidated_refs s) as Hno by (rewrite Hinv in Hni; tauto).
  split.
  - intros ->. apply Hni, Hinv. right. exists v. split; [done|]. left; [|done].
    split_and!; [done| |by exists dependent]. apply not_true_is_false. intros Hpv.
    rewrite (same_key_trans p v r) in Hk; done.
  - intros [?|(v' & Hv' & Ht)]%Hinv; [by left|]. right.
    assert (v' = v) as -> by congruence.
    destruct (same_key p q) eqn:E; [done|]. exfalso. apply Hni, Hinv. right. exists v. split; [done|].
    eapply tainted_step; [exact Ht| |done]. split_and!; [done..|by exists dependent].
Qed.
End replay.
