(* ===== verification/StoreValidate.v ===== *)
(** * StoreValidate: the checks of the contract store ([idr-store/src/file_store.rs])

    Cross-object consistency, permits and receipts against attempts, sealing and
    [validate_snapshot], which every load and every write passes.  Its loops over
    sets and maps thread the accumulated sets explicitly; [validate_snapshot_Ok]
    opens it into the facts the other files use. *)

From stdpp Require Import base list gmap fin_sets sorting strings.
From Stdlib Require Import NArith Lia.
From S2P Require Import Prelude Text Json Crates Common Contract.
From S2P Require Import Intent Decision Turn Response Action Trust Execution Outcome HumanModel.
From S2P Require Import StoreData StoreReplay.
Import StoreSnapshot.

Notation Attempt := ExecutionAttemptRecordV1.t (only parsing).
Notation Reservation := ExecutionReservationRecordV1.t (only parsing).

(** ** Attempts and what is presented against them *)

Definition same_context (left right : Metadata) : bool :=
  (HumanCenteredContractMetadataV1.run_id left == HumanCenteredContractMetadataV1.run_id right)
  && (HumanCenteredContractMetadataV1.turn_id left == HumanCenteredContractMetadataV1.turn_id right)
  && (HumanCenteredContractMetadataV1.authority_context left
        == HumanCenteredContractMetadataV1.authority_context right).

Definition receipt_matches_attempt (receipt : ExecutionReceiptV1.t) (reservation : Reservation)
    (attempt : Attempt) : bool :=
  (ExecutionReceiptV1.action_ref receipt == ExecutionReservationRecordV1.action_ref reservation)
  && (ExecutionReceiptV1.permit_id receipt == ExecutionAttemptRecordV1.permit_id attempt)
  && (ExecutionReceiptV1.authorization_id receipt
        == ExactActionAuthorizationV1.authorization_id (ExecutionAttemptRecordV1.authorization attempt))
  && (ExecutionReceiptV1.provider_ref receipt
        == ExecutionPermitRequestV1.provider_ref (ExecutionAttemptRecordV1.request attempt))
  && (ExecutionReceiptV1.owner_ref receipt
        == ExecutionPermitRequestV1.owner_ref (ExecutionAttemptRecordV1.request attempt))
  && (ExecutionReceiptV1.dispatch_nonce receipt
        == ExecutionPermitRequestV1.dispatch_nonce (ExecutionAttemptRecordV1.request attempt))
  && (ExecutionReceiptV1.attempt receipt =? ExecutionAttemptRecordV1.attempt attempt)
  && (ExecutionReceiptV1.idempotency_key receipt
        == ExecutionReservationRecordV1.idempotency_key reservation).

Definition receipt_matches_attempt_parts (receipt : ExecutionReceiptV1.t) (_reservation_id : Uuid)
    (action_ref : ContractRef) (attempt : Attempt) : bool :=
  (ExecutionReceiptV1.action_ref receipt == action_ref)
  && (ExecutionReceiptV1.permit_id receipt == ExecutionAttemptRecordV1.permit_id attempt)
  && (ExecutionReceiptV1.authorization_id receipt
        == ExactActionAuthorizationV1.authorization_id (ExecutionAttemptRecordV1.authorization attempt))
  && (ExecutionReceiptV1.provider_ref receipt
        == ExecutionPermitRequestV1.provider_ref (ExecutionAttemptRecordV1.request attempt))
  && (ExecutionReceiptV1.owner_ref receipt
        == ExecutionPermitRequestV1.owner_ref (ExecutionAttemptRecordV1.request attempt))
  && (ExecutionReceiptV1.dispatch_nonce receipt
        == ExecutionPermitRequestV1.dispatch_nonce (ExecutionAttemptRecordV1.request attempt))
  && (ExecutionReceiptV1.attempt receipt =? ExecutionAttemptRecordV1.attempt attempt)
  && (ExecutionReceiptV1.idempotency_key receipt
        == ExecutionPermitRequestV1.idempotency_key (ExecutionAttemptRecordV1.request attempt)).

Definition validate_permit_matches_attempt (permit : ExecutionPermitV1.t) (reservation_id : Uuid)
    (action_ref : ContractRef) (attempt : Attempt) : Stored unit :=
  reject (ExecutionPermitV1.reservation_id permit != reservation_id)
         || (ExecutionPermitV1.permit_id permit != ExecutionAttemptRecordV1.permit_id attempt)
         || (ExecutionPermitV1.proof_key_id permit != ExecutionAttemptRecordV1.proof_key_id attempt)
         || (ExecutionPermitV1.request permit != ExecutionAttemptRecordV1.request attempt)
         || (ExecutionPermitRequestV1.action_ref (ExecutionPermitV1.request permit) != action_ref)
    with ExecutionPermitMismatch;
  Ok tt.

(** [matches!(status, Dispatched | ReconciliationRequired)] *)
Definition awaits_receipt (s : ExecutionReservationStatusV1.t) : bool :=
  match s with
  | ExecutionReservationStatusV1.Dispatched | ExecutionReservationStatusV1.ReconciliationRequired => true
  | _ => false
  end.

Definition receipt_status (s : ExecutionStateV1) : ExecutionReservationStatusV1.t :=
  match s with
  | ESucceeded => ExecutionReservationStatusV1.Succeeded
  | EFailed => ExecutionReservationStatusV1.Failed
  | EPartiallySucceeded => ExecutionReservationStatusV1.PartiallySucceeded
  | ERejected => ExecutionReservationStatusV1.Rejected
  | ECompensated => ExecutionReservationStatusV1.Compensated
  end.

(** [if let Some(x) = v.iter_mut().find(p) { *x = f(x) }] *)
Fixpoint update_first {A} (p : A -> bool) (f : A -> A) (l : list A) : list A :=
  match l with
  | [] => []
  | x :: l => if p x then f x :: l else x :: update_first p f l
  end.

(** The attempt a receipt settles. *)
Definition settle_attempt (receipt : ExecutionReceiptV1.t) (receipt_ref : ContractRef)
    (proof_envelope : SignedProofEnvelopeV1.t) (verified_at : N) (attempt : Attempt) : Attempt :=
  ExecutionAttemptRecordV1.update attempt (receipt_status (ExecutionReceiptV1.state receipt))
    (ExecutionAttemptRecordV1.delivered_at attempt) (ExecutionAttemptRecordV1.dispatched_at attempt)
    (Some receipt_ref) (Some proof_envelope) (Some verified_at).

Definition apply_execution_receipt_transition (snapshot : t) (receipt : ExecutionReceiptV1.t)
    (receipt_ref : ContractRef) (proof_envelope : SignedProofEnvelopeV1.t) (verified_at : N) : Stored t :=
  let for_action r := ExecutionReservationRecordV1.action_ref r == ExecutionReceiptV1.action_ref receipt in
  let for_permit a := ExecutionAttemptRecordV1.permit_id a == ExecutionReceiptV1.permit_id receipt in
  reservation ← ok_or ExecutionReservationNotFound
                  (find_first for_action (execution_reservations snapshot));
  attempt ← ok_or ExecutionReservationNotFound
              (find_first for_permit (ExecutionReservationRecordV1.attempts reservation));
  reject negb (awaits_receipt (ExecutionAttemptRecordV1.status attempt))
         || negb (receipt_matches_attempt_parts receipt
                    (ExecutionReservationRecordV1.reservation_id reservation)
                    (ExecutionReservationRecordV1.action_ref reservation) attempt)
    with InvalidExecutionTransition;
  Ok (set_reservations snapshot
        (update_first for_action
           (fun r => ExecutionReservationRecordV1.set_attempts r
                       (update_first for_permit
                          (settle_attempt receipt receipt_ref proof_envelope verified_at)
                          (ExecutionReservationRecordV1.attempts r)))
           (execution_reservations snapshot))).

Section with_crates.
Context {C : Crates}.

Definition validate_receipt_proof_at (receipt : ExecutionReceiptV1.t)
    (proof_envelope : SignedProofEnvelopeV1.t) (verified_at trusted_now : N) : Stored unit :=
  _ ← protocol (ExecutionReceiptV1.validate receipt);
  _ ← protocol (SignedProofEnvelopeV1.validate_shape proof_envelope);
  expected ← protocol (ExecutionReceiptV1.expected_provider_proof_binding receipt);
  let claims := SignedProofEnvelopeV1.claims proof_envelope in
  reject (ProofClaimsV1.proof_kind claims != PProviderExecutionReceipt)
         || (ProofClaimsV1.issuer_ref claims != ExecutionReceiptV1.provider_ref receipt)
    with Protocol ProofVerificationFailed;
  subject ← protocol (ExecutionReceiptV1.proof_subject_ref receipt);
  reject (ProofClaimsV1.subject_ref claims != subject) with Protocol ProofVerificationFailed;
  reference ← protocol (ExecutionReceiptV1.record_ref receipt);
  reject (ProofClaimsV1.subject_digest claims != HumanCenteredContractRefV1.record_digest reference)
         || (ProofClaimsV1.tenant_ref claims != ExpectedProofBindingV1.tenant_ref expected)
         || (ProofClaimsV1.scope_ref claims != ExpectedProofBindingV1.scope_ref expected)
         || (ProofClaimsV1.purpose_ref claims != ExpectedProofBindingV1.purpose_ref expected)
         || (ProofClaimsV1.policy_revision_ref claims
               != ExpectedProofBindingV1.policy_revision_ref expected)
         || (ProofClaimsV1.nonce claims != ExecutionReceiptV1.dispatch_nonce receipt)
         || (ProofClaimsV1.issued_at claims <? ExecutionReceiptV1.completed_at receipt)
         || (trusted_now <? ExecutionReceiptV1.completed_at receipt)
         || (trusted_now <? ProofClaimsV1.issued_at claims)
         || (ProofClaimsV1.expires_at claims <=? trusted_now)
         || (verified_at <? ProofClaimsV1.issued_at claims)
         || (ProofClaimsV1.expires_at claims <=? verified_at)
         || (trusted_now <? verified_at)
    with Protocol ProofVerificationFailed;
  Ok tt.

(** ** Cross-object consistency: [Result<(), ()>] *)

Section cross_object.
Variable prior_records : list HumanCenteredContractSnapshotV1.
Variable execution_reservations : list ExecutionReservationRecordV1.t.

(** [let Some(x) = find(reference) else { Err(()) }; if !same_context(..) { Err(()) }] *)
Definition check_same_context (m : Metadata) (reference : ContractRef) : Result unit unit :=
  dependency ← ok_or tt (find_record prior_records reference);
  reject negb (same_context m (ContractSnapshot.metadata dependency)) with tt;
  Ok tt.

Definition check_decision (decision : DecisionContractV1.t) : Result unit unit :=
  match find_record prior_records (DecisionContractV1.intent_ref decision) with
  | Some (SIntent intent) =>
      reject negb (same_context (DecisionContractV1.metadata decision) (IntentContractV1.metadata intent))
        with tt;
      Ok tt
  | _ => Err tt
  end.

Definition check_action (action : ActionContractV1.t) : Result unit unit :=
  match ActionContractV1.decision_ref action with
  | None => Ok tt
  | Some reference =>
      match find_record prior_records reference with
      | Some (SDecision decision) =>
          let boundary := DecisionContractV1.authorization_boundary decision in
          reject negb (same_context (ActionContractV1.metadata action) (DecisionContractV1.metadata decision))
                 || negb (forallb (fun required =>
                                     contains required (ActionContractV1.required_authority_refs action))
                            (DecisionAuthorizationBoundaryV1.required_authority_refs boundary))
            with tt;
          reject (ActionContractV1.authorization_state action == NotRequired)
                 && ((ImpactLevelV1.rank (DecisionAuthorizationBoundaryV1.maximum_automatic_impact boundary)
                        <? ImpactLevelV1.rank (ActionContractV1.impact_level action))
                     || DecisionAuthorizationBoundaryV1.user_confirmation_required boundary
                     || contains (ActionContractV1.operation_ref action)
                          (DecisionAuthorizationBoundaryV1.prohibited_automatic_operations boundary))
            with tt;
          Ok tt
      | _ => Err tt
      end
  end.

(** An earlier receipt of the same attempt of the same action. *)
Definition receipt_of_attempt (receipt : ExecutionReceiptV1.t) (record : HumanCenteredContractSnapshotV1) : bool :=
  match record with
  | SExecutionReceipt previous =>
      (ExecutionReceiptV1.action_ref previous == ExecutionReceiptV1.action_ref receipt)
      && (ExecutionReceiptV1.attempt previous =? ExecutionReceiptV1.attempt receipt)
  | _ => false
  end.

Definition check_receipt (receipt : ExecutionReceiptV1.t) : Result unit unit :=
  match find_record prior_records (ExecutionReceiptV1.action_ref receipt) with
  | Some (SAction action) =>
      reservation ← ok_or tt
        (find_first (fun r => ExecutionReservationRecordV1.action_ref r
                                == ExecutionReceiptV1.action_ref receipt) execution_reservations);
      attempt ← ok_or tt
        (find_first (fun a => ExecutionAttemptRecordV1.permit_id a == ExecutionReceiptV1.permit_id receipt)
           (ExecutionReservationRecordV1.attempts reservation));
      reject negb (same_context (ExecutionReceiptV1.metadata receipt) (ActionContractV1.metadata action))
             || (ExecutionReceiptV1.idempotency_key receipt != ActionContractV1.idempotency_key action)
             || (ExecutionReceiptV1.request_parameter_digest receipt
                   != ActionContractV1.parameter_digest action)
             || negb (awaits_receipt (ExecutionAttemptRecordV1.status attempt)
                      || (ExecutionReservationStatusV1.is_terminal (ExecutionAttemptRecordV1.status attempt)
                          && (ExecutionAttemptRecordV1.receipt_ref attempt
                                == ok (ExecutionReceiptV1.record_ref receipt))))
             || negb (receipt_matches_attempt receipt reservation attempt)
             || is_none_or (fun dispatched_at => ExecutionReceiptV1.started_at receipt <? dispatched_at)
                  (ExecutionAttemptRecordV1.dispatched_at attempt)
             || (ExecutionPermitRequestV1.lease_until (ExecutionAttemptRecordV1.request attempt)
                   <=? ExecutionReceiptV1.started_at receipt)
             || existsb (receipt_of_attempt receipt) prior_records
        with tt;
      Ok tt
  | _ => Err tt
  end.

(** [reference.map(|r| find(r).ok_or(())).transpose()?] *)
Definition find_optional (reference : option ContractRef) :
    Result unit (option HumanCenteredContractSnapshotV1) :=
  transpose (fun r => ok_or tt (find_record prior_records r)) reference.

Definition option_list {A} (o : option A) : list A := match o with Some x => [x] | None => [] end.

Definition check_outcome (outcome : OutcomeRecordV1.t) : Result unit unit :=
  decision ← find_optional (OutcomeRecordV1.decision_ref outcome);
  action ← find_optional (OutcomeRecordV1.action_ref outcome);
  receipt ← find_optional (OutcomeRecordV1.execution_receipt_ref outcome);
  _ ← for_each (fun dependency =>
                  reject negb (same_context (OutcomeRecordV1.metadata outcome)
                                 (ContractSnapshot.metadata dependency)) with tt; Ok tt)
        (option_list decision ++ option_list action ++ option_list receipt);
  _ ← match decision with
      | None | Some (SDecision _) => Ok tt
      | Some _ => Err tt
      end;
  _ ← match action with
      | None => Ok tt
      | Some (SAction action_contract) =>
          match OutcomeRecordV1.decision_ref outcome with
          | Some decision_ref =>
              reject (ActionContractV1.decision_ref action_contract != Some decision_ref) with tt; Ok tt
          | None => Ok tt
          end
      | Some _ => Err tt
      end;
  match receipt with
  | None => Ok tt
  | Some (SExecutionReceipt receipt_contract) =>
      action_ref ← ok_or tt (OutcomeRecordV1.action_ref outcome);
      reject (ExecutionReceiptV1.action_ref receipt_contract != action_ref) with tt;
      reject (match ExecutionReceiptV1.state receipt_contract with EFailed | ERejected => true | _ => false end)
             && negb (is_nil (OutcomeRecordV1.success_criteria_satisfied outcome)) with tt;
      Ok tt
  | Some _ => Err tt
  end.

Definition validate_cross_object_consistency (contract : HumanCenteredContractSnapshotV1) : Result unit unit :=
  match contract with
  | SIntent _ => Ok tt
  | SDecision decision => check_decision decision
  | STurnCoordination plan =>
      for_each (check_same_context (TurnCoordinationPlanV1.metadata plan))
        (TurnCoordinationPlanV1.response_refs plan ++ TurnCoordinationPlanV1.action_refs plan)
  | SResponse response =>
      for_each (check_same_context (ResponseContractV1.metadata response))
        (ResponseContractV1.source_contract_refs response)
  | SAction action => check_action action
  | SExecutionReceipt receipt => check_receipt receipt
  | SOutcome outcome => check_outcome outcome
  | SHumanModelAssertion _ => Ok tt
  end.
End cross_object.

(** ** Sealing *)

Definition valid_store_digest (value : text) : bool :=
  (str_len value =? 64) && forallb is_lower_hex (as_bytes value).

(** The tuple [("idr-store-snapshot-v3", sequence, ...)] as serde writes it. *)
Definition snapshot_digest_input (s : t) : Value :=
  Arr [Str (txt "idr-store-snapshot-v3"); to_json (sequence s); to_json (previous_snapshot_digest s);
       to_json (records s); to_json (current_pointers s); to_json (invalidated_refs s);
       to_json (execution_reservations s)].

Definition compute_snapshot_digest (s : t) : Stored text :=
  bytes ← ok_or SerializationError (json_to_vec (snapshot_digest_input s));
  Ok (encode_hex (sha256 bytes)).

Definition seal_next_snapshot (candidate previous : t) : Stored t :=
  next ← ok_or SequenceOverflow (checked_succ u64_max (sequence previous));
  let unsealed := set_seal candidate next
    (if 0 <? sequence previous then Some (snapshot_digest previous) else None) [] in
  digest ← compute_snapshot_digest unsealed;
  Ok (set_seal unsealed next (previous_snapshot_digest unsealed) digest).

(** ** [validate_snapshot] *)

(** The state header: empty before the first commit, sealed afterwards. *)
Definition check_header (s : t) : Stored unit :=
  let empty_state := is_nil (records s) && is_nil (current_pointers s) && is_nil (invalidated_refs s)
                     && is_nil (execution_reservations s) in
  if sequence s =? 0 then
    reject negb empty_state || is_some (previous_snapshot_digest s) || negb (is_nil (snapshot_digest s))
      with CorruptSnapshot;
    Ok tt
  else
    reject negb (valid_store_digest (snapshot_digest s))
           || is_some_and (fun digest => negb (valid_store_digest digest)) (previous_snapshot_digest s)
      with CorruptSnapshot;
    digest ← compute_snapshot_digest s;
    reject (digest != snapshot_digest s) with CorruptSnapshot;
    Ok tt.

Notation Key := (HumanCenteredContractKindV1 * Uuid)%type (only parsing).
Definition key_of (r : ContractRef) : Key :=
  (HumanCenteredContractRefV1.kind r, HumanCenteredContractRefV1.contract_id r).

(** First loop: [record_refs], [record_positions] and [revision_keys]; the
    reference map's domain is the reference set. *)
Fixpoint index_records (pos : nat) (rs : list HumanCenteredContractSnapshotV1)
    (positions : gmap ContractRef nat) (revision_keys : gset (Key * N)) : Stored (gmap ContractRef nat) :=
  match rs with
  | [] => Ok positions
  | record :: rs =>
      _ ← protocol (ContractSnapshot.validate record);
      reference ← protocol (ContractSnapshot.record_ref record);
      let revision_key := (key_of reference, HumanCenteredContractRefV1.revision reference) in
      reject is_some (positions !! reference) || bool_decide (revision_key ∈ revision_keys)
        with CorruptSnapshot;
      index_records (S pos) rs (<[reference := pos]> positions) ({[revision_key]} ∪ revision_keys)
  end.

(** [record_positions.get(r).is_none_or(|p| *p >= position)] *)
Definition not_before (positions : gmap ContractRef nat) (pos : nat) (r : ContractRef) : bool :=
  is_none_or (fun p => Nat.leb pos p) (positions !! r).

(** Second loop: predecessors and dependencies come earlier, each record is
    consistent with the records before it, and [latest_refs]. *)
Fixpoint check_history (positions : gmap ContractRef nat) (reservations : list Reservation)
    (prior rs : list HumanCenteredContractSnapshotV1) (latest : gmap Key ContractRef) :
    Stored (gmap Key ContractRef) :=
  match rs with
  | [] => Ok latest
  | record :: rs =>
      let pos := length prior in
      let metadata := ContractSnapshot.metadata record in
      reference ← protocol (ContractSnapshot.record_ref record);
      reject is_some_and (fun predecessor =>
               (HumanCenteredContractRefV1.kind predecessor != HumanCenteredContractRefV1.kind reference)
               || not_before positions pos predecessor)
               (HumanCenteredContractMetadataV1.predecessor_ref metadata)
        with CorruptSnapshot;
      reject existsb (not_before positions pos) (HumanCenteredContractMetadataV1.dependency_refs metadata)
        with CorruptSnapshot;
      reject is_err (validate_cross_object_consistency prior reservations record) with CorruptSnapshot;
      let latest :=
        if is_some_and (fun l => HumanCenteredContractRefV1.revision reference
                                   <=? HumanCenteredContractRefV1.revision l) (latest !! key_of reference)
        then latest else <[key_of reference := reference]> latest in
      check_history positions reservations (prior ++ [record]) rs latest
  end.

(** Third loop: one pointer per contract, at its latest revision. *)
Fixpoint check_pointers (positions : gmap ContractRef nat) (latest : gmap Key ContractRef)
    (pointers : list ContractRef) (current_ids : gset Key) : Stored (gset Key) :=
  match pointers with
  | [] => Ok current_ids
  | pointer :: pointers =>
      _ ← protocol (HumanCenteredContractRefV1.validate pointer);
      reject negb (is_some (positions !! pointer)) || bool_decide (key_of pointer ∈ current_ids)
             || (latest !! key_of pointer != Some pointer)
        with CorruptSnapshot;
      check_pointers positions latest pointers ({[key_of pointer]} ∪ current_ids)
  end.

Definition check_invalidated (positions : gmap ContractRef nat) (reference : ContractRef) : Stored unit :=
  _ ← protocol (HumanCenteredContractRefV1.validate reference);
  reject negb (is_some (positions !! reference)) with CorruptSnapshot;
  Ok tt.

(** What the reservation loop has seen so far. *)
Record Seen : Type := mkSeen {
  reservation_ids : gset Uuid;
  authorization_ids : gset Uuid;
  idempotency_scopes : gset (ReferenceV1.t * ReferenceV1.t * text);
  reserved_actions : gset ContractRef;
  proof_ids : gset Uuid;
  proof_nonces : gset text;
}.
Definition nothing_seen : Seen := mkSeen ∅ ∅ ∅ ∅ ∅ ∅.

Definition scope_of (r : Reservation) : ReferenceV1.t * ReferenceV1.t * text :=
  (ExecutionReservationRecordV1.tenant_ref r, ExecutionReservationRecordV1.operation_ref r,
   ExecutionReservationRecordV1.idempotency_key r).
Definition authorization_id_of (a : Attempt) : Uuid :=
  ExactActionAuthorizationV1.authorization_id (ExecutionAttemptRecordV1.authorization a).

(** [is_some_and]/[is_none] patterns of the timing table *)
Definition no_receipt (a : Attempt) : bool :=
  negb (is_some (ExecutionAttemptRecordV1.receipt_ref a))
  && negb (is_some (ExecutionAttemptRecordV1.receipt_proof_envelope a))
  && negb (is_some (ExecutionAttemptRecordV1.receipt_verified_at a)).

Definition timing_is_valid (a : Attempt) : bool :=
  let delivered := is_some (ExecutionAttemptRecordV1.delivered_at a) in
  let dispatched := is_some (ExecutionAttemptRecordV1.dispatched_at a) in
  match ExecutionAttemptRecordV1.status a with
  | ExecutionReservationStatusV1.PermitIssued => negb delivered && negb dispatched && no_receipt a
  | ExecutionReservationStatusV1.Delivered => delivered && negb dispatched && no_receipt a
  | ExecutionReservationStatusV1.Dispatched => delivered && dispatched && no_receipt a
  | ExecutionReservationStatusV1.Expired => no_receipt a
  | ExecutionReservationStatusV1.Cancelled => negb dispatched && no_receipt a
  | ExecutionReservationStatusV1.ReconciliationRequired => delivered && dispatched && no_receipt a
  | status =>
      ExecutionReservationStatusV1.is_terminal status
      && (delivered && dispatched && is_some (ExecutionAttemptRecordV1.receipt_ref a)
          && is_some (ExecutionAttemptRecordV1.receipt_proof_envelope a)
          && is_some (ExecutionAttemptRecordV1.receipt_verified_at a))
  end.

(** [!timing_is_valid || delivered < consumed || dispatched < delivered] *)
Definition times_ordered (a : Attempt) : bool :=
  timing_is_valid a
  && negb (is_some_and (fun delivered => delivered <? ExecutionAttemptRecordV1.consumed_at a)
             (ExecutionAttemptRecordV1.delivered_at a))
  && negb (is_some_and (fun dispatched =>
             is_none_or (fun delivered => dispatched <? delivered) (ExecutionAttemptRecordV1.delivered_at a))
             (ExecutionAttemptRecordV1.dispatched_at a)).

(** The condition on an attempt that no set takes part in. *)
Definition attempt_mismatch (reservation : Reservation) (action : ActionContractV1.t)
    (expected_attempt : N) (a : Attempt) : bool :=
  let request := ExecutionAttemptRecordV1.request a in
  let claims := SignedProofEnvelopeV1.claims (ExecutionAttemptRecordV1.permit_proof_envelope a) in
  negb (ExecutionAttemptRecordV1.attempt a =? expected_attempt)
  || negb (ExecutionPermitRequestV1.attempt request =? expected_attempt)
  || (ExecutionAttemptRecordV1.permit_id a != ExecutionAttemptRecordV1.proof_id a)
  || is_nil_uuid (ExecutionAttemptRecordV1.proof_id a)
  || negb (valid_store_digest (ExecutionAttemptRecordV1.proof_nonce a))
  || (ExecutionAttemptRecordV1.proof_nonce a != ExecutionPermitRequestV1.dispatch_nonce request)
  || blank (ExecutionAttemptRecordV1.proof_issuer_ref a)
  || blank (ExecutionAttemptRecordV1.proof_key_id a)
  || (ExecutionAttemptRecordV1.proof_expires_at a <? ExecutionPermitRequestV1.lease_until request)
  || (ProofClaimsV1.proof_id claims != ExecutionAttemptRecordV1.proof_id a)
  || (ProofClaimsV1.proof_kind claims != PExecutionPermit)
  || (ProofClaimsV1.issuer_ref claims != ExecutionAttemptRecordV1.proof_issuer_ref a)
  || (SignedProofEnvelopeV1.key_id (ExecutionAttemptRecordV1.permit_proof_envelope a)
        != ExecutionAttemptRecordV1.proof_key_id a)
  || (ProofClaimsV1.subject_ref claims != ExecutionPermitRequestV1.request_ref request)
  || (ProofClaimsV1.subject_digest claims != ExecutionPermitRequestV1.request_digest request)
  || (ProofClaimsV1.nonce claims != ExecutionPermitRequestV1.dispatch_nonce request)
  || negb (ProofClaimsV1.expires_at claims =? ExecutionAttemptRecordV1.proof_expires_at a)
  || negb (valid_store_digest (ExecutionAttemptRecordV1.subject_digest a))
  || (ExecutionAttemptRecordV1.subject_digest a != ExecutionPermitRequestV1.request_digest request)
  || (authorization_id_of a != ExecutionPermitRequestV1.authorization_id request)
  || (ExecutionAttemptRecordV1.consumed_at a <? ExecutionPermitRequestV1.lease_issued_at request)
  || (ExecutionPermitRequestV1.lease_until request <=? ExecutionAttemptRecordV1.consumed_at a)
  || (ExecutionAttemptRecordV1.proof_expires_at a <=? ExecutionAttemptRecordV1.consumed_at a)
  || (ExactActionAuthorizationV1.expires_at (ExecutionAttemptRecordV1.authorization a)
        <=? ExecutionAttemptRecordV1.consumed_at a)
  || (HumanCenteredContractMetadataV1.valid_until (ActionContractV1.metadata action)
        <=? ExecutionAttemptRecordV1.consumed_at a)
  || (ExecutionPermitRequestV1.action_ref request != ExecutionReservationRecordV1.action_ref reservation).

(** The receipt an attempt names: stored, matching and properly attested. *)
Definition check_attempt_receipt (rs : list HumanCenteredContractSnapshotV1) (reservation : Reservation)
    (a : Attempt) : Stored unit :=
  match ExecutionAttemptRecordV1.receipt_ref a with
  | None => Ok tt
  | Some receipt_ref =>
      match find_record rs receipt_ref with
      | Some (SExecutionReceipt receipt) =>
          reject negb (receipt_matches_attempt receipt reservation a) with CorruptSnapshot;
          proof_envelope ← ok_or CorruptSnapshot (ExecutionAttemptRecordV1.receipt_proof_envelope a);
          _ ← protocol (SignedProofEnvelopeV1.validate_shape proof_envelope);
          let claims := SignedProofEnvelopeV1.claims proof_envelope in
          reject (ProofClaimsV1.proof_kind claims != PProviderExecutionReceipt)
                 || (ProofClaimsV1.issuer_ref claims != ExecutionReceiptV1.provider_ref receipt)
            with CorruptSnapshot;
          subject ← protocol (ExecutionReceiptV1.proof_subject_ref receipt);
          reject (ProofClaimsV1.subject_ref claims != subject)
                 || (ProofClaimsV1.subject_digest claims != HumanCenteredContractRefV1.record_digest receipt_ref)
                 || (ProofClaimsV1.nonce claims != ExecutionReceiptV1.dispatch_nonce receipt)
                 || (ProofClaimsV1.issued_at claims <? ExecutionReceiptV1.completed_at receipt)
                 || is_none_or (fun verified_at => (verified_at <? ProofClaimsV1.issued_at claims)
                                                   || (ProofClaimsV1.expires_at claims <=? verified_at))
                      (ExecutionAttemptRecordV1.receipt_verified_at a)
            with CorruptSnapshot;
          Ok tt
      | _ => Err CorruptSnapshot
      end
  end.

(** [for (index, attempt) in reservation.attempts.iter().enumerate()]; the
    attempts after the current one decide whether it is the last. *)
Fixpoint check_attempts (rs : list HumanCenteredContractSnapshotV1) (reservation : Reservation)
    (action : ActionContractV1.t) (index : N) (attempts : list Attempt) (seen : Seen) : Stored Seen :=
  match attempts with
  | [] => Ok seen
  | a :: attempts =>
      reject u32_max <? index + 1 with CorruptSnapshot;
      _ ← protocol (ExecutionPermitRequestV1.validate_for (ExecutionAttemptRecordV1.request a) action
                      (ExecutionAttemptRecordV1.authorization a));
      _ ← protocol (SignedProofEnvelopeV1.validate_shape (ExecutionAttemptRecordV1.permit_proof_envelope a));
      reject attempt_mismatch reservation action (index + 1) a
             || bool_decide (ExecutionAttemptRecordV1.proof_id a ∈ proof_ids seen)
             || bool_decide (ExecutionAttemptRecordV1.proof_nonce a ∈ proof_nonces seen)
             || bool_decide (authorization_id_of a ∈ authorization_ids seen)
        with CorruptSnapshot;
      reject negb (times_ordered a) with CorruptSnapshot;
      _ ← check_attempt_receipt rs reservation a;
      reject negb (is_nil attempts)
             && negb (ExecutionReservationStatusV1.permits_retry (ExecutionAttemptRecordV1.status a))
        with CorruptSnapshot;
      check_attempts rs reservation action (index + 1) attempts
        (mkSeen (reservation_ids seen) ({[authorization_id_of a]} ∪ authorization_ids seen)
           (idempotency_scopes seen) (reserved_actions seen)
           ({[ExecutionAttemptRecordV1.proof_id a]} ∪ proof_ids seen)
           ({[ExecutionAttemptRecordV1.proof_nonce a]} ∪ proof_nonces seen))
  end.

Definition check_reservation (rs : list HumanCenteredContractSnapshotV1) (reservation : Reservation)
    (seen : Seen) : Stored Seen :=
  let action_ref := ExecutionReservationRecordV1.action_ref reservation in
  _ ← protocol (HumanCenteredContractRefV1.validate action_ref);
  match find_record rs action_ref with
  | Some (SAction action) =>
      let context := HumanCenteredContractMetadataV1.authority_context (ActionContractV1.metadata action) in
      reject is_nil_uuid (ExecutionReservationRecordV1.reservation_id reservation)
             || bool_decide (ExecutionReservationRecordV1.reservation_id reservation ∈ reservation_ids seen)
             || (ExecutionReservationRecordV1.tenant_ref reservation != AuthorityContextV1.tenant_ref context)
             || (ExecutionReservationRecordV1.operation_ref reservation
                   != ActionContractV1.operation_ref action)
             || (ExecutionReservationRecordV1.idempotency_key reservation
                   != ActionContractV1.idempotency_key action)
             || is_nil (ExecutionReservationRecordV1.attempts reservation)
             || bool_decide (action_ref ∈ reserved_actions seen)
             || bool_decide (scope_of reservation ∈ idempotency_scopes seen)
        with CorruptSnapshot;
      check_attempts rs reservation action 0 (ExecutionReservationRecordV1.attempts reservation)
        (mkSeen ({[ExecutionReservationRecordV1.reservation_id reservation]} ∪ reservation_ids seen)
           (authorization_ids seen) ({[scope_of reservation]} ∪ idempotency_scopes seen)
           ({[action_ref]} ∪ reserved_actions seen) (proof_ids seen) (proof_nonces seen))
  | _ => Err CorruptSnapshot
  end.

Fixpoint check_reservations (rs : list HumanCenteredContractSnapshotV1) (reservations : list Reservation)
    (seen : Seen) : Stored unit :=
  match reservations with
  | [] => Ok tt
  | r :: reservations => seen ← check_reservation rs r seen; check_reservations rs reservations seen
  end.

Definition validate_snapshot (s : t) : Stored unit :=
  _ ← check_header s;
  positions ← index_records 0 (records s) ∅ ∅;
  latest ← check_history positions (execution_reservations s) [] (records s) ∅;
  current_ids ← check_pointers positions latest (current_pointers s) ∅;
  reject negb (Nat.eqb (size current_ids) (size latest)) with CorruptSnapshot;
  _ ← for_each (check_invalidated positions) (invalidated_refs s);
  replayed ← replay_history (records s);
  reject (current_pointers replayed != current_pointers s)
         || (invalidated_refs replayed != invalidated_refs s)
    with CorruptSnapshot;
  check_reservations (records s) (execution_reservations s) nothing_seen.
End with_crates.

(** ** What a validated snapshot guarantees *)

Section validated.
Context {C : Crates}.

(** Inserting the keys of a list one at a time into a set, each of them new. *)
Lemma fresh_union {A K} `{Countable K} (f : A -> K) x l (seen : gset K) :
  f x ∉ seen -> NoDup (map f l) -> (forall y, y ∈ l -> f y ∉ ({[f x]} ∪ seen : gset K)) ->
  NoDup (map f (x :: l)) /\ forall y, y ∈ x :: l -> f y ∉ seen.
Proof.
  intros Hx Hl Hy. cbn. split.
  - apply NoDup_cons. split; [|done]. rewrite list_elem_of_In, in_map_iff.
    intros (y & Hf & Hin%list_elem_of_In). apply (Hy y Hin). rewrite Hf. set_solver.
  - intros y [->|Hin]%elem_of_cons; [done|]. specialize (Hy y Hin). set_solver.
Qed.

(** The keys of [l] are new and distinct, and [seen'] is [seen] with them. *)
Definition collects {A K} `{Countable K} (f : A -> K) (l : list A) (seen seen' : gset K) : Prop :=
  NoDup (map f l) /\ (forall y, y ∈ l -> f y ∉ seen) /\ seen' = list_to_set (map f l) ∪ seen.

Lemma collects_nil {A K} `{Countable K} (f : A -> K) (seen : gset K) : collects f [] seen seen.
Proof. split_and!; [constructor|intros y ?%elem_of_nil; done|cbn; set_solver]. Qed.

Lemma collects_cons {A K} `{Countable K} (f : A -> K) x l (seen seen' : gset K) :
  f x ∉ seen -> collects f l ({[f x]} ∪ seen) seen' -> collects f (x :: l) seen seen'.
Proof.
  intros Hx (Hn & Hf & ->). destruct (fresh_union f x l seen) as [? ?]; [done..|].
  split_and!; [done..|]. cbn. set_solver.
Qed.

Lemma collects_app {A K} `{Countable K} (f : A -> K) l1 l2 (s1 s2 s3 : gset K) :
  collects f l1 s1 s2 -> collects f l2 s2 s3 -> collects f (l1 ++ l2) s1 s3.
Proof.
  intros (Hn1 & Hf1 & ->) (Hn2 & Hf2 & ->). unfold collects. rewrite map_app. split_and!.
  - apply NoDup_app. split_and!; [done| |done]. intros k Hk. rewrite list_elem_of_In, in_map_iff.
    intros (y & <- & Hy%list_elem_of_In). apply (Hf2 y Hy). apply elem_of_union_l.
    by apply elem_of_list_to_set.
  - intros y [?|Hy]%elem_of_app; [auto|]. specialize (Hf2 y Hy). set_solver.
  - rewrite list_to_set_app_L. set_solver.
Qed.

(** One accepted attempt, at 0-based [index] of its reservation; [last] tells
    whether it is the newest. *)
Record attempt_ok (rs : list HumanCenteredContractSnapshotV1) (reservation : Reservation)
    (action : ActionContractV1.t) (index : N) (last : bool) (a : Attempt) : Prop := {
  ao_request : ExecutionPermitRequestV1.validate_for (ExecutionAttemptRecordV1.request a) action
                 (ExecutionAttemptRecordV1.authorization a) = Ok tt;
  ao_match : attempt_mismatch reservation action (index + 1) a = false;
  ao_times : times_ordered a = true;
  ao_receipt : check_attempt_receipt rs reservation a = Ok tt;
  ao_retry : last = false -> ExecutionReservationStatusV1.permits_retry (ExecutionAttemptRecordV1.status a) = true;
}.

Fixpoint attempts_ok rs reservation action (index : N) (attempts : list Attempt) : Prop :=
  match attempts with
  | [] => True
  | a :: attempts =>
      attempt_ok rs reservation action index (is_nil attempts) a /\
      attempts_ok rs reservation action (index + 1) attempts
  end.

(** What the attempts of one or several reservations add to what was seen. *)
Record attempts_seen (attempts : list Attempt) (seen seen' : Seen) : Prop := {
  as_proofs : collects ExecutionAttemptRecordV1.proof_id attempts (proof_ids seen) (proof_ids seen');
  as_nonces : collects ExecutionAttemptRecordV1.proof_nonce attempts (proof_nonces seen) (proof_nonces seen');
  as_authorizations : collects authorization_id_of attempts (authorization_ids seen) (authorization_ids seen');
}.

Lemma check_attempts_Ok rs reservation action index attempts seen seen' :
  check_attempts rs reservation action index attempts seen = Ok seen' ->
  attempts_ok rs reservation action index attempts /\ attempts_seen attempts seen seen' /\
  reservation_ids seen' = reservation_ids seen /\ idempotency_scopes seen' = idempotency_scopes seen /\
  reserved_actions seen' = reserved_actions seen.
Proof.
  revert index seen. induction attempts as [|a attempts IH]; intros index seen H; cbn [check_attempts] in H.
  { injection H as <-. split_and!; [done|split; apply collects_nil|done..]. }
  apply reject_Ok in H as [_ H].
  apply bind_unit_Ok in H as [Hreq%map_err_Ok H]. apply bind_unit_Ok in H as [_ H].
  apply reject_Ok in H as [Hmis H]. apply reject_Ok in H as [Htimes%negb_false_iff H].
  apply bind_unit_Ok in H as [Hrec H]. apply reject_Ok in H as [Hretry H].
  rewrite !orb_false_iff, !bool_decide_false_iff in Hmis. destruct Hmis as [[[Hmis Hp] Hn] Ha].
  apply IH in H as (Hok & [Hps Hns Has] & Hr & Hi & Hra). cbn in *. split_and!; try done.
  - split; try done. intros Hl. rewrite Hl in Hretry. by apply negb_false_iff in Hretry.
  - split; by apply collects_cons.
Qed.

(** A reservation's action as stored. *)
Definition reserved_action (rs : list HumanCenteredContractSnapshotV1) (r : Reservation)
    (action : ActionContractV1.t) : Prop :=
  find_record rs (ExecutionReservationRecordV1.action_ref r) = Some (SAction action).

Record reservation_ok (rs : list HumanCenteredContractSnapshotV1) (r : Reservation) : Prop := {
  ro_action : exists action, reserved_action rs r action /\
    scope_of r = (AuthorityContextV1.tenant_ref
                    (HumanCenteredContractMetadataV1.authority_context (ActionContractV1.metadata action)),
                  ActionContractV1.operation_ref action, ActionContractV1.idempotency_key action) /\
    attempts_ok rs r action 0 (ExecutionReservationRecordV1.attempts r);
  ro_attempted : ExecutionReservationRecordV1.attempts r <> [];
}.

Definition attempts_of (reservations : list Reservation) : list Attempt :=
  flat_map ExecutionReservationRecordV1.attempts reservations.

Lemma check_reservations_Ok rs reservations seen :
  check_reservations rs reservations seen = Ok tt ->
  Forall (reservation_ok rs) reservations /\ exists seen',
    attempts_seen (attempts_of reservations) seen seen' /\
    collects ExecutionReservationRecordV1.reservation_id reservations
      (reservation_ids seen) (reservation_ids seen') /\
    collects ExecutionReservationRecordV1.action_ref reservations
      (reserved_actions seen) (reserved_actions seen') /\
    collects scope_of reservations (idempotency_scopes seen) (idempotency_scopes seen').
Proof.
  revert seen. induction reservations as [|r reservations IH]; intros seen H; cbn [check_reservations] in H.
  { split; [constructor|]. exists seen. split_and!; [split| | |]; apply collects_nil. }
  apply bind_Ok in H as (seen1 & Hr & H). unfold check_reservation in Hr.
  apply bind_unit_Ok in Hr as [_ Hr].
  destruct (find_record rs _) as [[| | | |action| | |]|] eqn:Hf; try done.
  apply reject_Ok in Hr as [Hm Hr]. rewrite !orb_false_iff, !bool_decide_false_iff in Hm.
  destruct Hm as [[[[[[[_ Hid] Ht] Ho] Hk] Hnil] Hact] Hsc].
  rewrite negb_false_iff, bool_decide_true_iff in Ht. rewrite negb_false_iff, bool_decide_true_iff in Ho.
  rewrite negb_false_iff, bool_decide_true_iff in Hk. apply is_nil_false in Hnil.
  apply check_attempts_Ok in Hr as (Hok & Hseen & Hri & Hisc & Hra). cbn in Hri, Hisc, Hra.
  destruct (IH _ H) as (Hall & seen' & Hs & Hids & Hacts & Hscopes).
  split.
  - constructor; [|done]. split; [|done]. exists action. split_and!; [done| |done].
    unfold scope_of. by rewrite Ht, Ho, Hk.
  - exists seen'. rewrite Hri in Hids. rewrite Hra in Hacts. rewrite Hisc in Hscopes.
    split_and!; [|by apply collects_cons..].
    destruct Hseen as [H1 H2 H3], Hs as [H4 H5 H6]. unfold attempts_of. cbn [flat_map].
    split; by eapply collects_app.
Qed.

Lemma index_records_Ok pos rs positions keys positions' :
  index_records pos rs positions keys = Ok positions' ->
  forall r p, positions' !! r = Some p -> positions !! r = Some p \/
    exists k record, p = (pos + k)%nat /\ rs !! k = Some record /\ names record r.
Proof.
  revert pos positions keys. induction rs as [|record rs IH]; intros pos positions keys H r p Hp;
    cbn [index_records] in H; [injection H as <-; by left|].
  apply bind_unit_Ok in H as [_ H]. apply bind_Ok in H as (ref & Href%map_err_Ok & H).
  apply reject_Ok in H as [_ H]. destruct (IH _ _ _ H r p Hp) as [Hin|(k & rec & -> & Hk & Hn)].
  - apply lookup_insert_Some in Hin as [[<- <-]|[_ Hin]]; [|by left].
    right. exists O, record. split_and!; [lia|done..].
  - right. exists (S k), rec. split_and!; [lia|done..].
Qed.

(** One record against the records before it. *)
Record record_ok (reservations : list Reservation) (prior : list HumanCenteredContractSnapshotV1)
    (positions : gmap ContractRef nat) (record : HumanCenteredContractSnapshotV1) : Prop := {
  rok_dependencies : forall d, d ∈ HumanCenteredContractMetadataV1.dependency_refs (ContractSnapshot.metadata record) ->
    exists p, positions !! d = Some p /\ (p < length prior)%nat;
  rok_predecessor : forall d, HumanCenteredContractMetadataV1.predecessor_ref (ContractSnapshot.metadata record) = Some d ->
    exists p, positions !! d = Some p /\ (p < length prior)%nat;
  rok_consistent : validate_cross_object_consistency prior reservations record = Ok tt;
}.

Lemma not_before_false positions pos r :
  not_before positions pos r = false <-> exists p, positions !! r = Some p /\ (p < pos)%nat.
Proof.
  unfold not_before. destruct (positions !! r) as [p|]; cbn; [|naive_solver].
  rewrite Nat.leb_gt. naive_solver.
Qed.

Lemma check_history_Ok positions reservations prior rs latest latest' :
  check_history positions reservations prior rs latest = Ok latest' ->
  forall k record, rs !! k = Some record -> record_ok reservations (prior ++ take k rs) positions record.
Proof.
  revert prior latest. induction rs as [|record rs IH]; intros prior latest H k rec Hk; [done|].
  cbn [check_history] in H. apply bind_Ok in H as (ref & _ & H). apply reject_Ok in H as [Hpred H].
  apply reject_Ok in H as [Hdeps H]. apply reject_Ok in H as [Hc%is_err_false H].
  destruct k as [|k]; cbn [take] in *.
  - injection Hk as <-. rewrite app_nil_r. rewrite existsb_false, Forall_forall in Hdeps.
    split; [|intros d Hd; rewrite Hd in Hpred; cbn in Hpred; apply orb_false_iff in Hpred as [_ Hpred]|done].
    + intros d Hd. by apply not_before_false, Hdeps.
    + by apply not_before_false.
  - specialize (IH _ _ H k rec Hk). by rewrite <- app_assoc in IH.
Qed.

(** What [validate_snapshot] establishes. *)
Record snapshot_ok (s : t) : Prop := {
  so_header : check_header s = Ok tt;
  so_history : exists positions, (forall r p, positions !! r = Some p ->
      exists record, records s !! p = Some record /\ names record r) /\
    forall k record, records s !! k = Some record ->
      record_ok (execution_reservations s) (take k (records s)) positions record;
  so_replay : exists replayed, replay_history (records s) = Ok replayed /\
    current_pointers replayed = current_pointers s /\ invalidated_refs replayed = invalidated_refs s;
  so_reservations : Forall (reservation_ok (records s)) (execution_reservations s);
  so_ids : NoDup (map ExecutionReservationRecordV1.reservation_id (execution_reservations s));
  so_actions : NoDup (map ExecutionReservationRecordV1.action_ref (execution_reservations s));
  so_scopes : NoDup (map scope_of (execution_reservations s));
  so_proofs : NoDup (map ExecutionAttemptRecordV1.proof_id (attempts_of (execution_reservations s)));
  so_nonces : NoDup (map ExecutionAttemptRecordV1.proof_nonce (attempts_of (execution_reservations s)));
  so_authorizations : NoDup (map authorization_id_of (attempts_of (execution_reservations s)));
}.

Lemma validate_snapshot_Ok s : validate_snapshot s = Ok tt -> snapshot_ok s.
Proof.
  unfold validate_snapshot. intros H. apply bind_unit_Ok in H as [Hh H].
  apply bind_Ok in H as (positions & Hpos & H). apply bind_Ok in H as (latest & Hhist & H).
  apply bind_Ok in H as (ids & _ & H). apply reject_Ok in H as [_ H]. apply bind_unit_Ok in H as [_ H].
  apply bind_Ok in H as (replayed & Hr & H). apply reject_Ok in H as [Hm H].
  rewrite orb_false_iff, !negb_false_iff, !bool_decide_true_iff in Hm.
  apply check_reservations_Ok in H as (Hall & seen' & [(Hp & _) (Hn & _) (Ha & _)] & (Hi & _) & (Hac & _) & (Hs & _)).
  split; try done; [|by exists replayed].
  exists positions. split; [|exact (check_history_Ok _ _ _ _ _ _ Hhist)].
  intros r p Hrp. destruct (index_records_Ok _ _ _ _ _ Hpos r p Hrp) as [Hemp|(k & record & -> & ?)].
  - by rewrite lookup_empty in Hemp.
  - by exists record.
Qed.

Lemma attempts_ok_lookup rs r action index attempts i a :
  attempts_ok rs r action index attempts -> attempts !! i = Some a ->
  attempt_ok rs r action (index + N.of_nat i) (Nat.eqb (S i) (length attempts)) a.
Proof.
  revert index i. induction attempts as [|b attempts IH]; intros index i; [done|].
  intros [Hb Hok] Hi. destruct i as [|i].
  - injection Hi as <-. rewrite N.add_0_r. by destruct attempts.
  - specialize (IH _ i Hok Hi). replace (index + N.of_nat (S i)) with (index + 1 + N.of_nat i) by lia.
    done.
Qed.

Lemma snapshot_attempt s r i a :
  snapshot_ok s -> r ∈ execution_reservations s ->
  ExecutionReservationRecordV1.attempts r !! i = Some a ->
  exists action, reserved_action (records s) r action /\
    attempt_ok (records s) r action (N.of_nat i)
      (Nat.eqb (S i) (length (ExecutionReservationRecordV1.attempts r))) a.
Proof.
  intros Hs Hr Ha. pose proof (so_reservations s Hs) as Hall. rewrite Forall_forall in Hall.
  destruct (Hall r Hr) as [(action & Hact & _ & Hok) _]. exists action. split; [done|].
  by apply (attempts_ok_lookup _ _ _ 0).
Qed.

(** In a snapshot that validates nothing is spent twice: no two reservations
    share an identifier, an action or an idempotency scope, and over all attempts
    of all reservations no two share a proof, a nonce or an authorization. *)
Theorem validated_snapshot_spends_once s :
  validate_snapshot s = Ok tt ->
  let reservations := execution_reservations s in
  NoDup (map ExecutionReservationRecordV1.reservation_id reservations) /\
  NoDup (map ExecutionReservationRecordV1.action_ref reservations) /\
  NoDup (map scope_of reservations) /\
  NoDup (map ExecutionAttemptRecordV1.proof_id (attempts_of reservations)) /\
  NoDup (map ExecutionAttemptRecordV1.proof_nonce (attempts_of reservations)) /\
  NoDup (map authorization_id_of (attempts_of reservations)).
Proof. by intros []%validate_snapshot_Ok. Qed.

(** In a snapshot that validates the attempts of an action are numbered 1, 2,
    3 and so on, only the newest can be open (each earlier one ended in a
    retryable status), each was consumed inside its lease and names its own
    action, a dispatched or settled attempt was delivered first, and a settled one
    names a stored receipt that matches it. *)
Theorem validated_attempts_are_sequential s r i a :
  validate_snapshot s = Ok tt -> r ∈ execution_reservations s ->
  ExecutionReservationRecordV1.attempts r !! i = Some a ->
  ExecutionAttemptRecordV1.attempt a = N.of_nat i + 1 /\
  ((S i < length (ExecutionReservationRecordV1.attempts r))%nat ->
     ExecutionReservationStatusV1.permits_retry (ExecutionAttemptRecordV1.status a) = true) /\
  ExecutionPermitRequestV1.action_ref (ExecutionAttemptRecordV1.request a)
    = ExecutionReservationRecordV1.action_ref r /\
  ExecutionPermitRequestV1.lease_issued_at (ExecutionAttemptRecordV1.request a)
    <= ExecutionAttemptRecordV1.consumed_at a
    < ExecutionPermitRequestV1.lease_until (ExecutionAttemptRecordV1.request a) /\
  (forall dispatched, ExecutionAttemptRecordV1.dispatched_at a = Some dispatched ->
     exists delivered, ExecutionAttemptRecordV1.delivered_at a = Some delivered /\
       ExecutionAttemptRecordV1.consumed_at a <= delivered <= dispatched) /\
  (forall receipt_ref, ExecutionAttemptRecordV1.receipt_ref a = Some receipt_ref ->
     exists receipt, find_record (records s) receipt_ref = Some (SExecutionReceipt receipt) /\
       receipt_matches_attempt receipt r a = true).
Proof.
  intros Hs%validate_snapshot_Ok Hr Ha. destruct (snapshot_attempt s r i a Hs Hr Ha) as (action & _ & Hok).
  destruct Hok as [_ Hm Ht Hrec Hretry].
  assert (ExecutionAttemptRecordV1.attempt a = N.of_nat i + 1 /\
    ExecutionPermitRequestV1.action_ref (ExecutionAttemptRecordV1.request a)
      = ExecutionReservationRecordV1.action_ref r /\
    ExecutionPermitRequestV1.lease_issued_at (ExecutionAttemptRecordV1.request a)
      <= ExecutionAttemptRecordV1.consumed_at a
      < ExecutionPermitRequestV1.lease_until (ExecutionAttemptRecordV1.request a)) as (? & ? & ? & ?).
  { unfold attempt_mismatch in Hm. rewrite !orb_false_iff in Hm. destruct_and!.
    rewrite negb_false_iff, ?N.eqb_eq, ?bool_decide_true_iff, ?N.ltb_ge, ?N.leb_gt in *.
    rewrite ?N.eqb_eq, ?bool_decide_true_iff in *. done. }
  split_and!; try done.
  - intros Hlt. apply Hretry. apply Nat.eqb_neq. lia.
  - intros dispatched Hd. unfold times_ordered in Ht. rewrite !andb_true_iff, !negb_true_iff in Ht.
    destruct Ht as [[_ Hdel] Hdisp]. rewrite Hd in Hdisp.
    destruct (ExecutionAttemptRecordV1.delivered_at a) as [delivered|]; [|done].
    exists delivered. split; [done|]. by split; apply N.ltb_ge.
  - intros receipt_ref Hrr. unfold check_attempt_receipt in Hrec. rewrite Hrr in Hrec.
    destruct (find_record _ _) as [[]|]; try done. apply reject_Ok in Hrec as [Hmatch%negb_false_iff _].
    eauto.
Qed.

(** In a snapshot that validates the contracts form a well-founded history:
    each record's dependencies and predecessor are names of earlier records, and
    it is consistent with those records. *)
Theorem validated_history_is_well_founded s k record :
  validate_snapshot s = Ok tt -> records s !! k = Some record ->
  (forall d, depends_on record d = true \/
     HumanCenteredContractMetadataV1.predecessor_ref (ContractSnapshot.metadata record) = Some d ->
     exists j earlier, (j < k)%nat /\ records s !! j = Some earlier /\ names earlier d) /\
  validate_cross_object_consistency (take k (records s)) (execution_reservations s) record = Ok tt.
Proof.
  intros Hs%validate_snapshot_Ok Hk. destruct (so_history s Hs) as (positions & Hpos & Hhist).
  destruct (Hhist k record Hk) as [Hd Hp Hc]. split; [|done]. intros d Hin.
  assert (exists p, positions !! d = Some p /\ (p < k)%nat) as (p & Hpd & Hlt).
  { assert (forall p, (p < length (take k (records s)))%nat -> (p < k)%nat) by (intros p; rewrite length_take; lia).
    destruct Hin as [Hin%contains_true|Hin]; [destruct (Hd d Hin) as (p & ? & ?)|destruct (Hp d Hin) as (p & ? & ?)];
      eauto. }
  destruct (Hpos d p Hpd) as (earlier & ? & ?). eauto.
Qed.
End validated.
