(* ===== verification/StoreDisk.v ===== *)
(** * StoreDisk: the snapshot file and its anchor log ([idr-store/src/file_store.rs])

    Reading, validating, recovering and persisting the store's two files, as
    functions of the bytes on disk.  [serde_json]'s pretty printer and the two
    derived deserializers are parameters ([Serde]); what the code relies on, that
    a value it wrote is read back, is the predicate [readable] (and
    [anchor_readable]) on the values written.  The operating system's part
    (directories, the temporary file's name, [fsync], the advisory lock) is not
    modelled, except that [crashed] lists the disks a crash inside
    [persist_snapshot] can leave. *)

From stdpp Require Import base list gmap sorting strings.
From Stdlib Require Import NArith Lia.
From S2P Require Import Prelude Text Json Crates Common Contract.
From S2P Require Import StoreData StoreReplay StoreValidate.
Import StoreSnapshot.

Class Serde := {
  to_vec_pretty : Value -> option (list N);
  snapshot_from_slice : list N -> option StoreSnapshot.t;
  anchor_from_slice : list N -> option StoreAnchorRecordV1.t;
}.

(** The bytes of [path] and of [anchor_path path]; [None] is a missing file. *)
Record Disk : Type := mkDisk {
  snapshot_file : option (list N);
  anchor_file : option (list N);
}.

(** A file operation: what it leaves on disk and what it returns. *)
Definition Io (A : Type) : Type := Disk -> Disk * Stored A.
#[export] Instance io_ret : MRet Io := fun A a d => (d, Ok a).
#[export] Instance io_bind : MBind Io := fun A B f m d =>
  match m d with (d, Ok a) => f a d | (d, Err e) => (d, Err e) end.
(** [?] on a computation that does no I/O *)
Definition pure {A} (r : Stored A) : Io A := fun d => (d, r).

Definition newline : N := 10.
Definition is_ascii_whitespace (b : N) : bool :=
  (b =? 9) || (b =? 10) || (b =? 12) || (b =? 13) || (b =? 32).

(** [bytes.iter().rposition(f)] *)
Fixpoint rposition {A} (f : A -> bool) (l : list A) : option nat :=
  match l with
  | [] => None
  | x :: l => match rposition f l with Some i => Some (S i) | None => if f x then Some O else None end
  end.

(** [bytes.split(|byte| *byte == b'\n')] *)
Fixpoint split_lines (l : list N) : list (list N) :=
  match l with
  | [] => [[]]
  | b :: l =>
      if b =? newline then [] :: split_lines l
      else match split_lines l with [] => [[b]] | line :: lines => (b :: line) :: lines end
  end.

Definition committed_len (bytes : list N) : nat :=
  match rposition (fun b => b =? newline) bytes with Some i => S i | None => O end.

Definition anchor_of (s : StoreSnapshot.t) : StoreAnchorRecordV1.t :=
  StoreAnchorRecordV1.mk (sequence s) (snapshot_digest s) (previous_snapshot_digest s).

(** [validate_anchor_chain]'s loop, from the record before. *)
Fixpoint validate_anchors_from (previous : option StoreAnchorRecordV1.t)
    (anchors : list StoreAnchorRecordV1.t) : Stored unit :=
  match anchors with
  | [] => Ok tt
  | anchor :: anchors =>
      reject negb (valid_store_digest (StoreAnchorRecordV1.snapshot_digest anchor))
             || is_some_and (fun digest => negb (valid_store_digest digest))
                  (StoreAnchorRecordV1.previous_snapshot_digest anchor)
        with CorruptAnchor;
      reject negb match previous with
             | None => (StoreAnchorRecordV1.sequence anchor =? 1)
                       && negb (is_some (StoreAnchorRecordV1.previous_snapshot_digest anchor))
             | Some prior =>
                 (checked_succ u64_max (StoreAnchorRecordV1.sequence prior)
                    == Some (StoreAnchorRecordV1.sequence anchor))
                 && (StoreAnchorRecordV1.previous_snapshot_digest anchor
                       == Some (StoreAnchorRecordV1.snapshot_digest prior))
             end
        with CorruptAnchor;
      validate_anchors_from (Some anchor) anchors
  end.
Definition validate_anchor_chain : list StoreAnchorRecordV1.t -> Stored unit := validate_anchors_from None.

Section with_serde.
Context {C : Crates} {R : Serde}.

(** [for line in committed[..len - 1].split(..)] *)
Fixpoint parse_anchor_lines (lines : list (list N)) : Stored (list StoreAnchorRecordV1.t) :=
  match lines with
  | [] => Ok []
  | line :: lines =>
      reject forallb is_ascii_whitespace line with CorruptAnchor;
      anchor ← ok_or CorruptAnchor (anchor_from_slice line);
      anchors ← parse_anchor_lines lines;
      Ok (anchor :: anchors)
  end.

Definition read_anchor_records : Io (list StoreAnchorRecordV1.t) := fun d =>
  match anchor_file d with
  | None => (d, Ok [])
  | Some bytes =>
      let len := committed_len bytes in
      let committed := take len bytes in
      match (anchors ← (if is_nil committed then Ok []
                        else parse_anchor_lines (split_lines (take (len - 1) committed)));
             _ ← validate_anchor_chain anchors; Ok anchors) with
      | Err e => (d, Err e)
      | Ok anchors =>
          let d := if Nat.ltb len (length bytes) then mkDisk (snapshot_file d) (Some committed) else d in
          (d, reject Nat.eqb len 0 && negb (is_nil bytes) && is_nil anchors
                     && negb (existsb (fun b => negb (is_ascii_whitespace b)) bytes)
                with CorruptAnchor;
              Ok anchors)
      end
  end.

Definition append_anchor (s : StoreSnapshot.t) : Io unit := fun d =>
  match json_to_vec (to_json (anchor_of s)) with
  | None => (d, Err SerializationError)
  | Some line =>
      (mkDisk (snapshot_file d) (Some (from_option id [] (anchor_file d) ++ line ++ [newline])), Ok tt)
  end.

Definition read_snapshot (d : Disk) : Stored StoreSnapshot.t :=
  match snapshot_file d with
  | None => Ok StoreSnapshot.default
  | Some [] => Err CorruptSnapshot
  | Some bytes => ok_or SerializationError (snapshot_from_slice bytes)
  end.

Definition validate_or_recover_anchor (s : StoreSnapshot.t) : Io unit :=
  anchors ← read_anchor_records;
  _ ← pure (validate_anchor_chain anchors);
  if sequence s =? 0 then pure (if is_nil anchors then Ok tt else Err RollbackDetected)
  else
    match last anchors with
    | None =>
        if (sequence s =? 1) && negb (is_some (previous_snapshot_digest s)) then append_anchor s
        else pure (Err RollbackDetected)
    | Some latest =>
        if (StoreAnchorRecordV1.sequence latest =? sequence s)
           && (StoreAnchorRecordV1.snapshot_digest latest == snapshot_digest s)
           && (StoreAnchorRecordV1.previous_snapshot_digest latest == previous_snapshot_digest s)
        then pure (Ok tt)
        else if (checked_succ u64_max (StoreAnchorRecordV1.sequence latest) == Some (sequence s))
                && (previous_snapshot_digest s == Some (StoreAnchorRecordV1.snapshot_digest latest))
        then append_anchor s
        else pure (Err RollbackDetected)
    end.

Definition load_snapshot : Io StoreSnapshot.t := fun d =>
  (s ← pure (read_snapshot d);
   _ ← pure (validate_snapshot s);
   _ ← validate_or_recover_anchor s;
   mret s) d.

(** [#[derive(Serialize)]] of the snapshot *)
Definition snapshot_json (s : StoreSnapshot.t) : Value :=
  Obj [(txt "sequence", to_json (sequence s));
       (txt "previous_snapshot_digest", to_json (previous_snapshot_digest s));
       (txt "snapshot_digest", to_json (snapshot_digest s)); (txt "records", to_json (records s));
       (txt "current_pointers", to_json (current_pointers s));
       (txt "invalidated_refs", to_json (invalidated_refs s));
       (txt "execution_reservations", to_json (execution_reservations s))].

(** Writing the temporary file and renaming it over the snapshot. *)
Definition replace_file (s : StoreSnapshot.t) : Io unit := fun d =>
  match to_vec_pretty (snapshot_json s) with
  | None => (d, Err SerializationError)
  | Some bytes => (mkDisk (Some bytes) (anchor_file d), Ok tt)
  end.

Definition persist_snapshot (s : StoreSnapshot.t) : Io unit :=
  _ ← replace_file s;
  append_anchor s.

(** The disks a crash in the middle of [persist_snapshot s] can leave: the old
    snapshot, or the new one with any part of its anchor line. *)
Inductive crashed (s : StoreSnapshot.t) (d : Disk) : Disk -> Prop :=
| crashed_before : crashed s d d
| crashed_renamed bytes : to_vec_pretty (snapshot_json s) = Some bytes ->
    crashed s d (mkDisk (Some bytes) (anchor_file d))
| crashed_appending bytes line k : to_vec_pretty (snapshot_json s) = Some bytes ->
    json_to_vec (to_json (anchor_of s)) = Some line ->
    crashed s d (mkDisk (Some bytes)
      (Some (from_option id [] (anchor_file d) ++ take k (line ++ [newline])))).
End with_serde.

(** ** Lines *)

Definition unlines (lines : list (list N)) : list N := flat_map (fun line => line ++ [newline]) lines.

Lemma unlines_app l k : unlines (l ++ k) = unlines l ++ unlines k.
Proof. apply flat_map_app. Qed.

Lemma rposition_app_r {A} (f : A -> bool) l k :
  Forall (fun x => f x = false) k -> rposition f (l ++ k) = rposition f l.
Proof.
  intros Hk. induction l as [|x l IH]; cbn; [|by rewrite IH].
  induction Hk as [|x k Hx _ IH]; cbn; [done|]. by rewrite IH, Hx.
Qed.

Lemma rposition_last {A} (f : A -> bool) l x : f x = true -> rposition f (l ++ [x]) = Some (length l).
Proof. intros Hx. induction l as [|y l IH]; cbn; [by rewrite Hx|by rewrite IH]. Qed.

Lemma no_newline l : newline ∉ l -> Forall (fun b => (b =? newline) = false) l.
Proof. intros Hl. apply Forall_forall. intros b Hb. apply N.eqb_neq. by intros ->. Qed.

(** Everything up to the last newline is committed, what follows it is not. *)
Lemma committed_len_unlines lines tail :
  newline ∉ tail -> committed_len (unlines lines ++ tail) = length (unlines lines).
Proof.
  intros Ht. unfold committed_len. rewrite rposition_app_r by by apply no_newline.
  destruct lines as [|line lines _] using rev_ind; [done|].
  rewrite unlines_app. cbn. rewrite app_nil_r, app_assoc, rposition_last by done.
  rewrite !length_app. cbn. lia.
Qed.

Lemma split_lines_no_newline l : newline ∉ l -> split_lines l = [l].
Proof.
  induction l as [|b l IH]; cbn; [done|]. intros [Hb Hl]%not_elem_of_cons.
  destruct (N.eqb_spec b newline); [congruence|]. by rewrite IH.
Qed.

Lemma split_lines_app line l :
  newline ∉ line -> split_lines (line ++ newline :: l) = line :: split_lines l.
Proof.
  induction line as [|b line IH]; intros Hl; [done|]. apply not_elem_of_cons in Hl as [Hb Hl].
  cbn [app split_lines]. destruct (N.eqb_spec b newline); [congruence|]. by rewrite IH.
Qed.

(** Dropping the last newline and splitting gives the lines back. *)
Lemma split_unlines lines :
  lines <> [] -> Forall (fun line => newline ∉ line) lines ->
  split_lines (take (length (unlines lines) - 1) (unlines lines)) = lines.
Proof.
  intros Hne Hall. induction Hall as [|line lines Hl Hls IH]; [done|].
  destruct lines as [|line' lines].
  - cbn. rewrite app_nil_r, length_app, take_app_le by (cbn; lia).
    replace (length line + length [newline] - 1)%nat with (length line) by (cbn; lia).
    rewrite firstn_all. by apply split_lines_no_newline.
  - set (rest := line' :: lines) in *. change (unlines (line :: rest)) with ((line ++ [newline]) ++ unlines rest).
    assert (0 < length (unlines rest))%nat by (unfold rest; cbn; rewrite !length_app; cbn; lia).
    rewrite length_app.
    replace (length (line ++ [newline]) + length (unlines rest) - 1)%nat
      with (length (line ++ [newline]) + (length (unlines rest) - 1))%nat by lia.
    rewrite take_app_add', <- app_assoc by done. cbn [app]. rewrite split_lines_app by done.
    by rewrite IH.
Qed.

(** ** Anchor logs *)

Section disk.
Context {C : Crates} {R : Serde}.

(** [line] is how the anchor [a] is written, and it reads back as [a]. *)
Record anchor_readable (a : StoreAnchorRecordV1.t) (line : list N) : Prop := {
  ar_written : json_to_vec (to_json a) = Some line;
  ar_one_line : newline ∉ line;
  ar_visible : existsb (fun b => negb (is_ascii_whitespace b)) (take 1 line) = true;
  ar_read : anchor_from_slice line = Some a;
}.

(** The log of [d] holds exactly [anchors]. *)
Definition logged (d : Disk) (anchors : list StoreAnchorRecordV1.t) : Prop :=
  exists lines, Forall2 anchor_readable anchors lines /\ from_option id [] (anchor_file d) = unlines lines.

Lemma visible_line line :
  existsb (fun b => negb (is_ascii_whitespace b)) (take 1 line) = true ->
  forallb is_ascii_whitespace line = false.
Proof. destruct line as [|b line]; cbn; [done|]. by destruct (is_ascii_whitespace b). Qed.

Lemma parse_anchor_lines_Ok anchors lines :
  Forall2 anchor_readable anchors lines -> parse_anchor_lines lines = Ok anchors.
Proof.
  induction 1 as [|a line anchors lines [Hw Hn Hv Hr] _ IH]; [done|]. cbn [parse_anchor_lines].
  rewrite visible_line by done. by rewrite Hr, IH.
Qed.

Lemma logged_one_line anchors lines :
  Forall2 anchor_readable anchors lines -> Forall (fun line => newline ∉ line) lines.
Proof. induction 1 as [|a line ? ? []]; constructor; done. Qed.

(** Reading a log with a torn tail drops the tail and returns the anchors. *)
Lemma read_anchors_torn d anchors lines tail :
  Forall2 anchor_readable anchors lines -> validate_anchor_chain anchors = Ok tt ->
  from_option id [] (anchor_file d) = unlines lines ++ tail -> newline ∉ tail ->
  (tail <> [] -> existsb (fun b => negb (is_ascii_whitespace b)) tail = true) ->
  exists d', read_anchor_records d = (d', Ok anchors) /\ snapshot_file d' = snapshot_file d /\
    logged d' anchors /\ (tail = [] -> d' = d).
Proof.
  intros Hr Hc Hf Hn Hv. destruct d as [file [bytes|]]; cbn in Hf; subst; cycle 1.
  { destruct lines as [|line lines]; [|by destruct line]. inversion Hr; subst.
    eexists. split; [reflexivity|]. split; [done|]. split; [by exists []|done]. }
  unfold read_anchor_records. cbn [anchor_file snapshot_file].
  rewrite committed_len_unlines by done. rewrite take_app_length.
  assert ((if is_nil (unlines lines) then Ok []
           else parse_anchor_lines (split_lines (take (length (unlines lines) - 1) (unlines lines))))
          = Ok anchors) as ->.
  { destruct lines as [|line lines].
    - by inversion Hr.
    - rewrite (proj2 (is_nil_false _)) by (cbn; by destruct line).
      rewrite split_unlines by (done || eapply logged_one_line; exact Hr). by apply parse_anchor_lines_Ok. }
  cbn [mbind result_bind]. rewrite Hc. cbn [mbind result_bind].
  exists (if Nat.ltb (length (unlines lines)) (length (unlines lines ++ tail))
          then mkDisk file (Some (unlines lines)) else mkDisk file (Some (unlines lines ++ tail))).
  split; [|split; [by case_match|split]].
  - f_equal. rewrite (proj2 (reject_Ok _ _ _ anchors)); [reflexivity|]. split; [|done].
    destruct (Nat.eqb_spec (length (unlines lines)) 0) as [He|]; [|done]. cbn.
    apply nil_length_inv in He. rewrite He. cbn. destruct tail as [|b tail]; [done|].
    rewrite Hv by done. cbn. by rewrite andb_false_r.
  - exists lines. split; [done|]. destruct (Nat.ltb _ _) eqn:Hlt; [done|]. cbn.
    apply Nat.ltb_ge in Hlt. rewrite length_app in Hlt. destruct tail; [by rewrite app_nil_r|cbn in Hlt; lia].
  - intros ->. rewrite app_nil_r, Nat.ltb_irrefl. done.
Qed.

Lemma read_anchors_logged d anchors :
  logged d anchors -> validate_anchor_chain anchors = Ok tt -> read_anchor_records d = (d, Ok anchors).
Proof.
  intros (lines & Hr & Hf) Hc.
  destruct (read_anchors_torn d anchors lines []) as (d' & Hd & _ & _ & Heq); try done.
  - by rewrite app_nil_r.
  - apply not_elem_of_nil.
  - by rewrite Heq in Hd.
Qed.

(** The chain grows by an anchor that continues its last one. *)
Definition continues (previous : option StoreAnchorRecordV1.t) (a : StoreAnchorRecordV1.t) : Prop :=
  match previous with
  | None => StoreAnchorRecordV1.sequence a = 1 /\ StoreAnchorRecordV1.previous_snapshot_digest a = None
  | Some p => StoreAnchorRecordV1.sequence a = StoreAnchorRecordV1.sequence p + 1 /\
      StoreAnchorRecordV1.sequence p < u64_max /\
      StoreAnchorRecordV1.previous_snapshot_digest a = Some (StoreAnchorRecordV1.snapshot_digest p)
  end.

Lemma validate_anchors_from_snoc previous anchors a :
  validate_anchors_from previous anchors = Ok tt ->
  valid_store_digest (StoreAnchorRecordV1.snapshot_digest a) = true ->
  (forall d, StoreAnchorRecordV1.previous_snapshot_digest a = Some d -> valid_store_digest d = true) ->
  continues (match last anchors with Some p => Some p | None => previous end) a ->
  validate_anchors_from previous (anchors ++ [a]) = Ok tt.
Proof.
  revert previous. induction anchors as [|b anchors IH]; intros previous Hc Hd Hp Hn.
  - cbn [app validate_anchors_from last] in *. rewrite Hd. cbn [negb orb].
    rewrite reject_Ok. split.
    { destruct (StoreAnchorRecordV1.previous_snapshot_digest a) as [d|]; [|done]. cbn.
      by rewrite (Hp d). }
    rewrite reject_Ok. split; [|done]. apply negb_false_iff. destruct previous as [p|]; cbn in Hn.
    + destruct Hn as (Hs & Hlt & Hpd). apply andb_true_iff. rewrite !bool_decide_true_iff, checked_succ_Some.
      auto.
    + destruct Hn as [-> ->]. done.
  - cbn [app validate_anchors_from] in *. apply reject_Ok in Hc as [H1 Hc]. apply reject_Ok in Hc as [H2 Hc].
    rewrite H1, H2. apply IH; try done. destruct anchors; [done|].
    cbn [last] in Hn. rewrite last_cons in *. by destruct (last anchors).
Qed.

(** [bytes] is how the snapshot [s] is written, and it reads back as [s]. *)
Record readable (s : StoreSnapshot.t) (bytes : list N) : Prop := {
  rd_written : to_vec_pretty (snapshot_json s) = Some bytes;
  rd_not_empty : bytes <> [];
  rd_read : snapshot_from_slice bytes = Some s;
}.

(** The last anchor of a store at snapshot [s]. *)
Definition latest_anchor (s : StoreSnapshot.t) : option StoreAnchorRecordV1.t :=
  if sequence s =? 0 then None else Some (anchor_of s).

(** The disk of a store at rest at snapshot [s]. *)
Record settled (d : Disk) (s : StoreSnapshot.t) : Prop := {
  st_read : read_snapshot d = Ok s;
  st_valid : validate_snapshot s = Ok tt;
  st_log : exists anchors, logged d anchors /\ validate_anchor_chain anchors = Ok tt /\
    last anchors = latest_anchor s;
}.

(** [s'] was sealed as the successor of [s]. *)
Record sealed_after (s s' : StoreSnapshot.t) : Prop := {
  sa_sequence : sequence s' = sequence s + 1;
  sa_bound : sequence s < u64_max;
  sa_previous : previous_snapshot_digest s' = if sequence s =? 0 then None else Some (snapshot_digest s);
}.

Lemma seal_next_snapshot_Ok candidate s s' :
  seal_next_snapshot candidate s = Ok s' ->
  sealed_after s s' /\ records s' = records candidate /\ current_pointers s' = current_pointers candidate /\
  invalidated_refs s' = invalidated_refs candidate /\
  execution_reservations s' = execution_reservations candidate.
Proof.
  unfold seal_next_snapshot. intros H. apply bind_Ok in H as (n & Hn%ok_or_Ok & H).
  apply checked_succ_Some in Hn as [Hlt ->]. apply bind_Ok in H as (digest & _ & [= <-]). cbn.
  split_and!; try done. split; cbn; [done|done|].
  destruct (N.eqb_spec (sequence s) 0) as [->|Hne]; [done|].
  by rewrite (proj2 (N.ltb_lt 0 (sequence s))) by lia.
Qed.

Lemma header_digests s :
  check_header s = Ok tt -> sequence s <> 0 ->
  valid_store_digest (snapshot_digest s) = true /\
  (forall d, previous_snapshot_digest s = Some d -> valid_store_digest d = true) /\
  compute_snapshot_digest s = Ok (snapshot_digest s).
Proof.
  unfold check_header. intros H Hne. rewrite (proj2 (N.eqb_neq _ _) Hne) in H.
  apply reject_Ok in H as [Hv H]. apply bind_Ok in H as (d & Hd & H). apply reject_Ok in H as [Hm _].
  apply orb_false_iff in Hv as [Hv Hp]. apply negb_false_iff in Hv.
  rewrite negb_false_iff, bool_decide_true_iff in Hm. subst d. split_and!; try done.
  intros p Hpd. rewrite Hpd in Hp. by apply negb_false_iff in Hp.
Qed.

Lemma append_anchor_logged d anchors s line :
  logged d anchors -> anchor_readable (anchor_of s) line ->
  exists d', append_anchor s d = (d', Ok tt) /\ snapshot_file d' = snapshot_file d /\
    logged d' (anchors ++ [anchor_of s]).
Proof.
  intros (lines & Hr & Hf) Hl. unfold append_anchor. rewrite (ar_written _ _ Hl).
  eexists. split; [reflexivity|]. split; [done|]. exists (lines ++ [line]).
  split; [by apply Forall2_app; [|constructor]|]. cbn. rewrite Hf, unlines_app. cbn. by rewrite app_nil_r.
Qed.

(** The log stays a chain when the next snapshot's anchor joins it. *)
Lemma chain_grows anchors s s' :
  validate_anchor_chain anchors = Ok tt -> last anchors = latest_anchor s ->
  sealed_after s s' -> validate_snapshot s' = Ok tt ->
  validate_anchor_chain (anchors ++ [anchor_of s']) = Ok tt /\
  last (anchors ++ [anchor_of s']) = latest_anchor s'.
Proof.
  intros Hc Hl [Hs Hb Hp] Hv%validate_snapshot_Ok. destruct (header_digests s') as (H1 & H2 & _);
    [apply Hv|lia|]. split.
  - apply validate_anchors_from_snoc; [done..|]. rewrite Hl. unfold latest_anchor, continues, anchor_of; cbn.
    destruct (N.eqb_spec (sequence s) 0) as [E|E]; cbn; [split; [lia|done]|done].
  - rewrite last_snoc. unfold latest_anchor. by rewrite (proj2 (N.eqb_neq (sequence s') 0)) by lia.
Qed.

(** What [validate_or_recover_anchor] does once the log has been read. *)
Lemma recover_anchor_next d d1 anchors s s' line :
  read_anchor_records d = (d1, Ok anchors) -> logged d1 anchors ->
  validate_anchor_chain anchors = Ok tt -> last anchors = latest_anchor s ->
  sealed_after s s' -> validate_snapshot s' = Ok tt -> anchor_readable (anchor_of s') line ->
  exists d2, validate_or_recover_anchor s' d = (d2, Ok tt) /\ snapshot_file d2 = snapshot_file d1 /\
    logged d2 (anchors ++ [anchor_of s']).
Proof.
  intros Hd Hlog Hc Hl [Hs Hb Hp] Hv Hline.
  destruct (append_anchor_logged d1 anchors s' line Hlog Hline) as (d2 & Ha & Hf & Hlog2).
  exists d2. split; [|done]. unfold validate_or_recover_anchor. unfold mbind, io_bind. rewrite Hd.
  unfold pure. rewrite Hc. rewrite (proj2 (N.eqb_neq (sequence s') 0)) by lia. rewrite Hl.
  unfold latest_anchor in *. rewrite Hp. destruct (N.eqb_spec (sequence s) 0) as [E|E].
  - rewrite Hs, E. exact Ha.
  - cbn [anchor_of StoreAnchorRecordV1.sequence StoreAnchorRecordV1.snapshot_digest].
    rewrite (proj2 (N.eqb_neq (sequence s) (sequence s'))) by lia. cbn [andb].
    rewrite (proj2 (checked_succ_Some u64_max (sequence s) (sequence s'))) by (split; [done|lia]).
    rewrite !bool_decide_eq_true_2 by done. exact Ha.
Qed.

Lemma recover_anchor_same d d1 anchors s :
  read_anchor_records d = (d1, Ok anchors) -> validate_anchor_chain anchors = Ok tt ->
  last anchors = latest_anchor s -> validate_or_recover_anchor s d = (d1, Ok tt).
Proof.
  intros Hd Hc Hl. unfold validate_or_recover_anchor. unfold mbind, io_bind. rewrite Hd. unfold pure.
  rewrite Hc. unfold latest_anchor in Hl. destruct (N.eqb_spec (sequence s) 0).
  - by rewrite (proj2 (is_nil_true anchors)) by by apply last_None.
  - rewrite Hl. cbn [anchor_of StoreAnchorRecordV1.sequence StoreAnchorRecordV1.snapshot_digest
      StoreAnchorRecordV1.previous_snapshot_digest]. rewrite N.eqb_refl, !bool_decide_eq_true_2 by done.
    done.
Qed.

Lemma load_snapshot_eq d s :
  read_snapshot d = Ok s -> validate_snapshot s = Ok tt ->
  load_snapshot d = match validate_or_recover_anchor s d with
                    | (d, Ok _) => (d, Ok s)
                    | (d, Err e) => (d, Err e)
                    end.
Proof.
  intros Hr Hv. unfold load_snapshot, pure. unfold mbind, io_bind. rewrite Hr. cbn. rewrite Hv. cbn.
  by destruct (validate_or_recover_anchor s d) as [? []].
Qed.

Lemma load_settled d s : settled d s -> load_snapshot d = (d, Ok s).
Proof.
  intros [Hr Hv (anchors & Hlog & Hc & Hl)]. rewrite (load_snapshot_eq d s) by done.
  by rewrite (recover_anchor_same d d anchors s) by (done || by apply read_anchors_logged).
Qed.

Lemma read_snapshot_readable d s bytes :
  readable s bytes -> snapshot_file d = Some bytes -> read_snapshot d = Ok s.
Proof. intros [_ Hn Hr] Hf. unfold read_snapshot. rewrite Hf. destruct bytes; [done|]. by rewrite Hr. Qed.

(** Persisting the next snapshot leaves the store at rest at it. *)
Lemma persist_settles d s s' bytes line :
  settled d s -> sealed_after s s' -> validate_snapshot s' = Ok tt ->
  readable s' bytes -> anchor_readable (anchor_of s') line ->
  exists d', persist_snapshot s' d = (d', Ok tt) /\ settled d' s'.
Proof.
  intros [Hr Hv (anchors & (lines & Hlog) & Hc & Hl)] Hs Hv' Hb Hline.
  destruct (append_anchor_logged (mkDisk (Some bytes) (anchor_file d)) anchors s' line) as (d' & Ha & Hf & Hlog');
    [by exists lines|done|].
  exists d'. unfold persist_snapshot, replace_file. unfold mbind, io_bind. rewrite (rd_written _ _ Hb).
  split; [exact Ha|]. destruct (chain_grows anchors s s') as [? ?]; [done..|].
  split; [by eapply read_snapshot_readable|done|]. by exists (anchors ++ [anchor_of s']).
Qed.

Lemma take_snoc_cases {A} k (l : list A) x :
  take k (l ++ [x]) = l ++ [x] \/ exists k', take k (l ++ [x]) = take k' l.
Proof.
  destruct (decide (k <= length l)%nat) as [Hk|Hk].
  - right. exists k. by apply take_app_le.
  - left. apply firstn_all2. rewrite length_app. cbn. lia.
Qed.

(** C12. A crash while the store replaces its snapshot loses nothing that was
    committed: from every disk the crash can leave, with the new snapshot absent,
    present without its anchor, or with any part of its anchor line, loading
    succeeds, returns the old snapshot or the new one, and leaves the store at
    rest at it. *)
Theorem crash_recovers_old_or_new d s s' bytes line d' :
  settled d s -> sealed_after s s' -> validate_snapshot s' = Ok tt ->
  readable s' bytes -> anchor_readable (anchor_of s') line -> crashed s' d d' ->
  exists d'' loaded, load_snapshot d' = (d'', Ok loaded) /\ (loaded = s \/ loaded = s') /\
    settled d'' loaded.
Proof.
  intros Hs Hseal Hv Hb Hline Hcrash. pose proof Hs as [Hr Hvs (anchors & (lines & Hlines & Hf) & Hc & Hl)].
  destruct (chain_grows anchors s s') as [Hc' Hl']; [done..|].
  assert (forall tail dc, snapshot_file dc = Some bytes -> newline ∉ tail ->
    (tail <> [] -> existsb (fun b => negb (is_ascii_whitespace b)) tail = true) ->
    from_option id [] (anchor_file dc) = unlines lines ++ tail ->
    exists d'' loaded, load_snapshot dc = (d'', Ok loaded) /\ (loaded = s \/ loaded = s') /\
      settled d'' loaded) as Htorn.
  { intros tail dc Hfile Hn Hvis Htail.
    destruct (read_anchors_torn dc anchors lines tail) as (d1 & Hd1 & Hf1 & Hlog1 & _); [done..|].
    destruct (recover_anchor_next dc d1 anchors s s' line) as (d2 & Hd2 & Hf2 & Hlog2); [done..|].
    exists d2, s'. rewrite (load_snapshot_eq dc s') by (done || by eapply read_snapshot_readable).
    rewrite Hd2. split_and!; [done|by right|]. split; [|done|by exists (anchors ++ [anchor_of s'])].
    eapply read_snapshot_readable; [done|]. by rewrite Hf2, Hf1. }
  destruct Hcrash as [|bytes' Hw|bytes' line' k Hw Hw'].
  - exists d, s. split_and!; [by apply load_settled|by left|done].
  - assert (bytes' = bytes) as -> by (rewrite (rd_written _ _ Hb) in Hw; congruence).
    apply (Htorn []); [done|apply not_elem_of_nil|done|]. cbn. by rewrite app_nil_r.
  - assert (bytes' = bytes) as -> by (rewrite (rd_written _ _ Hb) in Hw; congruence).
    assert (line' = line) as -> by (rewrite (ar_written _ _ Hline) in Hw'; congruence).
    destruct (take_snoc_cases k line newline) as [-> |[k' ->]].
    + exists (mkDisk (Some bytes) (Some (from_option id [] (anchor_file d) ++ line ++ [newline]))), s'.
      assert (settled (mkDisk (Some bytes) (Some (from_option id [] (anchor_file d) ++ line ++ [newline]))) s')
        as Hset; [|by split_and!; [apply load_settled|right|]].
      split; [by eapply read_snapshot_readable|done|]. exists (anchors ++ [anchor_of s']). split; [|done].
      exists (lines ++ [line]). split; [by apply Forall2_app; [|constructor]|].
      cbn. rewrite Hf, unlines_app. cbn. by rewrite app_nil_r.
    + apply (Htorn (take k' line)); [done| | |cbn; by rewrite Hf].
      * intros (i & Hi & _)%elem_of_take. apply (ar_one_line _ _ Hline). by eapply list_elem_of_lookup_2.
      * intros Hne. pose proof (ar_visible _ _ Hline) as Hvis.
        destruct k' as [|k'], line as [|b line]; try done. cbn in *.
        rewrite orb_false_r in Hvis. by rewrite Hvis.
Qed.

(** The anchor log pins the snapshot: whatever replaces the snapshot file of
    a store at rest, loading accepts it only if it is sealed like the snapshot at
    rest, and then it has the same content digest, or like its direct successor;
    an older snapshot is refused. *)
Theorem anchors_detect_rollback d s file d' loaded :
  settled d s -> load_snapshot (mkDisk file (anchor_file d)) = (d', Ok loaded) ->
  (anchor_of loaded = anchor_of s /\
     (sequence s <> 0 -> compute_snapshot_digest loaded = compute_snapshot_digest s)) \/
  sealed_after s loaded.
Proof.
  intros [Hr Hv (anchors & (lines & Hlines & Hf) & Hc & Hl)] Hload.
  set (dm := mkDisk file (anchor_file d)) in *.
  assert (logged dm anchors) as Hlog by by exists lines.
  pose proof (read_anchors_logged dm anchors Hlog Hc) as Hread.
  unfold load_snapshot, pure in Hload. unfold mbind, io_bind in Hload.
  destruct (read_snapshot dm) as [s1|]; [|done]. destruct (validate_snapshot s1) as [[]|] eqn:Hv1; [|done].
  destruct (validate_or_recover_anchor s1 dm) as [d1 [[]|]] eqn:Hrec; [|done].
  injection Hload as _ <-. unfold validate_or_recover_anchor in Hrec. unfold mbind, io_bind in Hrec.
  rewrite Hread in Hrec. unfold pure in Hrec. rewrite Hc, Hl in Hrec. unfold latest_anchor in *.
  pose proof (so_header _ (validate_snapshot_Ok _ Hv)) as Hh.
  pose proof (so_header _ (validate_snapshot_Ok _ Hv1)) as Hh1.
  assert (forall s, check_header s = Ok tt -> sequence s = 0 -> anchor_of s = anchor_of StoreSnapshot.default) as H0.
  { intros s0 H E. unfold check_header in H. rewrite E in H. cbn in H. apply reject_Ok in H as [H _].
    rewrite !orb_false_iff, negb_false_iff, is_some_false, negb_false_iff, is_nil_true in H.
    destruct H as [[_ Hp] Hd]. unfold anchor_of. by rewrite E, Hp, Hd. }
  destruct (N.eqb_spec (sequence s1) 0) as [E1|E1].
  - destruct (N.eqb_spec (sequence s) 0) as [E|E].
    + left. split; [|done]. by rewrite (H0 s1), (H0 s).
    + destruct anchors; [done|]. done.
  - destruct (N.eqb_spec (sequence s) 0) as [E|E].
    + destruct ((sequence s1 =? 1) && _) eqn:G; [|done]. apply andb_true_iff in G.
      rewrite N.eqb_eq, negb_true_iff, is_some_false in G. destruct G as [G1 G2].
      right. split; [lia|rewrite E; unfold u64_max; lia|]. by rewrite E.
    + cbn [anchor_of StoreAnchorRecordV1.sequence StoreAnchorRecordV1.snapshot_digest
        StoreAnchorRecordV1.previous_snapshot_digest] in Hrec.
      destruct (_ && _ && _) eqn:G in Hrec.
      * apply andb_true_iff in G as [G G3]. apply andb_true_iff in G as [G1 G2].
        apply N.eqb_eq in G1. rewrite bool_decide_true_iff in G2. rewrite bool_decide_true_iff in G3.
        left. split; [unfold anchor_of; congruence|]. intros _.
        destruct (header_digests s) as (_ & _ & ->); [done..|].
        destruct (header_digests s1) as (_ & _ & ->); [done..|]. congruence.
      * destruct (_ && _) eqn:G' in Hrec; [|done]. apply andb_true_iff in G' as [G1 G2].
        rewrite bool_decide_true_iff in G1. rewrite bool_decide_true_iff in G2.
        apply checked_succ_Some in G1 as [? ?]. right. split; [done..|].
        by rewrite (proj2 (N.eqb_neq _ _) E).
Qed.
End disk.
