(* ===== verification/StoreOps.v ===== *)
(** * StoreOps: the operations of the contract store ([idr-store/src/file_store.rs])

    The methods of [FileHumanCenteredContractStoreV1] as operations on the disk.
    Each of them reloads the snapshot under the store lock before it looks at it,
    so the snapshot cached in the mutex plays no part; the trusted clock's reading
    and a freshly minted reservation identifier are arguments. *)

From stdpp Require Import base list gmap sorting strings.
From Stdlib Require Import NArith Lia.
From S2P Require Import Prelude Text Json Crates Common Contract.
From S2P Require Import Intent Decision Turn Response Action Trust Execution Outcome HumanModel.
From S2P Require Import StoreData StoreReplay StoreValidate StoreDisk.
Import StoreSnapshot.

Inductive HumanCenteredCommitOutcomeV1 : Type :=
| Committed (r : ContractRef)
| AlreadyCommitted (r : ContractRef).

(** [if b { return Err(e); }] *)
Definition fail_if (b : bool) (e : HumanCenteredStoreErrorV1) : Io unit := pure (if b then Err e else Ok tt).

Definition is_receipt (contract : HumanCenteredContractSnapshotV1) : bool :=
  match contract with SExecutionReceipt _ => true | _ => false end.

(** [current.records.iter().any(|record| record.record_ref().ok().as_ref() == Some(r))] *)
Definition stored {C : Crates} (s : StoreSnapshot.t) (r : ContractRef) : bool :=
  existsb (fun record => ContractSnapshot.named record r) (records s).

Section with_serde.
Context {C : Crates} {R : Serde}.

(** The end of every write: [seal_next_snapshot], [validate_snapshot],
    [persist_snapshot]. *)
Definition write_snapshot (candidate current : StoreSnapshot.t) : Io StoreSnapshot.t :=
  next ← pure (seal_next_snapshot candidate current);
  _ ← pure (validate_snapshot next);
  _ ← persist_snapshot next;
  mret next.

(** [match &previous { .. }] and the lineage check of [commit_internal] *)
Definition check_lineage (current : StoreSnapshot.t) (contract : HumanCenteredContractSnapshotV1)
    (reference : ContractRef) : Stored unit :=
  let predecessor := HumanCenteredContractMetadataV1.predecessor_ref (ContractSnapshot.metadata contract) in
  match find_pointer (current_pointers current) reference with
  | None =>
      reject negb ((HumanCenteredContractRefV1.revision reference =? 1) && negb (is_some predecessor))
        with StaleCurrentPointer;
      Ok tt
  | Some pointer =>
      reject negb ((HumanCenteredContractRefV1.kind pointer == HumanCenteredContractRefV1.kind reference)
                   && (checked_succ u64_max (HumanCenteredContractRefV1.revision pointer)
                         == Some (HumanCenteredContractRefV1.revision reference))
                   && (predecessor == Some pointer))
        with StaleCurrentPointer;
      previous_record ← ok_or CorruptSnapshot (find_record (records current) pointer);
      reject negb (lineage_context_is_continuous (ContractSnapshot.metadata previous_record)
                     (ContractSnapshot.metadata contract)) with CrossObjectMismatch;
      Ok tt
  end.

Definition check_dependency (current : StoreSnapshot.t) (dependency : ContractRef) : Stored unit :=
  reject (find_pointer (current_pointers current) dependency != Some dependency)
         || contains dependency (invalidated_refs current) || negb (stored current dependency)
    with StaleDependency;
  Ok tt.

(** The candidate snapshot of a commit, before it is sealed. *)
Definition commit_candidate (current : StoreSnapshot.t) (contract : HumanCenteredContractSnapshotV1)
    (reference : ContractRef) (receipt_proof : option (SignedProofEnvelopeV1.t * N)) : Stored StoreSnapshot.t :=
  candidate ← match find_pointer (current_pointers current) reference with
              | Some previous => invalidate_dependents current previous
              | None => Ok current
              end;
  let candidate := set_records candidate (records candidate ++ [contract]) in
  candidate ← match contract with
              | SExecutionReceipt receipt =>
                  '(proof_envelope, verified_at) ← ok_or VerifiedReceiptProofRequired receipt_proof;
                  apply_execution_receipt_transition candidate receipt reference proof_envelope verified_at
              | _ => Ok candidate
              end;
  Ok (set_pointers candidate (replace_pointer (current_pointers candidate) reference)).

Definition commit_internal (now : Stored N) (contract : HumanCenteredContractSnapshotV1)
    (receipt_proof : option (SignedProofEnvelopeV1.t * N)) : Io HumanCenteredCommitOutcomeV1 :=
  _ ← fail_if (negb (Bool.eqb (is_receipt contract) (is_some receipt_proof))) VerifiedReceiptProofRequired;
  _ ← pure (protocol (ContractSnapshot.validate contract));
  reference ← pure (protocol (ContractSnapshot.record_ref contract));
  current ← load_snapshot;
  _ ← match receipt_proof with
      | None => mret tt
      | Some (proof_envelope, verified_at) =>
          match contract with
          | SExecutionReceipt receipt =>
              trusted_now ← pure now;
              pure (validate_receipt_proof_at receipt proof_envelope verified_at trusted_now)
          | _ => pure (Err VerifiedReceiptProofRequired)
          end
      end;
  if stored current reference then mret (AlreadyCommitted reference)
  else
    _ ← pure (check_lineage current contract reference);
    _ ← pure (for_each (check_dependency current)
                (HumanCenteredContractMetadataV1.dependency_refs (ContractSnapshot.metadata contract)));
    _ ← pure (map_err (fun _ => CrossObjectMismatch)
                (validate_cross_object_consistency (records current) (execution_reservations current) contract));
    candidate ← pure (commit_candidate current contract reference receipt_proof);
    _ ← write_snapshot candidate current;
    mret (Committed reference).

Definition commit (now : Stored N) (contract : HumanCenteredContractSnapshotV1) :
    Io HumanCenteredCommitOutcomeV1 :=
  _ ← fail_if (is_receipt contract) VerifiedReceiptProofRequired;
  commit_internal now contract None.

Definition commit_execution_receipt (now : Stored N) (verified_receipt : VerifiedExecutionReceiptV1.t) :
    Io HumanCenteredCommitOutcomeV1 :=
  let '(receipt, proof_envelope, verified_at) := VerifiedExecutionReceiptV1.into_parts verified_receipt in
  commit_internal now (SExecutionReceipt receipt) (Some (proof_envelope, verified_at)).

(** ** Execution permits *)

(** [records.iter().find_map(..)]: the stored action named [action_ref] *)
Fixpoint find_action (rs : list HumanCenteredContractSnapshotV1) (action_ref : ContractRef) :
    option ActionContractV1.t :=
  match rs with
  | [] => None
  | SAction action :: rs =>
      if ok (ActionContractV1.record_ref action) == Some action_ref then Some action
      else find_action rs action_ref
  | _ :: rs => find_action rs action_ref
  end.

(** The attempt a verified request opens. *)
Definition next_attempt (v : VerifiedExecutionPermitRequestV1.t) (trusted_now : N) : Attempt :=
  let proof := VerifiedExecutionPermitRequestV1.verified_proof v in
  let claims := VerifiedProofV1.claims proof in
  let request := VerifiedExecutionPermitRequestV1.request v in
  ExecutionAttemptRecordV1.mk (ExecutionPermitRequestV1.attempt request) (ProofClaimsV1.proof_id claims)
    (ProofClaimsV1.proof_id claims) (ProofClaimsV1.nonce claims) (ProofClaimsV1.issuer_ref claims)
    (SignedProofEnvelopeV1.key_id (VerifiedProofV1.envelope proof)) (ProofClaimsV1.expires_at claims)
    (ExecutionPermitRequestV1.request_digest request) (VerifiedProofV1.envelope proof)
    (VerifiedExecutionPermitRequestV1.authorization v) request trusted_now
    ExecutionReservationStatusV1.PermitIssued None None None None None.

(** The reservation of the action, or one that holds its idempotency scope. *)
Definition conflicts_with (action_ref : ContractRef) (scope : ReferenceV1.t * ReferenceV1.t * text)
    (r : Reservation) : bool :=
  (ExecutionReservationRecordV1.action_ref r == action_ref) || (scope_of r == scope).

(** [candidate.execution_reservations] with the attempt, and the reservation's identifier *)
Definition reserve (reservations : list Reservation) (action_ref : ContractRef)
    (scope : ReferenceV1.t * ReferenceV1.t * text) (attempt : Attempt) (minted : Uuid) :
    Stored (list Reservation * Uuid) :=
  let '(tenant_ref, operation_ref, idempotency_key) := scope in
  match find_first (conflicts_with action_ref scope) reservations with
  | Some reservation =>
      reject (ExecutionReservationRecordV1.action_ref reservation != action_ref)
             || (scope_of reservation != scope) with ExecutionAlreadyReserved;
      previous ← ok_or CorruptSnapshot (last (ExecutionReservationRecordV1.attempts reservation));
      reject negb (ExecutionReservationStatusV1.permits_retry (ExecutionAttemptRecordV1.status previous))
        with ExecutionAlreadyReserved;
      next ← ok_or AttemptOverflow (checked_succ u32_max (ExecutionAttemptRecordV1.attempt previous));
      reject negb (ExecutionAttemptRecordV1.attempt attempt =? next) with ExecutionAlreadyReserved;
      Ok (update_first (conflicts_with action_ref scope)
            (fun r => ExecutionReservationRecordV1.set_attempts r
                        (ExecutionReservationRecordV1.attempts r ++ [attempt])) reservations,
          ExecutionReservationRecordV1.reservation_id reservation)
  | None =>
      reject negb (ExecutionAttemptRecordV1.attempt attempt =? 1) with InvalidExecutionAttempt;
      Ok (reservations ++ [ExecutionReservationRecordV1.mk minted action_ref tenant_ref operation_ref
                             idempotency_key [attempt]], minted)
  end.

(** Some attempt of some reservation satisfies [p]. *)
Definition any_attempt (s : StoreSnapshot.t) (p : Attempt -> bool) : bool :=
  existsb (fun r => existsb p (ExecutionReservationRecordV1.attempts r)) (execution_reservations s).

Definition issue_execution_permit (now : Stored N) (minted : Uuid)
    (v : VerifiedExecutionPermitRequestV1.t) : Io ExecutionPermitV1.t :=
  let request := VerifiedExecutionPermitRequestV1.request v in
  let action_ref := ExecutionPermitRequestV1.action_ref request in
  let proof := VerifiedExecutionPermitRequestV1.verified_proof v in
  let claims := VerifiedProofV1.claims proof in
  current ← load_snapshot;
  trusted_now ← pure now;
  _ ← fail_if (negb (is_current current action_ref)) StaleCurrentPointer;
  action ← pure (ok_or CorruptSnapshot (find_action (records current) action_ref));
  _ ← pure (protocol (VerifiedExecutionPermitRequestV1.validate_at v action trusted_now));
  _ ← fail_if (any_attempt current (fun a =>
                 (ExecutionAttemptRecordV1.proof_id a == ProofClaimsV1.proof_id claims)
                 || (ExecutionAttemptRecordV1.proof_nonce a == ProofClaimsV1.nonce claims)))
        ProofReplayDetected;
  _ ← fail_if (any_attempt current (fun a =>
                 authorization_id_of a == ExecutionPermitRequestV1.authorization_id request))
        AuthorizationAlreadyConsumed;
  let scope := (AuthorityContextV1.tenant_ref
                  (HumanCenteredContractMetadataV1.authority_context (ActionContractV1.metadata action)),
                ActionContractV1.operation_ref action, ActionContractV1.idempotency_key action) in
  '(reservations, reservation_id) ←
    pure (reserve (execution_reservations current) action_ref scope (next_attempt v trusted_now) minted);
  _ ← write_snapshot (set_reservations current reservations) current;
  mret (ExecutionPermitV1.mk reservation_id (ProofClaimsV1.proof_id claims)
          (SignedProofEnvelopeV1.key_id (VerifiedProofV1.envelope proof))
          (VerifiedProofV1.verified_at proof) trusted_now request).

(** [*attempt = f(attempt)] on the last attempt of the reservation with the given identifier *)
Definition update_attempt (reservation_id : Uuid) (f : Attempt -> Attempt) (s : StoreSnapshot.t) : StoreSnapshot.t :=
  set_reservations s
    (update_first (fun r => ExecutionReservationRecordV1.reservation_id r == reservation_id)
       (fun r => ExecutionReservationRecordV1.set_attempts r
                   (update_last f (ExecutionReservationRecordV1.attempts r)))
       (execution_reservations s)).

Definition set_status (status : ExecutionReservationStatusV1.t) (a : Attempt) : Attempt :=
  ExecutionAttemptRecordV1.set_status a status.

(** [now >= lease_until || now >= proof_expires_at || now >= authorization.expires_at()] *)
Definition lapsed (a : Attempt) (trusted_now : N) : bool :=
  (ExecutionPermitRequestV1.lease_until (ExecutionAttemptRecordV1.request a) <=? trusted_now)
  || (ExecutionAttemptRecordV1.proof_expires_at a <=? trusted_now)
  || (ExactActionAuthorizationV1.expires_at (ExecutionAttemptRecordV1.authorization a) <=? trusted_now).

(** [attempt.status = next] and the time of the transition. *)
Definition advance (next : ExecutionReservationStatusV1.t) (trusted_now : N) (a : Attempt) : Stored Attempt :=
  match next with
  | ExecutionReservationStatusV1.Delivered =>
      Ok (ExecutionAttemptRecordV1.update a next (Some trusted_now) (ExecutionAttemptRecordV1.dispatched_at a)
            (ExecutionAttemptRecordV1.receipt_ref a) (ExecutionAttemptRecordV1.receipt_proof_envelope a)
            (ExecutionAttemptRecordV1.receipt_verified_at a))
  | ExecutionReservationStatusV1.Dispatched =>
      Ok (ExecutionAttemptRecordV1.update a next (ExecutionAttemptRecordV1.delivered_at a) (Some trusted_now)
            (ExecutionAttemptRecordV1.receipt_ref a) (ExecutionAttemptRecordV1.receipt_proof_envelope a)
            (ExecutionAttemptRecordV1.receipt_verified_at a))
  | _ => Err InvalidExecutionTransition
  end.

Definition transition_execution_permit (now : Stored N) (permit : ExecutionPermitV1.t)
    (expected next : ExecutionReservationStatusV1.t) : Io unit :=
  current ← load_snapshot;
  trusted_now ← pure now;
  reservation ← pure (ok_or ExecutionReservationNotFound
    (find_first (fun r => ExecutionReservationRecordV1.reservation_id r
                            == ExecutionPermitV1.reservation_id permit) (execution_reservations current)));
  let reservation_id := ExecutionReservationRecordV1.reservation_id reservation in
  let action_ref := ExecutionReservationRecordV1.action_ref reservation in
  attempt ← pure (ok_or CorruptSnapshot (last (ExecutionReservationRecordV1.attempts reservation)));
  _ ← pure (validate_permit_matches_attempt permit reservation_id action_ref attempt);
  if negb (is_current current action_ref) then
    let status := if is_some (ExecutionAttemptRecordV1.dispatched_at attempt)
                  then ExecutionReservationStatusV1.ReconciliationRequired
                  else ExecutionReservationStatusV1.Cancelled in
    _ ← write_snapshot (update_attempt reservation_id (set_status status) current) current;
    pure (Err ExecutionActionInvalidated)
  else if lapsed attempt trusted_now then
    _ ← write_snapshot
          (update_attempt reservation_id (set_status ExecutionReservationStatusV1.Expired) current) current;
    pure (Err ExecutionLeaseExpired)
  else if ExecutionAttemptRecordV1.status attempt == next then mret tt
  else
    _ ← fail_if (ExecutionAttemptRecordV1.status attempt != expected) InvalidExecutionTransition;
    attempt' ← pure (advance next trusted_now attempt);
    _ ← write_snapshot (update_attempt reservation_id (fun _ => attempt') current) current;
    mret tt.

Definition mark_execution_permit_delivered (now : Stored N) (permit : ExecutionPermitV1.t) : Io unit :=
  transition_execution_permit now permit ExecutionReservationStatusV1.PermitIssued
    ExecutionReservationStatusV1.Delivered.

Definition mark_execution_dispatched (now : Stored N) (permit : ExecutionPermitV1.t) : Io unit :=
  transition_execution_permit now permit ExecutionReservationStatusV1.Delivered
    ExecutionReservationStatusV1.Dispatched.

Definition recover_execution_permit (now : Stored N) (action_ref : ContractRef) (owner_ref : ReferenceV1.t) :
    Io ExecutionPermitV1.t :=
  current ← load_snapshot;
  trusted_now ← pure now;
  reservation ← pure (ok_or ExecutionReservationNotFound
    (find_first (fun r => ExecutionReservationRecordV1.action_ref r == action_ref)
       (execution_reservations current)));
  let reservation_id := ExecutionReservationRecordV1.reservation_id reservation in
  attempt ← pure (ok_or CorruptSnapshot (last (ExecutionReservationRecordV1.attempts reservation)));
  _ ← fail_if (ExecutionPermitRequestV1.owner_ref (ExecutionAttemptRecordV1.request attempt) != owner_ref)
        ExecutionOwnerMismatch;
  _ ← fail_if (match ExecutionAttemptRecordV1.status attempt with
               | ExecutionReservationStatusV1.PermitIssued | ExecutionReservationStatusV1.Delivered => false
               | _ => true
               end) ExecutionRequiresReconciliation;
  if lapsed attempt trusted_now then
    _ ← write_snapshot
          (update_attempt reservation_id (set_status ExecutionReservationStatusV1.Expired) current) current;
    pure (Err ExecutionLeaseExpired)
  else
    mret (ExecutionPermitV1.mk reservation_id (ExecutionAttemptRecordV1.permit_id attempt)
            (ExecutionAttemptRecordV1.proof_key_id attempt) (ExecutionAttemptRecordV1.consumed_at attempt)
            (ExecutionAttemptRecordV1.consumed_at attempt) (ExecutionAttemptRecordV1.request attempt)).

(** ** Queries *)

Definition load_current (kind : HumanCenteredContractKindV1) (contract_id : Uuid) :
    Io (option HumanCenteredContractSnapshotV1) :=
  current ← load_snapshot;
  match find_first (fun pointer => (HumanCenteredContractRefV1.kind pointer == kind)
                                   && (HumanCenteredContractRefV1.contract_id pointer == contract_id))
          (current_pointers current) with
  | None => mret None
  | Some reference =>
      if contains reference (invalidated_refs current) then mret None
      else mret (find_record (records current) reference)
  end.

Definition is_invalidated (reference : ContractRef) : Io bool :=
  current ← load_snapshot;
  mret (contains reference (invalidated_refs current)).

Definition revision_count : Io N :=
  current ← load_snapshot;
  mret (lenN (records current)).
End with_serde.
