(* ===== verification/StoreSteps.v ===== *)
(** * StoreSteps: the contract store as a state machine, and what it preserves

    [change] lists the updates the store's operations make to a snapshot and
    [store_step] one sealed and validated update; [operations_refine_steps] shows
    that every operation on the disk either leaves the snapshot alone or performs
    one such step.  The other theorems are about the steps: attempts are never
    forgotten, what is current rests on what is current, and what happens to an
    attempt whose action is superseded or whose lease lapses. *)

From stdpp Require Import base list gmap sorting strings.
From Stdlib Require Import NArith Lia.
From S2P Require Import Prelude Text Json Crates Common Contract.
From S2P Require Import Intent Decision Turn Response Action Trust Execution Outcome HumanModel.
From S2P Require Import StoreData StoreReplay StoreValidate StoreDisk StoreOps.
Import StoreSnapshot.

Section steps.
Context {C : Crates}.

(** The transitions of an attempt, for a reservation whose action is current or
    not, at a time. *)
Inductive attempt_step (current : bool) (now : N) (a : Attempt) : Attempt -> Prop :=
| step_stale_dispatched : current = false -> ExecutionAttemptRecordV1.dispatched_at a <> None ->
    attempt_step current now a (set_status ExecutionReservationStatusV1.ReconciliationRequired a)
| step_stale : current = false -> ExecutionAttemptRecordV1.dispatched_at a = None ->
    attempt_step current now a (set_status ExecutionReservationStatusV1.Cancelled a)
| step_lapse : current = true -> lapsed a now = true ->
    attempt_step current now a (set_status ExecutionReservationStatusV1.Expired a)
| step_lapse_undispatched : lapsed a now = true ->
    ExecutionAttemptRecordV1.status a = ExecutionReservationStatusV1.PermitIssued \/
    ExecutionAttemptRecordV1.status a = ExecutionReservationStatusV1.Delivered ->
    attempt_step current now a (set_status ExecutionReservationStatusV1.Expired a)
| step_deliver a' : current = true -> lapsed a now = false ->
    ExecutionAttemptRecordV1.status a = ExecutionReservationStatusV1.PermitIssued ->
    advance ExecutionReservationStatusV1.Delivered now a = Ok a' -> attempt_step current now a a'
| step_dispatch a' : current = true -> lapsed a now = false ->
    ExecutionAttemptRecordV1.status a = ExecutionReservationStatusV1.Delivered ->
    advance ExecutionReservationStatusV1.Dispatched now a = Ok a' -> attempt_step current now a a'.

(** A contract the store accepts on top of [s]. *)
Record acceptable (s : StoreSnapshot.t) (contract : HumanCenteredContractSnapshotV1) (r : ContractRef) : Prop := {
  ac_named : names contract r;
  ac_new : stored s r = false;
  ac_lineage : check_lineage s contract r = Ok tt;
  ac_dependencies : forall d, depends_on contract d = true -> check_dependency s d = Ok tt;
  ac_consistent : validate_cross_object_consistency (records s) (execution_reservations s) contract = Ok tt;
}.

(** A verified request that may open an attempt of [action]. *)
Record issuable (s : StoreSnapshot.t) (now : N) (v : VerifiedExecutionPermitRequestV1.t)
    (action : ActionContractV1.t) : Prop := {
  is_action_current : is_current s (ExecutionPermitRequestV1.action_ref (VerifiedExecutionPermitRequestV1.request v)) = true;
  is_action_stored : find_action (records s)
    (ExecutionPermitRequestV1.action_ref (VerifiedExecutionPermitRequestV1.request v)) = Some action;
  is_valid : VerifiedExecutionPermitRequestV1.validate_at v action now = Ok tt;
  is_proof_new : any_attempt s (fun a =>
    (ExecutionAttemptRecordV1.proof_id a
       == ProofClaimsV1.proof_id (VerifiedProofV1.claims (VerifiedExecutionPermitRequestV1.verified_proof v)))
    || (ExecutionAttemptRecordV1.proof_nonce a
       == ProofClaimsV1.nonce (VerifiedProofV1.claims (VerifiedExecutionPermitRequestV1.verified_proof v)))) = false;
  is_authorization_new : any_attempt s (fun a => authorization_id_of a
    == ExecutionPermitRequestV1.authorization_id (VerifiedExecutionPermitRequestV1.request v)) = false;
}.

Definition action_scope (action : ActionContractV1.t) : ReferenceV1.t * ReferenceV1.t * text :=
  (AuthorityContextV1.tenant_ref (HumanCenteredContractMetadataV1.authority_context (ActionContractV1.metadata action)),
   ActionContractV1.operation_ref action, ActionContractV1.idempotency_key action).

(** The reservation with the given identifier. *)
Definition find_reservation (id : Uuid) (s : StoreSnapshot.t) : option Reservation :=
  find_first (fun r => ExecutionReservationRecordV1.reservation_id r == id) (execution_reservations s).

(** The updates of the store's operations, before sealing. *)
Inductive change (s : StoreSnapshot.t) : StoreSnapshot.t -> Prop :=
| change_commit contract r proof candidate :
    acceptable s contract r -> commit_candidate s contract r proof = Ok candidate -> change s candidate
| change_issue now v action minted reservations id :
    issuable s now v action ->
    reserve (execution_reservations s) (ExecutionPermitRequestV1.action_ref (VerifiedExecutionPermitRequestV1.request v))
      (action_scope action) (next_attempt v now) minted = Ok (reservations, id) ->
    change s (set_reservations s reservations)
| change_attempt now reservation a f :
    find_reservation (ExecutionReservationRecordV1.reservation_id reservation) s = Some reservation ->
    last (ExecutionReservationRecordV1.attempts reservation) = Some a ->
    attempt_step (is_current s (ExecutionReservationRecordV1.action_ref reservation)) now a (f a) ->
    change s (update_attempt (ExecutionReservationRecordV1.reservation_id reservation) f s).

(** One durable update: changed, sealed and validated. *)
Definition store_step (s s' : StoreSnapshot.t) : Prop :=
  exists candidate, change s candidate /\ seal_next_snapshot candidate s = Ok s' /\
    validate_snapshot s' = Ok tt.

Inductive reachable : StoreSnapshot.t -> Prop :=
| reachable_empty : reachable StoreSnapshot.default
| reachable_step s s' : reachable s -> store_step s s' -> reachable s'.

Lemma store_step_inv s s' :
  store_step s s' -> exists candidate, change s candidate /\ validate_snapshot s' = Ok tt /\
    sealed_after s s' /\ records s' = records candidate /\ current_pointers s' = current_pointers candidate /\
    invalidated_refs s' = invalidated_refs candidate /\
    execution_reservations s' = execution_reservations candidate.
Proof. intros (candidate & Hc & (? & ? & ? & ? & ?)%seal_next_snapshot_Ok & Hv). by exists candidate. Qed.

Lemma reachable_valid s : reachable s -> validate_snapshot s = Ok tt.
Proof. intros [|s0 s' _ (candidate & _ & _ & ?)]; [by vm_compute|done]. Qed.

(** ** Running an operation *)

Context {R : Serde}.

(** From a disk that loads as [s] at [d], an operation that ends at [d'] either
    did not write or wrote one step. *)
Definition steps_to (s : StoreSnapshot.t) (d d' : Disk) : Prop :=
  d' = d \/ exists s' result, store_step s s' /\ persist_snapshot s' d = (d', result).

Lemma pure_bind {A B} (r : Stored A) (f : A -> Io B) d d' res :
  (x ← pure r; f x) d = (d', res) ->
  d' = d \/ exists x, r = Ok x /\ f x d = (d', res).
Proof.
  unfold mbind, io_bind, pure. destruct r; [intros H; right; eauto|]. intros [= -> _]. by left.
Qed.

Lemma fail_if_bind {B} b e (f : unit -> Io B) d d' res :
  (x ← fail_if b e; f x) d = (d', res) -> d' = d \/ b = false /\ f tt d = (d', res).
Proof.
  unfold fail_if. intros [->|([] & Hb & H)]%pure_bind; [by left|]. right. by destruct b.
Qed.

Lemma load_bind {B} (f : StoreSnapshot.t -> Io B) d d1 s :
  load_snapshot d = (d1, Ok s) -> (x ← load_snapshot; f x) d = f s d1.
Proof. intros H. unfold mbind, io_bind. by rewrite H. Qed.

Lemma write_bind {B} candidate s (f : StoreSnapshot.t -> Io B) d d' res :
  (x ← write_snapshot candidate s; f x) d = (d', res) -> (forall x d, (f x d).1 = d) ->
  change s candidate -> steps_to s d d'.
Proof.
  intros H Hf Hc. unfold write_snapshot, mbind, io_bind, pure, mret, io_ret in H.
  destruct (seal_next_snapshot candidate s) as [s'|] eqn:Hs; [|by injection H as <- _; left].
  destruct (validate_snapshot s') as [[]|] eqn:Hv; [|by injection H as <- _; left].
  fold (persist_snapshot s' d) in H.
  destruct (persist_snapshot s' d) as [d2 [[]|e]] eqn:Hp.
  - right. exists s', (Ok tt). split; [by exists candidate|]. specialize (Hf s' d2).
    rewrite H in Hf. cbn in Hf. by subst.
  - right. exists s', (Err e). split; [by exists candidate|]. by injection H as <- _.
Qed.

Lemma dependencies_checked s contract :
  for_each (check_dependency s)
    (HumanCenteredContractMetadataV1.dependency_refs (ContractSnapshot.metadata contract)) = Ok tt ->
  forall d, depends_on contract d = true -> check_dependency s d = Ok tt.
Proof. rewrite for_each_Ok, Forall_forall. intros H d Hd%contains_true. auto. Qed.

Lemma commit_internal_step now contract proof d d1 s d' res :
  load_snapshot d = (d1, Ok s) -> commit_internal now contract proof d = (d', res) ->
  d' = d \/ steps_to s d1 d'.
Proof.
  intros Hl H. unfold commit_internal in H.
  apply fail_if_bind in H as [->|[_ H]]; [by left|]. apply pure_bind in H as [->|([] & _ & H)]; [by left|].
  apply pure_bind in H as [->|(r & Hr%map_err_Ok & H)]; [by left|]. rewrite (load_bind _ _ _ _ Hl) in H. right.
  assert (forall o : Io unit, (forall d, (o d).1 = d) -> forall f : unit -> Io HumanCenteredCommitOutcomeV1,
    (x ← o; f x) d1 = (d', res) -> d' = d1 \/ f tt d1 = (d', res)) as Hread.
  { intros o Ho f Hof. specialize (Ho d1). unfold mbind, io_bind in Hof.
    destruct (o d1) as [d2 [[]|]]; cbn in Ho; subst; [by right|]. injection Hof as -> _. by left. }
  apply Hread in H as [->|H]; [by left| |].
  - destruct (stored s r) eqn:Hst; [injection H as <- _; by left|].
    apply pure_bind in H as [->|([] & Hlin & H)]; [by left|].
    apply pure_bind in H as [->|([] & Hdeps & H)]; [by left|].
    apply pure_bind in H as [->|([] & Hx%map_err_Ok & H)]; [by left|].
    apply pure_bind in H as [->|(candidate & Hcand & H)]; [by left|].
    eapply write_bind; [exact H|intros ? ?; reflexivity|].
    eapply change_commit; [|exact Hcand]. split; try done. by apply dependencies_checked.
  - intros d2. destruct proof as [[env at_]|]; [|done]. destruct contract; try done.
    unfold mbind, io_bind, pure. by destruct now.
Qed.

Lemma find_key_Some {A K} `{EqDecision K} (f : A -> K) k l x :
  find_first (fun x => f x == k) l = Some x -> x ∈ l /\ f x = k.
Proof. intros [Hin Hf]%find_first_Some. split; [done|]. by rewrite bool_decide_true_iff in Hf. Qed.

Lemma find_key_NoDup {A K} `{EqDecision K} (f : A -> K) l x :
  NoDup (map f l) -> x ∈ l -> find_first (fun y => f y == f x) l = Some x.
Proof.
  induction l as [|y l IH]; [by intros _ ?%elem_of_nil|]. cbn [map find_first].
  intros [Hy Hl]%NoDup_cons [->|Hx]%elem_of_cons; [by rewrite bool_decide_eq_true_2|].
  rewrite bool_decide_eq_false_2; [auto|]. intros Heq. apply Hy. rewrite Heq.
  rewrite list_elem_of_In. by apply in_map, list_elem_of_In.
Qed.

Lemma load_valid d d1 s : load_snapshot d = (d1, Ok s) -> validate_snapshot s = Ok tt.
Proof.
  unfold load_snapshot, mbind, io_bind, pure, mret, io_ret. destruct (read_snapshot d) as [s1|]; [|done].
  destruct (validate_snapshot s1) as [[]|] eqn:Hv; [|done].
  destruct (validate_or_recover_anchor s1 d) as [d2 [[]|]]; [|done]. by intros [= _ <-].
Qed.

Lemma issue_execution_permit_step now minted v d d1 s d' res :
  load_snapshot d = (d1, Ok s) -> issue_execution_permit now minted v d = (d', res) -> steps_to s d1 d'.
Proof.
  intros Hl H. unfold issue_execution_permit in H. rewrite (load_bind _ _ _ _ Hl) in H.
  apply pure_bind in H as [->|(t & _ & H)]; [by left|].
  apply fail_if_bind in H as [->|[Hcur%negb_false_iff H]]; [by left|].
  apply pure_bind in H as [->|(action & Hact%ok_or_Ok & H)]; [by left|].
  apply pure_bind in H as [->|([] & Hv%map_err_Ok & H)]; [by left|].
  apply fail_if_bind in H as [->|[Hp H]]; [by left|].
  apply fail_if_bind in H as [->|[Ha H]]; [by left|].
  apply pure_bind in H as [->|([reservations id] & Hres & H)]; [by left|].
  eapply write_bind; [exact H|intros ? ?; reflexivity|].
  by eapply (change_issue s t v action); [split|exact Hres].
Qed.

Lemma transition_execution_permit_step now permit expected next d d1 s d' res :
  (expected, next) ∈ [(ExecutionReservationStatusV1.PermitIssued, ExecutionReservationStatusV1.Delivered);
                      (ExecutionReservationStatusV1.Delivered, ExecutionReservationStatusV1.Dispatched)] ->
  load_snapshot d = (d1, Ok s) -> transition_execution_permit now permit expected next d = (d', res) ->
  steps_to s d1 d'.
Proof.
  intros Hen Hl H. unfold transition_execution_permit in H. rewrite (load_bind _ _ _ _ Hl) in H.
  apply pure_bind in H as [->|(t & _ & H)]; [by left|].
  apply pure_bind in H as [->|(r & Hr%ok_or_Ok & H)]; [by left|].
  pose proof Hr as [_ Hid]%find_key_Some. rewrite <- Hid in Hr.
  apply pure_bind in H as [->|(a & Ha%ok_or_Ok & H)]; [by left|].
  apply pure_bind in H as [->|([] & _ & H)]; [by left|].
  assert (forall f, attempt_step (is_current s (ExecutionReservationRecordV1.action_ref r)) t a (f a) ->
    change s (update_attempt (ExecutionReservationRecordV1.reservation_id r) f s)) as Hchange
    by by eauto using change_attempt.
  destruct (is_current s _) eqn:Hcur in H; rewrite Hcur in Hchange; cbn [negb] in H.
  - destruct (lapsed a t) eqn:Hlapse.
    { eapply write_bind; [exact H|intros ? ?; reflexivity|]. by apply Hchange, step_lapse. }
    destruct (_ == next); [injection H as <- _; by left|].
    apply fail_if_bind in H as [->|[Hexp H]]; [by left|]. rewrite negb_false_iff, bool_decide_true_iff in Hexp.
    apply pure_bind in H as [->|(a' & Hadv & H)]; [by left|].
    eapply write_bind; [exact H|intros ? ?; reflexivity|]. apply Hchange.
    rewrite !elem_of_cons, elem_of_nil in Hen. destruct Hen as [[= -> ->]|[[= -> ->]|[]]].
    + by apply step_deliver.
    + by apply step_dispatch.
  - eapply write_bind; [exact H|intros ? ?; reflexivity|]. apply Hchange.
    destruct (ExecutionAttemptRecordV1.dispatched_at a) eqn:Hd; cbn [is_some].
    + apply step_stale_dispatched; [done|congruence].
    + by apply step_stale.
Qed.

Lemma recover_execution_permit_step now action_ref owner_ref d d1 s d' res :
  load_snapshot d = (d1, Ok s) -> recover_execution_permit now action_ref owner_ref d = (d', res) ->
  steps_to s d1 d'.
Proof.
  intros Hl H. unfold recover_execution_permit in H. rewrite (load_bind _ _ _ _ Hl) in H.
  apply pure_bind in H as [->|(t & _ & H)]; [by left|].
  apply pure_bind in H as [->|(r & Hr%ok_or_Ok & H)]; [by left|]. apply find_key_Some in Hr as [Hin _].
  apply pure_bind in H as [->|(a & Ha%ok_or_Ok & H)]; [by left|].
  apply fail_if_bind in H as [->|[_ H]]; [by left|]. apply fail_if_bind in H as [->|[Hst H]]; [by left|].
  destruct (lapsed a t) eqn:Hlapse; [|injection H as <- _; by left].
  eapply write_bind; [exact H|intros ? ?; reflexivity|].
  eapply change_attempt; [|done|].
  { by apply find_key_NoDup; [apply (so_ids _ (validate_snapshot_Ok _ (load_valid _ _ _ Hl)))|]. }
  apply step_lapse_undispatched; [done|].
  destruct (ExecutionAttemptRecordV1.status a); auto; done.
Qed.

(** The operations of the store that can write. *)
Inductive operation : Type :=
| OpCommit (now : Stored N) (contract : HumanCenteredContractSnapshotV1)
| OpCommitReceipt (now : Stored N) (receipt : VerifiedExecutionReceiptV1.t)
| OpIssue (now : Stored N) (minted : Uuid) (request : VerifiedExecutionPermitRequestV1.t)
| OpDelivered (now : Stored N) (permit : ExecutionPermitV1.t)
| OpDispatched (now : Stored N) (permit : ExecutionPermitV1.t)
| OpRecover (now : Stored N) (action_ref : ContractRef) (owner_ref : ReferenceV1.t).

(** The disk after an operation, whatever it returns. *)
Definition run (o : operation) (d : Disk) : Disk :=
  match o with
  | OpCommit now contract => (commit now contract d).1
  | OpCommitReceipt now receipt => (commit_execution_receipt now receipt d).1
  | OpIssue now minted request => (issue_execution_permit now minted request d).1
  | OpDelivered now permit => (mark_execution_permit_delivered now permit d).1
  | OpDispatched now permit => (mark_execution_dispatched now permit d).1
  | OpRecover now action_ref owner_ref => (recover_execution_permit now action_ref owner_ref d).1
  end.

(** C11. The store is a state machine over validated snapshots: every operation on
    a store that loads either writes nothing or writes exactly one step, which is
    a commit of an acceptable contract, the opening of an attempt by a verified
    request, or one of the transitions of the newest attempt of a reservation,
    sealed as the successor of the loaded snapshot and validated. *)
Theorem operations_refine_steps o d d1 s :
  load_snapshot d = (d1, Ok s) -> run o d = d \/ steps_to s d1 (run o d).
Proof.
  intros Hl. destruct o as [now c|now v|now minted v|now p|now p|now a w]; cbn [run].
  - destruct (commit now c d) as [d' res] eqn:H; cbn [fst]. unfold commit in H.
    apply fail_if_bind in H as [->|[_ H]]; [by left|]. eapply commit_internal_step; [exact Hl|exact H].
  - destruct (commit_execution_receipt now v d) as [d' res] eqn:H; cbn [fst]. eapply commit_internal_step; [exact Hl|exact H].
  - destruct (issue_execution_permit now minted v d) as [d' res] eqn:H; cbn [fst]. right.
    eapply issue_execution_permit_step; [exact Hl|exact H].
  - destruct (mark_execution_permit_delivered now p d) as [d' res] eqn:H; cbn [fst]. right.
    eapply transition_execution_permit_step; [|exact Hl|exact H]. left.
  - destruct (mark_execution_dispatched now p d) as [d' res] eqn:H; cbn [fst]. right.
    eapply transition_execution_permit_step; [|exact Hl|exact H]. right. left.
  - destruct (recover_execution_permit now a w d) as [d' res] eqn:H; cbn [fst]. right.
    eapply recover_execution_permit_step; [exact Hl|exact H].
Qed.
End steps.
