(* ===== verification/StoreSafety.v ===== *)
(** * StoreSafety: what the steps of the contract store preserve

    Commits against replay, the permanence of attempts, the currency of what
    current contracts rest on, and two consequences of the transition rules: an
    attempt that waits for reconciliation after its action was superseded is never
    settled, and a dispatched attempt whose lease lapses becomes retryable. *)

From stdpp Require Import base list gmap sorting strings.
From Stdlib Require Import NArith Lia.
From S2P Require Import Prelude Text Json Crates Common Contract.
From S2P Require Import Intent Decision Turn Response Action Trust Execution Outcome HumanModel.
From S2P Require Import StoreData StoreReplay StoreValidate StoreDisk StoreOps StoreSteps.
Import StoreSnapshot.

(** ** Updating lists in place *)

Lemma Forall2_map_self {A} (P : A -> A -> Prop) (f : A -> A) l :
  (forall x, x ∈ l -> P x (f x)) -> Forall2 P l (map f l).
Proof.
  induction l as [|x l IH]; cbn; intros H; constructor; [apply H; left|].
  apply IH. intros y Hy. apply H. by right.
Qed.

Lemma update_first_Forall2 {A} (P : A -> A -> Prop) (p : A -> bool) (f : A -> A) l :
  Reflexive P -> (forall x, find_first p l = Some x -> P x (f x)) -> Forall2 P l (update_first p f l).
Proof.
  intros Hr. induction l as [|x l IH]; cbn; intros Hf; [constructor|].
  destruct (p x) eqn:E; constructor; auto. by apply Forall_Forall2_diag, Forall_true.
Qed.

Lemma update_last_Forall2 {A} (P : A -> A -> Prop) (f : A -> A) l :
  Reflexive P -> (forall x, last l = Some x -> P x (f x)) -> Forall2 P l (update_last f l).
Proof.
  intros Hr. induction l as [|x l IH]; cbn [update_last]; intros Hf; [constructor|].
  destruct l as [|y l]; [constructor; [by apply Hf|constructor]|].
  constructor; [reflexivity|]. apply IH. intros z Hz. apply Hf. by rewrite last_cons_cons.
Qed.

Lemma last_update_last {A} (f : A -> A) l : last (update_last f l) = f <$> last l.
Proof.
  induction l as [|x [|y l] IH]; [done..|]. change (update_last f (x :: y :: l)) with (x :: update_last f (y :: l)).
  rewrite last_cons, IH, last_cons_cons. destruct (last (y :: l)) eqn:E; [done|].
  by apply last_None in E.
Qed.

(** What is not the first match is left alone. *)
Lemma elem_of_update_first {A} (p : A -> bool) (f : A -> A) l x :
  x ∈ l -> x ∈ update_first p f l \/ (find_first p l = Some x /\ f x ∈ update_first p f l).
Proof.
  induction l as [|y l IH]; [by intros ?%elem_of_nil|]. cbn. intros [->|Hx]%elem_of_cons.
  - destruct (p y) eqn:E; [right; split; [done|left]|left; left].
  - destruct (p y) eqn:E; [left; by right|]. destruct (IH Hx) as [?|[? ?]]; [left|right]; [by right|].
    split; [done|by right].
Qed.

(** ** Commits and replay *)

Section commits.
Context {C : Crates}.

Lemma apply_receipt_Ok s receipt ref env at_ s' :
  apply_execution_receipt_transition s receipt ref env at_ = Ok s' ->
  exists r a, find_first (fun r => ExecutionReservationRecordV1.action_ref r
                                     == ExecutionReceiptV1.action_ref receipt) (execution_reservations s) = Some r /\
    find_first (fun a => ExecutionAttemptRecordV1.permit_id a == ExecutionReceiptV1.permit_id receipt)
      (ExecutionReservationRecordV1.attempts r) = Some a /\
    awaits_receipt (ExecutionAttemptRecordV1.status a) = true /\
    s' = set_reservations s
        (update_first (fun r => ExecutionReservationRecordV1.action_ref r == ExecutionReceiptV1.action_ref receipt)
           (fun r => ExecutionReservationRecordV1.set_attempts r
                       (update_first (fun a => ExecutionAttemptRecordV1.permit_id a == ExecutionReceiptV1.permit_id receipt)
                          (settle_attempt receipt ref env at_) (ExecutionReservationRecordV1.attempts r)))
           (execution_reservations s)).
Proof.
  unfold apply_execution_receipt_transition. intros H.
  apply bind_Ok in H as (r & Hr%ok_or_Ok & H). apply bind_Ok in H as (a & Ha%ok_or_Ok & H).
  apply reject_Ok in H as [[Hs%negb_false_iff _]%orb_false_iff [= <-]]. by exists r, a.
Qed.

(** The candidate of a commit: the records, pointers and invalidations, and where
    its reservations come from. *)
Lemma commit_candidate_Ok s contract r proof candidate :
  commit_candidate s contract r proof = Ok candidate ->
  exists s1, match find_pointer (current_pointers s) r with
             | Some v => invalidate_dependents s v = Ok s1
             | None => s1 = s
             end /\
    records candidate = records s ++ [contract] /\
    current_pointers candidate = replace_pointer (current_pointers s) r /\
    invalidated_refs candidate = invalidated_refs s1 /\
    match contract with
    | SExecutionReceipt receipt => exists env at_ s2, proof = Some (env, at_) /\
        apply_execution_receipt_transition (set_records s1 (records s ++ [contract])) receipt r env at_ = Ok s2 /\
        execution_reservations candidate = execution_reservations s2
    | _ => execution_reservations candidate = execution_reservations s1
    end.
Proof.
  unfold commit_candidate. intros H. apply bind_Ok in H as (s1 & H1 & H).
  apply bind_Ok in H as (s2 & H2 & [= <-]). exists s1. cbn.
  assert (match find_pointer (current_pointers s) r with
          | Some v => invalidate_dependents s v = Ok s1 | None => s1 = s end) as Hs1
    by (destruct (find_pointer _ _); [done|by injection H1]).
  assert (records s1 = records s /\ current_pointers s1 = current_pointers s) as [Hr Hp].
  { destruct (find_pointer _ _); [|by subst]. by apply invalidate_dependents_Ok in Hs1 as (? & _ & ->). }
  split; [done|].
  destruct contract as [c|c|c|c|c|receipt|c|c]; try (injection H2 as <-; cbn; rewrite Hr, Hp; done).
  apply bind_Ok in H2 as ([env at_] & Hpr%ok_or_Ok & H2). cbn in H2. rewrite Hr in H2. pose proof H2 as Happly.
  apply apply_receipt_Ok in H2 as (res & a & _ & _ & _ & ->). cbn. rewrite ?Hr, Hp. split_and!; try done.
  eexists env, at_, _. split_and!; [done|exact Happly|done].
Qed.

(** A lineage the store accepts is one the replay accepts. *)
Lemma replay_record_accepts s replayed contract r s1 :
  records replayed = records s -> current_pointers replayed = current_pointers s ->
  invalidated_refs replayed = invalidated_refs s -> names contract r ->
  check_lineage s contract r = Ok tt ->
  match find_pointer (current_pointers s) r with
  | Some v => invalidate_dependents s v = Ok s1
  | None => s1 = s
  end ->
  exists replayed', replay_record replayed contract = Ok replayed' /\
    records replayed' = records s ++ [contract] /\
    current_pointers replayed' = replace_pointer (current_pointers s) r /\
    invalidated_refs replayed' = invalidated_refs s1.
Proof.
  intros Hr Hp Hi Hn Hlin Hs1. unfold check_lineage in Hlin.
  destruct (find_pointer (current_pointers s) r) as [v|] eqn:Hf.
  - apply reject_Ok in Hlin as [Hrev Hlin]. apply bind_Ok in Hlin as (previous & Hprev%ok_or_Ok & Hlin).
    apply reject_Ok in Hlin as [Hctx%negb_false_iff _].
    apply negb_false_iff, andb_true_iff in Hrev as [Hrev Hpred]. apply andb_true_iff in Hrev as [_ Hrev].
    rewrite bool_decide_true_iff in Hpred. rewrite bool_decide_true_iff in Hrev.
    apply checked_succ_Some in Hrev as [Hlt Hrev].
    destruct (invalidate_dependents_agree s replayed v s1) as (t1 & Ht & Hr1 & Hp1 & Hi1); [done..|].
    pose proof Hs1 as Hs1'. apply invalidate_dependents_Ok in Hs1' as (inv & _ & Heq).
    eexists. split; [apply replay_record_Ok; exists r; split; [done|]; exists t1; rewrite Hp, Hf|].
    + split; [|reflexivity]. unfold revision. split_and!; try done.
      exists previous. by rewrite Hr.
    + cbn. rewrite <- Hr1, <- Hp1, <- Hi1, Heq. cbn. done.
  - apply reject_Ok in Hlin as [Hfirst _]. apply negb_false_iff, andb_true_iff in Hfirst as [Hrev Hpred].
    apply N.eqb_eq in Hrev. rewrite negb_true_iff, is_some_false in Hpred. subst s1.
    eexists. split; [apply replay_record_Ok; exists r; split; [done|]; exists replayed; rewrite Hp, Hf|].
    + by split.
    + cbn. by rewrite ?Hr, ?Hp, ?Hi.
Qed.

(** C33. A commit never produces a snapshot that its own replay check rejects: for
    an acceptable contract on a validated store, replaying the new history gives
    exactly the pointers and invalidations the commit computed in place. *)
Theorem commit_agrees_with_replay s contract r proof candidate :
  validate_snapshot s = Ok tt -> acceptable s contract r ->
  commit_candidate s contract r proof = Ok candidate ->
  exists replayed, replay_history (records candidate) = Ok replayed /\
    current_pointers replayed = current_pointers candidate /\
    invalidated_refs replayed = invalidated_refs candidate.
Proof.
  intros (replayed & Hrep & Hp & Hi)%validate_snapshot_Ok%so_replay Hacc
    (s1 & Hs1 & Hrec & Hptr & Hinv & _)%commit_candidate_Ok.
  pose proof (replay_history_ok _ _ Hrep) as [_ Hr].
  destruct (replay_record_accepts s replayed contract r s1) as (replayed' & Hrr & Hr' & Hp' & Hi');
    [done..|apply Hacc|apply Hacc|done|].
  exists replayed'. unfold replay_history. rewrite Hrec, replay_from_app.
  unfold replay_history in Hrep. rewrite Hrep. cbn. rewrite Hrr. cbn.
  by rewrite Hp', Hi', Hptr, Hinv.
Qed.

Lemma validated_replayed_ok s :
  validate_snapshot s = Ok tt -> exists replayed, replayed_ok replayed /\ records replayed = records s /\
    current_pointers replayed = current_pointers s /\ invalidated_refs replayed = invalidated_refs s.
Proof.
  intros (replayed & Hrep & Hp & Hi)%validate_snapshot_Ok%so_replay. exists replayed.
  by destruct (replay_history_ok _ _ Hrep).
Qed.

Lemma stored_true s r : stored s r = true <-> exists record, record ∈ records s /\ names record r.
Proof.
  unfold stored. rewrite existsb_true, Exists_exists. setoid_rewrite named_true. done.
Qed.

Lemma validated_pointer_stored s p :
  validate_snapshot s = Ok tt -> p ∈ current_pointers s -> stored s p = true.
Proof.
  intros (replayed & Hok & Hr & Hp & _)%validated_replayed_ok Hin. apply stored_true.
  rewrite <- Hr. apply (replayed_recorded replayed Hok). by rewrite Hp.
Qed.
End commits.

(** ** Attempts are never forgotten *)

Section attempts.
Context {C : Crates}.

(** [a'] is the same attempt as [a], in a later status. *)
Definition evolves (a a' : Attempt) : Prop :=
  exists status delivered dispatched receipt_ref envelope verified_at,
    a' = ExecutionAttemptRecordV1.update a status delivered dispatched receipt_ref envelope verified_at.

#[global] Instance evolves_refl : Reflexive evolves.
Proof. intros []. repeat eexists. Qed.
#[global] Instance evolves_trans : Transitive evolves.
Proof. intros a b c (? & ? & ? & ? & ? & ? & ->) (? & ? & ? & ? & ? & ? & ->). repeat eexists. Qed.

Lemma evolves_set_status st a : evolves a (set_status st a).
Proof. repeat eexists. Qed.

(** [r'] is the reservation [r] with later attempts. *)
Record prolongs (r r' : Reservation) : Prop := {
  pr_id : ExecutionReservationRecordV1.reservation_id r' = ExecutionReservationRecordV1.reservation_id r;
  pr_action : ExecutionReservationRecordV1.action_ref r' = ExecutionReservationRecordV1.action_ref r;
  pr_scope : scope_of r' = scope_of r;
  pr_attempts : exists kept new, ExecutionReservationRecordV1.attempts r' = kept ++ new /\
    Forall2 evolves (ExecutionReservationRecordV1.attempts r) kept;
}.

Lemma Forall2_refl {A} (P : A -> A -> Prop) `{!Reflexive P} l : Forall2 P l l.
Proof. induction l; constructor; done. Qed.

#[global] Instance prolongs_refl : Reflexive prolongs.
Proof.
  intros r. split; try done. exists (ExecutionReservationRecordV1.attempts r), [].
  rewrite app_nil_r. split; [done|apply Forall2_refl, _].
Qed.
#[global] Instance prolongs_trans : Transitive prolongs.
Proof.
  intros r1 r2 r3 [H1 H2 H3 (k & n & Hk & Hf)] [H4 H5 H6 (k' & n' & Hk' & Hf')].
  split; try congruence. rewrite Hk in Hf'. apply Forall2_app_inv_l in Hf' as (k1 & k2 & Hf1 & _ & ->).
  exists k1, (k2 ++ n'). rewrite Hk', <- app_assoc. split; [done|].
  eapply Forall2_trans; [|exact Hf|exact Hf1]. intros ? ? ?. apply evolves_trans.
Qed.

Lemma prolongs_set_attempts r attempts :
  Forall2 evolves (ExecutionReservationRecordV1.attempts r) attempts ->
  prolongs r (ExecutionReservationRecordV1.set_attempts r attempts).
Proof. intros H. split; try done. exists attempts, []. by rewrite app_nil_r. Qed.

Lemma prolongs_make_stale r : prolongs r (make_stale r).
Proof.
  apply prolongs_set_attempts, update_last_Forall2; [apply _|]. intros a _. apply evolves_set_status.
Qed.

(** The reservations of [s'] are those of [s], prolonged, and perhaps a new one. *)
Definition retains (s s' : StoreSnapshot.t) : Prop :=
  exists kept new, execution_reservations s' = kept ++ new /\
    Forall2 prolongs (execution_reservations s) kept.

Lemma retains_intro s s' :
  Forall2 prolongs (execution_reservations s) (execution_reservations s') -> retains s s'.
Proof. intros H. exists (execution_reservations s'), []. by rewrite app_nil_r. Qed.

#[global] Instance retains_trans : Transitive retains.
Proof.
  intros s1 s2 s3 (k & n & Hk & Hf) (k' & n' & Hk' & Hf'). unfold retains.
  rewrite Hk in Hf'. apply Forall2_app_inv_l in Hf' as (k1 & k2 & Hf1 & _ & ->).
  exists k1, (k2 ++ n'). rewrite Hk', <- app_assoc. split; [done|].
  eapply Forall2_trans; [|exact Hf|exact Hf1]. intros ? ? ?. apply prolongs_trans.
Qed.

Lemma invalidate_retains s v s' : invalidate_dependents s v = Ok s' -> retains s s'.
Proof.
  intros (inv & _ & ->)%invalidate_dependents_Ok. apply retains_intro. cbn.
  apply Forall2_map_self. intros r _. case_match; [apply prolongs_make_stale|done].
Qed.

Lemma receipt_retains s receipt ref env at_ s' :
  apply_execution_receipt_transition s receipt ref env at_ = Ok s' -> retains s s'.
Proof.
  intros (r & a & _ & _ & _ & ->)%apply_receipt_Ok. apply retains_intro. cbn.
  apply update_first_Forall2; [apply _|]. intros x _.
  apply prolongs_set_attempts, update_first_Forall2; [apply _|]. intros b _. repeat eexists.
Qed.

Lemma reserve_Ok rs action_ref scope attempt minted rs' id :
  reserve rs action_ref scope attempt minted = Ok (rs', id) ->
  (exists r previous, find_first (conflicts_with action_ref scope) rs = Some r /\
     ExecutionReservationRecordV1.action_ref r = action_ref /\ scope_of r = scope /\
     last (ExecutionReservationRecordV1.attempts r) = Some previous /\
     ExecutionReservationStatusV1.permits_retry (ExecutionAttemptRecordV1.status previous) = true /\
     ExecutionAttemptRecordV1.attempt attempt = ExecutionAttemptRecordV1.attempt previous + 1 /\
     id = ExecutionReservationRecordV1.reservation_id r /\
     rs' = update_first (conflicts_with action_ref scope)
             (fun r => ExecutionReservationRecordV1.set_attempts r
                         (ExecutionReservationRecordV1.attempts r ++ [attempt])) rs) \/
  (find_first (conflicts_with action_ref scope) rs = None /\
     ExecutionAttemptRecordV1.attempt attempt = 1 /\ id = minted /\
     exists r, rs' = rs ++ [r] /\ ExecutionReservationRecordV1.action_ref r = action_ref /\
       scope_of r = scope /\ ExecutionReservationRecordV1.reservation_id r = minted /\
       ExecutionReservationRecordV1.attempts r = [attempt]).
Proof.
  unfold reserve. destruct scope as [[tenant operation] key].
  destruct (find_first _ rs) as [r|] eqn:Hf; intros H.
  - left. apply reject_Ok in H as [Hm H]. rewrite orb_false_iff, !negb_false_iff, !bool_decide_true_iff in Hm.
    apply bind_Ok in H as (previous & Hlast%ok_or_Ok & H). apply reject_Ok in H as [Hretry%negb_false_iff H].
    apply bind_Ok in H as (n & Hn%ok_or_Ok & H). apply checked_succ_Some in Hn as [_ ->].
    apply reject_Ok in H as [Heq H]. apply negb_false_iff, N.eqb_eq in Heq. injection H as <- <-.
    exists r, previous. naive_solver.
  - right. apply reject_Ok in H as [Heq H]. apply negb_false_iff, N.eqb_eq in Heq. injection H as <- <-.
    split_and!; try done. eexists. split; [reflexivity|done].
Qed.

Lemma attempt_step_evolves current now a a' : attempt_step current now a a' -> evolves a a'.
Proof.
  intros [| |_ _|_ _|b _ _ _ Hadv|b _ _ _ Hadv]; try apply evolves_set_status;
    injection Hadv as <-; repeat eexists.
Qed.

Lemma change_retains s candidate : change s candidate -> retains s candidate.
Proof.
  intros [contract r proof cand _ Hcand|now v action minted rs id _ Hres|now r a f Hin Hlast Hstep].
  - apply commit_candidate_Ok in Hcand as (s1 & Hs1 & _ & _ & _ & Hcontract).
    assert (retains s s1) as H1.
    { destruct (find_pointer _ _); [by eapply invalidate_retains|]. subst. apply retains_intro, Forall2_refl, _. }
    destruct contract as [c|c|c|c|c|receipt|c|c];
      try (destruct H1 as (k & n & ? & ?); exists k, n; by rewrite Hcontract).
    destruct Hcontract as (env & at_ & s2 & _ & Happly & Heq). apply receipt_retains in Happly.
    assert (retains s s2) as (k & n & ? & ?) by (eapply (retains_trans s s1 s2); done).
    exists k, n. by rewrite Heq.
  - apply reserve_Ok in Hres as [(r & previous & _ & _ & _ & _ & _ & _ & _ & ->)|(_ & _ & _ & r & -> & _)].
    + apply retains_intro. cbn. apply update_first_Forall2; [apply _|]. intros x _. split; try done.
      exists (ExecutionReservationRecordV1.attempts x), [next_attempt v now]. split; [done|apply Forall2_refl, _].
    + exists (execution_reservations s), [r]. split; [done|apply Forall2_refl, _].
  - apply retains_intro. cbn. apply update_first_Forall2; [apply _|]. intros x Hx.
    assert (x = r) as -> by (unfold find_reservation in Hin; congruence).
    apply prolongs_set_attempts, update_last_Forall2; [apply _|]. intros b Hb.
    assert (b = a) as -> by congruence. by eapply attempt_step_evolves.
Qed.

Lemma store_step_retains s s' : store_step s s' -> retains s s'.
Proof.
  intros (candidate & Hc%change_retains & _ & _ & _ & _ & _ & Heq)%store_step_inv.
  destruct Hc as (k & n & ? & ?). exists k, n. by rewrite Heq.
Qed.

(** C34. What was spent stays spent: along any run of the store every attempt
    survives with its number, proof, nonce, authorization, request and time of
    consumption, in its reservation, which keeps its identifier, action and
    idempotency scope; only its status and the marks of delivery, dispatch and
    receipt can change, and later attempts are added behind it. *)
Theorem attempts_are_permanent s s' r i a :
  rtc store_step s s' -> r ∈ execution_reservations s ->
  ExecutionReservationRecordV1.attempts r !! i = Some a ->
  exists r' a', r' ∈ execution_reservations s' /\
    ExecutionReservationRecordV1.reservation_id r' = ExecutionReservationRecordV1.reservation_id r /\
    ExecutionReservationRecordV1.action_ref r' = ExecutionReservationRecordV1.action_ref r /\
    scope_of r' = scope_of r /\
    ExecutionReservationRecordV1.attempts r' !! i = Some a' /\ evolves a a'.
Proof.
  intros Hrun Hr Ha. assert (retains s s') as (kept & new & Heq & Hf).
  { clear Hr Ha. induction Hrun as [s|s1 s2 s3 H%store_step_retains _ IH]; [apply retains_intro, Forall2_refl, _|].
    by trans s2. }
  apply list_elem_of_lookup in Hr as [k Hk].
  destruct (Forall2_lookup_l _ _ _ _ _ Hf Hk) as (r' & Hk' & [Hid Hact Hsc (ak & an & Hak & Haf)]).
  destruct (Forall2_lookup_l _ _ _ _ _ Haf Ha) as (a' & Ha' & Hev).
  exists r', a'. split_and!; try done.
  - rewrite Heq, elem_of_app. left. by eapply list_elem_of_lookup_2.
  - rewrite Hak. by apply lookup_app_l_Some.
Qed.
End attempts.

(** ** What is no longer current *)

Section currency.
Context {C : Crates}.

Lemma is_current_true s p : is_current s p = true <-> p ∈ current_pointers s /\ p ∉ invalidated_refs s.
Proof. unfold is_current. by rewrite andb_true_iff, negb_true_iff, contains_true, contains_false. Qed.
Lemma is_current_false s p : is_current s p = false <-> p ∉ current_pointers s \/ p ∈ invalidated_refs s.
Proof. unfold is_current. by rewrite andb_false_iff, negb_false_iff, contains_true, contains_false. Qed.

Lemma check_dependency_Ok s d :
  check_dependency s d = Ok tt <->
  find_pointer (current_pointers s) d = Some d /\ d ∉ invalidated_refs s /\ stored s d = true.
Proof.
  unfold check_dependency. rewrite reject_Ok, !orb_false_iff, !negb_false_iff, contains_false.
  rewrite bool_decide_true_iff. tauto.
Qed.

Lemma dependency_current s d : check_dependency s d = Ok tt -> is_current s d = true.
Proof.
  intros (Hf%find_pointer_Some & Hi & _)%check_dependency_Ok. apply is_current_true. tauto.
Qed.

Lemma stored_grows s s' p contract :
  records s' = records s ++ [contract] -> stored s p = true -> stored s' p = true.
Proof. intros Hr (x & Hx & Hn)%stored_true. apply stored_true. exists x. by rewrite Hr, elem_of_app; auto. Qed.

(** The records and what is current only change by a commit. *)
Lemma change_keeps_history s candidate :
  change s candidate ->
  (records candidate = records s /\ current_pointers candidate = current_pointers s /\
     invalidated_refs candidate = invalidated_refs s) \/
  (exists contract r proof, acceptable s contract r /\ commit_candidate s contract r proof = Ok candidate /\
     records candidate = records s ++ [contract] /\
     current_pointers candidate = replace_pointer (current_pointers s) r /\
     (forall p, p ∈ invalidated_refs candidate <-> p ∈ invalidated_refs s \/
        exists v, find_pointer (current_pointers s) r = Some v /\
          tainted (records s) (current_pointers s) (invalidated_refs s) v p)).
Proof.
  intros [contract r proof cand Hacc Hcand|now v action minted rs id _ Hres|now r a f Hin Hlast Hstep];
    [right|by left|by left].
  exists contract, r, proof. split; [done|]. split; [done|].
  apply commit_candidate_Ok in Hcand as (s1 & Hs1 & Hr & Hp & Hi & _). split_and!; try done. intros p.
  rewrite Hi. destruct (find_pointer _ r) as [v|] eqn:Hf; [|subst; naive_solver].
  apply invalidate_dependents_Ok in Hs1 as (inv & Hinv & ->). cbn.
  rewrite elem_of_dedup, elem_of_sort, (propagate_from_Ok _ _ _ Hinv). naive_solver.
Qed.

(** A stored reference that is not current never becomes current again. *)
Lemma stale_forever s s' p :
  store_step s s' -> stored s p = true -> is_current s p = false ->
  stored s' p = true /\ is_current s' p = false.
Proof.
  intros (candidate & Hc & _ & _ & Hr & Hp & Hi & _)%store_step_inv Hst Hcur.
  apply change_keeps_history in Hc as [(Hr1 & Hp1 & Hi1)|(c & r & proof & Hacc & _ & Hr1 & Hp1 & Hi1)].
  - unfold stored, is_current. by rewrite Hr, Hp, Hi, Hr1, Hp1, Hi1.
  - split; [eapply stored_grows; [by rewrite Hr|done]|].
    rewrite is_current_false, Hp, Hi, Hp1, Hi1, elem_of_replace_pointer. rewrite is_current_false in Hcur.
    destruct Hcur as [Hnp|?]; [|auto]. left. intros [->|[? _]]; [|done].
    pose proof (ac_new _ _ _ Hacc). congruence.
Qed.

Lemma receipt_needs_current_action s receipt r :
  acceptable s (SExecutionReceipt receipt) r -> is_current s (ExecutionReceiptV1.action_ref receipt) = true.
Proof.
  intros [Hn _ _ Hd _]. apply dependency_current, Hd.
  apply snapshot_ref_validates in Hn as [Hv _]. by apply contains_true, receipt_depends_on_action.
Qed.

(** A validated reservation is the only one of its action. *)
Lemma same_action s r r' :
  snapshot_ok s -> r ∈ execution_reservations s -> r' ∈ execution_reservations s ->
  ExecutionReservationRecordV1.action_ref r = ExecutionReservationRecordV1.action_ref r' -> r = r'.
Proof.
  intros Hs Hr Hr' Heq. pose proof (find_key_NoDup _ _ _ (so_actions s Hs) Hr) as H.
  rewrite Heq, (find_key_NoDup _ _ _ (so_actions s Hs) Hr') in H. congruence.
Qed.

Lemma reservation_action_stored s r :
  snapshot_ok s -> r ∈ execution_reservations s ->
  stored s (ExecutionReservationRecordV1.action_ref r) = true.
Proof.
  intros Hs Hr. pose proof (so_reservations s Hs) as Hall. rewrite Forall_forall in Hall.
  destruct (Hall r Hr) as [(action & Hact & _) _]. apply find_first_Some in Hact as [Hin Hn%named_true].
  apply stored_true. eauto.
Qed.

(** The newest attempt of a reservation waits for reconciliation, and its action
    is no longer current. *)
Definition abandoned (s : StoreSnapshot.t) (id : Uuid) (a : Attempt) : Prop :=
  exists r, r ∈ execution_reservations s /\ ExecutionReservationRecordV1.reservation_id r = id /\
    last (ExecutionReservationRecordV1.attempts r) = Some a /\
    ExecutionAttemptRecordV1.status a = ExecutionReservationStatusV1.ReconciliationRequired /\
    is_current s (ExecutionReservationRecordV1.action_ref r) = false.

Lemma make_stale_abandoned r a :
  last (ExecutionReservationRecordV1.attempts r) = Some a ->
  ExecutionAttemptRecordV1.status a = ExecutionReservationStatusV1.ReconciliationRequired ->
  last (ExecutionReservationRecordV1.attempts (make_stale r)) = Some a.
Proof.
  intros Hl Hs. unfold make_stale. cbn. rewrite last_update_last, Hl. cbn. rewrite Hs. cbn.
  rewrite <- Hs. by destruct a.
Qed.

(** A reconciliation attempt was dispatched, so it is not cancelled. *)
Lemma reconciliation_dispatched s r a :
  snapshot_ok s -> r ∈ execution_reservations s ->
  last (ExecutionReservationRecordV1.attempts r) = Some a ->
  ExecutionAttemptRecordV1.status a = ExecutionReservationStatusV1.ReconciliationRequired ->
  ExecutionAttemptRecordV1.dispatched_at a <> None.
Proof.
  intros Hs Hr Hl Hst Hd. rewrite last_lookup in Hl.
  destruct (snapshot_attempt s r _ a Hs Hr Hl) as (action & _ & [_ _ Ht _ _]).
  unfold times_ordered, timing_is_valid in Ht. rewrite Hst, Hd in Ht. cbn in Ht.
  by rewrite andb_false_r in Ht.
Qed.

Lemma set_status_same a st : ExecutionAttemptRecordV1.status a = st -> set_status st a = a.
Proof. intros <-. by destruct a. Qed.

Lemma update_first_other {A} (p : A -> bool) (f : A -> A) l x :
  x ∈ l -> find_first p l <> Some x -> x ∈ update_first p f l.
Proof. intros Hx Hf. by destruct (elem_of_update_first p f l x Hx) as [?|[? _]]. Qed.

Lemma commit_keeps_abandoned s contract r proof candidate res a :
  acceptable s contract r -> commit_candidate s contract r proof = Ok candidate ->
  res ∈ execution_reservations s -> is_current s (ExecutionReservationRecordV1.action_ref res) = false ->
  last (ExecutionReservationRecordV1.attempts res) = Some a ->
  ExecutionAttemptRecordV1.status a = ExecutionReservationStatusV1.ReconciliationRequired ->
  exists res', res' ∈ execution_reservations candidate /\
    ExecutionReservationRecordV1.reservation_id res' = ExecutionReservationRecordV1.reservation_id res /\
    ExecutionReservationRecordV1.action_ref res' = ExecutionReservationRecordV1.action_ref res /\
    last (ExecutionReservationRecordV1.attempts res') = Some a.
Proof.
  intros Hacc (s1 & Hs1 & _ & _ & _ & Hcontract)%commit_candidate_Ok Hin Hcur Hl Hst.
  assert (exists res1, res1 ∈ execution_reservations s1 /\
    ExecutionReservationRecordV1.reservation_id res1 = ExecutionReservationRecordV1.reservation_id res /\
    ExecutionReservationRecordV1.action_ref res1 = ExecutionReservationRecordV1.action_ref res /\
    last (ExecutionReservationRecordV1.attempts res1) = Some a) as (res1 & Hin1 & Hid1 & Hact1 & Hl1).
  { destruct (find_pointer _ _) as [v|]; [|subst; eauto].
    apply invalidate_dependents_Ok in Hs1 as (inv & _ & ->). cbn. eexists. split.
    - rewrite list_elem_of_In. apply in_map, list_elem_of_In, Hin.
    - cbn beta. destruct (loses_action _ _ _); [|done]. split_and!; try done. by apply make_stale_abandoned. }
  exists res1. split; [|done]. destruct contract as [c|c|c|c|c|receipt|c|c]; try by rewrite Hcontract.
  destruct Hcontract as (env & at_ & s2 & _ & Happly & ->).
  apply apply_receipt_Ok in Happly as (_ & _ & _ & _ & _ & ->). cbn. apply update_first_other; [done|].
  intros [_ Heq]%find_key_Some. apply receipt_needs_current_action in Hacc. congruence.
Qed.

Lemma abandoned_step s s' id a :
  validate_snapshot s = Ok tt -> store_step s s' -> abandoned s id a -> abandoned s' id a.
Proof.
  intros Hv%validate_snapshot_Ok Hstep (r & Hin & Hid & Hl & Hst & Hcur).
  destruct (stale_forever s s' (ExecutionReservationRecordV1.action_ref r)) as [_ Hcur'];
    [done|by apply reservation_action_stored|done|].
  apply store_step_inv in Hstep as (candidate & Hc & _ & _ & _ & _ & _ & Hres).
  assert (exists r', r' ∈ execution_reservations candidate /\
    ExecutionReservationRecordV1.reservation_id r' = ExecutionReservationRecordV1.reservation_id r /\
    ExecutionReservationRecordV1.action_ref r' = ExecutionReservationRecordV1.action_ref r /\
    last (ExecutionReservationRecordV1.attempts r') = Some a) as (r' & Hin' & Hid' & Hact' & Hl').
  { destruct Hc as [contract ref proof cand Hacc Hcand|now v action minted rs i Hiss Hreserve|now q b f Hq Hb Hstep].
    - by eapply commit_keeps_abandoned.
    - exists r. split; [|done]. cbn.
      apply reserve_Ok in Hreserve as [(q & p & Hf & Hact & _ & _ & _ & _ & _ & ->)|(_ & _ & _ & q & -> & _)].
      + apply update_first_other; [done|]. intros Hr. assert (q = r) as -> by congruence.
        pose proof (is_action_current _ _ _ _ Hiss). congruence.
      + apply elem_of_app. by left.
    - cbn. destruct (elem_of_update_first
        (fun x => ExecutionReservationRecordV1.reservation_id x == ExecutionReservationRecordV1.reservation_id q)
        (fun x => ExecutionReservationRecordV1.set_attempts x (update_last f (ExecutionReservationRecordV1.attempts x)))
        (execution_reservations s) r Hin) as [?|[Hr Hin']]; [by exists r|].
      assert (q = r) as -> by (unfold find_reservation in Hq; congruence).
      assert (b = a) as -> by congruence.
      eexists. split; [exact Hin'|]. split_and!; try done. cbn. rewrite last_update_last, Hl. cbn. f_equal.
      rewrite Hcur in Hstep. pose proof (reconciliation_dispatched s r a Hv Hin Hl Hst) as Hdisp.
      inversion Hstep as [? ? Heq|? Hnd|Hno|? [Hs|Hs]|? Hno|? Hno]; try congruence.
      by apply set_status_same. }
  exists r'. rewrite Hres. split_and!; try done; [congruence|by rewrite Hact'].
Qed.

(** The store never settles an attempt that waits for reconciliation once its
    action was superseded or invalidated: along any run the attempt stays the
    newest of its reservation, in the same state, and its action stays out of
    date, because a receipt is accepted only for a current action. *)
Theorem superseded_reconciliation_never_settles s s' id a :
  validate_snapshot s = Ok tt -> rtc store_step s s' -> abandoned s id a -> abandoned s' id a.
Proof.
  intros Hv Hrun. induction Hrun as [s|s1 s2 s3 Hstep _ IH]; intros Hab; [done|].
  apply IH; [by destruct Hstep as (? & _ & _ & ?)|by eapply abandoned_step].
Qed.
End currency.
