(* ===== verification/StoreProps.v ===== *)
(** * StoreProps: what the operations of the contract store return

    The outcome of each operation on a store that loads: commits, permits, the
    transition of a dispatched attempt at the end of its lease, and the query for
    the current contract; and how commits keep what is current coherent. *)

From stdpp Require Import base list gmap sorting strings.
From Stdlib Require Import NArith Lia.
From S2P Require Import Prelude Text Json Crates Common Contract.
From S2P Require Import Intent Decision Turn Response Action Trust Execution Outcome HumanModel.
From S2P Require Import StoreData StoreReplay StoreValidate StoreDisk StoreOps StoreSteps StoreSafety.
Import StoreSnapshot.

Section outcomes.
Context {C : Crates} {R : Serde}.

(** ** Runs that return a value *)

Lemma pure_bind_Ok {A B} (r : Stored A) (f : A -> Io B) d d' y :
  (x ← pure r; f x) d = (d', Ok y) <-> exists x, r = Ok x /\ f x d = (d', Ok y).
Proof. unfold mbind, io_bind, pure. destruct r; naive_solver. Qed.

Lemma fail_if_Ok {B} b e (f : unit -> Io B) d d' y :
  (x ← fail_if b e; f x) d = (d', Ok y) <-> b = false /\ f tt d = (d', Ok y).
Proof. unfold fail_if. rewrite pure_bind_Ok. destruct b; naive_solver. Qed.

(** A write that succeeds seals, validates and persists the next snapshot. *)
Lemma write_bind_Ok {B} candidate s (f : StoreSnapshot.t -> Io B) d d' y :
  (x ← write_snapshot candidate s; f x) d = (d', Ok y) <->
  exists s' d1, seal_next_snapshot candidate s = Ok s' /\ validate_snapshot s' = Ok tt /\
    persist_snapshot s' d = (d1, Ok tt) /\ f s' d1 = (d', Ok y).
Proof.
  unfold write_snapshot, mbind at 1 2 3 4, io_bind, pure, mret, io_ret.
  split.
  - destruct (seal_next_snapshot candidate s) as [s'|]; [|done].
    destruct (validate_snapshot s') as [[]|] eqn:Hv; [|done].
    destruct (persist_snapshot s' d) as [d1 [[]|]] eqn:Hp; [|done]. intros H. by exists s', d1.
  - intros (s' & d1 & -> & -> & -> & H). done.
Qed.

(** [commit] on a store that loads: it never takes a receipt, and it returns
    either that the very contract is already stored, writing nothing, or that it
    was committed: then the contract was new, in its lineage's order, consistent
    with the stored contracts and resting only on current ones, and the next
    snapshot has it as its last record and as its contract's pointer, with exactly
    what rested on the superseded revision invalidated. *)
Theorem commit_outcome now contract d d1 s d' outcome :
  load_snapshot d = (d1, Ok s) -> commit now contract d = (d', Ok outcome) ->
  is_receipt contract = false /\ exists r, names contract r /\
    ((outcome = AlreadyCommitted r /\ stored s r = true /\ d' = d1) \/
     (outcome = Committed r /\ acceptable s contract r /\
      exists s', store_step s s' /\ persist_snapshot s' d1 = (d', Ok tt) /\
        records s' = records s ++ [contract] /\
        current_pointers s' = replace_pointer (current_pointers s) r /\
        forall p, p ∈ invalidated_refs s' <-> p ∈ invalidated_refs s \/
          exists v, find_pointer (current_pointers s) r = Some v /\
            tainted (records s) (current_pointers s) (invalidated_refs s) v p)).
Proof.
  intros Hl H. unfold commit, commit_internal in H. apply fail_if_Ok in H as [Hrec H]. split; [done|].
  apply fail_if_Ok in H as [_ H]. apply pure_bind_Ok in H as ([] & _ & H).
  apply pure_bind_Ok in H as (r & Hr%map_err_Ok & H). exists r. split; [done|].
  rewrite (load_bind _ _ _ _ Hl) in H.
  change (@mret Io io_ret unit tt) with (@pure unit (Ok tt)) in H.
  apply pure_bind_Ok in H as ([] & _ & H).
  destruct (stored s r) eqn:Hst.
  - injection H as <- <-. by left.
  - right. apply pure_bind_Ok in H as ([] & Hlin & H). apply pure_bind_Ok in H as ([] & Hdeps & H).
    apply pure_bind_Ok in H as ([] & Hx%map_err_Ok & H). apply pure_bind_Ok in H as (candidate & Hcand & H).
    apply write_bind_Ok in H as (s' & d2 & Hseal & Hv & Hp & [= <- <-]).
    assert (acceptable s contract r) as Hacc by (split; try done; by apply dependencies_checked).
    split_and!; try done. exists s'.
    assert (change s candidate) as Hc by by eapply change_commit.
    apply seal_next_snapshot_Ok in Hseal as Hs. destruct Hs as (_ & Hr1 & Hp1 & Hi1 & _).
    split_and!; [by exists candidate|done|..].
    all: apply commit_candidate_Ok in Hcand as (s1 & Hs1 & Hr2 & Hp2 & Hi2 & _); rewrite ?Hr1, ?Hp1, ?Hi1.
    all: try done.
    intros p. rewrite Hi2. destruct (find_pointer _ r) as [v|] eqn:Hf; [|subst; naive_solver].
    apply invalidate_dependents_Ok in Hs1 as (inv & Hinv & ->). cbn.
    rewrite elem_of_dedup, elem_of_sort, (propagate_from_Ok _ _ _ Hinv). naive_solver.
Qed.

(** Committing twice is committing once: a contract other than a receipt that
    the loaded store already holds is reported as such, and nothing is written. *)
Theorem commit_is_idempotent now contract d d1 s r :
  load_snapshot d = (d1, Ok s) -> is_receipt contract = false -> names contract r -> stored s r = true ->
  commit now contract d = (d1, Ok (AlreadyCommitted r)).
Proof.
  intros Hl Hrec Hn Hst. unfold commit, commit_internal, fail_if. rewrite Hrec.
  unfold mbind, io_bind, pure, mret, io_ret. cbn [is_some Bool.eqb negb].
  pose proof Hn as (Hv & _)%snapshot_ref_validates. unfold names in Hn.
  rewrite Hv, Hn. cbn. rewrite Hl. cbn. by rewrite Hst.
Qed.

(** ** Permits *)

Lemma find_first_update_first {A} (p : A -> bool) (f : A -> A) l x :
  find_first p l = Some x -> f x ∈ update_first p f l.
Proof.
  induction l as [|y l IH]; cbn; [done|]. destruct (p y); [intros [= ->]; left|].
  intros H. right. auto.
Qed.

Lemma reserve_opens rs action_ref scope attempt minted rs' id :
  reserve rs action_ref scope attempt minted = Ok (rs', id) ->
  exists r, r ∈ rs' /\ ExecutionReservationRecordV1.action_ref r = action_ref /\ scope_of r = scope /\
    ExecutionReservationRecordV1.reservation_id r = id /\
    last (ExecutionReservationRecordV1.attempts r) = Some attempt.
Proof.
  intros [(r & previous & Hf & Hact & Hsc & _ & _ & _ & -> & ->)|(_ & _ & -> & r & -> & Hact & Hsc & Hid & Hat)]%reserve_Ok.
  - eexists. split; [by apply find_first_update_first|]. cbn. split_and!; try done. by rewrite last_snoc.
  - exists r. rewrite elem_of_app, list_elem_of_singleton, Hat. auto.
Qed.

(** A permit is issued only for a current action with a request verified at
    the store's own time, whose proof, nonce and authorization no attempt has
    used; the action's reservation then has the new attempt as its newest, numbered
    one after the earlier ones, all of which ended in a retryable status: no two
    attempts of an action are ever open together. *)
Theorem permit_opens_the_only_open_attempt now minted v d d1 s d' permit :
  load_snapshot d = (d1, Ok s) -> issue_execution_permit now minted v d = (d', Ok permit) ->
  exists t action s' r, now = Ok t /\ issuable s t v action /\
    store_step s s' /\ persist_snapshot s' d1 = (d', Ok tt) /\
    ExecutionPermitV1.request permit = VerifiedExecutionPermitRequestV1.request v /\
    ExecutionPermitV1.reservation_id permit = ExecutionReservationRecordV1.reservation_id r /\
    r ∈ execution_reservations s' /\
    ExecutionReservationRecordV1.action_ref r
      = ExecutionPermitRequestV1.action_ref (VerifiedExecutionPermitRequestV1.request v) /\
    last (ExecutionReservationRecordV1.attempts r) = Some (next_attempt v t) /\
    N.of_nat (length (ExecutionReservationRecordV1.attempts r))
      = ExecutionPermitRequestV1.attempt (VerifiedExecutionPermitRequestV1.request v) /\
    forall i a, ExecutionReservationRecordV1.attempts r !! i = Some a ->
      (S i < length (ExecutionReservationRecordV1.attempts r))%nat ->
      ExecutionReservationStatusV1.permits_retry (ExecutionAttemptRecordV1.status a) = true.
Proof.
  intros Hl H. unfold issue_execution_permit in H. rewrite (load_bind _ _ _ _ Hl) in H.
  apply pure_bind_Ok in H as (t & Ht & H). apply fail_if_Ok in H as [Hcur%negb_false_iff H].
  apply pure_bind_Ok in H as (action & Hact%ok_or_Ok & H). apply pure_bind_Ok in H as ([] & Hv%map_err_Ok & H).
  apply fail_if_Ok in H as [Hp H]. apply fail_if_Ok in H as [Ha H].
  apply pure_bind_Ok in H as ([rs id] & Hres & H).
  apply write_bind_Ok in H as (s' & d2 & Hseal & Hval & Hpers & [= <- <-]).
  assert (issuable s t v action) as Hiss by by split.
  destruct (reserve_opens _ _ _ _ _ _ _ Hres) as (r & Hr & Hact' & _ & Hid & Hlast).
  assert (r ∈ execution_reservations s') as Hr'
    by (by apply seal_next_snapshot_Ok in Hseal as (_ & _ & _ & _ & ->)).
  exists t, action, s', r. cbn. pose proof (validate_snapshot_Ok _ Hval) as Hok.
  split_and!; try done.
  - eexists. split; [by eapply change_issue|done].
  - rewrite last_lookup in Hlast. destruct (snapshot_attempt _ _ _ _ Hok Hr' Hlast) as (? & _ & [_ Hm _ _ _]).
    unfold attempt_mismatch in Hm. rewrite !orb_false_iff, negb_false_iff, N.eqb_eq in Hm.
    destruct_and!. match goal with He : _ = N.of_nat _ + 1 |- _ => cbn in He; rewrite He end.
    destruct (ExecutionReservationRecordV1.attempts r); [done|]. cbn [length Init.Nat.pred]. lia.
  - intros i a Hi Hlt. destruct (snapshot_attempt _ _ _ _ Hok Hr' Hi) as (? & _ & [_ _ _ _ Hretry]).
    apply Hretry, Nat.eqb_neq. lia.
Qed.

(** ** Receipts *)

Lemma receipt_proof_checked receipt env at_ t :
  validate_receipt_proof_at receipt env at_ t = Ok tt ->
  ProofClaimsV1.proof_kind (SignedProofEnvelopeV1.claims env) = PProviderExecutionReceipt /\
  ProofClaimsV1.issuer_ref (SignedProofEnvelopeV1.claims env) = ExecutionReceiptV1.provider_ref receipt /\
  (exists r, ExecutionReceiptV1.record_ref receipt = Ok r /\
     ProofClaimsV1.subject_digest (SignedProofEnvelopeV1.claims env) = HumanCenteredContractRefV1.record_digest r) /\
  ProofClaimsV1.nonce (SignedProofEnvelopeV1.claims env) = ExecutionReceiptV1.dispatch_nonce receipt /\
  ExecutionReceiptV1.completed_at receipt <= ProofClaimsV1.issued_at (SignedProofEnvelopeV1.claims env)
    <= at_ /\ at_ <= t < ProofClaimsV1.expires_at (SignedProofEnvelopeV1.claims env).
Proof.
  unfold validate_receipt_proof_at. intros H. apply bind_unit_Ok in H as [_ H]. apply bind_unit_Ok in H as [_ H].
  apply bind_Ok in H as (expected & _ & H). apply reject_Ok in H as [H1 H].
  apply bind_Ok in H as (subject & _ & H). apply reject_Ok in H as [_ H].
  apply bind_Ok in H as (r & Hr%map_err_Ok & H). apply reject_Ok in H as [H2 _].
  rewrite !orb_false_iff, !negb_false_iff, !bool_decide_true_iff in H1.
  rewrite !orb_false_iff, !negb_false_iff, !bool_decide_true_iff, !N.ltb_ge, !N.leb_gt in H2.
  destruct_and!. split_and!; try done. by exists r.
Qed.

(** [commit_execution_receipt] settles exactly one open attempt: when it
    commits, the provider's proof of this very receipt was valid at the store's
    time, the receipt's action is current, and of that action's reservation the
    attempt the receipt's permit opened, which was dispatched and waiting, now has
    the receipt's status, reference and proof. *)
Theorem receipt_settles_its_attempt now v d d1 s d' r :
  load_snapshot d = (d1, Ok s) -> commit_execution_receipt now v d = (d', Ok (Committed r)) ->
  let '(receipt, env, at_) := VerifiedExecutionReceiptV1.into_parts v in
  names (SExecutionReceipt receipt) r /\
  (exists t, now = Ok t /\ validate_receipt_proof_at receipt env at_ t = Ok tt) /\
  is_current s (ExecutionReceiptV1.action_ref receipt) = true /\
  exists s' res a, store_step s s' /\ persist_snapshot s' d1 = (d', Ok tt) /\
    res ∈ execution_reservations s' /\
    ExecutionReservationRecordV1.action_ref res = ExecutionReceiptV1.action_ref receipt /\
    settle_attempt receipt r env at_ a ∈ ExecutionReservationRecordV1.attempts res /\
    awaits_receipt (ExecutionAttemptRecordV1.status a) = true /\
    ExecutionAttemptRecordV1.permit_id a = ExecutionReceiptV1.permit_id receipt.
Proof.
  intros Hl H. unfold commit_execution_receipt in H.
  destruct (VerifiedExecutionReceiptV1.into_parts v) as [[receipt env] at_]. unfold commit_internal in H.
  apply fail_if_Ok in H as [_ H]. apply pure_bind_Ok in H as ([] & _ & H).
  apply pure_bind_Ok in H as (r' & Hr%map_err_Ok & H). rewrite (load_bind _ _ _ _ Hl) in H.
  assert (exists t, now = Ok t /\ validate_receipt_proof_at receipt env at_ t = Ok tt) as Hproof.
  { unfold mbind, io_bind, pure in H. destruct now as [t|]; [|done]. exists t. split; [done|].
    by destruct (validate_receipt_proof_at receipt env at_ t) as [[]|]. }
  destruct Hproof as (t & -> & Hproof).
  assert ((trusted_now ← pure (Ok t); pure (validate_receipt_proof_at receipt env at_ trusted_now))
          = pure (Ok tt)) as Heq by (unfold mbind, io_bind, pure; by rewrite Hproof).
  rewrite Heq in H. apply pure_bind_Ok in H as ([] & _ & H).
  destruct (stored s r') eqn:Hst; [done|].
  apply pure_bind_Ok in H as ([] & Hlin & H). apply pure_bind_Ok in H as ([] & Hdeps & H).
  apply pure_bind_Ok in H as ([] & Hx%map_err_Ok & H). apply pure_bind_Ok in H as (candidate & Hcand & H).
  apply write_bind_Ok in H as (s' & d2 & Hseal & Hv & Hp & [= <- <-]).
  assert (acceptable s (SExecutionReceipt receipt) r') as Hacc by (split; try done; by apply dependencies_checked).
  split; [done|]. split; [by exists t|]. split; [by eapply receipt_needs_current_action|].
  pose proof Hcand as (s1 & Hs1 & _ & _ & _ & env' & at' & s2 & [= <- <-] & Happly & Hres)%commit_candidate_Ok.
  apply apply_receipt_Ok in Happly as (res & a & Hf & Hfa & Haw & ->).
  assert (store_step s s') as Hstep by (exists candidate; split_and!; [by eapply change_commit|done..]).
  apply seal_next_snapshot_Ok in Hseal as (_ & _ & _ & _ & Hres').
  eexists s', _, a. split_and!; [done..|rewrite Hres', Hres; cbn; by apply find_first_update_first| | | |].
  - cbn. by apply find_key_Some in Hf as [_ ?].
  - cbn. by apply find_first_update_first.
  - done.
  - by apply find_key_Some in Hfa as [_ ?].
Qed.
End outcomes.
