(* ===== verification/StoreSample.v ===== *)
(** * StoreSample: concrete runs of the contract store

    An action committed, its permit delivered, dispatched, lapsed and issued again
    on the toy instance of the crates, and a revision that rests on what it
    invalidates. *)

From stdpp Require Import base list gmap sorting strings.
From Stdlib Require Import NArith Lia.
From S2P Require Import Prelude Text Json Crates Common Contract.
From S2P Require Import Intent Decision Turn Response Action Trust Execution Outcome HumanModel.
From S2P Require Import StoreData StoreReplay StoreValidate StoreDisk StoreOps StoreSteps StoreSafety StoreProps.
Import StoreSnapshot.

Module StoreSample.
Import Toy.

(** An action of its own, without a decision. *)
Definition action : ActionContractV1.t :=
  Eval vm_compute in match ActionContractV1.issue (Sample.metadata KAction 13 []) None
    (Sample.reference "operation:book") (Obj [(txt "room", Str (txt "A"))]) [] [] Pending ImpactLevelV1.Low
    true (txt "key-1") [txt "booking confirmed"] [Sample.reference "operation:cancel"] with
  | Ok c => c | Err _ => ActionSample.contract end.
Definition no_ref : ContractRef := Sample.ref KAction 1.
Definition action_ref : ContractRef :=
  Eval vm_compute in match ActionContractV1.record_ref action with Ok r => r | Err _ => no_ref end.

Definition authorization (n issued expires : N) : ExactActionAuthorizationV1.t :=
  match ExactActionAuthorizationV1.issue (Toy.uuid n) action (Sample.reference "actor:1") Approve
          (Sample.reference "scope:1") issued expires with
  | Ok a => a | Err _ => ActionSample.authorization end.
Definition request (n attempt issued until : N) (nonce : text) (a : ExactActionAuthorizationV1.t) :
    ExecutionPermitRequestV1.t :=
  match ExecutionPermitRequestV1.new (Toy.uuid n) action a (Sample.reference "provider:1")
          (Sample.reference "owner:1") attempt issued until nonce with
  | Ok r => r | Err _ => ExecutionSample.no_request end.
(** The verified request of an attempt: authorization, request and proof. *)
Definition verified (n attempt issued until : N) (nonce : text) : VerifiedExecutionPermitRequestV1.t :=
  let a := authorization (n + 1) issued (until + 50) in
  let r := request (n + 2) attempt issued until nonce a in
  let claims := ProofClaimsV1.mk (Toy.uuid (n + 3)) PExecutionPermit (Sample.reference "issuer:1")
    (ExecutionPermitRequestV1.request_ref r) (ExecutionPermitRequestV1.request_digest r)
    (Sample.reference "tenant:1") (Sample.reference "scope:1") (Sample.reference "purpose:1")
    (Sample.reference "policy:1") issued (until + 50) nonce HUMAN_CENTERED_SCHEMA_VERSION in
  VerifiedExecutionPermitRequestV1.mk r a
    (VerifiedProofV1.mk (SignedProofEnvelopeV1.mk claims (Sample.reference "key:1")
       (encode_hex (be_bytes 64 5))) (issued + 1)).
Definition first_request : VerifiedExecutionPermitRequestV1.t :=
  Eval vm_compute in verified 100 1 100 200 (encode_hex (be_bytes 32 9)).
Definition second_request : VerifiedExecutionPermitRequestV1.t :=
  Eval vm_compute in verified 110 2 300 400 (encode_hex (be_bytes 32 10)).

Lemma requests_verified :
  VerifiedExecutionPermitRequestV1.validate_at (C:=Toy.crates) first_request action 110 = Ok tt /\
  VerifiedExecutionPermitRequestV1.validate_at (C:=Toy.crates) second_request action 310 = Ok tt.
Proof. split; vm_compute; reflexivity. Qed.

(** One step on snapshots: a candidate, sealed. *)
Definition seal_or_stay (candidate : Stored StoreSnapshot.t) (s : StoreSnapshot.t) : StoreSnapshot.t :=
  match (c ← candidate; seal_next_snapshot c s) with Ok s' => s' | Err _ => s end.
Definition s1 : StoreSnapshot.t :=
  Eval vm_compute in seal_or_stay (commit_candidate StoreSnapshot.default (SAction action) action_ref None)
    StoreSnapshot.default.
Lemma s1_valid : validate_snapshot (C:=Toy.crates) s1 = Ok tt.
Proof. vm_compute. reflexivity. Qed.

Definition reservation_id : Uuid := Toy.uuid 200.
Definition issue_step (t : N) (v : VerifiedExecutionPermitRequestV1.t) (s : StoreSnapshot.t) : StoreSnapshot.t :=
  seal_or_stay ('(rs, _) ← reserve (execution_reservations s) action_ref (action_scope action)
                             (next_attempt v t) reservation_id;
                Ok (set_reservations s rs)) s.
Definition attempt_change (f : Attempt -> Attempt) (s : StoreSnapshot.t) : StoreSnapshot.t :=
  seal_or_stay (Ok (update_attempt reservation_id f s)) s.
Definition advance_to (st : ExecutionReservationStatusV1.t) (t : N) (a : Attempt) : Attempt :=
  match advance st t a with Ok a' => a' | Err _ => a end.

Definition s2 : StoreSnapshot.t := Eval vm_compute in issue_step 110 first_request s1.
Definition s3 : StoreSnapshot.t :=
  Eval vm_compute in attempt_change (advance_to ExecutionReservationStatusV1.Delivered 120) s2.
Definition s4 : StoreSnapshot.t :=
  Eval vm_compute in attempt_change (advance_to ExecutionReservationStatusV1.Dispatched 130) s3.
Definition s5 : StoreSnapshot.t :=
  Eval vm_compute in attempt_change (set_status ExecutionReservationStatusV1.Expired) s4.
Definition s6 : StoreSnapshot.t := Eval vm_compute in issue_step 310 second_request s5.
Definition s7 : StoreSnapshot.t :=
  Eval vm_compute in attempt_change (advance_to ExecutionReservationStatusV1.Delivered 320) s6.
Definition s8 : StoreSnapshot.t :=
  Eval vm_compute in attempt_change (advance_to ExecutionReservationStatusV1.Dispatched 330) s7.

(** Deserializers that know these snapshots and their anchors. *)
Definition known : list StoreSnapshot.t := [s1; s2; s3; s4; s5; s6; s7; s8].
Definition known_files : list (option (list N) * StoreSnapshot.t) :=
  Eval vm_compute in map (fun s => (json_to_vec (snapshot_json s), s)) known.
Definition known_lines : list (option (list N) * StoreAnchorRecordV1.t) :=
  Eval vm_compute in map (fun s => (json_to_vec (Json.to_json (anchor_of s)), anchor_of s)) known.
#[global] Instance serde : Serde := {|
  to_vec_pretty := json_to_vec;
  snapshot_from_slice bytes := snd <$> find_first (fun p => p.1 == Some bytes) known_files;
  anchor_from_slice bytes := snd <$> find_first (fun p => p.1 == Some bytes) known_lines;
|}.

Definition empty_disk : Disk := mkDisk None None.
Definition permit (v : VerifiedExecutionPermitRequestV1.t) (t : N) : ExecutionPermitV1.t :=
  let proof := VerifiedExecutionPermitRequestV1.verified_proof v in
  ExecutionPermitV1.mk reservation_id (ProofClaimsV1.proof_id (VerifiedProofV1.claims proof))
    (SignedProofEnvelopeV1.key_id (VerifiedProofV1.envelope proof)) (VerifiedProofV1.verified_at proof) t
    (VerifiedExecutionPermitRequestV1.request v).

(** The calls, each with the time the trusted clock shows. *)
Definition calls : list operation :=
  [OpCommit (Ok 100) (SAction action); OpIssue (Ok 110) reservation_id first_request;
   OpDelivered (Ok 120) (permit first_request 110); OpDispatched (Ok 130) (permit first_request 110);
   OpDispatched (Ok 210) (permit first_request 110); OpIssue (Ok 310) reservation_id second_request;
   OpDelivered (Ok 320) (permit second_request 310); OpDispatched (Ok 330) (permit second_request 310)].
Definition play (os : list operation) (d : Disk) : Disk := fold_left (fun d o => run o d) os d.
End StoreSample.

(** The store lets one action be dispatched twice without knowing what the
    first dispatch did: there is a run of its operations that ends with two
    attempts of one action, both dispatched and neither with a receipt; the first
    became retryable when it was marked as dispatched again after its lease. *)
Theorem second_dispatch_without_reconciliation :
  exists (os : list operation) (d : Disk) (s : StoreSnapshot.t) r a1 a2,
    d = StoreSample.play os StoreSample.empty_disk /\
    load_snapshot (C:=Toy.crates) (R:=StoreSample.serde) d = (d, Ok s) /\
    execution_reservations s = [r] /\ ExecutionReservationRecordV1.attempts r = [a1; a2] /\
    ExecutionAttemptRecordV1.dispatched_at a1 <> None /\ ExecutionAttemptRecordV1.receipt_ref a1 = None /\
    ExecutionAttemptRecordV1.dispatched_at a2 <> None /\
    ExecutionAttemptRecordV1.status a2 = ExecutionReservationStatusV1.Dispatched.
Proof.
  exists StoreSample.calls, (StoreSample.play StoreSample.calls StoreSample.empty_disk), StoreSample.s8.
  do 3 eexists. split; [reflexivity|]. split; [vm_compute; reflexivity|].
  split; [reflexivity|]. split; [reflexivity|]. split_and!; try done.
Qed.
