(* ===== verification/StoreExamples.v ===== *)
(** * StoreExamples: the store's theorems on concrete values

    Small histories on the toy crates: an intent, a decision that rests on it and a
    revision of the intent; a dispatched attempt with its receipt; a dispatched
    action that is superseded.  Each theorem of the store is applied to one. *)

From stdpp Require Import base list gmap sorting strings relations.
From Stdlib Require Import NArith Lia.
From S2P Require Import Prelude Text Json Crates Common Contract.
From S2P Require Import Intent Decision Turn Response Action Trust Execution Outcome HumanModel.
From S2P Require Import StoreData StoreReplay StoreValidate StoreDisk StoreOps StoreSteps StoreSafety StoreProps StoreSample.
Import StoreSnapshot.

Module StoreExamples.
Import Toy StoreSample.

(** ** An intent, a decision on it, and the intent's second revision *)

Definition intent_ref : ContractRef := IntentSample.reference.
Definition intent : HumanCenteredContractSnapshotV1 := SIntent IntentSample.contract.
Definition decision_contract : DecisionContractV1.t :=
  Eval vm_compute in match DecisionContractV1.issue (Sample.metadata KDecision 11 [intent_ref]) intent_ref
    (txt "subject") UserDecided (txt "objective") [] [DecisionSample.criterion 4000; DecisionSample.criterion 6000]
    [DecisionSample.option "option:a"; DecisionSample.option "option:b"] [] [] [] [] None
    (Some (Sample.reference "option:a")) []
    (DecisionAuthorizationBoundaryV1.mk ImpactLevelV1.Medium true [] []) with
  | Ok c => c | Err _ => DecisionSample.contract end.
Definition decision : HumanCenteredContractSnapshotV1 := SDecision decision_contract.
Definition ref_of (c : HumanCenteredContractSnapshotV1) : ContractRef :=
  match ContractSnapshot.record_ref c with Ok r => r | Err _ => no_ref end.
Definition decision_ref : ContractRef := Eval vm_compute in ref_of decision.
Definition second_metadata : Metadata :=
  HumanCenteredContractMetadataV1.mk KIntent (Toy.uuid 10) (Toy.uuid 2) (Toy.uuid 3) 2 (Some intent_ref)
    Sample.context [] [] (Sample.reference "policy:1") 1000 HUMAN_CENTERED_SCHEMA_VERSION.
Definition second_intent : HumanCenteredContractSnapshotV1 :=
  Eval vm_compute in SIntent (match IntentContractV1.issue second_metadata (Sample.reference "stated:2")
    [IntentSample.ranked "hypothesis:a" 1] [IntentSample.ranked "hypothesis:a" 1]
    (Sample.reference "hypothesis:a") (UnitIntervalBasisPointsV1.mk 8000) false false []
    DeterministicFastPath with
  | Ok c => c | Err _ => IntentSample.contract end).
Definition second_intent_ref : ContractRef := Eval vm_compute in ref_of second_intent.

Definition commit_step (c : HumanCenteredContractSnapshotV1) (r : ContractRef) (s : StoreSnapshot.t) : StoreSnapshot.t :=
  seal_or_stay (commit_candidate s c r None) s.
Definition h1 : StoreSnapshot.t := Eval vm_compute in commit_step intent intent_ref StoreSnapshot.default.
Definition h2 : StoreSnapshot.t := Eval vm_compute in commit_step decision decision_ref h1.
Definition h3 : StoreSnapshot.t := Eval vm_compute in commit_step second_intent second_intent_ref h2.

Lemma h2_valid : validate_snapshot (C:=Toy.crates) h2 = Ok tt.
Proof. vm_compute. reflexivity. Qed.
Lemma h3_valid : validate_snapshot (C:=Toy.crates) h3 = Ok tt.
Proof. vm_compute. reflexivity. Qed.
Lemma h3_replayed : exists s, replay_history (C:=Toy.crates) (records h3) = Ok s /\
  current_pointers s = current_pointers h3 /\ invalidated_refs s = [decision_ref].
Proof. eexists. split; [vm_compute; reflexivity|]. split; vm_compute; reflexivity. Qed.

(** ** A receipt for the dispatched attempt of [s4] *)

Definition receipt : ExecutionReceiptV1.t :=
  Eval vm_compute in match ExecutionReceiptV1.issue (Toy.uuid 62)
    (Sample.metadata KExecutionReceipt 15 [action_ref]) action (Toy.uuid 103) (Toy.uuid 101)
    (Sample.reference "provider:1") (Sample.reference "owner:1") (encode_hex (be_bytes 32 9)) None 1 140 150
    ESucceeded (Some (Obj [(txt "code", Str (txt "42"))])) [txt "room booked"] [txt "confirmed"] [] with
  | Ok c => c | Err _ => ExecutionSample.no_receipt end.
Definition receipt_ref : ContractRef := Eval vm_compute in ref_of (SExecutionReceipt receipt).
Definition verified_receipt : VerifiedExecutionReceiptV1.t :=
  Eval vm_compute in
  let subject := match ExecutionReceiptV1.proof_subject_ref receipt with
                 | Ok r => r | Err _ => Sample.reference "" end in
  let claims := ProofClaimsV1.mk (Toy.uuid 63) PProviderExecutionReceipt (Sample.reference "provider:1")
    subject (ExecutionReceiptV1.record_digest receipt) (Sample.reference "tenant:1")
    (Sample.reference "scope:1") (Sample.reference "purpose:1") (Sample.reference "policy:1") 150 400
    (encode_hex (be_bytes 32 9)) HUMAN_CENTERED_SCHEMA_VERSION in
  VerifiedExecutionReceiptV1.mk receipt
    (VerifiedProofV1.mk (SignedProofEnvelopeV1.mk claims (Sample.reference "provider-key:1")
       (encode_hex (be_bytes 64 6))) 160).

(** The disks after the first calls of the sample run. *)
Definition after (n : nat) : Disk := play (take n calls) empty_disk.
Definition d0 : Disk := empty_disk.
Definition d1 : Disk := Eval vm_compute in after 1.
Definition d2 : Disk := Eval vm_compute in after 2.
Definition d4 : Disk := Eval vm_compute in after 4.
Definition d5 : Disk :=
  Eval vm_compute in (commit_execution_receipt (C:=Toy.crates) (Ok 170) verified_receipt d4).1.
Lemma d0_loads : load_snapshot (C:=Toy.crates) d0 = (d0, Ok StoreSnapshot.default).
Proof. vm_compute. reflexivity. Qed.
Lemma d1_loads : load_snapshot (C:=Toy.crates) d1 = (d1, Ok s1).
Proof. vm_compute. reflexivity. Qed.
Lemma d4_loads : load_snapshot (C:=Toy.crates) d4 = (d4, Ok s4).
Proof. vm_compute. reflexivity. Qed.

(** ** The dispatched action of [s4] is superseded *)

Definition second_action : HumanCenteredContractSnapshotV1 :=
  Eval vm_compute in SAction (match ActionContractV1.issue
    (HumanCenteredContractMetadataV1.mk KAction (Toy.uuid 13) (Toy.uuid 2) (Toy.uuid 3) 2 (Some action_ref)
       Sample.context [] [] (Sample.reference "policy:1") 1000 HUMAN_CENTERED_SCHEMA_VERSION) None
    (Sample.reference "operation:book") (Obj [(txt "room", Str (txt "B"))]) [] [] Pending ImpactLevelV1.Low
    true (txt "key-2") [txt "booking confirmed"] [Sample.reference "operation:cancel"] with
  | Ok c => c | Err _ => action end).
Definition second_action_ref : ContractRef := Eval vm_compute in ref_of second_action.
Definition a5 : StoreSnapshot.t := Eval vm_compute in commit_step second_action second_action_ref s4.
Definition a6 : StoreSnapshot.t := Eval vm_compute in commit_step intent intent_ref a5.
Lemma a5_valid : validate_snapshot (C:=Toy.crates) a5 = Ok tt.
Proof. vm_compute. reflexivity. Qed.

(** A commit, from the checks the operation makes. *)
Lemma committed {C : Crates} s c r candidate s' :
  ContractSnapshot.record_ref c = Ok r -> stored s r = false -> check_lineage s c r = Ok tt ->
  for_each (check_dependency s)
    (HumanCenteredContractMetadataV1.dependency_refs (ContractSnapshot.metadata c)) = Ok tt ->
  validate_cross_object_consistency (records s) (execution_reservations s) c = Ok tt ->
  commit_candidate s c r None = Ok candidate -> seal_next_snapshot candidate s = Ok s' ->
  validate_snapshot s' = Ok tt -> store_step s s'.
Proof.
  intros Hr Hn Hl Hd Hc Hcand Hs Hv. exists candidate. split; [|done].
  apply (change_commit s c r None candidate); [|done]. split; try done. by apply dependencies_checked.
Qed.

Lemma intent_committed : store_step (C:=Toy.crates) a5 a6.
Proof.
  apply (committed a5 intent intent_ref
    (match commit_candidate (C:=Toy.crates) a5 intent intent_ref None with Ok c => c | Err _ => a5 end));
    vm_compute; reflexivity.
Qed.
Lemma action_committed : store_step (C:=Toy.crates) StoreSnapshot.default s1.
Proof.
  apply (committed StoreSnapshot.default (SAction action) action_ref
    (match commit_candidate (C:=Toy.crates) StoreSnapshot.default (SAction action) action_ref None with
     | Ok c => c | Err _ => a5 end)); vm_compute; reflexivity.
Qed.

Definition dispatched_attempt : Attempt :=
  Eval vm_compute in match execution_reservations a5 with
  | r :: _ => match ExecutionReservationRecordV1.attempts r with a :: _ => a | [] => next_attempt first_request 0 end
  | [] => next_attempt first_request 0 end.
Lemma attempt_abandoned : abandoned a5 reservation_id dispatched_attempt.
Proof.
  eexists. split; [apply list_elem_of_singleton; reflexivity|]. split_and!; vm_compute; reflexivity.
Qed.
End StoreExamples.
Import StoreSample StoreExamples.

(** ** Replay and invalidation *)

Lemma replay_keeps_the_latest_witness :
  exists s, replay_history (C:=Toy.crates) (records h3) = Ok s /\
    second_intent_ref ∈ current_pointers s /\ StronglySorted ord_le (current_pointers s).
Proof.
  destruct h3_replayed as (s & Hs & Hp & _). exists s. split; [exact Hs|].
  destruct (replay_keeps_the_latest (C:=Toy.crates) _ s Hs) as (_ & Hsorted & _ & _).
  split; [|exact Hsorted]. rewrite Hp. apply list_elem_of_In. vm_compute. auto.
Defined.

Lemma invalidation_is_exact_witness :
  exists s', invalidate_dependents (C:=Toy.crates) h2 intent_ref = Ok s' /\
    decision_ref ∈ invalidated_refs s' /\
    (decision_ref ∈ invalidated_refs h2 \/
     tainted (C:=Toy.crates) (records h2) (current_pointers h2) (invalidated_refs h2) intent_ref decision_ref).
Proof.
  destruct (invalidate_dependents (C:=Toy.crates) h2 intent_ref) as [s'|e] eqn:H; [|vm_compute in H; discriminate H].
  exists s'. split; [reflexivity|].
  destruct (invalidation_is_exact (C:=Toy.crates) h2 intent_ref s' H) as (_ & _ & Hinv & _).
  assert (decision_ref ∈ invalidated_refs s') as Hin.
  { vm_compute in H. injection H as <-. apply list_elem_of_In. vm_compute. auto. }
  split; [exact Hin|]. apply Hinv, Hin.
Defined.

Lemma invalidation_terminates_witness :
  exists s', invalidate_dependents (C:=Toy.crates) h2 intent_ref = Ok s'.
Proof. apply (invalidation_terminates (C:=Toy.crates) h2). repeat constructor; vm_compute; reflexivity. Defined.

(** ** Validated snapshots *)

Lemma validated_snapshot_spends_once_witness :
  validate_snapshot (C:=Toy.crates) s8 = Ok tt /\
  NoDup (map ExecutionAttemptRecordV1.proof_nonce (attempts_of (execution_reservations s8))).
Proof.
  assert (validate_snapshot (C:=Toy.crates) s8 = Ok tt) as Hv by (vm_compute; reflexivity).
  split; [exact Hv|]. apply (validated_snapshot_spends_once (C:=Toy.crates) s8 Hv).
Defined.

Lemma validated_attempts_are_sequential_witness :
  exists r a, r ∈ execution_reservations s8 /\ ExecutionReservationRecordV1.attempts r !! 1%nat = Some a /\
    ExecutionAttemptRecordV1.attempt a = 2.
Proof.
  do 2 eexists. split; [apply list_elem_of_singleton; reflexivity|]. split; [reflexivity|].
  eapply (validated_attempts_are_sequential (C:=Toy.crates) s8 _ 1%nat);
    [vm_compute; reflexivity|apply list_elem_of_singleton; reflexivity|reflexivity].
Defined.

Lemma validated_history_is_well_founded_witness :
  exists j earlier, (j < 1)%nat /\ records h3 !! j = Some earlier /\ names (C:=Toy.crates) earlier intent_ref.
Proof.
  destruct (validated_history_is_well_founded (C:=Toy.crates) h3 1 decision h3_valid) as [H _]; [reflexivity|].
  apply H. left. vm_compute. reflexivity.
Defined.

(** ** The disk *)

Lemma s1_readable : exists bytes, readable (C:=Toy.crates) (R:=serde) s1 bytes /\
  exists line, anchor_readable (R:=serde) (anchor_of s1) line.
Proof.
  eexists. split; [split; [vm_compute; reflexivity|discriminate|vm_compute; reflexivity]|].
  eexists. split; [vm_compute; reflexivity| |vm_compute; reflexivity|vm_compute; reflexivity].
  intros H%list_elem_of_In. vm_compute in H. repeat destruct H as [H|H]; discriminate H || exact H.
Qed.
Lemma d0_settled : settled (C:=Toy.crates) (R:=serde) d0 StoreSnapshot.default.
Proof.
  split; [reflexivity|vm_compute; reflexivity|]. exists []. split; [|split; reflexivity].
  exists []. split; [constructor|reflexivity].
Qed.
Lemma s1_sealed : sealed_after StoreSnapshot.default s1.
Proof. split; vm_compute; reflexivity. Qed.

Lemma crash_recovers_old_or_new_witness :
  exists bytes d'' loaded,
    load_snapshot (C:=Toy.crates) (mkDisk (Some bytes) (anchor_file d0)) = (d'', Ok loaded) /\
    (loaded = StoreSnapshot.default \/ loaded = s1) /\ settled (C:=Toy.crates) (R:=serde) d'' loaded.
Proof.
  destruct s1_readable as (bytes & Hr & line & Ha). exists bytes.
  exact (crash_recovers_old_or_new (C:=Toy.crates) (R:=serde) d0 StoreSnapshot.default s1 bytes line
    (mkDisk (Some bytes) (anchor_file d0)) d0_settled s1_sealed s1_valid Hr Ha
    (crashed_renamed s1 d0 bytes (rd_written _ _ Hr))).
Defined.

Lemma anchors_detect_rollback_witness :
  exists bytes d', load_snapshot (C:=Toy.crates) (mkDisk (Some bytes) (anchor_file d0)) = (d', Ok s1) /\
    ((anchor_of s1 = anchor_of StoreSnapshot.default /\
       (sequence StoreSnapshot.default <> 0 ->
        compute_snapshot_digest (C:=Toy.crates) s1 = compute_snapshot_digest StoreSnapshot.default)) \/
     sealed_after StoreSnapshot.default s1).
Proof.
  destruct s1_readable as (bytes & Hr & _). exists bytes.
  assert (exists d', load_snapshot (C:=Toy.crates) (mkDisk (Some bytes) (anchor_file d0)) = (d', Ok s1)) as [d' Hl].
  { destruct Hr as [Hw _ _]. vm_compute in Hw. injection Hw as <-. eexists. vm_compute. reflexivity. }
  exists d'. split; [exact Hl|].
  exact (anchors_detect_rollback (C:=Toy.crates) (R:=serde) d0 StoreSnapshot.default _ d' s1 d0_settled Hl).
Defined.

(** ** Operations *)

Lemma operations_refine_steps_witness :
  let o := OpCommit (Ok 100) (SAction action) in
  run (C:=Toy.crates) o d0 = d0 \/ steps_to (C:=Toy.crates) StoreSnapshot.default d0 (run o d0).
Proof. exact (operations_refine_steps (C:=Toy.crates) (R:=serde) _ d0 d0 _ d0_loads). Defined.

Lemma commit_outcome_witness :
  exists d' s', commit (C:=Toy.crates) (Ok 100) (SAction action) d0 = (d', Ok (Committed action_ref)) /\
    records s' = [SAction action] /\ store_step (C:=Toy.crates) StoreSnapshot.default s'.
Proof.
  assert (commit (C:=Toy.crates) (Ok 100) (SAction action) d0 = (d1, Ok (Committed action_ref))) as Hc
    by (vm_compute; reflexivity).
  destruct (commit_outcome (C:=Toy.crates) (R:=serde) _ _ _ _ _ _ _ d0_loads Hc) as (_ & r & _ & [(He & _)|H]).
  - discriminate He.
  - destruct H as (He & _ & s' & Hstep & _ & Hrecords & _). injection He as <-. exists d1, s'.
    split; [exact Hc|]. split; [exact Hrecords|exact Hstep].
Defined.

Lemma commit_is_idempotent_witness :
  commit (C:=Toy.crates) (R:=serde) (Ok 100) (SAction action) d1 = (d1, Ok (AlreadyCommitted action_ref)).
Proof.
  apply (commit_is_idempotent (C:=Toy.crates) (R:=serde) (Ok 100) (SAction action) d1 d1 s1 action_ref d1_loads);
    vm_compute; reflexivity.
Defined.

Lemma permit_opens_the_only_open_attempt_witness :
  exists s' r, issue_execution_permit (C:=Toy.crates) (Ok 110) reservation_id first_request d1
      = (d2, Ok (permit first_request 110)) /\
    store_step (C:=Toy.crates) s1 s' /\ r ∈ execution_reservations s' /\
    last (ExecutionReservationRecordV1.attempts r) = Some (next_attempt first_request 110).
Proof.
  assert (issue_execution_permit (C:=Toy.crates) (Ok 110) reservation_id first_request d1
    = (d2, Ok (permit first_request 110))) as H by (vm_compute; reflexivity).
  destruct (permit_opens_the_only_open_attempt (C:=Toy.crates) (R:=serde) _ _ _ _ _ _ _ _ d1_loads H)
    as (t & a & s' & r & Ht & _ & Hstep & _ & _ & _ & Hr & _ & Hlast & _).
  injection Ht as <-. exists s', r. split; [exact H|]. split; [exact Hstep|]. split; [exact Hr|exact Hlast].
Defined.

Lemma receipt_settles_its_attempt_witness :
  exists s' res a, commit_execution_receipt (C:=Toy.crates) (Ok 170) verified_receipt d4
      = (d5, Ok (Committed receipt_ref)) /\
    store_step (C:=Toy.crates) s4 s' /\ res ∈ execution_reservations s' /\
    settle_attempt receipt receipt_ref
      (VerifiedProofV1.envelope (VerifiedExecutionReceiptV1.verified_proof verified_receipt)) 160 a
      ∈ ExecutionReservationRecordV1.attempts res.
Proof.
  assert (commit_execution_receipt (C:=Toy.crates) (Ok 170) verified_receipt d4
    = (d5, Ok (Committed receipt_ref))) as H by (vm_compute; reflexivity).
  destruct (receipt_settles_its_attempt (C:=Toy.crates) (R:=serde) _ _ _ _ _ _ _ d4_loads H)
    as (_ & _ & _ & s' & res & a & Hstep & _ & Hres & _ & Ha & _).
  exists s', res, a. split; [exact H|]. split; [exact Hstep|]. split; [exact Hres|exact Ha].
Defined.

Lemma commit_agrees_with_replay_witness :
  exists candidate replayed, commit_candidate (C:=Toy.crates) h2 second_intent second_intent_ref None = Ok candidate /\
    replay_history (C:=Toy.crates) (records candidate) = Ok replayed /\
    invalidated_refs replayed = invalidated_refs candidate.
Proof.
  destruct (commit_candidate (C:=Toy.crates) h2 second_intent second_intent_ref None) as [candidate|e] eqn:H;
    [|vm_compute in H; discriminate H].
  assert (acceptable (C:=Toy.crates) h2 second_intent second_intent_ref) as Hacc.
  { split; try (vm_compute; reflexivity). intros d Hd. vm_compute in Hd. discriminate Hd. }
  destruct (commit_agrees_with_replay (C:=Toy.crates) h2 second_intent second_intent_ref None candidate
    h2_valid Hacc H) as (replayed & Hr & _ & Hi).
  exists candidate, replayed. split; [reflexivity|]. split; [exact Hr|exact Hi].
Defined.

Lemma attempts_are_permanent_witness :
  exists r' a', r' ∈ execution_reservations a6 /\ ExecutionReservationRecordV1.attempts r' !! 0%nat = Some a' /\
    evolves dispatched_attempt a'.
Proof.
  destruct attempt_abandoned as (r & Hr & _). pose proof Hr as Hr'.
  apply list_elem_of_In in Hr'. vm_compute in Hr'. destruct Hr' as [Hr'|[]].
  destruct (attempts_are_permanent (C:=Toy.crates) a5 a6 r 0%nat dispatched_attempt)
    as (r' & a' & Hin & _ & _ & _ & Ha & He).
  - apply rtc_once, intent_committed.
  - exact Hr.
  - rewrite <- Hr'. reflexivity.
  - exists r', a'. split; [exact Hin|]. split; [exact Ha|exact He].
Defined.

Lemma superseded_reconciliation_never_settles_witness : abandoned a6 reservation_id dispatched_attempt.
Proof.
  exact (superseded_reconciliation_never_settles (C:=Toy.crates) a5 a6 reservation_id dispatched_attempt
    a5_valid (rtc_once _ _ intent_committed) attempt_abandoned).
Defined.

Lemma h2_replayed_ok : replayed_ok (C:=Toy.crates) h2.
Proof.
  destruct (validated_replayed_ok (C:=Toy.crates) h2 h2_valid) as (rp & [] & Hr & Hp & _).
  rewrite Hr, Hp in *. split; assumption.
Qed.

Lemma no_current_contract_rests_on_superseded_witness :
  exists s', replay_record (C:=Toy.crates) h2 second_intent = Ok s' /\
    forall p q dependent, p ∈ current_pointers s' -> p <> second_intent_ref -> p ∉ invalidated_refs s' ->
      find_record (C:=Toy.crates) (records h2) p = Some dependent -> depends_on dependent q = true -> q <> intent_ref.
Proof.
  destruct (replay_record (C:=Toy.crates) h2 second_intent) as [s'|e] eqn:H; [|vm_compute in H; discriminate H].
  exists s'. split; [reflexivity|]. intros p q dependent Hp Hne Hi Hf Hd.
  refine (proj1 (no_current_contract_rests_on_superseded (C:=Toy.crates) h2 second_intent s' second_intent_ref
    intent_ref _ H _ _ p q dependent Hp Hne Hi Hf Hd)).
  - exact h2_replayed_ok.
  - vm_compute. reflexivity.
  - vm_compute. reflexivity.
Defined.
