(* ===== verification/LedgerSample.v ===== *)
(** * LedgerSample: the orchestrator's database, evaluated

    The commands of [ChainSample] handled by the whole transaction, on an empty database
    with an anchor in memory; a start of the Shadow authority; a worker on the table of
    events.  The witnesses of the theorems about the database are taken from it. *)

From stdpp Require Import base list gmap fin_sets countable sorting strings.
From Stdlib Require Import NArith ZArith Lia.
From S2P Require Import Prelude Text Json Crates CanonicalJson Common Production ProductionProps ChainData ChainCommand ChainPayload ChainTransition ChainEvaluate ChainRepository Authority ChainProps ChainExecution AuthorityProps LedgerData Copies Ledger LedgerVerify LedgerProps LedgerAudit LedgerGaps LedgerClosure LedgerAttest Outbox Delivery RuntimeRole LedgerConnect LedgerModel ChainSample.

Module LedgerSample.
Import Toy ChainSample.

Definition ledger : Type := Database.t * InMemoryAuditCheckpointAnchorV1.t.
Definition start : ledger := (Database.empty, ∅).
Definition attestation_key : list N := be_bytes 32 99.

(** What the database provides to call [n] at second [clock]. *)
Definition session (clock n : N) : Session.t :=
  Session.mk (Z.of_N clock * 1000000) clock (Z.of_N (n + 1)) 7 (Toy.uuid (7000 + n)) (Toy.uuid (7500 + n)) (Toy.uuid (8000 + n)) n
    (Z.of_N n) (Toy.uuid (8500 + n)).
Definition publication (clock n : N) : Session.t :=
  Session.mk (Z.of_N clock * 1000000) clock (Z.of_N (n + 1)) 7 (Toy.uuid (9000 + n)) (Toy.uuid (9500 + n)) (Toy.uuid 0) n
    (Z.of_N n) (Toy.uuid 0).

Definition call (clock n : N) (command : IdrCommandEnvelopeV1.t) (s : ledger) : ledger * Chain IdrCommandReceiptV1.t :=
  Ledger.handle (P := parser) security attestation_key 1 trust_root false true (session clock n) (publication clock n) (minted n) command
    clock s.1 s.2.

(** Whether the command of number [n] is accepted for the first time, and what it leaves. *)
Definition take (n : N) (s : ledger) : bool * ledger :=
  let '(s', answer) := call now n (command_at n (view s.1)) s in
  match answer with
  | Ok receipt => (negb (IdrCommandReceiptV1.idempotent_replay receipt), s')
  | Err _ => (false, s')
  end.

Fixpoint play (fuel : nat) (n : N) (s : bool * ledger) : list (bool * ledger) :=
  s :: match fuel with O => [] | S fuel => play fuel (n + 1) (take n s.2) end.
Definition trace (fuel : nat) : list (bool * ledger) := play fuel 1 (true, start).
Definition nth_ledger (k : nat) (states : list (bool * ledger)) : ledger := (nth k states (true, start)).2.

(** ** What the witnesses need *)

Definition accepted (outcome : ledger * Chain IdrCommandReceiptV1.t) : bool :=
  match outcome.2 with Ok receipt => negb (IdrCommandReceiptV1.idempotent_replay receipt) | Err _ => false end.
Definition run_row (db : Database.t) : RunRow.t :=
  default (RunRow.mk TrustDomainV1.Shadow environment pending_run []) (Database.runs db !! Toy.uuid 1000).
Definition run_of (db : Database.t) : IdrRunProjectionV1.t := RunRow.projection (run_row db).
(** The withdrawal of the Intent *)
Definition invalidation (s : ledger) : IdrCommandEnvelopeV1.t :=
  let p := run_of s.1 in
  signed 34 (unsigned 34 (IdrRunProjectionV1.aggregate_version p) "owner:1"
    (IdrCommandV1.InvalidateRecord (record_of p CandidateKindV1.Intent) (ref "reason:1"))).

Definition has_run (db : Database.t) : bool := is_some (Database.runs db !! Toy.uuid 1000).
(** Accepted, and the run is still there *)
Definition withdrawn (outcome : ledger * Chain IdrCommandReceiptV1.t) : bool := accepted outcome && has_run outcome.1.1.
Definition unanswered (command : IdrCommandEnvelopeV1.t) (db : Database.t) : bool :=
  negb (is_some (Database.receipts db !! IdrCommandEnvelopeV1.command_id command)).
Definition command_of (n : N) (s : ledger) : IdrCommandEnvelopeV1.t := command_at n (view s.1).

Definition lapsed_at (clock : N) (db : Database.t) : bool :=
  match IdrRunProjectionV1.execution (run_of db) with
  | Some e => dispatched (ExecutionProjectionV1.state e)
      && reservation_authority_lapsed (ExecutionProjectionV1.action_valid_until e) (ExecutionProjectionV1.admission_valid_until e) (ExecutionProjectionV1.authorization_valid_until e) clock
  | None => false
  end.

Definition no_contract : ContractRow.t :=
  ContractRow.mk (Toy.uuid 0) 0 CandidateKindV1.Intent TrustDomainV1.Shadow environment (Toy.uuid 0) (ref "tenant:1") (ref "subject:1") []
    Null (Toy.uuid 0) 0 0 0.
(** The stored Decision, and whether it is derived from the Intent in one step *)
Definition stored_decision (db : Database.t) : ContractRow.t :=
  default no_contract (find_record db (node (record_of (run_of db) CandidateKindV1.Decision))).
Definition decision_derived (db : Database.t) : bool :=
  is_some (find_record db (node (record_of (run_of db) CandidateKindV1.Decision)))
  && existsb (fun row => (DependencyRow.dependency row == node (record_of (run_of db) CandidateKindV1.Intent))
                         && (DependencyRow.dependent row == row_node (stored_decision db))) (Database.dependencies db).

(** *** Events *)

Definition in_order (events : list AuditRow.t) (next : Z) : bool :=
  bool_decide (StronglySorted Z.lt (map AuditRow.sequence events ++ [next])).

(** The events with another actor, chained again *)
Definition set_actor (actor : text) (payload : Value) : Value :=
  match payload with
  | Obj fields => Obj (map (fun f => if f.1 == txt "actor_ref" then (f.1, Str actor) else f) fields)
  | v => v
  end.
Definition forged_event (row : AuditRow.t) : AuditRow.t :=
  let payload := set_actor (txt "actor:2") (AuditRow.payload row) in
  AuditRow.mk (AuditRow.sequence row) (AuditRow.global_sequence row) (AuditRow.idr_attestation_id row) (AuditRow.event_id row)
    (AuditRow.trust_domain row) (AuditRow.environment_ref row) (AuditRow.tenant_ref row) (AuditRow.run_id row)
    (AuditRow.aggregate_version row) (ref "actor:2") (AuditRow.caller_ref row) (AuditRow.correlation_ref row)
    (AuditRow.causation_ref row) (AuditRow.contract_refs row) (AuditRow.proof_refs row) (AuditRow.policy_revision_ref row)
    (AuditRow.previous_hash row)
    (match hash_event_v1 (AuditRow.previous_hash row) payload with Ok hash => hash | Err _ => [] end) payload.
Definition alike_events (a b : AuditRow.t) : bool :=
  bool_decide (AuditRow.sequence a = AuditRow.sequence b /\ AuditRow.global_sequence a = AuditRow.global_sequence b /\
    AuditRow.idr_attestation_id a = AuditRow.idr_attestation_id b /\ AuditRow.run_id a = AuditRow.run_id b /\
    AuditRow.aggregate_version a = AuditRow.aggregate_version b /\
    get_str "projection_digest" (AuditRow.payload a) = get_str "projection_digest" (AuditRow.payload b) /\
    get_str "command_id" (AuditRow.payload a) = get_str "command_id" (AuditRow.payload b) /\
    get_str "command_digest" (AuditRow.payload a) = get_str "command_digest" (AuditRow.payload b)).
Definition forged_events (db : Database.t) : list AuditRow.t := map forged_event (Database.events db).

(** A parser that knows the first record *)
Definition anchored (s : ledger) : Chain InMemoryAuditCheckpointAnchorV1.t :=
  verify_external_anchor (P := parser) security attestation_key 1 (from_value record1) s.1 s.2.

(** *** The human model *)

Definition question : HumanModelQueryV1.t :=
  HumanModelQueryV1.mk (ref "tenant:1") (ref "subject:1") (ref "scope:1") (ref "purpose:1") (ref "policy:1") 10000.
Definition answer (clock : N) (db : Database.t) : Chain (list EffectiveHumanModelAssertionV1.t) :=
  query_effective_human_model_assertions_for_test security question clock db.
(** How many assertions are told *)
Definition tells (clock : N) (db : Database.t) (count : nat) : bool :=
  match answer clock db with Ok results => (length results =? count)%nat | Err _ => false end.
(** The outcome is observed once more. *)
Definition renewed (s : ledger) : IdrCommandEnvelopeV1.t :=
  let p := run_of s.1 in signed 35 (unsigned 35 (IdrRunProjectionV1.aggregate_version p) "observer:1" (script 12 p).2).
Definition last_outcome (db : Database.t) : AuthoritativeRecordRefV1.t := record_of (run_of db) CandidateKindV1.Outcome.
Definition stored_assertion (db : Database.t) : ContractRow.t :=
  default no_contract (find_record db (node (record_of (run_of db) CandidateKindV1.HumanModelAssertion))).
(** Its record is valid no longer, and it is told. *)
Definition outlives (db : Database.t) : bool := (ContractRow.valid_until (stored_assertion db) <? 5000) && tells 5000 db 1.
(** The assertion is stored, and derived from the outcome. *)
Definition learned (db : Database.t) : bool :=
  is_some (find_record db (node (record_of (run_of db) CandidateKindV1.HumanModelAssertion)))
  && match invalidation_closure (Database.dependencies db) (node (last_outcome db)) with
     | Some found => bool_decide (row_node (stored_assertion db) ∈ found)
     | None => false
     end.
(** The second outcome replaces the first, and the assertion is told no longer. *)
Definition replaces (s : ledger) (outcome : ledger * Chain IdrCommandReceiptV1.t) : bool :=
  accepted outcome && tells 151 outcome.1.1 0
  && match outcome.2 with
     | Ok receipt =>
         is_some_and (fun new => (AuthoritativeRecordRefV1.candidate_kind new == CandidateKindV1.Outcome)
             && (AuthoritativeRecordRefV1.candidate_kind (last_outcome s.1) == CandidateKindV1.Outcome)
             && (new != last_outcome s.1)) (IdrCommandReceiptV1.record_ref receipt)
     | Err _ => false
     end.

(** One evaluation of the trace *)
Record facts (states : list (bool * ledger)) : Prop := {
  all_taken : forallb fst states = true;
  lapsed_10 : lapsed_at 400 (nth_ledger 10 states).1 = true;
  unanswered_10 : unanswered (command_of 11 (nth_ledger 10 states)) (nth_ledger 10 states).1 = true;
  unanswered_4 : unanswered (command_of 33 (nth_ledger 4 states)) (nth_ledger 4 states).1 = true;
  revision_4 : (0 <? AuthoritativeRecordRefV1.revision (record_of (sample_run (view (nth_ledger 4 states).1)) CandidateKindV1.Decision)) = true;
  invalidated_4 : withdrawn (call now 34 (invalidation (nth_ledger 4 states)) (nth_ledger 4 states)) = true;
  derived_4 : decision_derived (nth_ledger 4 states).1 = true;
  has_run_4 : has_run (nth_ledger 4 states).1 = true;
  events_2 : negb (is_err (verify_audit_rows security (Database.events (nth_ledger 2 states).1))) = true;
  ordered_2 : in_order (Database.events (nth_ledger 2 states).1) 3 = true;
  wire_2 : forallb (fun row => wire_value (AuditRow.payload row)) (Database.events (nth_ledger 2 states).1) = true;
  replayed_3 : negb (is_err (call now 1 (command_of 1 start) (nth_ledger 3 states)).2) = true;
  anchored_1 : negb (is_err (anchored (nth_ledger 1 states))) = true;
  forged_1 : negb (is_err (verify_audit_rows security (forged_events (nth_ledger 1 states).1))) = true;
  alike_1 : forallb (fun row => alike_events row (forged_event row)) (Database.events (nth_ledger 1 states).1) = true;
  forgery_1 : (map AuditRow.payload (forged_events (nth_ledger 1 states).1) != map AuditRow.payload (Database.events (nth_ledger 1 states).1)) = true;
  told_15 : tells 151 (nth_ledger 15 states).1 1 = true;
  late_15 : outlives (nth_ledger 15 states).1 = true;
  learned_15 : learned (nth_ledger 15 states).1 = true;
  outcome_15 : is_some (IdrRunProjectionV1.records (run_of (nth_ledger 15 states).1) !! CandidateKindV1.Outcome) = true;
  renewal_15 : replaces (nth_ledger 15 states) (call now 35 (renewed (nth_ledger 15 states)) (nth_ledger 15 states)) = true;
  has_run_15 : has_run (nth_ledger 15 states).1 = true;
  promoted_15 : is_some (IdrRunProjectionV1.human_model_promotion (run_of (nth_ledger 15 states).1)) = true;
  unanswered_15 : unanswered (invalidation (nth_ledger 15 states)) (nth_ledger 15 states).1 = true;
  admitted_10 : is_some (IdrRunProjectionV1.action_admission (run_of (nth_ledger 10 states).1)) = true;
}.

Definition check_facts (states : list (bool * ledger)) : bool :=
  forallb fst states
  && lapsed_at 400 (nth_ledger 10 states).1
  && unanswered (command_of 11 (nth_ledger 10 states)) (nth_ledger 10 states).1
  && unanswered (command_of 33 (nth_ledger 4 states)) (nth_ledger 4 states).1
  && (0 <? AuthoritativeRecordRefV1.revision (record_of (sample_run (view (nth_ledger 4 states).1)) CandidateKindV1.Decision))
  && withdrawn (call now 34 (invalidation (nth_ledger 4 states)) (nth_ledger 4 states))
  && decision_derived (nth_ledger 4 states).1
  && has_run (nth_ledger 4 states).1
  && negb (is_err (verify_audit_rows security (Database.events (nth_ledger 2 states).1)))
  && in_order (Database.events (nth_ledger 2 states).1) 3
  && forallb (fun row => wire_value (AuditRow.payload row)) (Database.events (nth_ledger 2 states).1)
  && negb (is_err (call now 1 (command_of 1 start) (nth_ledger 3 states)).2)
  && negb (is_err (anchored (nth_ledger 1 states)))
  && negb (is_err (verify_audit_rows security (forged_events (nth_ledger 1 states).1)))
  && forallb (fun row => alike_events row (forged_event row)) (Database.events (nth_ledger 1 states).1)
  && (map AuditRow.payload (forged_events (nth_ledger 1 states).1) != map AuditRow.payload (Database.events (nth_ledger 1 states).1))
  && tells 151 (nth_ledger 15 states).1 1
  && outlives (nth_ledger 15 states).1
  && learned (nth_ledger 15 states).1
  && is_some (IdrRunProjectionV1.records (run_of (nth_ledger 15 states).1) !! CandidateKindV1.Outcome)
  && replaces (nth_ledger 15 states) (call now 35 (renewed (nth_ledger 15 states)) (nth_ledger 15 states))
  && has_run (nth_ledger 15 states).1
  && is_some (IdrRunProjectionV1.human_model_promotion (run_of (nth_ledger 15 states).1))
  && unanswered (invalidation (nth_ledger 15 states)) (nth_ledger 15 states).1
  && is_some (IdrRunProjectionV1.action_admission (run_of (nth_ledger 10 states).1)).
End LedgerSample.

(** The database and the anchor after [k] commands *)
Notation ledger_at k := (LedgerSample.nth_ledger k (LedgerSample.trace 15)).

Section sample.
Import LedgerSample.

Lemma check_facts_holds states : LedgerSample.check_facts states = true -> LedgerSample.facts states.
Proof.
  unfold LedgerSample.check_facts. rewrite !andb_true_iff.
  intros [[[[[[[[[[[[[[[[[[[[[[[[H1 H2] H3] H4] H5] H6] H7] H8] H9] H10] H11] H12] H13] H14] H15] H16] H17] H18] H19] H20] H21] H22] H23] H24] H25].
  exact (LedgerSample.Build_facts states H1 H2 H3 H4 H5 H6 H7 H8 H9 H10 H11 H12 H13 H14 H15 H16 H17 H18 H19 H20 H21 H22 H23 H24 H25).
Qed.

Lemma ledger_facts : LedgerSample.facts (LedgerSample.trace 15).
Proof. apply check_facts_holds. vm_compute. reflexivity. Qed.

(** ** The trace as steps *)

Lemma ledger_nth fuel n s k :
  (k < fuel)%nat -> nth (S k) (LedgerSample.play fuel n s) (true, LedgerSample.start)
    = LedgerSample.take (n + N.of_nat k) (nth k (LedgerSample.play fuel n s) (true, LedgerSample.start)).2.
Proof.
  revert n s k. induction fuel as [|fuel IH]; intros n s k Hk; [lia|].
  destruct k as [|k]; cbn [LedgerSample.play nth].
  - rewrite N.add_0_r. by destruct fuel.
  - rewrite (IH (n + 1) (LedgerSample.take n s.2) k) by lia. by replace (n + 1 + N.of_nat k) with (n + N.of_nat (S k)) by lia.
Qed.

Lemma ledger_length fuel n s : length (LedgerSample.play fuel n s) = S fuel.
Proof. revert n s. induction fuel as [|fuel IH]; intros n s; [done|]. cbn [LedgerSample.play length]. by rewrite IH. Qed.

Lemma take_call n s :
  LedgerSample.take n s = (accepted (call ChainSample.now n (command_of n s) s), (call ChainSample.now n (command_of n s) s).1).
Proof.
  unfold LedgerSample.take, accepted, command_of. by destruct (call _ _ _ _) as [s' [receipt|error]].
Qed.

(** Command [n] is accepted in state [k] and leads to the next. *)
Lemma taken n k : n = 1 + N.of_nat k -> (k < 15)%nat ->
  accepted (call ChainSample.now n (command_of n (ledger_at k)) (ledger_at k)) = true /\
  ledger_at (S k) = (call ChainSample.now n (command_of n (ledger_at k)) (ledger_at k)).1.
Proof.
  intros -> Hk. pose proof (all_taken _ ledger_facts) as Ha. rewrite forallb_forall in Ha.
  pose proof (ledger_nth 15 1 (true, LedgerSample.start) k Hk) as Hn.
  assert (In (nth (S k) (trace 15) (true, LedgerSample.start)) (trace 15)) as Hin.
  { apply nth_In. unfold trace. rewrite ledger_length. lia. }
  specialize (Ha _ Hin). unfold nth_ledger. unfold trace in *. rewrite Hn in *. rewrite take_call in *. by split.
Qed.

Lemma accepted_Ok o :
  accepted o = true -> exists receipt, o = (o.1.1, o.1.2, Ok receipt) /\ IdrCommandReceiptV1.idempotent_replay receipt = false.
Proof. destruct o as [[db anchor] [receipt|]]; [|done]. intros H%negb_true_iff. by exists receipt. Qed.

Lemma call_step clock n command s : ledger_step ChainSample.security s.1 (call clock n command s).1.1.
Proof. destruct (call clock n command s) as [[db anchor] o] eqn:Hc. eapply handled, Hc. Qed.

Lemma ledger_from_to i j : (i <= j <= 15)%nat -> rtc (ledger_step ChainSample.security) (ledger_at i).1 (ledger_at j).1.
Proof.
  intros [Hij Hj]. induction Hij as [|j Hij IH]; [reflexivity|]. etransitivity; [apply IH; lia|].
  destruct (taken (1 + N.of_nat j) j eq_refl ltac:(lia)) as [_ ->]. apply rtc_once, call_step.
Qed.

Lemma ledger_at_0 : ledger_at 0 = LedgerSample.start.
Proof. reflexivity. Qed.
Lemma reached j : (j <= 15)%nat -> ledger_reachable ChainSample.security (ledger_at j).1.
Proof. intros Hj. apply (ledger_from_to 0 j). lia. Qed.

(** ** Witnesses *)

Lemma ledger_refines_authority_witness :
  @authority_reachable Toy.crates ChainSample.parser ChainSample.security (∅, []) (view (ledger_at 10).1).
Proof. exact (ledger_refines_authority ChainSample.security _ (reached 10 ltac:(lia))). Defined.

Lemma lapsed_run clock db :
  lapsed_at clock db = true ->
  exists e, Database.runs db !! Toy.uuid 1000 = Some (run_row db) /\ IdrRunProjectionV1.execution (RunRow.projection (run_row db)) = Some e /\
    dispatched (ExecutionProjectionV1.state e) = true /\
    reservation_authority_lapsed (ExecutionProjectionV1.action_valid_until e) (ExecutionProjectionV1.admission_valid_until e)
      (ExecutionProjectionV1.authorization_valid_until e) clock = true.
Proof.
  unfold lapsed_at, run_of, run_row. destruct (Database.runs db !! Toy.uuid 1000) as [row|]; cbn [default from_option id]; [|done].
  destruct (IdrRunProjectionV1.execution (RunRow.projection row)) as [e|]; [|done]. intros [? ?]%andb_true_iff. by exists e.
Qed.
Lemma unanswered_None command db : unanswered command db = true -> Database.receipts db !! IdrCommandEnvelopeV1.command_id command = None.
Proof. unfold unanswered. rewrite negb_true_iff. by destruct (_ !! _). Qed.
Lemma has_run_Some db : has_run db = true -> Database.runs db !! Toy.uuid 1000 = Some (run_row db).
Proof. unfold has_run, run_row. by destruct (_ !! _). Qed.

Lemma idempotency_key_names_one_execution_witness :
  exists e, IdrRunProjectionV1.execution (run_of (ledger_at 10).1) = Some e /\
    ExecutionProjectionV1.reservation_id e = ExecutionProjectionV1.reservation_id e.
Proof.
  destruct (lapsed_run _ _ (lapsed_10 _ ledger_facts)) as (e & Hrow & He & _). exists e. split; [exact He|].
  exact (proj1 (proj2 (idempotency_key_names_one_execution ChainSample.security _ _ _ _ _ e e (reached 10 ltac:(lia))
    Hrow He Hrow He eq_refl eq_refl eq_refl eq_refl eq_refl))).
Defined.

Lemma lapsed_authority_freezes_the_run_witness :
  (call 400 11 (command_of 11 (ledger_at 10)) (ledger_at 10)).1 = ledger_at 10 /\
  is_err (call 400 11 (command_of 11 (ledger_at 10)) (ledger_at 10)).2 = true.
Proof.
  destruct (lapsed_run _ _ (lapsed_10 _ ledger_facts)) as (e & Hrow & He & Hd & Hl).
  pose proof (unanswered_None _ _ (unanswered_10 _ ledger_facts)) as Hu. pose proof (reached 10 ltac:(lia)) as Hr.
  revert Hr Hrow He Hu. generalize (ledger_at 10). intros [db anchor] Hr Hrow He Hu. cbn [fst] in *.
  destruct (call 400 11 (command_of 11 (db, anchor)) (db, anchor)) as [[db' anchor'] outcome] eqn:Hc.
  destruct (lapsed_authority_freezes_the_run ChainSample.security attestation_key 1 ChainSample.trust_root false true
    (session 400 11) (publication 400 11) (ChainSample.minted 11) (command_of 11 (db, anchor)) 400 db anchor db' anchor' outcome
    (run_row db) e) as (-> & -> & Herr); [exact Hr| |exact He|exact Hd|exact Hu|exact Hl|exact Hc|by split].
  unfold command_of. rewrite command_at_run. exact Hrow.
Defined.

Lemma correction_is_never_stored_witness :
  (call ChainSample.now 33 (command_of 33 (ledger_at 4)) (ledger_at 4)).1 = ledger_at 4 /\
  is_err (call ChainSample.now 33 (command_of 33 (ledger_at 4)) (ledger_at 4)).2 = true.
Proof.
  pose proof (unanswered_None _ _ (unanswered_4 _ ledger_facts)) as Hu. pose proof (revision_4 _ ledger_facts) as Hv.
  apply N.ltb_lt in Hv. revert Hu Hv. generalize (ledger_at 4). intros [db anchor] Hu Hv. cbn [fst] in *.
  destruct (call ChainSample.now 33 (command_of 33 (db, anchor)) (db, anchor)) as [[db' anchor'] outcome] eqn:Hc.
  destruct (command_at_33 (view db)) as [correction Hcmd].
  destruct (correction_is_never_stored ChainSample.security attestation_key 1 ChainSample.trust_root false true
    (session ChainSample.now 33) (publication ChainSample.now 33) (ChainSample.minted 33) (command_of 33 (db, anchor)) ChainSample.now
    db anchor db' anchor' outcome _ _ Hcmd Hv Hu Hc) as (-> & -> & Herr). by split.
Defined.

Lemma audit_chain_binds_history_witness :
  let events := Database.events (ledger_at 2).1 in
  map AuditRow.payload (history (ChainSample.ref "tenant:1") events) = map AuditRow.payload (history (ChainSample.ref "tenant:1") events)
  \/ sha256_collision \/ sha256_zero_preimage.
Proof.
  cbv zeta. pose proof (events_2 _ ledger_facts) as Hv. pose proof (wire_2 _ ledger_facts) as Hw.
  revert Hv Hw. generalize (Database.events (ledger_at 2).1). intros events Hv%negb_true_iff Hw.
  apply (result_Ok ∅) in Hv. rewrite forallb_forall in Hw.
  refine (audit_chain_binds_history ChainSample.security (ChainSample.ref "tenant:1") events events _ _ Hv Hv _ eq_refl).
  apply Forall_forall. intros row [Hin|Hin]%elem_of_app; by apply Hw, list_elem_of_In.
Defined.

(** *** Commands in sequence *)

Lemma command_is_applied_once_witness :
  exists receipt,
    (call ChainSample.now 1 (command_of 1 LedgerSample.start) LedgerSample.start).2 = Ok receipt /\
    call ChainSample.now 1 (command_of 1 LedgerSample.start) (ledger_at 3) = (ledger_at 3, Ok (IdrCommandReceiptV1.replayed receipt)).
Proof.
  destruct (taken 1 0 eq_refl ltac:(lia)) as [Ha Hs]. rewrite ledger_at_0 in Ha, Hs.
  pose proof (ledger_from_to 1 3 ltac:(lia)) as Hr. pose proof (replayed_3 _ ledger_facts) as Hok. rewrite Hs in Hr.
  revert Hok Hr. generalize (ledger_at 3). intros [db anchor] Hok Hr. clear Hs. revert Ha Hok Hr.
  generalize (command_of 1 LedgerSample.start). intros command Ha Hok Hr. apply negb_true_iff in Hok.
  destruct (accepted_Ok _ Ha) as (receipt & Hc & Hfresh). exists receipt. split; [by rewrite Hc|].
  destruct (call ChainSample.now 1 command (db, anchor)) as [[db3 anchor3] outcome] eqn:Hc3.
  destruct (command_is_applied_once ChainSample.security attestation_key 1 ChainSample.trust_root false true
    (session ChainSample.now 1) (publication ChainSample.now 1) (ChainSample.minted 1) command ChainSample.now Database.empty ∅
    _ _ receipt attestation_key 1 ChainSample.trust_root false true (session ChainSample.now 1) (publication ChainSample.now 1)
    (ChainSample.minted 1) command ChainSample.now db anchor db3 anchor3 outcome Hc Hfresh Hr eq_refl Hc3) as (-> & -> & Ho).
  destruct outcome as [r|]; [|done]. by destruct (Ho r eq_refl) as (-> & _).
Defined.

Lemma in_order_spec events next :
  in_order events next = true -> numbered events /\ Forall (fun row => (AuditRow.sequence row < next)%Z) events.
Proof.
  unfold in_order, numbered. rewrite bool_decide_eq_true.
  induction events as [|row events IH]; intros H; [by repeat constructor|]. cbn in H.
  apply StronglySorted_inv in H as [Hs Hf]. destruct (IH Hs) as [Hn Hl]. apply Forall_app in Hf as [Hf Hlast]. inversion_clear Hlast as [|? ? Hnext _].
  split; constructor; [done|exact (proj1 (List.Forall_map _ _ _) Hf)|done..].
Qed.

Lemma accepted_command_extends_the_chain_witness :
  exists row, Database.events (ledger_at 3).1 = Database.events (ledger_at 2).1 ++ [row].
Proof.
  destruct (taken 3 2 eq_refl ltac:(lia)) as [Ha ->]. destruct (in_order_spec _ _ (ordered_2 _ ledger_facts)) as [Hn Hl].
  pose proof (reached 2 ltac:(lia)) as Hr. pose proof (events_2 _ ledger_facts) as Hv. apply negb_true_iff, (result_Ok ∅) in Hv.
  revert Ha Hn Hl Hr Hv. generalize (ledger_at 2). intros [db anchor] Ha Hn Hl Hr Hv.
  destruct (accepted_Ok _ Ha) as (receipt & Hc & Hfresh).
  destruct (accepted_command_extends_the_chain ChainSample.security attestation_key 1 ChainSample.trust_root false true
    (session ChainSample.now 3) (publication ChainSample.now 3) (ChainSample.minted 3) (command_of 3 (db, anchor)) ChainSample.now
    db anchor _ _ receipt _ Hc Hfresh Hr Hn Hl Hv) as (row & _ & _ & He & _).
  exists row. exact He.
Defined.

Lemma parsed_bytes w x acc : x < 256 ^ N.of_nat w -> foldl (fun n b => n * 256 + b) acc (be_bytes w x) = acc * 256 ^ N.of_nat w + x.
Proof.
  revert x. induction w as [|w IH]; intros x Hx; cbn [be_bytes foldl].
  - change (256 ^ N.of_nat 0) with 1 in *. lia.
  - rewrite Nat2N.inj_succ, N.pow_succ_r in * by lia. rewrite foldl_app, IH by (apply N.Div0.div_lt_upper_bound; lia).
    cbn [foldl]. pose proof (N.div_mod x 256 ltac:(lia)). lia.
Qed.

Lemma filter_dashes t : Forall (fun c => c <> 45) t -> filter (fun c => c <> 45) t = t.
Proof. induction 1 as [|c t Hc Ht IH]; [done|]. rewrite filter_cons. rewrite decide_True by done. by rewrite IH. Qed.

Lemma parser_reads_hyphenated (u : Uuid) : parse_uuid (uuid_hyphenated u) = Some u.
Proof.
  unfold parse_uuid, ChainSample.parser. cbn [Crates.uuid_hyphenated Toy.crates].
  destruct (toy_hyphenated_digits u) as (a & b & c & d & e & -> & _ & _ & _ & _ & _ & Hh).
  assert (Forall (fun c => c <> 45) (a ++ b ++ c ++ d ++ e)) as Hd.
  { rewrite <- Hh. pose proof (encode_hex_lower _ (be_bytes_is_byte 16 (as_u128 u))) as Hl. rewrite forallb_forall in Hl.
    apply Forall_forall. intros x Hx%list_elem_of_In%Hl ->. discriminate. }
  rewrite !Forall_app in Hd. destruct Hd as (Ha & Hb & Hc & Hd & He).
  assert (filter (fun c => c <> 45) (a ++ [45] ++ b ++ [45] ++ c ++ [45] ++ d ++ [45] ++ e) = a ++ b ++ c ++ d ++ e) as ->.
  { rewrite !filter_app, (filter_dashes a), (filter_dashes b), (filter_dashes c), (filter_dashes d), (filter_dashes e) by done. done. }
  rewrite <- Hh, decode_encode_hex; [|apply be_bytes_is_byte|unfold lenN; by rewrite be_bytes_length].
  cbn [mbind option_bind]. rewrite parsed_bytes by apply as_u128_lt. rewrite N.mul_0_l, N.add_0_l.
  unfold uuid_of_u128. destruct u as [n Hn]. cbn -[N.pow]. destruct (decide _) as [Hbound|]; [|done]. do 2 f_equal. apply Is_true_pi.
Qed.

(** Three commands after the admission the run still holds it. *)
Lemma admitted_action_breaks_integrity_witness :
  is_err (verify_database_integrity ChainSample.security attestation_key 1 (from_value record1) (ledger_at 10).1) = true.
Proof.
  destruct (lapsed_run _ _ (lapsed_10 _ ledger_facts)) as (e & Hrow & _). pose proof (admitted_10 _ ledger_facts) as Ha.
  pose proof (reached 10 ltac:(lia)) as Hr. revert Hrow Ha Hr. generalize (ledger_at 10).1. unfold run_of. intros db Hrow Ha Hr.
  destruct (IdrRunProjectionV1.action_admission (RunRow.projection (run_row db))) as [admission|] eqn:Hadm; [|discriminate Ha].
  exact (admitted_action_breaks_integrity ChainSample.security attestation_key 1 (from_value record1) db (Toy.uuid 1000) (run_row db)
    admission parser_reads_hyphenated Hr Hrow Hadm).
Defined.

Lemma anchor_does_not_bind_the_chain_witness :
  let s := ledger_at 1 in
  exists anchor', anchored s = Ok anchor' /\
    verify_external_anchor ChainSample.security attestation_key 1 (from_value record1)
      (Database.with_events (forged_events s.1) s.1) s.2 = Ok anchor' /\
    map AuditRow.payload (forged_events s.1) <> map AuditRow.payload (Database.events s.1).
Proof.
  cbv zeta. pose proof (anchored_1 _ ledger_facts) as Ha. pose proof (forged_1 _ ledger_facts) as Hv.
  pose proof (alike_1 _ ledger_facts) as Hl. pose proof (forgery_1 _ ledger_facts) as Hd.
  revert Ha Hv Hl Hd. generalize (ledger_at 1). intros s Ha Hv Hl Hd.
  apply negb_true_iff, (result_Ok s.2) in Ha. apply negb_true_iff, (result_Ok ∅) in Hv.
  apply negb_true_iff, bool_decide_eq_false in Hd.
  eexists. split; [exact Ha|]. split; [|exact Hd].
  refine (anchor_does_not_bind_the_chain ChainSample.security attestation_key 1 (from_value record1) s.1 s.2 _ _ _ Ha _ Hv).
  rewrite forallb_forall in Hl. unfold forged_events. apply Forall2_fmap_r, Forall_Forall2_diag, Forall_forall.
  intros row Hin%list_elem_of_In. specialize (Hl _ Hin). by apply bool_decide_eq_true in Hl.
Defined.

Lemma withdrawal_reaches_every_dependent_witness :
  let s := ledger_at 4 in let after := (call ChainSample.now 34 (invalidation s) s).1.1 in
  row_reference (stored_decision s.1) ∈ IdrRunProjectionV1.invalidated_records (run_of after) /\
  row_node (stored_decision s.1) ∈ Database.invalidations after.
Proof.
  cbv zeta. pose proof (invalidated_4 _ ledger_facts) as Hw. pose proof (derived_4 _ ledger_facts) as Hd.
  pose proof (has_run_Some _ (has_run_4 _ ledger_facts)) as Hrow. pose proof (reached 4 ltac:(lia)) as Hr.
  revert Hw Hd Hrow Hr. generalize (ledger_at 4). intros [db anchor] Hw Hd Hrow Hr.
  apply andb_true_iff in Hw as [(receipt & Hc & Hfresh)%accepted_Ok Hrow'%has_run_Some].
  unfold decision_derived in Hd. apply andb_true_iff in Hd as [Hfound Hd].
  refine (withdrawal_reaches_every_dependent ChainSample.security attestation_key 1 ChainSample.trust_root false true
    (session ChainSample.now 34) (publication ChainSample.now 34) (ChainSample.minted 34) (invalidation (db, anchor)) ChainSample.now
    db anchor _ _ receipt (run_row db) _ (ChainSample.record_of (run_of db) CandidateKindV1.Intent) (stored_decision db)
    Hr Hc Hfresh Hrow Hrow' _ _ _).
  - eapply withdraws_named. reflexivity.
  - unfold stored_decision. apply is_some_true in Hfound as [row Hrow1]. cbn [fst] in Hrow1. rewrite Hrow1. cbn [default from_option id].
    unfold find_record in Hrow1. apply find_first_Some in Hrow1 as [Hin _]. exact Hin.
  - apply rtc_once. apply existsb_exists in Hd as (d & Hin%list_elem_of_In & [H1 H2]%andb_true_iff).
    apply bool_decide_eq_true in H1, H2. exists d. split; [exact Hin|by split].
Defined.

Lemma attestations_stay_authentic_witness :
  verify_all_orchestrator_attestations ChainSample.security attestation_key 1 (ledger_at 1).1 = Ok tt.
Proof.
  destruct (taken 1 0 eq_refl ltac:(lia)) as [_ ->]. rewrite ledger_at_0. generalize (command_of 1 LedgerSample.start). intros command.
  destruct (call ChainSample.now 1 command LedgerSample.start) as [[db' anchor'] outcome] eqn:Hc.
  refine (proj1 (attestations_stay_authentic ChainSample.security attestation_key 1 ChainSample.trust_root false true
    (session ChainSample.now 1) (publication ChainSample.now 1) (ChainSample.minted 1) command ChainSample.now _ _ db' anchor' outcome Hc
    eq_refl _)).
  intros id row Hrow. discriminate.
Defined.

(** *** One attestation *)

Definition attested1 : Attestation.t :=
  attestation ChainSample.security 1 (session ChainSample.now 1) "command_transition" (Toy.uuid 1) (Toy.uuid 1000) (txt "tenant:1") 0 1
    (ChainSample.digest 1) (ChainSample.digest 2).
Definition mac1 : list N :=
  match Attestation.material attested1 with Ok m => mac attestation_key m | Err _ => [] end.
Lemma attested1_verifies : is_err (Attestation.verify_row ChainSample.security attestation_key 1 attested1 mac1) = false.
Proof. vm_compute. reflexivity. Qed.
Lemma attested1_printable : printable attested1.
Proof.
  split; unfold one_line, scalar_text; match goal with |- ?P => refine (bool_decide_eq_true_1 P _) end; vm_compute; reflexivity.
Qed.

Lemma attestation_mac_binds_witness : attested1 = attested1 \/ sha256_collision.
Proof.
  pose proof (result_Ok (Toy.uuid 0) _ attested1_verifies) as Hv.
  exact (attestation_mac_binds ChainSample.security attestation_key 1 attested1 attested1 mac1 _ _ attested1_printable attested1_printable
    Hv Hv).
Defined.
End sample.

(** ** A worker *)

Module OutboxSample.
Import Toy ChainSample LedgerSample.

(** The start of a run enters an event, twice, at 100. *)
Definition transition : IdrTransitionV1.t :=
  IdrTransitionV1.mk (IdrRunProjectionV1.pending TrustDomainV1.Shadow environment (Toy.uuid 1000) (ref "tenant:1")) None (txt "run_started")
    Null [] [].
Definition row (n : N) : OutboxRow.t := outbox_row security (Toy.uuid n) (command_of 1 start) transition Null 100.
Definition rows : list OutboxRow.t := [row 1; row 2].
Definition worker : ReferenceV1.t := ref "worker:1".

(** Both events are leased for a minute, then acknowledged. *)
Definition claimed : Chain (Database.t * list OutboxRow.t * list ClaimedOutboxEventV1.t) :=
  claim_outbox_events_for_test security attestation_key 1 (session 150 1) (Toy.uuid 901) ∅ worker 2 60 200 Database.empty rows.
Definition leased : list OutboxRow.t := map (OutboxRow.claim worker 200 60000200) rows.
Definition acknowledged (n : N) (rows : list OutboxRow.t) : Chain (Database.t * list OutboxRow.t) :=
  acknowledge_outbox_event_for_test security attestation_key 1 (session 150 (n + 1)) (Toy.uuid (910 + n)) worker (Toy.uuid n) 200
    Database.empty rows.
(** The first [n] rows delivered *)
Definition delivered (n : nat) : list OutboxRow.t := map (OutboxRow.deliver 200) (firstn n leased) ++ skipn n leased.

(** A worker that takes one event a round *)
Definition worker_call (n : N) : Call.t := Call.mk attestation_key 1 (session 150 n) (Toy.uuid (920 + n)) Database.empty.
Definition taken_by (n : N) (rows : list OutboxRow.t) : list OutboxRow.t * list ClaimedOutboxEventV1.t :=
  claim_call security (worker_call n) ∅ worker 1 60 200 rows.
Definition drained_by (n : N) (rows : list OutboxRow.t) : list OutboxRow.t :=
  acknowledge_call security (worker_call (10 + n)) worker (Toy.uuid n) 200 (taken_by n rows).1.
Definition offers (x : Uuid) (rows : list OutboxRow.t) : bool :=
  forallb (fun row => (OutboxRow.outbox_id row != x) || is_some (OutboxRow.delivered_at row) || claimable security 200 row) rows.
End OutboxSample.

Section outbox_sample.
Import OutboxSample.

Lemma claimed_Ok :
  exists db, claimed = Ok (db, leased, map (fun r => ClaimedOutboxEventV1.of_row r) leased).
Proof.
  unfold claimed, claim_outbox_events_for_test.
  set (attest := attest_delivery _ _ _ _ _ _ _ _). assert (is_err attest = false) as Ha by (vm_compute; reflexivity).
  apply (result_Ok Database.empty) in Ha. rewrite Ha. eexists. vm_compute. reflexivity.
Qed.

Lemma acknowledged_Ok n : (n < 2)%nat ->
  exists db, acknowledged (N.of_nat n + 1) (delivered n) = Ok (db, delivered (S n)).
Proof.
  intros Hn. unfold acknowledged, acknowledge_outbox_event_for_test.
  set (attest := attest_delivery _ _ _ _ _ _ _ _). assert (is_err attest = false) as Ha by (destruct n as [|[|]]; [vm_compute; done..|lia]).
  apply (result_Ok Database.empty) in Ha. rewrite Ha. destruct n as [|[|]]; [eexists; vm_compute; reflexivity..|lia].
Qed.

Lemma sample_ids : NoDup (ids rows).
Proof. refine (bool_decide_eq_true_1 _ _). vm_compute. reflexivity. Qed.

Lemma lease_is_exclusive_witness :
  exists event, OutboxRow.outbox_id (row 1) = ClaimedOutboxEventV1.outbox_id event /\
    forall key version session id locked worker limit lease db db' rows' events,
      claim_outbox_events_for_test ChainSample.security key version session id locked worker limit lease 60000199 db leased
        = Ok (db', rows', events) ->
      ClaimedOutboxEventV1.outbox_id event ∉ map ClaimedOutboxEventV1.outbox_id events.
Proof.
  destruct claimed_Ok as [db Hc]. eexists. split; [|refine (proj1 (lease_is_exclusive ChainSample.security
    LedgerSample.attestation_key 1 _ (Toy.uuid 901) ∅ worker 2 60 200 Database.empty rows db leased _ _ 200 leased 60000199
    sample_ids Hc (list_elem_of_here _ _) (rtc_refl _ _) _)); split; [discriminate|reflexivity]].
  reflexivity.
Defined.

Lemma event_is_delivered_once_witness :
  is_err (acknowledge_outbox_event_for_test ChainSample.security LedgerSample.attestation_key 1 (LedgerSample.session 300 3) (Toy.uuid 300)
    worker (Toy.uuid 1) 300 Database.empty (delivered 1)) = true.
Proof.
  destruct (acknowledged_Ok 0 ltac:(lia)) as [db Ha].
  refine (proj2 (event_is_delivered_once ChainSample.security LedgerSample.attestation_key 1 _ _ worker (Toy.uuid 1) 200 Database.empty
    (delivered 0) db (delivered 1) 200 (delivered 1) _ Ha (rtc_refl _ _)) _ _ _ _ _ _ _).
  exact sample_ids.
Defined.

Lemma worker_round n x rows :
  map ClaimedOutboxEventV1.outbox_id (taken_by n rows).2 = [Toy.uuid n] -> offers x rows = true ->
  forallb (fun row => OutboxRow.delivery_attempts row <? Z.of_N i32_max)%Z rows = true ->
  round ChainSample.security x (200%Z, rows) (200%Z, drained_by n rows).
Proof.
  intros Hids Hoffer Hmax. refine (round_of _ _ _ _ (worker_call n) ∅ worker 1 60 (200%Z, rows) 200 (rtc_refl _ _) _ _ _ _ _ _ _);
    [done|constructor|lia|lia| | |].
  - apply Forall_forall. rewrite forallb_forall in Hmax. intros row Hin%list_elem_of_In. by apply Z.ltb_lt, Hmax.
  - unfold offers in Hoffer. rewrite forallb_forall in Hoffer. intros row Hin%list_elem_of_In Hid. specialize (Hoffer row Hin).
    rewrite !orb_true_iff, negb_true_iff, bool_decide_eq_false in Hoffer. destruct Hoffer as [[?|Hd]|Hc]; [done|left|right].
    + destruct (OutboxRow.delivered_at row); [discriminate|discriminate Hd].
    + split; [exact Hc|apply not_elem_of_empty].
  - change (works_off ChainSample.security (200 + Z.of_N 60 * 1000000) worker (map ClaimedOutboxEventV1.outbox_id (taken_by n rows).2)
      (200%Z, (taken_by n rows).1) (200%Z, drained_by n rows)).
    rewrite Hids. eapply (next_event _ _ _ (worker_call (10 + n)) _ _ _ (200%Z, (taken_by n rows).1) 200);
      [reflexivity|cbn; lia|constructor|apply nothing_left].
Qed.

Lemma sample_reachable : outbox_reachable ChainSample.security (0%Z, []) (100%Z, rows).
Proof.
  eapply rtc_l; [|eapply rtc_l; [|reflexivity]].
  - apply (enqueued _ 0 100 [] (Toy.uuid 1) (LedgerSample.command_of 1 LedgerSample.start) transition Null); [lia|].
    apply not_elem_of_nil.
  - apply (enqueued _ 100 100 [row 1] (Toy.uuid 2) (LedgerSample.command_of 1 LedgerSample.start) transition Null); [lia|].
    refine (bool_decide_eq_true_1 _ _). vm_compute. reflexivity.
Qed.

(** Two rounds of a worker that takes one event a round deliver the second event. *)
Lemma worker_drains_the_outbox_witness :
  exists row', row' ∈ drained_by 2 (drained_by 1 rows) /\ OutboxRow.outbox_id row' = Toy.uuid 2 /\ OutboxRow.delivered_at row' <> None.
Proof.
  refine (proj1 (worker_drains_the_outbox ChainSample.security 0 100 rows 200 (row 2) sample_reachable _ _ _) 2%nat
    (200%Z, drained_by 2 (drained_by 1 rows)) _ _).
  - lia.
  - right. left.
  - reflexivity.
  - eapply nsteps_l; [apply (worker_round 1)|eapply nsteps_l; [apply (worker_round 2)|apply nsteps_O]]; vm_compute; reflexivity.
  - apply Nat.leb_le. vm_compute. reflexivity.
Defined.
End outbox_sample.

(** ** A start *)

Module ConnectSample.
Import Toy ChainSample LedgerSample.

Definition schema : text := txt "idr_shadow_lab".
Definition production_schema : text := txt "idr_production_lab".
(** An empty schema, which the migrator brings to the expected version *)
Definition state : deployment InMemoryAuditCheckpointAnchorV1.t :=
  mkDeployment _ None ∅ Database.empty [] ∅.
Definition migrate (found : option Migrations.t) : Chain (option Migrations.t) :=
  Ok (Some (default (Migrations.mk EXPECTED_SCHEMA_MIGRATION_VERSION_V1 EXPECTED_SCHEMA_MIGRATION_VERSION_V1 true) found)).
(** The catalogue of a schema whose runtime role is confined: the user [worker] of the
    schema's role, 22 views, a table and the entry, all owned by [owner]. *)
Definition role (name : text) (login : bool) : RoleRow.t := RoleRow.mk name login false false false false false login.
Definition relation (oid : N) (name : text) (kind : RelationKind.t) : RelationRow.t := RelationRow.mk oid name schema kind (txt "owner").
Definition views : list RelationRow.t :=
  relation 1 (txt "idr_transition_attestations_v7") RelationKind.Table
  :: relation 2 (txt "idr_orchestrator_attestation_secrets_v7") RelationKind.Table
  :: map (fun n => relation (10 + N.of_nat n) (txt "idr_view_" ++ dec_text (N.of_nat n)) RelationKind.View) (seq 0 22).
Definition writes (privilege : Privilege.t) : bool :=
  match privilege with Privilege.Insert | Privilege.Update => true | _ => false end.
Definition reads (privilege : Privilege.t) : bool := match privilege with Privilege.Select => true | _ => false end.
Definition catalog : Catalog.t :=
  Catalog.mk (txt "worker") [role (txt "worker") true; role (required_role_name schema) false; role (txt "owner") false] views
    [ProcedureRow.mk 1 attested_entry schema true (Some [pinned_search_path schema])]
    (fun name _ => contains name [txt "worker"; required_role_name schema])
    (fun _ _ => false) (fun _ => false)
    (fun oid privilege => if oid =? 1 then reads privilege else if oid =? 2 then false else reads privilege || writes privilege)
    (fun _ _ => false) (fun _ privilege => match privilege with Privilege.Execute => true | _ => false end).
Definition returned {A} (o : outcome A) : bool := match o with Returned (Ok _) => true | _ => false end.
Definition shadow_key : OrchestratorAttestationKeyV1.t := OrchestratorAttestationKeyV1.random_shadow_key (Toy.uuid 1) (Toy.uuid 2).
Definition opened : Chain (deployment InMemoryAuditCheckpointAnchorV1.t) :=
  connect_shadow (P := parser) security (from_value record1) migrate catalog schema (Ok trust_root) (Ok trust_root) (Toy.uuid 1)
    (Toy.uuid 2) state.
Definition opened_with_key : Chain (deployment InMemoryAuditCheckpointAnchorV1.t) :=
  connect_for_domain (P := parser) security (from_value record1) migrate catalog schema (Ok trust_root) (Ok trust_root)
    TrustDomainV1.Shadow shadow_key state.
Definition key_file : text := txt " " ++ encode_hex (be_bytes 32 99) ++ [10].
End ConnectSample.

Section connect_sample.
Import ConnectSample.

Lemma opened_Ok : is_err opened = false /\ is_err opened_with_key = false.
Proof. split; vm_compute; reflexivity. Qed.

Lemma shadow_authority_opens_once_witness :
  exists after, opened = Ok after /\
    (is_err (connect_shadow ChainSample.security (from_value record1) migrate catalog schema (Ok ChainSample.trust_root)
       (Ok ChainSample.trust_root) (Toy.uuid 3) (Toy.uuid 4) after) = true \/ sha256_collision).
Proof.
  pose proof (result_Ok state _ (proj1 opened_Ok)) as Ho. eexists. split; [exact Ho|].
  refine (shadow_authority_opens_once ChainSample.security (from_value record1) migrate catalog schema (Ok ChainSample.trust_root)
    (Ok ChainSample.trust_root) (Toy.uuid 1) (Toy.uuid 2) state _ ChainSample.security (from_value record1) migrate catalog schema
    (Ok ChainSample.trust_root) (Ok ChainSample.trust_root) (Toy.uuid 3) (Toy.uuid 4) _ Ho eq_refl _).
  discriminate.
Defined.

(** The catalogue passes the check, and a role that may also insert into a table does
    not. *)
Lemma production_role_checked :
  verify_production_runtime_role schema catalog = Ok tt /\
  is_err (verify_production_runtime_role schema (Catalog.mk (Catalog.current_user catalog) (Catalog.roles catalog) (Catalog.relations catalog)
    (Catalog.procedures catalog) (Catalog.pg_has_role catalog) (Catalog.has_schema_privilege catalog)
    (Catalog.has_database_privilege catalog) (fun oid privilege => (oid =? 2) || Catalog.has_table_privilege catalog oid privilege)
    (Catalog.has_sequence_privilege catalog) (Catalog.has_function_privilege catalog))) = true.
Proof. split; vm_compute; reflexivity. Qed.

Lemma key_file_roundtrip_witness :
  OrchestratorAttestationKeyV1.from_protected_environment_file (Some (Some (KeyFile.mk true 384 (Some key_file))))
  = Returned (Ok (OrchestratorAttestationKeyV1.mk (be_bytes 32 99) ORCHESTRATOR_ATTESTATION_KEY_VERSION_V1)).
Proof.
  refine (key_file_roundtrip 384 key_file (be_bytes 32 99) eq_refl eq_refl (be_bytes_is_byte 32 99) _). vm_compute. reflexivity.
Defined.

Definition key_path : option (option KeyFile.t) := Some (Some (KeyFile.mk true 384 (Some key_file))).
Lemma migrates : returned (migrate_production migrate production_schema key_path state) = true.
Proof. vm_compute. reflexivity. Qed.
Lemma returned_Ok {A} (o : outcome A) : returned o = true -> exists a, o = Returned (Ok a).
Proof. destruct o as [[a|]|]; [|done..]. by exists a. Qed.
Lemma returned_inj {A} (a b : Chain A) : Returned a = Returned b -> a = b.
Proof. by intros [=]. Qed.
Lemma migration_settles found migrations : migrate found = Ok migrations -> migrate migrations = Ok migrations.
Proof. intros [= <-]. reflexivity. Qed.
Lemma migrated_settled path schema before after :
  migrate_production migrate schema path before = Returned (Ok after) -> migrate (dp_migrations _ after) = Ok (dp_migrations InMemoryAuditCheckpointAnchorV1.t after).
Proof.
  unfold migrate_production. destruct (OrchestratorAttestationKeyV1.from_protected_environment_file path) as [[key|]|]; [|done..].
  intros Hm. apply returned_inj in Hm. apply bind_unit_Ok in Hm as [_ Hm]. apply reject_Ok in Hm as [_ Hm]. apply bind_Ok in Hm as (m & Hmig%migration_settles & Hm).
  apply bind_Ok in Hm as (sec & _ & Hm). by apply bind_unit_Ok in Hm as [_ [= <-]].
Qed.

Lemma migrated_schema_keeps_its_key_witness :
  exists migrated, migrate_production migrate production_schema key_path state = Returned (Ok migrated) /\
    migrate_production migrate production_schema key_path migrated = Returned (Ok migrated).
Proof.
  destruct (returned_Ok (migrate_production migrate production_schema key_path state) migrates) as [migrated Hm]. exists migrated. split; [exact Hm|].
  refine (proj1 (migrated_schema_keeps_its_key migrate production_schema key_path key_path _ _ state migrated
    key_file_roundtrip_witness key_file_roundtrip_witness Hm (migrated_settled _ _ _ _ Hm)) eq_refl).
Defined.

Lemma reopening_changes_nothing_witness :
  exists after, opened_with_key = Ok after /\
    connect_for_domain ChainSample.security (from_value record1) migrate catalog schema (Ok ChainSample.trust_root)
      (Ok ChainSample.trust_root) TrustDomainV1.Shadow shadow_key after = Ok after.
Proof.
  pose proof (result_Ok state _ (proj2 opened_Ok)) as Ho. eexists. split; [exact Ho|].
  refine (reopening_changes_nothing ChainSample.security (from_value record1) migrate catalog schema (Ok ChainSample.trust_root)
    (Ok ChainSample.trust_root) TrustDomainV1.Shadow shadow_key state _ Ho _).
  vm_compute. reflexivity.
Defined.
End connect_sample.

(** ** The human model *)

Section model.
Import LedgerSample.

Lemma tells_Ok clock db count :
  tells clock db count = true -> exists results, answer clock db = Ok results /\ length results = count.
Proof. unfold tells. destruct (answer clock db) as [results|]; [|done]. intros H%Nat.eqb_eq. by exists results. Qed.

Lemma copies_repeat_their_record_witness : copy_mismatch (ledger_at 15).1 = false.
Proof. exact (proj1 (copies_repeat_their_record (P := ChainSample.parser) ChainSample.security _ (reached 15 ltac:(lia)))). Defined.

Lemma effective_assertion_was_promoted_witness :
  exists e promotion, answer 151 (ledger_at 15).1 = Ok [e] /\
    promotion ∈ Specialized.promotions (Database.specialized (ledger_at 15).1) /\
    expected_lifecycle (PromotionRow.outcome promotion) = Some (EffectiveHumanModelAssertionV1.lifecycle_state e).
Proof.
  destruct (tells_Ok _ _ _ (told_15 _ ledger_facts)) as (results & Ha & Hl). pose proof (reached 15 ltac:(lia)) as Hr.
  revert Ha Hr. generalize (ledger_at 15). intros [db anchor] Ha Hr. cbn [fst] in *. destruct results as [|e [|]]; [discriminate Hl| |discriminate Hl].
  destruct (effective_assertion_was_promoted (P := ChainSample.parser) ChainSample.security question 151 db [e] e Hr Ha
    ltac:(by left)) as (row & contract & promotion & candidate & _ & _ & _ & _ & _ & Hp & Hl' & _).
  exists e, promotion. by split_and!.
Defined.

Lemma renewal_replaces s outcome :
  replaces s outcome = true -> is_some (IdrRunProjectionV1.records (run_of s.1) !! CandidateKindV1.Outcome) = true ->
  exists receipt results, outcome = (outcome.1.1, outcome.1.2, Ok receipt) /\ IdrCommandReceiptV1.idempotent_replay receipt = false /\
    answer 151 outcome.1.1 = Ok results /\
    withdraws (renewed s) (IdrRunProjectionV1.records (run_of s.1)) (IdrCommandReceiptV1.record_ref receipt) (last_outcome s.1).
Proof.
  unfold replaces. rewrite !andb_true_iff. intros [[(receipt & Ho & Hf)%accepted_Ok (results & Ha & _)%tells_Ok] Hr] Hout.
  exists receipt, results. split_and!; [exact Ho|exact Hf|exact Ha|]. rewrite Ho in Hr. cbn [snd] in Hr.
  apply is_some_and_true in Hr as (new & Hnew & Hk). rewrite !andb_true_iff, negb_true_iff, !bool_decide_eq_true, bool_decide_eq_false in Hk.
  destruct Hk as [[Hk Hroot] Hne]. apply (withdraws_replaced _ _ _ _ new); [exact Hnew| |..].
  - rewrite Hk. unfold renewed, ChainSample.script. by destruct (ChainSample.execution_of _) as [[? ?] ?].
  - unfold last_outcome, ChainSample.record_of in Hroot |- *. rewrite Hk. by destruct (_ !! _).
  - by rewrite Hroot, Hk.
  - exact Hne.
Qed.

Lemma learned_derived db :
  learned db = true -> stored_assertion db ∈ Database.records db /\
  rtc (derived (Database.dependencies db)) (node (last_outcome db)) (row_node (stored_assertion db)).
Proof.
  unfold learned. intros [Hs Hd]%andb_true_iff. split.
  - unfold stored_assertion. destruct (find_record db _) as [row|] eqn:Hf; [|done]. by apply find_first_Some in Hf as [? _].
  - destruct (closure_exact (Database.dependencies db) (node (last_outcome db))) as (found & Hf & Hex). rewrite Hf in Hd.
    apply Hex. by apply bool_decide_eq_true in Hd.
Qed.

Lemma withdrawn_evidence_is_never_told_witness :
  let s := ledger_at 15 in let after := (call ChainSample.now 35 (renewed s) s).1.1 in
  exists results, answer 151 after = Ok results /\
    forall e, e ∈ results -> (EffectiveHumanModelAssertionV1.assertion_record_id e, EffectiveHumanModelAssertionV1.assertion_revision e)
      <> row_node (stored_assertion s.1).
Proof.
  cbv zeta. destruct (renewal_replaces _ _ (renewal_15 _ ledger_facts) (outcome_15 _ ledger_facts)) as (receipt & results & Ho & Hf & Ha & Hw).
  destruct (learned_derived _ (learned_15 _ ledger_facts)) as [Hin Hd]. pose proof (has_run_Some _ (has_run_15 _ ledger_facts)) as Hrow.
  pose proof (reached 15 ltac:(lia)) as Hr. revert Ho Ha Hw Hin Hd Hrow Hr. generalize (ledger_at 15). intros [db anchor] Ho Ha Hw Hin Hd Hrow Hr.
  cbn [fst snd] in *. exists results. split; [exact Ha|].
  exact (withdrawn_evidence_is_never_told ChainSample.security attestation_key 1 ChainSample.trust_root false true
    (session ChainSample.now 35) (publication ChainSample.now 35) (ChainSample.minted 35) (renewed (db, anchor)) ChainSample.now
    db anchor _ _ receipt (run_row db) (last_outcome db) (stored_assertion db) _ question 151 results
    Hr Ho Hf Hrow Hw Hin Hd (rtc_refl _ _) Ha).
Defined.

Lemma reachable_database_passes_the_domain_check_witness :
  verify_trust_domain ChainSample.security (ledger_at 15).1 [] = Ok tt.
Proof.
  exact (reachable_database_passes_the_domain_check (P := ChainSample.parser) ChainSample.security _ 0 0 [] (reached 15 ltac:(lia)) (rtc_refl _ _)).
Defined.

Lemma promotion_refuses_recall_commands_witness :
  (call ChainSample.now 34 (invalidation (ledger_at 15)) (ledger_at 15)).1 = ledger_at 15 /\
  is_err (call ChainSample.now 34 (invalidation (ledger_at 15)) (ledger_at 15)).2 = true.
Proof.
  pose proof (unanswered_None _ _ (unanswered_15 _ ledger_facts)) as Hu. pose proof (promoted_15 _ ledger_facts) as Hp.
  pose proof (has_run_Some _ (has_run_15 _ ledger_facts)) as Hrow. pose proof (reached 15 ltac:(lia)) as Hr.
  revert Hu Hp Hrow Hr. generalize (ledger_at 15). intros [db anchor] Hu Hp Hrow Hr. cbn [fst] in *.
  destruct (call ChainSample.now 34 (invalidation (db, anchor)) (db, anchor)) as [[db' anchor'] outcome] eqn:Hc.
  destruct (promotion_refuses_recall_commands ChainSample.security attestation_key 1 ChainSample.trust_root false true
    (session ChainSample.now 34) (publication ChainSample.now 34) (ChainSample.minted 34) (invalidation (db, anchor)) ChainSample.now
    db anchor db' anchor' outcome (run_row db)) as (-> & -> & Herr); [exact Hr|exact Hrow| |left; by do 2 eexists|exact Hu|exact Hc|by split].
  unfold run_of in Hp. by destruct (IdrRunProjectionV1.human_model_promotion _).
Defined.

Lemma outlives_told db :
  outlives db = true -> ContractRow.valid_until (stored_assertion db) < 5000 /\ exists e, answer 5000 db = Ok [e].
Proof.
  intros [Hv%N.ltb_lt (results & Ha & Hl)%tells_Ok]%andb_true_iff. split; [exact Hv|].
  destruct results as [|e [|]]; try discriminate Hl. by exists e.
Qed.

(** The query looks at [expires_at] alone: long after the record of an assertion has
    lost its validity, the assertion is still told. *)
Lemma assertion_outlives_its_validity :
  ContractRow.valid_until (stored_assertion (ledger_at 15).1) < 5000 /\ exists e, answer 5000 (ledger_at 15).1 = Ok [e].
Proof. exact (outlives_told _ (late_15 _ ledger_facts)). Qed.
End model.
