(* ===== verification/RotationSample.v ===== *)
(** * RotationSample: a trust root replaced between two commands

    The first two commands of [ChainSample], the second under a newer root.  The witnesses
    of the theorems of [Rotation] are taken from it. *)

From stdpp Require Import base list gmap fin_sets countable sorting strings relations.
From Stdlib Require Import NArith ZArith Lia.
From S2P Require Import Prelude Text Json Crates CanonicalJson Common Production ProductionProps ChainData ChainCommand ChainPayload ChainTransition ChainEvaluate ChainRepository Authority ChainProps ChainExecution AuthorityProps LedgerData Copies Ledger LedgerProps Rotation ChainSample LedgerSample.

Module RotationSample.
Import Toy ChainSample LedgerSample.

(** The same keys under a newer version *)
Definition renewed_root : TrustRootSnapshotV1.t :=
  TrustRootSnapshotV1.mk TrustDomainV1.Shadow environment 4 (digest 6) 41 (TrustRootSnapshotV1.keys trust_root).

(** [call] under a root of its own *)
Definition call_under (root : TrustRootSnapshotV1.t) (clock n : N) (command : IdrCommandEnvelopeV1.t) (s : ledger) : ledger :=
  (Ledger.handle (P := parser) security attestation_key 1 root false true (session clock n) (publication clock n) (minted n) command
    clock s.1 s.2).1.
Definition first : ledger := call_under trust_root now 1 (command_of 1 start) start.
Definition second : ledger := call_under renewed_root now 2 (command_of 2 first) first.
Definition before_rotation : Runtime.t := Runtime.mk (RotatingTrustRootProviderV1.new trust_root) [] first.1.
Definition rotated : Runtime.t := Runtime.mk (RotatingTrustRootProviderV1.new renewed_root) [] first.1.
Definition after_rotation : Runtime.t := Runtime.mk (RotatingTrustRootProviderV1.new renewed_root) [] second.1.
Definition other_key : ReferenceV1.t := ref "key:2".
End RotationSample.

Section rotation_sample.
Import RotationSample.

(** Both commands leave proofs, the second those of the newer root. *)
Lemma proofs_stored :
  forallb (fun row => EnvelopeRow.trust_root_version row =? 3) (proofs before_rotation) = true /\
  (map (fun row => EnvelopeRow.trust_root_version row =? 4) (proofs after_rotation)
     == repeat false (length (proofs before_rotation)) ++ [true; true]) = true /\
  (0 <? length (proofs before_rotation))%nat = true.
Proof. split_and!; vm_compute; reflexivity. Qed.

(** A command from its start to its answer *)
Lemma answered offered root clock n command (s : LedgerSample.ledger) :
  rtc (runtime_step (P := ChainSample.parser) ChainSample.security offered)
    (Runtime.mk (RotatingTrustRootProviderV1.new root) [] s.1)
    (Runtime.mk (RotatingTrustRootProviderV1.new root) [] (call_under root clock n command s).1).
Proof.
  eapply rtc_l; [by apply (begins _ _ (RotatingTrustRootProviderV1.new root) root)|]. apply rtc_once.
  unfold call_under. destruct (Ledger.handle _ _ _ _ _ _ _ _ _ _ _ _ _) as [[db anchor] outcome] eqn:Hc.
  exact (answers _ _ (RotatingTrustRootProviderV1.new root) [] root [] _ _ _ _ _ _ _ _ _ _ _ _ _ _ Hc).
Qed.

Lemma rotation_step offered db :
  offered renewed_root ->
  runtime_step (P := ChainSample.parser) ChainSample.security offered
    (Runtime.mk (RotatingTrustRootProviderV1.new ChainSample.trust_root) [] db) (Runtime.mk (RotatingTrustRootProviderV1.new renewed_root) [] db).
Proof. intros Ho. by apply (rotates _ _ renewed_root). Qed.

Lemma superseded_root_verifies_nothing_witness :
  exists rows, proofs after_rotation = proofs rotated ++ rows /\ forall row, row ∈ rows ->
    exists root, verified_under root row /\ TrustRootSnapshotV1.root_version (current_root rotated) <= TrustRootSnapshotV1.root_version root.
Proof.
  refine (proj1 (superseded_root_verifies_nothing (P := ChainSample.parser) ChainSample.security ChainSample.trust_root rotated after_rotation _ _ _)).
  - eapply rtc_r; [exact (answered _ ChainSample.trust_root ChainSample.now 1 (LedgerSample.command_of 1 LedgerSample.start) LedgerSample.start)|].
    by apply rotation_step.
  - constructor.
  - exact (answered _ renewed_root ChainSample.now 2 (LedgerSample.command_of 2 first) first).
Defined.

Lemma withdrawn_key_signs_nothing_witness :
  exists rows, proofs after_rotation = proofs (started ChainSample.trust_root) ++ rows /\
    forall row, row ∈ rows -> EnvelopeRow.key_id row <> other_key.
Proof.
  refine (withdrawn_key_signs_nothing (P := ChainSample.parser) ChainSample.security other_key (started ChainSample.trust_root) after_rotation _ _ _).
  - vm_compute. reflexivity.
  - constructor.
  - etransitivity; [exact (answered _ ChainSample.trust_root ChainSample.now 1 (LedgerSample.command_of 1 LedgerSample.start) LedgerSample.start)|].
    eapply rtc_l; [apply rotation_step; vm_compute; reflexivity|].
    exact (answered _ renewed_root ChainSample.now 2 (LedgerSample.command_of 2 first) first).
Defined.
End rotation_sample.
